(* ===== verification/_CoqProject ===== *)
-Q . S2P
Prelude.v
PyData.v
PyRegex.v
Models.v
ClaimIdentity.v
RedisKeys.v
ClaimLedger.v
ClaimLedgerTheorems.v
ClaimDisplay.v
PreferenceClaims.v
PreferenceClaimTheorems.v
RuntimeHolds.v
RuntimeHoldTheorems.v
VectorOutbox.v
Versions.v
Importance.v
Lifecycle.v
LifecycleTheorems.v
ConflictResolution.v
ConflictResolutionTheorems.v
Quota.v
RateLimit.v
QueueRouter.v
ConflictDetection.v
ConflictDetectionTheorems.v
CrossUser.v
CrossUserTheorems.v
ResolverDecisions.v
Resolver.v
ResolverTheorems.v
ResolverEffects.v
QuotaReset.v
ContextBuilder.v
ContextBuilderTheorems.v
Ranking.v
PreferenceReads.v
Retriever.v
RankingTheorems.v
RetrieverTheorems.v
ExtractionJobs.v
ExtractionJobTheorems.v
CircuitBreaker.v
UniversalLedger.v
PassportMemories.v
PassportInvariant.v
PassportTheorems.v
DomainProjection.v
UniversalRows.v
DomainProjectionTheorems.v
PassportAccess.v
PassportAccessTheorems.v
PassportLinks.v
PassportLinkTheorems.v
QualityGate.v
QualityGateTheorems.v
PassportAgents.v
PassportAgentTheorems.v
TenantAuth.v
TenantAuthTheorems.v
ProxyUsers.v
ProxyUserTheorems.v
Billing.v
BillingTheorems.v
