(* ===== verification/Prelude.v ===== *)
(** * MemoryOS memory API: a verification development

    The repository is a multi-tenant memory service for language-model
    applications: clients post conversations, workers extract memories from
    them, a claim ledger decides which of several assertions about a user is
    current, a lifecycle manager ages and archives memories, an outbox carries
    every change to the vector store, and a context builder renders what is
    remembered into a prompt.  Around that stand admission (rate limits, plans,
    quotas, the quality gate, extraction slots) and the circuit breakers every
    dependency is called through.  This library models the logic of those parts
    as it is written in [api/] and proves what makes each of them correct.

    ** Parts and files

    Shared ground
    - [Prelude]: notation, record updates, exact rationals ([py_round] is
      Python's [round]), list and arithmetic lemmas, tactics, hint databases.
    - [PyData]: Python values the service computes with: ASCII text, JSON
      objects with truthiness and coercions, dictionaries, stable sorting.
    - [PyRegex]: the regular expressions of the source's patterns, with a
      backtracking matcher proved to find exactly the declarative matches.
    - [Models]: the enumerations and rows of [api/db/models.py].

    What is remembered
    - [ClaimIdentity] ([claim_ledger_service.py] helpers, [claim_versions.py],
      [temporal_validity.py], [schemas/preferences.py]): fingerprints of
      propositions, authority of sources, observation times, validity intervals.
    - [ClaimLedger], [ClaimLedgerTheorems] ([claim_ledger_service.py], the hard
      delete of [memory_service.py]): a claim, its revisions and its winner.
      The state is the two tables; [wf] is the ledger invariant: at most one
      activated revision per claim, and it is the one the claim names.
      [ClaimDisplay]: what recording a memory does to what claims display.
    - [Importance] ([importance_scorer.py]), [Versions] ([version_service.py]),
      [Lifecycle], [LifecycleTheorems] ([lifecycle_manager.py]): scores, history,
      and the sweeps that age memories.  The session [Life] holds claim tables,
      memories, versions and outbox together.
    - [ConflictDetection], [ConflictDetectionTheorems] ([conflict_detection.py]):
      which stored memories a new one may contradict.
    - [ConflictResolution], [ConflictResolutionTheorems]
      ([conflict_resolution_service.py]): resolving a conflict by hand, one
      operation over ledger, memories, versions and outbox.
    - [CrossUser], [CrossUserTheorems] ([conflict_routing/], the module functions
      and shared-context methods of [conflict_resolver.py]): facts a tenant's
      users share, their disagreements, and how these are settled.
    - [ResolverDecisions], [Resolver], [ResolverTheorems], [ResolverEffects]
      ([conflict_resolver.py]): storing extracted memories against what is
      already remembered: who wins by authority and time, what a classifier's
      reply may do, and the effects on all tables.
    - [VectorOutbox] ([vector_outbox.py], [vector_sync_tasks.py]): rows queued
      in the writer's transaction and the task that applies them.
    - [PreferenceClaims], [PreferenceClaimTheorems] ([schemas/preferences.py],
      [preference_claim_service.py], [target_version] of
      [source_review_service.py]): declared preferences, the mark of a choice
      still open, and the transition a new declaration may make.
    - [RuntimeHolds], [RuntimeHoldTheorems] ([runtime_withholding.py], the
      schemas of footprints, diagnoses and releases): what guarded jobs that are
      not yet resolved withhold from every reader.
    - [Ranking], [RankingTheorems], [PreferenceReads], [Retriever],
      [RetrieverTheorems] ([retriever.py], [preference_discovery.py], the reading
      side of [preference_snapshot_service.py] and
      [preference_confirmation_service.py]): the candidates of a request, their
      ranking, and the final snapshot read that decides what is shown.
    - [ContextBuilder], [ContextBuilderTheorems] ([context_builder.py]): the
      memories shown to a model within a token budget.

    Admission and work
    - [Quota] ([plan_limits.py], [budget_governor.py], [quota_manager.py]),
      [QuotaReset] ([quota_tasks.py]), [RateLimit] ([rate_limiter.py]).
    - [QueueRouter] ([queue_router.py]): extraction slots in Redis, the two Lua
      scripts included, refining an abstract admission controller.
    - [ExtractionJobs], [ExtractionJobTheorems] ([memory_service.py],
      [extraction_tasks.py], [watchdog_tasks.py], [routers/internal.py]): the
      life of a job as a transition system with an at-least-once broker.
    - [QualityGate], [QualityGateTheorems] ([quality_gate.py]): the layers a
      conversation passes before it is extracted, with their counters and log.
    - [CircuitBreaker] ([infra/circuit_breaker.py] and its registry): the
      breaker with local and shared state.
    - [RedisKeys]: keys with an expiry, read, written and counted.

    Tenants
    - [TenantAuth], [TenantAuthTheorems] ([middleware/auth.py],
      [middleware/admin_auth.py], [api_key_service.py]): API keys, Clerk sessions
      and their caches, the pages of the key listing.
    - [ProxyUsers], [ProxyUserTheorems] ([proxy_user_service.py]): a tenant's
      users, resolved by their external id, blocked, unblocked and erased.
    - [Billing], [BillingTheorems] ([razorpay_billing_service.py],
      [routers/billing.py], [routers/razorpay_webhooks.py]): subscriptions,
      checkouts and the provider's events, and the plans they carry.

    Passports: memories a person carries between tenants
    - [UniversalLedger] ([universal_claim_ledger.py], the passport's rows of
      [models.py]), [PassportMemories] ([universal_extraction_tasks.py] and the
      handlers of [routers/uui.py] on single memories): what agents write into a
      passport and its holder corrects, flags and deletes.  The state [Passport]
      holds the tables.  [PassportInvariant], [PassportTheorems]: the ledger
      invariant [passport_ok] and what a delivery may change.
    - [DomainProjection], [UniversalRows], [DomainProjectionTheorems]
      ([domain_projection_service.py]): copies of a tenant's domain memories into
      the passports linked to it; the types of the rows.
    - [PassportAccess], [PassportAccessTheorems] ([uui_service.py], handlers of
      [routers/uui.py]): accounts, one-time passwords, tokens, grants, removal.
      The state [Access] adds the Redis keys.
    - [PassportLinks], [PassportLinkTheorems] ([passport_link_service.py],
      [organisation_connection_service.py]): links to a tenant's users.
    - [PassportAgents], [PassportAgentTheorems] ([global_agent_service.py],
      [universal_auth.py], [routers/universal.py]): agents, their keys and
      capabilities, and what they read and submit under a grant.

    ** What the theorems show

    The ledger group: recording a memory or a domain field leaves a well-formed
    ledger in which exactly the intended revision is current, or fails: before
    its first write, unless the evidence it is given cannot be listed; a manual choice is what is displayed afterwards; a hard
    delete leaves no trace of the memory.  The lifecycle group: a transition run
    cannot fail on a consistent database and leaves no transition due; scores
    decay monotonically and idempotently.  The resolver
    group: between ranked sources authority decides whatever the classifier
    says; a reply changes something only when it is well formed, committed and
    grounded; recording shared context writes nothing but signals, conflicts and
    their verdicts, and leaves the session usable unless the database refuses one
    of its statements; and storing a claim, from a verified source or another,
    keeps memories, ledger and outbox in agreement, whatever the classifiers say.
    The reading group: whatever caches, index and embedder answer and whatever
    commits meanwhile, a reader sees only live memories of the reader's own that
    the request's own SQL saw, and nothing a pending update may be changing; a
    narrow hold accounts for every pending job; a declaration changes a
    preference only by naming the version it saw, and a choice mark outdates all
    versions named before; the ranking keeps the best of repeated memories; what
    is stored or cached reads back as it was.
    The delivery group: every outbox row
    is accounted for in a cycle and retried by its discipline, and a healthy
    store drains the outbox; a job is started a bounded number of times as long as
    nothing else writes its row during one of the worker's unlocked transactions,
    its runs overlap only after an
    intervention, a dead job has a dead letter, and the watchdog recovers every
    due job.  The admission group: the slots in Redis refine an admission
    controller, whichever calls fail or lose their answer, and are never
    oversubscribed while their counters live, a blocking plan is never overrun,
    key limits are exact, overdue quota periods are worked off; a
    user passes the quality gate at most as often in a minute as the plan allows,
    and a repeated conversation is refused.  The rendering
    group: the context keeps the best memories, its loops terminate, notices
    fit their budget.
    The passport group: a passport is written only under a read-write grant in
    force, its ledger and counts stay consistent, a redelivered event stores
    nothing, projections stay within the link; a revoked grant denies at once and
    a removed passport is forgotten; guessing a password is bounded; links never
    cross tenants and a link token binds the holder who consents; an agent that
    authenticates is active, reads only live memories of the holder under a
    grant, and submits only under a read-write grant.  The tenant group: a request
    that an API key lets pass acts for the tenant and with the permissions of a
    stored key that accepts its secret, and a revoked key stops within five
    minutes; a session reaches only the tenant its signed claims name; a blocked
    user stays out and an erased one leaves nothing; plans follow the signed
    events of the one stored subscription they name, and a tenant's plan, budget
    and limits agree.  Examples and theorems of kind error state where the code
    falls short of what it means to do.

    ** Conventions

    - A float is an exact rational; [round(x, n)] rounds half to even.  Rounding
      of binary floating point is not modelled.
    - Text is ASCII; [lower] and character classes act on ASCII only.
    - UUIDs are integers, instants are microseconds in UTC.
    - A database session is a record of its tables.  [flush] checks what the
      database enforces at once; a violated constraint leaves the session
      unusable ([poisoned]) until it is dropped.  Fresh ids and the clock are
      inputs of an operation.
    - Redis is a record of its keys with their expiry; a script is atomic.
      Whether it answers is constant during one call of a passport service
      ([Moment]), and [now()] of a PostgreSQL transaction is its start.
    - Passport calls run one at a time; where two may meet (the regeneration of
      a token), the handler is split at its commit.  The grants a delivery sees
      when it commits are an input of the delivery.
    - Whether a dependency answers is an input.  Third-party code is a class:
      [PyLib] (digests, ISO and UUID parsing), [Hashing] (SHA-256 of canonical
      JSON), [VectorStore], [Tokenizer]; the embedder, the vector index and the
      classifier are section variables.  Their laws are hypotheses, each
      instantiated by a witness.
    - A retrieval runs in an environment [Env]: the database as each statement
      sees it, the snapshot of the final read, and what Redis, the index, the
      embedder, the breaker, the quota and user services answer.  Flags and
      lifetimes read from the process environment have their default values.
    - Processes interleave as an explicit sequence of transactions.  A worker's
      transactions that load a job without a lock may write the columns they
      changed over a row that others have written since ([Reads]).
    - A foreign key or value check of the database is not modelled; where the
      recording of shared context swallows what the database refuses, the refused
      statements are an input ([Outside]).

    ** Bounds and fuel

    - [chunks_of] recurses on fuel equal to the length of the list, and every
      chunk takes at least one element.
    - [shed] (dropping notices) has fuel equal to the number of notices; running
      out is an error value proved unreachable.
    - [many_ends] (repetition in a pattern) has fuel equal to the length of the
      text, since an iteration that consumes nothing is not repeated; the
      matcher is proved complete.
    - Printed numbers use forty digits, more than a 64-bit integer has.

    ** Not modelled

    - Calls of language models and what is built around them: prompts and the
      validation of replies ([extraction_service.py], [extraction_tasks.py]'s
      pipeline, the support and education extractors), the provider clients and
      their router.  Their behaviour is that of services the source only calls.
    - The evidence policy ([evidence_policy.py]): tables of Unicode patterns in
      many languages, where text here is ASCII.
    - Of [conflict_resolver.py] the classifier of verified sources (an arbitrary
      relation here), batches of declared preferences, clarifications queued for
      two stored memories, and the lists of metrics; the preference workers and
      the admission of preference intents.
    - Listing, export and statistics handlers, schemas, HTTP and SQL plumbing, the
      clients of mail, of the payment provider and of webhooks, encryption,
      migrations, one-off backfills; the SDK, scripts, benchmarks and tests. *)

From Stdlib Require Export Ascii Sorting.Sorted QArith Qminmax Qround Qabs Lqa Lia.
From stdpp Require Export base gmap strings fin_maps sets numbers relations sorting list.
From coqutil Require Datatypes.RecordSettersUsingExistingGetters.
Export RecordSettersUsingExistingGetters.RecordSetNotations1.

#[global] Set Default Goal Selector "!".

(** Record updates [r <| f := v |>] reduce to the updated record. *)
#[global] Arguments RecordSettersUsingExistingGetters.set {R E} getter Setter fieldUpdater r /.
#[global] Arguments RecordSettersUsingExistingGetters.const {E} newValue _ /.

Declare Scope py_scope.
Delimit Scope py_scope with py.

(** ** Exact rationals standing for Python floats *)

Definition Qltb (a b : Q) : bool := negb (Qle_bool b a).

Notation "a <=?q b" := (Qle_bool a b) (at level 70) : py_scope.
Notation "a <?q b" := (Qltb a b) (at level 70) : py_scope.
Open Scope py_scope.

Lemma Qltb_lt (a b : Q) : (a <?q b) = true <-> (a < b)%Q.
Proof.
  unfold Qltb. rewrite negb_true_iff. split.
  - intros H. apply Qnot_le_lt. intros Hle. apply Qle_bool_iff in Hle. congruence.
  - intros H. destruct (Qle_bool b a) eqn:E; [|done].
    apply Qle_bool_iff in E. exfalso. lra.
Qed.

Lemma Qltb_ge (a b : Q) : (a <?q b) = false <-> (b <= a)%Q.
Proof. unfold Qltb. rewrite negb_false_iff. apply Qle_bool_iff. Qed.

Lemma Qleb_gt (a b : Q) : (a <=?q b) = false <-> (b < a)%Q.
Proof.
  rewrite <- Qltb_lt. unfold Qltb. destruct (Qle_bool a b); simpl; split; congruence.
Qed.

(** Turn every boolean comparison on [Q] in the context into its proposition. *)
Ltac q_reflect :=
  repeat match goal with
  | H : Qltb _ _ = true |- _ => apply Qltb_lt in H
  | H : Qltb _ _ = false |- _ => apply Qltb_ge in H
  | H : Qle_bool _ _ = true |- _ => apply Qle_bool_iff in H
  | H : Qle_bool _ _ = false |- _ => apply Qleb_gt in H
  end.

(** ** State and errors

    [M S E A] is a Python method body: it reads and writes the state [S] and
    returns a value of [A] or raises an exception of [E].  As in Python the
    writes made before a raise persist. *)

Definition M (S E A : Type) : Type := S -> S * (E + A).

#[export] Instance M_ret {S E} : MRet (M S E) := fun A a s => (s, inr a).
#[export] Instance M_bind {S E} : MBind (M S E) :=
  fun A B f m s => match m s with
                   | (s', inl e) => (s', inl e)
                   | (s', inr a) => f a s'
                   end.

Definition get_st {S E} : M S E S := fun s => (s, inr s).
Definition put_st {S E} (s' : S) : M S E unit := fun _ => (s', inr tt).
Definition modify_st {S E} (f : S -> S) : M S E unit := fun s => (f s, inr tt).
Definition raise_st {S E A} (e : E) : M S E A := fun s => (s, inl e).

Definition lift_opt {S E A} (e : E) (o : option A) : M S E A :=
  match o with Some a => mret a | None => raise_st e end.

Lemma M_bind_inr {S E A B} (m : M S E A) (f : A -> M S E B) s s' a :
  m s = (s', inr a) -> (m ≫= f) s = f a s'.
Proof. intros H. unfold mbind, M_bind. by rewrite H. Qed.

Lemma M_bind_inl {S E A B} (m : M S E A) (f : A -> M S E B) s s' e :
  m s = (s', inl e) -> (m ≫= f) s = (s', inl e).
Proof. intros H. unfold mbind, M_bind. by rewrite H. Qed.

Lemma M_bind_inv {S E A B} (m : M S E A) (f : A -> M S E B) s s' b :
  (m ≫= f) s = (s', inr b) -> exists s1 a, m s = (s1, inr a) /\ f a s1 = (s', inr b).
Proof.
  unfold mbind, M_bind. destruct (m s) as [s1 [e|a]]; [done|]. naive_solver.
Qed.

Lemma lift_opt_inv {S E A} (e : E) (o : option A) (s s' : S) a :
  lift_opt e o s = (s', inr a) -> s' = s /\ o = Some a.
Proof. unfold lift_opt. destruct o; intros [= <- <-]; done. Qed.

(** A computation preserves [P] when it does so whether it returns or raises. *)
Definition preserves {S E A} (P : S -> Prop) (m : M S E A) : Prop :=
  forall s, P s -> P (m s).1.

Lemma preserves_ret {S E A} (P : S -> Prop) (a : A) : preserves P (mret a : M S E A).
Proof. by intros s. Qed.

Lemma preserves_bind {S E A B} (P : S -> Prop) (m : M S E A) (f : A -> M S E B) :
  preserves P m -> (forall a, preserves P (f a)) -> preserves P (m ≫= f).
Proof.
  intros Hm Hf s Hs. specialize (Hm s Hs). unfold mbind, M_bind.
  destruct (m s) as [s1 [e|a]]; simpl in *; [done|]. by apply Hf.
Qed.

(** ** Rounding: Python's [round(x, n)], ties to even *)

Definition round_half_even (q : Q) : Z :=
  let f := Qfloor q in
  let d := (q - inject_Z f)%Q in
  match Qcompare d (1 # 2) with
  | Lt => f
  | Gt => f + 1
  | Eq => if Z.even f then f else f + 1
  end%Z.

Definition py_round (q : Q) (n : positive) : Q :=
  let scale := (10 ^ Zpos n)%Z in
  round_half_even (q * inject_Z scale) # Z.to_pos scale.

Lemma round_half_even_mono (a b : Q) :
  (a <= b)%Q -> (round_half_even a <= round_half_even b)%Z.
Proof.
  intros Hab. unfold round_half_even.
  pose proof (Qfloor_le a). pose proof (Qlt_floor a).
  pose proof (Qfloor_le b). pose proof (Qlt_floor b).
  pose proof (Qfloor_resp_le a b Hab) as Hf.
  rewrite inject_Z_plus in *.
  destruct (decide (Qfloor a = Qfloor b)) as [Heq|Hne].
  - rewrite <- Heq in *.
    destruct (Qcompare_spec (a - inject_Z (Qfloor a)) (1 # 2));
      destruct (Qcompare_spec (b - inject_Z (Qfloor a)) (1 # 2));
      try lia; try (destruct (Z.even _); lia); exfalso; lra.
  - assert (Qfloor a + 1 <= Qfloor b)%Z by lia.
    destruct (Qcompare (a - _) _); destruct (Qcompare (b - _) _);
      repeat destruct (Z.even _); lia.
Qed.

Lemma round_half_even_Z (z : Z) : round_half_even (inject_Z z) = z.
Proof.
  unfold round_half_even. rewrite Qfloor_Z.
  assert (inject_Z z - inject_Z z == 0)%Q as -> by ring. done.
Qed.

Lemma py_round_mono (a b : Q) n : (a <= b)%Q -> (py_round a n <= py_round b n)%Q.
Proof.
  intros H. unfold py_round, Qle. simpl. apply Z.mul_le_mono_nonneg_r; [lia|].
  apply round_half_even_mono. apply Qmult_le_compat_r; [done|].
  rewrite <- (inject_Z_injective 0) || change 0%Q with (inject_Z 0). rewrite <- Zle_Qle. lia.
Qed.

(** ** Rows of a table *)

Section Rows.
Context {K A : Type} `{Countable K}.
Implicit Types m : gmap K A.

Lemma elem_of_rows m (a : A) : a ∈ (snd <$> map_to_list m) <-> exists i, m !! i = Some a.
Proof.
  rewrite list_elem_of_fmap. split.
  - intros [[i x] [-> Hin]]. exists i. by apply elem_of_map_to_list.
  - intros [i Hi]. exists (i, a). split; [done|]. by apply elem_of_map_to_list.
Qed.

(** Rows that carry their own key are pairwise distinct. *)
Lemma NoDup_rows m (key : A -> K) :
  (forall i a, m !! i = Some a -> key a = i) -> NoDup (snd <$> map_to_list m).
Proof.
  intros Hkey. apply NoDup_fmap_2_strong; [|apply NoDup_map_to_list].
  intros [i x] [j y] Hx Hy. simpl. intros ->.
  apply elem_of_map_to_list, Hkey in Hx. apply elem_of_map_to_list, Hkey in Hy. congruence.
Qed.

Lemma NoDup_fmap_rows {B} m (key : A -> K) (f : A -> B) (P : A -> Prop) `{!forall a, Decision (P a)} :
  (forall i a, m !! i = Some a -> key a = i) ->
  (forall i j a b, m !! i = Some a -> m !! j = Some b -> P a -> P b -> f a = f b -> i = j) ->
  NoDup (f <$> filter P (snd <$> map_to_list m)).
Proof.
  intros Hkey Hinj. apply NoDup_fmap_2_strong; [|by apply NoDup_filter, (NoDup_rows _ key)].
  intros a b Ha Hb Hf. apply list_elem_of_filter in Ha as [Pa Ha], Hb as [Pb Hb].
  apply elem_of_rows in Ha as [i Hi], Hb as [j Hj].
  rewrite (Hinj i j a b Hi Hj Pa Pb Hf) in Hi. congruence.
Qed.
End Rows.

(** ** Rows that a query selects *)

Definition rows_where {A} (p : A -> bool) (t : gmap Z A) : list A :=
  filter (fun a => p a = true) (snd <$> map_to_list t).

Lemma elem_of_rows_where {A} (p : A -> bool) (t : gmap Z A) a :
  a ∈ rows_where p t <-> p a = true /\ exists i, t !! i = Some a.
Proof. unfold rows_where. by rewrite list_elem_of_filter, elem_of_rows. Qed.

Lemma no_row {A} (p : A -> bool) (t : gmap Z A) i x : rows_where p t = [] -> t !! i = Some x -> p x = false.
Proof.
  intros Hr Hx. destruct (p x) eqn:Hp; [|done].
  assert (x ∈ rows_where p t) as Hin by (apply elem_of_rows_where; eauto). rewrite Hr in Hin. by apply elem_of_nil in Hin.
Qed.

Lemma one_row {A} (p : A -> bool) (t : gmap Z A) x : rows_where p t = [x] -> p x = true /\ exists i, t !! i = Some x.
Proof. intros Hr. apply elem_of_rows_where. rewrite Hr. apply list_elem_of_here. Qed.

(** A list without repetitions whose only element is [a]. *)
Lemma singleton_of_NoDup {A} (l : list A) (a : A) :
  NoDup l -> (forall b, b ∈ l <-> b = a) -> l = [a].
Proof.
  intros Hnd Hl. destruct l as [|x [|y l]].
  - assert (a ∈ []) as H by (by apply Hl). by apply elem_of_nil in H.
  - f_equal. apply Hl, list_elem_of_here.
  - assert (x = a) as -> by (apply Hl, list_elem_of_here).
    assert (y = a) as -> by (apply Hl, list_elem_of_further, list_elem_of_here).
    apply NoDup_cons in Hnd as [Hnd _]. destruct Hnd. apply list_elem_of_here.
Qed.

(** ** Filters that agree on the elements of a list *)

Section Filters.
Context {A : Type}.
Implicit Types (P Q : A -> Prop) (l : list A).

Lemma list_filter_ext_in P Q `{!forall a, Decision (P a), !forall a, Decision (Q a)} l :
  (forall a, a ∈ l -> P a <-> Q a) -> filter P l = filter Q l.
Proof.
  induction l as [|a l IH]; intros Heq; [done|].
  rewrite !filter_cons, IH by (intros; by apply Heq, list_elem_of_further).
  pose proof (Heq a (list_elem_of_here _ _)). by destruct (decide (P a)), (decide (Q a)); tauto || done.
Qed.

Lemma list_filter_all P `{!forall a, Decision (P a)} l :
  (forall a, a ∈ l -> P a) -> filter P l = l.
Proof.
  induction l as [|a l IH]; intros Hall; [done|].
  rewrite filter_cons_True by (apply Hall, list_elem_of_here).
  f_equal. apply IH. intros. by apply Hall, list_elem_of_further.
Qed.

Lemma list_filter_none P `{!forall a, Decision (P a)} l :
  (forall a, a ∈ l -> ~ P a) -> filter P l = [].
Proof.
  induction l as [|a l IH]; intros Hall; [done|].
  rewrite filter_cons_False by (apply Hall, list_elem_of_here).
  apply IH. intros. by apply Hall, list_elem_of_further.
Qed.
Lemma list_filter_length_all P `{!forall a, Decision (P a)} l :
  length (filter P l) = length l -> forall a, a ∈ l -> P a.
Proof.
  induction l as [|x l IH]; intros Hlen a Ha; [by apply elem_of_nil in Ha|].
  pose proof (sublist_length _ _ (sublist_filter P l)) as Hle.
  rewrite filter_cons in Hlen. destruct (decide (P x)) as [Hx|Hx]; simpl in *; [|lia].
  apply elem_of_cons in Ha as [->|Ha]; [done|]. apply IH; [lia|done].
Qed.
End Filters.

Lemma insert_as_alter {K A} `{Countable K} (m : gmap K A) (f : A -> A) i x :
  m !! i = Some x -> <[i := f x]> m = alter f i m.
Proof.
  intros Hi. apply map_eq. intros j. rewrite lookup_alter, lookup_insert.
  repeat case_decide; simplify_eq; rewrite ?Hi; done.
Qed.
