(* ===== verification/PyData.v ===== *)
(** * Python data

    The built-in data the service computes with: text (as ASCII strings, the
    case functions act on letters A-Z), JSON-like objects with Python's
    truthiness, [dict(...)] and [int(...)] coercions, and [or] defaults. *)

From S2P Require Export Prelude.

(** ** Text *)

Definition is_space (c : ascii) : bool :=
  let n := nat_of_ascii c in
  ((9 <=? n) && (n <=? 13))%nat || ((28 <=? n) && (n <=? 32))%nat.

Definition lower_ascii (c : ascii) : ascii :=
  let n := nat_of_ascii c in
  if ((65 <=? n) && (n <=? 90))%nat then ascii_of_nat (n + 32) else c.

Fixpoint py_lower (s : string) : string :=
  match s with
  | EmptyString => EmptyString
  | String c s => String (lower_ascii c) (py_lower s)
  end.

Definition upper_ascii (c : ascii) : ascii :=
  let n := nat_of_ascii c in
  if ((97 <=? n) && (n <=? 122))%nat then ascii_of_nat (n - 32) else c.

Fixpoint py_upper (s : string) : string :=
  match s with
  | EmptyString => EmptyString
  | String c s => String (upper_ascii c) (py_upper s)
  end.

(** Drop a leading run of characters satisfying [p]. *)
Fixpoint drop_while (p : ascii -> bool) (s : string) : string :=
  match s with
  | EmptyString => EmptyString
  | String c s' => if p c then drop_while p s' else s
  end.

Fixpoint rev_onto (s acc : string) : string :=
  match s with EmptyString => acc | String c s => rev_onto s (String c acc) end.

Definition py_rev (s : string) : string := rev_onto s EmptyString.

(** Drop a trailing run of characters satisfying [p]. *)
Definition drop_while_end (p : ascii -> bool) (s : string) : string :=
  py_rev (drop_while p (py_rev s)).

Definition py_strip (s : string) : string := drop_while_end is_space (drop_while is_space s).

(** [s[:n]] *)
Fixpoint py_take (n : nat) (s : string) : string :=
  match n, s with
  | S n, String c s => String c (py_take n s)
  | _, _ => EmptyString
  end.

(** [s.split()] *)
Fixpoint split_words (cur s : string) : list string :=
  match s with
  | EmptyString => if bool_decide (cur = EmptyString) then [] else [py_rev cur]
  | String c s' =>
      if is_space c
      then (if bool_decide (cur = EmptyString) then [] else [py_rev cur]) ++ split_words EmptyString s'
      else split_words (String c cur) s'
  end.

Definition py_split (s : string) : list string := split_words EmptyString s.

Fixpoint py_join (sep : string) (l : list string) : string :=
  match l with
  | [] => EmptyString
  | [s] => s
  | s :: l => s +:+ sep +:+ py_join sep l
  end.

Definition py_startswith (s prefix : string) : bool := String.prefix prefix s.
Definition py_endswith (s suffix : string) : bool := String.prefix (py_rev suffix) (py_rev s).

(** [needle in s] *)
Fixpoint py_contains (needle s : string) : bool :=
  String.prefix needle s ||
  match s with EmptyString => false | String _ s' => py_contains needle s' end.

(** Code-point order of strings, as [<=] compares them. *)
Fixpoint py_string_le (a b : string) : bool :=
  match a, b with
  | EmptyString, _ => true
  | String _ _, EmptyString => false
  | String x a, String y b =>
      let m := nat_of_ascii x in
      let n := nat_of_ascii y in
      if (m <? n)%nat then true else if (n <? m)%nat then false else py_string_le a b
  end.

Definition str_of_pos_digit (d : Z) : ascii := ascii_of_nat (48 + Z.to_nat d).

Fixpoint digits (fuel : nat) (z : Z) (acc : string) : string :=
  match fuel with
  | O => acc
  | S fuel =>
      let acc := String (str_of_pos_digit (z mod 10)) acc in
      if (z <? 10)%Z then acc else digits fuel (z / 10) acc
  end.

(** [str(z)] for integers of up to 40 digits. *)
Definition py_str_Z (z : Z) : string :=
  if (z <? 0)%Z then "-" +:+ digits 40 (- z) "" else digits 40 z "".

Definition digit_value (c : ascii) : option Z :=
  let n := nat_of_ascii c in
  if ((48 <=? n) && (n <=? 57))%nat then Some (Z.of_nat n - 48)%Z else None.

(** Digits with single underscores between them, after at least one digit. *)
Fixpoint parse_digits (acc : Z) (s : string) : option Z :=
  match s with
  | EmptyString => Some acc
  | String c s' =>
      match digit_value c with
      | Some d => parse_digits (10 * acc + d) s'
      | None =>
          if bool_decide (c = "_"%char) then
            match s' with
            | String c' s'' =>
                match digit_value c' with
                | Some d => parse_digits (10 * acc + d) s''
                | None => None
                end
            | EmptyString => None
            end
          else None
      end
  end.

Definition parse_unsigned (s : string) : option Z :=
  match s with
  | String c s' => d ← digit_value c; parse_digits d s'
  | EmptyString => None
  end.

(** [int(s)] of a string; [None] is [ValueError]. *)
Definition py_int_of_string (s : string) : option Z :=
  match py_strip s with
  | String "-" s' => Z.opp <$> parse_unsigned s'
  | String "+" s' => parse_unsigned s'
  | s' => parse_unsigned s'
  end.

(** The parts of a string before and after its first character in [p]. *)
Fixpoint cut_at (p : ascii -> bool) (s : string) : string * option string :=
  match s with
  | EmptyString => (EmptyString, None)
  | String c s' =>
      if p c then (EmptyString, Some s')
      else let (a, b) := cut_at p s' in (String c a, b)
  end.

Fixpoint count_digits (s : string) : Z :=
  match s with
  | EmptyString => 0
  | String c s' => match digit_value c with Some _ => 1 + count_digits s' | None => count_digits s' end
  end%Z.

(** Digits, possibly none. *)
Definition parse_digits_opt (s : string) : option Z :=
  if bool_decide (s = EmptyString) then Some 0%Z else parse_unsigned s.

(** [123.45] without sign and exponent *)
Definition parse_decimal (s : string) : option Q :=
  let (whole, frac) := cut_at (fun c => bool_decide (c = "."%char)) s in
  match frac with
  | None => inject_Z <$> parse_unsigned whole
  | Some frac =>
      if bool_decide (whole = EmptyString) && bool_decide (frac = EmptyString) then None
      else w ← parse_digits_opt whole;
           f ← parse_digits_opt frac;
           Some (inject_Z w + inject_Z f * Qpower 10 (- count_digits frac))%Q
  end.

Definition is_exponent_mark (c : ascii) : bool := bool_decide (c = "e"%char) || bool_decide (c = "E"%char).

(** [float(s)] of a string; [None] is [ValueError].  The spellings of infinity
    and not-a-number are left out. *)
Definition py_float_of_string (s : string) : option Q :=
  let (sign, body) := match py_strip s with
                      | String "-" s' => (-1, s')
                      | String "+" s' => (1, s')
                      | s' => (1, s')
                      end%Q in
  let (mantissa, exponent) := cut_at is_exponent_mark body in
  m ← parse_decimal mantissa;
  e ← match exponent with
      | None => Some 0%Z
      | Some (String "-" e) => Z.opp <$> parse_unsigned e
      | Some (String "+" e) => parse_unsigned e
      | Some e => parse_unsigned e
      end;
  Some (sign * m * Qpower 10 e)%Q.

(** ** JSON values *)

#[warnings="-register-all"]
Inductive json :=
  | JNull
  | JBool (b : bool)
  | JInt (z : Z)
  | JFloat (q : Q)
  | JStr (s : string)
  | JDate (t : Z)                 (* a datetime object, microseconds UTC *)
  | JArr (l : list json)
  | JObj (kv : list (string * json)).

(** [bool(v)] *)
Definition truthy (v : json) : bool :=
  match v with
  | JNull => false
  | JBool b => b
  | JInt z => negb (z =? 0)%Z
  | JFloat q => negb (Qeq_bool q 0)
  | JStr s => negb (bool_decide (s = EmptyString))
  | JDate _ => true
  | JArr l => negb (bool_decide (length l = 0))
  | JObj kv => negb (bool_decide (length kv = 0))
  end.

(** The items of an object, in insertion order; a key occurs once. *)
Abbreviation obj := (list (string * json)).

(** [a or b] *)
Definition json_or (a b : json) : json := if truthy a then a else b.

Fixpoint jget (k : string) (o : obj) : option json :=
  match o with
  | [] => None
  | (k', v) :: o => if bool_decide (k = k') then Some v else jget k o
  end.

(** [o.get(k)]: a missing key and a null value both read as [None]. *)
Definition jget_or_null (k : string) (o : obj) : json := default JNull (jget k o).

(** [dict(v or {})]; [None] where [dict] raises. *)
Definition dict_or_empty (v : json) : option obj :=
  if truthy v then match v with JObj kv => Some kv | _ => None end else Some [].

(** [int(v)]; [None] where it raises [TypeError] or [ValueError]. *)
Definition py_int (v : json) : option Z :=
  match v with
  | JInt z => Some z
  | JBool b => Some (if b then 1 else 0)%Z
  | JFloat q => Some (Z.quot (Qnum q) (Zpos (Qden q)))
  | JStr s => py_int_of_string s
  | _ => None
  end.

(** [float(v)]; [None] where it raises [TypeError] or [ValueError]. *)
Definition py_float (v : json) : option Q :=
  match v with
  | JInt z => Some (inject_Z z)
  | JBool b => Some (if b then 1 else 0)%Q
  | JFloat q => Some q
  | JStr s => py_float_of_string s
  | _ => None
  end.

(** [x or d] on an optional integer: zero counts as absent. *)
Definition int_or (o : option Z) (d : Z) : Z :=
  match o with Some z => if (z =? 0)%Z then d else z | None => d end.

(** [max(lo, min(x, hi))] *)
Definition clamp (lo hi x : Z) : Z := Z.max lo (Z.min x hi).
Definition qclamp (lo hi x : Q) : Q := Qmax lo (Qmin x hi).

Lemma clamp_bounds lo hi x : (lo <= hi)%Z -> (lo <= clamp lo hi x <= hi)%Z.
Proof. unfold clamp. lia. Qed.

Lemma clamp_id lo hi x : (lo <= x <= hi)%Z -> clamp lo hi x = x.
Proof. unfold clamp. lia. Qed.

Lemma qclamp_bounds lo hi x : (lo <= hi)%Q -> (lo <= qclamp lo hi x <= hi)%Q.
Proof.
  intros. unfold qclamp. split; [apply Q.le_max_l|].
  apply Q.max_lub; [done|]. apply Q.le_min_r.
Qed.

Lemma int_or_nonzero z d : z <> 0%Z -> int_or (Some z) d = z.
Proof. intros. simpl. by destruct (Z.eqb_spec z 0). Qed.

(** Insertion sort by a key, stable: [sorted(l, key=...)]. *)
Fixpoint insert_by {A} (le : A -> A -> bool) (x : A) (l : list A) : list A :=
  match l with
  | [] => [x]
  | y :: l' => if le x y then x :: l else y :: insert_by le x l'
  end.

Fixpoint sort_by {A} (le : A -> A -> bool) (l : list A) : list A :=
  match l with [] => [] | x :: l => insert_by le x (sort_by le l) end.

Lemma insert_by_perm {A} (le : A -> A -> bool) x l : insert_by le x l ≡ₚ x :: l.
Proof.
  induction l as [|y l IH]; simpl; [done|]. destruct (le x y); [done|].
  rewrite IH. by rewrite Permutation_swap.
Qed.

Lemma sort_by_perm {A} (le : A -> A -> bool) l : sort_by le l ≡ₚ l.
Proof. induction l as [|x l IH]; simpl; [done|]. by rewrite insert_by_perm, IH. Qed.

Lemma insert_by_sorted {A} (le : A -> A -> bool) x l :
  (forall a b, le a b = false -> le b a = true) ->
  Sorted (fun a b => le a b = true) l ->
  Sorted (fun a b => le a b = true) (insert_by le x l).
Proof.
  intros Htot Hl. induction Hl as [|y l Hl IH Hhd]; simpl; [by repeat constructor|].
  destruct (le x y) eqn:E; [by repeat constructor|].
  constructor; [done|]. destruct Hhd as [|z l Hyz]; simpl; [by repeat constructor; apply Htot|].
  destruct (le x z); constructor; auto.
Qed.

Lemma sort_by_sorted {A} (le : A -> A -> bool) l :
  (forall a b, le a b = false -> le b a = true) ->
  Sorted (fun a b => le a b = true) (sort_by le l).
Proof. intros Htot. induction l; simpl; [constructor|]. by apply insert_by_sorted. Qed.

Lemma StronglySorted_snoc {A} (R : A -> A -> Prop) l x :
  StronglySorted R l -> Forall (fun a => R a x) l -> StronglySorted R (l ++ [x]).
Proof.
  intros Hl. induction Hl as [|a l _ IH Ha]; intros Hx; simpl; [by repeat constructor|].
  inversion Hx; subst. constructor; [by apply IH|]. apply Forall_app. by repeat constructor.
Qed.

Lemma StronglySorted_sublist {A} (R : A -> A -> Prop) l l' :
  l' `sublist_of` l -> StronglySorted R l -> StronglySorted R l'.
Proof.
  induction 1 as [|x l' l Hsub IH|x l' l Hsub IH]; intros Hl; [done|..]; apply StronglySorted_inv in Hl as [Hl Hx].
  - constructor; [by apply IH|]. rewrite Forall_forall in Hx. apply Forall_forall.
    intros y Hy. by eapply Hx, elem_of_sublist.
  - by apply IH.
Qed.

(** Sorting a list in order changes nothing. *)
Lemma sort_by_descending_id {A} (key : A -> Q) (l : list A) :
  StronglySorted (fun a b => key b <= key a)%Q l -> sort_by (fun a b => key b <=?q key a) l = l.
Proof.
  induction 1 as [|x l _ IH Hx]; simpl; [done|]. rewrite IH. destruct Hx as [|y l Hxy]; simpl; [done|].
  apply Qle_bool_iff in Hxy. by rewrite Hxy.
Qed.

(** [sorted(l, key=..., reverse=True)] of a rational key. *)
Lemma sort_by_descending {A} (key : A -> Q) (l : list A) :
  StronglySorted (fun a b => key b <= key a)%Q (sort_by (fun a b => key b <=?q key a) l).
Proof.
  assert (Sorted (fun a b => (key b <=?q key a) = true) (sort_by (fun a b => key b <=?q key a) l)) as Hs.
  { apply sort_by_sorted. intros a b Hab. q_reflect. apply Qle_bool_iff. lra. }
  apply Sorted_StronglySorted; [intros a b c; lra|].
  induction Hs as [|a l' _ IH Hhd]; constructor; [done|].
  destruct Hhd as [|b l'' Hab]; constructor. by apply Qle_bool_iff.
Qed.

(** ** Equality and canonical forms of JSON values *)

#[export] Instance Q_eq_dec : EqDecision Q.
Proof. intros [a b] [c d]. destruct (decide (a = c)), (decide (b = d)); (by left; subst) || (right; congruence). Defined.

Fixpoint json_eq_dec (a b : json) {struct a} : {a = b} + {a <> b}.
Proof.
  destruct a as [|x|x|x|x|x|x|x], b as [|y|y|y|y|y|y|y]; try (right; discriminate).
  - left. reflexivity.
  - destruct (decide (x = y)); [left; by subst|right; congruence].
  - destruct (decide (x = y)); [left; by subst|right; congruence].
  - destruct (decide (x = y)); [left; by subst|right; congruence].
  - destruct (decide (x = y)); [left; by subst|right; congruence].
  - destruct (decide (x = y)); [left; by subst|right; congruence].
  - assert ({x = y} + {x <> y}) as [?|?]; [|left; by subst|right; congruence].
    revert y. induction x as [|v x IHx]; intros [|w y]; try (left; reflexivity); try (right; discriminate).
    destruct (json_eq_dec v w); [|right; congruence].
    destruct (IHx y); [left; by subst|right; congruence].
  - assert ({x = y} + {x <> y}) as [?|?]; [|left; by subst|right; congruence].
    revert y. induction x as [|[k v] x IHx]; intros [|[k' w] y];
      try (left; reflexivity); try (right; discriminate).
    destruct (decide (k = k')); [|right; congruence].
    destruct (json_eq_dec v w); [|right; congruence].
    destruct (IHx y); [left; by subst|right; congruence].
Defined.
#[export] Instance json_eq_decision : EqDecision json := json_eq_dec.

(** [{**o, k: v}]: an existing key keeps its position. *)
Fixpoint jset (k : string) (v : json) (o : obj) : obj :=
  match o with
  | [] => [(k, v)]
  | (k', v') :: o' => if bool_decide (k = k') then (k, v) :: o' else (k', v') :: jset k v o'
  end.

Lemma jget_jset_eq k v o : jget k (jset k v o) = Some v.
Proof.
  induction o as [|[k' v'] o IH]; simpl; [by rewrite bool_decide_true|].
  case_bool_decide; simpl; [by rewrite bool_decide_true|]. by rewrite bool_decide_false.
Qed.

Lemma jget_jset_ne k k' v o : k <> k' -> jget k (jset k' v o) = jget k o.
Proof.
  intros Hne. induction o as [|[k2 v2] o IH]; simpl; [by rewrite bool_decide_false|].
  case_bool_decide; simpl; subst.
  - by rewrite !(bool_decide_false (k = k2)).
  - by rewrite IH.
Qed.

(** [sorted(o.items(), key=lambda item: item[0])] *)
Definition sort_items {A} (o : list (string * A)) : list (string * A) :=
  sort_by (fun a b => py_string_le a.1 b.1) o.

(** The value [json.dumps(v, sort_keys=True)] prints: keys sorted at every level. *)
Fixpoint json_sorted (v : json) : json :=
  match v with
  | JArr l => JArr (map json_sorted l)
  | JObj kv => JObj (sort_items (map (fun kx => (kx.1, json_sorted kx.2)) kv))
  | v => v
  end.

(** [str(v)]; [str_other] stands for the printed form of floats, datetimes,
    lists and objects. *)
Definition py_str (str_other : json -> string) (v : json) : string :=
  match v with
  | JStr s => s
  | JInt z => py_str_Z z
  | JBool true => "True"
  | JBool false => "False"
  | JNull => "None"
  | v => str_other v
  end.

(** [s.replace("Z", "+00:00")] *)
Fixpoint replace_Z (s : string) : string :=
  match s with
  | EmptyString => EmptyString
  | String "Z" s => "+00:00" +:+ replace_Z s
  | String c s => String c (replace_Z s)
  end.

Example py_float_of_string_decimal : Qeq_bool (default 0%Q (py_float_of_string " -12.5e-1 ")) (-5 # 4) = true.
Proof. reflexivity. Qed.

(** ** Dictionaries, in insertion order *)

Section Dict.
Context {K A : Type} `{EqDecision K}.

Fixpoint dict_get (k : K) (d : list (K * A)) : option A :=
  match d with
  | [] => None
  | (k', v) :: d => if decide (k = k') then Some v else dict_get k d
  end.

(** An existing key keeps its place. *)
Fixpoint dict_set (k : K) (v : A) (d : list (K * A)) : list (K * A) :=
  match d with
  | [] => [(k, v)]
  | (k', v') :: d => if decide (k = k') then (k', v) :: d else (k', v') :: dict_set k v d
  end.

Lemma dict_get_set k v k' d : dict_get k' (dict_set k v d) = if decide (k' = k) then Some v else dict_get k' d.
Proof.
  induction d as [|[k1 v1] d IH]; simpl; [done|].
  destruct (decide (k = k1)) as [<-|Hk]; simpl; [by case_decide|].
  rewrite IH. destruct (decide (k' = k1)) as [->|]; [by rewrite decide_False|done].
Qed.

Lemma dict_set_keys k v d :
  NoDup d.*1 -> NoDup (dict_set k v d).*1 /\ forall k', k' ∈ (dict_set k v d).*1 <-> k' = k \/ k' ∈ d.*1.
Proof.
  induction d as [|[k1 v1] d IH]; simpl.
  - intros _. split; [apply NoDup_singleton|]. intros k'. by rewrite elem_of_cons.
  - rewrite NoDup_cons. intros [Hk1 Hd]. destruct (IH Hd) as [IH1 IH2]. case_decide as Hk; simpl.
    + subst. split; [by constructor|]. intros k'. rewrite elem_of_cons. naive_solver.
    + split; [constructor; [rewrite IH2; naive_solver|done]|]. intros k'.
      rewrite !elem_of_cons, IH2. naive_solver.
Qed.

Lemma dict_get_elem k v d : NoDup d.*1 -> dict_get k d = Some v <-> (k, v) ∈ d.
Proof.
  induction d as [|[k1 v1] d IH]; simpl; [by rewrite elem_of_nil|].
  rewrite NoDup_cons, elem_of_cons. intros [Hk1 Hd]. case_decide as Hk; [subst|].
  - split; [by intros [= ->]; left|]. intros [[= ->]|Hin]; [done|].
    destruct Hk1. by apply (list_elem_of_fmap_2 fst d (k1, v)).
  - rewrite IH by done. naive_solver.
Qed.

Lemma dict_get_is_Some k d : is_Some (dict_get k d) <-> k ∈ d.*1.
Proof.
  induction d as [|[k1 v1] d IH]; simpl; [split; [by intros []|by rewrite elem_of_nil]|].
  rewrite elem_of_cons, <- IH. case_decide; naive_solver eauto.
Qed.
End Dict.
