(* ===== verification/PyRegex.v ===== *)
(** * Regular expressions

    The part of Python's [re] the service's patterns use, as a backtracking
    matcher over ASCII text: [ends r p] lists the positions at which a match of
    [r] started at [p] may end, in the order the engine tries them (greedy
    first).  The matcher is proved to find exactly the matches of the
    declarative relation [matches]. *)

From S2P Require Export PyData.

(** A position in a text: the character before it and the text after it. *)
Record position := { before : option ascii; after : string }.

Definition rest_length (p : position) : nat := String.length (after p).

Inductive regex :=
  | Eps
  | Ch (p : ascii -> bool)
  | Seq (a b : regex)
  | Alt (a b : regex)
  | Many (a : regex)                      (* a* *)
  | Bound                                 (* \b *)
  | NotBehind (p : ascii -> bool)         (* a negative one-character lookbehind *)
  | NotAhead (p : ascii -> bool).         (* a negative one-character lookahead *)

Definition in_range (lo hi : ascii) (c : ascii) : bool :=
  ((nat_of_ascii lo <=? nat_of_ascii c) && (nat_of_ascii c <=? nat_of_ascii hi))%nat.
Definition is_digit : ascii -> bool := in_range "0" "9".
Definition is_upper : ascii -> bool := in_range "A" "Z".
Definition is_lower : ascii -> bool := in_range "a" "z".
Definition is_word (c : ascii) : bool :=
  is_digit c || is_upper c || is_lower c || bool_decide (c = "_"%char).

Definition first_char (s : string) : option ascii :=
  match s with EmptyString => None | String c _ => Some c end.
Definition holds_at (p : ascii -> bool) (c : option ascii) : bool :=
  match c with Some c => p c | None => false end.

Definition at_boundary (p : position) : bool :=
  xorb (holds_at is_word (before p)) (holds_at is_word (first_char (after p))).

Definition guard (b : bool) (p : position) : list position := if b then [p] else [].

(** [a*] from a position: each further round must consume text. *)
Fixpoint many_ends (step : position -> list position) (fuel : nat) (p : position) : list position :=
  match fuel with
  | O => [p]
  | S fuel =>
      flat_map (many_ends step fuel) (filter (fun p' => (rest_length p' < rest_length p)%nat) (step p)) ++ [p]
  end.

Fixpoint ends (r : regex) (p : position) : list position :=
  match r with
  | Eps => [p]
  | Ch q => match after p with
            | String c s => guard (q c) {| before := Some c; after := s |}
            | EmptyString => [] end
  | Seq a b => flat_map (ends b) (ends a p)
  | Alt a b => ends a p ++ ends b p
  | Many a => many_ends (ends a) (rest_length p) p
  | Bound => guard (at_boundary p) p
  | NotBehind q => guard (negb (holds_at q (before p))) p
  | NotAhead q => guard (negb (holds_at q (first_char (after p)))) p
  end.

(** ** Derived forms *)

Definition chr (c : ascii) : regex := Ch (fun d => bool_decide (c = d)).
Arguments chr _%_char_scope.
Fixpoint lit (s : string) : regex :=
  match s with EmptyString => Eps | String c s => Seq (chr c) (lit s) end.
Definition opt (r : regex) : regex := Alt r Eps.
Definition many1 (r : regex) : regex := Seq r (Many r).
Fixpoint times (n : nat) (r : regex) : regex :=
  match n with O => Eps | S n => Seq r (times n r) end.
Definition seqs (l : list regex) : regex := foldr Seq Eps l.
(** [\bs\b] of an escaped text *)
Definition whole_word (s : string) : regex := Seq Bound (Seq (lit s) Bound).

(** ** Searching *)

Definition start_of (s : string) : position := {| before := None; after := s |}.

(** The text between two positions, the second no earlier. *)
Definition text_between (p p' : position) : string :=
  py_take (rest_length p - rest_length p') (after p).

(** [re.search] finds a match *)
Fixpoint found_in (r : regex) (b : option ascii) (s : string) : bool :=
  match ends r {| before := b; after := s |} with
  | _ :: _ => true
  | [] => match s with EmptyString => false | String c s => found_in r (Some c) s end
  end.
Definition search (r : regex) (s : string) : bool := found_in r None s.

(** [re.fullmatch] *)
Definition fullmatch (r : regex) (s : string) : bool :=
  existsb (fun p => bool_decide (after p = EmptyString)) (ends r (start_of s)).

(** The end of the match the engine finds at a position, if it consumes text. *)
Definition next_match (r : regex) (p : position) : option position :=
  match ends r p with
  | p' :: _ => if (rest_length p' <? rest_length p)%nat then Some p' else None
  | [] => None
  end.

(** [re.findall] of a pattern without groups: after a match the search goes on
    at its end (patterns here never match the empty text). *)
Fixpoint findall_from (fuel : nat) (r : regex) (p : position) : list string :=
  match fuel with
  | O => []
  | S fuel =>
      match next_match r p with
      | Some p' => text_between p p' :: findall_from fuel r p'
      | None => match after p with
                | EmptyString => []
                | String c s => findall_from fuel r {| before := Some c; after := s |}
                end
      end
  end.
Definition findall (r : regex) (s : string) : list string :=
  findall_from (S (String.length s)) r (start_of s).

(** ** The matcher finds the matches *)

Inductive matches : regex -> position -> position -> Prop :=
  | matches_eps p : matches Eps p p
  | matches_ch q b c s : q c = true ->
      matches (Ch q) {| before := b; after := String c s |} {| before := Some c; after := s |}
  | matches_seq a b p p1 p2 : matches a p p1 -> matches b p1 p2 -> matches (Seq a b) p p2
  | matches_left a b p p' : matches a p p' -> matches (Alt a b) p p'
  | matches_right a b p p' : matches b p p' -> matches (Alt a b) p p'
  | matches_none a p : matches (Many a) p p
  | matches_more a p p1 p2 : matches a p p1 -> matches (Many a) p1 p2 -> matches (Many a) p p2
  | matches_bound p : at_boundary p = true -> matches Bound p p
  | matches_behind q p : holds_at q (before p) = false -> matches (NotBehind q) p p
  | matches_ahead q p : holds_at q (first_char (after p)) = false -> matches (NotAhead q) p p.

(** A match consumes text or stays where it is. *)
Lemma matches_consumes r p p' : matches r p p' -> p' = p \/ (rest_length p' < rest_length p)%nat.
Proof.
  induction 1; auto.
  - destruct IHmatches1 as [->|], IHmatches2 as [->|]; auto. right. lia.
  - destruct IHmatches1 as [->|], IHmatches2 as [->|]; auto. right. lia.
Qed.

Lemma elem_of_guard b p p' : p' ∈ guard b p <-> b = true /\ p' = p.
Proof. destruct b; simpl; rewrite ?list_elem_of_singleton, ?elem_of_nil; naive_solver. Qed.

Lemma elem_of_flat_map {A B} (f : A -> list B) l y : y ∈ flat_map f l <-> exists x, x ∈ l /\ y ∈ f x.
Proof. rewrite list_elem_of_In, in_flat_map. by setoid_rewrite list_elem_of_In. Qed.

Lemma many_ends_sound a fuel p p' :
  (forall p p', p' ∈ ends a p -> matches a p p') -> p' ∈ many_ends (ends a) fuel p -> matches (Many a) p p'.
Proof.
  intros Ha. revert p. induction fuel as [|fuel IH]; intros p; simpl.
  - rewrite list_elem_of_singleton. intros ->. constructor.
  - rewrite elem_of_app, elem_of_flat_map, list_elem_of_singleton. intros [(p1 & Hp1 & Hp')| ->]; [|constructor].
    apply list_elem_of_filter in Hp1 as [_ Hp1]. by apply (matches_more a p p1); auto.
Qed.

Lemma many_ends_complete a r fuel p p' :
  (forall p p', matches a p p' -> p' ∈ ends a p) -> matches r p p' -> r = Many a ->
  (rest_length p <= fuel)%nat -> p' ∈ many_ends (ends a) fuel p.
Proof.
  intros Ha Hm. revert fuel. induction Hm as [| | | | |a' p|a' p p1 p2 H1 _ H2 IH| | |]; intros fuel [= ->] Hf.
  - destruct fuel; simpl; [by apply list_elem_of_singleton|].
    apply elem_of_app. right. by apply list_elem_of_singleton.
  - destruct (matches_consumes _ _ _ H1) as [->|Hlt]; [by apply IH|].
    destruct fuel as [|fuel]; [lia|]. simpl. apply elem_of_app. left. apply elem_of_flat_map.
    exists p1. split; [apply list_elem_of_filter; auto|]. apply IH; [done|lia].
Qed.

Lemma ends_matches r p p' : p' ∈ ends r p <-> matches r p p'.
Proof.
  revert p p'. induction r as [|q|a IHa b IHb|a IHa b IHb|a IHa| |q|q]; intros p p'; cbn [ends].
  - rewrite list_elem_of_singleton. split; [intros ->; constructor|by inversion 1].
  - destruct p as [b [|c s]]; simpl.
    + rewrite elem_of_nil. split; [done|inversion 1].
    + rewrite elem_of_guard. split; [intros [? ->]; by constructor|by inversion 1].
  - rewrite elem_of_flat_map. split.
    + intros (p1 & H1%IHa & H2%IHb). by econstructor.
    + inversion 1; subst. eexists. by rewrite IHa, IHb.
  - rewrite elem_of_app, IHa, IHb. split; [intros [|]; [by apply matches_left|by apply matches_right]|].
    inversion 1; subst; auto.
  - split.
    + apply many_ends_sound. intros ??. apply IHa.
    + intros Hm. eapply many_ends_complete; [|exact Hm|done|done]. intros ??. apply IHa.
  - rewrite elem_of_guard. split; [intros [? ->]; by constructor|by inversion 1].
  - rewrite elem_of_guard, negb_true_iff. split; [intros [? ->]; by constructor|by inversion 1].
  - rewrite elem_of_guard, negb_true_iff. split; [intros [? ->]; by constructor|by inversion 1].
Qed.
