(* ===== verification/Models.v ===== *)
(** * Data model

    The enumerations and the rows of [api/db/models.py] the other files use.
    A column is a field of the record with the column's name behind a one- or
    two-letter table prefix; UUIDs are integers, datetimes are microseconds
    since the epoch in UTC, [Float] columns are rationals, JSONB columns are
    [json] objects. *)

From S2P Require Export PyData.

Abbreviation uuid := Z.
Abbreviation datetime := Z.

(** ** Enumerations *)

Module MemoryCategory.
Inductive t := preference | fact | goal | procedure | relationship | expertise.
#[global] Instance eq_dec : EqDecision t.
Proof. solve_decision. Defined.
Definition value (c : t) : string :=
  match c with
  | preference => "preference" | fact => "fact" | goal => "goal"
  | procedure => "procedure" | relationship => "relationship" | expertise => "expertise"
  end.
End MemoryCategory.

Module CrossUserConflictStatus.
Inductive t := pending | clarification_queued | resolved | ignored.
#[global] Instance eq_dec : EqDecision t.
Proof. solve_decision. Defined.
End CrossUserConflictStatus.

Module SharedContextEntityType.
Inductive t :=
  | tech_stack | company_fact | product_feature | team_process | shared_goal | organisation_policy
  | team_language | shared_resource | exam_date | grade_level | personal_skill | personal_preference
  | individual_goal | learning_style | personal_fact | marks_target | study_schedule.
#[global] Instance eq_dec : EqDecision t.
Proof. solve_decision. Defined.
Definition value (e : t) : string :=
  match e with
  | tech_stack => "tech_stack" | company_fact => "company_fact" | product_feature => "product_feature"
  | team_process => "team_process" | shared_goal => "shared_goal"
  | organisation_policy => "organisation_policy" | team_language => "team_language"
  | shared_resource => "shared_resource" | exam_date => "exam_date" | grade_level => "grade_level"
  | personal_skill => "personal_skill" | personal_preference => "personal_preference"
  | individual_goal => "individual_goal" | learning_style => "learning_style"
  | personal_fact => "personal_fact" | marks_target => "marks_target" | study_schedule => "study_schedule"
  end.
End SharedContextEntityType.

Module PlanTier.
Inductive t := free | starter | growth | scale | enterprise.
#[global] Instance eq_dec : EqDecision t.
Proof. solve_decision. Defined.
Definition value (p : t) : string :=
  match p with
  | free => "free" | starter => "starter" | growth => "growth"
  | scale => "scale" | enterprise => "enterprise"
  end.
End PlanTier.

Module OveragePolicy.
Inductive t := block | warn | charge.
#[global] Instance eq_dec : EqDecision t.
Proof. solve_decision. Defined.
End OveragePolicy.

Module CallQualityBlockedLayer.
Inductive t := l1 | l2 | l3 | l4 | none.
#[global] Instance eq_dec : EqDecision t.
Proof. solve_decision. Defined.
End CallQualityBlockedLayer.

Module QuotaMode.
Inductive t := full | passthrough | degraded_retrieve | blocked.
#[global] Instance eq_dec : EqDecision t.
Proof. solve_decision. Defined.
Definition value (m : t) : string :=
  match m with
  | full => "FULL" | passthrough => "PASSTHROUGH"
  | degraded_retrieve => "DEGRADED_RETRIEVE" | blocked => "BLOCKED"
  end.
(** [QuotaMode(value)]; [None] is [ValueError]. *)
Definition of_value (s : string) : option t :=
  if bool_decide (s = "FULL") then Some full
  else if bool_decide (s = "PASSTHROUGH") then Some passthrough
  else if bool_decide (s = "DEGRADED_RETRIEVE") then Some degraded_retrieve
  else if bool_decide (s = "BLOCKED") then Some blocked
  else None.
Lemma of_value_value m : of_value (value m) = Some m.
Proof. by destruct m. Qed.
End QuotaMode.

Module VectorSyncOperation.
Inductive t := upsert | delete | archive.
#[global] Instance eq_dec : EqDecision t.
Proof. solve_decision. Defined.
End VectorSyncOperation.

Module VectorSyncStatus.
Inductive t := pending | processing | done | failed.
#[global] Instance eq_dec : EqDecision t.
Proof. solve_decision. Defined.
End VectorSyncStatus.

Module ExtractionJobStatus.
Inductive t := queued | processing | completed | failed | dead.
#[global] Instance eq_dec : EqDecision t.
Proof. solve_decision. Defined.
End ExtractionJobStatus.

(** The [CHECK] constraints of [memory_claims.status] and
    [memory_claim_revisions.status]. *)
Module ClaimStatus.
Inductive t := active | superseded | disputed | archived.
#[global] Instance eq_dec : EqDecision t.
Proof. solve_decision. Defined.
End ClaimStatus.

Module RevisionStatus.
Inductive t := asserted | activated | superseded | rejected | disputed | archived.
#[global] Instance eq_dec : EqDecision t.
Proof. solve_decision. Defined.
End RevisionStatus.

(** ** Rows *)

Record Memory := {
  m_id : uuid;
  m_user_id : uuid;
  m_proxy_user_id : uuid;
  m_agent_id : option uuid;
  m_content : string;
  m_category : MemoryCategory.t;
  m_importance_score : Q;
  m_confidence_score : Q;
  m_embedding_model_id : string;
  m_created_at : datetime;
  m_updated_at : datetime;
  m_last_accessed_at : option datetime;
  m_access_count : Z;
  m_expires_at : option datetime;
  m_effective_from : option datetime;
  m_effective_until : option datetime;
  m_previous_version_id : option uuid;
  m_source_event_id : option uuid;
  m_metadata_json : obj;
  m_is_archived : bool;
}.

Record MemoryClaim := {
  c_id : uuid;
  c_tenant_id : uuid;
  c_proxy_user_id : uuid;
  c_category : MemoryCategory.t;
  c_claim_fingerprint : string;
  c_subject_key : string;
  c_predicate_key : string;
  c_scope : obj;
  c_active_value : option string;
  c_status : ClaimStatus.t;
  c_active_memory_id : option uuid;
  c_winning_revision_id : option uuid;
  c_authority_priority : Z;
  c_confidence_score : Q;
  c_observed_at : option datetime;
  c_effective_at : datetime;
  c_updated_at : datetime;
}.

Record MemoryClaimRevision := {
  r_id : uuid;
  r_claim_id : uuid;
  r_memory_id : option uuid;
  r_source_event_id : option uuid;
  r_source_writer_id : option uuid;
  r_source_domain : option string;
  r_source_domain_record_id : option string;
  r_source_field : option string;
  r_asserted_value : string;
  r_status : RevisionStatus.t;
  r_authority_priority : Z;
  r_confidence_score : Q;
  r_observed_at : option datetime;
  r_effective_from : option datetime;
  r_effective_until : option datetime;
  r_evidence_refs : json;
  r_resolution_reason : string;
  r_decision_evidence : json;
  r_schema_version : Z;
  r_processor_version : string;
  r_created_at : datetime;
}.

Record MemoryVersion := {
  v_id : uuid;
  v_memory_id : uuid;
  v_version_number : Z;
  v_content : string;
  v_category : string;
  v_importance_score : Q;
  v_confidence : Q;
  v_change_type : string;
  v_change_reason : option string;
  v_changed_by : string;
}.

Record VectorSyncOutbox := {
  o_id : uuid;
  o_operation : VectorSyncOperation.t;
  o_memory_id : uuid;
  o_embedding : option (list Q);
  o_payload : obj;
  o_status : VectorSyncStatus.t;
  o_attempts : Z;
  o_last_error : option string;
  o_created_at : datetime;
  o_synced_at : option datetime;
}.

Record CrossUserConflict := {
  cf_id : uuid;
  cf_tenant_id : uuid;
  cf_user_a_memory_id : option uuid;
  cf_user_b_memory_id : option uuid;
  cf_entity_type : SharedContextEntityType.t;
  cf_entity_value_a : string;
  cf_entity_value_b : string;
  cf_status : CrossUserConflictStatus.t;
  cf_auto_resolution : option string;
  cf_auto_resolution_at : option datetime;
  cf_resolution_path : option string;
  cf_requires_attention : bool;
  cf_resolution_reason : option string;
  cf_decision_evidence : obj;
}.

Record TenantBudget := {
  b_tenant_id : uuid;
  b_plan_tier : PlanTier.t;
  b_monthly_call_limit : option Z;
  b_monthly_token_limit : option Z;
  b_current_month_calls : Z;
  b_current_month_tokens : Z;
  b_write_calls : Z;
  b_write_call_limit : option Z;
  b_read_calls : Z;
  b_read_limit : option Z;
  b_rate_limit_per_user_per_minute : Z;
  b_overage_policy : OveragePolicy.t;
  b_alert_threshold_pct : Q;
  b_last_notified_pct : option Q;
  b_last_notified_mode : option QuotaMode.t;
  b_reset_at : option datetime;
}.

(** [ExtractedMemory] of [api/schemas/memory_schemas.py] *)
Record ExtractedMemory := {
  x_content : string; x_category : string; x_importance_score : Q; x_confidence : Q;
  x_expiry : string; x_reasoning : string; x_validated_evidence : obj;
}.

(** [datetime] comparisons on optional bounds, [None] being unbounded. *)
Definition starts_by (from : option datetime) (t : datetime) : bool :=
  match from with None => true | Some f => (f <=? t)%Z end.
Definition ends_after (until : option datetime) (t : datetime) : bool :=
  match until with None => true | Some u => (t <? u)%Z end.

(** The database [CHECK] on validity intervals. *)
Definition interval_ok (from until : option datetime) : Prop :=
  match from, until with Some f, Some u => (f < u)%Z | _, _ => True end.
