(* ===== verification/ClaimIdentity.v ===== *)
(** * Claim identities, authority and observation times

    The pure helpers of [api/services/claim_ledger_service.py],
    [claim_versions.py] and [temporal_validity.py], and the preference
    declarations of [api/schemas/preferences.py] with the identity
    [api/services/preference_claim_service.py] gives them.

    The SHA-256 digest of a canonical form, the ISO-8601 and UUID parsers and
    the printed form of composite values belong to the standard library; they
    are the fields of [PyLib]. *)

From S2P Require Export Models.

(** ** Preference declarations *)

Module ApplicabilityKind.
Inductive t := global | context | unresolved.
#[global] Instance eq_dec : EqDecision t.
Proof. solve_decision. Defined.
Definition value (k : t) : string :=
  match k with global => "global" | context => "context" | unresolved => "unresolved" end.
End ApplicabilityKind.

Module Commitment.
Inductive t := asserted | uncertain | replacement.
#[global] Instance eq_dec : EqDecision t.
Proof. solve_decision. Defined.
End Commitment.

Module ChoiceState.
Inductive t := candidate_only | current_choice_unresolved.
#[global] Instance eq_dec : EqDecision t.
Proof. solve_decision. Defined.
End ChoiceState.

Record PreferenceApplicability := {
  pa_kind : ApplicabilityKind.t;
  pa_namespace : option string;
  pa_key : option string;
}.

Record PreferenceClaimRequest := {
  pc_property_key : string;
  pc_value : string;
  pc_applicability : PreferenceApplicability;
  pc_turn_index : Z;
  pc_quote : string;
  pc_commitment : Commitment.t;
  pc_choice_state : ChoiceState.t;
  pc_replaces_memory_id : option uuid;
  pc_replaces_version : option string;
}.

(** [PreferenceApplicability.validate_context] *)
Definition validate_context (a : PreferenceApplicability) : bool :=
  let is_context := bool_decide (pa_kind a = ApplicabilityKind.context) in
  let both := bool_decide (is_Some (pa_namespace a)) && bool_decide (is_Some (pa_key a)) in
  let any := bool_decide (is_Some (pa_namespace a)) || bool_decide (is_Some (pa_key a)) in
  Bool.eqb is_context both && negb (negb is_context && any).

(** [PreferenceClaimRequest.validate_replacement] *)
Definition validate_replacement (c : PreferenceClaimRequest) : bool :=
  let references := bool_decide (is_Some (pc_replaces_memory_id c))
                    || bool_decide (is_Some (pc_replaces_version c)) in
  let holds := bool_decide (pc_choice_state c = ChoiceState.current_choice_unresolved) in
  py_contains (pc_value c) (pc_quote c) &&
  bool_decide (pc_quote c = py_strip (pc_quote c)) &&
  negb (holds && negb (bool_decide (pc_commitment c = Commitment.uncertain))) &&
  negb (holds && bool_decide (pa_kind (pc_applicability c) = ApplicabilityKind.unresolved)) &&
  if bool_decide (pc_commitment c = Commitment.replacement) || holds
  then bool_decide (is_Some (pc_replaces_memory_id c)) && bool_decide (is_Some (pc_replaces_version c))
  else negb references.

(** [applicability.model_dump(exclude_none=True)] *)
Definition dump_applicability (a : PreferenceApplicability) : obj :=
  [("kind", JStr (ApplicabilityKind.value (pa_kind a)))]
    ++ match pa_namespace a with Some n => [("namespace", JStr n)] | None => [] end
    ++ match pa_key a with Some k => [("key", JStr k)] | None => [] end.

Definition PREFERENCE_MARKER : string := "explicit_preference_v1".

(** ** Canonical forms *)

Definition GENERIC_CLAIM_SUBJECT : string := "exact_proposition_v1".

(** A scope value in a canonical form: a string, or the tagged dump of
    another JSON value. *)
Inductive scope_atom := ScopeStr (s : string) | ScopeJson (v : json).
#[export] Instance scope_atom_eq_dec : EqDecision scope_atom.
Proof. solve_decision. Defined.

(** The dictionary whose sorted items are printed and hashed. *)
Record canonical := {
  k_category : string;
  k_subject : string;
  k_predicate : string;
  k_scope : list (string * scope_atom);
}.

(** The standard library's part of the computation. *)
Class PyLib := {
  digest : canonical -> string;
  (* the instant read as UTC when no offset is given, and whether one is *)
  fromisoformat : string -> option (datetime * bool);
  parse_uuid_str : string -> option uuid;
  str_other : json -> string;
  (* [isoformat] of a datetime, compact [json.dumps] of a list or an object *)
  compact_dump : json -> string;
  isoformat : datetime -> string;
  uuid_str : uuid -> string;
}.

Section WithPyLib.
Context `{PyLib}.

Record ClaimIdentity := {
  ci_fingerprint : string;
  ci_subject_key : string;
  ci_predicate_key : string;
  ci_value : string;
  ci_scope : obj;
}.

(** [str(v or "")] *)
Definition str_or_empty (v : json) : string := if truthy v then py_str str_other v else EmptyString.

(** [normalize_scope]: null values are dropped and the others printed. *)
Definition normalize_scope (scope : obj) : list (string * scope_atom) :=
  map (fun kv => (kv.1, ScopeStr (py_str str_other kv.2)))
      (filter (fun kv : string * json => kv.2 <> JNull) (sort_items scope)).

(** [normalize_generic_scope] *)
Definition normalize_generic_scope (scope : obj) : list (string * scope_atom) :=
  map (fun kv : string * json =>
         (kv.1, match kv.2 with JStr s => ScopeStr s | v => ScopeJson (json_sorted v) end))
      (sort_items scope).

Definition build_claim_identity (content category : string) (scope : obj) : ClaimIdentity :=
  let normalized := py_strip content in
  let base := {| k_category := category; k_subject := GENERIC_CLAIM_SUBJECT;
                 k_predicate := normalized; k_scope := normalize_generic_scope scope |} in
  {| ci_fingerprint := digest base; ci_subject_key := GENERIC_CLAIM_SUBJECT;
     ci_predicate_key := String.substring 0 255 normalized;
     ci_value := normalized; ci_scope := scope |}.

Definition build_domain_claim_identity (domain field category value : string) (scope : obj)
    : ClaimIdentity :=
  let predicate_key := domain +:+ "." +:+ field in
  let base := {| k_category := category; k_subject := "user";
                 k_predicate := predicate_key; k_scope := normalize_scope scope |} in
  {| ci_fingerprint := digest base; ci_subject_key := "user";
     ci_predicate_key := String.substring 0 255 predicate_key;
     ci_value := value; ci_scope := scope |}.

Definition preference_identity (d : PreferenceClaimRequest) : ClaimIdentity :=
  build_domain_claim_identity PREFERENCE_MARKER (pc_property_key d) "preference"
    (pc_value d) (dump_applicability (pc_applicability d)).

Definition preference_fingerprint (property_key : string) (a : PreferenceApplicability) : string :=
  ci_fingerprint (build_domain_claim_identity PREFERENCE_MARKER property_key "preference" ""
                    (dump_applicability a)).

(** ** Authority *)

(** [dict((provenance or {}).get(key) or {})]; [None] where [dict] raises. *)
Definition provenance_dict (provenance : option obj) (key : string) : option obj :=
  dict_or_empty (jget_or_null key (default [] provenance)).

Definition authority_priority (provenance : option obj) (category : string) : option Z :=
  rules ← provenance_dict provenance "authority_rules";
  category_rules ← dict_or_empty (jget_or_null "categories" rules);
  let raw := match jget category category_rules with
             | Some v => v
             | None => default (JInt 50) (jget "default_priority" rules)
             end in
  Some (match py_int raw with Some p => clamp 0 100 p | None => 50%Z end).

(** [domain_authority_priority]: the first listed key decides; an unreadable
    rule falls back to the category rule. *)
Definition domain_authority_priority (provenance : option obj) (domain field category : string)
    : option Z :=
  rules ← provenance_dict provenance "authority_rules";
  field_rules ← dict_or_empty (jget_or_null "domain_fields" rules);
  let named := match jget (domain +:+ "." +:+ field) field_rules with
               | Some v => Some v
               | None => jget field field_rules
               end in
  match named ≫= py_int with
  | Some p => Some (clamp 0 100 p)
  | None => authority_priority provenance category
  end.

Definition domain_field_confidence (provenance : option obj) : option Q :=
  processing ← provenance_dict provenance "processing";
  Some (match py_float (default (JFloat 1) (jget "extraction_confidence" processing)) with
        | Some q => qclamp 0 1 q
        | None => 1%Q
        end).

(** ** Times and identifiers *)

Definition parse_observed_at (value : json) : option datetime :=
  match value with
  | JNull => None
  | JDate t => Some t
  | v => fst <$> fromisoformat (replace_Z (py_str str_other v))
  end.

Definition parse_uuid (value : json) : option uuid :=
  match value with JNull => None | v => parse_uuid_str (py_str str_other v) end.

(** [temporal_validity._parse_datetime]: [None] is the [ValueError]. *)
Definition _parse_datetime (value : json) : option (option datetime) :=
  match value with
  | JNull => Some None
  | JStr s =>
      if bool_decide (s = EmptyString) then Some None
      else match fromisoformat (replace_Z (py_strip s)) with
           | Some (t, true) => Some (Some t)
           | _ => None
           end
  | JDate t => Some (Some t)
  | _ => None
  end.

(** [temporal_validity_from_provenance]: a pair of bounds, or [ValueError]. *)
Definition temporal_validity_from_provenance (provenance : option obj)
    : option (option datetime * option datetime) :=
  scope ← provenance_dict provenance "scope";
  effective_from ← _parse_datetime (jget_or_null "effective_from" scope);
  effective_until ← _parse_datetime (jget_or_null "effective_until" scope);
  match effective_from, effective_until with
  | Some f, Some u => if (u <=? f)%Z then None else Some (effective_from, effective_until)
  | _, _ => Some (effective_from, effective_until)
  end.
End WithPyLib.

(** ** Text normalisation and processor versions *)

Definition is_trailing_punct (c : ascii) : bool :=
  is_space c || bool_decide (c = "."%char) || bool_decide (c = "?"%char)
  || bool_decide (c = "!"%char).

(** [_SPACE_RE.sub(" ", s)] *)
Fixpoint collapse_spaces (in_space : bool) (s : string) : string :=
  match s with
  | EmptyString => EmptyString
  | String c s' =>
      if is_space c
      then if in_space then collapse_spaces true s' else String " " (collapse_spaces true s')
      else String c (collapse_spaces false s')
  end.

Definition normalize_text (value : string) : string :=
  collapse_spaces false (drop_while_end is_trailing_punct (py_strip (py_lower value))).

Definition CLAIM_SCHEMA_VERSION : Z := 1.
Definition CLAIM_PROCESSOR_VERSION : string := "claim-ledger-v1".
Definition TENANT_BACKFILL_PROCESSOR_VERSION : string := "tenant-provenance-backfill-v1".
Definition PASSPORT_BACKFILL_PROCESSOR_VERSION : string := "passport-provenance-backfill-v1".

Definition processor_version_for_resolution (reason : option string) (passport : bool) : string :=
  let normalized := py_lower (py_strip (default EmptyString reason)) in
  if py_contains "backfill" normalized || py_startswith normalized "legacy_"
  then if passport then PASSPORT_BACKFILL_PROCESSOR_VERSION else TENANT_BACKFILL_PROCESSOR_VERSION
  else CLAIM_PROCESSOR_VERSION.

Definition supports_claim_schema (version : Z) : bool := bool_decide (version = CLAIM_SCHEMA_VERSION).

(** ** Lemmas *)

Lemma authority_priority_bounds `{PyLib} provenance category p :
  authority_priority provenance category = Some p -> (0 <= p <= 100)%Z.
Proof.
  unfold authority_priority. intros Hp.
  destruct (provenance_dict _ _) as [rules|]; [|done]. simpl in Hp.
  destruct (dict_or_empty _) as [cr|]; [|done]. simpl in Hp. simplify_eq.
  destruct (py_int _); [apply clamp_bounds; lia|lia].
Qed.

Lemma domain_authority_priority_bounds `{PyLib} provenance domain field category p :
  domain_authority_priority provenance domain field category = Some p -> (0 <= p <= 100)%Z.
Proof.
  unfold domain_authority_priority. intros Hp.
  destruct (provenance_dict _ _) as [rules|]; [|done]. simpl in Hp.
  destruct (dict_or_empty _) as [cr|]; [|done]. simpl in Hp.
  destruct (_ ≫= py_int) as [z|]; simplify_eq; [apply clamp_bounds; lia|].
  by eapply authority_priority_bounds.
Qed.

Lemma temporal_validity_interval `{PyLib} provenance from until :
  temporal_validity_from_provenance provenance = Some (from, until) -> interval_ok from until.
Proof.
  unfold temporal_validity_from_provenance. intros Hp.
  destruct (provenance_dict _ _) as [scope|]; [|done]. simpl in Hp.
  destruct (_parse_datetime (jget_or_null "effective_from" scope)) as [f|]; [|done]. simpl in Hp.
  destruct (_parse_datetime (jget_or_null "effective_until" scope)) as [u|]; [|done]. simpl in Hp.
  destruct f as [f|], u as [u|]; simplify_eq/=; try done.
  destruct (Z.leb_spec u f); simplify_eq/=. done.
Qed.

(** Unary numerals, for examples that print and parse. *)
Fixpoint ones (n : nat) : string :=
  match n with O => EmptyString | S n => String "1" (ones n) end.

Lemma length_ones n : String.length (ones n) = n.
Proof. induction n; simpl; congruence. Qed.

(** A concrete library for evaluating examples: the digest is the printed
    canonical form, no string is a date, and no string is a UUID. *)
Definition example_pylib : PyLib := {|
  digest k := py_join "|" ([k_category k; k_subject k; k_predicate k]
                 ++ flat_map (fun kv => [kv.1; match kv.2 with ScopeStr s => s | _ => "json" end])
                      (k_scope k));
  fromisoformat _ := None;
  parse_uuid_str _ := None;
  str_other _ := "object";
  compact_dump _ := "object";
  isoformat := py_str_Z;
  uuid_str := py_str_Z;
|}.

(** ** Printing laws *)

(** Printed UUIDs are read back. *)
Definition uuid_law `{PyLib} : Prop := forall u, uuid_str u <> EmptyString /\ parse_uuid_str (uuid_str u) = Some u.

(** A library that prints UUIDs and instants in unary. *)
Definition unary_str (u : Z) : string := String (if (u <? 0)%Z then "-" else "1") (ones (Z.to_nat (Z.abs u))).
Definition unary_parse (s : string) : option Z :=
  match s with
  | String c s => let n := Z.of_nat (String.length s) in Some (if bool_decide (c = "-"%char) then - n else n)%Z
  | EmptyString => None
  end.
Definition unary_uuids : PyLib := {|
  digest := @digest example_pylib; fromisoformat _ := None; parse_uuid_str := unary_parse;
  str_other := @str_other example_pylib; compact_dump := @compact_dump example_pylib;
  isoformat := unary_str; uuid_str := unary_str |}.

Lemma unary_uuid_law : @uuid_law unary_uuids.
Proof.
  intros u. cbn [uuid_str parse_uuid_str unary_uuids]. unfold unary_str, unary_parse.
  destruct (Z.ltb_spec u 0); (split; [done|]);
    rewrite length_ones; f_equal; case_bool_decide; done || lia.
Qed.
