(* ===== verification/RedisKeys.v ===== *)
(** * Redis keys with expiry

    A table of Redis keys of one kind: each value with the instant it expires
    at.  What a command does depends on whether the key is still alive. *)

From S2P Require Export ClaimIdentity.

(** A key's value with the instant it expires at, if any. *)
Record Expiring (A : Type) := { ex_value : A; ex_at : option Z }.
Arguments ex_value {A}. Arguments ex_at {A}. Arguments Build_Expiring {A}.

Definition alive {A} (now : Z) (e : Expiring A) : bool :=
  match ex_at e with None => true | Some t => (now <? t)%Z end.

(** The value of a key at a time. *)
Definition rget {K A} `{Countable K} (now : Z) (k : K) (m : gmap K (Expiring A)) : option A :=
  e ← m !! k; if alive now e then Some (ex_value e) else None.

(** The expiry a write that keeps the TTL leaves. *)
Definition kept_ttl {K A} `{Countable K} (now : Z) (k : K) (m : gmap K (Expiring A)) : option Z :=
  e ← m !! k; if alive now e then ex_at e else None.

Definition rset {K A} `{Countable K} (k : K) (a : A) (at_ : option Z) (m : gmap K (Expiring A))
    : gmap K (Expiring A) := <[k := {| ex_value := a; ex_at := at_ |}]> m.
