(* ===== verification/ClaimLedger.v ===== *)
(** * The claim ledger

    [ClaimLedgerService] of [api/services/claim_ledger_service.py] and the
    claim reconciliation of a hard delete in [api/services/memory_service.py].
    A claim is one proposition of one user; its revisions are what sources
    asserted about it; at most one of them is activated and the claim's
    [winning_revision_id] names it.

    A database session is the two tables; [flush] checks the constraints the
    database enforces immediately (the partial unique index on activated
    revisions and the unique claim key).  Row ids ([uuid4] and server defaults)
    and the clock are inputs of an operation. *)

From S2P Require Export ClaimIdentity.

(** ** Session state *)

Record Ledger := {
  claims : gmap uuid MemoryClaim;
  revisions : gmap uuid MemoryClaimRevision;
}.

(** [BadMapping]: the [TypeError] or [ValueError] of [dict(value)] for a value
    that is no mapping. *)
Inductive ledger_exn :=
  | ValueError (msg : string)
  | TypeError
  | AttributeError
  | BadMapping
  | KeyError
  | MultipleResultsFound
  | IntegrityError (constraint : string).

Abbreviation LM := (M Ledger ledger_exn).

Definition put_claim (c : MemoryClaim) (L : Ledger) : Ledger := L <| claims ::= insert (c_id c) c |>.
Definition put_revision (r : MemoryClaimRevision) (L : Ledger) : Ledger :=
  L <| revisions ::= insert (r_id r) r |>.

Definition claim_key (c : MemoryClaim) : uuid * uuid * string :=
  (c_tenant_id c, c_proxy_user_id c, c_claim_fingerprint c).

(** The claim ids of the activated revisions, with repetitions. *)
Definition activated_claim_ids (L : Ledger) : list uuid :=
  r_claim_id <$> filter (fun r => r_status r = RevisionStatus.activated)
                   (snd <$> map_to_list (revisions L)).

Definition claim_keys (L : Ledger) : list (uuid * uuid * string) :=
  (fun ic => claim_key ic.2) <$> map_to_list (claims L).

(** [session.flush()] against the two unique indexes. *)
Definition flush : LM unit :=
  fun L =>
    if negb (bool_decide (NoDup (activated_claim_ids L)))
    then (L, inl (IntegrityError "uq_memory_claim_revisions_one_activated"))
    else if negb (bool_decide (NoDup (claim_keys L)))
    then (L, inl (IntegrityError "uq_memory_claims_tenant_user_fingerprint"))
    else (L, inr tt).

Definition scalar_one_or_none {A} (rows : list A) : LM (option A) :=
  match rows with
  | [] => mret None
  | [a] => mret (Some a)
  | _ => raise_st MultipleResultsFound
  end.

(** ** Queries *)

Definition claims_with_key (key : uuid * uuid * string) (L : Ledger) : list MemoryClaim :=
  filter (fun c => claim_key c = key) (snd <$> map_to_list (claims L)).

Definition _find_claim (tenant_id proxy_user_id : uuid) (fingerprint : string)
    : LM (option MemoryClaim) :=
  L ← get_st; scalar_one_or_none (claims_with_key (tenant_id, proxy_user_id, fingerprint) L).

(** [ORDER BY created_at DESC LIMIT 1] *)
Fixpoint latest (rows : list MemoryClaimRevision) : option MemoryClaimRevision :=
  match rows with
  | [] => None
  | r :: rows =>
      match latest rows with
      | Some r' => Some (if (r_created_at r <? r_created_at r')%Z then r' else r)
      | None => Some r
      end
  end.

Definition revisions_of_memory (memory_id : uuid) (L : Ledger) : list MemoryClaimRevision :=
  filter (fun r => r_memory_id r = Some memory_id) (snd <$> map_to_list (revisions L)).

Definition _find_claim_for_memory (memory_id : uuid) : LM (option MemoryClaim) :=
  L ← get_st;
  mret (r ← latest (revisions_of_memory memory_id L); claims L !! r_claim_id r).

Definition _winning_revision (c : MemoryClaim) (L : Ledger) : option MemoryClaimRevision :=
  c_winning_revision_id c ≫= fun i => revisions L !! i.

(** ** Deciding between a claim's winner and an incoming assertion *)

Definition _incoming_wins (c : MemoryClaim) (incoming_priority : Z) (incoming_confidence : Q)
    (incoming_observed_at : option datetime) : bool :=
  let current_priority := int_or (Some (c_authority_priority c)) 50 in
  if negb (incoming_priority =? current_priority)%Z
  then (current_priority <? incoming_priority)%Z
  else match incoming_observed_at, c_observed_at c with
       | Some i, Some o => (o <? i)%Z
       | _, _ =>
           if (1 # 5) <?q Qabs (incoming_confidence - c_confidence_score c)
           then c_confidence_score c <?q incoming_confidence
           else false
       end.

Definition _mark_existing_winner_superseded (c : MemoryClaim) (L : Ledger) : Ledger :=
  match c_winning_revision_id c with
  | None => L
  | Some i => L <| revisions ::= alter (fun r => r <| r_status := RevisionStatus.superseded |>) i |>
  end.

(** Make an assertion the claim's value; [winning_revision_id] follows once
    the revision row exists. *)
Definition activate_claim (value : string) (memory_id : option uuid) (priority : Z)
    (confidence : Q) (observed_at : option datetime) (now : datetime) (c : MemoryClaim)
    : MemoryClaim :=
  c <| c_active_value := Some value |> <| c_status := ClaimStatus.active |>
    <| c_active_memory_id := memory_id |> <| c_authority_priority := priority |>
    <| c_confidence_score := confidence |>
    <| c_observed_at := match observed_at with Some t => Some t | None => c_observed_at c end |>
    <| c_effective_at := now |> <| c_updated_at := now |>.

Definition dispute_claim (now : datetime) (c : MemoryClaim) : MemoryClaim :=
  c <| c_status := ClaimStatus.disputed |> <| c_updated_at := now |>.

Definition set_winner (revision_id : uuid) (c : MemoryClaim) : MemoryClaim :=
  c <| c_winning_revision_id := Some revision_id |>.

(** Add the revision, flush, and name it as winner when it was activated. *)
Definition append_revision (claim_id : uuid) (r : MemoryClaimRevision) : LM unit :=
  modify_st (put_revision r);;
  flush;;
  if bool_decide (r_status r = RevisionStatus.activated)
  then modify_st (fun L => L <| claims ::= alter (set_winner (r_id r)) claim_id |>)
  else mret tt.

Section Service.
Context `{PyLib}.

(** ** [record_memory] *)

(** The arguments of a call, with the clock and the fresh row ids. *)
Record RecordArgs := {
  ra_memory : Memory;
  ra_tenant_id : option uuid;
  ra_proxy_user_id : option uuid;
  ra_provenance : option obj;
  ra_declaration : option PreferenceClaimRequest;   (* preference_declaration(provenance) *)
  ra_resolution : string;
  ra_decision_evidence : option json;
  ra_predecessor_memory_id : option uuid;
  ra_now : datetime;
  ra_claim_id : uuid;
  ra_revision_id : uuid;
}.

Definition identity_for (a : RecordArgs) : option ClaimIdentity :=
  match ra_declaration a with
  | Some d => Some (preference_identity d)
  | None =>
      scope ← dict_or_empty (jget_or_null "scope" (default [] (ra_provenance a)));
      Some (build_claim_identity (m_content (ra_memory a))
              (MemoryCategory.value (m_category (ra_memory a))) scope)
  end.

Definition is_update (resolution : string) : bool :=
  bool_decide (resolution = "UPDATE") || bool_decide (resolution = "MERGE").

(** The predecessor checks; [Some msg] is the [ValueError] raised. *)
Definition predecessor_error (a : RecordArgs) (tenant proxy : uuid) (identity : ClaimIdentity)
    (predecessor_claim : option MemoryClaim) : option string :=
  match ra_predecessor_memory_id a with
  | None => None
  | Some _ =>
      if bool_decide (is_Some (ra_declaration a)) then
        match predecessor_claim with
        | Some p =>
            if bool_decide (c_claim_fingerprint p = ci_fingerprint identity)
               && bool_decide (c_tenant_id p = tenant) && bool_decide (c_proxy_user_id p = proxy)
            then None else Some "explicit preference predecessor identity mismatch"
        | None => Some "explicit preference predecessor identity mismatch"
        end
      else if is_update (ra_resolution a) then
        match predecessor_claim with
        | Some p =>
            if bool_decide (c_subject_key p = GENERIC_CLAIM_SUBJECT)
               && bool_decide (c_tenant_id p = tenant) && bool_decide (c_proxy_user_id p = proxy)
               && bool_decide (c_category p = m_category (ra_memory a))
               && bool_decide (normalize_generic_scope (c_scope p)
                               = normalize_generic_scope (ci_scope identity))
            then None else Some "generic predecessor identity is unverified"
        | None => Some "generic predecessor identity is unverified"
        end
      else None
  end.

Definition scope_error (a : RecordArgs) (identity : ClaimIdentity) (claim : option MemoryClaim)
    : option string :=
  match ra_declaration a, claim with
  | None, Some c =>
      if bool_decide (normalize_generic_scope (c_scope c) = normalize_generic_scope (ci_scope identity))
      then None else Some "generic claim scope binding mismatch"
  | _, _ => None
  end.

Definition raise_if (e : option string) : LM unit :=
  match e with Some msg => raise_st (ValueError msg) | None => mret tt end.

Definition new_claim (a : RecordArgs) (tenant proxy : uuid) (identity : ClaimIdentity)
    (priority : Z) (observed_at : option datetime) : MemoryClaim :=
  let should_activate := negb (m_is_archived (ra_memory a)) in
  {| c_id := ra_claim_id a; c_tenant_id := tenant; c_proxy_user_id := proxy;
     c_category := m_category (ra_memory a);
     c_claim_fingerprint := ci_fingerprint identity;
     c_subject_key := ci_subject_key identity; c_predicate_key := ci_predicate_key identity;
     c_scope := ci_scope identity;
     c_active_value := if should_activate then Some (ci_value identity) else None;
     c_status := if should_activate then ClaimStatus.active else ClaimStatus.disputed;
     c_active_memory_id := if should_activate then Some (m_id (ra_memory a)) else None;
     c_winning_revision_id := None;
     c_authority_priority := priority;
     c_confidence_score := m_confidence_score (ra_memory a);
     c_observed_at := observed_at; c_effective_at := ra_now a; c_updated_at := ra_now a |}.

(** The existing-claim branch: the status of the incoming revision, after the
    claim and its old winner were updated accordingly. *)
Definition contest_claim (a : RecordArgs) (identity : ClaimIdentity) (priority : Z)
    (observed_at : option datetime) (has_predecessor : bool) (c : MemoryClaim)
    : LM RevisionStatus.t :=
  let memory := ra_memory a in
  let should_activate := negb (m_is_archived memory) in
  let active_value := normalize_text (default EmptyString (c_active_value c)) in
  let incoming_value := normalize_text (ci_value identity) in
  if should_activate
     && (has_predecessor
         || (bool_decide (is_Some (ra_declaration a)) && bool_decide (c_active_memory_id c = None))
         || _incoming_wins c priority (m_confidence_score memory) observed_at)
  then
    modify_st (_mark_existing_winner_superseded c);;
    modify_st (put_claim (activate_claim (ci_value identity) (Some (m_id memory)) priority
                            (m_confidence_score memory) observed_at (ra_now a) c));;
    mret RevisionStatus.activated
  else if should_activate && negb (bool_decide (active_value = EmptyString))
          && negb (bool_decide (incoming_value = active_value))
  then
    modify_st (put_claim (dispute_claim (ra_now a) c));;
    mret RevisionStatus.disputed
  else if should_activate then mret RevisionStatus.asserted
  else mret RevisionStatus.disputed.

(** [list((provenance or {}).get(evidence) or [])]: the items of a list, the keys
    of an object, the characters of a string; [None] raises [TypeError]. *)
Definition evidence_refs (provenance : option obj) : option (list json) :=
  let e := jget_or_null "evidence" (default [] provenance) in
  if negb (truthy e) then Some [] else
  match e with
  | JArr items => Some items
  | JObj kv => Some ((fun p => JStr p.1) <$> kv)
  | JStr s => Some ((fun c => JStr (String c EmptyString)) <$> String.list_ascii_of_string s)
  | _ => None
  end.

Definition memory_revision (a : RecordArgs) (claim_id : uuid) (identity : ClaimIdentity)
    (priority : Z) (observed_at : option datetime) (evidence : list json) (status : RevisionStatus.t)
    : MemoryClaimRevision :=
  let provenance := default [] (ra_provenance a) in
  {| r_id := ra_revision_id a; r_claim_id := claim_id;
     r_memory_id := Some (m_id (ra_memory a));
     r_source_event_id := m_source_event_id (ra_memory a);
     r_source_writer_id := parse_uuid (jget_or_null "writer_id" provenance);
     r_source_domain := None; r_source_domain_record_id := None; r_source_field := None;
     r_asserted_value := ci_value identity; r_status := status;
     r_authority_priority := priority;
     r_confidence_score := m_confidence_score (ra_memory a);
     r_observed_at := observed_at;
     r_effective_from := m_effective_from (ra_memory a);
     r_effective_until := m_effective_until (ra_memory a);
     r_evidence_refs := JArr evidence;
     r_resolution_reason := ra_resolution a;
     r_decision_evidence := default (JObj []) (ra_decision_evidence a);
     r_schema_version := CLAIM_SCHEMA_VERSION;
     r_processor_version := processor_version_for_resolution (Some (ra_resolution a)) false;
     r_created_at := ra_now a |}.

Definition record_memory (a : RecordArgs) : LM (option uuid) :=
  match ra_tenant_id a, ra_proxy_user_id a with
  | Some tenant, Some proxy =>
      identity ← lift_opt AttributeError (identity_for a);
      predecessor_claim ←
        match ra_predecessor_memory_id a with
        | Some p => if is_update (ra_resolution a) then _find_claim_for_memory p else mret None
        | None => mret None
        end;
      raise_if (predecessor_error a tenant proxy identity predecessor_claim);;
      claim ←
        match predecessor_claim with
        | Some c => mret (Some c)
        | None => _find_claim tenant proxy (ci_fingerprint identity)
        end;
      raise_if (scope_error a identity claim);;
      priority ← lift_opt BadMapping
                   (authority_priority (ra_provenance a)
                      (MemoryCategory.value (m_category (ra_memory a))));
      let observed_at :=
        parse_observed_at (jget_or_null "observed_at" (default [] (ra_provenance a))) in
      claim_status ←
        match claim with
        | None =>
            modify_st (put_claim (new_claim a tenant proxy identity priority observed_at));;
            flush;;
            mret (ra_claim_id a,
                  if m_is_archived (ra_memory a)
                  then RevisionStatus.disputed else RevisionStatus.activated)
        | Some c =>
            status ← contest_claim a identity priority observed_at
                       (bool_decide (is_Some predecessor_claim)) c;
            mret (c_id c, status)
        end;
      evidence ← lift_opt TypeError (evidence_refs (ra_provenance a));
      append_revision claim_status.1
        (memory_revision a claim_status.1 identity priority observed_at evidence claim_status.2);;
      mret (Some claim_status.1)
  | _, _ => mret None
  end.

(** ** Domain fields *)

(** [serialize_claim_value] *)
Definition serialize_claim_value (value : json) : option string :=
  match value with
  | JNull => None
  | JStr s => if bool_decide (s = EmptyString) then None else Some s
  | JArr [] => None
  | JObj [] => None
  | JArr _ | JObj _ | JDate _ => Some (compact_dump value)
  | v => Some (py_str str_other v)
  end.

Record DomainArgs := {
  da_tenant_id : uuid;
  da_proxy_user_id : uuid;
  da_domain : string;
  da_record_id : string;
  da_field : string;
  da_category : string;
  da_value : string;
  da_provenance : option obj;
  da_now : datetime;
  da_claim_id : uuid;
  da_revision_id : uuid;
}.

Definition category_of_value (s : string) : option MemoryCategory.t :=
  find (fun c => bool_decide (MemoryCategory.value c = s))
    [MemoryCategory.preference; MemoryCategory.fact; MemoryCategory.goal;
     MemoryCategory.procedure; MemoryCategory.relationship; MemoryCategory.expertise].

Definition domain_revision (a : DomainArgs) (claim_id : uuid) (priority : Z) (confidence : Q)
    (observed_at : option datetime) (evidence : list json) (status : RevisionStatus.t) : MemoryClaimRevision :=
  let provenance := default [] (da_provenance a) in
  {| r_id := da_revision_id a; r_claim_id := claim_id; r_memory_id := None;
     r_source_event_id := parse_uuid (jget_or_null "source_event_id" provenance);
     r_source_writer_id := parse_uuid (jget_or_null "writer_id" provenance);
     r_source_domain := Some (da_domain a); r_source_domain_record_id := Some (da_record_id a);
     r_source_field := Some (da_field a);
     r_asserted_value := da_value a; r_status := status; r_authority_priority := priority;
     r_confidence_score := confidence; r_observed_at := observed_at;
     r_effective_from := None; r_effective_until := None;
     r_evidence_refs := JArr evidence;
     r_resolution_reason := "domain_field_extraction"; r_decision_evidence := JObj [];
     r_schema_version := CLAIM_SCHEMA_VERSION;
     r_processor_version := processor_version_for_resolution (Some "domain_field_extraction") false;
     r_created_at := da_now a |}.

Definition new_domain_claim (a : DomainArgs) (identity : ClaimIdentity) (cat : MemoryCategory.t)
    (priority : Z) (confidence : Q) (observed_at : option datetime) : MemoryClaim :=
  {| c_id := da_claim_id a; c_tenant_id := da_tenant_id a; c_proxy_user_id := da_proxy_user_id a;
     c_category := cat; c_claim_fingerprint := ci_fingerprint identity;
     c_subject_key := ci_subject_key identity; c_predicate_key := ci_predicate_key identity;
     c_scope := ci_scope identity; c_active_value := Some (da_value a);
     c_status := ClaimStatus.active; c_active_memory_id := None; c_winning_revision_id := None;
     c_authority_priority := priority; c_confidence_score := confidence;
     c_observed_at := observed_at; c_effective_at := da_now a; c_updated_at := da_now a |}.

(** The existing-claim branch of [_record_domain_field]. *)
Definition contest_domain_claim (a : DomainArgs) (priority : Z) (confidence : Q)
    (observed_at : option datetime) (writer_id : option uuid) (c : MemoryClaim)
    : LM RevisionStatus.t :=
  L ← get_st;
  let same_writer := match _winning_revision c L with
                     | None => true
                     | Some w => bool_decide (r_source_writer_id w = writer_id)
                     end in
  if bool_decide (c_active_value c = Some (da_value a)) then mret RevisionStatus.asserted
  else if same_writer || _incoming_wins c priority confidence observed_at then
    modify_st (_mark_existing_winner_superseded c);;
    modify_st (put_claim (activate_claim (da_value a) (c_active_memory_id c) priority confidence
                            observed_at (da_now a) c));;
    mret RevisionStatus.activated
  else
    modify_st (put_claim (dispute_claim (da_now a) c));;
    mret RevisionStatus.disputed.

Definition _record_domain_field (a : DomainArgs) : LM uuid :=
  scope ← lift_opt BadMapping (provenance_dict (da_provenance a) "scope");
  let identity := build_domain_claim_identity (da_domain a) (da_field a) (da_category a)
                    (da_value a) (jset "domain" (JStr (da_domain a)) scope) in
  claim ← _find_claim (da_tenant_id a) (da_proxy_user_id a) (ci_fingerprint identity);
  priority ← lift_opt BadMapping
               (domain_authority_priority (da_provenance a) (da_domain a) (da_field a) (da_category a));
  confidence ← lift_opt BadMapping (domain_field_confidence (da_provenance a));
  let observed_at :=
    parse_observed_at (jget_or_null "observed_at" (default [] (da_provenance a))) in
  let writer_id := parse_uuid (jget_or_null "writer_id" (default [] (da_provenance a))) in
  claim_status ←
    match claim with
    | None =>
        cat ← lift_opt (ValueError "category") (category_of_value (da_category a));
        modify_st (put_claim (new_domain_claim a identity cat priority confidence observed_at));;
        flush;;
        mret (da_claim_id a, RevisionStatus.activated)
    | Some c =>
        status ← contest_domain_claim a priority confidence observed_at writer_id c;
        mret (c_id c, status)
    end;
  evidence ← lift_opt TypeError (evidence_refs (da_provenance a));
  append_revision claim_status.1
    (domain_revision a claim_status.1 priority confidence observed_at evidence claim_status.2);;
  mret claim_status.1.

(** [record_domain_fields]: one call per updated, categorised, non-empty field
    in name order; [ids] supplies the fresh claim and revision ids. *)
Fixpoint record_fields (mk : string -> string -> string -> nat -> DomainArgs)
    (get_field : string -> json) (field_categories : list (string * string))
    (n : nat) (fields : list string) : LM (list uuid) :=
  match fields with
  | [] => mret []
  | f :: fields =>
      match find (fun fc => bool_decide (fc.1 = f)) field_categories,
            serialize_claim_value (get_field f) with
      | Some (_, category), Some value =>
          c ← _record_domain_field (mk f category value n);
          cs ← record_fields mk get_field field_categories (S n) fields;
          mret (c :: cs)
      | _, _ => record_fields mk get_field field_categories n fields
      end
  end.

Definition record_domain_fields (mk : string -> string -> string -> nat -> DomainArgs)
    (get_field : string -> json) (field_categories : list (string * string))
    (fields_updated : list string) : LM (list uuid) :=
  record_fields mk get_field field_categories 0
    (sort_by py_string_le (remove_dups fields_updated)).

End Service.

(** ** Manual conflict resolution *)

Definition selected_memories (memory_a memory_b : uuid) (selection : string) : option (gset uuid) :=
  if bool_decide (selection = "A") then Some {[memory_a]}
  else if bool_decide (selection = "B") then Some {[memory_b]}
  else if bool_decide (selection = "both") then Some {[memory_a; memory_b]}
  else if bool_decide (selection = "neither") then Some ∅
  else None.

Definition is_selected (selected : gset uuid) (r : MemoryClaimRevision) : bool :=
  match r_memory_id r with Some m => bool_decide (m ∈ selected) | None => false end.

(** The ids of the claims that have a revision of one of the two memories. *)
Definition affected_claim_ids (memory_a memory_b : uuid) (L : Ledger) : gset uuid :=
  list_to_set (r_claim_id <$>
    filter (fun r => r_memory_id r = Some memory_a \/ r_memory_id r = Some memory_b)
      (snd <$> map_to_list (revisions L))).

(** [selected_by_claim.get(claim_id, [])], in row order. *)
Definition selected_revisions (selected : gset uuid) (claim_id : uuid) (L : Ledger)
    : list MemoryClaimRevision :=
  filter (fun r => r_claim_id r = claim_id /\ is_selected selected r = true)
    (snd <$> map_to_list (revisions L)).

Definition desired_status (selection : string) (selected : gset uuid) (L : Ledger)
    (r : MemoryClaimRevision) : RevisionStatus.t :=
  if is_selected selected r then
    if bool_decide (selection = "both")
       && (2 <=? length (selected_revisions selected (r_claim_id r) L))%nat
    then RevisionStatus.disputed else RevisionStatus.activated
  else RevisionStatus.rejected.

(** First pass: reasons everywhere, statuses of the demoted revisions only. *)
Definition demote_revision (desired : MemoryClaimRevision -> RevisionStatus.t)
    (affected : gset uuid) (reason : string) (evidence : json) (r : MemoryClaimRevision)
    : MemoryClaimRevision :=
  if bool_decide (r_claim_id r ∈ affected) then
    (if bool_decide (desired r = RevisionStatus.activated) then r
     else r <| r_status := desired r |>)
      <| r_resolution_reason := reason |> <| r_decision_evidence := evidence |>
  else r.

(** Second pass: the promotions. *)
Definition promote_revision (desired : MemoryClaimRevision -> RevisionStatus.t)
    (affected : gset uuid) (r : MemoryClaimRevision) : MemoryClaimRevision :=
  if bool_decide (r_claim_id r ∈ affected) && bool_decide (desired r = RevisionStatus.activated)
  then r <| r_status := RevisionStatus.activated |> else r.

Definition settle_claim (selection : string) (selected : list MemoryClaimRevision)
    (now : datetime) (c : MemoryClaim) : MemoryClaim :=
  (if bool_decide (selection = "both") && (2 <=? length selected)%nat then
     c <| c_status := ClaimStatus.disputed |>
       <| c_active_value := Some (py_join "; " (r_asserted_value <$> selected)) |>
       <| c_active_memory_id := None |> <| c_winning_revision_id := None |>
   else match selected with
        | [winner] =>
            c <| c_status := ClaimStatus.active |>
              <| c_active_value := Some (r_asserted_value winner) |>
              <| c_active_memory_id := r_memory_id winner |>
              <| c_winning_revision_id := Some (r_id winner) |>
              <| c_authority_priority := r_authority_priority winner |>
              <| c_confidence_score := r_confidence_score winner |>
              <| c_observed_at := match r_observed_at winner with
                                  | Some t => Some t | None => c_observed_at c end |>
        | _ =>
            c <| c_status := ClaimStatus.archived |> <| c_active_value := None |>
              <| c_active_memory_id := None |> <| c_winning_revision_id := None |>
        end)
  <| c_updated_at := now |>.

Definition resolution_evidence (reason selection : string) : json :=
  JObj [("action", JStr "manual_resolution"); ("decision_level", JStr "manual");
        ("reason_codes", JArr [JStr "human_review_completed"]);
        ("explanation", JStr reason);
        ("details", JObj [("selection", JStr selection)])].

Definition apply_conflict_selection (memory_a memory_b : uuid) (selection reason : string)
    (now : datetime) : LM unit :=
  L ← get_st;
  let affected := affected_claim_ids memory_a memory_b L in
  selected ← lift_opt KeyError (selected_memories memory_a memory_b selection);
  let desired := desired_status selection selected L in
  modify_st (fun L => L <| revisions ::= fmap (demote_revision desired affected reason
                                              (resolution_evidence reason selection)) |>);;
  flush;;
  modify_st (fun L => L <| revisions ::= fmap (promote_revision desired affected) |>);;
  flush;;
  modify_st (fun L1 => L1 <| claims ::= fmap (fun c =>
    if bool_decide (c_id c ∈ affected)
    then settle_claim selection (selected_revisions selected (c_id c) L) now c else c) |>).

(** ** Hard delete: [_hard_delete_memory_and_reconcile_claims] *)

(** Deleting the memory row deletes its revisions ([cascade="all,
    delete-orphan"]) and clears foreign keys to it. *)
Definition cascade_delete_memory (memory_id : uuid) (L : Ledger) : Ledger :=
  L <| revisions ::= filter (fun ir => r_memory_id ir.2 <> Some memory_id) |>
    <| claims ::= fmap (fun c =>
         (if bool_decide (c_active_memory_id c = Some memory_id)
          then c <| c_active_memory_id := None |> else c)
         <| c_winning_revision_id :=
              i ← c_winning_revision_id c;
              match revisions L !! i with
              | Some r => if bool_decide (r_memory_id r = Some memory_id) then None else Some i
              | None => Some i
              end |>) |>.

Definition claim_revisions (claim_id : uuid) (L : Ledger) : list MemoryClaimRevision :=
  filter (fun r => r_claim_id r = claim_id) (snd <$> map_to_list (revisions L)).

(** The surviving claim after its revisions changed; [None] deletes it. *)
Definition reconcile_claim (now : datetime) (L : Ledger) (c : MemoryClaim) : option MemoryClaim :=
  match claim_revisions (c_id c) L with
  | [] => None
  | rs =>
      Some ((match filter (fun r => r_status r = RevisionStatus.activated) rs with
             | [winner] =>
                 c <| c_status := ClaimStatus.active |>
                   <| c_active_value := Some (r_asserted_value winner) |>
                   <| c_active_memory_id := r_memory_id winner |>
                   <| c_winning_revision_id := Some (r_id winner) |>
                   <| c_authority_priority := r_authority_priority winner |>
                   <| c_confidence_score := r_confidence_score winner |>
                   <| c_observed_at := match r_observed_at winner with
                                       | Some t => Some t | None => c_observed_at c end |>
             | _ =>
                 c <| c_status := ClaimStatus.archived |> <| c_active_value := None |>
                   <| c_active_memory_id := None |> <| c_winning_revision_id := None |>
             end) <| c_updated_at := now |>)
  end.

Definition _hard_delete_memory_and_reconcile_claims (memory_id : uuid) (now : datetime)
    (L : Ledger) : Ledger :=
  let claim_ids : gset uuid := list_to_set (r_claim_id <$> revisions_of_memory memory_id L) in
  let L1 := cascade_delete_memory memory_id L in
  L1 <| claims ::= omap (fun c =>
    if bool_decide (c_id c ∈ claim_ids) then reconcile_claim now L1 c else Some c) |>.

(** ** The ledger invariant *)

Record wf (L : Ledger) : Prop := {
  (** rows carry their primary key *)
  wf_claim_ids i c : claims L !! i = Some c -> c_id c = i;
  wf_revision_ids j r : revisions L !! j = Some r -> r_id r = j;
  (** a revision belongs to a claim *)
  wf_foreign_key j r : revisions L !! j = Some r -> is_Some (claims L !! r_claim_id r);
  (** an activated revision is its claim's winner *)
  wf_activated j r :
    revisions L !! j = Some r -> r_status r = RevisionStatus.activated ->
    exists c, claims L !! r_claim_id r = Some c /\ c_winning_revision_id c = Some j;
  (** a winner is a revision of its claim, from the claim's active memory *)
  wf_winner i c j :
    claims L !! i = Some c -> c_winning_revision_id c = Some j ->
    exists r, revisions L !! j = Some r /\ r_claim_id r = i /\ r_memory_id r = c_active_memory_id c;
  (** an active claim shows the value of its activated winner *)
  wf_active i c :
    claims L !! i = Some c -> c_status c = ClaimStatus.active ->
    exists j r, c_winning_revision_id c = Some j /\ revisions L !! j = Some r /\
      r_status r = RevisionStatus.activated /\ c_active_value c = Some (r_asserted_value r);
  (** a memory is recorded once *)
  wf_memory_once j j' r r' m :
    revisions L !! j = Some r -> revisions L !! j' = Some r' ->
    r_memory_id r = Some m -> r_memory_id r' = Some m -> j = j';
  (** claims are unique per owner and fingerprint *)
  wf_unique i i' c c' :
    claims L !! i = Some c -> claims L !! i' = Some c' -> claim_key c = claim_key c' -> i = i';
}.

Lemma wf_empty : wf {| claims := ∅; revisions := ∅ |}.
Proof. constructor; simpl; intros; by simplify_map_eq. Qed.

Lemma wf_one_activated L : wf L -> NoDup (activated_claim_ids L).
Proof.
  intros Hwf. apply (NoDup_fmap_rows _ r_id); [apply Hwf|].
  intros i j a b Ha Hb Sa Sb Heq.
  destruct (wf_activated L Hwf i a Ha Sa) as (c & Hc & Hi).
  destruct (wf_activated L Hwf j b Hb Sb) as (c' & Hc' & Hj). rewrite Heq in Hc. congruence.
Qed.

Lemma wf_claim_keys L : wf L -> NoDup (claim_keys L).
Proof.
  intros Hwf. unfold claim_keys. apply NoDup_fmap_2_strong; [|apply NoDup_map_to_list].
  intros [i c] [j c'] Hi Hj. simpl. intros Heq. apply elem_of_map_to_list in Hi, Hj.
  pose proof (wf_unique L Hwf i j c c' Hi Hj Heq). subst. congruence.
Qed.

Lemma flush_ok L :
  NoDup (activated_claim_ids L) -> NoDup (claim_keys L) -> flush L = (L, inr tt).
Proof. intros. unfold flush. by rewrite !bool_decide_true. Qed.

Lemma flush_wf L : wf L -> flush L = (L, inr tt).
Proof. intros. apply flush_ok; [by apply wf_one_activated|by apply wf_claim_keys]. Qed.

(** ** The key lookups *)

Lemma claims_with_key_elem key L c :
  c ∈ claims_with_key key L <-> claim_key c = key /\ exists i, claims L !! i = Some c.
Proof. unfold claims_with_key. by rewrite list_elem_of_filter, elem_of_rows. Qed.

Lemma find_claim_wf t p fp L :
  wf L ->
  exists o, _find_claim t p fp L = (L, inr o) /\
    match o with
    | Some c => claims L !! c_id c = Some c /\ claim_key c = (t, p, fp)
    | None => forall i c, claims L !! i = Some c -> claim_key c <> (t, p, fp)
    end.
Proof.
  intros Hwf. unfold _find_claim, mbind, M_bind, get_st.
  assert (NoDup (claims_with_key (t, p, fp) L)) as Hnd.
  { apply NoDup_filter, (NoDup_rows _ c_id), Hwf. }
  destruct (claims_with_key (t, p, fp) L) as [|c [|c' l]] eqn:E; simpl.
  - exists None. split; [done|]. intros i c Hc Hk.
    assert (c ∈ claims_with_key (t, p, fp) L) as Hin by (apply claims_with_key_elem; eauto).
    rewrite E in Hin. by apply elem_of_nil in Hin.
  - exists (Some c). split; [done|].
    assert (c ∈ claims_with_key (t, p, fp) L) as Hin by (rewrite E; apply list_elem_of_here).
    apply claims_with_key_elem in Hin as [Hk [i Hi]].
    by rewrite (wf_claim_ids L Hwf i c Hi).
  - exfalso.
    assert (c ∈ claims_with_key (t, p, fp) L /\ c' ∈ claims_with_key (t, p, fp) L) as [H1 H2].
    { rewrite E. split; [apply list_elem_of_here|]. apply list_elem_of_further, list_elem_of_here. }
    apply claims_with_key_elem in H1 as [K1 [i Hi]], H2 as [K2 [j Hj]].
    assert (i = j) as -> by (eapply (wf_unique L Hwf); eauto; congruence).
    assert (c = c') as -> by congruence.
    apply NoDup_cons in Hnd as [Hnd _]. apply Hnd, list_elem_of_here.
Qed.

Lemma latest_elem rows r : latest rows = Some r -> r ∈ rows.
Proof.
  revert r. induction rows as [|x rows IH]; intros r; simpl; [done|].
  destruct (latest rows) as [r'|] eqn:E; intros; simplify_eq.
  - case_match; [apply list_elem_of_further; auto|apply list_elem_of_here].
  - apply list_elem_of_here.
Qed.

Lemma revisions_of_memory_elem m L r :
  r ∈ revisions_of_memory m L <-> r_memory_id r = Some m /\ exists j, revisions L !! j = Some r.
Proof. unfold revisions_of_memory. by rewrite list_elem_of_filter, elem_of_rows. Qed.

Lemma find_claim_for_memory_wf m L :
  wf L ->
  exists o, _find_claim_for_memory m L = (L, inr o) /\
    match o with
    | Some c => claims L !! c_id c = Some c
    | None => forall j r, revisions L !! j = Some r -> r_memory_id r <> Some m
    end.
Proof.
  intros Hwf. unfold _find_claim_for_memory, mbind, M_bind, get_st, mret, M_ret.
  eexists; split; [done|]. unfold option_bind.
  destruct (latest (revisions_of_memory m L)) as [r|] eqn:E; simpl.
  - apply latest_elem, revisions_of_memory_elem in E as [Hm [j Hj]].
    destruct (wf_foreign_key L Hwf j r Hj) as [c Hc]. simpl. rewrite Hc.
    by rewrite (wf_claim_ids L Hwf _ c Hc).
  - intros j r Hj Hm.
    assert (r ∈ revisions_of_memory m L) as Hin by (apply revisions_of_memory_elem; eauto).
    destruct (revisions_of_memory m L) as [|x l]; [by apply elem_of_nil in Hin|].
    simpl in E. by destruct (latest l).
Qed.

(** ** The moves every operation is made of

    Each operation demotes the winner of one claim, rewrites that claim and
    installs a revision.  [vacant cid] is the invariant in between: claim
    [cid] has no activated revision and nothing is required of its display. *)

Record vacant (cid : uuid) (L : Ledger) : Prop := {
  va_claim_ids i c : claims L !! i = Some c -> c_id c = i;
  va_revision_ids j r : revisions L !! j = Some r -> r_id r = j;
  va_foreign_key j r : revisions L !! j = Some r -> is_Some (claims L !! r_claim_id r);
  va_activated j r :
    revisions L !! j = Some r -> r_status r = RevisionStatus.activated ->
    r_claim_id r <> cid /\
    exists c, claims L !! r_claim_id r = Some c /\ c_winning_revision_id c = Some j;
  va_winner i c j :
    i <> cid -> claims L !! i = Some c -> c_winning_revision_id c = Some j ->
    exists r, revisions L !! j = Some r /\ r_claim_id r = i /\ r_memory_id r = c_active_memory_id c;
  va_active i c :
    i <> cid -> claims L !! i = Some c -> c_status c = ClaimStatus.active ->
    exists j r, c_winning_revision_id c = Some j /\ revisions L !! j = Some r /\
      r_status r = RevisionStatus.activated /\ c_active_value c = Some (r_asserted_value r);
  va_memory_once j j' r r' m :
    revisions L !! j = Some r -> revisions L !! j' = Some r' ->
    r_memory_id r = Some m -> r_memory_id r' = Some m -> j = j';
  va_unique i i' c c' :
    claims L !! i = Some c -> claims L !! i' = Some c' -> claim_key c = claim_key c' -> i = i';
}.

(** A claim update that keeps the row's identity. *)
Definition same_row (c c' : MemoryClaim) : Prop := c_id c' = c_id c /\ claim_key c' = claim_key c.

(** Rewriting the row of a vacant claim keeps it vacant. *)
Lemma vacant_put_claim cid L c c' :
  vacant cid L -> claims L !! cid = Some c -> same_row c c' -> vacant cid (put_claim c' L).
Proof.
  intros Hv Hc [Hid Hkey].
  assert (c_id c' = cid) as Hid' by (rewrite Hid; by apply (va_claim_ids _ L Hv)).
  assert (forall i d, claims (put_claim c' L) !! i = Some d ->
            exists d0, claims L !! i = Some d0 /\ claim_key d = claim_key d0) as Hrows.
  { intros i d. simpl. rewrite Hid'. destruct (decide (cid = i)) as [<-|Hne].
    - rewrite lookup_insert_eq. intros [= <-]. eauto.
    - rewrite lookup_insert_ne by done. eauto. }
  constructor; simpl; rewrite ?Hid'.
  - intros i d. destruct (decide (cid = i)) as [<-|Hne]; intros; simplify_map_eq; [done|].
    by apply (va_claim_ids _ L Hv).
  - apply Hv.
  - intros j r Hj. apply lookup_insert_is_Some'. right. by apply (va_foreign_key _ L Hv j).
  - intros j r Hj Hs. destruct (va_activated _ L Hv j r Hj Hs) as [Hne Hex].
    split; [done|]. by rewrite lookup_insert_ne.
  - intros i d j Hne. rewrite lookup_insert_ne by done. by apply (va_winner _ L Hv).
  - intros i d Hne. rewrite lookup_insert_ne by done. by apply (va_active _ L Hv).
  - apply Hv.
  - intros i i' d d' Hi Hi' Hk.
    destruct (Hrows i d) as (e & He & Ke); [by simpl; rewrite Hid'|].
    destruct (Hrows i' d') as (e' & He' & Ke'); [by simpl; rewrite Hid'|].
    eapply (va_unique _ L Hv); [done..|congruence].
Qed.

(** Demoting the winner vacates the claim. *)
Lemma wf_demote_vacant L cid c (f : MemoryClaimRevision -> MemoryClaimRevision) :
  wf L -> claims L !! cid = Some c ->
  (forall r, r_id (f r) = r_id r /\ r_claim_id (f r) = r_claim_id r /\
             r_memory_id (f r) = r_memory_id r /\ r_status (f r) <> RevisionStatus.activated) ->
  vacant cid (match c_winning_revision_id c with
              | Some i => L <| revisions ::= alter f i |> | None => L end).
Proof.
  intros Hwf Hc Hf.
  assert (forall j r, revisions L !! j = Some r -> r_status r = RevisionStatus.activated ->
            r_claim_id r = cid -> c_winning_revision_id c = Some j) as Hact.
  { intros j r Hj Hs Hcid. destruct (wf_activated L Hwf j r Hj Hs) as (d & Hd & Hw). congruence. }
  destruct (c_winning_revision_id c) as [w|] eqn:Hw.
  2:{ constructor; try apply Hwf; [|intros; by eapply (wf_winner L Hwf)|intros; by apply (wf_active L Hwf i)].
      intros j r Hj Hs. split; [|by apply (wf_activated L Hwf)].
      intros Hcid. by specialize (Hact j r Hj Hs Hcid). }
  destruct (wf_winner L Hwf cid c w Hc Hw) as (rw & Hrw & Hrcid & Hrmem).
  assert (forall j r, alter f w (revisions L) !! j = Some r ->
    exists r0, revisions L !! j = Some r0 /\ r_id r = r_id r0 /\ r_claim_id r = r_claim_id r0 /\
      r_memory_id r = r_memory_id r0 /\ (j = w -> r_status r <> RevisionStatus.activated) /\
      (j <> w -> r = r0)) as Halt.
  { intros j r. rewrite lookup_alter. case_decide as Hjw.
    - subst j. rewrite Hrw. intros [= <-]. exists rw. destruct (Hf rw) as (? & ? & ? & ?). by split_and!.
    - intros ->. exists r. split_and!; try done. }
  constructor; simpl.
  - apply Hwf.
  - intros j r Hj. destruct (Halt j r Hj) as (r0 & Hr0 & -> & _). by apply (wf_revision_ids L Hwf).
  - intros j r Hj. destruct (Halt j r Hj) as (r0 & Hr0 & _ & -> & _). by apply (wf_foreign_key L Hwf j).
  - intros j r Hj Hs. destruct (Halt j r Hj) as (r0 & Hr0 & _ & Hcl & _ & Hn & He).
    destruct (decide (j = w)) as [->|Hne]; [by destruct (Hn eq_refl)|].
    rewrite (He Hne) in *. split; [|by apply (wf_activated L Hwf)].
    intros Hcid. specialize (Hact j r0 Hr0 Hs Hcid). congruence.
  - intros i d j Hne Hd Hdw. destruct (wf_winner L Hwf i d j Hd Hdw) as (r & Hr & Hri & Hrm).
    exists r. rewrite lookup_alter_ne; [done|]. intros <-. congruence.
  - intros i d Hne Hd Hds. destruct (wf_active L Hwf i d Hd Hds) as (j & r & Hdw & Hr & Hs & Hval).
    exists j, r. split_and!; try done. rewrite lookup_alter_ne; [done|].
    intros <-. destruct (wf_winner L Hwf i d w Hd Hdw) as (r' & Hr' & Hri & _). congruence.
  - intros j j' r r' m Hj Hj' Hm Hm'.
    destruct (Halt j r Hj) as (r0 & Hr0 & _ & _ & E0 & _), (Halt j' r' Hj') as (r1 & Hr1 & _ & _ & E1 & _).
    eapply (wf_memory_once L Hwf j j' r0 r1 m); congruence.
  - apply Hwf.
Qed.

(** Install revision [r] as the winner of the vacant claim. *)
Lemma vacant_install L c r :
  vacant (r_claim_id r) L -> claims L !! r_claim_id r = Some c ->
  (forall r0, revisions L !! r_id r = Some r0 -> r_claim_id r0 = r_claim_id r) ->
  (forall j r0 m, j <> r_id r -> revisions L !! j = Some r0 ->
                  r_memory_id r = Some m -> r_memory_id r0 <> Some m) ->
  c_active_memory_id c = r_memory_id r -> r_status r = RevisionStatus.activated ->
  c_active_value c = Some (r_asserted_value r) ->
  wf (put_revision r L <| claims ::= alter (set_winner (r_id r)) (r_claim_id r) |>).
Proof.
  intros Hv Hc Hold Hmem Hcm Hst Hval.
  set (cid := r_claim_id r) in *.
  assert (forall i d, alter (set_winner (r_id r)) cid (claims L) !! i = Some d ->
    exists d0, claims L !! i = Some d0 /\ c_id d = c_id d0 /\ claim_key d = claim_key d0 /\
      (i <> cid -> d = d0) /\ (i = cid -> d = set_winner (r_id r) c)) as Halt.
  { intros i d. rewrite lookup_alter. case_decide as Hic.
    - subst i. rewrite Hc. intros [= <-]. exists c. by split_and!.
    - intros. exists d. split_and!; try done. }
  constructor; simpl.
  - intros i d Hd. destruct (Halt i d Hd) as (d0 & Hd0 & -> & _). by apply (va_claim_ids _ L Hv).
  - intros j s. destruct (decide (r_id r = j)) as [<-|Hne]; intros; simplify_map_eq; [done|].
    by apply (va_revision_ids _ L Hv).
  - intros j s Hs. apply lookup_alter_is_Some.
    destruct (decide (r_id r = j)) as [<-|Hne]; simplify_map_eq; [by eexists|].
    by apply (va_foreign_key _ L Hv j).
  - intros j s Hs Hact. destruct (decide (r_id r = j)) as [<-|Hne].
    + rewrite lookup_insert_eq in Hs. injection Hs as <-.
      exists (set_winner (r_id r) c). by rewrite lookup_alter_eq, Hc.
    + rewrite lookup_insert_ne in Hs by done. destruct (va_activated _ L Hv j s Hs Hact) as [Hcid (d & Hd & Hw)].
      exists d. by rewrite lookup_alter_ne.
  - intros i d j Hd Hw. destruct (Halt i d Hd) as (d0 & Hd0 & _ & _ & Hne & Heq).
    destruct (decide (i = cid)) as [->|Hi].
    + rewrite (Heq eq_refl) in *. simpl in Hw. simplify_eq. exists r. by rewrite lookup_insert_eq.
    + rewrite (Hne Hi) in *. destruct (va_winner _ L Hv i d0 j Hi Hd0 Hw) as (s & Hs & Hsi & Hsm).
      exists s. rewrite lookup_insert_ne; [done|]. intros <-. apply Hold in Hs. congruence.
  - intros i d Hd Hact. destruct (Halt i d Hd) as (d0 & Hd0 & _ & _ & Hne & Heq).
    destruct (decide (i = cid)) as [->|Hi].
    + rewrite (Heq eq_refl) in *. exists (r_id r), r. by rewrite lookup_insert_eq.
    + rewrite (Hne Hi) in *.
      destruct (va_active _ L Hv i d0 Hi Hd0 Hact) as (j & s & Hw & Hs & Hss & Hsv).
      exists j, s. split_and!; try done. rewrite lookup_insert_ne; [done|].
      intros <-. apply Hold in Hs as Hsc.
      destruct (va_winner _ L Hv i d0 (r_id r) Hi Hd0 Hw) as (s' & Hs' & Hsi & _). congruence.
  - intros j j' s s' m Hj Hj' Hm Hm'.
    destruct (decide (r_id r = j)) as [<-|Hne], (decide (r_id r = j')) as [<-|Hne'];
      simplify_map_eq; try done; [by destruct (Hmem j' s' m)|by destruct (Hmem j s m)|].
    by eapply (va_memory_once _ L Hv).
  - intros i i' d d' Hi Hi' Hk.
    destruct (Halt i d Hi) as (e & He & _ & Ke & _), (Halt i' d' Hi') as (e' & He' & _ & Ke' & _).
    eapply (va_unique _ L Hv); [done..|congruence].
Qed.

(** Add a revision that is not activated. *)
Lemma wf_put_passive L r :
  wf L -> is_Some (claims L !! r_claim_id r) -> revisions L !! r_id r = None ->
  (forall j r0 m, revisions L !! j = Some r0 -> r_memory_id r = Some m -> r_memory_id r0 <> Some m) ->
  r_status r <> RevisionStatus.activated -> wf (put_revision r L).
Proof.
  intros Hwf Hfk Hfresh Hmem Hst. constructor; simpl.
  - apply Hwf.
  - intros j s. destruct (decide (r_id r = j)) as [<-|Hne]; intros; simplify_map_eq; [done|].
    by apply (wf_revision_ids L Hwf).
  - intros j s. destruct (decide (r_id r = j)) as [<-|Hne]; intros; simplify_map_eq; [done|].
    by apply (wf_foreign_key L Hwf j).
  - intros j s Hs Hact. destruct (decide (r_id r = j)) as [<-|Hne]; simplify_map_eq.
    by apply (wf_activated L Hwf).
  - intros i c j Hc Hw. destruct (wf_winner L Hwf i c j Hc Hw) as (s & Hs & ? & ?).
    exists s. rewrite lookup_insert_ne; [done|]. intros <-. congruence.
  - intros i c Hc Hact. destruct (wf_active L Hwf i c Hc Hact) as (j & s & ? & Hs & ? & ?).
    exists j, s. rewrite lookup_insert_ne; [by split_and!|]. intros <-. congruence.
  - intros j j' s s' m Hj Hj' Hm Hm'.
    destruct (decide (r_id r = j)) as [<-|Hne], (decide (r_id r = j')) as [<-|Hne'];
      simplify_map_eq; try done; [by destruct (Hmem j' s' m)|by destruct (Hmem j s m)|].
    by eapply (wf_memory_once L Hwf).
  - apply Hwf.
Qed.

(** Rewrite a claim without touching its winner or starting to display. *)
Lemma wf_put_claim L cid c c' :
  wf L -> claims L !! cid = Some c -> same_row c c' ->
  c_winning_revision_id c' = c_winning_revision_id c ->
  c_active_memory_id c' = c_active_memory_id c ->
  (c_status c' = ClaimStatus.active ->
   c_status c = ClaimStatus.active /\ c_active_value c' = c_active_value c) ->
  wf (put_claim c' L).
Proof.
  intros Hwf Hc [Hid Hkey] Hw Hm Ha.
  assert (c_id c' = cid) as Hid' by (rewrite Hid; by apply (wf_claim_ids L Hwf)).
  assert (forall i d, <[cid := c']> (claims L) !! i = Some d ->
    exists d0, claims L !! i = Some d0 /\ claim_key d = claim_key d0 /\ (i <> cid -> d = d0) /\
      (i = cid -> d = c' /\ d0 = c)) as Halt.
  { intros i d. destruct (decide (cid = i)) as [<-|Hne].
    - rewrite lookup_insert_eq. intros [= <-]. exists c. by split_and!.
    - rewrite lookup_insert_ne by done. intros Hd. exists d. by split_and!. }
  constructor; simpl; rewrite ?Hid'.
  - intros i d Hd. destruct (Halt i d Hd) as (d0 & Hd0 & _ & Hne & Heq).
    destruct (decide (i = cid)) as [->|Hi]; [by destruct (Heq eq_refl) as [-> _]|].
    rewrite (Hne Hi). by apply (wf_claim_ids L Hwf).
  - apply Hwf.
  - intros j r Hr. apply lookup_insert_is_Some'. right. by apply (wf_foreign_key L Hwf j).
  - intros j r Hr Hact. destruct (wf_activated L Hwf j r Hr Hact) as (d & Hd & Hdw).
    destruct (decide (cid = r_claim_id r)) as [Heq|Hne].
    + exists c'. rewrite Heq, lookup_insert_eq. split; [done|]. congruence.
    + exists d. by rewrite lookup_insert_ne.
  - intros i d j Hd Hdw. destruct (Halt i d Hd) as (d0 & Hd0 & _ & Hne & Heq).
    destruct (decide (i = cid)) as [->|Hi].
    + destruct (Heq eq_refl) as [-> ->]. rewrite Hm. apply (wf_winner L Hwf); [done|congruence].
    + rewrite (Hne Hi) in *. by apply (wf_winner L Hwf).
  - intros i d Hd Hact. destruct (Halt i d Hd) as (d0 & Hd0 & _ & Hne & Heq).
    destruct (decide (i = cid)) as [->|Hi].
    + destruct (Heq eq_refl) as [-> ->]. destruct (Ha Hact) as [Hact0 ->]. rewrite Hw.
      by apply (wf_active L Hwf cid).
    + rewrite (Hne Hi) in *. by apply (wf_active L Hwf i).
  - apply Hwf.
  - intros i i' d d' Hi Hi' Hk.
    destruct (Halt i d Hi) as (e & He & Ke & _), (Halt i' d' Hi') as (e' & He' & Ke' & _).
    eapply (wf_unique L Hwf); [done..|congruence].
Qed.

(** Create a claim row; it starts vacant. *)
Lemma vacant_new_claim L c :
  wf L -> claims L !! c_id c = None -> c_winning_revision_id c = None ->
  (forall i d, claims L !! i = Some d -> claim_key d <> claim_key c) ->
  vacant (c_id c) (put_claim c L).
Proof.
  intros Hwf Hfresh Hw Hkey.
  constructor; simpl.
  - intros i d. destruct (decide (c_id c = i)) as [<-|Hne]; intros; simplify_map_eq; [done|].
    by apply (wf_claim_ids L Hwf).
  - apply Hwf.
  - intros j r Hr. apply lookup_insert_is_Some'. right. by apply (wf_foreign_key L Hwf j).
  - intros j r Hr Hact. destruct (wf_activated L Hwf j r Hr Hact) as (d & Hd & Hdw).
    split; [congruence|]. exists d. rewrite lookup_insert_ne; [done|congruence].
  - intros i d j Hne. rewrite lookup_insert_ne by done. by apply (wf_winner L Hwf).
  - intros i d Hne. rewrite lookup_insert_ne by done. by apply (wf_active L Hwf).
  - apply Hwf.
  - intros i i' d d' Hi Hi' Hk.
    rewrite lookup_insert_Some in Hi, Hi'.
    destruct Hi as [[<- <-]|[Hne Hd]], Hi' as [[<- <-]|[Hne' Hd']]; [done| | |].
    + by destruct (Hkey i' d' Hd').
    + by destruct (Hkey i d Hd).
    + by eapply (wf_unique L Hwf).
Qed.

(** A vacant claim that displays nothing satisfies the invariant. *)
Lemma vacant_wf cid L c :
  vacant cid L -> claims L !! cid = Some c -> c_winning_revision_id c = None ->
  c_status c <> ClaimStatus.active -> wf L.
Proof.
  intros Hv Hc Hw Hs. constructor; try apply Hv.
  - intros i d j Hd Hdw. destruct (decide (i = cid)) as [->|Hne]; [congruence|].
    by eapply (va_winner _ L Hv).
  - intros i d Hd Hact. destruct (decide (i = cid)) as [->|Hne]; [congruence|].
    by eapply (va_active _ L Hv).
Qed.
