(* ===== verification/ClaimLedgerTheorems.v ===== *)
(** * The claim ledger: what its operations guarantee

    Recording a memory, recording a domain field, resolving a conflict by hand
    and hard-deleting a memory each keep the ledger invariant [wf] of
    [ClaimLedger]; they fail before their first write, except for evidence that
    cannot be listed, which is met after the claim has been written. *)

From S2P Require Import ClaimLedger.

(** ** Appending a revision *)

Lemma NoDup_claim_keys L :
  (forall i i' c c', claims L !! i = Some c -> claims L !! i' = Some c' ->
     claim_key c = claim_key c' -> i = i') ->
  NoDup (claim_keys L).
Proof.
  intros Huniq. unfold claim_keys. apply NoDup_fmap_2_strong; [|apply NoDup_map_to_list].
  intros [i c] [j c'] Hi Hj. simpl. intros Heq. apply elem_of_map_to_list in Hi, Hj.
  pose proof (Huniq i j c c' Hi Hj Heq). subst. congruence.
Qed.

(** The revision of a vacant claim becomes its winner; the flush in between
    cannot fail. *)
Lemma append_activated L c r :
  vacant (r_claim_id r) L -> claims L !! r_claim_id r = Some c ->
  (forall r0, revisions L !! r_id r = Some r0 -> r_claim_id r0 = r_claim_id r) ->
  (forall j r0 m, j <> r_id r -> revisions L !! j = Some r0 ->
                  r_memory_id r = Some m -> r_memory_id r0 <> Some m) ->
  c_active_memory_id c = r_memory_id r -> r_status r = RevisionStatus.activated ->
  c_active_value c = Some (r_asserted_value r) ->
  exists L', append_revision (r_claim_id r) r L = (L', inr tt) /\ wf L' /\
    revisions L' = <[r_id r := r]> (revisions L) /\
    claims L' = alter (set_winner (r_id r)) (r_claim_id r) (claims L).
Proof.
  intros Hv Hc Hold Hmem Hcm Hst Hval.
  pose proof (vacant_install L c r Hv Hc Hold Hmem Hcm Hst Hval) as Hwf.
  eexists. split; [|split; [exact Hwf|done]].
  unfold append_revision, mbind, M_bind, modify_st. simpl.
  rewrite flush_ok; [by rewrite bool_decide_true| |]; [exact (wf_one_activated _ Hwf)|].
  apply NoDup_claim_keys. simpl. apply (va_unique _ L Hv).
Qed.

Lemma append_passive L r :
  wf L -> is_Some (claims L !! r_claim_id r) -> revisions L !! r_id r = None ->
  (forall j r0 m, revisions L !! j = Some r0 -> r_memory_id r = Some m -> r_memory_id r0 <> Some m) ->
  r_status r <> RevisionStatus.activated ->
  append_revision (r_claim_id r) r L = (put_revision r L, inr tt) /\ wf (put_revision r L).
Proof.
  intros Hwf Hfk Hfresh Hmem Hst. pose proof (wf_put_passive L r Hwf Hfk Hfresh Hmem Hst) as Hwf'.
  split; [|done]. unfold append_revision, mbind, M_bind, modify_st. simpl.
  rewrite flush_wf by done. by rewrite bool_decide_false.
Qed.

(** ** Stepping from a claim to its next winner *)

(** Rows of [L'] are rows of [L] with the same memory and claim. *)
Definition same_rows (L L' : Ledger) : Prop :=
  forall j r, revisions L' !! j = Some r ->
    exists r0, revisions L !! j = Some r0 /\ r_memory_id r = r_memory_id r0 /\
      r_claim_id r = r_claim_id r0.

Lemma same_rows_refl L L' : revisions L' = revisions L -> same_rows L L'.
Proof. intros Heq j r Hr. rewrite Heq in Hr. eauto. Qed.

(** Replace the winner of [c] by an assertion yet to be appended. *)
Lemma supersede_and_activate L c v m p q o now :
  wf L -> claims L !! c_id c = Some c ->
  let c' := activate_claim v m p q o now c in
  let L' := put_claim c' (_mark_existing_winner_superseded c L) in
  vacant (c_id c) L' /\ claims L' !! c_id c = Some c' /\ same_rows L L'.
Proof.
  intros Hwf Hc c' L'.
  assert (vacant (c_id c) (_mark_existing_winner_superseded c L)) as Hv.
  { apply (wf_demote_vacant L (c_id c) c
             (fun r => r <| r_status := RevisionStatus.superseded |>)); [done..|].
    intros r. by split_and!. }
  assert (claims (_mark_existing_winner_superseded c L) = claims L) as Hcl.
  { unfold _mark_existing_winner_superseded. by destruct (c_winning_revision_id c). }
  split_and!.
  - eapply vacant_put_claim; [done|by rewrite Hcl|by split].
  - simpl. by rewrite lookup_insert_eq.
  - intros j r. subst L'. simpl. unfold _mark_existing_winner_superseded.
    destruct (c_winning_revision_id c) as [w|]; simpl; [|eauto].
    rewrite lookup_alter. case_decide as Hjw; [|eauto].
    subst j. destruct (revisions L !! w) as [r0|] eqn:E; [|done]. simpl. intros [= <-]. eauto.
Qed.

(** The two ways an existing claim takes an assertion: it is vacated for a new
    winner, or it keeps its winner and the ledger stays well-formed. *)
Inductive contested (c : MemoryClaim) (value : string) (mem : option uuid) (L L' : Ledger)
    : RevisionStatus.t -> Prop :=
  | contested_won c' :
      vacant (c_id c) L' -> claims L' !! c_id c = Some c' ->
      c_active_value c' = Some value -> c_active_memory_id c' = mem -> same_rows L L' ->
      contested c value mem L L' RevisionStatus.activated
  | contested_lost status :
      status <> RevisionStatus.activated -> wf L' -> is_Some (claims L' !! c_id c) ->
      same_rows L L' -> revisions L' = revisions L -> contested c value mem L L' status.

Lemma contest_dispute L c now value mem :
  wf L -> claims L !! c_id c = Some c ->
  contested c value mem L (put_claim (dispute_claim now c) L) RevisionStatus.disputed.
Proof.
  intros Hwf Hc. apply contested_lost; [done| | |by apply same_rows_refl|done].
  - by eapply wf_put_claim.
  - simpl. rewrite lookup_insert_eq. eauto.
Qed.

Lemma contest_keep L c status value mem :
  wf L -> claims L !! c_id c = Some c -> status <> RevisionStatus.activated ->
  contested c value mem L L status.
Proof. intros. apply contested_lost; eauto using same_rows_refl. Qed.

Section Record.
Context `{PyLib}.

Lemma contest_claim_ok a identity p o pre c L :
  wf L -> claims L !! c_id c = Some c ->
  exists L' status, contest_claim a identity p o pre c L = (L', inr status) /\
    contested c (ci_value identity) (Some (m_id (ra_memory a))) L L' status.
Proof.
  intros Hwf Hc. unfold contest_claim. destruct (_ && (_ || _ || _)).
  - do 2 eexists. split; [done|].
    pose proof (supersede_and_activate L c (ci_value identity) (Some (m_id (ra_memory a))) p
                  (m_confidence_score (ra_memory a)) o (ra_now a) Hwf Hc) as (Hv & Hl & Hs).
    by eapply contested_won.
  - destruct (_ && _ && _).
    + do 2 eexists. split; [done|]. by apply contest_dispute.
    + destruct (negb _); do 2 eexists; (split; [done|]); by apply contest_keep.
Qed.

(** A claim that passed the contest receives its revision. *)
Lemma append_contested c value mem L L' status r :
  contested c value mem L L' status ->
  revisions L !! r_id r = None -> r_claim_id r = c_id c -> r_memory_id r = mem ->
  r_status r = status -> r_asserted_value r = value ->
  (forall j r0 m, revisions L !! j = Some r0 -> mem = Some m -> r_memory_id r0 <> Some m) ->
  exists L2, append_revision (c_id c) r L' = (L2, inr tt) /\ wf L2 /\
    revisions L2 !! r_id r = Some r /\
    (status = RevisionStatus.activated ->
     exists c2, claims L2 !! c_id c = Some c2 /\ c_winning_revision_id c2 = Some (r_id r) /\
       c_active_value c2 = Some value /\ c_active_memory_id c2 = mem).
Proof.
  intros Hcont Hfresh Hcl Hm Hs Hval Hmem.
  assert (same_rows L L') as Hrows by (by destruct Hcont).
  assert (revisions L' !! r_id r = None) as Hfresh'.
  { destruct (revisions L' !! r_id r) as [r0|] eqn:E; [|done].
    destruct (Hrows _ _ E) as (r1 & ? & _). congruence. }
  assert (forall j r0 m, revisions L' !! j = Some r0 ->
            r_memory_id r = Some m -> r_memory_id r0 <> Some m) as Hmem'.
  { intros j r0 m Hj E E0. destruct (Hrows _ _ Hj) as (r1 & Hr1 & Hm1 & _).
    apply (Hmem j r1 m); congruence. }
  rewrite <- Hcl. destruct Hcont as [c' Hv Hc' Hvc Hmc _|status Hne Hwf Hex _ _].
  - destruct (append_activated L' c' r) as (L2 & HL2 & Hwf2 & Hr2 & Hc2).
    + by rewrite Hcl.
    + by rewrite Hcl.
    + intros r0 Hr0. congruence.
    + intros j r0 m _. apply Hmem'.
    + congruence.
    + done.
    + congruence.
    + exists L2. rewrite HL2, Hr2, Hc2, lookup_insert_eq, Hcl, lookup_alter_eq, Hc'.
      split_and!; try done. intros _. by eexists.
  - destruct (append_passive L' r) as [HL2 Hwf2]; try done; [by rewrite Hcl|congruence|].
    eexists. split_and!; [done..| |intros ->; done]. simpl. by rewrite lookup_insert_eq.
Qed.

(** A claim created for the assertion is contested by nobody. *)
Lemma create_claim_ok a tenant proxy identity p o L :
  wf L -> claims L !! ra_claim_id a = None ->
  (forall i d, claims L !! i = Some d -> claim_key d <> (tenant, proxy, ci_fingerprint identity)) ->
  let c := new_claim a tenant proxy identity p o in
  let L' := put_claim c L in
  flush L' = (L', inr tt) /\
  contested c (ci_value identity) (Some (m_id (ra_memory a))) L L'
    (if m_is_archived (ra_memory a) then RevisionStatus.disputed else RevisionStatus.activated).
Proof.
  intros Hwf Hfresh Hkey c L'.
  assert (vacant (c_id c) L') as Hv by (by apply vacant_new_claim).
  assert (claims L' !! c_id c = Some c) as Hc by (simpl; by rewrite lookup_insert_eq).
  split.
  - apply flush_ok; [exact (wf_one_activated L Hwf)|]. apply NoDup_claim_keys, (va_unique _ _ Hv).
  - destruct (m_is_archived (ra_memory a)) eqn:Harch.
    + apply contested_lost; [done| |by eexists|by apply same_rows_refl|done].
      apply (vacant_wf (c_id c) L' c); try done. subst c. simpl. by rewrite Harch.
    + eapply contested_won; [done..| | |by apply same_rows_refl]; subst c; simpl; by rewrite Harch.
Qed.

Definition predecessor_lookup (a : RecordArgs) : LM (option MemoryClaim) :=
  match ra_predecessor_memory_id a with
  | Some p => if is_update (ra_resolution a) then _find_claim_for_memory p else mret None
  | None => mret None
  end.

Lemma predecessor_lookup_ok a L :
  wf L -> exists oc, predecessor_lookup a L = (L, inr oc) /\
    forall c, oc = Some c -> claims L !! c_id c = Some c.
Proof.
  intros Hwf. unfold predecessor_lookup.
  destruct (ra_predecessor_memory_id a) as [m|]; [|by exists None].
  destruct (is_update (ra_resolution a)); [|by exists None].
  destruct (find_claim_for_memory_wf m L Hwf) as (oc & Hoc & Hspec). exists oc. split; [done|].
  by intros c ->.
Qed.

Definition claim_lookup (tenant proxy : uuid) (fingerprint : string) (pre : option MemoryClaim)
    : LM (option MemoryClaim) :=
  match pre with Some c => mret (Some c) | None => _find_claim tenant proxy fingerprint end.

Lemma claim_lookup_ok tenant proxy fp pre L :
  wf L -> (forall c, pre = Some c -> claims L !! c_id c = Some c) ->
  exists oc, claim_lookup tenant proxy fp pre L = (L, inr oc) /\
    match oc with
    | Some c => claims L !! c_id c = Some c
    | None => forall i c, claims L !! i = Some c -> claim_key c <> (tenant, proxy, fp)
    end.
Proof.
  intros Hwf Hpre. destruct pre as [c|]; [exists (Some c); auto|].
  destruct (find_claim_wf tenant proxy fp L Hwf) as (oc & Hoc & Hs).
  exists oc. split; [done|]. by destruct oc as [c|]; [apply Hs|].
Qed.

(** What a finished call leaves: the incoming revision, and a claim that
    displays it exactly when the revision was activated. *)
Definition recorded (rid cid : uuid) (value : string) (mem : option uuid) (L' : Ledger) : Prop :=
  exists r, revisions L' !! rid = Some r /\ r_claim_id r = cid /\ r_memory_id r = mem /\
    r_asserted_value r = value /\
    (r_status r = RevisionStatus.activated ->
     exists c, claims L' !! cid = Some c /\ c_winning_revision_id c = Some rid /\
       c_active_value c = Some value /\ c_active_memory_id c = mem).

Lemma append_memory_revision a identity p o e c L L' status :
  revisions L !! ra_revision_id a = None -> revisions_of_memory (m_id (ra_memory a)) L = [] ->
  contested c (ci_value identity) (Some (m_id (ra_memory a))) L L' status ->
  exists L2,
    append_revision (c_id c) (memory_revision a (c_id c) identity p o e status) L' = (L2, inr tt) /\
    wf L2 /\
    recorded (ra_revision_id a) (c_id c) (ci_value identity) (Some (m_id (ra_memory a))) L2.
Proof.
  intros Hrev Hmem Hcont.
  destruct (append_contested c _ _ L L' status (memory_revision a (c_id c) identity p o e status) Hcont)
    as (L2 & HL2 & Hwf2 & Hr2 & Hwin); try done.
  - intros j r0 m Hj [= <-] Hm.
    assert (r0 ∈ revisions_of_memory (m_id (ra_memory a)) L) as Hin
      by (apply revisions_of_memory_elem; eauto).
    rewrite Hmem in Hin. by apply elem_of_nil in Hin.
  - exists L2. split_and!; try done. eexists. split; [exact Hr2|]. by split_and!.
Qed.

(** What a call that fails on its evidence leaves: rows of claims and statuses
    may have changed, but no revision was added. *)
Definition left_by_evidence (provenance : option obj) (L L' : Ledger) : Prop :=
  evidence_refs provenance = None /\ same_rows L L'.

Lemma contested_rows c value mem L L' status : contested c value mem L L' status -> same_rows L L'.
Proof. by destruct 1. Qed.

Lemma record_memory_outcome (a : RecordArgs) (L : Ledger)
    (Hwf : wf L) (Hclaim : claims L !! ra_claim_id a = None)
    (Hrev : revisions L !! ra_revision_id a = None)
    (Hmem : revisions_of_memory (m_id (ra_memory a)) L = []) :
  match record_memory a L with
  | (L', inr (Some cid)) =>
      wf L' /\ exists identity, identity_for a = Some identity /\
        recorded (ra_revision_id a) cid (ci_value identity) (Some (m_id (ra_memory a))) L'
  | (L', inr None) => L' = L /\ (ra_tenant_id a = None \/ ra_proxy_user_id a = None)
  | (L', inl TypeError) => left_by_evidence (ra_provenance a) L L'
  | (L', inl e) => L' = L /\ (e = AttributeError \/ e = BadMapping \/ exists msg, e = ValueError msg)
  end.
Proof.
  unfold record_memory.
  destruct (ra_tenant_id a) as [tenant|]; [|simpl; by auto].
  destruct (ra_proxy_user_id a) as [proxy|]; [|simpl; by auto].
  destruct (identity_for a) as [identity|]; [|simpl; by auto].
  fold (predecessor_lookup a).
  destruct (predecessor_lookup_ok a L Hwf) as (pre & Hpre & Hprec).
  unfold mbind, M_bind, lift_opt, mret, M_ret. simpl. rewrite Hpre.
  destruct (predecessor_error _ _ _ _ pre) as [msg|]; [simpl; eauto|]. simpl.
  destruct (claim_lookup_ok tenant proxy (ci_fingerprint identity) pre L Hwf Hprec)
    as (oc & Hoc & Hspec).
  unfold claim_lookup, mret, M_ret in Hoc. rewrite Hoc.
  destruct (scope_error a identity oc) as [msg|]; [simpl; eauto|]. simpl.
  destruct (authority_priority _ _) as [p|]; [|simpl; auto]. simpl.
  set (o := parse_observed_at _).
  destruct oc as [c|].
  - destruct (contest_claim_ok a identity p o (bool_decide (is_Some pre)) c L Hwf Hspec)
      as (L' & status & -> & Hcont).
    destruct (evidence_refs (ra_provenance a)) as [ev|] eqn:Hev; [|exact (conj Hev (contested_rows _ _ _ _ _ _ Hcont))].
    destruct (append_memory_revision a identity p o ev c L L' status Hrev Hmem Hcont)
      as (L2 & HL2 & ? & ?).
    simpl in HL2 |- *. rewrite HL2. eauto.
  - destruct (create_claim_ok a tenant proxy identity p o L Hwf Hclaim Hspec) as [Hf Hcont].
    unfold modify_st. rewrite Hf.
    destruct (evidence_refs (ra_provenance a)) as [ev|] eqn:Hev; [|exact (conj Hev (contested_rows _ _ _ _ _ _ Hcont))].
    destruct (append_memory_revision a identity p o ev _ _ _ _ Hrev Hmem Hcont) as (L2 & HL2 & ? & ?).
    simpl in HL2 |- *. rewrite HL2. eauto.
Qed.

(** C1: Recording a newly stored memory under unused row ids returns a claim id
    and leaves a well-formed ledger holding the incoming revision, displayed by
    its claim when it was activated; no uniqueness constraint fails. Or it returns
    [None] because the tenant or the user is missing, or raises with the ledger
    untouched: [AttributeError] for a scope that is no mapping, an error of [dict]
    for authority rules that are none, [ValueError] for an unverified predecessor
    or scope. One failure comes after the claim was written: evidence that cannot
    be listed raises [TypeError] with no revision added, and the transaction has
    to be rolled back. *)
Theorem record_memory_all_or_nothing (a : RecordArgs) (L : Ledger)
    (Hwf : wf L) (Hclaim : claims L !! ra_claim_id a = None)
    (Hrev : revisions L !! ra_revision_id a = None)
    (Hmem : revisions_of_memory (m_id (ra_memory a)) L = []) :
  match record_memory a L with
  | (L', inr (Some cid)) =>
      wf L' /\ exists identity, identity_for a = Some identity /\
        recorded (ra_revision_id a) cid (ci_value identity) (Some (m_id (ra_memory a))) L'
  | (L', inr None) => L' = L /\ (ra_tenant_id a = None \/ ra_proxy_user_id a = None)
  | (L', inl TypeError) => left_by_evidence (ra_provenance a) L L'
  | (L', inl e) => L' = L /\ (e = AttributeError \/ e = BadMapping \/ exists msg, e = ValueError msg)
  end.
Proof. by apply record_memory_outcome. Qed.

(** *** Domain fields *)

Definition domain_identity (a : DomainArgs) : option ClaimIdentity :=
  scope ← provenance_dict (da_provenance a) "scope";
  Some (build_domain_claim_identity (da_domain a) (da_field a) (da_category a)
          (da_value a) (jset "domain" (JStr (da_domain a)) scope)).

Lemma contest_domain_claim_ok a p q o w c L :
  wf L -> claims L !! c_id c = Some c -> c_active_memory_id c = None ->
  exists L' status, contest_domain_claim a p q o w c L = (L', inr status) /\
    contested c (da_value a) None L L' status.
Proof.
  intros Hwf Hc Hnone. unfold contest_domain_claim, mbind, M_bind, get_st.
  destruct (bool_decide _).
  - do 2 eexists. split; [done|]. by apply contest_keep.
  - destruct (_ || _).
    + do 2 eexists. split; [done|].
      pose proof (supersede_and_activate L c (da_value a) (c_active_memory_id c) p q o (da_now a)
                    Hwf Hc) as (Hv & Hl & Hs).
      by eapply contested_won.
    + do 2 eexists. split; [done|]. by apply contest_dispute.
Qed.

Lemma create_domain_claim_ok a identity cat p q o L :
  wf L -> claims L !! da_claim_id a = None ->
  (forall i d, claims L !! i = Some d ->
     claim_key d <> (da_tenant_id a, da_proxy_user_id a, ci_fingerprint identity)) ->
  let c := new_domain_claim a identity cat p q o in
  let L' := put_claim c L in
  flush L' = (L', inr tt) /\ contested c (da_value a) None L L' RevisionStatus.activated.
Proof.
  intros Hwf Hfresh Hkey c L'.
  assert (vacant (c_id c) L') as Hv by (by apply vacant_new_claim).
  split.
  - apply flush_ok; [exact (wf_one_activated L Hwf)|]. apply NoDup_claim_keys, (va_unique _ _ Hv).
  - apply (contested_won _ _ _ _ _ c); try done; [simpl; by rewrite lookup_insert_eq|].
    by apply same_rows_refl.
Qed.

Lemma append_domain_revision a p q o e c L L' status :
  revisions L !! da_revision_id a = None -> contested c (da_value a) None L L' status ->
  exists L2,
    append_revision (c_id c) (domain_revision a (c_id c) p q o e status) L' = (L2, inr tt) /\
    wf L2 /\ recorded (da_revision_id a) (c_id c) (da_value a) None L2.
Proof.
  intros Hrev Hcont.
  destruct (append_contested c _ _ L L' status (domain_revision a (c_id c) p q o e status) Hcont)
    as (L2 & HL2 & Hwf2 & Hr2 & Hwin); try done.
  exists L2. split_and!; try done. eexists. split; [exact Hr2|]. by split_and!.
Qed.

(** Recording a domain field is total and all-or-nothing: when the field's
    claim is not held by a memory, the call leaves a well-formed ledger with
    the asserted value as a revision without a memory (displayed when it was
    activated), or it raises with nothing written; evidence that cannot be listed
    raises [TypeError] after the claim was written. *)
Theorem record_domain_field_all_or_nothing (a : DomainArgs) (L : Ledger)
    (Hwf : wf L) (Hclaim : claims L !! da_claim_id a = None)
    (Hrev : revisions L !! da_revision_id a = None)
    (Hheld : forall identity i c, domain_identity a = Some identity -> claims L !! i = Some c ->
       claim_key c = (da_tenant_id a, da_proxy_user_id a, ci_fingerprint identity) ->
       c_active_memory_id c = None) :
  match _record_domain_field a L with
  | (L', inr cid) => wf L' /\ recorded (da_revision_id a) cid (da_value a) None L'
  | (L', inl TypeError) => left_by_evidence (da_provenance a) L L'
  | (L', inl e) => L' = L /\ (e = BadMapping \/ e = ValueError "category")
  end.
Proof.
  unfold _record_domain_field, domain_identity in *.
  destruct (provenance_dict (da_provenance a) "scope") as [scope|]; [|simpl; by auto].
  simpl in Hheld. specialize (fun i c => Hheld _ i c eq_refl) as Hheld'. clear Hheld.
  unfold mbind, M_bind, lift_opt, mret, M_ret. cbn [option_bind].
  set (identity := build_domain_claim_identity _ _ _ _ _) in *.
  destruct (find_claim_wf (da_tenant_id a) (da_proxy_user_id a) (ci_fingerprint identity) L Hwf)
    as (oc & Hoc & Hspec). rewrite Hoc.
  destruct (domain_authority_priority _ _ _ _) as [p|]; [|simpl; by auto].
  destruct (domain_field_confidence _) as [q|]; [|simpl; by auto].
  set (o := parse_observed_at _). set (w := parse_uuid _).
  destruct oc as [c|].
  - destruct Hspec as [Hc Hk].
    destruct (contest_domain_claim_ok a p q o w c L Hwf Hc (Hheld' _ _ Hc Hk))
      as (L' & status & -> & Hcont).
    destruct (evidence_refs (da_provenance a)) as [ev|] eqn:Hev; [|exact (conj Hev (contested_rows _ _ _ _ _ _ Hcont))].
    destruct (append_domain_revision a p q o ev c L L' status Hrev Hcont) as (L2 & HL2 & ? & ?).
    simpl in HL2 |- *. rewrite HL2. auto.
  - destruct (category_of_value (da_category a)) as [cat|]; [|simpl; by auto].
    destruct (create_domain_claim_ok a identity cat p q o L Hwf Hclaim Hspec) as [Hf Hcont].
    unfold modify_st. rewrite Hf.
    destruct (evidence_refs (da_provenance a)) as [ev|] eqn:Hev; [|exact (conj Hev (contested_rows _ _ _ _ _ _ Hcont))].
    destruct (append_domain_revision a p q o ev _ _ _ _ Hrev Hcont) as (L2 & HL2 & ? & ?).
    simpl in HL2 |- *. rewrite HL2. auto.
Qed.
End Record.

(** ** Manual conflict resolution *)

Section Selection.
Variables (L : Ledger) (memory_a memory_b : uuid) (selection reason : string) (now : datetime).
Variable selected : gset uuid.
Hypothesis Hwf : wf L.
Hypothesis Hsel : selected_memories memory_a memory_b selection = Some selected.

Let affected := affected_claim_ids memory_a memory_b L.
Let desired := desired_status selection selected L.

Definition settled_revision (r : MemoryClaimRevision) : MemoryClaimRevision :=
  if bool_decide (r_claim_id r ∈ affected)
  then r <| r_status := desired r |> <| r_resolution_reason := reason |>
         <| r_decision_evidence := resolution_evidence reason selection |>
  else r.

Definition settled_claim (c : MemoryClaim) : MemoryClaim :=
  if bool_decide (c_id c ∈ affected)
  then settle_claim selection (selected_revisions selected (c_id c) L) now c else c.

Definition settled : Ledger :=
  {| claims := settled_claim <$> claims L; revisions := settled_revision <$> revisions L |}.

Lemma elem_of_affected cid :
  cid ∈ affected <-> exists j r, revisions L !! j = Some r /\ r_claim_id r = cid /\
    (r_memory_id r = Some memory_a \/ r_memory_id r = Some memory_b).
Proof.
  unfold affected, affected_claim_ids. rewrite elem_of_list_to_set, list_elem_of_fmap.
  setoid_rewrite list_elem_of_filter. setoid_rewrite elem_of_rows. naive_solver.
Qed.

Lemma elem_of_selected_revisions cid r :
  r ∈ selected_revisions selected cid L <->
  revisions L !! r_id r = Some r /\ r_claim_id r = cid /\ is_selected selected r = true.
Proof.
  unfold selected_revisions. rewrite list_elem_of_filter, elem_of_rows. split.
  - intros [[? ?] [j Hj]]. by rewrite (wf_revision_ids L Hwf j r Hj).
  - naive_solver.
Qed.

(** Only "both" can select two revisions of one claim. *)
Lemma selected_revisions_cases cid :
  let l := selected_revisions selected cid L in
  (selection = "both" /\ (2 <= length l)%nat) \/ l = [] \/ exists w, l = [w].
Proof.
  intros l. destruct l as [|r [|r' l']] eqn:E; [by auto|by eauto|].
  left. simpl. split; [|lia].
  assert (r ∈ l /\ r' ∈ l) as [H1 H2].
  { rewrite E. split; [apply list_elem_of_here|]. apply list_elem_of_further, list_elem_of_here. }
  assert (r <> r') as Hne.
  { intros ->. assert (NoDup l) as Hnd by (apply NoDup_filter, (NoDup_rows _ r_id), Hwf).
    rewrite E in Hnd. apply NoDup_cons in Hnd as [Hnd _]. apply Hnd, list_elem_of_here. }
  apply elem_of_selected_revisions in H1 as (Hr & _ & S1), H2 as (Hr' & _ & S2).
  unfold is_selected in *. destruct (r_memory_id r) as [m|] eqn:Em; [|done].
  destruct (r_memory_id r') as [m'|] eqn:Em'; [|done].
  apply bool_decide_eq_true in S1, S2.
  assert (m <> m') as Hmm.
  { intros ->. apply Hne. assert (r_id r = r_id r') as Heq by (by eapply (wf_memory_once L Hwf)).
    congruence. }
  unfold selected_memories in Hsel.
  repeat case_bool_decide; simplify_eq; set_solver.
Qed.

Lemma desired_activated r :
  revisions L !! r_id r = Some r ->
  desired r = RevisionStatus.activated <->
  is_selected selected r = true /\ selected_revisions selected (r_claim_id r) L = [r].
Proof.
  intros Hr. unfold desired, desired_status.
  destruct (is_selected selected r) eqn:Hs; [|naive_solver].
  assert (r ∈ selected_revisions selected (r_claim_id r) L) as Hin
    by (by apply elem_of_selected_revisions).
  destruct (selected_revisions_cases (r_claim_id r)) as [[-> Hlen]|[Hnil|[w Hw]]].
  - destruct (Nat.leb_spec 2 (length (selected_revisions selected (r_claim_id r) L))); [|lia].
    rewrite bool_decide_true by done. simpl. split; [done|]. intros [_ E]. rewrite E in Hlen.
    simpl in Hlen. lia.
  - rewrite Hnil in Hin. by apply elem_of_nil in Hin.
  - rewrite Hw in *. apply list_elem_of_singleton in Hin as ->. simpl. rewrite andb_false_r. naive_solver.
Qed.

(** A claim that has a selected revision to itself displays it; the others of
    the affected claims have no winner. *)
Lemma settled_claim_winner c :
  c_id c ∈ affected ->
  (exists w, selected_revisions selected (c_id c) L = [w] /\
     c_status (settled_claim c) = ClaimStatus.active /\
     c_winning_revision_id (settled_claim c) = Some (r_id w) /\
     c_active_memory_id (settled_claim c) = r_memory_id w /\
     c_active_value (settled_claim c) = Some (r_asserted_value w)) \/
  (c_winning_revision_id (settled_claim c) = None /\
   c_status (settled_claim c) <> ClaimStatus.active /\
   forall w, selected_revisions selected (c_id c) L <> [w]).
Proof.
  intros Hin. unfold settled_claim. rewrite bool_decide_true by done. unfold settle_claim.
  destruct (selected_revisions_cases (c_id c)) as [[-> Hlen]|[->|[w ->]]].
  - right. rewrite bool_decide_true by done. apply Nat.leb_le in Hlen as Hb. rewrite Hb.
    split_and!; [done..|]. intros w E. rewrite E in Hlen. simpl in Hlen. lia.
  - right. simpl. rewrite andb_false_r. by split_and!.
  - left. simpl. rewrite andb_false_r. exists w. by split_and!.
Qed.

Lemma settled_claim_row c : same_row c (settled_claim c).
Proof.
  unfold settled_claim, settle_claim.
  repeat case_match; by split.
Qed.

Lemma settled_revision_row r :
  r_id (settled_revision r) = r_id r /\ r_claim_id (settled_revision r) = r_claim_id r /\
  r_memory_id (settled_revision r) = r_memory_id r /\
  r_asserted_value (settled_revision r) = r_asserted_value r.
Proof. unfold settled_revision. case_match; by split_and!. Qed.

Lemma settled_revision_status r :
  r_claim_id r ∈ affected -> r_status (settled_revision r) = desired r.
Proof. intros. unfold settled_revision. by rewrite bool_decide_true. Qed.

Lemma settled_revision_id r : r_claim_id r ∉ affected -> settled_revision r = r.
Proof. intros. unfold settled_revision. by rewrite bool_decide_false. Qed.

Lemma settled_claim_id c : c_id c ∉ affected -> settled_claim c = c.
Proof. intros. unfold settled_claim. by rewrite bool_decide_false. Qed.

Lemma settled_revisions_at j r' :
  revisions settled !! j = Some r' <->
  exists r, revisions L !! j = Some r /\ r' = settled_revision r.
Proof. simpl. rewrite lookup_fmap, fmap_Some. done. Qed.

Lemma settled_claims_at i c' :
  claims settled !! i = Some c' <-> exists c, claims L !! i = Some c /\ c' = settled_claim c.
Proof. simpl. rewrite lookup_fmap, fmap_Some. done. Qed.

(** The claim of a revision that ends activated displays that revision. *)
Lemma settled_activated j r :
  revisions L !! j = Some r -> r_status (settled_revision r) = RevisionStatus.activated ->
  exists c, claims L !! r_claim_id r = Some c /\
    c_winning_revision_id (settled_claim c) = Some j /\
    (r_claim_id r ∈ affected -> c_status (settled_claim c) = ClaimStatus.active /\
       c_active_memory_id (settled_claim c) = r_memory_id r /\
       c_active_value (settled_claim c) = Some (r_asserted_value r)).
Proof.
  intros Hr Hact. pose proof (wf_revision_ids L Hwf j r Hr) as Hid.
  destruct (decide (r_claim_id r ∈ affected)) as [Hin|Hout].
  - rewrite settled_revision_status in Hact by done.
    apply desired_activated in Hact as [_ Honly]; [|by rewrite Hid].
    destruct (wf_foreign_key L Hwf j r Hr) as [c Hc]. exists c.
    pose proof (wf_claim_ids L Hwf _ c Hc) as Hcid.
    destruct (settled_claim_winner c) as [(w & Hw & Hst & Hwin & Hmem & Hval)|(_ & _ & Hno)].
    + by rewrite Hcid.
    + rewrite Hcid, Honly in Hw. injection Hw as <-. rewrite Hwin, Hid. by split_and!.
    + rewrite Hcid in Hno. by destruct (Hno r).
  - rewrite settled_revision_id in Hact by done.
    destruct (wf_activated L Hwf j r Hr Hact) as (c & Hc & Hw). exists c.
    rewrite settled_claim_id; [by split_and!|]. by rewrite (wf_claim_ids L Hwf _ c Hc).
Qed.

Lemma settled_winner i c' j :
  claims settled !! i = Some c' -> c_winning_revision_id c' = Some j ->
  exists r, revisions settled !! j = Some r /\ r_claim_id r = i /\ r_memory_id r = c_active_memory_id c'.
Proof.
  intros Hc' Hw. apply settled_claims_at in Hc' as (c & Hc & ->).
  pose proof (wf_claim_ids L Hwf i c Hc) as Hid.
  destruct (decide (c_id c ∈ affected)) as [Hin|Hout].
  + destruct (settled_claim_winner c Hin) as [(w & Hsw & _ & Hww & Hm & _)|(Hww & _)]; [|congruence].
    assert (w ∈ selected_revisions selected (c_id c) L) as Hel by (rewrite Hsw; apply list_elem_of_here).
    apply elem_of_selected_revisions in Hel as (Hr & Hcl & _).
    exists (settled_revision w). destruct (settled_revision_row w) as (_ & Er & Em & _).
    split_and!; [|congruence|congruence].
    apply settled_revisions_at. exists w. split; [congruence|done].
  + rewrite settled_claim_id in * by done.
    destruct (wf_winner L Hwf i c j Hc Hw) as (r & Hr & Hcl & Hm).
    exists r. split_and!; try done. apply settled_revisions_at. exists r. split; [done|].
    rewrite settled_revision_id; [done|congruence].
Qed.

Lemma settled_active i c' :
  claims settled !! i = Some c' -> c_status c' = ClaimStatus.active ->
  exists j r, c_winning_revision_id c' = Some j /\ revisions settled !! j = Some r /\
    r_status r = RevisionStatus.activated /\ c_active_value c' = Some (r_asserted_value r).
Proof.
  intros Hc' Hact. apply settled_claims_at in Hc' as (c & Hc & ->).
  pose proof (wf_claim_ids L Hwf i c Hc) as Hid.
  destruct (decide (c_id c ∈ affected)) as [Hin|Hout].
  + destruct (settled_claim_winner c Hin) as [(w & Hsw & _ & Hww & _ & Hval)|(_ & Hns & _)]; [|done].
    assert (w ∈ selected_revisions selected (c_id c) L) as Hel by (rewrite Hsw; apply list_elem_of_here).
    apply elem_of_selected_revisions in Hel as (Hr & Hcl & Hs).
    exists (r_id w), (settled_revision w). destruct (settled_revision_row w) as (_ & _ & _ & Ev).
    split_and!; [done| | |congruence].
    * apply settled_revisions_at. eauto.
    * rewrite settled_revision_status by congruence. apply desired_activated; [done|]. by rewrite Hcl.
  + rewrite settled_claim_id in * by done.
    destruct (wf_active L Hwf i c Hc Hact) as (j & r & Hw & Hr & Hs & Hv).
    destruct (wf_winner L Hwf i c j Hc Hw) as (r0 & Hr0 & Hcl & _).
    exists j, r. split_and!; try done. apply settled_revisions_at. exists r. split; [done|].
    rewrite settled_revision_id; [done|congruence].
Qed.

Lemma settled_wf : wf settled.
Proof.
  constructor.
  - intros i c' Hc'. apply settled_claims_at in Hc' as (c & Hc & ->).
    destruct (settled_claim_row c) as [-> _]. by apply (wf_claim_ids L Hwf).
  - intros j r' Hr'. apply settled_revisions_at in Hr' as (r & Hr & ->).
    destruct (settled_revision_row r) as (-> & _). by apply (wf_revision_ids L Hwf).
  - intros j r' Hr'. apply settled_revisions_at in Hr' as (r & Hr & ->).
    destruct (settled_revision_row r) as (_ & -> & _). simpl.
    rewrite lookup_fmap, fmap_is_Some. by apply (wf_foreign_key L Hwf j).
  - intros j r' Hr' Hact. apply settled_revisions_at in Hr' as (r & Hr & ->).
    destruct (settled_revision_row r) as (_ & -> & _).
    destruct (settled_activated j r Hr Hact) as (c & Hc & Hw & _).
    exists (settled_claim c). split; [|done]. apply settled_claims_at. eauto.
  - apply settled_winner.
  - apply settled_active.
  - intros j j' r r' m Hr Hr' Hm Hm'.
    apply settled_revisions_at in Hr as (s & Hs & ->), Hr' as (s' & Hs' & ->).
    destruct (settled_revision_row s) as (_ & _ & E & _), (settled_revision_row s') as (_ & _ & E' & _).
    eapply (wf_memory_once L Hwf j j' s s' m); congruence.
  - intros i i' c c' Hi Hi' Hk. apply settled_claims_at in Hi as (d & Hd & ->), Hi' as (d' & Hd' & ->).
    destruct (settled_claim_row d) as [_ E], (settled_claim_row d') as [_ E'].
    eapply (wf_unique L Hwf); [done..|congruence].
Qed.

Lemma desired_of_memory r r' :
  r_memory_id r = r_memory_id r' -> r_claim_id r = r_claim_id r' -> desired r = desired r'.
Proof. unfold desired, desired_status, is_selected. by intros -> ->. Qed.

(** The two passes together write the settled revisions. *)
Lemma passes_settle r :
  promote_revision desired affected
    (demote_revision desired affected reason (resolution_evidence reason selection) r)
  = settled_revision r.
Proof.
  unfold promote_revision, demote_revision, settled_revision.
  destruct (bool_decide (r_claim_id r ∈ affected)) eqn:Hin; [|by rewrite Hin].
  destruct (bool_decide (desired r = RevisionStatus.activated)) eqn:Hd.
  - simpl. rewrite Hin, desired_of_memory with (r' := r) by done. rewrite Hd.
    apply bool_decide_eq_true in Hd. simpl. by rewrite Hd.
  - simpl. rewrite Hin, desired_of_memory with (r' := r) by done. by rewrite Hd.
Qed.

(** The first pass activates nothing, so its flush passes. *)
Lemma demoted_flush :
  let L1 := L <| revisions ::= fmap (demote_revision desired affected reason
                                       (resolution_evidence reason selection)) |> in
  flush L1 = (L1, inr tt).
Proof.
  intros L1. apply flush_ok; [|exact (wf_claim_keys L Hwf)].
  assert (forall j r', revisions L1 !! j = Some r' -> exists r, revisions L !! j = Some r /\
            r_id r' = r_id r /\ r_claim_id r' = r_claim_id r /\
            (r_status r' = RevisionStatus.activated ->
             r_status r = RevisionStatus.activated)) as Hrow.
  { intros j r'. simpl. rewrite lookup_fmap, fmap_Some. intros (r & Hr & ->). exists r.
    unfold demote_revision. case_match; [|by split_and!].
    case_match eqn:Hd; simpl; split_and!; try done.
    intros Hact. by apply bool_decide_eq_false in Hd. }
  apply (NoDup_fmap_rows _ r_id).
  - intros j r' Hr'. destruct (Hrow j r' Hr') as (r & Hr & -> & _). by apply (wf_revision_ids L Hwf).
  - intros j j' r r' Hr Hr' Sr Sr' Heq.
    destruct (Hrow j r Hr) as (s & Hs & _ & Es & Ks), (Hrow j' r' Hr') as (s' & Hs' & _ & Es' & Ks').
    destruct (wf_activated L Hwf j s Hs (Ks Sr)) as (c & Hc & Hw).
    destruct (wf_activated L Hwf j' s' Hs' (Ks' Sr')) as (c' & Hc' & Hw'). congruence.
Qed.

Lemma apply_conflict_selection_settles :
  apply_conflict_selection memory_a memory_b selection reason now L = (settled, inr tt).
Proof.
  pose proof settled_wf as Hs. pose proof demoted_flush as Hf. simpl in Hf.
  unfold apply_conflict_selection, mbind, M_bind, get_st, lift_opt, modify_st. rewrite Hsel. simpl.
  fold affected desired. rewrite Hf.
  assert (promote_revision desired affected <$>
            (demote_revision desired affected reason (resolution_evidence reason selection)
               <$> revisions L) = revisions settled) as Hrev.
  { simpl. rewrite <- map_fmap_compose. apply map_fmap_ext. intros. apply passes_settle. }
  simpl. rewrite Hrev.
  rewrite flush_ok; [done|exact (wf_one_activated _ Hs)|exact (wf_claim_keys L Hwf)].
Qed.
End Selection.

(** C2: Resolving a conflict by hand keeps the ledger invariant for each of
    the four selections and never violates a uniqueness constraint; any other
    selection raises [KeyError] with nothing written. *)
Theorem manual_resolution_keeps_ledger (L : Ledger) (memory_a memory_b : uuid)
    (selection reason : string) (now : datetime) (Hwf : wf L) :
  match apply_conflict_selection memory_a memory_b selection reason now L with
  | (L', inr _) => wf L' /\ selection ∈ ["A"; "B"; "both"; "neither"]
  | (L', inl e) => L' = L /\ e = KeyError /\ selection ∉ ["A"; "B"; "both"; "neither"]
  end.
Proof.
  destruct (selected_memories memory_a memory_b selection) as [selected|] eqn:Hsel.
  - rewrite (apply_conflict_selection_settles L _ _ _ _ _ selected Hwf Hsel).
    split; [by apply settled_wf|].
    unfold selected_memories in Hsel. repeat case_bool_decide; simplify_eq; set_solver.
  - unfold apply_conflict_selection, mbind, M_bind, get_st, lift_opt. rewrite Hsel. simpl.
    split_and!; [done..|]. unfold selected_memories in Hsel.
    repeat case_bool_decide; simplify_eq. set_solver.
Qed.

(** Choosing one of two conflicting memories makes its claim display its
    assertion, rejects every other revision of the claims either memory is
    recorded in, and leaves all other revisions as they were. *)
Theorem manual_choice_is_displayed (L : Ledger) (memory_a memory_b winner : uuid)
    (selection reason : string) (now : datetime) (Hwf : wf L)
    (Hchoice : selection = "A" /\ winner = memory_a \/ selection = "B" /\ winner = memory_b)
    (j : uuid) (r : MemoryClaimRevision) (Hr : revisions L !! j = Some r) :
  exists L' r', apply_conflict_selection memory_a memory_b selection reason now L = (L', inr tt) /\
    revisions L' !! j = Some r' /\
    if bool_decide (r_memory_id r = Some winner) then
      r_status r' = RevisionStatus.activated /\
      exists c, claims L' !! r_claim_id r = Some c /\ c_status c = ClaimStatus.active /\
        c_winning_revision_id c = Some j /\ c_active_memory_id c = Some winner /\
        c_active_value c = Some (r_asserted_value r)
    else if bool_decide (r_claim_id r ∈ affected_claim_ids memory_a memory_b L) then
      r_status r' = RevisionStatus.rejected
    else r' = r.
Proof.
  assert (selected_memories memory_a memory_b selection = Some {[winner]}) as Hsel
    by (by destruct Hchoice as [[-> ->]|[-> ->]]).
  pose proof (wf_revision_ids L Hwf j r Hr) as Hid.
  assert (is_selected {[winner]} r = bool_decide (r_memory_id r = Some winner)) as Hiss.
  { unfold is_selected. destruct (r_memory_id r) as [m|]; [|done].
    apply bool_decide_ext. set_solver. }
  eexists _, (settled_revision L memory_a memory_b selection reason {[winner]} r).
  split; [by apply apply_conflict_selection_settles|]. split; [apply settled_revisions_at; eauto|].
  destruct (decide (r_memory_id r = Some winner)) as [Hm|Hm].
  - rewrite bool_decide_true by done. rewrite bool_decide_true in Hiss by done.
    assert (r_claim_id r ∈ affected_claim_ids memory_a memory_b L) as Hin.
    { apply (elem_of_affected L memory_a memory_b selection ∅). exists j, r.
      split_and!; [done..|]. destruct Hchoice as [[_ ->]|[_ ->]]; auto. }
    assert (r_status (settled_revision L memory_a memory_b selection reason {[winner]} r)
            = RevisionStatus.activated) as Hact.
    { rewrite settled_revision_status by done. unfold desired_status. rewrite Hiss.
      rewrite (bool_decide_false (selection = "both")); [done|]. destruct Hchoice as [[-> _]|[-> _]]; done. }
    split; [done|].
    destruct (settled_activated L memory_a memory_b selection reason now {[winner]} Hwf Hsel j r Hr Hact)
      as (c & Hc & Hw & Hrest).
    destruct (Hrest Hin) as (Hs & Ham & Hv).
    eexists. split; [apply settled_claims_at; eauto|]. by rewrite Hs, Hw, Ham, Hv, Hm.
  - rewrite bool_decide_false by done. rewrite bool_decide_false in Hiss by done.
    case_bool_decide as Hin; [|by apply settled_revision_id].
    rewrite settled_revision_status by done. unfold desired_status. by rewrite Hiss.
Qed.

(** ** Hard delete *)

Section HardDelete.
Variables (L : Ledger) (memory_id : uuid) (now : datetime).
Hypothesis Hwf : wf L.

Let L1 := cascade_delete_memory memory_id L.
Let L2 := _hard_delete_memory_and_reconcile_claims memory_id now L.

Definition touched (cid : uuid) : Prop :=
  exists j r, revisions L !! j = Some r /\ r_memory_id r = Some memory_id /\ r_claim_id r = cid.

Lemma kept_revisions j r :
  revisions L2 !! j = Some r <-> revisions L !! j = Some r /\ r_memory_id r <> Some memory_id.
Proof. unfold L2. simpl. rewrite map_lookup_filter_Some. done. Qed.

Lemma elem_of_kept cid r :
  r ∈ claim_revisions cid L1 <->
  revisions L !! r_id r = Some r /\ r_claim_id r = cid /\ r_memory_id r <> Some memory_id.
Proof.
  unfold claim_revisions. rewrite list_elem_of_filter, elem_of_rows. simpl.
  setoid_rewrite map_lookup_filter_Some. simpl. split.
  - intros [? (j & Hj & ?)]. by rewrite (wf_revision_ids L Hwf j r Hj).
  - naive_solver.
Qed.

(** A surviving claim is a reconciled one, or it lost nothing. *)
Lemma kept_claims i c2 :
  claims L2 !! i = Some c2 ->
  exists c, claims L !! i = Some c /\ same_row c c2 /\
    ((exists w, revisions L !! r_id w = Some w /\ r_claim_id w = i /\ r_memory_id w <> Some memory_id /\
        r_status w = RevisionStatus.activated /\ c_winning_revision_id c2 = Some (r_id w) /\
        c_active_memory_id c2 = r_memory_id w /\ c_active_value c2 = Some (r_asserted_value w)) \/
     (c_winning_revision_id c2 = None /\ c_active_memory_id c2 = None /\
        c_status c2 = ClaimStatus.archived /\ c_active_value c2 = None) \/
     (~ touched i /\ c_winning_revision_id c2 = c_winning_revision_id c /\
        c_status c2 = c_status c /\ c_active_value c2 = c_active_value c /\
        c_active_memory_id c2 <> Some memory_id /\
        (c_active_memory_id c <> Some memory_id -> c_active_memory_id c2 = c_active_memory_id c))).
Proof.
  unfold L2. simpl. rewrite lookup_omap, lookup_fmap.
  destruct (claims L !! i) as [c|] eqn:Hc; [|done]. simpl.
  pose proof (wf_claim_ids L Hwf i c Hc) as Hid.
  set (c1 := if bool_decide (c_active_memory_id c = Some memory_id) then _ else c).
  assert (c_id c1 = i /\ claim_key c1 = claim_key c /\ c_status c1 = c_status c /\
          c_active_value c1 = c_active_value c /\ c_active_memory_id c1 <> Some memory_id /\
          (c_active_memory_id c <> Some memory_id -> c_active_memory_id c1 = c_active_memory_id c))
    as (E1 & E2 & E3 & E4 & E5 & E6).
  { subst c1. case_bool_decide; simpl; by split_and!. }
  intros Hc2. exists c. split; [done|].
  case_bool_decide as Hin.
  - unfold reconcile_claim in Hc2. fold L1 in Hc2. simpl in Hc2. rewrite E1 in Hc2.
    destruct (claim_revisions i L1) as [|x rs] eqn:Hrs; [done|]. rewrite <- Hrs in Hc2.
    destruct (filter _ (claim_revisions i L1)) as [|w [|w' l]] eqn:Hf; simplify_eq/=.
    + split; [split; [simpl; congruence|unfold claim_key in *; simpl in *; congruence]|]. right. by left.
    + split; [split; [simpl; congruence|unfold claim_key in *; simpl in *; congruence]|]. left. exists w.
      assert (w ∈ [w]) as Hw by apply list_elem_of_here.
      rewrite <- Hf in Hw. apply list_elem_of_filter in Hw as [Hact Hw].
      apply elem_of_kept in Hw as (? & ? & ?). by split_and!.
    + split; [split; [simpl; congruence|unfold claim_key in *; simpl in *; congruence]|]. right. by left.
  - injection Hc2 as <-. split; [split; [simpl; congruence|unfold claim_key in *; simpl in *; congruence]|]. right; right.
    assert (~ touched i) as Hnt.
    { intros (j & r & Hj & Hm & Hcl). apply Hin. rewrite E1, elem_of_list_to_set, list_elem_of_fmap.
      exists r. split; [done|]. apply revisions_of_memory_elem. eauto. }
    simpl. split_and!; try done.
    destruct (c_winning_revision_id c) as [w|] eqn:Hw; [|done]. simpl.
    destruct (wf_winner L Hwf i c w Hc Hw) as (r & Hr & Hcl & _). rewrite Hr.
    rewrite bool_decide_false; [done|]. intros Hm. apply Hnt. by exists w, r.
Qed.

(** A claim keeps existing as long as it keeps a revision, and an activated
    one keeps winning. *)
Lemma kept_claim_exists j r :
  revisions L2 !! j = Some r ->
  exists c2, claims L2 !! r_claim_id r = Some c2 /\
    (r_status r = RevisionStatus.activated -> c_winning_revision_id c2 = Some j).
Proof.
  intros Hr. apply kept_revisions in Hr as [Hr Hm].
  pose proof (wf_revision_ids L Hwf j r Hr) as Hid.
  destruct (wf_foreign_key L Hwf j r Hr) as [c Hc].
  pose proof (wf_claim_ids L Hwf _ c Hc) as Hcid.
  assert (r_status r = RevisionStatus.activated -> c_winning_revision_id c = Some j) as Hwin.
  { intros Hact. destruct (wf_activated L Hwf j r Hr Hact) as (d & Hd & ?). congruence. }
  unfold L2. simpl. rewrite lookup_omap, lookup_fmap, Hc. simpl.
  set (c1 := if bool_decide (c_active_memory_id c = Some memory_id) then _ else c).
  assert (c_id c1 = r_claim_id r) as E1 by (subst c1; by case_bool_decide).
  case_bool_decide as Hin.
  - unfold reconcile_claim. fold L1. simpl. rewrite E1.
    assert (r ∈ claim_revisions (r_claim_id r) L1) as Hel
      by (apply elem_of_kept; rewrite Hid; done).
    destruct (claim_revisions (r_claim_id r) L1) as [|x rs] eqn:Hrs; [by apply elem_of_nil in Hel|].
    rewrite <- Hrs in *. eexists. split; [done|]. intros Hact.
    assert (filter (fun r => r_status r = RevisionStatus.activated)
              (claim_revisions (r_claim_id r) L1) = [r]) as ->; [|simpl; congruence].
    apply singleton_of_NoDup.
    + apply NoDup_filter. unfold claim_revisions. apply NoDup_filter, (NoDup_rows _ r_id).
      intros k s Hs. simpl in Hs. apply map_lookup_filter_Some in Hs as [Hs _].
      by apply (wf_revision_ids L Hwf).
    + intros s. rewrite list_elem_of_filter. split; [|by intros ->].
      intros [Hs Hel']. apply elem_of_kept in Hel' as (Hs1 & Hs2 & _).
      destruct (wf_activated L Hwf _ s Hs1 Hs) as (d & Hd & Hdw). rewrite Hs2, Hc in Hd.
      injection Hd as <-. rewrite Hwin in Hdw by done. congruence.
  - eexists. split; [done|]. intros Hact. simpl. rewrite (Hwin Hact). simpl. rewrite Hr.
    by rewrite bool_decide_false.
Qed.

Lemma hard_delete_wf : wf L2.
Proof.
  constructor.
  - intros i c2 Hc2. apply kept_claims in Hc2 as (c & Hc & [-> _] & _). by apply (wf_claim_ids L Hwf).
  - intros j r Hr. apply kept_revisions in Hr as [Hr _]. by apply (wf_revision_ids L Hwf).
  - intros j r Hr. apply kept_claim_exists in Hr as (c2 & Hc2 & _). eauto.
  - intros j r Hr Hact. destruct (kept_claim_exists j r Hr) as (c2 & Hc2 & Hw). eauto.
  - intros i c2 j Hc2 Hw.
    apply kept_claims in Hc2 as (c & Hc & _ & [(w & Hw1 & Hw2 & Hw3 & _ & Hw5 & Hw6 & _)|
      [(Hn & _)|(Hnt & Ew & _ & _ & _ & Em)]]); [|congruence|].
    + rewrite Hw5 in Hw. injection Hw as <-. exists w. split_and!; [|done..].
      by apply kept_revisions.
    + rewrite Ew in Hw. destruct (wf_winner L Hwf i c j Hc Hw) as (r & Hr & Hcl & Hm).
      assert (r_memory_id r <> Some memory_id) as Hne by (intros ?; apply Hnt; by exists j, r).
      exists r. split_and!; [by apply kept_revisions|done|]. rewrite Em; congruence.
  - intros i c2 Hc2 Hact.
    apply kept_claims in Hc2 as (c & Hc & _ & [(w & Hw1 & Hw2 & Hw3 & Hw4 & Hw5 & _ & Hw7)|
      [(_ & _ & Hn & _)|(Hnt & Ew & Es & Ev & _)]]); [|congruence|].
    + exists (r_id w), w. split_and!; try done. by apply kept_revisions.
    + rewrite Es in Hact. destruct (wf_active L Hwf i c Hc Hact) as (j & r & Hw & Hr & Hs & Hv).
      destruct (wf_winner L Hwf i c j Hc Hw) as (r' & Hr' & Hcl & _).
      exists j, r. split_and!; [congruence| |done|congruence].
      apply kept_revisions. split; [done|]. intros Hm. apply Hnt. exists j, r. split_and!; congruence.
  - intros j j' r r' m Hr Hr'. apply kept_revisions in Hr as [Hr _], Hr' as [Hr' _].
    by apply (wf_memory_once L Hwf).
  - intros i i' c c' Hi Hi' Hk.
    apply kept_claims in Hi as (d & Hd & [_ E] & _), Hi' as (d' & Hd' & [_ E'] & _).
    eapply (wf_unique L Hwf); [done..|congruence].
Qed.
End HardDelete.

(** Hard-deleting a memory erases it from the ledger and keeps the
    invariant: no revision of it remains, no claim points at it, every other
    revision is kept unchanged with its claim, and a claim whose winner was
    deleted displays nothing until a new assertion wins. *)
Theorem hard_delete_forgets_memory (L : Ledger) (memory_id : uuid) (now : datetime) (Hwf : wf L) :
  let L' := _hard_delete_memory_and_reconcile_claims memory_id now L in
  wf L' /\
  (forall j r, revisions L' !! j = Some r <->
     revisions L !! j = Some r /\ r_memory_id r <> Some memory_id) /\
  (forall i c, claims L' !! i = Some c -> c_active_memory_id c <> Some memory_id) /\
  (forall i c j r, claims L !! i = Some c -> c_winning_revision_id c = Some j ->
     revisions L !! j = Some r -> r_memory_id r = Some memory_id ->
     forall c', claims L' !! i = Some c' ->
       c_status c' = ClaimStatus.archived /\ c_active_value c' = None /\ c_active_memory_id c' = None).
Proof.
  intros L'. split_and!.
  - by apply hard_delete_wf.
  - apply kept_revisions.
  - intros i c Hc. destruct (kept_claims L memory_id now Hwf i c Hc)
      as (d & Hd & _ & [(w & _ & _ & ? & _ & _ & -> & _)|[(_ & -> & _)|(_ & _ & _ & _ & ? & _)]]); done.
  - intros i c j r Hc Hw Hr Hm c' Hc'.
    destruct (wf_winner L Hwf i c j Hc Hw) as (r0 & Hr0 & Hcl & _).
    assert (r0 = r) as -> by congruence.
    destruct (kept_claims L memory_id now Hwf i c' Hc')
      as (d & Hd & _ & [(w & Hw1 & Hw2 & Hw3 & Hw4 & _)|[(_ & -> & -> & ->)|(Hnt & _)]]); [|done|].
    + destruct (wf_activated L Hwf _ w Hw1 Hw4) as (e & He & Hew). congruence.
    + destruct Hnt. by exists j, r.
Qed.

(** ** Authority *)

Lemma incoming_wins_authority c p q o :
  _incoming_wins c p q o = true -> (0 <= c_authority_priority c)%Z ->
  (c_authority_priority c <= p)%Z.
Proof.
  unfold _incoming_wins, int_or. simpl. intros Hw Hpos.
  destruct (Z.eqb_spec (c_authority_priority c) 0) as [Hz|Hz]; simpl in *.
  - destruct (Z.eqb_spec p 50); simpl in Hw; [lia|]. apply Z.ltb_lt in Hw. lia.
  - destruct (Z.eqb_spec p (c_authority_priority c)); simpl in Hw; [lia|]. apply Z.ltb_lt in Hw. lia.
Qed.

(** The contest between assertions does not oscillate: an assertion that
    was displaced by one of non-zero authority does not win back against it. *)
Theorem displaced_assertion_stays_displaced (c : MemoryClaim) (value : string) (mem : option uuid)
    (p : Z) (q : Q) (o : option datetime) (now : datetime)
    (Hc : c_authority_priority c <> 0%Z) (Hp : p <> 0%Z)
    (Hwins : _incoming_wins c p q o = true) :
  _incoming_wins (activate_claim value mem p q o now c)
    (c_authority_priority c) (c_confidence_score c) (c_observed_at c) = false.
Proof.
  unfold _incoming_wins, int_or in *. simpl in *.
  destruct (Z.eqb_spec (c_authority_priority c) 0) as [|_]; [done|].
  destruct (Z.eqb_spec p 0) as [|_]; [done|]. rewrite Z.eqb_sym.
  destruct (Z.eqb_spec p (c_authority_priority c)) as [Heq|Hne]; simpl in *.
  2:{ apply Z.ltb_lt in Hwins. apply Z.ltb_ge. lia. }
  assert (forall x y : Q, (if (1 # 5) <?q Qabs (x - y) then y <?q x else false) = true ->
            (if (1 # 5) <?q Qabs (y - x) then x <?q y else false) = false) as Hconf.
  { intros x y H. destruct ((1 # 5) <?q Qabs (x - y)); [|done].
    destruct ((1 # 5) <?q Qabs (y - x)); [|done]. q_reflect. apply Qltb_ge. lra. }
  destruct o as [i|], (c_observed_at c) as [t|]; try by apply Hconf.
  - apply Z.ltb_lt in Hwins. apply Z.ltb_ge. lia.
  - apply Z.ltb_ge. lia.
Qed.

(** A stored authority of zero is read as the default of fifty: against a
    claim held by a source with no authority, an assertion of a strictly more
    authoritative source (below fifty) loses. *)
Theorem zero_authority_claim_outranks (c : MemoryClaim) (p : Z) (q : Q) (o : option datetime)
    (Hzero : c_authority_priority c = 0%Z) (Hp : (0 < p < 50)%Z) :
  (c_authority_priority c < p)%Z /\ _incoming_wins c p q o = false.
Proof.
  split; [lia|]. unfold _incoming_wins, int_or. rewrite Hzero. simpl.
  destruct (Z.eqb_spec p 50); [lia|]. simpl. apply Z.ltb_ge. lia.
Qed.

(** ** Witnesses *)

Section Examples.
#[local] Existing Instance example_pylib.

Definition example_memory : Memory :=
  {| m_id := 7; m_user_id := 1; m_proxy_user_id := 2; m_agent_id := None;
     m_content := "Likes tea"; m_category := MemoryCategory.fact;
     m_importance_score := 1 # 2; m_confidence_score := 9 # 10; m_embedding_model_id := "e";
     m_created_at := 10; m_updated_at := 10; m_last_accessed_at := None; m_access_count := 0;
     m_expires_at := None; m_effective_from := None; m_effective_until := None;
     m_previous_version_id := None; m_source_event_id := None; m_metadata_json := [];
     m_is_archived := false |}.

Definition example_args (m cid rid : uuid) : RecordArgs :=
  {| ra_memory := example_memory <| m_id := m |>; ra_tenant_id := Some 1%Z; ra_proxy_user_id := Some 2%Z;
     ra_provenance := Some []; ra_declaration := None; ra_resolution := "NEW";
     ra_decision_evidence := None; ra_predecessor_memory_id := None; ra_now := 10;
     ra_claim_id := cid; ra_revision_id := rid |}.

Definition empty_ledger : Ledger := {| claims := ∅; revisions := ∅ |}.

(** The ledger after the first recording. *)
Definition example_ledger : Ledger := (record_memory (example_args 7 3 4) empty_ledger).1.

Lemma example_ledger_wf : wf example_ledger.
Proof.
  destruct (create_claim_ok (example_args 7 3 4) 1 2 (build_claim_identity "Likes tea" "fact" [])
              50 None empty_ledger wf_empty eq_refl) as [_ Hcont]; [done|].
  apply (append_memory_revision (example_args 7 3 4) _ 50 None [] _ empty_ledger _ _ eq_refl eq_refl)
    in Hcont as (L2 & HL2 & Hwf2 & _).
  assert (L2 = example_ledger) as <-; [|done].
  apply (f_equal fst) in HL2. by vm_compute in HL2 |- *.
Qed.

Lemma record_memory_all_or_nothing_witness :
  exists L' cid, record_memory (example_args 8 5 6) example_ledger = (L', inr (Some cid)) /\ wf L'.
Proof.
  pose proof (record_memory_all_or_nothing (example_args 8 5 6) example_ledger example_ledger_wf
                eq_refl eq_refl eq_refl) as H.
  destruct (record_memory (example_args 8 5 6) example_ledger) as [L' [e|[cid|]]] eqn:E.
  - exfalso. vm_compute in E. discriminate E.
  - exists L', cid. split; [reflexivity|]. exact (proj1 H).
  - exfalso. vm_compute in E. discriminate E.
Defined.

Definition example_domain_args : DomainArgs :=
  {| da_tenant_id := 1; da_proxy_user_id := 2; da_domain := "health"; da_record_id := "r";
     da_field := "diet"; da_category := "preference"; da_value := "vegan";
     da_provenance := Some []; da_now := 11; da_claim_id := 5; da_revision_id := 6 |}.

Lemma record_domain_field_all_or_nothing_witness :
  exists L' cid, _record_domain_field example_domain_args example_ledger = (L', inr cid) /\ wf L'.
Proof.
  assert (forall identity i c, domain_identity example_domain_args = Some identity ->
    claims example_ledger !! i = Some c ->
    claim_key c = (1%Z, 2%Z, ci_fingerprint identity) -> c_active_memory_id c = None) as Hheld.
  { intros identity i c Hid Hc Hk. vm_compute in Hid. injection Hid as <-.
    assert ((i, c) ∈ map_to_list (claims example_ledger)) as Hin by (by apply elem_of_map_to_list).
    vm_compute in Hin. apply list_elem_of_singleton in Hin. injection Hin as -> ->. discriminate Hk. }
  pose proof (record_domain_field_all_or_nothing example_domain_args example_ledger
                example_ledger_wf eq_refl eq_refl Hheld) as H.
  destruct (_record_domain_field example_domain_args example_ledger) as [L' [e|cid]] eqn:E.
  - exfalso. vm_compute in E. discriminate E.
  - exists L', cid. split; [reflexivity|]. exact (proj1 H).
Defined.

Lemma manual_resolution_keeps_ledger_witness :
  exists L', apply_conflict_selection 7 9 "both" "checked" 12 example_ledger = (L', inr tt) /\ wf L'.
Proof.
  pose proof (manual_resolution_keeps_ledger example_ledger 7 9 "both" "checked" 12
                example_ledger_wf) as H.
  destruct (apply_conflict_selection 7 9 "both" "checked" 12 example_ledger) as [L' [e|[]]] eqn:E.
  - exfalso. vm_compute in E. discriminate E.
  - exists L'. split; [reflexivity|]. exact (proj1 H).
Defined.

Lemma manual_choice_is_displayed_witness :
  exists L' r r', revisions example_ledger !! 4%Z = Some r /\
    apply_conflict_selection 7 9 "B" "checked" 12 example_ledger = (L', inr tt) /\
    revisions L' !! 4%Z = Some r' /\ r_status r' = RevisionStatus.rejected.
Proof.
  destruct (revisions example_ledger !! 4%Z) as [r|] eqn:Hr; [|vm_compute in Hr; discriminate Hr].
  destruct (manual_choice_is_displayed example_ledger 7 9 9 "B" "checked" 12 example_ledger_wf
              (or_intror (conj eq_refl eq_refl)) 4 r Hr) as (L' & r' & H1 & H2 & H3).
  exists L', r, r'. split; [reflexivity|]. split; [exact H1|]. split; [exact H2|].
  clear H1 H2. vm_compute in Hr. injection Hr as <-. exact H3.
Defined.

Lemma hard_delete_forgets_memory_witness :
  let L' := _hard_delete_memory_and_reconcile_claims 7 12 example_ledger in
  wf L' /\ revisions L' !! 4%Z = None.
Proof.
  split; [exact (proj1 (hard_delete_forgets_memory example_ledger 7 12 example_ledger_wf))|reflexivity].
Defined.

Definition example_claim : MemoryClaim :=
  new_claim (example_args 7 3 4) 1 2 (build_claim_identity "Likes tea" "fact" []) 40 None.

Lemma displaced_assertion_stays_displaced_witness :
  _incoming_wins example_claim 60 (1 # 2) None = true /\
  _incoming_wins (activate_claim "coffee" None 60 (1 # 2) None 20 example_claim) 40 (9 # 10) None = false.
Proof.
  split; [reflexivity|].
  exact (displaced_assertion_stays_displaced example_claim "coffee" None 60 (1 # 2) None 20
           ltac:(discriminate) ltac:(discriminate) eq_refl).
Defined.

Lemma zero_authority_claim_outranks_witness :
  (0 < 20)%Z /\ _incoming_wins (example_claim <| c_authority_priority := 0%Z |>) 20 1 None = false.
Proof.
  exact (zero_authority_claim_outranks (example_claim <| c_authority_priority := 0%Z |>) 20 1 None
           eq_refl ltac:(lia)).
Defined.
End Examples.
