(* ===== verification/ClaimDisplay.v ===== *)
(** * What recording a memory does to the claims' displays

    The effect of [ClaimLedger.record_memory] on the two tables, row by row: the
    other claims stay, the claim it records into keeps what it displays, or
    displays the new memory, and an update displaces its predecessor. *)

From S2P Require Export ClaimLedger ClaimLedgerTheorems.

Section Display.
Context `{PyLib}.

(** A claim's identity columns. *)
Definition same_identity (c c' : MemoryClaim) : Prop :=
  c_subject_key c' = c_subject_key c /\ c_claim_fingerprint c' = c_claim_fingerprint c.

(** The claim after a memory was recorded in it. *)
Inductive claim_after (a : RecordArgs) (before : option MemoryClaim) (c' : MemoryClaim) : Prop :=
  | displays_new :
      c_active_memory_id c' = Some (m_id (ra_memory a)) -> is_Some (c_winning_revision_id c') ->
      m_is_archived (ra_memory a) = false -> claim_after a before c'
  | keeps_display c :
      before = Some c -> c_active_memory_id c' = c_active_memory_id c ->
      c_winning_revision_id c' = c_winning_revision_id c -> claim_after a before c'
  | displays_nothing :
      before = None -> c_active_memory_id c' = None -> c_winning_revision_id c' = None -> claim_after a before c'.

Record recording (a : RecordArgs) (cid : uuid) (L L' : Ledger) : Prop := {
  rc_other i : i <> cid -> claims L' !! i = claims L !! i;
  rc_claim : exists c', claims L' !! cid = Some c' /\ claim_after a (claims L !! cid) c'
    /\ (forall c, claims L !! cid = Some c -> same_identity c c')
    /\ (claims L !! cid = None -> exists identity, identity_for a = Some identity
          /\ c_subject_key c' = ci_subject_key identity /\ c_claim_fingerprint c' = ci_fingerprint identity);
  rc_new : exists r, revisions L' !! ra_revision_id a = Some r
    /\ r_memory_id r = Some (m_id (ra_memory a)) /\ r_claim_id r = cid;
  rc_old j r : revisions L' !! j = Some r -> j <> ra_revision_id a ->
    exists r0, revisions L !! j = Some r0 /\ r_memory_id r = r_memory_id r0 /\ r_claim_id r = r_claim_id r0;
  rc_created : claims L !! cid = None -> cid = ra_claim_id a;
}.

Lemma append_revision_inv cid r L L' u :
  append_revision cid r L = (L', inr u) ->
  L' = if bool_decide (r_status r = RevisionStatus.activated)
       then put_revision r L <| claims ::= alter (set_winner (r_id r)) cid |> else put_revision r L.
Proof.
  unfold append_revision, mbind, M_bind, modify_st. cbn -[put_revision flush].
  destruct (flush (put_revision r L)) as [L1 [e|[]]] eqn:E; [done|].
  assert (L1 = put_revision r L) as ->.
  { revert E. unfold flush. destruct (negb _); [by intros [=]|]. destruct (negb _); [by intros [=]|].
    by intros [= <-]. }
  destruct (bool_decide _); by intros [= <-].
Qed.

(** The contest of an existing claim. *)
Lemma contest_claim_effect a identity p o pre c L L1 status :
  contest_claim a identity p o pre c L = (L1, inr status) ->
  (status = RevisionStatus.activated /\ m_is_archived (ra_memory a) = false
   /\ L1 = put_claim (activate_claim (ci_value identity) (Some (m_id (ra_memory a))) p
             (m_confidence_score (ra_memory a)) o (ra_now a) c) (_mark_existing_winner_superseded c L))
  \/ (status <> RevisionStatus.activated /\ (pre = true -> m_is_archived (ra_memory a) = true)
      /\ (L1 = put_claim (dispute_claim (ra_now a) c) L \/ L1 = L)).
Proof.
  unfold contest_claim, mbind, M_bind, modify_st, mret, M_ret.
  destruct (m_is_archived (ra_memory a)) eqn:Ea; cbn [negb andb].
  - intros [= <- <-]. right. split_and!; [done|done|by right].
  - destruct (pre || _ || _) eqn:Ew.
    + intros [= <- <-]. by left.
    + assert (pre = true -> false = true) as Hpre by (intros ->; discriminate Ew).
      destruct (negb _ && negb _); intros [= <- <-]; right; (split_and!; [done|done|auto]).
Qed.

Lemma superseded_rows c L j r :
  revisions (_mark_existing_winner_superseded c L) !! j = Some r ->
  exists r0, revisions L !! j = Some r0 /\ r_memory_id r = r_memory_id r0 /\ r_claim_id r = r_claim_id r0.
Proof.
  unfold _mark_existing_winner_superseded. destruct (c_winning_revision_id c) as [w|]; [|eauto].
  cbn. intros Hj. apply lookup_alter_Some in Hj as [(_ & r0 & Hr0 & ->)|[_ Hj]]; eauto.
Qed.

Lemma superseded_claims c L : claims (_mark_existing_winner_superseded c L) = claims L.
Proof. unfold _mark_existing_winner_superseded. by destruct (c_winning_revision_id c). Qed.

Lemma contest_recording a identity p o ev pre c L L1 status L' u :
  claims L !! c_id c = Some c ->
  contest_claim a identity p o pre c L = (L1, inr status) ->
  append_revision (c_id c) (memory_revision a (c_id c) identity p o ev status) L1 = (L', inr u) ->
  recording a (c_id c) L L' /\
  (pre = true -> m_is_archived (ra_memory a) = false ->
   exists c', claims L' !! c_id c = Some c' /\ c_active_memory_id c' = Some (m_id (ra_memory a))).
Proof.
  intros Hc Hcont Happ. apply append_revision_inv in Happ. cbn [memory_revision r_status r_id] in Happ.
  apply contest_claim_effect in Hcont as [(-> & Ha & ->)|(Hst & Hpre & HL1)].
  - rewrite bool_decide_true in Happ by done. subst L'. split.
    + constructor; cbn.
      * intros i Hi. rewrite lookup_alter_ne, lookup_insert_ne by done. by rewrite superseded_claims.
      * rewrite lookup_alter_eq, lookup_insert_eq. eexists. split; [reflexivity|].
        rewrite Hc. split_and!; [|by intros c0 [= <-]|done]. apply displays_new; [done|by eexists|done].
      * rewrite lookup_insert_eq. by eexists.
      * intros j r Hj Hne. rewrite lookup_insert_ne in Hj by done. by eapply superseded_rows.
      * congruence.
    + intros _ _. cbn. rewrite lookup_alter_eq, lookup_insert_eq. by eexists.
  - rewrite bool_decide_false in Happ by done. subst L'. split.
    + assert (forall i, i <> c_id c -> claims L1 !! i = claims L !! i) as Hother
        by (intros i Hi; destruct HL1 as [->| ->]; [cbn; by rewrite lookup_insert_ne|done]).
      assert (revisions L1 = revisions L) as Hrev by (by destruct HL1 as [->| ->]).
      constructor; cbn; [exact Hother| | | |congruence].
      * assert (exists c', claims L1 !! c_id c = Some c' /\ c_active_memory_id c' = c_active_memory_id c
                  /\ c_winning_revision_id c' = c_winning_revision_id c /\ same_identity c c') as (c' & Hc' & ? & ? & ?).
        { destruct HL1 as [->| ->]; [|by eexists]. cbn. rewrite lookup_insert_eq. by eexists. }
        exists c'. rewrite Hc. split_and!; [done| |by intros c0 [= <-]|done]. by apply (keeps_display _ _ _ c).
      * rewrite lookup_insert_eq. by eexists.
      * intros j r Hj Hne. rewrite lookup_insert_ne, Hrev in Hj by done. eauto.
    + intros Hp Ha. rewrite (Hpre Hp) in Ha. done.
Qed.

(** A claim created for the memory. *)
Lemma create_recording a tenant proxy identity p o ev L L' u :
  identity_for a = Some identity -> claims L !! ra_claim_id a = None ->
  append_revision (ra_claim_id a)
    (memory_revision a (ra_claim_id a) identity p o ev
       (if m_is_archived (ra_memory a) then RevisionStatus.disputed else RevisionStatus.activated))
    (put_claim (new_claim a tenant proxy identity p o) L) = (L', inr u) ->
  recording a (ra_claim_id a) L L'.
Proof.
  intros Hid Hnone Happ. apply append_revision_inv in Happ. cbn [memory_revision r_status r_id] in Happ.
  destruct (m_is_archived (ra_memory a)) eqn:Ea.
  - rewrite bool_decide_false in Happ by done. subst L'. constructor; cbn.
    + intros i Hi. by rewrite lookup_insert_ne.
    + rewrite lookup_insert_eq. eexists. split; [reflexivity|]. rewrite Hnone. split_and!; [|done|by eexists].
      apply displays_nothing; [done| |done]. cbn. by rewrite Ea.
    + rewrite lookup_insert_eq. by eexists.
    + intros j r Hj Hne. rewrite lookup_insert_ne in Hj by done. eauto.
    + done.
  - rewrite bool_decide_true in Happ by done. subst L'. constructor; cbn.
    + intros i Hi. by rewrite lookup_alter_ne, lookup_insert_ne.
    + rewrite lookup_alter_eq, lookup_insert_eq. eexists. split; [reflexivity|]. rewrite Hnone.
      split_and!; [|done|by eexists]. apply displays_new; [|by eexists|done]. cbn. by rewrite Ea.
    + rewrite lookup_insert_eq. by eexists.
    + intros j r Hj Hne. rewrite lookup_insert_ne in Hj by done. eauto.
    + done.
Qed.

(** The claim of a memory's only revision. *)
Lemma find_claim_of_revision L m j r :
  wf L -> revisions L !! j = Some r -> r_memory_id r = Some m ->
  exists c, _find_claim_for_memory m L = (L, inr (Some c)) /\ c_id c = r_claim_id r.
Proof.
  intros Hwf Hj Hm. destruct (find_claim_for_memory_wf m L Hwf) as ([c|] & Hf & Hc).
  - exists c. split; [done|]. unfold _find_claim_for_memory, mbind, M_bind, get_st, mret, M_ret in Hf.
    injection Hf as Hf. destruct (latest (revisions_of_memory m L)) as [r1|] eqn:E; [|done]. cbn in Hf.
    apply latest_elem, revisions_of_memory_elem in E as [Hm1 [j1 Hj1]].
    rewrite (wf_memory_once L Hwf j j1 r r1 m Hj Hj1 Hm Hm1) in Hj. rewrite Hj in Hj1. injection Hj1 as ->.
    by apply (wf_claim_ids L Hwf) in Hf.
  - by destruct (Hc j r Hj Hm).
Qed.

Definition generic_or_found (identity : ClaimIdentity) (c : MemoryClaim) : Prop :=
  c_subject_key c = GENERIC_CLAIM_SUBJECT \/ c_claim_fingerprint c = ci_fingerprint identity.

Lemma predecessor_is_generic a tenant proxy identity c L :
  ra_declaration a = None -> predecessor_lookup a L = (L, inr (Some c)) ->
  predecessor_error a tenant proxy identity (Some c) = None ->
  c_subject_key c = GENERIC_CLAIM_SUBJECT.
Proof.
  intros Hdecl. unfold predecessor_lookup, predecessor_error. rewrite Hdecl.
  destruct (ra_predecessor_memory_id a); [|by intros [=]]. destruct (is_update _); [|by intros [=]]. intros _.
  rewrite bool_decide_false by (by intros []). by destruct (bool_decide (c_subject_key c = _)) eqn:E; [apply bool_decide_eq_true in E|].
Qed.

Lemma record_memory_recording a L L' cid :
  wf L -> claims L !! ra_claim_id a = None -> ra_declaration a = None ->
  record_memory a L = (L', inr (Some cid)) ->
  exists identity, identity_for a = Some identity /\ recording a cid L L'
  /\ (forall c, claims L !! cid = Some c -> generic_or_found identity c)
  /\ (forall p j r, ra_predecessor_memory_id a = Some p -> is_update (ra_resolution a) = true ->
       m_is_archived (ra_memory a) = false -> revisions L !! j = Some r -> r_memory_id r = Some p ->
       r_claim_id r = cid /\
       exists c', claims L' !! cid = Some c' /\ c_active_memory_id c' = Some (m_id (ra_memory a))).
Proof.
  intros Hwf Hnone Hdecl. unfold record_memory.
  destruct (ra_tenant_id a) as [tenant|]; [|done]. destruct (ra_proxy_user_id a) as [proxy|]; [|done].
  destruct (identity_for a) as [identity|] eqn:Hid; [|done].
  fold (predecessor_lookup a). destruct (predecessor_lookup_ok a L Hwf) as (pre & Hpre & Hprec).
  unfold mbind, M_bind, lift_opt, mret, M_ret. simpl. rewrite Hpre.
  destruct (predecessor_error a tenant proxy identity pre) as [msg|] eqn:Hperr; [done|]. simpl.
  destruct (claim_lookup_ok tenant proxy (ci_fingerprint identity) pre L Hwf Hprec) as (oc & Hoc & Hspec).
  pose proof Hoc as Hoc'. unfold claim_lookup, mret, M_ret in Hoc. rewrite Hoc.
  destruct (scope_error a identity oc) as [msg|]; [done|]. simpl.
  destruct (authority_priority _ _) as [p|]; [|done]. simpl. set (o := parse_observed_at _).
  assert (forall p0 j r, ra_predecessor_memory_id a = Some p0 -> is_update (ra_resolution a) = true ->
    revisions L !! j = Some r -> r_memory_id r = Some p0 ->
    exists c, pre = Some c /\ oc = Some c /\ c_id c = r_claim_id r) as Hsucc.
  { intros p0 j r Hp0 Hu Hj Hm. destruct (find_claim_of_revision L p0 j r Hwf Hj Hm) as (c0 & Hf & Hcid).
    unfold predecessor_lookup in Hpre. rewrite Hp0, Hu, Hf in Hpre. injection Hpre as <-.
    injection Hoc as <-. eauto. }
  destruct oc as [c|].
  - destruct (contest_claim a identity p o (bool_decide (is_Some pre)) c L) as [L1 [e|status]] eqn:Hcont; [done|].
    destruct (evidence_refs _) as [ev|]; [|done].
    match goal with |- context [append_revision ?i ?r L1] =>
      destruct (append_revision i r L1) as [L2 [e|u]] eqn:Happ end; [done|]. intros [= <- <-].
    destruct (contest_recording a identity p o ev _ c L L1 status L2 u Hspec Hcont Happ) as [Hrec Hwins].
    exists identity. split_and!; [done|done| |].
    + intros c0 Hc0. rewrite Hspec in Hc0. injection Hc0 as <-. destruct pre as [c1|].
      * injection Hoc as ->. left. by eapply predecessor_is_generic.
      * right. destruct (find_claim_wf tenant proxy (ci_fingerprint identity) L Hwf) as (o' & Hf & Hs).
        rewrite Hf in Hoc. injection Hoc as ->. destruct Hs as [_ Hk]. by injection Hk.
    + intros p0 j r Hp0 Hu Hlive Hj Hm. destruct (Hsucc p0 j r Hp0 Hu Hj Hm) as (c1 & -> & [= <-] & Hcid).
      split; [done|]. by apply Hwins.
  - unfold modify_st. destruct (flush _) as [L1 [e|[]]] eqn:Ef; [done|].
    assert (L1 = put_claim (new_claim a tenant proxy identity p o) L) as ->.
    { revert Ef. unfold flush. destruct (negb _); [by intros [=]|]. destruct (negb _); [by intros [=]|].
      by intros [= <-]. }
    destruct (evidence_refs _) as [ev|]; [|done].
    match goal with |- context [append_revision ?i ?r ?L1] =>
      destruct (append_revision i r L1) as [L2 [e|u]] eqn:Happ end; [done|]. intros [= <- <-].
    exists identity. split_and!; [done|by eapply create_recording| |].
    + intros c0 Hc0. congruence.
    + intros p0 j r Hp0 Hu Hlive Hj Hm. by destruct (Hsucc p0 j r Hp0 Hu Hj Hm) as (c1 & _ & ? & _).
Qed.

(** An update of a memory whose claim is generic, of the same owner, category
    and scope is always recorded. *)
Record traceable (a : RecordArgs) (tenant proxy : uuid) (L : Ledger) (c : MemoryClaim) : Prop := {
  tr_subject : c_subject_key c = GENERIC_CLAIM_SUBJECT;
  tr_owner : c_tenant_id c = tenant /\ c_proxy_user_id c = proxy;
  tr_category : c_category c = m_category (ra_memory a);
  tr_scope : exists scope, dict_or_empty (jget_or_null "scope" (default [] (ra_provenance a))) = Some scope
    /\ normalize_generic_scope (c_scope c) = normalize_generic_scope scope;
  tr_priority : is_Some (authority_priority (ra_provenance a) (MemoryCategory.value (m_category (ra_memory a))));
  tr_evidence : is_Some (evidence_refs (ra_provenance a));
}.

Lemma record_memory_returns a L tenant proxy p j r c :
  wf L -> revisions L !! ra_revision_id a = None ->
  revisions_of_memory (m_id (ra_memory a)) L = [] -> ra_declaration a = None ->
  ra_tenant_id a = Some tenant -> ra_proxy_user_id a = Some proxy ->
  ra_predecessor_memory_id a = Some p -> is_update (ra_resolution a) = true ->
  revisions L !! j = Some r -> r_memory_id r = Some p -> claims L !! r_claim_id r = Some c ->
  traceable a tenant proxy L c ->
  exists L' cid, record_memory a L = (L', inr (Some cid)).
Proof.
  intros Hwf Hrev Hmem Hdecl Ht Hpr Hp Hu Hj Hm Hc Htr.
  destruct Htr as [Hsub [Hten Hprx] Hcat (scope & Hscope & Hnorm) [prio Hprio] [ev Hev]].
  unfold record_memory. rewrite Ht, Hpr, Hp, Hu. unfold identity_for at 1. rewrite Hdecl.
  destruct (find_claim_of_revision L p j r Hwf Hj Hm) as (c0 & Hf & Hcid).
  assert (claims L !! c_id c0 = Some c0) as Hc0.
  { destruct (find_claim_for_memory_wf p L Hwf) as (o & Ho & Hspec). rewrite Hf in Ho. injection Ho as <-. done. }
  rewrite Hcid, Hc in Hc0. injection Hc0 as <-.
  unfold mbind, M_bind, lift_opt, mret, M_ret, option_bind. rewrite Hscope. cbn [fmap option_fmap option_map].
  set (identity := build_claim_identity _ _ scope). rewrite Hf.
  assert (predecessor_error a tenant proxy identity (Some c) = None) as ->.
  { unfold predecessor_error. rewrite Hp, Hu, Hdecl, bool_decide_false by (by intros []).
    rewrite !bool_decide_true; done. }
  cbn [raise_if mret M_ret]. unfold mret, M_ret.
  assert (scope_error a identity (Some c) = None) as ->
    by (unfold scope_error; rewrite Hdecl, bool_decide_true; done).
  cbn [raise_if]. unfold mret, M_ret. rewrite Hprio. set (o := parse_observed_at _).
  assert (claims L !! c_id c = Some c) as Hc1 by (rewrite Hcid; exact Hc).
  destruct (contest_claim_ok a identity prio o (bool_decide (is_Some (Some c))) c L Hwf Hc1) as (L1 & status & -> & Hcont).
  rewrite Hev. destruct (append_memory_revision a identity prio o ev c L L1 status Hrev Hmem Hcont) as (L2 & HL2 & _).
  cbn in HL2 |- *. rewrite HL2. eauto.
Qed.
End Display.
