(* ===== verification/PreferenceClaims.v ===== *)
(** * Declared preferences

    [api/schemas/preferences.py]: the validation of declarations, read contexts
    and scope requests; [api/services/preference_claim_service.py]: the
    declaration a memory carries, the hold a pending choice puts on it, and the
    transition a new declaration may make; [target_version] of
    [source_review_service.py] and [snapshot_target] of
    [preference_snapshot_service.py].  A preference transition names the exact
    version of the memory it replaces. *)

From S2P Require Export ClaimIdentity.

(** ** Closed schemas

    pydantic's validation of a dictionary against a closed model: every key is
    known, required keys are there, strings are strings. *)

(** The white space [strip_whitespace] strips. *)
Definition strips (c : ascii) : bool :=
  let n := nat_of_ascii c in ((9 <=? n) && (n <=? 13))%nat || (n =? 32)%nat.
Definition strip_whitespace (s : string) : string := drop_while_end strips (drop_while strips s).

Definition length_between (lo hi : nat) (s : string) : bool :=
  ((lo <=? String.length s) && (String.length s <=? hi))%nat.

Fixpoint all_chars (p : ascii -> bool) (s : string) : bool :=
  match s with EmptyString => true | String c s => p c && all_chars p s end.

Definition is_lower (c : ascii) : bool := let n := nat_of_ascii c in ((97 <=? n) && (n <=? 122))%nat.
Definition is_digit (c : ascii) : bool := bool_decide (is_Some (digit_value c)).

Definition require (b : bool) : option unit := if b then Some tt else None.
Notation "'check' b ; e" := (require b ≫= fun _ => e) (at level 200, b at level 100, e at level 200).

Definition closed (keys : list string) (o : obj) : bool := forallb (fun kx => bool_decide (kx.1 ∈ keys)) o.

Definition as_string (v : json) : option string := match v with JStr s => Some s | _ => None end.
Definition as_object (v : json) : option obj := match v with JObj o => Some o | _ => None end.

(** A field [T | None = None]: [Some None] when absent or null. *)
Definition optional_field {A} (parse : json -> option A) (k : string) (o : obj) : option (option A) :=
  match jget_or_null k o with JNull => Some None | v => Some <$> parse v end.

(** [Annotated[str, StringConstraints(min_length=1, max_length=120, pattern=...)]] *)
Definition is_key_char (c : ascii) : bool :=
  is_lower c || is_digit c || bool_decide (c ∈ ["."%char; "_"%char; "-"%char]).
Definition property_key_ok (s : string) : bool :=
  length_between 1 120 s && match s with String c s => is_lower c && all_chars is_key_char s | _ => false end.
Definition PropertyKey (v : json) : option string :=
  s ← as_string v; check property_key_ok s; Some s.

Definition stripped_string (hi : nat) (v : json) : option string :=
  s ← as_string v; let s := strip_whitespace s in check length_between 1 hi s; Some s.

(** [Version]: sixty-four lower-case hexadecimal digits *)
Definition is_hex (c : ascii) : bool :=
  is_digit c || (let n := nat_of_ascii c in ((97 <=? n) && (n <=? 102))%nat).
Definition Version (v : json) : option string :=
  s ← as_string v; check (String.length s =? 64)%nat && all_chars is_hex s; Some s.

Definition kind_of_value (v : json) : option ApplicabilityKind.t :=
  s ← as_string v;
  if bool_decide (s = "global") then Some ApplicabilityKind.global
  else if bool_decide (s = "context") then Some ApplicabilityKind.context
  else if bool_decide (s = "unresolved") then Some ApplicabilityKind.unresolved
  else None.

Definition commitment_of_value (v : json) : option Commitment.t :=
  s ← as_string v;
  if bool_decide (s = "asserted") then Some Commitment.asserted
  else if bool_decide (s = "uncertain") then Some Commitment.uncertain
  else if bool_decide (s = "replacement") then Some Commitment.replacement
  else None.

Definition choice_state_of_value (v : json) : option ChoiceState.t :=
  s ← as_string v;
  if bool_decide (s = "candidate_only") then Some ChoiceState.candidate_only
  else if bool_decide (s = "current_choice_unresolved") then Some ChoiceState.current_choice_unresolved
  else None.

(** [PreferenceApplicability.model_validate] *)
Definition validate_applicability (v : json) : option PreferenceApplicability :=
  o ← as_object v;
  check closed ["kind"; "namespace"; "key"] o;
  kind ← jget "kind" o ≫= kind_of_value;
  namespace ← optional_field PropertyKey "namespace" o;
  key ← optional_field (stripped_string 128) "key" o;
  let a := {| pa_kind := kind; pa_namespace := namespace; pa_key := key |} in
  check validate_context a;
  Some a.

#[export] Instance applicability_eq_dec : EqDecision PreferenceApplicability.
Proof. solve_decision. Defined.
#[export] Instance claim_request_eq_dec : EqDecision PreferenceClaimRequest.
Proof. solve_decision. Defined.

Section Schemas.
Context `{PyLib}.

(** [replaces_memory_id]: thirty-six hexadecimal digits and dashes, then [uuid.UUID] *)
Definition target_id (v : json) : option uuid :=
  s ← as_string v;
  check (String.length s =? 36)%nat && all_chars (fun c => is_hex c || bool_decide (c = "-"%char)) s;
  parse_uuid_str s.

Definition strict_int_between (lo hi : Z) (v : json) : option Z :=
  match v with JInt z => check (lo <=? z)%Z && (z <=? hi)%Z; Some z | _ => None end.

Definition claim_request_fields : list string :=
  ["property_key"; "value"; "applicability"; "turn_index"; "quote"; "commitment"; "choice_state";
   "replaces_memory_id"; "replaces_version"].

(** [PreferenceClaimRequest.model_validate] *)
Definition validate_claim_request (v : json) : option PreferenceClaimRequest :=
  o ← as_object v;
  check closed claim_request_fields o;
  property_key ← jget "property_key" o ≫= PropertyKey;
  value ← jget "value" o ≫= stripped_string 256;
  applicability ← jget "applicability" o ≫= validate_applicability;
  turn_index ← jget "turn_index" o ≫= strict_int_between 0 63;
  quote ← jget "quote" o ≫= as_string;
  check length_between 1 2000 quote;
  commitment ← commitment_of_value (default (JStr "asserted") (jget "commitment" o));
  choice_state ← choice_state_of_value (default (JStr "candidate_only") (jget "choice_state" o));
  replaces_memory_id ← optional_field target_id "replaces_memory_id" o;
  replaces_version ← optional_field Version "replaces_version" o;
  let c := {| pc_property_key := property_key; pc_value := value; pc_applicability := applicability;
              pc_turn_index := turn_index; pc_quote := quote; pc_commitment := commitment;
              pc_choice_state := choice_state; pc_replaces_memory_id := replaces_memory_id;
              pc_replaces_version := replaces_version |} in
  check validate_replacement c;
  Some c.
End Schemas.

Record PreferenceReadDecision := { pd_property_key : string; pd_applicability : PreferenceApplicability }.
Record PreferenceReadContext := { px_applicability : PreferenceApplicability; px_property_keys : list string }.
Record PreferenceScopeRequest := {
  ps_property_keys : list string;
  ps_available_scopes : list PreferenceApplicability;
}.

Definition count_between (lo hi : nat) {A} (l : list A) : bool :=
  ((lo <=? length l) && (length l <=? hi))%nat.

(** The constraints and validators of [PreferenceReadContext]. *)
Definition validate_keys (c : PreferenceReadContext) : bool :=
  count_between 1 16 (px_property_keys c) && forallb property_key_ok (px_property_keys c)
  && negb (bool_decide (pa_kind (px_applicability c) = ApplicabilityKind.unresolved))
  && validate_context (px_applicability c) && bool_decide (NoDup (px_property_keys c)).

(** The constraints and validators of [PreferenceScopeRequest]. *)
Definition known_unique_scopes (r : PreferenceScopeRequest) : bool :=
  count_between 1 16 (ps_property_keys r) && count_between 1 32 (ps_available_scopes r)
  && bool_decide (NoDup (ps_property_keys r)) && bool_decide (NoDup (ps_available_scopes r))
  && forallb (fun a => negb (bool_decide (pa_kind a = ApplicabilityKind.unresolved))) (ps_available_scopes r).

(** ** Digests

    SHA-256 of [json.dumps(value, sort_keys=True)] in the three styles the
    services use: default, [ensure_ascii=False], and compact separators.  The
    value is given with its keys sorted. *)

Inductive dump_style := plain_dump | unicode_dump | compact_style.
Class Hashing := { sha256_json : dump_style -> json -> string }.

Definition hash_of `{Hashing} (style : dump_style) (v : json) : string := sha256_json style (json_sorted v).

Section Claims.
Context `{PyLib} `{Hashing}.

Definition opt_json {A} (f : A -> json) (o : option A) : json := match o with Some a => f a | None => JNull end.

Definition target_version (memory : Memory) : string :=
  hash_of plain_dump (JObj
    [("id", JStr (uuid_str (m_id memory)));
     ("user_id", JStr (uuid_str (m_user_id memory)));
     ("proxy_user_id", JStr (uuid_str (m_proxy_user_id memory)));
     ("content", JStr (m_content memory));
     ("category", JStr (MemoryCategory.value (m_category memory)));
     ("is_archived", JBool (m_is_archived memory));
     ("expires_at", opt_json (fun t => JStr (isoformat t)) (m_expires_at memory));
     ("effective_from", opt_json (fun t => JStr (isoformat t)) (m_effective_from memory));
     ("effective_until", opt_json (fun t => JStr (isoformat t)) (m_effective_until memory));
     ("metadata_json", JObj (m_metadata_json memory))]).

Definition CHOICE_STATE_MARKER : string := "preference_choice_state".

Definition commitment_value (c : Commitment.t) : string :=
  match c with
  | Commitment.asserted => "asserted" | Commitment.uncertain => "uncertain" | Commitment.replacement => "replacement"
  end.
Definition choice_state_value (c : ChoiceState.t) : string :=
  match c with
  | ChoiceState.candidate_only => "candidate_only"
  | ChoiceState.current_choice_unresolved => "current_choice_unresolved"
  end.

Definition given (k : string) (o : option string) : obj := match o with Some s => [(k, JStr s)] | None => [] end.

(** [declaration.model_dump(mode="json", exclude_none=True)] *)
Definition dump_claim_request (d : PreferenceClaimRequest) : obj :=
  [("property_key", JStr (pc_property_key d)); ("value", JStr (pc_value d));
   ("applicability", JObj (dump_applicability (pc_applicability d)));
   ("turn_index", JInt (pc_turn_index d)); ("quote", JStr (pc_quote d));
   ("commitment", JStr (commitment_value (pc_commitment d)));
   ("choice_state", JStr (choice_state_value (pc_choice_state d)))]
  ++ given "replaces_memory_id" (uuid_str <$> pc_replaces_memory_id d)
  ++ given "replaces_version" (pc_replaces_version d).

Definition choice_evidence_key (declaration : PreferenceClaimRequest) : string :=
  hash_of plain_dump (JObj (dump_claim_request declaration)).

(** [(v or {}).get(k)]; [None] is the [AttributeError] of another truthy value. *)
Definition get_or_empty (k : string) (v : json) : option json :=
  if truthy v then match v with JObj o => Some (jget_or_null k o) | _ => None end else Some JNull.

Definition provenance_of (memory : Memory) : json := jget_or_null "provenance" (m_metadata_json memory).

(** [None]: it raises; [Some None]: nothing is declared. *)
Definition preference_declaration (provenance : json) : option (option PreferenceClaimRequest) :=
  evidence ← get_or_empty "extraction_evidence" provenance;
  raw ← get_or_empty PREFERENCE_MARKER evidence;
  match raw with
  | JNull => Some None
  | raw => Some <$> validate_claim_request raw
  end.

(** [metadata_json["provenance"]["extraction_evidence"][marker]] is SQL [NULL]. *)
Definition json_path (k : string) (v : json) : json := match v with JObj o => jget_or_null k o | _ => JNull end.
Definition legacy_memory_predicate (memory : Memory) : bool :=
  bool_decide (json_path PREFERENCE_MARKER (json_path "extraction_evidence" (provenance_of memory)) = JNull).

(** A durable read barrier. *)
Definition held_choice (memory : Memory) (ledger : MemoryClaim) : option bool :=
  let marker := jget_or_null CHOICE_STATE_MARKER (m_metadata_json memory) in
  declaration ← preference_declaration (provenance_of memory);
  Some (match marker, declaration with
        | JObj marker, Some d =>
            let fingerprint := ci_fingerprint (preference_identity d) in
            bool_decide (jget_or_null "state" marker = JStr "current_choice_unresolved")
            && bool_decide (jget_or_null "fingerprint" marker = JStr fingerprint)
            && bool_decide (fingerprint = c_claim_fingerprint ledger)
            && bool_decide (c_active_memory_id ledger = Some (m_id memory))
            && bool_decide (c_active_value ledger = Some (pc_value d))
            && bool_decide (m_proxy_user_id memory = c_proxy_user_id ledger)
        | _, _ => false
        end).

(** [generation] is the fresh UUID.  [None]: the old state is no dictionary, or
    a hold has neither a declaration nor an operation key. *)
Definition set_choice_state (memory : Memory) (ledger : MemoryClaim) (unresolved : bool)
    (declaration : option PreferenceClaimRequest) (operation_key : option string) (generation : uuid)
    (now : datetime) : option (Memory * MemoryClaim) :=
  previous ← dict_or_empty (jget_or_null CHOICE_STATE_MARKER (m_metadata_json memory));
  evidence_key ←
    if unresolved then match operation_key with
                       | Some (String c s) => Some (JStr (String c s))
                       | _ => d ← declaration; Some (JStr (choice_evidence_key d))
                       end
    else Some (jget_or_null "evidence_key" previous);
  let state :=
    [("state", JStr (if unresolved then "current_choice_unresolved" else "current"));
     ("fingerprint", JStr (c_claim_fingerprint ledger));
     ("generation", JStr (uuid_str generation));
     ("evidence_key", evidence_key)]
    ++ match operation_key with Some (String c s) => [("operation_key", JStr (String c s))] | _ => [] end in
  Some (memory <| m_metadata_json ::= jset CHOICE_STATE_MARKER (JObj state) |>,
        (ledger <| c_status := if unresolved then ClaimStatus.disputed else ClaimStatus.active |>)
          <| c_updated_at := now |>).

Definition current_target (memory : Memory) (now : datetime) : bool :=
  negb (m_is_archived memory)
  && ends_after (m_expires_at memory) now && ends_after (m_effective_until memory) now
  && starts_by (m_effective_from memory) now.

(** [authority_priority((memory.metadata_json or {}).get("provenance"), "preference")] *)
Definition stored_authority (memory : Memory) : option Z :=
  match provenance_of memory with
  | JObj p => authority_priority (Some p) "preference"
  | v => if truthy v then None else authority_priority None "preference"
  end.

(** What a declaration may do to the ledger entry of its identity. *)
Definition transition_reason (declaration : PreferenceClaimRequest) (ledger : option MemoryClaim)
    (target : option Memory) (now : datetime) : option string :=
  let holds_current := bool_decide (pc_choice_state declaration = ChoiceState.current_choice_unresolved) in
  let replacing := bool_decide (pc_commitment declaration = Commitment.replacement) in
  if bool_decide (pa_kind (pc_applicability declaration) = ApplicabilityKind.unresolved)
     || bool_decide (pc_commitment declaration = Commitment.uncertain) && negb holds_current
  then Some "preference_requires_review"
  else match ledger with
  | None => Some "preference_target_stale"
  | Some ledger =>
      match c_active_memory_id ledger with
      | None => Some (if replacing || holds_current then "preference_target_stale" else "NEW")
      | Some active =>
          match target with
          | None => Some "preference_target_stale"
          | Some target =>
              if negb (bool_decide (m_id target = active)) then Some "preference_target_stale"
              else
                stored ← preference_declaration (provenance_of target);
                match stored with
                | None => Some "preference_identity_mismatch"
                | Some stored =>
                    if negb (bool_decide (ci_fingerprint (preference_identity stored)
                                          = ci_fingerprint (preference_identity declaration)))
                    then Some "preference_identity_mismatch"
                    else
                      holding ← held_choice target ledger;
                      let status := c_status ledger in
                      if negb (bool_decide (status ∈ [ClaimStatus.active; ClaimStatus.archived]))
                         && negb (bool_decide (status = ClaimStatus.disputed) && holding)
                         || negb (bool_decide (c_active_value ledger = Some (pc_value stored)))
                         || bool_decide (status = ClaimStatus.archived) && negb (m_is_archived target)
                      then Some "preference_ledger_inconsistent"
                      else if replacing || holds_current then
                        if negb (bool_decide (pc_replaces_memory_id declaration = Some (m_id target)))
                           || negb (bool_decide (pc_replaces_version declaration = Some (target_version target)))
                        then Some "preference_target_stale"
                        else if (20 <? c_authority_priority ledger)%Z
                        then Some "preference_authority_insufficient"
                        else
                          stored_priority ← stored_authority target;
                          Some (if (20 <? stored_priority)%Z then "preference_authority_insufficient"
                          else if holds_current
                          then if current_target target now then "WITHHOLD" else "preference_target_stale"
                          else if holding && current_target target now
                                  && bool_decide (pc_value stored = pc_value declaration) then "REAFFIRM"
                          else if holding && negb (current_target target now) then "UPDATE"
                          else if m_is_archived target || negb (bool_decide (pc_value stored = pc_value declaration))
                          then "UPDATE" else "DEDUP")
                      else Some (if holding then "preference_requires_review"
                                 else if m_is_archived target then "preference_target_stale"
                                 else if bool_decide (pc_value stored = pc_value declaration) then "DEDUP"
                                 else "preference_conflict")
                end
          end
      end
  end.

(** Response-only version. *)
Definition preference_provenance (memory : Memory) : option json :=
  let provenance := provenance_of memory in
  match provenance with
  | JNull => Some JNull
  | _ =>
      declaration ← preference_declaration provenance;
      match declaration, provenance with
      | Some _, JObj p => Some (JObj (jset "preference_version" (JStr (target_version memory)) p))
      | _, _ => Some provenance
      end
  end.
End Claims.
