(* ===== verification/PreferenceClaimTheorems.v ===== *)
(** * Declared preferences: theorems

    A declaration moves a preference only by naming the version it saw; a hold
    is visible to every reader and invalidates all versions named before it. *)

From S2P Require Export PreferenceClaims.

(** ** Sorted objects keep their entries *)

Definition keys {A} (o : list (string * A)) : list string := fst <$> o.

Lemma jget_elem k v o : jget k o = Some v -> (k, v) ∈ o.
Proof.
  induction o as [|[k' v'] o IH]; simpl; [done|].
  case_bool_decide; intros; simplify_eq; [apply list_elem_of_here|]. by apply list_elem_of_further, IH.
Qed.

Lemma elem_jget k v o : NoDup (keys o) -> (k, v) ∈ o -> jget k o = Some v.
Proof.
  induction o as [|[k' v'] o IH]; intros Hnd Hin; [by apply elem_of_nil in Hin|].
  apply NoDup_cons in Hnd as [Hk Hnd]. simpl.
  apply elem_of_cons in Hin as [[= -> ->]|Hin]; [by rewrite bool_decide_true|].
  rewrite bool_decide_false; [by apply IH|].
  intros ->. apply Hk. by apply (list_elem_of_fmap_2 fst) in Hin.
Qed.

Definition sorted_items (o : obj) : obj := map (fun kx => (kx.1, json_sorted kx.2)) o.

Lemma keys_sorted_items o : keys (sorted_items o) = keys o.
Proof. induction o as [|[k v] o IH]; [done|]. unfold keys, sorted_items in *. simpl. by f_equal. Qed.

Lemma jget_sorted_items k o : jget k (sorted_items o) = json_sorted <$> jget k o.
Proof. induction o as [|[k' v] o IH]; [done|]. simpl. by case_bool_decide. Qed.

(** Objects of equal canonical form agree, up to it, under every key. *)
Lemma json_sorted_get o1 o2 k :
  NoDup (keys o1) -> NoDup (keys o2) -> json_sorted (JObj o1) = json_sorted (JObj o2) ->
  json_sorted <$> jget k o1 = json_sorted <$> jget k o2.
Proof.
  intros Hn1 Hn2 [= Heq]. unfold sort_items in Heq.
  assert (sorted_items o1 ≡ₚ sorted_items o2) as Hp.
  { rewrite <- (sort_by_perm (fun a b => py_string_le a.1 b.1) (sorted_items o1)).
    rewrite <- (sort_by_perm (fun a b => py_string_le a.1 b.1) (sorted_items o2)).
    unfold sorted_items. by rewrite Heq. }
  rewrite <- !jget_sorted_items.
  apply option_eq. intros v. rewrite <- keys_sorted_items in Hn1, Hn2. split; intros Hv;
    apply elem_jget; try done; apply jget_elem in Hv; [by rewrite <- Hp|by rewrite Hp].
Qed.

Lemma keys_jset k v o : keys (jset k v o) = if decide (k ∈ keys o) then keys o else keys o ++ [k].
Proof.
  unfold keys. induction o as [|[k' v'] o IH]; [done|].
  cbn [jset]. destruct (bool_decide_reflect (k = k')) as [->|Hne]; rewrite !fmap_cons; cbn [fst].
  - by rewrite decide_True by (apply list_elem_of_here).
  - rewrite IH. destruct (decide (k ∈ o.*1)).
    + rewrite decide_True; [done|by apply list_elem_of_further].
    + rewrite decide_False; [done|]. by intros [->|]%elem_of_cons.
Qed.

Lemma NoDup_keys_jset k v o : NoDup (keys o) -> NoDup (keys (jset k v o)).
Proof.
  intros Hn. rewrite keys_jset. case_decide; [done|].
  apply NoDup_app. split; [done|]. split; [|apply NoDup_singleton].
  intros x Hx ->%list_elem_of_singleton. done.
Qed.

Lemma json_sorted_str v s : json_sorted v = JStr s -> v = JStr s.
Proof. by destruct v. Qed.

Lemma json_sorted_obj v o : json_sorted v = json_sorted (JObj o) -> exists o', v = JObj o'.
Proof. destruct v; try done. by eexists. Qed.

(** ** Stripped strings *)

Lemma append_cons c (s t : string) : String c s +:+ t = String c (s +:+ t).
Proof. done. Qed.
Lemma append_assoc_str (s t u : string) : (s +:+ t) +:+ u = s +:+ (t +:+ u).
Proof. induction s as [|c s IH]; [done|]. by rewrite !append_cons, IH. Qed.
Lemma append_nil_str (s : string) : s +:+ "" = s.
Proof. induction s as [|c s IH]; [done|]. by rewrite !append_cons, IH. Qed.
Lemma length_append_str (s t : string) : String.length (s +:+ t) = (String.length s + String.length t)%nat.
Proof. induction s as [|c s IH]; [done|]. rewrite append_cons. cbn [String.length Nat.add]. by rewrite IH. Qed.

Lemma rev_onto_app s acc : rev_onto s acc = py_rev s +:+ acc.
Proof.
  revert acc. unfold py_rev. induction s as [|c s IH]; intros acc; simpl; [done|].
  rewrite IH, (IH (String c "")). by rewrite append_assoc_str.
Qed.
Lemma py_rev_cons c s : py_rev (String c s) = py_rev s +:+ String c "".
Proof. exact (rev_onto_app s (String c "")). Qed.
Lemma py_rev_app s t : py_rev (s +:+ t) = py_rev t +:+ py_rev s.
Proof.
  induction s as [|c s IH]; [by rewrite append_nil_str|].
  by rewrite append_cons, !py_rev_cons, IH, append_assoc_str.
Qed.
Lemma py_rev_involutive s : py_rev (py_rev s) = s.
Proof. induction s as [|c s IH]; [done|]. by rewrite py_rev_cons, py_rev_app, IH. Qed.

Lemma drop_while_idem p s : drop_while p (drop_while p s) = drop_while p s.
Proof. induction s as [|c s IH]; simpl; [done|]. destruct (p c) eqn:Hc; simpl; [done|]. by rewrite Hc. Qed.
Lemma drop_while_suffix p s : exists pre, s = pre +:+ drop_while p s.
Proof.
  induction s as [|c s [pre IH]]; [by exists ""|]. simpl.
  destruct (p c); [exists (String c pre); rewrite append_cons; by f_equal|by exists ""].
Qed.

(** Dropping at the end keeps the beginning. *)
Lemma drop_while_end_kept p s : drop_while p s = s -> drop_while p (drop_while_end p s) = drop_while_end p s.
Proof.
  intros Hs. destruct (drop_while_suffix p (py_rev s)) as [pre Hpre].
  apply (f_equal py_rev) in Hpre. rewrite py_rev_involutive, py_rev_app in Hpre.
  change (py_rev (drop_while p (py_rev s))) with (drop_while_end p s) in Hpre.
  destruct (drop_while_end p s) as [|c u]; [done|]. rewrite Hpre, append_cons in Hs. cbn [drop_while] in Hs |- *.
  destruct (p c) eqn:Hc; [|done]. exfalso.
  destruct (drop_while_suffix p (u +:+ py_rev pre)) as [pre' Hlen]. rewrite Hs in Hlen.
  apply (f_equal String.length) in Hlen. rewrite !length_append_str in Hlen. cbn [String.length] in Hlen. rewrite length_append_str in Hlen; lia.
Qed.

Lemma strip_whitespace_idem s : strip_whitespace (strip_whitespace s) = strip_whitespace s.
Proof.
  unfold strip_whitespace. rewrite (drop_while_end_kept strips (drop_while strips s)) by apply drop_while_idem.
  unfold drop_while_end. by rewrite py_rev_involutive, drop_while_idem.
Qed.

(** ** Transitions *)

(** The transitions that change a preference that is already displayed. *)
Definition changes_current : list string := ["WITHHOLD"; "REAFFIRM"; "UPDATE"].

(** A result that changes nothing; a test of [transition_reason]. *)
Ltac refused Hr Hin :=
  exfalso; injection Hr as Hr; rewrite <- Hr in Hin; revert Hin; refine (bool_decide_eq_false_1 _ _); reflexivity.
Ltac peel Hr Hin :=
  match type of Hr with
  | (if ?b then _ else _) = _ => destruct b eqn:?; [try (refused Hr Hin)|try (refused Hr Hin)]
  | Some (if ?b then _ else _) = _ => destruct b eqn:?
  end.

Section Theorems.
Context `{PyLib} `{Hashing}.

(** What [transition_reason] has checked of the entry and the memory. *)
Record bound_transition (d stored : PreferenceClaimRequest) (c : MemoryClaim) (m : Memory) : Prop := {
  bt_stored : preference_declaration (provenance_of m) = Some (Some stored);
  bt_identity : ci_fingerprint (preference_identity stored) = ci_fingerprint (preference_identity d);
  bt_displayed : c_active_memory_id c = Some (m_id m);
  bt_value : c_active_value c = Some (pc_value stored);
  bt_memory : pc_replaces_memory_id d = Some (m_id m);
  bt_version : pc_replaces_version d = Some (target_version m);
  bt_authority : (c_authority_priority c <= 20)%Z;
}.

Definition warranted (d stored : PreferenceClaimRequest) (c : MemoryClaim) (m : Memory) (now : datetime)
    (r : string) : Prop :=
  (r = "WITHHOLD" -> current_target m now = true
                     /\ pc_choice_state d = ChoiceState.current_choice_unresolved) /\
  (r = "REAFFIRM" -> held_choice m c = Some true /\ pc_value stored = pc_value d
                     /\ current_target m now = true).

Lemma transition_bound d ledger target now r :
  transition_reason d ledger target now = Some r -> r ∈ changes_current ->
  exists c m stored, ledger = Some c /\ target = Some m /\ bound_transition d stored c m
    /\ warranted d stored c m now r.
Proof.
  unfold transition_reason. intros Hr Hin.
  peel Hr Hin. destruct ledger as [c|]; [|refused Hr Hin].
  destruct (c_active_memory_id c) as [active|] eqn:Hactive; [|peel Hr Hin; refused Hr Hin].
  destruct target as [m|]; [|refused Hr Hin].
  destruct (bool_decide_reflect (m_id m = active)) as [<-|]; cbn [mbind option_bind negb orb] in Hr; [|refused Hr Hin].
  destruct (preference_declaration (provenance_of m)) as [[stored|]|] eqn:Hstored; cbn [mbind option_bind negb orb] in Hr;
    [|refused Hr Hin|done].
  destruct (bool_decide_reflect (ci_fingerprint (preference_identity stored)
    = ci_fingerprint (preference_identity d))) as [Hid|]; cbn [mbind option_bind negb orb] in Hr; [|refused Hr Hin].
  destruct (held_choice m c) as [holding|] eqn:Hheld; cbn [mbind option_bind negb orb] in Hr; [|done].
  destruct (bool_decide_reflect (c_active_value c = Some (pc_value stored))) as [Hvalue|]; cbn [mbind option_bind negb orb] in Hr;
    rewrite ?orb_true_r in Hr; [|refused Hr Hin].
  peel Hr Hin. peel Hr Hin; [|by injection Hr as <-; repeat case_match; simpl in Hin; set_solver].
  destruct (bool_decide_reflect (pc_replaces_memory_id d = Some (m_id m))) as [Hmem|]; cbn [mbind option_bind negb orb] in Hr;
    [|refused Hr Hin].
  destruct (bool_decide_reflect (pc_replaces_version d = Some (target_version m))) as [Hver|]; cbn [mbind option_bind negb orb] in Hr;
    [|refused Hr Hin].
  destruct (Z.ltb_spec 20 (c_authority_priority c)); [refused Hr Hin|].
  destruct (stored_authority m) as [p|]; cbn [mbind option_bind negb orb] in Hr; [|done].
  exists c, m, stored. split; [done|]. split; [done|]. split; [by split|].
  split; intros ->; destruct (20 <? p)%Z; try done;
    destruct (bool_decide_reflect (pc_choice_state d = ChoiceState.current_choice_unresolved));
    destruct holding, (current_target m now), (bool_decide_reflect (pc_value stored = pc_value d)),
      (m_is_archived m); cbn [mbind option_bind negb orb] in Hr; try done; by split_and?.
Qed.

(** A declaration changes a displayed preference — withholds, reaffirms or
    replaces it — only if it names the memory the claim displays in exactly its
    current version, has the same property and applicability, the ledger value
    is the declared one, and neither the claim nor the memory's source ranks
    above an application's assertion.  Withholding needs a target in force, and
    only a held choice for the same value is reaffirmed. *)
Theorem transitions_bind_the_current_version d ledger target now r :
  transition_reason d ledger target now = Some r -> r ∈ changes_current ->
  exists c m stored, ledger = Some c /\ target = Some m /\ bound_transition d stored c m
    /\ warranted d stored c m now r.
Proof. apply transition_bound. Qed.

(** ** Holds *)

(** The claim displays the declared preference of the memory. *)
Record displays (c : MemoryClaim) (m : Memory) (stored : PreferenceClaimRequest) : Prop := {
  dp_stored : preference_declaration (provenance_of m) = Some (Some stored);
  dp_fingerprint : c_claim_fingerprint c = ci_fingerprint (preference_identity stored);
  dp_memory : c_active_memory_id c = Some (m_id m);
  dp_value : c_active_value c = Some (pc_value stored);
  dp_owner : m_proxy_user_id m = c_proxy_user_id c;
}.

(** The fresh UUID is not the one of the present mark; a dictionary has a key once. *)
Definition fresh_generation (m : Memory) (generation : uuid) : Prop :=
  NoDup (keys (m_metadata_json m)) /\
  forall o, jget CHOICE_STATE_MARKER (m_metadata_json m) = Some (JObj o) ->
    NoDup (keys o) /\ jget "generation" o <> Some (JStr (uuid_str generation)).

Lemma jget_or_null_jset_eq k v o : jget_or_null k (jset k v o) = v.
Proof. unfold jget_or_null. by rewrite jget_jset_eq. Qed.

Lemma provenance_of_marked m state :
  provenance_of (m <| m_metadata_json ::= jset CHOICE_STATE_MARKER state |>) = provenance_of m.
Proof. unfold provenance_of, jget_or_null. cbn. by rewrite jget_jset_ne. Qed.

Lemma set_choice_state_inv m c unresolved d op generation now m' c' :
  set_choice_state m c unresolved d op generation now = Some (m', c') ->
  exists o, m' = m <| m_metadata_json ::= jset CHOICE_STATE_MARKER (JObj o) |>
    /\ jget "state" o = Some (JStr (if unresolved then "current_choice_unresolved" else "current"))
    /\ jget "fingerprint" o = Some (JStr (c_claim_fingerprint c))
    /\ jget "generation" o = Some (JStr (uuid_str generation))
    /\ NoDup (keys o)
    /\ c' = (c <| c_status := if unresolved then ClaimStatus.disputed else ClaimStatus.active |>)
              <| c_updated_at := now |>.
Proof.
  unfold set_choice_state. intros Hset.
  apply bind_Some in Hset as (previous & _ & Hset). apply bind_Some in Hset as (evidence & _ & Hset).
  injection Hset as <- <-. eexists. split; [done|]. do 3 (split; [done|]). split; [|done].
  destruct op as [[|ch s]|]; refine (bool_decide_unpack _ _); reflexivity.
Qed.

Lemma held_after_set m c unresolved d op generation now m' c' stored :
  displays c m stored -> set_choice_state m c unresolved d op generation now = Some (m', c') ->
  held_choice m' c' = Some unresolved.
Proof.
  intros [Hst Hfp Hmem Hval Hown] (o & -> & Hs & Hf & _ & _ & ->)%set_choice_state_inv.
  unfold held_choice. rewrite provenance_of_marked, Hst. cbn [m_metadata_json mbind option_bind].
  cbn -[CHOICE_STATE_MARKER jget_or_null preference_identity].
  rewrite jget_or_null_jset_eq. unfold jget_or_null. rewrite Hs, Hf. cbn -[preference_identity].
  rewrite Hfp, Hmem, Hval, Hown. f_equal.
  destruct unresolved; [by rewrite !bool_decide_true|by rewrite bool_decide_false].
Qed.

Definition collision_free : Prop :=
  forall style v w, sha256_json style v = sha256_json style w -> v = w.

Lemma marked_version_differs m c unresolved d op generation now m' c' :
  collision_free -> fresh_generation m generation ->
  set_choice_state m c unresolved d op generation now = Some (m', c') ->
  target_version m' <> target_version m.
Proof.
  intros Hcf [Hnd Hfresh] (o & -> & _ & _ & Hg & Hno & _)%set_choice_state_inv Hv.
  apply Hcf in Hv.
  apply (json_sorted_get _ _ "metadata_json") in Hv;
    [|refine (bool_decide_unpack _ _); reflexivity..].
  cbn -[json_sorted jset CHOICE_STATE_MARKER] in Hv. apply Some_inj in Hv.
  apply (json_sorted_get _ _ CHOICE_STATE_MARKER) in Hv; [|by apply NoDup_keys_jset|done].
  rewrite jget_jset_eq in Hv. symmetry in Hv. apply fmap_Some in Hv as (v & Hv & Hw).
  symmetry in Hw. destruct (json_sorted_obj _ _ Hw) as [o' ->].
  destruct (Hfresh o' Hv) as [Hno' Hne].
  apply (json_sorted_get _ _ "generation") in Hw; [|done..]. rewrite Hg in Hw.
  apply fmap_Some in Hw as (w & Hw & Hws). symmetry in Hws.
  apply json_sorted_str in Hws as ->. done.
Qed.

(** C27: Marking a displayed preference as unresolved (or as settled again) makes
    every reader see the barrier raised (or lifted), and outdates every
    declaration made before: whatever names the version the memory had can no
    longer withhold, reaffirm or replace it, at any later time. *)
Theorem choice_mark_outdates_earlier_declarations m c stored unresolved d op generation now m' c' :
  collision_free -> displays c m stored -> fresh_generation m generation ->
  set_choice_state m c unresolved d op generation now = Some (m', c') ->
  held_choice m' c' = Some unresolved /\
  forall d' later r, pc_replaces_version d' = Some (target_version m) ->
    transition_reason d' (Some c') (Some m') later = Some r -> r ∉ changes_current.
Proof.
  intros Hcf Hdisp Hfresh Hset. split; [by eapply held_after_set|].
  intros d' later r Hver Hr Hin.
  destruct (transition_bound _ _ _ _ _ Hr Hin) as (c2 & m2 & st & [= <-] & [= <-] & [] & _).
  eapply marked_version_differs; [done..|]. congruence.
Qed.
End Theorems.

(** ** Stored declarations *)

Section Stored.
Context `{PyLib}.

Lemma require_Some (b : bool) x : require b = Some x -> b = true.
Proof. by destruct b. Qed.

(** A validator that accepts the string it returns. *)
Definition stable (f : json -> option string) : Prop := forall v s, f v = Some s -> f (JStr s) = Some s.

Lemma PropertyKey_stable : stable PropertyKey.
Proof.
  intros v s. unfold PropertyKey. intros (s' & _ & Hs)%bind_Some. apply bind_Some in Hs as ([] & Hok & [= ->]).
  cbn. by rewrite Hok.
Qed.
Lemma Version_stable : stable Version.
Proof.
  intros v s. unfold Version. intros (s' & _ & Hs)%bind_Some. apply bind_Some in Hs as ([] & Hok & [= ->]).
  cbn [as_string mbind option_bind]. by rewrite Hok.
Qed.
Lemma stripped_string_stable hi : stable (stripped_string hi).
Proof.
  intros v s. unfold stripped_string. intros (s' & _ & Hs)%bind_Some. apply bind_Some in Hs as ([] & Hok & [= <-]).
  cbn [as_string mbind option_bind]. rewrite strip_whitespace_idem. by rewrite Hok.
Qed.
Lemma as_string_stable : stable as_string.
Proof. by intros v s _. Qed.

Lemma optional_field_stable f k o x :
  stable f -> optional_field f k o = Some x -> forall s, x = Some s -> f (JStr s) = Some s.
Proof.
  intros Hf Hx s ->. unfold optional_field in Hx.
  destruct (jget_or_null k o); [done|..]; apply fmap_Some in Hx as (s' & Hs & [= ->]); by eapply Hf.
Qed.

(** A field that was dumped only when present. *)
Lemma optional_field_read {A} (f : json -> option A) k o (x : option A) (dump : A -> string) :
  (forall a, x = Some a -> f (JStr (dump a)) = Some a) -> jget_or_null k o = opt_json (JStr ∘ dump) x ->
  optional_field f k o = Some x.
Proof. intros Hf Ho. unfold optional_field. rewrite Ho. destruct x as [a|]; [|done]. simpl. by rewrite Hf. Qed.

(** A validated applicability is read back from its dump. *)
Lemma applicability_read v a :
  validate_applicability v = Some a -> validate_applicability (JObj (dump_applicability a)) = Some a.
Proof.
  unfold validate_applicability at 1. intros Ha.
  apply bind_Some in Ha as (o & _ & Ha). apply bind_Some in Ha as ([] & _ & Ha).
  apply bind_Some in Ha as (kind & _ & Ha). apply bind_Some in Ha as (namespace & Hns & Ha).
  apply bind_Some in Ha as (key & Hkey & Ha). apply bind_Some in Ha as ([] & Hctx & [= <-]).
  pose proof (optional_field_stable _ _ _ _ PropertyKey_stable Hns) as Hns'.
  pose proof (optional_field_stable _ _ _ _ (stripped_string_stable 128) Hkey) as Hkey'.
  set (a := {| pa_kind := kind; pa_namespace := namespace; pa_key := key |}).
  assert (closed ["kind"; "namespace"; "key"] (dump_applicability a) = true) as Hclosed by by destruct namespace, key.
  assert (jget "kind" (dump_applicability a) ≫= kind_of_value = Some kind) as Hkind by by destruct kind.
  unfold validate_applicability. cbn [as_object mbind option_bind]. unfold mbind, option_bind in Hkind |- *.
  rewrite Hclosed, Hkind. cbn [require].
  rewrite (optional_field_read PropertyKey "namespace" _ namespace Datatypes.id),
    (optional_field_read (stripped_string 128) "key" _ key Datatypes.id);
    [by rewrite Hctx|done|by destruct namespace, key|done|by destruct namespace, key].
Qed.

(** The text of a validated target identifier validates to the same. *)
Definition canonical_uuids : Prop :=
  forall v u, target_id v = Some u -> target_id (JStr (uuid_str u)) = Some u.

Lemma commitment_read c : commitment_of_value (JStr (commitment_value c)) = Some c.
Proof. by destruct c. Qed.
Lemma choice_state_read c : choice_state_of_value (JStr (choice_state_value c)) = Some c.
Proof. by destruct c. Qed.

Lemma target_field_read k o x :
  canonical_uuids -> optional_field target_id k o = Some x ->
  forall u, x = Some u -> target_id (JStr (uuid_str u)) = Some u.
Proof.
  intros Hcanon Hx u ->. unfold optional_field in Hx.
  destruct (jget_or_null k o); [done|..]; apply fmap_Some in Hx as (u' & Hu & [= ->]); by eapply Hcanon.
Qed.

Lemma claim_request_read v d :
  canonical_uuids -> validate_claim_request v = Some d -> validate_claim_request (JObj (dump_claim_request d)) = Some d.
Proof.
  intros Hcanon. unfold validate_claim_request at 1. intros Hd.
  apply bind_Some in Hd as (o & _ & Hd). apply bind_Some in Hd as ([] & _ & Hd).
  apply bind_Some in Hd as (key & (kv & _ & Hkey%PropertyKey_stable)%bind_Some & Hd).
  apply bind_Some in Hd as (value & (vv & _ & Hvalue%stripped_string_stable)%bind_Some & Hd).
  apply bind_Some in Hd as (a & (av & _ & Happ%applicability_read)%bind_Some & Hd).
  apply bind_Some in Hd as (turn & (tv & _ & Hturn)%bind_Some & Hd).
  assert (strict_int_between 0 63 (JInt turn) = Some turn) as Hturn'.
  { destruct tv; try done. unfold strict_int_between in Hturn |- *.
    apply bind_Some in Hturn as ([] & Hb & [= ->]). by rewrite Hb. }
  apply bind_Some in Hd as (quote & _ & Hd). apply bind_Some in Hd as ([] & Hquote & Hd).
  apply bind_Some in Hd as (commitment & _ & Hd). apply bind_Some in Hd as (choice & _ & Hd).
  apply bind_Some in Hd as (target & Htarget & Hd). apply bind_Some in Hd as (version & Hversion & Hd).
  apply bind_Some in Hd as ([] & Hreplace & [= <-]).
  pose proof (target_field_read _ _ _ Hcanon Htarget) as Htarget'.
  pose proof (optional_field_stable _ _ _ _ Version_stable Hversion) as Hversion'.
  clear Htarget Hversion Hturn.
  set (d := {| pc_property_key := key; pc_value := value; pc_applicability := a; pc_turn_index := turn;
               pc_quote := quote; pc_commitment := commitment; pc_choice_state := choice;
               pc_replaces_memory_id := target; pc_replaces_version := version |}) in *.
  assert (closed claim_request_fields (dump_claim_request d) = true) as Hclosed by by destruct target, version.
  unfold validate_claim_request. cbn [as_object mbind option_bind]. unfold mbind, option_bind.
  rewrite Hclosed. cbn [require].
  change (jget "property_key" (dump_claim_request d)) with (Some (JStr key)). cbn beta iota. rewrite Hkey.
  change (jget "value" (dump_claim_request d)) with (Some (JStr value)). cbn beta iota. rewrite Hvalue.
  change (jget "applicability" (dump_claim_request d)) with (Some (JObj (dump_applicability a))). cbn beta iota. rewrite Happ.
  change (jget "turn_index" (dump_claim_request d)) with (Some (JInt turn)). cbn beta iota. rewrite Hturn'.
  change (jget "quote" (dump_claim_request d)) with (Some (JStr quote)). cbn [as_string]. rewrite Hquote.
  change (jget "commitment" (dump_claim_request d)) with (Some (JStr (commitment_value commitment))).
  change (jget "choice_state" (dump_claim_request d)) with (Some (JStr (choice_state_value choice))).
  cbn [default Datatypes.id]. rewrite commitment_read, choice_state_read.
  rewrite (optional_field_read target_id "replaces_memory_id" _ target uuid_str),
    (optional_field_read Version "replaces_version" _ version Datatypes.id);
    [|done|by destruct target, version|done|by destruct target, version].
  change (match require (validate_replacement d) with Some _ => Some d | None => None end = Some d). by rewrite Hreplace.
Qed.

Lemma get_or_empty_object k o v : jget k o = Some v -> get_or_empty k (JObj o) = Some v.
Proof. intros Ho. unfold get_or_empty, jget_or_null. rewrite Ho. by destruct o. Qed.

(** C39: A declaration that was validated once and stored as the evidence of a
    memory is read back as it was by every later reader: keys, stripped value,
    applicability, quote, defaults and target survive the dump. *)
Theorem stored_declaration_round_trip v d evidence provenance :
  canonical_uuids -> validate_claim_request v = Some d ->
  jget PREFERENCE_MARKER evidence = Some (JObj (dump_claim_request d)) ->
  jget "extraction_evidence" provenance = Some (JObj evidence) ->
  preference_declaration (JObj provenance) = Some (Some d).
Proof.
  intros Hcanon Hd Hmark Hev.
  assert (validate_claim_request (JObj (dump_claim_request d)) = Some d) as Hread by by eapply claim_request_read.
  unfold preference_declaration. rewrite (get_or_empty_object _ _ _ Hev). cbn [mbind option_bind].
  rewrite (get_or_empty_object _ _ _ Hmark). cbn [mbind option_bind]. by rewrite Hread.
Qed.
End Stored.

(** ** A concrete hash without collisions *)

Abbreviation json_leaf := (bool + (Z + (Q + string)))%type.

Fixpoint json_tree (v : json) : gen_tree json_leaf :=
  match v with
  | JNull => GenNode 0 []
  | JBool b => GenNode 1 [GenLeaf (inl b)]
  | JInt z => GenNode 2 [GenLeaf (inr (inl z))]
  | JFloat q => GenNode 3 [GenLeaf (inr (inr (inl q)))]
  | JStr s => GenNode 4 [GenLeaf (inr (inr (inr s)))]
  | JDate t => GenNode 5 [GenLeaf (inr (inl t))]
  | JArr l => GenNode 6 (map json_tree l)
  | JObj kv => GenNode 7 (map (fun kx => GenNode 8 [GenLeaf (inr (inr (inr kx.1))); json_tree kx.2]) kv)
  end.

Fixpoint json_tree_inj (v w : json) {struct v} : json_tree v = json_tree w -> v = w.
Proof.
  destruct v, w; try discriminate; intros Heq; try (by simplify_eq/=); injection Heq as Heq.
  - f_equal. revert l0 Heq. induction l as [|v l IH]; intros [|w l0] Heq; simplify_eq/=; [done|].
    f_equal; [by apply json_tree_inj|by apply IH].
  - f_equal. revert kv0 Heq. induction kv as [|[k v] kv IH]; intros [|[k0 w] kv0] Heq; simplify_eq/=; [done|].
    f_equal; [|by apply IH]. f_equal. by apply json_tree_inj.
Qed.

#[export] Instance Q_countable : Countable Q.
Proof.
  apply (inj_countable' (fun q => (Qnum q, Qden q)) (fun p => (p.1 # p.2)%Q)). by intros [].
Defined.

Fixpoint bits (p : positive) : string :=
  match p with xH => EmptyString | xO p => String "0" (bits p) | xI p => String "1" (bits p) end.
Lemma bits_inj p q : bits p = bits q -> p = q.
Proof. revert q. induction p; intros []; simpl; intros [=]; f_equal; auto. Qed.

Definition example_hashing : Hashing := {| sha256_json _ v := bits (encode (json_tree v)) |}.

Lemma example_hashing_collision_free : @collision_free example_hashing.
Proof. intros style v w Hvw%bits_inj%(inj encode). by apply json_tree_inj. Qed.

(** ** Witnesses *)

Definition ex_scope : PreferenceApplicability :=
  {| pa_kind := ApplicabilityKind.global; pa_namespace := None; pa_key := None |}.
Definition ex_declared (value : string) : PreferenceClaimRequest :=
  {| pc_property_key := "editor"; pc_value := value; pc_applicability := ex_scope; pc_turn_index := 0;
     pc_quote := "I use " +:+ value; pc_commitment := Commitment.asserted;
     pc_choice_state := ChoiceState.candidate_only; pc_replaces_memory_id := None;
     pc_replaces_version := None |}.
Definition ex_metadata : obj :=
  [("provenance", JObj [("extraction_evidence",
     JObj [(PREFERENCE_MARKER, JObj (@dump_claim_request example_pylib (ex_declared "vim")))]);
     ("authority_rules", JObj [("default_priority", JInt 20)])])].
Definition ex_pref_memory : Memory :=
  {| m_id := 7; m_user_id := 1; m_proxy_user_id := 2; m_agent_id := None; m_content := "I use vim";
     m_category := MemoryCategory.preference; m_importance_score := 5; m_confidence_score := 1 # 2;
     m_embedding_model_id := "m"; m_created_at := 0; m_updated_at := 0; m_last_accessed_at := None;
     m_access_count := 0; m_expires_at := None; m_effective_from := None; m_effective_until := None;
     m_previous_version_id := None; m_source_event_id := None; m_metadata_json := ex_metadata;
     m_is_archived := false |}.
Definition ex_pref_claim : MemoryClaim :=
  {| c_id := 3; c_tenant_id := 1; c_proxy_user_id := 2; c_category := MemoryCategory.preference;
     c_claim_fingerprint := @ci_fingerprint (@preference_identity example_pylib (ex_declared "vim"));
     c_subject_key := "user"; c_predicate_key := "explicit_preference_v1.editor";
     c_scope := dump_applicability ex_scope; c_active_value := Some "vim"; c_status := ClaimStatus.active;
     c_active_memory_id := Some 7%Z; c_winning_revision_id := Some 9%Z; c_authority_priority := 20;
     c_confidence_score := 1 # 2; c_observed_at := None; c_effective_at := 0; c_updated_at := 0 |}.
Definition ex_doubt : PreferenceClaimRequest :=
  {| pc_property_key := "editor"; pc_value := "emacs"; pc_applicability := ex_scope; pc_turn_index := 1;
     pc_quote := "maybe emacs"; pc_commitment := Commitment.uncertain;
     pc_choice_state := ChoiceState.current_choice_unresolved; pc_replaces_memory_id := Some 7%Z;
     pc_replaces_version := Some (@target_version example_pylib example_hashing ex_pref_memory) |}.

Lemma transitions_bind_the_current_version_witness :
  exists c m stored, Some ex_pref_claim = Some c /\ Some ex_pref_memory = Some m
    /\ @bound_transition example_pylib example_hashing ex_doubt stored c m
    /\ @warranted example_pylib ex_doubt stored c m 5 "WITHHOLD".
Proof.
  apply (@transitions_bind_the_current_version example_pylib example_hashing ex_doubt
           (Some ex_pref_claim) (Some ex_pref_memory) 5%Z "WITHHOLD").
  - vm_compute. reflexivity.
  - apply list_elem_of_here.
Defined.

Lemma choice_mark_outdates_earlier_declarations_witness :
  exists m' c', @held_choice example_pylib m' c' = Some true /\
  forall d' later r,
    pc_replaces_version d' = Some (@target_version example_pylib example_hashing ex_pref_memory) ->
    @transition_reason example_pylib example_hashing d' (Some c') (Some m') later = Some r ->
    r ∉ changes_current.
Proof.
  destruct (@set_choice_state example_pylib example_hashing ex_pref_memory ex_pref_claim true
              (Some ex_doubt) None 77%Z 5%Z) as [[m' c']|] eqn:Hset; [|discriminate Hset].
  exists m', c'.
  apply (@choice_mark_outdates_earlier_declarations example_pylib example_hashing ex_pref_memory
           ex_pref_claim (ex_declared "vim") true (Some ex_doubt) None 77%Z 5%Z m' c');
    [apply example_hashing_collision_free|split; vm_compute; reflexivity| |exact Hset].
  split; [refine (bool_decide_unpack _ _); reflexivity|]. intros o Ho. vm_compute in Ho. discriminate Ho.
Defined.

Lemma unary_canonical_uuids : @canonical_uuids unary_uuids.
Proof.
  intros v u. unfold target_id. intros (s & _ & Hu)%bind_Some.
  apply bind_Some in Hu as ([] & [Hlen%Nat.eqb_eq _]%require_Some%andb_true_iff & Hu).
  cbn [parse_uuid_str unary_uuids] in Hu. destruct s as [|c s]; [done|]. cbn [String.length] in Hlen.
  injection Hlen as Hlen. unfold unary_parse in Hu. rewrite Hlen in Hu.
  destruct (bool_decide (c = "-"%char)); injection Hu as <-; vm_compute; reflexivity.
Qed.

Lemma stored_declaration_round_trip_witness :
  @preference_declaration unary_uuids (provenance_of ex_pref_memory) = Some (Some (ex_declared "vim")).
Proof.
  apply (@stored_declaration_round_trip unary_uuids (JObj (@dump_claim_request unary_uuids (ex_declared "vim")))
           (ex_declared "vim") [(PREFERENCE_MARKER, JObj (@dump_claim_request unary_uuids (ex_declared "vim")))]);
    [exact unary_canonical_uuids|vm_compute; reflexivity..].
Defined.
