(* ===== verification/RuntimeHolds.v ===== *)
(** * Withholding during runtime updates

    While a guarded extraction job is unresolved, reads must not show what it
    may be changing: [read_runtime_hold] of [runtime_withholding.py], the job
    predicates of [runtime_fact_visibility.py], [runtime_preference_routing.py]
    and [retriever.py], and the stored evidence they validate
    ([runtime_preference_footprint.py], [schemas/runtime_target_release.py],
    [schemas/runtime_reconciliation.py]).  Unknown coverage holds everything. *)

From S2P Require Export PreferenceClaims.

(** ** Rows and settings *)

(** The columns of [extraction_jobs] the guarded route reads. *)
Record RuntimeJob := {
  rj_id : uuid;
  rj_tenant_id : uuid;
  rj_proxy_user_id : uuid;
  rj_status : ExtractionJobStatus.t;
  rj_payload_redacted_at : option datetime;
  rj_runtime_route : option string;
  rj_preference_intent_admission : option obj;
  rj_runtime_withholding_footprint : option obj;
  rj_runtime_applied_at : option datetime;
  rj_runtime_hold_released_at : option datetime;
  rj_runtime_visibility_finalized_at : option datetime;
  rj_runtime_residual_hold : option obj;
}.

Record RuntimeJobReconciliation := {
  rr_job_id : uuid;
  rr_tenant_id : uuid;
  rr_proxy_user_id : uuid;
  rr_record_json : obj;
  rr_release_json : option obj;
}.

(** The settings of [api/settings.py] reads depend on. *)
Record ReadSettings := {
  explicit_preference_claims_enabled : bool;
  runtime_preference_discovery_enabled : bool;
  runtime_target_withholding_enabled : bool;
  runtime_target_release_enabled : bool;
  runtime_preference_tenant_ids : string;
}.

(** [s.split(",")] *)
Fixpoint split_commas (cur s : string) : list string :=
  match s with
  | EmptyString => [py_rev cur]
  | String c s => if bool_decide (c = ","%char) then py_rev cur :: split_commas EmptyString s
                  else split_commas (String c cur) s
  end.

Definition isSome {A} (o : option A) : bool := match o with Some _ => true | None => false end.

Section Holds.
Context `{PyLib} `{Hashing}.
Variable settings : ReadSettings.

Definition runtime_tenant (tenant_id : uuid) : bool :=
  bool_decide (uuid_str tenant_id ∈ split_commas EmptyString (runtime_preference_tenant_ids settings)).

Definition target_release_enabled (tenant_id : uuid) : bool :=
  runtime_target_release_enabled settings && runtime_target_withholding_enabled settings
  && runtime_tenant tenant_id.

Definition _runtime_job_predicate (j : RuntimeJob) : bool :=
  isSome (rj_runtime_route j)
  || match rj_preference_intent_admission j with Some o => isSome (jget "runtime_source_sha256" o) | None => false end.

Definition unresolved_runtime_predicate (j : RuntimeJob) : bool :=
  negb (isSome (rj_runtime_applied_at j)) || negb (isSome (rj_runtime_visibility_finalized_at j))
  || isSome (rj_runtime_residual_hold j).

(** ** Stored evidence *)

Definition uuid_field (v : json) : option uuid := s ← as_string v; parse_uuid_str s.

(** A required field [T | None]. *)
Definition nullable {A} (parse : json -> option A) (v : json) : option (option A) :=
  match v with JNull => Some None | v => Some <$> parse v end.

Definition tuple_up_to {A} (parse : json -> option A) (lo hi : nat) (v : json) : option (list A) :=
  match v with
  | JArr l => l ← mapM parse l; check count_between lo hi l; Some l
  | _ => None
  end.

Definition literal (allowed : list string) (v : json) : option string :=
  s ← as_string v; check bool_decide (s ∈ allowed); Some s.

Definition schema_one (o : obj) : bool :=
  match default (JInt 1) (jget "schema_version" o) with JInt 1 => true | _ => false end.

Record FactTarget := { ft_memory_id : uuid; ft_version : string }.

Definition validate_fact_target (v : json) : option FactTarget :=
  o ← as_object v;
  check closed ["memory_id"; "version"] o;
  memory_id ← jget "memory_id" o ≫= uuid_field;
  version ← jget "version" o ≫= Version;
  Some {| ft_memory_id := memory_id; ft_version := version |}.

Definition dump_fact_target (t : FactTarget) : json :=
  JObj [("memory_id", JStr (uuid_str (ft_memory_id t))); ("version", JStr (ft_version t))].

Record RuntimePreferenceFootprint := {
  fp_job_id : uuid; fp_tenant_id : uuid; fp_proxy_user_id : uuid; fp_capture_id : uuid;
  fp_transcript_sha256 : string; fp_source_sha256 : option string; fp_decision_sha256 : string;
  fp_coverage : string; fp_reason : string;
  fp_preference_fingerprints : list string; fp_fact_targets : list FactTarget;
  fp_projection_sha256 : string;
}.

(** [model_dump(mode="json")] without [projection_sha256] *)
Definition footprint_raw (f : RuntimePreferenceFootprint) : obj :=
  [("schema_version", JInt 1); ("job_id", JStr (uuid_str (fp_job_id f)));
   ("tenant_id", JStr (uuid_str (fp_tenant_id f))); ("proxy_user_id", JStr (uuid_str (fp_proxy_user_id f)));
   ("capture_id", JStr (uuid_str (fp_capture_id f))); ("transcript_sha256", JStr (fp_transcript_sha256 f));
   ("source_sha256", opt_json JStr (fp_source_sha256 f)); ("decision_sha256", JStr (fp_decision_sha256 f));
   ("coverage", JStr (fp_coverage f)); ("reason", JStr (fp_reason f));
   ("preference_fingerprints", JArr (JStr <$> fp_preference_fingerprints f));
   ("fact_targets", JArr (dump_fact_target <$> fp_fact_targets f))].

Definition nonempty_targets (f : RuntimePreferenceFootprint) : bool :=
  (0 <? length (fp_preference_fingerprints f) + length (fp_fact_targets f))%nat.

(** [consistent_projection].  The size bound of 8192 bytes is met by every such
    record: sixteen targets of less than 160 bytes and fixed fields. *)
Definition consistent_projection (f : RuntimePreferenceFootprint) : bool :=
  bool_decide (NoDup (fp_preference_fingerprints f))
  && bool_decide (NoDup (ft_memory_id <$> fp_fact_targets f))
  && (length (fp_preference_fingerprints f) + length (fp_fact_targets f) <=? 16)%nat
  && (if bool_decide (fp_coverage f = "targets")
      then bool_decide (fp_reason f = "known_targets") && nonempty_targets f
      else negb (bool_decide (fp_reason f = "known_targets")) && negb (nonempty_targets f))
  && bool_decide (fp_projection_sha256 f = hash_of unicode_dump (JObj (footprint_raw f))).

Definition footprint_fields : list string :=
  ["schema_version"; "job_id"; "tenant_id"; "proxy_user_id"; "capture_id"; "transcript_sha256";
   "source_sha256"; "decision_sha256"; "coverage"; "reason"; "preference_fingerprints"; "fact_targets";
   "projection_sha256"].

(** [RuntimePreferenceFootprint.model_validate] *)
Definition validate_footprint (o : obj) : option RuntimePreferenceFootprint :=
  check closed footprint_fields o && schema_one o;
  job_id ← jget "job_id" o ≫= uuid_field;
  tenant_id ← jget "tenant_id" o ≫= uuid_field;
  proxy_user_id ← jget "proxy_user_id" o ≫= uuid_field;
  capture_id ← jget "capture_id" o ≫= uuid_field;
  transcript ← jget "transcript_sha256" o ≫= Version;
  source ← jget "source_sha256" o ≫= nullable Version;
  decision ← jget "decision_sha256" o ≫= Version;
  coverage ← jget "coverage" o ≫= literal ["targets"; "user_learned_context"];
  reason ← jget "reason" o ≫= literal ["known_targets"; "empty_decision"; "unknown_preference";
                                       "unknown_fact_target"; "incomplete_fact_context"];
  preferences ← jget "preference_fingerprints" o ≫= tuple_up_to Version 0 16;
  facts ← jget "fact_targets" o ≫= tuple_up_to validate_fact_target 0 16;
  projection ← jget "projection_sha256" o ≫= Version;
  let f := {| fp_job_id := job_id; fp_tenant_id := tenant_id; fp_proxy_user_id := proxy_user_id;
              fp_capture_id := capture_id; fp_transcript_sha256 := transcript; fp_source_sha256 := source;
              fp_decision_sha256 := decision; fp_coverage := coverage; fp_reason := reason;
              fp_preference_fingerprints := preferences; fp_fact_targets := facts;
              fp_projection_sha256 := projection |} in
  check consistent_projection f;
  Some f.

(** *** Reconciliation records *)

Definition hold_scope : json -> option string := literal ["user_learned_context"; "affected_context"].

(** What a reader needs of either record. *)
Record Diagnosis := {
  dg_hold_scope : string;
  dg_footprint_sha256 : option string;
  dg_residual : option (uuid * string);   (* capture id and decision of a residual record *)
}.

(** [RuntimeReconciliationRecord.model_validate] *)
Definition validate_reconciliation (o : obj) : option Diagnosis :=
  check closed ["schema_version"; "outcome"; "hold_scope"; "footprint_sha256"; "reason_code";
                "operator_reason"; "actor_credential_class"; "request_id"] o && schema_one o;
  _ ← literal ["quarantined"] (default (JStr "quarantined") (jget "outcome" o));
  scope ← jget "hold_scope" o ≫= hold_scope;
  footprint ← jget "footprint_sha256" o ≫= nullable Version;
  reason ← jget "reason_code" o ≫= literal ["source_expired"; "source_redacted"; "record_invalid";
                                            "source_binding_changed"];
  _ ← jget "operator_reason" o ≫= stripped_string 512;
  _ ← literal ["admin_secret"] (default (JStr "admin_secret") (jget "actor_credential_class" o));
  request_id ← jget "request_id" o ≫= as_string;
  check length_between 0 128 request_id;
  check Bool.eqb (bool_decide (scope = "affected_context")) (isSome footprint)
        && negb (bool_decide (reason ∈ ["record_invalid"; "source_binding_changed"])
                 && negb (bool_decide (scope = "user_learned_context")));
  Some {| dg_hold_scope := scope; dg_footprint_sha256 := footprint; dg_residual := None |}.

(** [RuntimeResidualRecord.model_validate] *)
Definition validate_residual (o : obj) : option Diagnosis :=
  check closed ["schema_version"; "outcome"; "actor_credential_class"; "hold_scope"; "footprint_sha256";
                "capture_id"; "decision_sha256"] o && schema_one o;
  _ ← literal ["residual_fact_hold"] (default (JStr "residual_fact_hold") (jget "outcome" o));
  _ ← literal ["runtime_writer"] (default (JStr "runtime_writer") (jget "actor_credential_class" o));
  scope ← jget "hold_scope" o ≫= hold_scope;
  footprint ← jget "footprint_sha256" o ≫= Version;
  capture_id ← jget "capture_id" o ≫= uuid_field;
  decision ← jget "decision_sha256" o ≫= Version;
  Some {| dg_hold_scope := scope; dg_footprint_sha256 := Some footprint;
          dg_residual := Some (capture_id, decision) |}.

(** *** Target releases *)

Definition preference_key (fingerprint : string) : string :=
  hash_of unicode_dump (JObj [("preference", JStr fingerprint)]).
Definition fact_key (memory_id : uuid) (version : string) : string :=
  hash_of unicode_dump (JObj [("fact", JStr (uuid_str memory_id)); ("version", JStr version)]).

Record TargetRelease := {
  tr_kind : string; tr_key : string; tr_fingerprint : option string; tr_fact_memory_id : option uuid;
  tr_fact_version : option string; tr_source_job_id : uuid; tr_source_capture_id : uuid;
  tr_source_sha256 : string; tr_decision_sha256 : string; tr_outcome : string;
  tr_result_memory_id : uuid; tr_result_version : string; tr_claim_id : option uuid;
  tr_revision_id : option uuid; tr_audit_id : uuid;
}.

(** [consistent_target] *)
Definition consistent_target (t : TargetRelease) : bool :=
  if bool_decide (tr_kind t = "preference") then
    match tr_fingerprint t with
    | Some fingerprint =>
        negb (isSome (tr_fact_memory_id t)) && negb (isSome (tr_fact_version t))
        && isSome (tr_claim_id t) && isSome (tr_revision_id t)
        && negb (bool_decide (tr_outcome t = "superseded"))
        && bool_decide (tr_key t = preference_key fingerprint)
    | None => false
    end
  else
    match tr_fact_memory_id t, tr_fact_version t with
    | Some memory_id, Some version =>
        negb (isSome (tr_fingerprint t)) && negb (isSome (tr_claim_id t)) && negb (isSome (tr_revision_id t))
        && bool_decide (tr_outcome t = "superseded")
        && negb (bool_decide (tr_result_memory_id t = memory_id))
        && bool_decide (tr_key t = fact_key memory_id version)
    | _, _ => false
    end.

Definition release_fields : list string :=
  ["kind"; "key"; "fingerprint"; "fact_memory_id"; "fact_version"; "source_job_id"; "source_capture_id";
   "source_sha256"; "decision_sha256"; "outcome"; "result_memory_id"; "result_version"; "claim_id";
   "revision_id"; "audit_id"].

Definition validate_target_release (v : json) : option TargetRelease :=
  o ← as_object v;
  check closed release_fields o;
  kind ← jget "kind" o ≫= literal ["preference"; "fact"];
  key ← jget "key" o ≫= Version;
  fingerprint ← jget "fingerprint" o ≫= nullable Version;
  fact_memory_id ← jget "fact_memory_id" o ≫= nullable uuid_field;
  fact_version ← jget "fact_version" o ≫= nullable Version;
  source_job_id ← jget "source_job_id" o ≫= uuid_field;
  source_capture_id ← jget "source_capture_id" o ≫= uuid_field;
  source ← jget "source_sha256" o ≫= Version;
  decision ← jget "decision_sha256" o ≫= Version;
  outcome ← jget "outcome" o ≫= literal ["activated"; "reaffirmed"; "superseded"];
  result_memory_id ← jget "result_memory_id" o ≫= uuid_field;
  result_version ← jget "result_version" o ≫= Version;
  claim_id ← jget "claim_id" o ≫= nullable uuid_field;
  revision_id ← jget "revision_id" o ≫= nullable uuid_field;
  audit_id ← jget "audit_id" o ≫= uuid_field;
  let t := {| tr_kind := kind; tr_key := key; tr_fingerprint := fingerprint;
              tr_fact_memory_id := fact_memory_id; tr_fact_version := fact_version;
              tr_source_job_id := source_job_id; tr_source_capture_id := source_capture_id;
              tr_source_sha256 := source; tr_decision_sha256 := decision; tr_outcome := outcome;
              tr_result_memory_id := result_memory_id; tr_result_version := result_version;
              tr_claim_id := claim_id; tr_revision_id := revision_id; tr_audit_id := audit_id |} in
  check consistent_target t;
  Some t.

Definition dump_target_release (t : TargetRelease) : json :=
  let id u := JStr (uuid_str u) in
  JObj [("kind", JStr (tr_kind t)); ("key", JStr (tr_key t));
        ("fingerprint", opt_json JStr (tr_fingerprint t));
        ("fact_memory_id", opt_json id (tr_fact_memory_id t));
        ("fact_version", opt_json JStr (tr_fact_version t));
        ("source_job_id", id (tr_source_job_id t)); ("source_capture_id", id (tr_source_capture_id t));
        ("source_sha256", JStr (tr_source_sha256 t)); ("decision_sha256", JStr (tr_decision_sha256 t));
        ("outcome", JStr (tr_outcome t)); ("result_memory_id", id (tr_result_memory_id t));
        ("result_version", JStr (tr_result_version t)); ("claim_id", opt_json id (tr_claim_id t));
        ("revision_id", opt_json id (tr_revision_id t)); ("audit_id", id (tr_audit_id t))].

Record RuntimeTargetReleases := {
  rt_job_id : uuid; rt_tenant_id : uuid; rt_proxy_user_id : uuid; rt_footprint_sha256 : string;
  rt_targets : list TargetRelease; rt_projection_sha256 : string;
}.

Definition releases_raw (r : RuntimeTargetReleases) : obj :=
  [("schema_version", JInt 1); ("job_id", JStr (uuid_str (rt_job_id r)));
   ("tenant_id", JStr (uuid_str (rt_tenant_id r))); ("proxy_user_id", JStr (uuid_str (rt_proxy_user_id r)));
   ("footprint_sha256", JStr (rt_footprint_sha256 r));
   ("targets", JArr (dump_target_release <$> rt_targets r))].

(** [consistent_release]; its size bound holds of any sixteen targets. *)
Definition consistent_release (r : RuntimeTargetReleases) : bool :=
  bool_decide (NoDup (tr_key <$> rt_targets r))
  && forallb (fun t => negb (bool_decide (tr_source_job_id t = rt_job_id r))) (rt_targets r)
  && bool_decide (rt_projection_sha256 r = hash_of unicode_dump (JObj (releases_raw r))).

Definition validate_releases (o : obj) : option RuntimeTargetReleases :=
  check closed ["schema_version"; "job_id"; "tenant_id"; "proxy_user_id"; "footprint_sha256"; "targets";
                "projection_sha256"] o && schema_one o;
  job_id ← jget "job_id" o ≫= uuid_field;
  tenant_id ← jget "tenant_id" o ≫= uuid_field;
  proxy_user_id ← jget "proxy_user_id" o ≫= uuid_field;
  footprint ← jget "footprint_sha256" o ≫= Version;
  targets ← jget "targets" o ≫= tuple_up_to validate_target_release 1 16;
  projection ← jget "projection_sha256" o ≫= Version;
  let r := {| rt_job_id := job_id; rt_tenant_id := tenant_id; rt_proxy_user_id := proxy_user_id;
              rt_footprint_sha256 := footprint; rt_targets := targets;
              rt_projection_sha256 := projection |} in
  check consistent_release r;
  Some r.

Definition footprint_keys (f : RuntimePreferenceFootprint) : list string :=
  (preference_key <$> fp_preference_fingerprints f)
  ++ ((fun t => fact_key (ft_memory_id t) (ft_version t)) <$> fp_fact_targets f).

(** [None]: the record is invalid or belongs to another footprint. *)
Definition read_target_releases (raw : option obj) (f : RuntimePreferenceFootprint)
    : option (list TargetRelease) :=
  match raw with
  | None => Some []
  | Some raw =>
      record ← validate_releases raw;
      check bool_decide (rt_job_id record = fp_job_id f) && bool_decide (rt_tenant_id record = fp_tenant_id f)
            && bool_decide (rt_proxy_user_id record = fp_proxy_user_id f)
            && bool_decide (rt_footprint_sha256 record = fp_projection_sha256 f)
            && forallb (fun t => bool_decide (tr_key t ∈ footprint_keys f)) (rt_targets record);
      Some (rt_targets record)
  end.

(** ** The hold *)

Definition MAX_PENDING_FOOTPRINTS : nat := 8.
Definition RUNTIME_ROUTE : string := "preference_v1".

Record RuntimeHold := {
  rh_broad : bool;
  rh_unavailable : bool;
  rh_preference_fingerprints : gset string;
  rh_fact_ids : gset string;
}.

Definition broad_hold (unavailable : bool) : RuntimeHold :=
  {| rh_broad := true; rh_unavailable := unavailable; rh_preference_fingerprints := ∅; rh_fact_ids := ∅ |}.

(** The tables read: rows in the order the database returns them. *)
Record HoldTables := {
  ht_jobs : list RuntimeJob;
  ht_reconciliations : gmap uuid RuntimeJobReconciliation;
  ht_memories : gmap uuid Memory;
}.

Section Read.
Variables (owner tenant_id : uuid) (unavailable : bool).

(** The diagnosis agrees with the footprint it narrows. *)
Definition diagnosis_binds (applied : bool) (row : RuntimeJobReconciliation) (f : RuntimePreferenceFootprint)
    (record : Diagnosis) : bool :=
  bool_decide (rr_tenant_id row = tenant_id) && bool_decide (rr_proxy_user_id row = owner)
  && bool_decide (dg_hold_scope record = "affected_context")
  && bool_decide (dg_footprint_sha256 record = Some (fp_projection_sha256 f))
  && match dg_residual record with
     | Some (capture_id, decision) =>
         bool_decide (capture_id = fp_capture_id f) && bool_decide (decision = fp_decision_sha256 f)
     | None => negb applied
     end.

Definition validate_diagnosis (applied : bool) (o : obj) : option Diagnosis :=
  if applied then validate_residual o else validate_reconciliation o.

(** The checks of one job before its targets are held: [inl b] is a broad hold
    with [unavailable=b], [inr] the footprint and the released keys. *)
Definition job_footprint (j : RuntimeJob) (reconciled : option RuntimeJobReconciliation)
    : bool + (RuntimePreferenceFootprint * list string) :=
  let applied := isSome (rj_runtime_applied_at j) in
  if applied && (negb (isSome (rj_runtime_visibility_finalized_at j))
                 || negb (isSome (rj_runtime_residual_hold j)) || negb (isSome reconciled))
  then inl true
  else
    let raw := if applied then rj_runtime_residual_hold j else rj_runtime_withholding_footprint j in
    match raw with
    | Some raw =>
        if negb (bool_decide (rj_runtime_route j = Some RUNTIME_ROUTE)) then inl unavailable
        else
          match validate_footprint raw with
          | None => inl true
          | Some f =>
              if negb (bool_decide (fp_job_id f = rj_id j) && bool_decide (fp_tenant_id f = tenant_id)
                       && bool_decide (fp_proxy_user_id f = owner))
              then inl true
              else
                let bound := match reconciled with
                             | None => true
                             | Some row =>
                                 match validate_diagnosis applied (rr_record_json row) with
                                 | Some record => diagnosis_binds applied row f record
                                 | None => false
                                 end
                             end in
                if negb bound then inl true
                else if negb (bool_decide (fp_coverage f = "targets")) then inl unavailable
                else
                  let release_json := reconciled ≫= rr_release_json in
                  match (if target_release_enabled tenant_id && isSome reconciled
                         then read_target_releases release_json f else Some []) with
                  | None => inl true
                  | Some released =>
                      let released := remove_dups (tr_key <$> released) in
                      if isSome release_json && (0 <? length released)%nat
                         && (length released =?
                               length (fp_preference_fingerprints f) + length (fp_fact_targets f))%nat
                      then inl true
                      else inr (f, released)
                  end
          end
    | None => inl unavailable
    end.

(** The facts held so far, each at one version. *)
Fixpoint hold_facts (released : list string) (targets : list FactTarget) (facts : gmap uuid string)
    : option (gmap uuid string) :=
  match targets with
  | [] => Some facts
  | t :: targets =>
      if bool_decide (fact_key (ft_memory_id t) (ft_version t) ∈ released)
      then hold_facts released targets facts
      else match facts !! ft_memory_id t with
           | Some version =>
               if bool_decide (version = ft_version t)
               then hold_facts released targets (<[ft_memory_id t := ft_version t]> facts) else None
           | None => hold_facts released targets (<[ft_memory_id t := ft_version t]> facts)
           end
  end.

Definition hold_preferences (released : list string) (f : RuntimePreferenceFootprint) : gset string :=
  list_to_set (filter (fun fp => preference_key fp ∉ released) (fp_preference_fingerprints f)).

Fixpoint hold_jobs (tables : HoldTables) (rows : list RuntimeJob) (prefs : gset string)
    (facts : gmap uuid string) : bool + (gset string * gmap uuid string) :=
  match rows with
  | [] => inr (prefs, facts)
  | j :: rows =>
      match job_footprint j (ht_reconciliations tables !! rj_id j) with
      | inl b => inl b
      | inr (f, released) =>
          match hold_facts released (fp_fact_targets f) facts with
          | None => inl true
          | Some facts => hold_jobs tables rows (prefs ∪ hold_preferences released f) facts
          end
      end
  end.

(** Every held fact is an owned live memory in its recorded version. *)
Definition facts_unchanged (tables : HoldTables) (facts : gmap uuid string) : bool :=
  forallb (fun kv => match ht_memories tables !! kv.1 with
                     | Some m => bool_decide (m_proxy_user_id m = owner)
                                 && bool_decide (target_version m = kv.2) && negb (m_is_archived m)
                     | None => false
                     end) (map_to_list facts).

Definition pending_job (j : RuntimeJob) : bool :=
  bool_decide (rj_tenant_id j = tenant_id) && bool_decide (rj_proxy_user_id j = owner)
  && _runtime_job_predicate j && unresolved_runtime_predicate j
  && (negb (target_release_enabled tenant_id) || negb (isSome (rj_runtime_hold_released_at j))).

Definition read_runtime_hold (tables : HoldTables) : RuntimeHold :=
  if negb (runtime_target_withholding_enabled settings) || negb (runtime_tenant tenant_id)
  then broad_hold unavailable
  else
    let rows := take (S MAX_PENDING_FOOTPRINTS) (filter (fun j => pending_job j = true) (ht_jobs tables)) in
    if (length rows =? 0)%nat || (MAX_PENDING_FOOTPRINTS <? length rows)%nat
    then broad_hold unavailable
    else
      match hold_jobs tables rows ∅ ∅ with
      | inl b => broad_hold b
      | inr (prefs, facts) =>
          if facts_unchanged tables facts
          then {| rh_broad := false; rh_unavailable := unavailable; rh_preference_fingerprints := prefs;
                  rh_fact_ids := list_to_set ((fun kv => uuid_str kv.1) <$> map_to_list facts) |}
          else broad_hold true
      end.

(** *** [_runtime_visibility_row] *)

Definition routed_job (j : RuntimeJob) : bool :=
  bool_decide (rj_tenant_id j = tenant_id) && bool_decide (rj_proxy_user_id j = owner)
  && _runtime_job_predicate j.

Definition unavailable_job (j : RuntimeJob) : bool :=
  pending_job j
  && (bool_decide (rj_status j ∈ [ExtractionJobStatus.failed; ExtractionJobStatus.dead])
      || isSome (rj_payload_redacted_at j) || isSome (rj_runtime_applied_at j)).
End Read.
End Holds.
