(* ===== verification/RuntimeHoldTheorems.v ===== *)
(** * Withholding during runtime updates: theorems

    A hold narrower than everything is complete: each pending job has a valid
    footprint of known targets, and every target is held or provably released. *)

From S2P Require Export RuntimeHolds PreferenceClaimTheorems.

Section Theorems.
Context `{PyLib} `{Hashing}.
Variable settings : ReadSettings.
Variables (owner tenant_id : uuid) (unavailable : bool).
Abbreviation job_footprint := (job_footprint settings owner tenant_id unavailable).
Abbreviation pending_job := (pending_job settings owner tenant_id).

(** What a narrow hold knows about a pending job. *)
Record known_footprint (tables : HoldTables) (j : RuntimeJob) (f : RuntimePreferenceFootprint)
    (released : list string) : Prop := {
  kf_raw : exists raw, validate_footprint raw = Some f
    /\ (if isSome (rj_runtime_applied_at j) then rj_runtime_residual_hold j else rj_runtime_withholding_footprint j)
       = Some raw;
  kf_job : fp_job_id f = rj_id j;
  kf_tenant : fp_tenant_id f = tenant_id;
  kf_owner : fp_proxy_user_id f = owner;
  kf_coverage : fp_coverage f = "targets";
  kf_released : released <> [] -> exists row targets,
    target_release_enabled settings tenant_id = true
    /\ ht_reconciliations tables !! rj_id j = Some row
    /\ read_target_releases (rr_release_json row) f = Some targets
    /\ forall k, k ∈ released -> k ∈ tr_key <$> targets;
}.

Lemma job_footprint_known tables j f released :
  job_footprint j (ht_reconciliations tables !! rj_id j) = inr (f, released) ->
  known_footprint tables j f released.
Proof.
  unfold RuntimeHolds.job_footprint. destruct (_ && _) in |- *; [done|].
  destruct (if isSome _ then _ else _) as [raw|] eqn:Hraw; [|done].
  destruct (bool_decide_reflect (rj_runtime_route j = Some RUNTIME_ROUTE)); cbn [negb]; [|done].
  destruct (validate_footprint raw) as [f'|] eqn:Hf; [|done].
  destruct (bool_decide_reflect (fp_job_id f' = rj_id j)); cbn [negb andb]; [|done].
  destruct (bool_decide_reflect (fp_tenant_id f' = tenant_id)); cbn [negb andb]; [|done].
  destruct (bool_decide_reflect (fp_proxy_user_id f' = owner)); cbn [negb andb]; [|done].
  destruct (negb _); [done|].
  destruct (bool_decide_reflect (fp_coverage f' = "targets")); cbn [negb]; [|done].
  destruct (ht_reconciliations tables !! rj_id j) as [row|] eqn:Hrow; cbn [mbind option_bind isSome].
  - rewrite andb_true_r. destruct (target_release_enabled settings tenant_id) eqn:Hen.
    + destruct (read_target_releases _ f') as [targets|] eqn:Htargets; [|done].
      destruct (_ && _); [done|]. intros [= -> <-]. split; try done.
      * by exists raw.
      * intros _. exists row, targets. split_and?; try done. intros k. by rewrite elem_of_remove_dups.
    + destruct (_ && _); [done|]. intros [= -> <-]. split; try done.
      by exists raw.
  - rewrite andb_false_r. intros [= -> <-]. split; try done.
    by exists raw.
Qed.

(** ** Collecting the targets *)

Lemma hold_facts_spec released targets facts facts' :
  hold_facts released targets facts = Some facts' ->
  facts ⊆ facts' /\
  (forall t, t ∈ targets -> fact_key (ft_memory_id t) (ft_version t) ∈ released
                            \/ facts' !! ft_memory_id t = Some (ft_version t)) /\
  (forall i v, facts' !! i = Some v ->
     facts !! i = Some v \/ exists t, t ∈ targets /\ ft_memory_id t = i /\ ft_version t = v
                                   /\ (fact_key i v ∉ released)).
Proof.
  revert facts. induction targets as [|t targets IH]; intros facts; simpl.
  { intros [= <-]. split; [done|]. split; [by intros t ?%elem_of_nil|by left]. }
  case_bool_decide as Hk.
  { intros (Hsub & Hcov & Hmin)%IH. split; [done|]. split.
    - intros t' [->|Ht]%elem_of_cons; [by left|by apply Hcov].
    - intros i v [?|(t' & ? & ?)]%Hmin; [by left|right; exists t'; split; [by right|done]]. }
  intros Hf. assert (hold_facts released targets (<[ft_memory_id t := ft_version t]> facts) = Some facts'
                     /\ facts ⊆ <[ft_memory_id t := ft_version t]> facts) as [Hf' Hins].
  { destruct (facts !! ft_memory_id t) as [v|] eqn:Hv; [|split; [done|by apply insert_subseteq]].
    case_bool_decide; [|done]. subst. split; [done|]. by rewrite insert_id. }
  apply IH in Hf' as (Hsub & Hcov & Hmin). split; [by transitivity (<[ft_memory_id t := ft_version t]> facts)|].
  split.
  - intros t' [->|Ht]%elem_of_cons; [|by apply Hcov].
    right. eapply lookup_weaken; [|exact Hsub]. by rewrite lookup_insert_eq.
  - intros i v Hv. destruct (Hmin i v Hv) as [Hi|(t' & ? & ?)]; [|right; exists t'; split; [by right|done]].
    destruct (decide (ft_memory_id t = i)) as [<-|Hne].
    + rewrite lookup_insert_eq in Hi. simplify_eq. right. exists t. split; [by left|done].
    + rewrite lookup_insert_ne in Hi by done. by left.
Qed.

(** The targets of one job are held or released. *)
Definition covers (prefs : gset string) (facts : gmap uuid string) (f : RuntimePreferenceFootprint)
    (released : list string) : Prop :=
  (forall fp, fp ∈ fp_preference_fingerprints f -> fp ∈ prefs \/ preference_key fp ∈ released) /\
  (forall t, t ∈ fp_fact_targets f ->
     facts !! ft_memory_id t = Some (ft_version t) \/ fact_key (ft_memory_id t) (ft_version t) ∈ released).

Lemma covers_mono prefs prefs' facts facts' f released :
  prefs ⊆ prefs' -> facts ⊆ facts' -> covers prefs facts f released -> covers prefs' facts' f released.
Proof.
  intros Hp Hf [Hcp Hcf]. split.
  - intros fp [?|?]%Hcp; [left; by apply Hp|by right].
  - intros t [Ht|?]%Hcf; [left; by eapply lookup_weaken|by right].
Qed.

Lemma hold_jobs_spec tables rows prefs facts prefs' facts' :
  hold_jobs settings owner tenant_id unavailable tables rows prefs facts = inr (prefs', facts') ->
  prefs ⊆ prefs' /\ facts ⊆ facts' /\
  (forall j, j ∈ rows -> exists f released,
     job_footprint j (ht_reconciliations tables !! rj_id j) = inr (f, released)
     /\ covers prefs' facts' f released) /\
  (forall fp, fp ∈ prefs' -> fp ∈ prefs \/ exists j f released, j ∈ rows
     /\ job_footprint j (ht_reconciliations tables !! rj_id j) = inr (f, released)
     /\ fp ∈ fp_preference_fingerprints f /\ (preference_key fp ∉ released)) /\
  (forall i v, facts' !! i = Some v -> facts !! i = Some v \/ exists j f released t, j ∈ rows
     /\ job_footprint j (ht_reconciliations tables !! rj_id j) = inr (f, released)
     /\ t ∈ fp_fact_targets f /\ ft_memory_id t = i /\ ft_version t = v /\ (fact_key i v ∉ released)).
Proof.
  revert prefs facts. induction rows as [|j rows IH]; intros prefs facts; simpl.
  { intros [= <- <-]. do 2 (split; [done|]). split; [by intros j ?%elem_of_nil|]. split; by left. }
  destruct (RuntimeHolds.job_footprint _ _ _ _ j _) as [b|[f released]] eqn:Hj; [done|].
  destruct (hold_facts released _ facts) as [facts1|] eqn:Hfacts; [|done].
  apply hold_facts_spec in Hfacts as (Hsub & Hcov & Hnamed).
  intros (Hp & Hf & Hrows & Hmin & Hfmin)%IH. split; [set_solver|]. split; [by transitivity facts1|]. split_and!.
  - intros j' [->|Hj']%elem_of_cons; [|by apply Hrows].
    exists f, released. split; [done|]. eapply covers_mono; [exact Hp|exact Hf|]. split.
    + intros fp Hfp. destruct (decide (preference_key fp ∈ released)); [by right|].
      left. unfold hold_preferences. apply elem_of_union_r, elem_of_list_to_set.
      by apply list_elem_of_filter.
    + intros t Ht. destruct (Hcov t Ht); [by right|by left].
  - intros fp [Hfp|(j' & f' & r' & ? & ?)]%Hmin; [|right; exists j', f', r'; split; [by right|done]].
    apply elem_of_union in Hfp as [?|Hfp]; [by left|]. right. exists j, f, released.
    split; [by left|]. split; [done|].
    unfold hold_preferences in Hfp. by apply elem_of_list_to_set, list_elem_of_filter in Hfp as [? ?].
  - intros i v [Hi|(j' & f' & r' & t & ? & ?)]%Hfmin;
      [|right; exists j', f', r', t; split; [by right|done]].
    destruct (Hnamed i v Hi) as [?|(t & ? & ?)]; [by left|]. right. exists j, f, released, t.
    split; [by left|done].
Qed.

Lemma facts_unchanged_live tables facts i version :
  facts_unchanged owner tables facts = true -> facts !! i = Some version ->
  exists m, ht_memories tables !! i = Some m /\ m_proxy_user_id m = owner
    /\ target_version m = version /\ m_is_archived m = false.
Proof.
  unfold facts_unchanged. rewrite forallb_forall. intros Hall Hi. specialize (Hall (i, version)). simpl in Hall.
  destruct (ht_memories tables !! i) as [m|].
  - rewrite !andb_true_iff, !bool_decide_eq_true, negb_true_iff in Hall.
    destruct Hall as [[? ?] ?]; [by apply list_elem_of_In, elem_of_map_to_list|]. by exists m.
  - discriminate Hall. by apply list_elem_of_In, elem_of_map_to_list.
Qed.

(** The rows of a page that is not full are all the rows. *)
Lemma take_all_of_short {A} (n : nat) (l : list A) : (length (take (S n) l) <= n)%nat -> take (S n) l = l.
Proof. rewrite length_take. intros. apply take_ge. lia. Qed.

(** C16: A hold that is not on everything accounts for every pending guarded job
    of the user, however many rows there are: each has a validated footprint
    bound to that job, tenant and owner which names its targets, and each target
    is withheld, or was released by a valid release record bound to that
    footprint; a withheld memory still is a live memory of the owner in the
    recorded version.  And nothing more is withheld: every withheld preference
    and every withheld memory is a target of some pending job's footprint that
    the job has not released. *)
Theorem narrow_hold_is_complete tables :
  let hold := read_runtime_hold settings owner tenant_id unavailable tables in
  rh_broad hold = false ->
  (forall j, j ∈ ht_jobs tables -> pending_job j = true -> exists f released,
     known_footprint tables j f released /\
     (forall fp, fp ∈ fp_preference_fingerprints f ->
        fp ∈ rh_preference_fingerprints hold \/ preference_key fp ∈ released) /\
     (forall t, t ∈ fp_fact_targets f ->
        fact_key (ft_memory_id t) (ft_version t) ∈ released
        \/ uuid_str (ft_memory_id t) ∈ rh_fact_ids hold
           /\ exists m, ht_memories tables !! ft_memory_id t = Some m /\ m_proxy_user_id m = owner
                /\ target_version m = ft_version t /\ m_is_archived m = false)) /\
  (forall fp, fp ∈ rh_preference_fingerprints hold -> exists j f released,
     j ∈ ht_jobs tables /\ pending_job j = true /\ known_footprint tables j f released
     /\ fp ∈ fp_preference_fingerprints f /\ (preference_key fp ∉ released)) /\
  (forall id, id ∈ rh_fact_ids hold -> exists j f released t,
     j ∈ ht_jobs tables /\ pending_job j = true /\ known_footprint tables j f released
     /\ t ∈ fp_fact_targets f /\ id = uuid_str (ft_memory_id t)
     /\ (fact_key (ft_memory_id t) (ft_version t) ∉ released)).
Proof.
  unfold read_runtime_hold. destruct (_ || _); [done|].
  set (rows := take _ _). destruct (_ || _) eqn:Hlen; [done|].
  apply orb_false_iff in Hlen as [_ Hlen%Nat.ltb_ge].
  assert (rows = filter (fun j => pending_job j = true) (ht_jobs tables)) as Hrows
    by by apply take_all_of_short.
  destruct (hold_jobs _ _ _ _ _ rows _ _) as [b|[prefs facts]] eqn:Hjobs; [done|].
  destruct (facts_unchanged _ _ _) eqn:Hunchanged; [|done]. intros _. cbn.
  apply hold_jobs_spec in Hjobs as (_ & _ & Hcov & Hmin & Hfmin). rewrite Hrows in Hcov, Hmin, Hfmin. split_and!.
  - intros j Hj Hpend. destruct (Hcov j) as (f & released & Hknown%job_footprint_known & Hp & Hf);
      [by apply list_elem_of_filter|].
    exists f, released. split; [done|]. split; [done|]. intros t Ht.
    destruct (Hf t Ht) as [Hheld|?]; [right|by left]. split; [|by eapply facts_unchanged_live].
    apply elem_of_list_to_set, list_elem_of_fmap. exists (ft_memory_id t, ft_version t).
    split; [done|]. by apply elem_of_map_to_list.
  - intros fp [Hempty|(j & f & released & Hj & Hknown%job_footprint_known & ?)]%Hmin; [set_solver|].
    apply list_elem_of_filter in Hj as [Hpend Hj]. by exists j, f, released.
  - intros id Hid. apply elem_of_list_to_set, list_elem_of_fmap in Hid as ([i v] & -> & Hiv).
    apply elem_of_map_to_list in Hiv. cbn [fst].
    destruct (Hfmin i v Hiv) as [He|(j & f & released & t & Hj & Hknown%job_footprint_known & ? & <- & <- & ?)];
      [by rewrite lookup_empty in He|].
    apply list_elem_of_filter in Hj as [Hpend Hj]. by exists j, f, released, t.
Qed.
End Theorems.

(** ** Witness *)

Definition ex_settings : ReadSettings :=
  {| explicit_preference_claims_enabled := true; runtime_preference_discovery_enabled := false;
     runtime_target_withholding_enabled := true; runtime_target_release_enabled := false;
     runtime_preference_tenant_ids := "1" |}.

(** Decimal UUIDs, and digests of sixty-four characters. *)
Definition hold_pylib : PyLib := {|
  digest := @digest example_pylib; fromisoformat _ := None; parse_uuid_str := py_int_of_string;
  str_other := @str_other example_pylib; compact_dump := @compact_dump example_pylib;
  isoformat := py_str_Z; uuid_str := py_str_Z |}.
Definition hex64 : string := "0123456789abcdef0123456789abcdef0123456789abcdef0123456789abcdef".
Definition hold_hashing : Hashing := {| sha256_json _ _ := hex64 |}.

Definition ex_footprint : obj :=
  [("schema_version", JInt 1); ("job_id", JStr "11"); ("tenant_id", JStr "1"); ("proxy_user_id", JStr "2");
   ("capture_id", JStr "5"); ("transcript_sha256", JStr hex64); ("source_sha256", JNull);
   ("decision_sha256", JStr hex64); ("coverage", JStr "targets"); ("reason", JStr "known_targets");
   ("preference_fingerprints", JArr [JStr hex64]);
   ("fact_targets", JArr [JObj [("memory_id", JStr "7"); ("version", JStr hex64)]]);
   ("projection_sha256", JStr hex64)].
Definition ex_runtime_job : RuntimeJob :=
  {| rj_id := 11; rj_tenant_id := 1; rj_proxy_user_id := 2; rj_status := ExtractionJobStatus.processing;
     rj_payload_redacted_at := None; rj_runtime_route := Some RUNTIME_ROUTE;
     rj_preference_intent_admission := None; rj_runtime_withholding_footprint := Some ex_footprint;
     rj_runtime_applied_at := None; rj_runtime_hold_released_at := None;
     rj_runtime_visibility_finalized_at := None; rj_runtime_residual_hold := None |}.
Definition ex_hold_tables : HoldTables :=
  {| ht_jobs := [ex_runtime_job]; ht_reconciliations := ∅; ht_memories := {[7%Z := ex_pref_memory]} |}.

Lemma narrow_hold_is_complete_witness :
  exists f released, @known_footprint hold_pylib hold_hashing ex_settings 2 1 ex_hold_tables ex_runtime_job f released.
Proof.
  destruct (@narrow_hold_is_complete hold_pylib hold_hashing ex_settings 2 1 false ex_hold_tables) as [Hall _].
  { vm_compute. reflexivity. }
  destruct (Hall ex_runtime_job) as (f & released & Hknown & _);
    [apply list_elem_of_here|vm_compute; reflexivity|].
  exists f, released. exact Hknown.
Defined.
