(* ===== verification/VectorOutbox.v ===== *)
(** * The vector-sync outbox

    [api/services/vector_outbox.py] builds the payloads and rows other services
    enqueue in their transaction; [api/tasks/vector_sync_tasks.py] claims
    pending rows every five seconds and applies them to the vector store.  The
    store client is third-party: [VectorStore] is what the task uses of it, each
    call returning the new store and the message of the exception it raised. *)

From S2P Require Export ClaimIdentity.

(** ** Payloads and rows *)

Section Enqueue.
Context `{PyLib}.

Definition opt_str (o : option uuid) : json := match o with Some u => JStr (uuid_str u) | None => JNull end.
Definition _isoformat_or_none (o : option datetime) : json :=
  match o with Some t => JStr (isoformat t) | None => JNull end.
Definition opt_text (o : option string) : json := match o with Some s => JStr s | None => JNull end.

(** [a or b] on optional strings *)
Definition str_or (a : option string) (b : option string) : option string :=
  match a with Some s => if bool_decide (s = EmptyString) then b else Some s | None => b end.

Definition text_given (o : option string) : bool :=
  match o with Some s => negb (bool_decide (s = EmptyString)) | None => false end.

Record PayloadArgs := {
  pl_tenant_id : option string;
  pl_proxy_user_id : option string;
  pl_user_id : option string;
  pl_embedding_model_id : option string;
  pl_qdrant_collection : option string;
  pl_model_collection : option string;          (* memory.embedding_model.qdrant_collection *)
  pl_include_content : bool;                    (* settings.vector_payload_include_content *)
}.

Definition build_vector_payload (memory : Memory) (a : PayloadArgs) : obj :=
  [("memory_id", JStr (uuid_str (m_id memory)));
   ("agent_id", opt_str (m_agent_id memory));
   ("category", JStr (MemoryCategory.value (m_category memory)));
   ("importance_score", JFloat (m_importance_score memory));
   ("confidence_score",
     JFloat (if Qeq_bool (m_confidence_score memory) 0 then 1 else m_confidence_score memory));
   ("is_archived", JBool (m_is_archived memory));
   ("created_at", JStr (isoformat (m_created_at memory)));
   ("last_accessed_at", _isoformat_or_none (m_last_accessed_at memory));
   ("previous_version_id", opt_str (m_previous_version_id memory));
   ("source_event_id", opt_str (m_source_event_id memory));
   ("effective_from", _isoformat_or_none (m_effective_from memory));
   ("effective_until", _isoformat_or_none (m_effective_until memory));
   ("provenance", jget_or_null "provenance" (m_metadata_json memory));
   ("embedding_model_id",
     opt_text (str_or (pl_embedding_model_id a) (Some (m_embedding_model_id memory))));
   ("qdrant_collection", opt_text (str_or (pl_qdrant_collection a) (pl_model_collection a)))]
  ++ (if pl_include_content a then [("content", JStr (m_content memory))] else [])
  ++ match pl_tenant_id a, pl_proxy_user_id a with
     | Some t, Some p =>
         if text_given (Some t) && text_given (Some p)
         then [("tenant_id", JStr t); ("proxy_user_id", JStr p)]
         else match pl_user_id a with Some u => [("user_id", JStr u)] | None => [] end
     | _, _ => match pl_user_id a with Some u => [("user_id", JStr u)] | None => [] end
     end.
End Enqueue.

Abbreviation Outbox := (gmap uuid VectorSyncOutbox).

(** A new row; [id] and [now] come from [uuid4] and the column default. *)
Definition new_row (id : uuid) (now : datetime) (operation : VectorSyncOperation.t)
    (memory_id : uuid) (embedding : option (list Q)) (payload : obj) : VectorSyncOutbox :=
  {| o_id := id; o_operation := operation; o_memory_id := memory_id; o_embedding := embedding;
     o_payload := payload; o_status := VectorSyncStatus.pending; o_attempts := 0;
     o_last_error := None; o_created_at := now; o_synced_at := None |}.

Definition enqueue_vector_upsert (id : uuid) (now : datetime) (memory_id : uuid)
    (embedding : list Q) (payload : obj) (b : Outbox) : Outbox :=
  <[id := new_row id now VectorSyncOperation.upsert memory_id (Some embedding) payload]> b.
Definition enqueue_vector_archive (id : uuid) (now : datetime) (memory_id : uuid)
    (payload : obj) (b : Outbox) : Outbox :=
  <[id := new_row id now VectorSyncOperation.archive memory_id None payload]> b.
Definition enqueue_vector_delete (id : uuid) (now : datetime) (memory_id : uuid)
    (payload : option obj) (b : Outbox) : Outbox :=
  <[id := new_row id now VectorSyncOperation.delete memory_id None (default [] payload)]> b.

(** ** The sync task *)

Record Point := { p_id : uuid; p_vector : list Q; p_payload : obj }.

Class VectorStore (VS : Type) := {
  COLLECTION_NAME : string;
  VECTOR_SIZE : nat;
  ensure_collection : string -> nat -> VS -> VS;   (* swallows its own errors *)
  vs_upsert : string -> list Point -> VS -> VS * option string;
  vs_set_payload : string -> obj -> uuid -> VS -> VS * option string;
  vs_delete : string -> list uuid -> VS -> VS * option string;
}.

Section Task.
Context {VS : Type} `{!VectorStore VS}.
Context `{PyLib}.

(** Store calls in sequence, stopping at the first exception. *)
Fixpoint run_calls (calls : list (VS -> VS * option string)) (v : VS) : VS * option string :=
  match calls with
  | [] => (v, None)
  | f :: calls => match f v with
                  | (v', Some e) => (v', Some e)
                  | (v', None) => run_calls calls v'
                  end
  end.

(** [str(payload.get("qdrant_collection") or qdrant.COLLECTION_NAME)] *)
Definition collection_of (row : VectorSyncOutbox) : string :=
  let c := jget_or_null "qdrant_collection" (o_payload row) in
  if truthy c then py_str str_other c else COLLECTION_NAME.

Fixpoint setdefault_append (k : string) (row : VectorSyncOutbox)
    (g : list (string * list VectorSyncOutbox)) : list (string * list VectorSyncOutbox) :=
  match g with
  | [] => [(k, [row])]
  | (k', rows) :: g =>
      if bool_decide (k = k') then (k', rows ++ [row]) :: g else (k', rows) :: setdefault_append k row g
  end.

Definition grouped_rows (rows : list VectorSyncOutbox) : list (string * list VectorSyncOutbox) :=
  fold_left (fun g row => setdefault_append (collection_of row) row g) rows [].

Definition vector_size (rows : list VectorSyncOutbox) : nat :=
  match rows with
  | row :: _ => match o_embedding row with
                | Some (x :: e) => length (x :: e)
                | _ => VECTOR_SIZE
                end
  | [] => VECTOR_SIZE
  end.

Definition _apply_upsert_batch (rows : list VectorSyncOutbox) : VS -> VS * option string :=
  run_calls ((fun g v => vs_upsert g.1
      ((fun r => {| p_id := o_memory_id r; p_vector := default [] (o_embedding r);
                    p_payload := o_payload r |}) <$> g.2)
      (ensure_collection g.1 (vector_size g.2) v)) <$> grouped_rows rows).

Definition _apply_archive_batch (rows : list VectorSyncOutbox) : VS -> VS * option string :=
  run_calls ((fun g v => run_calls
      ((fun r => vs_set_payload g.1 (o_payload r) (o_memory_id r)) <$> g.2)
      (ensure_collection g.1 VECTOR_SIZE v)) <$> grouped_rows rows).

Definition _apply_delete_batch (rows : list VectorSyncOutbox) : VS -> VS * option string :=
  run_calls ((fun g v => vs_delete g.1 (o_memory_id <$> g.2)
      (ensure_collection g.1 VECTOR_SIZE v)) <$> grouped_rows rows).

Record Sync := { outbox : Outbox; store : VS }.

Definition claim_row (r : VectorSyncOutbox) : VectorSyncOutbox :=
  r <| o_status := VectorSyncStatus.processing |> <| o_attempts ::= Z.add 1 |>
    <| o_last_error := None |>.

(** [UPDATE .. WHERE id = .. AND status = 'pending' .. RETURNING] *)
Definition _claim_outbox_row (id : uuid) (b : Outbox) : Outbox * option VectorSyncOutbox :=
  match b !! id with
  | Some r => if bool_decide (o_status r = VectorSyncStatus.pending)
              then (<[id := claim_row r]> b, Some (claim_row r)) else (b, None)
  | None => (b, None)
  end.

Fixpoint claim_rows (ids : list uuid) (b : Outbox) : Outbox * list VectorSyncOutbox :=
  match ids with
  | [] => (b, [])
  | id :: ids =>
      let (b1, claimed) := _claim_outbox_row id b in
      let (b2, rest) := claim_rows ids b1 in
      (b2, match claimed with Some r => r :: rest | None => rest end)
  end.

Definition mark_done (now : datetime) (r : VectorSyncOutbox) : VectorSyncOutbox :=
  r <| o_status := VectorSyncStatus.done |> <| o_synced_at := Some now |> <| o_last_error := None |>.

Definition _mark_rows_done (now : datetime) (rows : list VectorSyncOutbox) (b : Outbox) : Outbox :=
  (fun r => if bool_decide (o_id r ∈ o_id <$> rows) then mark_done now r else r) <$> b.

Definition privacy_delete (r : VectorSyncOutbox) : bool :=
  truthy (jget_or_null "privacy_delete" (o_payload r)).

Definition gives_up (r : VectorSyncOutbox) : bool := (3 <=? o_attempts r)%Z && negb (privacy_delete r).

Definition mark_failed (error : string) (r : VectorSyncOutbox) : VectorSyncOutbox :=
  r <| o_status := if gives_up r then VectorSyncStatus.failed else VectorSyncStatus.pending |>
    <| o_last_error := Some error |>.

Fixpoint _mark_rows_failed_or_pending (rows : list VectorSyncOutbox) (error : string) (b : Outbox)
    : Outbox * nat :=
  match rows with
  | [] => (b, 0)
  | row :: rows =>
      let refreshed := default row (b !! o_id row) in
      let (b', n) := _mark_rows_failed_or_pending rows error
                       (<[o_id row := mark_failed error refreshed]> b) in
      (b', if gives_up refreshed then S n else n)
  end.

(** The slices [rows[start : start + chunk_size]]; one step per row suffices. *)
Fixpoint chunks_of (fuel chunk_size : nat) (rows : list VectorSyncOutbox)
    : list (list VectorSyncOutbox) :=
  match fuel, rows with
  | S fuel, _ :: _ => take chunk_size rows :: chunks_of fuel chunk_size (drop chunk_size rows)
  | _, _ => []
  end.

Definition process_chunk (now : datetime)
    (apply_fn : list VectorSyncOutbox -> VS -> VS * option string)
    (chunk : list VectorSyncOutbox) (s : Sync) : Sync * (nat * nat) :=
  match apply_fn chunk (store s) with
  | (v, None) => ({| outbox := _mark_rows_done now chunk (outbox s); store := v |}, (length chunk, 0))
  | (v, Some e) =>
      let (b, n) := _mark_rows_failed_or_pending chunk e (outbox s) in
      ({| outbox := b; store := v |}, (0, n))
  end.

Fixpoint process_chunk_list (now : datetime)
    (apply_fn : list VectorSyncOutbox -> VS -> VS * option string)
    (chunks : list (list VectorSyncOutbox)) (s : Sync) : Sync * (nat * nat) :=
  match chunks with
  | [] => (s, (0, 0))
  | chunk :: chunks =>
      let (s1, c1) := process_chunk now apply_fn chunk s in
      let (s2, c2) := process_chunk_list now apply_fn chunks s1 in
      (s2, (c1.1 + c2.1, c1.2 + c2.2))
  end.

Definition _process_chunks (now : datetime) (rows : list VectorSyncOutbox) (chunk_size : nat)
    (apply_fn : list VectorSyncOutbox -> VS -> VS * option string) (s : Sync) : Sync * (nat * nat) :=
  process_chunk_list now apply_fn (chunks_of (length rows) chunk_size rows) s.

Definition DEFAULT_QDRANT_SYNC_CHUNK_SIZE : nat := 10.

(** [ORDER BY created_at, id] *)
Definition row_le (a b : VectorSyncOutbox) : bool :=
  if (o_created_at a =? o_created_at b)%Z then (o_id a <=? o_id b)%Z
  else (o_created_at a <? o_created_at b)%Z.

(** [scoped] is the tenant filter of a scoped dispatch. *)
Definition pending_ids (scoped : VectorSyncOutbox -> bool) (batch_size : nat) (b : Outbox)
    : list uuid :=
  o_id <$> take batch_size (sort_by row_le
    (filter (fun r => o_status r = VectorSyncStatus.pending /\ scoped r = true)
       (snd <$> map_to_list b))).

Record CycleResult := { claimed_count : nat; done_count : nat; failed_count : nat }.

Definition with_operation (op : VectorSyncOperation.t) (rows : list VectorSyncOutbox) :=
  filter (fun r => o_operation r = op) rows.

Definition run_outbox_cycle (scoped : VectorSyncOutbox -> bool) (batch_size : nat) (now : datetime)
    (s : Sync) : Sync * CycleResult :=
  let (b, claimed) := claim_rows (pending_ids scoped batch_size (outbox s)) (outbox s) in
  let s0 := {| outbox := b; store := store s |} in
  match claimed with
  | [] => (s0, {| claimed_count := 0; done_count := 0; failed_count := 0 |})
  | _ =>
      let (s1, c1) := _process_chunks now (with_operation VectorSyncOperation.upsert claimed)
                        DEFAULT_QDRANT_SYNC_CHUNK_SIZE _apply_upsert_batch s0 in
      let (s2, c2) := _process_chunks now (with_operation VectorSyncOperation.archive claimed)
                        DEFAULT_QDRANT_SYNC_CHUNK_SIZE _apply_archive_batch s1 in
      let (s3, c3) := _process_chunks now (with_operation VectorSyncOperation.delete claimed)
                        DEFAULT_QDRANT_SYNC_CHUNK_SIZE _apply_delete_batch s2 in
      (s3, {| claimed_count := length claimed;
              done_count := c1.1 + c2.1 + c3.1; failed_count := c1.2 + c2.2 + c3.2 |})
  end.
End Task.

(** ** Claiming *)

Definition keyed (b : Outbox) : Prop := forall id r, b !! id = Some r -> o_id r = id.

Lemma pending_ids_elem scoped n b id :
  keyed b -> id ∈ pending_ids scoped n b ->
  exists r, b !! id = Some r /\ o_status r = VectorSyncStatus.pending /\ scoped r = true.
Proof.
  intros Hk Hin. unfold pending_ids in Hin. apply list_elem_of_fmap in Hin as (r & -> & Hin).
  apply (subseteq_take n) in Hin. rewrite sort_by_perm in Hin.
  apply list_elem_of_filter in Hin as [[Hp Hs] Hin].
  apply elem_of_rows in Hin as [i Hi]. exists r. by rewrite (Hk i r Hi).
Qed.

Lemma pending_ids_NoDup scoped n b : keyed b -> NoDup (pending_ids scoped n b).
Proof.
  intros Hk. unfold pending_ids. rewrite fmap_take.
  eapply sublist_NoDup; [|apply sublist_take].
  rewrite sort_by_perm.
  apply (NoDup_fmap_rows b o_id); [done|].
  intros i j x y Hx Hy _ _ Heq. apply Hk in Hx, Hy. congruence.
Qed.

Lemma claim_rows_spec ids b :
  NoDup ids -> (forall id, id ∈ ids -> exists r, b !! id = Some r /\
                  o_status r = VectorSyncStatus.pending /\ o_id r = id) ->
  exists b' rows, claim_rows ids b = (b', rows) /\ o_id <$> rows = ids /\
    (forall row, row ∈ rows -> b' !! o_id row = Some row /\
       exists r, b !! o_id row = Some r /\ row = claim_row r) /\
    (forall id, id ∉ ids -> b' !! id = b !! id).
Proof.
  revert b. induction ids as [|id ids IH]; intros b Hnd Hids.
  { exists b, []. split_and!; try done. intros row Hr. by apply elem_of_nil in Hr. }
  apply NoDup_cons in Hnd as [Hni Hnd].
  destruct (Hids id) as (r & Hr & Hp & Hid); [apply list_elem_of_here|].
  destruct (IH (<[id := claim_row r]> b) Hnd) as (b' & rows & Hc & Hi & Hrows & Hrest).
  { intros id' Hin. rewrite lookup_insert_ne by (intros ->; done).
    by apply Hids, list_elem_of_further. }
  exists b', (claim_row r :: rows). simpl. unfold _claim_outbox_row.
  rewrite Hr, bool_decide_true, Hc by done. split_and!; [done|simpl; f_equal; [exact Hid|exact Hi]| |].
  - intros row Hin. apply elem_of_cons in Hin as [->|Hin].
    + simpl. rewrite Hid, Hrest, lookup_insert_eq by done. split; [done|]. eauto.
    + destruct (Hrows row Hin) as (Hb & r' & Hr' & ->). split; [done|].
      exists r'. split; [|done]. rewrite lookup_insert_ne in Hr'; [done|].
      intros Heq. apply Hni. rewrite <- Hi, Heq. by apply list_elem_of_fmap_2.
  - intros id' Hin. apply not_elem_of_cons in Hin as [Hne Hin].
    rewrite Hrest by done. by rewrite lookup_insert_ne.
Qed.

(** ** Settling the claimed rows *)

(** What a cycle makes of a claimed row. *)
Definition outcome (now : datetime) (row r' : VectorSyncOutbox) : Prop :=
  r' = mark_done now row \/ exists error, r' = mark_failed error row.

Definition has_status (st : VectorSyncStatus.t) (b : Outbox) (id : uuid) : Prop :=
  o_status <$> b !! id = Some st.
#[export] Instance has_status_dec st b id : Decision (has_status st b id).
Proof. unfold has_status. apply _. Defined.

Definition count_status (st : VectorSyncStatus.t) (b : Outbox) (ids : list uuid) : nat :=
  length (filter (has_status st b) ids).

Lemma count_status_ext st b b' ids :
  (forall id, id ∈ ids -> b !! id = b' !! id) -> count_status st b ids = count_status st b' ids.
Proof.
  intros Hext. unfold count_status. f_equal. apply list_filter_ext_in.
  intros id Hin. unfold has_status. by rewrite (Hext id Hin).
Qed.

Lemma count_status_app st b ids ids' :
  count_status st b (ids ++ ids') = count_status st b ids + count_status st b ids'.
Proof. unfold count_status. by rewrite filter_app, length_app. Qed.

Lemma count_status_perm st b ids ids' :
  ids ≡ₚ ids' -> count_status st b ids = count_status st b ids'.
Proof. intros Hp. unfold count_status. by rewrite Hp. Qed.

Record processed (now : datetime) (rows : list VectorSyncOutbox) (b b' : Outbox) (c : nat * nat)
    : Prop := {
  pr_rows row : row ∈ rows -> exists r', b' !! o_id row = Some r' /\ outcome now row r';
  pr_rest id : id ∉ o_id <$> rows -> b' !! id = b !! id;
  pr_done : c.1 = count_status VectorSyncStatus.done b' (o_id <$> rows);
  pr_failed : c.2 = count_status VectorSyncStatus.failed b' (o_id <$> rows);
}.

Lemma processed_nil now b : processed now [] b b (0, 0).
Proof. constructor; try done. intros row Hin. by apply elem_of_nil in Hin. Qed.

Lemma processed_app now r1 r2 b b1 b2 c1 c2 :
  NoDup (o_id <$> (r1 ++ r2)) ->
  processed now r1 b b1 c1 -> processed now r2 b1 b2 c2 ->
  processed now (r1 ++ r2) b b2 (c1.1 + c2.1, c1.2 + c2.2).
Proof.
  rewrite fmap_app. intros Hnd H1 H2. apply NoDup_app in Hnd as (_ & Hdisj & _).
  assert (forall id, id ∈ o_id <$> r1 -> b2 !! id = b1 !! id) as Hkeep.
  { intros id Hin. apply (pr_rest _ _ _ _ _ H2). by apply Hdisj. }
  constructor; simpl.
  - intros row Hin. apply elem_of_app in Hin as [Hin|Hin]; [|by apply (pr_rows _ _ _ _ _ H2)].
    rewrite Hkeep by (by apply list_elem_of_fmap_2). by apply (pr_rows _ _ _ _ _ H1).
  - intros id Hin. rewrite fmap_app in Hin. apply not_elem_of_app in Hin as [Hn1 Hn2].
    rewrite (pr_rest _ _ _ _ _ H2) by done. by apply (pr_rest _ _ _ _ _ H1).
  - rewrite fmap_app, count_status_app, (count_status_ext _ b2 b1 (o_id <$> r1)) by done.
    by rewrite (pr_done _ _ _ _ _ H1), (pr_done _ _ _ _ _ H2).
  - rewrite fmap_app, count_status_app, (count_status_ext _ b2 b1 (o_id <$> r1)) by done.
    by rewrite (pr_failed _ _ _ _ _ H1), (pr_failed _ _ _ _ _ H2).
Qed.

(** The rows are in the outbox as they were claimed. *)
Definition held (rows : list VectorSyncOutbox) (b : Outbox) : Prop :=
  forall row, row ∈ rows -> b !! o_id row = Some row.

Lemma held_app r1 r2 b : held (r1 ++ r2) b <-> held r1 b /\ held r2 b.
Proof.
  unfold held. setoid_rewrite elem_of_app. naive_solver.
Qed.

Lemma processed_held now r1 r2 b b1 c :
  NoDup (o_id <$> (r1 ++ r2)) -> processed now r1 b b1 c -> held r2 b -> held r2 b1.
Proof.
  rewrite fmap_app. intros Hnd H1 H2 row Hin. apply NoDup_app in Hnd as (_ & Hdisj & _).
  rewrite (pr_rest _ _ _ _ _ H1); [by apply H2|]. intros Hr. apply (Hdisj _ Hr).
  by apply list_elem_of_fmap_2.
Qed.

Lemma processed_keyed now rows b b' c :
  keyed b -> held rows b -> processed now rows b b' c -> keyed b'.
Proof.
  intros Hk Hheld Hp id r' Hr'. destruct (decide (id ∈ o_id <$> rows)) as [Hin|Hout].
  - apply list_elem_of_fmap in Hin as (row & -> & Hin).
    destruct (pr_rows _ _ _ _ _ Hp row Hin) as (r & Hr & Hout). rewrite Hr in Hr'.
    injection Hr' as <-. by destruct Hout as [->|[e ->]].
  - rewrite (pr_rest _ _ _ _ _ Hp) in Hr' by done. by apply Hk.
Qed.

Lemma mark_rows_done_processed now rows b :
  keyed b -> held rows b ->
  processed now rows b (_mark_rows_done now rows b) (length rows, 0).
Proof.
  intros Hk Hheld.
  assert (forall row, row ∈ rows ->
            _mark_rows_done now rows b !! o_id row = Some (mark_done now row)) as Hd.
  { intros row Hin. unfold _mark_rows_done. rewrite lookup_fmap, (Hheld row Hin). simpl.
    rewrite bool_decide_true; [done|]. by apply list_elem_of_fmap_2. }
  assert (forall id, id ∈ o_id <$> rows ->
            o_status <$> _mark_rows_done now rows b !! id = Some VectorSyncStatus.done) as Hs.
  { intros id Hin. apply list_elem_of_fmap in Hin as (row & -> & Hin). by rewrite Hd. }
  constructor.
  - intros row Hin. eexists. split; [by apply Hd|]. by left.
  - intros id Hin. unfold _mark_rows_done. rewrite lookup_fmap.
    destruct (b !! id) as [r|] eqn:E; [|done]. simpl. f_equal.
    rewrite bool_decide_false; [done|]. by rewrite (Hk id r E).
  - simpl. unfold count_status. rewrite list_filter_all; [by rewrite length_fmap|].
    intros id Hin. by apply Hs.
  - simpl. unfold count_status. rewrite list_filter_none; [done|].
    intros id Hin. unfold has_status. by rewrite Hs.
Qed.

Lemma mark_rows_failed_processed now rows e b :
  NoDup (o_id <$> rows) -> held rows b ->
  let (b', n) := _mark_rows_failed_or_pending rows e b in processed now rows b b' (0, n).
Proof.
  revert b. induction rows as [|row rows IH]; intros b Hnd Hheld; [by apply processed_nil|].
  simpl. rewrite (Hheld row) by apply list_elem_of_here. simpl.
  set (b1 := <[o_id row := mark_failed e row]> b).
  rewrite fmap_cons in Hnd. pose proof Hnd as [Hni Hnd']%NoDup_cons.
  assert (held rows b1) as Hheld1.
  { intros row' Hin. subst b1. rewrite lookup_insert_ne.
    - apply Hheld. by apply list_elem_of_further.
    - intros Heq. apply Hni. rewrite Heq. by apply list_elem_of_fmap_2. }
  specialize (IH b1 Hnd' Hheld1).
  destruct (_mark_rows_failed_or_pending rows e b1) as [b' n].
  assert (processed now [row] b b1 (0, if gives_up row then 1 else 0)) as H1.
  { assert (b1 !! o_id row = Some (mark_failed e row)) as Hb1 by (subst b1; by rewrite lookup_insert_eq).
    constructor.
    - intros row' Hin. apply list_elem_of_singleton in Hin as ->. eexists. split; [done|]. right. eauto.
    - intros id Hin. subst b1. rewrite lookup_insert_ne; [done|]. intros <-. apply Hin, list_elem_of_here.
    - unfold count_status. simpl. rewrite filter_cons_False; [done|].
      unfold has_status. rewrite Hb1. simpl. by destruct (gives_up row).
    - unfold count_status. simpl. destruct (gives_up row) eqn:Hg.
      + rewrite filter_cons_True; [done|]. unfold has_status. rewrite Hb1. simpl. by rewrite Hg.
      + rewrite filter_cons_False; [done|]. unfold has_status. rewrite Hb1. simpl. by rewrite Hg. }
  pose proof (processed_app now [row] rows b b1 b' _ _ Hnd H1 IH) as H. simpl in H.
  by destruct (gives_up row).
Qed.

Section TaskFacts.
Context {VS : Type} `{!VectorStore VS} `{PyLib}.
Implicit Types s : Sync (VS := VS).

Lemma process_chunk_processed now apply_fn chunk s :
  keyed (outbox s) -> NoDup (o_id <$> chunk) -> held chunk (outbox s) ->
  let (s', c) := process_chunk now apply_fn chunk s in
  processed now chunk (outbox s) (outbox s') c.
Proof.
  intros Hk Hnd Hheld. unfold process_chunk.
  destruct (apply_fn chunk (store s)) as [v [e|]].
  - pose proof (mark_rows_failed_processed now chunk e (outbox s) Hnd Hheld) as H1.
    by destruct (_mark_rows_failed_or_pending chunk e (outbox s)) as [b n].
  - by apply mark_rows_done_processed.
Qed.

Lemma process_chunk_list_processed now apply_fn chunks s :
  keyed (outbox s) -> NoDup (o_id <$> concat chunks) -> held (concat chunks) (outbox s) ->
  let (s', c) := process_chunk_list now apply_fn chunks s in
  processed now (concat chunks) (outbox s) (outbox s') c.
Proof.
  revert s. induction chunks as [|chunk chunks IH]; intros s Hk Hnd Hheld; simpl; [by apply processed_nil|].
  simpl in Hnd, Hheld. pose proof Hheld as [Hh1 Hh2]%held_app.
  assert (NoDup (o_id <$> chunk) /\ NoDup (o_id <$> concat chunks)) as [Hn1 Hn2].
  { rewrite fmap_app in Hnd. apply NoDup_app in Hnd. naive_solver. }
  pose proof (process_chunk_processed now apply_fn chunk s Hk Hn1 Hh1) as H1.
  destruct (process_chunk now apply_fn chunk s) as [s1 c1].
  specialize (IH s1 (processed_keyed _ _ _ _ _ Hk Hh1 H1) Hn2 (processed_held _ _ _ _ _ _ Hnd H1 Hh2)).
  destruct (process_chunk_list now apply_fn chunks s1) as [s2 c2].
  by eapply processed_app.
Qed.

Lemma concat_chunks_of fuel n rows :
  (0 < n)%nat -> (length rows <= fuel)%nat -> concat (chunks_of fuel n rows) = rows.
Proof.
  intros Hn. revert rows. induction fuel as [|fuel IH]; intros [|row rows] Hlen; try done.
  { simpl in Hlen. lia. }
  cbn [chunks_of concat]. rewrite IH; [apply take_drop|].
  rewrite length_drop. simpl in *. lia.
Qed.

Lemma process_chunks_processed now rows n apply_fn s :
  (0 < n)%nat -> keyed (outbox s) -> NoDup (o_id <$> rows) -> held rows (outbox s) ->
  let (s', c) := _process_chunks now rows n apply_fn s in
  processed now rows (outbox s) (outbox s') c.
Proof.
  intros Hn Hk Hnd Hheld. unfold _process_chunks.
  pose proof (process_chunk_list_processed now apply_fn (chunks_of (length rows) n rows) s Hk) as H1.
  rewrite concat_chunks_of in H1 by done. by apply H1.
Qed.

(** The three operations partition the claimed rows. *)
Lemma with_operation_perm rows :
  with_operation VectorSyncOperation.upsert rows
    ++ with_operation VectorSyncOperation.archive rows
    ++ with_operation VectorSyncOperation.delete rows ≡ₚ rows.
Proof.
  unfold with_operation. induction rows as [|r rows IH]; [done|].
  rewrite !filter_cons. destruct (o_operation r); simpl.
  - by rewrite IH.
  - rewrite <- IH at 4. by rewrite <- !Permutation_middle.
  - rewrite <- IH at 4. by rewrite <- !Permutation_middle.
Qed.
End TaskFacts.

(** ** One cycle *)

Section CycleFacts.
Context {VS : Type} `{!VectorStore VS} `{PyLib}.
Implicit Types s : Sync (VS := VS).

(** The outbox after the claims of a cycle were committed. *)
Definition claim_phase (scoped : VectorSyncOutbox -> bool) (batch_size : nat) (b : Outbox) : Outbox :=
  (claim_rows (pending_ids scoped batch_size b) b).1.

Lemma claim_phase_spec scoped n b :
  keyed b ->
  exists rows, claim_rows (pending_ids scoped n b) b = (claim_phase scoped n b, rows) /\
    o_id <$> rows = pending_ids scoped n b /\ held rows (claim_phase scoped n b) /\
    keyed (claim_phase scoped n b) /\
    (forall row, row ∈ rows -> exists r, b !! o_id row = Some r /\ row = claim_row r) /\
    (forall id, id ∉ pending_ids scoped n b -> claim_phase scoped n b !! id = b !! id).
Proof.
  intros Hk.
  destruct (claim_rows_spec (pending_ids scoped n b) b) as (b' & rows & Hc & Hi & Hrows & Hrest).
  - by apply pending_ids_NoDup.
  - intros id Hin. destruct (pending_ids_elem _ _ _ _ Hk Hin) as (r & Hr & Hp & _).
    exists r. by rewrite (Hk id r Hr).
  - assert (claim_phase scoped n b = b') as Hb' by (unfold claim_phase; by rewrite Hc).
    rewrite Hb'. exists rows. split_and!; try done.
    + intros row Hin. by apply Hrows.
    + intros id r Hr. destruct (decide (id ∈ pending_ids scoped n b)) as [Hin|Hout].
      * rewrite <- Hi in Hin. apply list_elem_of_fmap in Hin as (row & -> & Hin).
        destruct (Hrows row Hin) as [Hrow _]. congruence.
      * rewrite Hrest in Hr by done. by apply Hk.
    + intros row Hin. by apply Hrows.
Qed.

Lemma cycle_processed scoped n now s rows :
  keyed (outbox s) ->
  claim_rows (pending_ids scoped n (outbox s)) (outbox s) = (claim_phase scoped n (outbox s), rows) ->
  o_id <$> rows = pending_ids scoped n (outbox s) -> held rows (claim_phase scoped n (outbox s)) ->
  keyed (claim_phase scoped n (outbox s)) ->
  let (s', res) := run_outbox_cycle scoped n now s in
  claimed_count res = length rows /\
  exists rows', rows' ≡ₚ rows /\
  processed now rows' (claim_phase scoped n (outbox s)) (outbox s') (done_count res, failed_count res).
Proof.
  intros Hk0 Hc Hids Hheld Hk. unfold run_outbox_cycle. rewrite Hc.
  destruct rows as [|row rows']; [split; [done|]; exists []; split; [done|]; apply processed_nil|].
  set (rows := row :: rows') in *.
  set (U := with_operation VectorSyncOperation.upsert rows).
  set (A := with_operation VectorSyncOperation.archive rows).
  set (D := with_operation VectorSyncOperation.delete rows).
  assert (U ++ A ++ D ≡ₚ rows) as Hperm by apply with_operation_perm.
  assert (NoDup (o_id <$> (U ++ A ++ D))) as Hnd.
  { rewrite Hperm, Hids. by apply pending_ids_NoDup. }
  assert (held (U ++ A ++ D) (claim_phase scoped n (outbox s))) as Hh.
  { intros r Hin. rewrite Hperm in Hin. by apply Hheld. }
  apply held_app in Hh as Hh'. destruct Hh' as [HhU HhAD].
  pose proof Hnd as Hnd'. rewrite fmap_app in Hnd'. apply NoDup_app in Hnd' as (HnU & _ & HnAD).
  pose proof HnAD as Hnd'. rewrite fmap_app in Hnd'. apply NoDup_app in Hnd' as (HnA & _ & HnD).
  set (s0 := {| outbox := claim_phase scoped n (outbox s); store := store s |}).
  unfold DEFAULT_QDRANT_SYNC_CHUNK_SIZE.
  pose proof (process_chunks_processed now U 10 _apply_upsert_batch s0 ltac:(lia) Hk HnU HhU) as P1.
  destruct (_process_chunks now U 10 _apply_upsert_batch s0) as [s1 c1].
  pose proof (processed_keyed _ _ _ _ _ Hk HhU P1) as Hk1.
  pose proof (processed_held _ _ _ _ _ _ Hnd P1 HhAD) as Hh1.
  pose proof Hh1 as [HhA HhD]%held_app.
  pose proof (process_chunks_processed now A 10 _apply_archive_batch s1 ltac:(lia) Hk1 HnA HhA) as P2.
  destruct (_process_chunks now A 10 _apply_archive_batch s1) as [s2 c2].
  pose proof (processed_keyed _ _ _ _ _ Hk1 HhA P2) as Hk2.
  pose proof (processed_held _ _ _ _ _ _ HnAD P2 HhD) as HhD2.
  pose proof (process_chunks_processed now D 10 _apply_delete_batch s2 ltac:(lia) Hk2 HnD HhD2) as P3.
  destruct (_process_chunks now D 10 _apply_delete_batch s2) as [s3 c3].
  split; [done|]. exists (U ++ A ++ D). split; [done|].
  pose proof (processed_app _ _ _ _ _ _ _ _ HnAD P2 P3) as P23.
  pose proof (processed_app _ _ _ _ _ _ _ _ Hnd P1 P23) as P. simpl in P. by rewrite <- !Nat.add_assoc.
Qed.

(** A sync cycle accounts for every row: it claims at most a batch of
    pending rows in scope, each of them ends done, failed or pending again with
    one more attempt and every other column as it was, no other row changes,
    none is left in processing, and the returned counts are the numbers of rows
    that ended that way. *)
Theorem outbox_cycle_accounts (scoped : VectorSyncOutbox -> bool) (batch_size : nat) (now : datetime)
    (s : Sync) (Hk : keyed (outbox s)) :
  let ids := pending_ids scoped batch_size (outbox s) in
  let (s', res) := run_outbox_cycle scoped batch_size now s in
  keyed (outbox s') /\ NoDup ids /\ (length ids <= batch_size)%nat /\
  (forall id, id ∉ ids -> outbox s' !! id = outbox s !! id) /\
  (forall id, id ∈ ids -> exists r r', outbox s !! id = Some r /\
     o_status r = VectorSyncStatus.pending /\ scoped r = true /\
     outbox s' !! id = Some r' /\ outcome now (claim_row r) r') /\
  claimed_count res = length ids /\
  done_count res = count_status VectorSyncStatus.done (outbox s') ids /\
  failed_count res = count_status VectorSyncStatus.failed (outbox s') ids.
Proof.
  intros ids. destruct (claim_phase_spec scoped batch_size (outbox s) Hk)
    as (rows & Hc & Hi & Hh & Hk1 & Hrows & Hrest).
  pose proof (cycle_processed scoped batch_size now s rows Hk Hc Hi Hh Hk1) as H1.
  destruct (run_outbox_cycle scoped batch_size now s) as [s' res].
  destruct H1 as (Hcount & rows' & Hperm & P).
  assert (o_id <$> rows' ≡ₚ ids) as Hids by (rewrite Hperm; by rewrite Hi).
  split_and!.
  - eapply processed_keyed; [exact Hk1| |exact P]. intros r Hin. apply Hh. by rewrite <- Hperm.
  - by apply pending_ids_NoDup.
  - unfold ids, pending_ids. rewrite length_fmap, length_take. lia.
  - intros id Hout. rewrite (pr_rest _ _ _ _ _ P), Hrest; [done..|]. by rewrite Hids.
  - intros id Hin. destruct (pending_ids_elem _ _ _ _ Hk Hin) as (r & Hr & Hp & Hs).
    rewrite <- Hids in Hin. apply list_elem_of_fmap in Hin as (row & -> & Hin).
    destruct (pr_rows _ _ _ _ _ P row Hin) as (r' & Hr' & Hout).
    rewrite Hperm in Hin. destruct (Hrows row Hin) as (r0 & Hr0 & Hrow).
    exists r, r'. split_and!; try done. congruence.
  - rewrite Hcount. unfold ids. by rewrite <- Hi, length_fmap.
  - rewrite <- (count_status_perm _ _ _ _ Hids). apply (pr_done _ _ _ _ _ P).
  - rewrite <- (count_status_perm _ _ _ _ Hids). apply (pr_failed _ _ _ _ _ P).
Qed.
End CycleFacts.

(** ** Runs of the task *)

Section Runs.
Context {VS : Type} `{!VectorStore VS} `{PyLib}.
Implicit Types s : Sync (VS := VS).

(** What happens to the outbox: another transaction enqueues, a cycle runs, a
    worker dies after committing its claims, the store changes by itself. *)
Inductive outbox_step : Sync (VS := VS) -> Sync (VS := VS) -> Prop :=
  | step_enqueue s id now op memory_id embedding payload :
      outbox s !! id = None ->
      outbox_step s {| outbox := <[id := new_row id now op memory_id embedding payload]> (outbox s);
                       store := store s |}
  | step_cycle s scoped batch_size now :
      outbox_step s (run_outbox_cycle scoped batch_size now s).1
  | step_crash s scoped batch_size v :
      outbox_step s {| outbox := claim_phase scoped batch_size (outbox s); store := v |}
  | step_store s v : outbox_step s {| outbox := outbox s; store := v |}.

(** The retry discipline of one row. *)
Definition row_ok (r : VectorSyncOutbox) : Prop :=
  match o_status r with
  | VectorSyncStatus.pending => (0 <= o_attempts r)%Z /\ ((o_attempts r <= 2)%Z \/ privacy_delete r = true)
  | VectorSyncStatus.processing | VectorSyncStatus.done =>
      (1 <= o_attempts r)%Z /\ ((o_attempts r <= 3)%Z \/ privacy_delete r = true)
  | VectorSyncStatus.failed => o_attempts r = 3%Z /\ privacy_delete r = false
  end.

Definition outbox_ok (b : Outbox) : Prop :=
  keyed b /\ forall id r, b !! id = Some r -> row_ok r.

Lemma claim_row_ok r :
  row_ok r -> o_status r = VectorSyncStatus.pending -> row_ok (claim_row r).
Proof.
  unfold row_ok. intros Hr Hs. rewrite Hs in Hr. simpl. unfold privacy_delete in *. simpl.
  destruct Hr as [? [?|?]]; (split; [lia|]); [left; lia|by right].
Qed.

Lemma outcome_ok now r r' :
  row_ok r -> o_status r = VectorSyncStatus.pending -> outcome now (claim_row r) r' -> row_ok r'.
Proof.
  intros Hr Hs Hout. apply claim_row_ok in Hr; [|done]. unfold row_ok in *.
  destruct Hout as [->|[e ->]]; [done|].
  unfold mark_failed, gives_up. simpl in *. unfold privacy_delete in *. simpl in *.
  destruct (Z.leb_spec 3 (1 + o_attempts r)), (truthy _); simpl; split; try lia; auto;
    destruct Hr as [_ [?|?]]; (lia || done).
Qed.

Lemma outbox_step_ok s s' : outbox_step s s' -> outbox_ok (outbox s) -> outbox_ok (outbox s').
Proof.
  intros Hstep [Hk Hok]. destruct Hstep as [s id now op m emb p Hnone|s scoped n now|s scoped n v|s v].
  - split; intros i r Hr; simpl in Hr; apply lookup_insert_Some in Hr as [[<- <-]|[_ Hr]];
      [done|by apply Hk|unfold row_ok; simpl; split; [lia|left; lia]|by eapply Hok].
  - pose proof (outbox_cycle_accounts scoped n now s Hk) as H1.
    destruct (run_outbox_cycle scoped n now s) as [s' res]. simpl.
    destruct H1 as (Hk' & _ & _ & Hrest & Hin & _). split; [done|].
    intros id r' Hr'. destruct (decide (id ∈ pending_ids scoped n (outbox s))) as [Hid|Hid].
    + destruct (Hin id Hid) as (r & r2 & Hr & Hp & _ & Hr2 & Hout).
      rewrite Hr2 in Hr'. injection Hr' as <-. eapply outcome_ok; [by eapply Hok|done..].
    + rewrite Hrest in Hr' by done. by eapply Hok.
  - destruct (claim_phase_spec scoped n (outbox s) Hk) as (rows & _ & Hi & Hh & Hk1 & Hrows & Hrest).
    split; [done|]. simpl. intros id r' Hr'.
    destruct (decide (id ∈ pending_ids scoped n (outbox s))) as [Hid|Hid].
    + destruct (pending_ids_elem _ _ _ _ Hk Hid) as (r & Hr & Hp & _).
      rewrite <- Hi in Hid. apply list_elem_of_fmap in Hid as (row & -> & Hin).
      rewrite (Hh row Hin) in Hr'. injection Hr' as <-.
      destruct (Hrows row Hin) as (r0 & Hr0 & ->). apply claim_row_ok; [by eapply Hok|congruence].
    + rewrite Hrest in Hr' by done. by eapply Hok.
  - by split.
Qed.

(** Whatever the store does and wherever workers die, from an empty outbox
    no row is attempted more than three times unless it is a privacy delete, a
    row is given up exactly after its third attempt, and a privacy delete is
    never given up. *)
Theorem outbox_retry_discipline (s0 s : Sync (VS := VS)) (Hempty : outbox s0 = ∅)
    (Hruns : rtc outbox_step s0 s) (id : uuid) (r : VectorSyncOutbox)
    (Hr : outbox s !! id = Some r) :
  row_ok r /\ (privacy_delete r = true -> o_status r <> VectorSyncStatus.failed) /\
  (privacy_delete r = false -> (o_attempts r <= 3)%Z).
Proof.
  assert (outbox_ok (outbox s)) as [_ Hok].
  { assert (outbox_ok (outbox s0)) as H0.
    { rewrite Hempty. split; intros i x Hx; by rewrite lookup_empty in Hx. }
    clear Hr Hempty. induction Hruns as [|s1 s2 s3 Hstep _ IH]; [done|].
    apply IH. by eapply outbox_step_ok. }
  pose proof (Hok id r Hr) as Hrow. split; [done|]. unfold row_ok in Hrow.
  destruct (o_status r), (privacy_delete r); split; intros; try done; try lia;
    destruct Hrow as [? [?|?]]; (lia || done).
Qed.

(** A row whose worker died between committing its claim and applying it
    stays in [processing] for ever: no later cycle picks it up again. *)
Theorem interrupted_claim_is_never_retried (s s' : Sync (VS := VS)) (id : uuid)
    (r : VectorSyncOutbox) (Hk : keyed (outbox s)) (Hr : outbox s !! id = Some r)
    (Hstuck : o_status r = VectorSyncStatus.processing) (Hruns : rtc outbox_step s s') :
  outbox s' !! id = Some r.
Proof.
  induction Hruns as [|s1 s2 s3 Hstep _ IH]; [done|].
  assert (forall scoped n, keyed (outbox s1) -> id ∉ pending_ids scoped n (outbox s1)) as Hnp.
  { intros scoped n _ Hin. destruct (pending_ids_elem _ _ _ _ Hk Hin) as (r0 & Hr0 & Hp & _).
    congruence. }
  apply IH; destruct Hstep as [s id' now op m emb p Hnone|s scoped n now|s scoped n v|s v]; try done.
  - intros i x Hx. simpl in Hx. apply lookup_insert_Some in Hx as [[<- <-]|[_ Hx]]; [done|by apply Hk].
  - pose proof (outbox_cycle_accounts scoped n now s Hk) as H1.
    by destruct (run_outbox_cycle scoped n now s) as [s' res], H1 as [Hk' _].
  - by destruct (claim_phase_spec scoped n (outbox s) Hk) as (rows & _ & _ & _ & ? & _).
  - simpl. rewrite lookup_insert_ne; [done|]. intros ->. congruence.
  - pose proof (outbox_cycle_accounts scoped n now s Hk) as H1.
    destruct (run_outbox_cycle scoped n now s) as [s' res]. destruct H1 as (_ & _ & _ & Hrest & _).
    simpl. rewrite Hrest; [done|]. by apply Hnp.
  - destruct (claim_phase_spec scoped n (outbox s) Hk) as (rows & _ & _ & _ & _ & _ & Hrest).
    simpl. rewrite Hrest; [done|]. by apply Hnp.
Qed.
End Runs.

(** ** Draining *)

Section Draining.
Context {VS : Type} `{!VectorStore VS} `{PyLib}.
Implicit Types s : Sync (VS := VS).

Definition healthy : Prop :=
  (forall c ps v, (vs_upsert c ps v).2 = None) /\
  (forall c p m v, (vs_set_payload c p m v).2 = None) /\
  (forall c ms v, (vs_delete c ms v).2 = None).

Lemma run_calls_healthy (calls : list (VS -> VS * option string)) v :
  (forall f, f ∈ calls -> forall v, (f v).2 = None) -> (run_calls calls v).2 = None.
Proof.
  revert v. induction calls as [|f calls IH]; intros v Hf; [done|]. simpl.
  pose proof (Hf f (list_elem_of_here _ _) v) as E. destruct (f v) as [v' [e|]]; [done|].
  apply IH. intros g Hg. by apply Hf, list_elem_of_further.
Qed.

Lemma batches_healthy rows v :
  healthy -> (_apply_upsert_batch rows v).2 = None /\ (_apply_archive_batch rows v).2 = None /\
             (_apply_delete_batch rows v).2 = None.
Proof.
  intros (Hu & Ha & Hd).
  split_and!; apply run_calls_healthy; intros f Hf w; apply list_elem_of_fmap in Hf as (g & -> & _);
    [apply Hu| |apply Hd].
  apply run_calls_healthy. intros f Hf x. apply list_elem_of_fmap in Hf as (r & -> & _). apply Ha.
Qed.

Lemma process_chunk_list_healthy now apply_fn chunks s :
  (forall rows v, (apply_fn rows v).2 = None) ->
  (process_chunk_list now apply_fn chunks s).2 = (length (concat chunks), 0).
Proof.
  intros Hok. revert s. induction chunks as [|chunk chunks IH]; intros s; [done|]. simpl.
  unfold process_chunk. specialize (Hok chunk (store s)).
  destruct (apply_fn chunk (store s)) as [v [e|]]; [done|].
  specialize (IH {| outbox := _mark_rows_done now chunk (outbox s); store := v |}).
  destruct (process_chunk_list _ _ _ _) as [s2 c2]. simpl in *. subst. by rewrite length_app.
Qed.

Lemma process_chunks_healthy now rows n apply_fn s :
  (0 < n)%nat -> (forall rows v, (apply_fn rows v).2 = None) ->
  (_process_chunks now rows n apply_fn s).2 = (length rows, 0).
Proof.
  intros Hn Hok. unfold _process_chunks. rewrite process_chunk_list_healthy by done.
  by rewrite concat_chunks_of.
Qed.

Lemma cycle_healthy scoped n now s :
  healthy -> let res := (run_outbox_cycle scoped n now s).2 in
  done_count res = claimed_count res /\ failed_count res = 0.
Proof.
  intros Hh. unfold run_outbox_cycle.
  destruct (claim_rows _ _) as [b [|row rows]]; [done|]. set (all := row :: rows).
  set (s0 := {| outbox := b; store := store s |}).
  unfold DEFAULT_QDRANT_SYNC_CHUNK_SIZE.
  pose proof (process_chunks_healthy now (with_operation VectorSyncOperation.upsert all) 10
    _apply_upsert_batch s0 ltac:(lia) (fun r v => proj1 (batches_healthy r v Hh))) as E1.
  destruct (_process_chunks _ _ _ _ s0) as [s1 c1]. simpl in E1. subst c1.
  pose proof (process_chunks_healthy now (with_operation VectorSyncOperation.archive all) 10
    _apply_archive_batch s1 ltac:(lia) (fun r v => proj1 (proj2 (batches_healthy r v Hh)))) as E2.
  destruct (_process_chunks _ _ _ _ s1) as [s2 c2]. simpl in E2. subst c2.
  pose proof (process_chunks_healthy now (with_operation VectorSyncOperation.delete all) 10
    _apply_delete_batch s2 ltac:(lia) (fun r v => proj2 (proj2 (batches_healthy r v Hh)))) as E3.
  destruct (_process_chunks _ _ _ _ s2) as [s3 c3]. simpl in E3. subst c3.
  pose proof (Permutation_length (with_operation_perm all)) as Hlen.
  rewrite !length_app in Hlen. simpl. split; [|done]. subst all. simpl in *. lia.
Qed.

(** The ids of the pending rows in scope. *)
Definition pending_set (scoped : VectorSyncOutbox -> bool) (b : Outbox) : gset uuid :=
  dom (filter (fun ir => o_status ir.2 = VectorSyncStatus.pending /\ scoped ir.2 = true) b).

Lemma elem_of_pending_set scoped b id :
  id ∈ pending_set scoped b <->
  exists r, b !! id = Some r /\ o_status r = VectorSyncStatus.pending /\ scoped r = true.
Proof.
  unfold pending_set. rewrite elem_of_dom. unfold is_Some.
  setoid_rewrite map_lookup_filter_Some. naive_solver.
Qed.

Lemma pending_ids_length scoped n b :
  keyed b -> length (pending_ids scoped n b) = Nat.min n (size (pending_set scoped b)).
Proof.
  intros Hk. unfold pending_ids. rewrite length_fmap, length_take. f_equal.
  rewrite sort_by_perm.
  set (l := filter _ _).
  assert (pending_set scoped b = list_to_set (o_id <$> l)) as ->.
  { apply set_eq. intros id. rewrite elem_of_pending_set, elem_of_list_to_set, list_elem_of_fmap.
    unfold l. setoid_rewrite list_elem_of_filter. setoid_rewrite elem_of_rows. split.
    - intros (r & Hr & ? & ?). exists r. rewrite (Hk id r Hr). eauto.
    - intros (r & -> & [? ?] & [i Hi]). exists r. by rewrite (Hk i r Hi). }
  rewrite size_list_to_set; [by rewrite length_fmap|].
  apply (NoDup_fmap_rows b o_id); [done|].
  intros i j x y Hx Hy _ _ Heq. apply Hk in Hx, Hy. congruence.
Qed.

Lemma cycle_pending scoped n now s :
  healthy -> keyed (outbox s) ->
  let s' := (run_outbox_cycle scoped n now s).1 in
  keyed (outbox s') /\
  size (pending_set scoped (outbox s')) = size (pending_set scoped (outbox s)) - n.
Proof.
  intros Hh Hk. pose proof (cycle_healthy scoped n now s Hh) as [Hd _].
  pose proof (outbox_cycle_accounts scoped n now s Hk) as H1.
  destruct (run_outbox_cycle scoped n now s) as [s' res]. simpl in *.
  destruct H1 as (Hk' & Hnd & _ & Hrest & Hin & Hcl & Hdc & _). split; [done|].
  set (ids := pending_ids scoped n (outbox s)) in *.
  assert (forall id, id ∈ ids -> has_status VectorSyncStatus.done (outbox s') id) as Hall.
  { apply (list_filter_length_all (has_status VectorSyncStatus.done (outbox s'))). unfold count_status in Hdc. lia. }
  assert (pending_set scoped (outbox s') = pending_set scoped (outbox s) ∖ list_to_set ids) as ->.
  { apply set_eq. intros id. rewrite elem_of_difference, elem_of_list_to_set, !elem_of_pending_set.
    destruct (decide (id ∈ ids)) as [Hid|Hid]; [|rewrite Hrest by done; naive_solver].
    split; [|naive_solver]. intros (r & Hr & Hp & _).
    specialize (Hall id Hid) as Hs. unfold has_status in Hs. rewrite Hr in Hs. simpl in Hs. congruence. }
  rewrite size_difference.
  - rewrite size_list_to_set by done. unfold ids. rewrite pending_ids_length by done. lia.
  - intros id Hid. apply elem_of_list_to_set in Hid. apply elem_of_pending_set.
    by apply (pending_ids_elem scoped n (outbox s) id Hk).
Qed.

(** While the store accepts every call, repeated cycles drain the outbox:
    [k] cycles of batches of [n] leave no pending row in scope as soon as
    [k * n] covers the pending rows there were. *)
Theorem healthy_store_drains (scoped : VectorSyncOutbox -> bool) (n k : nat) (now : datetime)
    (s : Sync (VS := VS)) (Hhealthy : healthy) (Hk : keyed (outbox s))
    (Henough : (size (pending_set scoped (outbox s)) <= k * n)%nat) :
  pending_set scoped (outbox (Nat.iter k (fun s => (run_outbox_cycle scoped n now s).1) s)) = ∅.
Proof.
  assert (forall k, let s' := Nat.iter k (fun s => (run_outbox_cycle scoped n now s).1) s in
    keyed (outbox s') /\
    size (pending_set scoped (outbox s')) = size (pending_set scoped (outbox s)) - k * n) as Hiter.
  { clear k Henough. induction k as [|k IH]; [split; [done|simpl; lia]|].
    destruct IH as [Hk' Hsz]. simpl.
    destruct (cycle_pending scoped n now _ Hhealthy Hk') as [? Hsz']. split; [done|].
    rewrite Hsz', Hsz. lia. }
  destruct (Hiter k) as [_ Hsz]. apply leibniz_equiv, size_empty_iff. lia.
Qed.
End Draining.

(** ** A store in memory, for examples *)

(** The payload of each point, and which of the next calls raise. *)
Record MemStore := { points : gmap uuid obj; failures : list bool }.

Definition mem_call (f : gmap uuid obj -> gmap uuid obj) (v : MemStore) : MemStore * option string :=
  match failures v with
  | true :: l => ({| points := points v; failures := l |}, Some "timed out")
  | l => ({| points := f (points v); failures := drop 1 l |}, None)
  end.

#[export] Instance mem_store : VectorStore MemStore := {|
  COLLECTION_NAME := "memories";
  VECTOR_SIZE := 1536;
  ensure_collection _ _ v := v;
  vs_upsert _ ps := mem_call (fun m => foldr (fun p => insert (p_id p) (p_payload p)) m ps);
  vs_set_payload _ p m := mem_call (fun ps => alter (fun old => foldr (fun kv => jset kv.1 kv.2) old p) m ps);
  vs_delete _ ms := mem_call (fun m => foldr (fun i => delete i) m ms);
|}.

Section OutboxExamples.
#[local] Existing Instance example_pylib.

(** Memory 7 was stored at time 1 and archived at time 2. *)
Definition stored_then_archived : Outbox :=
  enqueue_vector_archive 101 2 7 [("is_archived", JBool true)]
    (enqueue_vector_upsert 100 1 7 [1%Q] [("is_archived", JBool false)] ∅).

Definition every_row (_ : VectorSyncOutbox) : bool := true.

(** The outbox does not keep the order of a memory's changes: if the upsert
    of a memory fails once while its later archive goes through, the retry
    writes the older payload last, and with every row done the store says the
    memory is not archived. *)
Theorem retried_upsert_overwrites_archive :
  let s0 := {| outbox := stored_then_archived;
               store := {| points := {[7%Z := []]}; failures := [true] |} |} in
  let s1 := (run_outbox_cycle every_row 100 10 s0).1 in
  let s2 := (run_outbox_cycle every_row 100 15 s1).1 in
  points (store s1) !! 7%Z = Some [("is_archived", JBool true)] /\
  points (store s2) !! 7%Z = Some [("is_archived", JBool false)] /\
  (o_status <$> outbox s2 !! 100%Z) = Some VectorSyncStatus.done /\
  (o_status <$> outbox s2 !! 101%Z) = Some VectorSyncStatus.done.
Proof. vm_compute. by repeat split. Qed.

Lemma stored_then_archived_keyed : keyed stored_then_archived.
Proof.
  intros id r Hr. unfold stored_then_archived, enqueue_vector_archive, enqueue_vector_upsert in Hr.
  rewrite !lookup_insert_Some, lookup_empty in Hr. naive_solver.
Qed.

Definition example_sync : Sync :=
  {| outbox := stored_then_archived; store := {| points := ∅; failures := [true] |} |}.

Lemma outbox_cycle_accounts_witness :
  (run_outbox_cycle every_row 100 10 example_sync).2
    = {| claimed_count := 2; done_count := 1; failed_count := 0 |} /\
  keyed (outbox (run_outbox_cycle every_row 100 10 example_sync).1).
Proof.
  split; [reflexivity|].
  pose proof (outbox_cycle_accounts every_row 100 10 example_sync stored_then_archived_keyed) as H.
  destruct (run_outbox_cycle every_row 100 10 example_sync) as [s' res]. exact (proj1 H).
Defined.

Definition one_pending : Sync :=
  {| outbox := <[5%Z := new_row 5 1 VectorSyncOperation.delete 7 None []]> ∅;
     store := {| points := ∅; failures := [] |} |}.

Lemma outbox_retry_discipline_witness :
  exists r, outbox one_pending !! 5%Z = Some r /\ row_ok r.
Proof.
  eexists. split; [reflexivity|].
  refine (proj1 (outbox_retry_discipline {| outbox := ∅; store := store one_pending |} one_pending
                   eq_refl _ 5 _ eq_refl)).
  apply rtc_once. apply (step_enqueue {| outbox := ∅; store := store one_pending |}). reflexivity.
Defined.

Lemma interrupted_claim_is_never_retried_witness :
  let s := {| outbox := claim_phase every_row 100 (outbox one_pending); store := store one_pending |} in
  exists r, o_status r = VectorSyncStatus.processing /\
    outbox (run_outbox_cycle every_row 100 20 s).1 !! 5%Z = Some r.
Proof.
  intros s. eexists. split; [|refine (interrupted_claim_is_never_retried s _ 5 _ _ eq_refl _ _)].
  - reflexivity.
  - intros id r Hr. vm_compute in Hr. destruct (decide (id = 5%Z)) as [->|Hne].
    + vm_compute in Hr. injection Hr as <-. reflexivity.
    + exfalso. assert (outbox s !! id = Some r) as Hr' by exact Hr. clear Hr.
      unfold s in Hr'. simpl in Hr'.
      apply elem_of_map_to_list in Hr'. vm_compute in Hr'. apply list_elem_of_singleton in Hr'.
      injection Hr' as -> _. exact (Hne eq_refl).
  - reflexivity.
  - apply rtc_once, step_cycle.
Defined.

(** A store that accepts every call. *)
Definition reliable_store : VectorStore (gmap uuid obj) := {|
  COLLECTION_NAME := "memories";
  VECTOR_SIZE := 1536;
  ensure_collection _ _ v := v;
  vs_upsert _ ps v := (foldr (fun p => insert (p_id p) (p_payload p)) v ps, None);
  vs_set_payload _ p m v := (alter (fun old => foldr (fun kv => jset kv.1 kv.2) old p) m v, None);
  vs_delete _ ms v := (foldr (fun i => delete i) v ms, None);
|}.

Lemma healthy_store_drains_witness :
  let s := {| outbox := stored_then_archived; store := ∅ |} in
  pending_set every_row (outbox s) = {[100%Z; 101%Z]} /\
  pending_set every_row
    (outbox (Nat.iter 2 (fun s => (@run_outbox_cycle _ reliable_store _ every_row 1 10 s).1) s)) = ∅.
Proof.
  split; [vm_compute; reflexivity|].
  apply (@healthy_store_drains _ reliable_store _ every_row 1 2 10
           {| outbox := stored_then_archived; store := ∅ |}).
  - by split_and!.
  - exact stored_then_archived_keyed.
  - vm_compute. lia.
Defined.
End OutboxExamples.
