(* ===== verification/Versions.v ===== *)
(** * Version history

    [VersionService] of [api/services/version_service.py]: every change of a
    memory appends an immutable numbered snapshot; histories and exports read
    them back.  The tenant's memories ([MemoryVersion]) and a passport holder's
    universal memories ([UniversalMemoryVersion]) keep separate tables with the
    same numbering, proved once in [NumberedLog]. *)

From S2P Require Export VectorOutbox.

(** ** Numbered logs *)

Section NumberedLog.
Context {V : Type} (parent : V -> uuid) (number : V -> Z).

Definition versions_of (p : uuid) (t : gmap uuid V) : list V :=
  filter (fun v => parent v = p) (snd <$> map_to_list t).

(** [coalesce(max(version_number), 0) + 1] over the parent's rows *)
Definition next_version_number (p : uuid) (t : gmap uuid V) : Z :=
  (foldr (fun v m => Z.max (number v) m) 0 (versions_of p t) + 1)%Z.

Definition number_le (a b : V) : bool := (number a <=? number b)%Z.

(** [ORDER BY version_number ASC] *)
Definition history (p : uuid) (t : gmap uuid V) : list V := sort_by number_le (versions_of p t).

(** The parent's rows are numbered [1 .. n]. *)
Definition numbered (p : uuid) (t : gmap uuid V) (vs : list V) : Prop :=
  history p t = vs /\ number <$> vs = seqZ 1 (Z.of_nat (length vs)).

Lemma versions_of_empty p : versions_of p ∅ = [].
Proof. done. Qed.

Lemma versions_of_insert p t i v :
  t !! i = None ->
  versions_of p (<[i := v]> t) ≡ₚ (if decide (parent v = p) then [v] else []) ++ versions_of p t.
Proof.
  intros Hi. unfold versions_of. rewrite map_to_list_insert by done. simpl.
  rewrite filter_cons. by destruct (decide (parent v = p)).
Qed.

Lemma foldr_max_perm (l l' : list V) :
  l ≡ₚ l' -> foldr (fun v m => Z.max (number v) m) 0%Z l = foldr (fun v m => Z.max (number v) m) 0%Z l'.
Proof. induction 1; simpl; lia. Qed.

Lemma foldr_max_seqZ (l : list V) (s : Z) :
  (0 <= s)%Z -> number <$> l = seqZ (s + 1) (Z.of_nat (length l)) -> l <> [] ->
  foldr (fun v m => Z.max (number v) m) 0%Z l = (s + Z.of_nat (length l))%Z.
Proof.
  revert s. induction l as [|v l IH]; intros s Hs Hn Hne; [done|]. simpl in *.
  rewrite seqZ_cons in Hn by lia. injection Hn as Hv Hl.
  replace (Z.pred (Z.of_nat (S (length l)))) with (Z.of_nat (length l)) in Hl by lia.
  destruct l as [|w l]; [simpl in *; lia|].
  rewrite (IH (Z.succ s)); [simpl in *; lia|lia| |done].
  etransitivity; [exact Hl|f_equal; lia].
Qed.

Lemma next_version_number_numbered p t vs :
  numbered p t vs -> next_version_number p t = (Z.of_nat (length vs) + 1)%Z.
Proof.
  intros [Hh Hn]. unfold next_version_number. f_equal.
  rewrite (foldr_max_perm _ vs) by (rewrite <- Hh; symmetry; apply sort_by_perm).
  destruct vs as [|v vs]; [done|]. by rewrite (foldr_max_seqZ _ 0).
Qed.

Lemma number_le_sorted l : StronglySorted (fun a b => number_le a b = true) (sort_by number_le l).
Proof.
  apply Sorted_StronglySorted.
  - intros a b c. unfold number_le. rewrite !Z.leb_le. lia.
  - apply sort_by_sorted. intros a b. unfold number_le. rewrite Z.leb_gt, Z.leb_le. lia.
Qed.

Lemma seqZ_sorted l s :
  number <$> l = seqZ s (Z.of_nat (length l)) -> StronglySorted (fun a b => number_le a b = true) l.
Proof.
  revert s. induction l as [|v l IH]; intros s Hl; [constructor|].
  rewrite fmap_cons, length_cons, seqZ_cons in Hl by lia. injection Hl as Hv Hl.
  replace (Z.pred (Z.of_nat (S (length l)))) with (Z.of_nat (length l)) in Hl by lia.
  constructor; [by eapply IH|]. apply Forall_forall. intros w Hw.
  assert (number w ∈ number <$> l) as Hin by (by apply list_elem_of_fmap_2).
  rewrite Hl in Hin. apply elem_of_seqZ in Hin. unfold number_le. apply Z.leb_le. lia.
Qed.

Lemma seqZ_number_inj l s a b :
  number <$> l = seqZ s (Z.of_nat (length l)) -> a ∈ l -> b ∈ l -> number a = number b -> a = b.
Proof.
  intros Hl Ha Hb Hab. apply list_elem_of_lookup in Ha as [i Hi], Hb as [j Hj].
  assert (NoDup (number <$> l)) as Hnd by (rewrite Hl; apply NoDup_seqZ).
  assert (i = j) as ->; [|congruence].
  eapply (NoDup_lookup _ i j (number a) Hnd); rewrite list_lookup_fmap; [by rewrite Hi|].
  by rewrite Hj, Hab.
Qed.

(** Appending the next number extends the history at its end. *)
Lemma numbered_insert p t vs i v :
  t !! i = None -> numbered p t vs -> parent v = p -> number v = next_version_number p t ->
  numbered p (<[i := v]> t) (vs ++ [v]).
Proof.
  intros Hi Hnum Hp Hn. pose proof Hnum as [Hh Hs].
  rewrite (next_version_number_numbered p t vs Hnum) in Hn.
  assert (number <$> (vs ++ [v]) = seqZ 1 (Z.of_nat (length (vs ++ [v])))) as Hseq.
  { rewrite length_app. simpl. rewrite fmap_app. simpl. rewrite Hs, Hn.
    replace (Z.of_nat (length vs + 1)) with (Z.of_nat (length vs) + 1)%Z by lia.
    rewrite seqZ_app by lia. f_equal. rewrite (seqZ_cons _ 1) by lia. simpl.
    replace (Z.pred 1) with 0%Z by lia. unfold seqZ. simpl. f_equal. lia. }
  split; [|done]. unfold history.
  apply (StronglySorted_unique_strong (fun a b => number_le a b = true)).
  - intros a b Ha Hb Hab Hba. unfold number_le in *. apply Z.leb_le in Hab, Hba.
    eapply seqZ_number_inj; [exact Hseq| |done|lia].
    rewrite sort_by_perm, versions_of_insert, decide_True in Ha by done.
    rewrite <- Hh. unfold history. rewrite sort_by_perm, elem_of_app in *. naive_solver.
  - apply number_le_sorted.
  - by eapply seqZ_sorted.
  - rewrite sort_by_perm, versions_of_insert, decide_True by done. simpl.
    rewrite <- Hh. unfold history. rewrite sort_by_perm. by rewrite Permutation_cons_append.
Qed.

Lemma numbered_insert_ne p t vs i v :
  t !! i = None -> numbered p t vs -> parent v <> p -> numbered p (<[i := v]> t) vs.
Proof.
  intros Hi [Hh Hs] Hp. split; [|done]. rewrite <- Hh. unfold history.
  apply (StronglySorted_unique_strong (fun a b => number_le a b = true));
    [|apply number_le_sorted..|].
  - intros a b Ha Hb Hab Hba. unfold number_le in *. apply Z.leb_le in Hab, Hba.
    eapply seqZ_number_inj; [exact Hs| | |lia]; rewrite <- Hh; [|done].
    unfold history. by rewrite sort_by_perm, versions_of_insert, decide_False, <- (sort_by_perm number_le) in Ha.
  - by rewrite !sort_by_perm, versions_of_insert, decide_False.
Qed.
End NumberedLog.

(** ** The tenant's memories *)

Record ProxyUser := {
  pu_id : uuid;
  pu_tenant_id : uuid;
  pu_is_blocked : bool;
  pu_external_user_id_hash : string;
}.

Record VersionDb := {
  db_memories : gmap uuid Memory;
  db_proxy_users : gmap uuid ProxyUser;
  db_versions : gmap uuid MemoryVersion;
}.

Inductive version_exn :=
  | InvalidChange (what : string)
  | PermissionDenied (what : string).

Abbreviation VM := (M VersionDb version_exn).

Definition ALLOWED_CHANGE_TYPES : list string :=
  ["created"; "conflict_update"; "manual_edit"; "importance_decay"; "importance_boost"; "archived";
   "conflict_resolved"].
Definition ALLOWED_CHANGED_BY : list string := ["system"; "user"; "operator"].

Definition valid_change (types by_ : list string) (change_type changed_by : string) : option string :=
  if negb (bool_decide (change_type ∈ types)) then Some ("change_type: " +:+ change_type)
  else if negb (bool_decide (changed_by ∈ by_)) then Some ("changed_by: " +:+ changed_by)
  else None.

Definition _validate_change (change_type changed_by : string) : VM unit :=
  match valid_change ALLOWED_CHANGE_TYPES ALLOWED_CHANGED_BY change_type changed_by with
  | Some what => raise_st (InvalidChange what)
  | None => mret tt
  end.

Definition new_version (id : uuid) (memory : Memory) (number : Z) (change_type : string)
    (change_reason : option string) (changed_by : string) : MemoryVersion :=
  {| v_id := id; v_memory_id := m_id memory; v_version_number := number;
     v_content := m_content memory; v_category := MemoryCategory.value (m_category memory);
     v_importance_score := m_importance_score memory; v_confidence := m_confidence_score memory;
     v_change_type := change_type; v_change_reason := change_reason; v_changed_by := changed_by |}.

(** [record_version] and its async twin [arecord_version] *)
Definition record_version (id : uuid) (memory : Memory) (change_type : string)
    (change_reason : option string) (changed_by : string) : VM MemoryVersion :=
  _validate_change change_type changed_by;;
  db ← get_st;
  let version := new_version id memory
    (next_version_number v_memory_id v_version_number (m_id memory) (db_versions db))
    change_type change_reason changed_by in
  modify_st (fun db => db <| db_versions ::= insert id version |>);;
  mret version.

(** [safe_record_version] and [asafe_record_version]: exceptions are logged. *)
Definition safe_record_version (id : uuid) (memory : Memory) (change_type : string)
    (change_reason : option string) (changed_by : string) : VM (option MemoryVersion) :=
  fun db => match record_version id memory change_type change_reason changed_by db with
            | (db', inr v) => (db', inr (Some v))
            | (db', inl _) => (db', inr None)
            end.

Definition _verify_memory_tenant (memory_id tenant_id : uuid) : VM Memory :=
  db ← get_st;
  lift_opt (PermissionDenied "memory_not_found_for_tenant")
    (m ← db_memories db !! memory_id;
     u ← db_proxy_users db !! m_proxy_user_id m;
     if bool_decide (pu_tenant_id u = tenant_id) && negb (pu_is_blocked u) then Some m else None).

Definition get_history (memory_id tenant_id : uuid) : VM (list MemoryVersion) :=
  _verify_memory_tenant memory_id tenant_id;;
  db ← get_st;
  mret (history v_memory_id v_version_number memory_id (db_versions db)).

(** One memory of an export, with its versions oldest first. *)
Record ExportedMemory := { ex_memory : Memory; ex_versions : list MemoryVersion }.

(** [ORDER BY created_at ASC, id ASC] *)
Definition memory_le (a b : Memory) : bool :=
  if (m_created_at a =? m_created_at b)%Z then (m_id a <=? m_id b)%Z
  else (m_created_at a <? m_created_at b)%Z.

Definition memories_of_proxy_user (p : uuid) (db : VersionDb) : list Memory :=
  filter (fun m => m_proxy_user_id m = p) (snd <$> map_to_list (db_memories db)).

Definition get_user_data_export (proxy_user_id tenant_id : uuid) : VM (list ExportedMemory) :=
  db ← get_st;
  match db_proxy_users db !! proxy_user_id with
  | Some u =>
      if bool_decide (pu_tenant_id u = tenant_id)
      then mret ((fun m => {| ex_memory := m;
                              ex_versions := history v_memory_id v_version_number (m_id m) (db_versions db) |})
                   <$> sort_by memory_le (memories_of_proxy_user proxy_user_id db))
      else raise_st (PermissionDenied "proxy_user_not_found_for_tenant")
  | None => raise_st (PermissionDenied "proxy_user_not_found_for_tenant")
  end.

(** ** Universal memories *)

Module Universal.

Record UniversalMemory := {
  um_id : uuid;
  um_user_uui_id : uuid;
  um_source_agent_id : option uuid;
  um_source_org_connection_id : option uuid;
  um_source_type : string;
  um_content : string;
  um_content_envelope : option json;
  um_category : string;
  um_importance_score : Q;
  um_confidence : Q;
  um_embedding_id : option string;
  um_created_at : datetime;
  um_last_accessed_at : datetime;
  um_is_archived : bool;
  um_is_flagged : bool;
  um_metadata_json : obj;
}.

Record UniversalMemoryVersion := {
  uv_id : uuid;
  uv_universal_memory_id : uuid;
  uv_version_number : Z;
  uv_content : string;
  uv_category : string;
  uv_importance_score : Q;
  uv_confidence : Q;
  uv_change_type : string;
  uv_change_reason : option string;
  uv_changed_by : string;
  uv_changed_by_agent_id : option uuid;
}.

Record UniversalDb := {
  ud_memories : gmap uuid UniversalMemory;
  ud_versions : gmap uuid UniversalMemoryVersion;
}.

Definition ALLOWED_UNIVERSAL_CHANGE_TYPES : list string :=
  ["created"; "user_corrected"; "user_removed"; "conflict_resolved"; "agent_updated";
   "importance_decay"; "importance_boost"; "archived"].
Definition ALLOWED_UNIVERSAL_CHANGED_BY : list string := ["system"; "user"; "agent"].

(** [record_universal_version] and its sync twin *)
Definition record_universal_version (id : uuid) (memory : UniversalMemory) (change_type : string)
    (change_reason : option string) (changed_by : string) (changed_by_agent_id : option uuid)
    : M UniversalDb version_exn UniversalMemoryVersion :=
  match valid_change ALLOWED_UNIVERSAL_CHANGE_TYPES ALLOWED_UNIVERSAL_CHANGED_BY change_type changed_by with
  | Some what => raise_st (InvalidChange what)
  | None =>
      db ← get_st;
      let version :=
        {| uv_id := id; uv_universal_memory_id := um_id memory;
           uv_version_number := next_version_number uv_universal_memory_id uv_version_number
                                  (um_id memory) (ud_versions db);
           uv_content := um_content memory; uv_category := um_category memory;
           uv_importance_score := um_importance_score memory; uv_confidence := um_confidence memory;
           uv_change_type := change_type; uv_change_reason := change_reason;
           uv_changed_by := changed_by; uv_changed_by_agent_id := changed_by_agent_id |} in
      modify_st (fun db => db <| ud_versions ::= insert id version |>);;
      mret version
  end.

Definition get_universal_history (universal_memory_id user_uui_id : uuid)
    : M UniversalDb version_exn (list UniversalMemoryVersion) :=
  db ← get_st;
  match ud_memories db !! universal_memory_id with
  | Some m =>
      if bool_decide (um_user_uui_id m = user_uui_id)
      then mret (history uv_universal_memory_id uv_version_number universal_memory_id (ud_versions db))
      else raise_st (PermissionDenied "Memory does not belong to this user")
  | None => raise_st (PermissionDenied "Memory does not belong to this user")
  end.
End Universal.

(** ** Histories *)

(** One call of [record_version], with the id it drew. *)
Record Change := {
  ch_id : uuid;
  ch_memory : Memory;
  ch_type : string;
  ch_reason : option string;
  ch_by : string;
}.

Definition apply_change (c : Change) (db : VersionDb) : VersionDb :=
  (safe_record_version (ch_id c) (ch_memory c) (ch_type c) (ch_reason c) (ch_by c) db).1.

Definition change_valid (c : Change) : Prop :=
  ch_type c ∈ ALLOWED_CHANGE_TYPES /\ ch_by c ∈ ALLOWED_CHANGED_BY.
#[export] Instance change_valid_dec c : Decision (change_valid c).
Proof. unfold change_valid. apply _. Defined.

(** The [k]-th recorded change as a version. *)
Definition version_of_change (k : nat) (c : Change) : MemoryVersion :=
  new_version (ch_id c) (ch_memory c) (Z.of_nat k + 1) (ch_type c) (ch_reason c) (ch_by c).

(** The changes of memory [m] that were accepted, in the order they were made. *)
Definition accepted (m : uuid) (cs : list Change) : list Change :=
  filter (fun c => m_id (ch_memory c) = m /\ change_valid c) cs.

Lemma valid_change_none types by_ t b :
  valid_change types by_ t b = None <-> t ∈ types /\ b ∈ by_.
Proof. unfold valid_change. repeat case_bool_decide; simpl; naive_solver. Qed.

Lemma apply_change_spec c db :
  apply_change c db =
  if decide (change_valid c) then
    db <| db_versions ::= insert (ch_id c)
            (new_version (ch_id c) (ch_memory c)
               (next_version_number v_memory_id v_version_number (m_id (ch_memory c)) (db_versions db))
               (ch_type c) (ch_reason c) (ch_by c)) |>
  else db.
Proof.
  unfold apply_change, safe_record_version, record_version, _validate_change.
  destruct (valid_change _ _ (ch_type c) (ch_by c)) as [w|] eqn:E.
  - rewrite decide_False; [done|]. intros Hv. apply valid_change_none in Hv. congruence.
  - apply valid_change_none in E. by rewrite decide_True.
Qed.

(** Whatever sequence of changes services record, the history of a memory
    is exactly the accepted changes made to it, in the order they were made,
    numbered from one without gaps, each holding the memory's content at that
    time; an unknown change type or author records nothing. *)
Theorem history_is_the_accepted_changes (cs : list Change) (db : VersionDb) (m : uuid)
    (Hempty : db_versions db = ∅) (Hids : NoDup (ch_id <$> cs)) :
  let db' := fold_left (fun db c => apply_change c db) cs db in
  history v_memory_id v_version_number m (db_versions db') = imap version_of_change (accepted m cs) /\
  (forall id v, db_versions db' !! id = Some v -> id ∈ ch_id <$> cs).
Proof.
  cut (let db' := fold_left (fun db c => apply_change c db) cs db in
       numbered v_memory_id v_version_number m (db_versions db') (imap version_of_change (accepted m cs)) /\
       (forall id v, db_versions db' !! id = Some v -> id ∈ ch_id <$> cs)).
  { intros [[? _] ?]. done. }
  induction cs as [|c cs IH] using rev_ind.
  { simpl. rewrite Hempty. split; [done|]. intros id v Hv. by rewrite lookup_empty in Hv. }
  rewrite fmap_app in Hids. apply NoDup_app in Hids as (Hcs & Hdisj & _).
  specialize (IH Hcs). rewrite fold_left_app. simpl.
  set (db1 := fold_left (fun db c => apply_change c db) cs db) in *.
  destruct IH as [Hnum Hdom].
  assert (db_versions db1 !! ch_id c = None) as Hfresh.
  { destruct (db_versions db1 !! ch_id c) as [v|] eqn:E; [|done].
    destruct (Hdisj _ (Hdom _ _ E)). apply list_elem_of_here. }
  rewrite apply_change_spec. unfold accepted in *. rewrite filter_app, fmap_app.
  split.
  - destruct (decide (change_valid c)) as [Hv|Hv].
    + destruct (decide (m_id (ch_memory c) = m)) as [Hm|Hm].
      * rewrite (filter_cons_True _ c) by done. rewrite imap_app. simpl.
        pose proof (next_version_number_numbered _ _ _ _ _ Hnum) as Hnext. rewrite length_imap in Hnext.
        unfold version_of_change at 2. rewrite Nat.add_0_r, <- Hnext, <- Hm.
        rewrite <- Hm in Hnum. by apply numbered_insert.
      * rewrite filter_cons_False by naive_solver. rewrite app_nil_r.
        by apply numbered_insert_ne.
    + rewrite filter_cons_False by naive_solver. by rewrite app_nil_r.
  - intros id v Hin. rewrite elem_of_app. destruct (decide (change_valid c)) as [Hv|Hv]; [|eauto].
    simpl in Hin. apply lookup_insert_Some in Hin as [[<- _]|[_ Hin]]; [|eauto].
    right. apply list_elem_of_here.
Qed.

Lemma elem_of_history {V} (parent : V -> uuid) number p t v :
  v ∈ history parent number p t <-> parent v = p /\ exists i, t !! i = Some v.
Proof. unfold history, versions_of. by rewrite sort_by_perm, list_elem_of_filter, elem_of_rows. Qed.

(** A history is served only to the tenant that owns the memory's user and
    only while that user is not blocked; it holds every version of that memory
    and of no other, in increasing order, and reading changes nothing. *)
Theorem history_is_tenant_scoped (db : VersionDb) (memory_id tenant_id : uuid) :
  let authorised := exists m u, db_memories db !! memory_id = Some m /\
    db_proxy_users db !! m_proxy_user_id m = Some u /\ pu_tenant_id u = tenant_id /\
    pu_is_blocked u = false in
  match get_history memory_id tenant_id db with
  | (db', inr vs) => db' = db /\ authorised /\
      (forall v, v ∈ vs <-> v_memory_id v = memory_id /\ exists i, db_versions db !! i = Some v) /\
      StronglySorted (fun a b => number_le v_version_number a b = true) vs
  | (db', inl e) => db' = db /\ ~ authorised /\ e = PermissionDenied "memory_not_found_for_tenant"
  end.
Proof.
  intros authorised. unfold get_history, _verify_memory_tenant, mbind, M_bind, get_st, lift_opt.
  destruct (db_memories db !! memory_id) as [m|] eqn:Hm; simpl.
  2:{ split_and!; [done| |done]. intros (? & ? & ? & _). congruence. }
  destruct (db_proxy_users db !! m_proxy_user_id m) as [u|] eqn:Hu; simpl.
  2:{ split_and!; [done| |done]. intros (? & ? & ? & ? & _). congruence. }
  destruct (bool_decide (pu_tenant_id u = tenant_id) && negb (pu_is_blocked u)) eqn:Hok; simpl.
  - apply andb_true_iff in Hok as [Ht%bool_decide_eq_true Hb%negb_true_iff].
    split_and!; [done|by exists m, u|intros v; apply elem_of_history|apply number_le_sorted].
  - split_and!; [done| |done]. intros (m' & u' & Hm' & Hu' & Ht & Hb).
    assert (m' = m) as -> by congruence. assert (u' = u) as -> by congruence.
    rewrite bool_decide_true, Hb in Hok by done. done.
Qed.

(** A data export is complete and isolated: it lists every memory of the
    user exactly once and no memory of anybody else, each with exactly its own
    versions; another tenant asking for the user is refused. *)
Theorem export_is_complete_and_isolated (db : VersionDb) (proxy_user_id tenant_id : uuid)
    (Hkeys : forall i m, db_memories db !! i = Some m -> m_id m = i) :
  let owned := exists u, db_proxy_users db !! proxy_user_id = Some u /\ pu_tenant_id u = tenant_id in
  match get_user_data_export proxy_user_id tenant_id db with
  | (db', inr ex) => db' = db /\ owned /\ NoDup (m_id ∘ ex_memory <$> ex) /\
      (forall m, m ∈ ex_memory <$> ex <->
         m_proxy_user_id m = proxy_user_id /\ exists i, db_memories db !! i = Some m) /\
      (forall e v, e ∈ ex -> v ∈ ex_versions e <->
         v_memory_id v = m_id (ex_memory e) /\ exists i, db_versions db !! i = Some v)
  | (db', inl e) => db' = db /\ ~ owned
  end.
Proof.
  intros owned. unfold get_user_data_export, mbind, M_bind, get_st.
  destruct (db_proxy_users db !! proxy_user_id) as [u|] eqn:Hu; simpl.
  2:{ split; [done|]. intros (? & ? & _). congruence. }
  case_bool_decide as Ht; simpl.
  2:{ split; [done|]. intros (? & ? & ?). congruence. }
  split_and!; [done|by exists u| | |].
  - rewrite <- list_fmap_compose. unfold compose. simpl. rewrite sort_by_perm.
    unfold memories_of_proxy_user.
    apply (NoDup_fmap_rows (db_memories db) m_id); [done|].
    intros i j a b Ha Hb _ _ Heq. apply Hkeys in Ha, Hb. congruence.
  - intros m. rewrite <- list_fmap_compose. unfold compose. simpl. rewrite list_fmap_id, sort_by_perm.
    unfold memories_of_proxy_user. by rewrite list_elem_of_filter, elem_of_rows.
  - intros e v He. apply list_elem_of_fmap in He as (m & -> & _). simpl. apply elem_of_history.
Qed.

(** ** Witnesses *)

Definition example_changed (content : string) (id : uuid) (change_type : string) : Change :=
  {| ch_id := id;
     ch_memory :=
       {| m_id := 7; m_user_id := 1; m_proxy_user_id := 2; m_agent_id := None; m_content := content;
          m_category := MemoryCategory.fact; m_importance_score := 5; m_confidence_score := 1;
          m_embedding_model_id := "e"; m_created_at := 1; m_updated_at := 1;
          m_last_accessed_at := None; m_access_count := 0; m_expires_at := None;
          m_effective_from := None; m_effective_until := None; m_previous_version_id := None;
          m_source_event_id := None; m_metadata_json := []; m_is_archived := false |};
     ch_type := change_type; ch_reason := None; ch_by := "user" |}.

Definition example_db : VersionDb :=
  {| db_memories := {[7%Z := ch_memory (example_changed "old" 1 "created")]};
     db_proxy_users := {[2%Z := {| pu_id := 2; pu_tenant_id := 3; pu_is_blocked := false; pu_external_user_id_hash := EmptyString |}]};
     db_versions := ∅ |}.

Definition example_changes : list Change :=
  [example_changed "old" 11 "created"; example_changed "new" 12 "renamed";
   example_changed "newer" 13 "manual_edit"].

Lemma history_is_the_accepted_changes_witness :
  let db' := fold_left (fun db c => apply_change c db) example_changes example_db in
  (fun v => (v_version_number v, v_content v)) <$> history v_memory_id v_version_number 7 (db_versions db')
  = [(1%Z, "old"); (2%Z, "newer")].
Proof.
  assert (NoDup (ch_id <$> example_changes)) as Hnd by (apply (bool_decide_unpack _); vm_compute; exact I).
  cbv zeta. rewrite (proj1 (history_is_the_accepted_changes example_changes example_db 7 eq_refl Hnd)).
  reflexivity.
Defined.

Lemma export_is_complete_and_isolated_witness :
  exists ex, get_user_data_export 2 3 example_db = (example_db, inr ex) /\
    NoDup (m_id ∘ ex_memory <$> ex) /\ length ex = 1%nat.
Proof.
  eexists. split; [reflexivity|]. split; [|reflexivity].
  assert (forall i m, db_memories example_db !! i = Some m -> m_id m = i) as Hkeys.
  { intros i m Hm. unfold example_db in Hm. simpl in Hm.
    apply lookup_singleton_Some in Hm as [<- <-]. reflexivity. }
  exact (proj1 (proj2 (proj2 (export_is_complete_and_isolated example_db 2 3 Hkeys)))).
Defined.
