(* ===== verification/Importance.v ===== *)
(** * Importance scores

    [ImportanceScorer] of [api/services/importance_scorer.py].  Floats are exact
    rationals; [round(x, 6)] is [py_round x 6]. *)

From S2P Require Export ClaimIdentity.

Record ImportanceScorer := {
  category_weights : list (string * Q);
  max_access_boost : Q;
  access_boost_cap_count : positive;
}.

Definition MAX_ACCESS_BOOST : Q := 1 # 2.
Definition ACCESS_BOOST_CAP_COUNT : positive := 100.
Definition CATEGORY_WEIGHTS : list (string * Q) :=
  [("goal", 3 # 2); ("procedure", 1); ("preference", 1 # 2); ("fact", 0); ("relationship", 4 # 5);
   ("expertise", 3 # 10)]%Q.

Definition default_scorer : ImportanceScorer :=
  {| category_weights := CATEGORY_WEIGHTS; max_access_boost := MAX_ACCESS_BOOST;
     access_boost_cap_count := ACCESS_BOOST_CAP_COUNT |}.

(** [timedelta(days=1)] in microseconds *)
Definition DAY : Z := 86400000000.

Definition normalize_score (score : Q) : Q := qclamp 1 10 score.

Fixpoint lookup_weight (k : string) (l : list (string * Q)) : Q :=
  match l with
  | [] => 0
  | (k', w) :: l => if bool_decide (k = k') then w else lookup_weight k l
  end.

(** [int(v or 0)]; [None] where [int] raises. *)
Definition int_or_zero (v : json) : option Z := if truthy v then py_int v else Some 0%Z.

Fixpoint sum_access_counts (l : list json) : option Z :=
  match l with
  | [] => Some 0%Z
  | v :: l =>
      n ← match v with
          | JObj o => int_or_zero (default (JInt 0) (jget "access_count" o))
          | _ => Some 0%Z
          end;
      total ← sum_access_counts l;
      Some (n + total)%Z
  end.

Definition _extract_similar_access_count (user_context : obj) : option Z :=
  match jget "similar_access_count" user_context with
  | Some v => int_or_zero v
  | None =>
      match jget "similar_memory_access_count" user_context with
      | Some v => int_or_zero v
      | None =>
          match jget "similar_memories" user_context with
          | Some (JArr l) => sum_access_counts l
          | _ => Some 0%Z
          end
      end
  end.

Section Scorer.
Context `{PyLib}.
Variable self : ImportanceScorer.

Definition _access_boost_for_count (access_count : Z) : Q :=
  (clamp 0 (Zpos (access_boost_cap_count self)) access_count # access_boost_cap_count self)
  * max_access_boost self.

Definition calculate_access_pattern_boost (user_context : obj) : option Q :=
  _access_boost_for_count <$> _extract_similar_access_count user_context.

Definition _category_weight (category : string) : Q :=
  lookup_weight (py_lower category) (category_weights self).

(** [score] of an extracted memory with the given model score and category *)
Definition score (importance_score : Q) (category : string) (user_context : obj) : option Q :=
  boost ← calculate_access_pattern_boost user_context;
  Some (normalize_score (importance_score + _category_weight category + boost)).

Definition record_access (now : datetime) (memory : Memory) : Memory :=
  let new_count := (m_access_count memory + 1)%Z in
  let previous_boost := _access_boost_for_count (m_access_count memory) in
  let new_boost := _access_boost_for_count new_count in
  memory <| m_access_count := new_count |> <| m_last_accessed_at := Some now |>
         <| m_importance_score :=
              normalize_score (py_round (m_importance_score memory + (new_boost - previous_boost)) 6) |>.

(** The baseline of a memory, stored in its metadata the first time. *)
Definition with_baseline (memory : Memory) : Memory * json :=
  match jget_or_null "original_importance_score" (m_metadata_json memory) with
  | JNull =>
      let baseline := JFloat (m_importance_score memory) in
      (memory <| m_metadata_json ::= jset "original_importance_score" baseline |>, baseline)
  | v => (memory, v)
  end.

Definition inactive_days (grace_days : Z) (memory : Memory) (now : datetime) : Z :=
  let last_accessed_at := default (m_created_at memory) (m_last_accessed_at memory) in
  Z.max 0 ((now - last_accessed_at) / DAY - grace_days).

(** The memory with its baseline saved, and the decayed score; [None] where the
    stored baseline is not a number. *)
Definition compute_decay (now : datetime) (grace_days : Z) (decay_per_30_days : Q) (memory : Memory)
    : option (Memory * Q) :=
  let (memory', raw) := with_baseline memory in
  baseline ← py_float raw;
  let decay_steps := inactive_days grace_days memory now # 30 in
  let access_rescue := _access_boost_for_count (m_access_count memory) in
  Some (memory', normalize_score
                   (py_round (baseline - decay_steps * decay_per_30_days + access_rescue) 6)).

Definition decay (now : datetime) (memory : Memory) : option (Memory * Q) :=
  compute_decay now 30 (1 # 2) memory.

Definition recompute_baseline (now : datetime) (memory : Memory) : Memory :=
  memory <| m_metadata_json ::= fun o =>
    jset "last_baseline_rescored_at" (JStr (isoformat now))
      (match jget "original_importance_score" o with
       | Some _ => o
       | None => jset "original_importance_score" (JFloat (m_importance_score memory)) o
       end) |>.
End Scorer.

(** ** Lemmas *)

Lemma normalize_score_bounds q : (1 <= normalize_score q <= 10)%Q.
Proof. apply qclamp_bounds. by vm_compute. Qed.

Lemma normalize_score_mono a b : (a <= b)%Q -> (normalize_score a <= normalize_score b)%Q.
Proof.
  intros Hab. unfold normalize_score, qclamp.
  pose proof (Q.max_spec 1 (Qmin a 10)). pose proof (Q.max_spec 1 (Qmin b 10)).
  pose proof (Q.min_spec a 10). pose proof (Q.min_spec b 10). lra.
Qed.

Lemma access_boost_mono self a b :
  (0 <= max_access_boost self)%Q -> (a <= b)%Z ->
  (_access_boost_for_count self a <= _access_boost_for_count self b)%Q.
Proof.
  intros Hpos Hab. unfold _access_boost_for_count. apply Qmult_le_compat_r; [|done].
  unfold Qle, clamp. simpl. nia.
Qed.

Lemma normalize_score_id q : (1 <= q <= 10)%Q -> (normalize_score q == q)%Q.
Proof.
  intros Hq. unfold normalize_score, qclamp.
  pose proof (Q.max_spec 1 (Qmin q 10)). pose proof (Q.min_spec q 10). lra.
Qed.

Lemma inactive_days_mono grace memory t t' :
  (t <= t')%Z -> (inactive_days grace memory t <= inactive_days grace memory t')%Z.
Proof.
  intros Ht. unfold inactive_days.
  assert ((t - default (m_created_at memory) (m_last_accessed_at memory)) / DAY
          <= (t' - default (m_created_at memory) (m_last_accessed_at memory)) / DAY)%Z; [|lia].
  apply Z.div_le_mono; unfold DAY; lia.
Qed.

Lemma with_baseline_stored memory memory' raw s :
  with_baseline memory = (memory', raw) ->
  with_baseline (memory' <| m_importance_score := s |>) = (memory' <| m_importance_score := s |>, raw).
Proof.
  unfold with_baseline. intros Hb.
  destruct (jget_or_null "original_importance_score" (m_metadata_json memory)) eqn:E;
    injection Hb as <- <-; simpl; try by rewrite E.
  unfold jget_or_null. by rewrite jget_jset_eq.
Qed.

Lemma with_baseline_other memory memory' raw :
  with_baseline memory = (memory', raw) ->
  m_last_accessed_at memory' = m_last_accessed_at memory /\
  m_created_at memory' = m_created_at memory /\ m_access_count memory' = m_access_count memory.
Proof.
  unfold with_baseline. intros Hb. destruct (jget_or_null _ _); injection Hb as <- <-; done.
Qed.

(** Decay is bounded, idempotent and monotone in time: the score stays
    between one and ten, storing it and decaying again at the same time gives
    the same score and changes nothing more, and decaying later never gives a
    higher score. *)
Theorem decay_is_idempotent_and_monotone `{PyLib} (self : ImportanceScorer) (now later : datetime)
    (grace : Z) (rate : Q) (memory memory' : Memory) (s : Q)
    (Hrate : (0 <= rate)%Q) (Hlater : (now <= later)%Z)
    (Hdecay : compute_decay self now grace rate memory = Some (memory', s)) :
  let stored := memory' <| m_importance_score := s |> in
  (1 <= s <= 10)%Q /\
  compute_decay self now grace rate stored = Some (stored, s) /\
  exists s', compute_decay self later grace rate memory = Some (memory', s') /\ (s' <= s)%Q.
Proof.
  intros stored. unfold compute_decay in *.
  destruct (with_baseline memory) as [m raw] eqn:Hb.
  destruct (py_float raw) as [baseline|] eqn:Hraw; [|done]. simpl in Hdecay.
  injection Hdecay as <- <-. split_and!; [apply normalize_score_bounds..| |].
  - subst stored.
    rewrite (with_baseline_stored memory m raw _ Hb), Hraw. simpl.
    destruct (with_baseline_other memory m raw Hb) as (E1 & E2 & E3).
    unfold inactive_days. simpl. by rewrite E1, E2, E3.
  - eexists. split; [done|]. apply normalize_score_mono, py_round_mono.
    assert ((inactive_days grace memory now # 30) <= (inactive_days grace memory later # 30))%Q as Hd.
    { unfold Qle. simpl. pose proof (inactive_days_mono grace memory now later Hlater). lia. }
    pose proof (Qmult_le_compat_r _ _ _ Hd Hrate). lra.
Qed.

(** Using a memory never lowers its importance and keeps it in range, as
    long as scores carry at most six decimals. *)
Theorem access_never_lowers_importance `{PyLib} (self : ImportanceScorer) (now : datetime)
    (memory : Memory) (Hboost : (0 <= max_access_boost self)%Q)
    (Hrange : (1 <= m_importance_score memory <= 10)%Q)
    (Hround : (py_round (m_importance_score memory) 6 == m_importance_score memory)%Q) :
  let memory' := record_access self now memory in
  (m_importance_score memory <= m_importance_score memory' <= 10)%Q /\
  m_access_count memory' = (m_access_count memory + 1)%Z /\ m_last_accessed_at memory' = Some now.
Proof.
  simpl. split_and!; [|apply normalize_score_bounds|done|done].
  rewrite <- (normalize_score_id (m_importance_score memory)) at 1 by done.
  apply normalize_score_mono. rewrite <- Hround at 1. apply py_round_mono.
  pose proof (access_boost_mono self (m_access_count memory) (m_access_count memory + 1) Hboost
                ltac:(lia)). lra.
Qed.

(** ** Witnesses *)

Section ImportanceExamples.
#[local] Existing Instance example_pylib.

Definition example_scored_memory : Memory :=
  {| m_id := 7; m_user_id := 1; m_proxy_user_id := 2; m_agent_id := None; m_content := "x";
     m_category := MemoryCategory.fact; m_importance_score := 5; m_confidence_score := 1;
     m_embedding_model_id := "e"; m_created_at := 0; m_updated_at := 0; m_last_accessed_at := None;
     m_access_count := 10; m_expires_at := None; m_effective_from := None; m_effective_until := None;
     m_previous_version_id := None; m_source_event_id := None; m_metadata_json := [];
     m_is_archived := false |}.

Lemma decay_is_idempotent_and_monotone_witness :
  exists m s, compute_decay default_scorer (60 * DAY) 30 (1 # 2) example_scored_memory = Some (m, s) /\
    (s == 91 # 20)%Q /\
    exists s', compute_decay default_scorer (90 * DAY) 30 (1 # 2) example_scored_memory = Some (m, s') /\
      (s' <= s)%Q.
Proof.
  do 2 eexists. split; [reflexivity|]. split; [reflexivity|].
  refine (proj2 (proj2 (decay_is_idempotent_and_monotone default_scorer (60 * DAY) (90 * DAY) 30
            (1 # 2) example_scored_memory _ _ _ _ eq_refl))).
  - discriminate.
  - vm_compute. discriminate.
Defined.

Lemma access_never_lowers_importance_witness :
  (5 <= m_importance_score (record_access default_scorer 9 example_scored_memory) <= 10)%Q.
Proof.
  refine (proj1 (access_never_lowers_importance default_scorer 9 example_scored_memory _ _ _)).
  - discriminate.
  - split; discriminate.
  - reflexivity.
Defined.
End ImportanceExamples.
