(* ===== verification/Lifecycle.v ===== *)
(** * Memory lifecycle

    [MemoryLifecycleManager] of [api/services/lifecycle_manager.py]: semantic
    validity transitions, decay, auto-archiving, the hot tier and the two runs
    that combine them.

    The session holds the claim tables, memories, versions and the outbox of one
    database.  It flushes pending changes before every query (SQLAlchemy's
    autoflush); a flush that violates a unique index leaves the session unusable
    ([poisoned]) until it is rolled back, which the caller does by dropping the
    final state.  [supply] provides the fresh row ids [uuid4] draws. *)

From S2P Require Export ClaimLedger Versions Importance.

Record Life := {
  ledger : Ledger;
  db : VersionDb;
  queue : Outbox;
  supply : uuid;
  hot_tier : gmap (uuid * uuid) obj;
  poisoned : bool;
}.

Inductive life_exn :=
  | Integrity (constraint : string)
  | PendingRollback
  | Refused                            (* by the database, for a reason the tables here do not show *)
  | BadBaseline.                       (* [float] of a stored baseline *)

Abbreviation FM := (M Life life_exn).

(** [session.flush()], explicit or automatic *)
Definition session_flush : FM unit :=
  fun s =>
    if poisoned s then (s, inl PendingRollback)
    else match flush (ledger s) with
         | (_, inr _) => (s, inr tt)
         | (_, inl _) => (s <| poisoned := true |>,
                          inl (Integrity "uq_memory_claim_revisions_one_activated"))
         end.

(** A query runs after an autoflush. *)
Definition query {A} (f : Life -> A) : FM A := session_flush;; s ← get_st; mret (f s).

Definition fresh_id : FM uuid :=
  s ← get_st; modify_st (fun s => s <| supply ::= Z.add 1 |>);; mret (supply s).

Definition put_memory (m : Memory) (s : Life) : Life :=
  s <| db ::= fun d => d <| db_memories ::= insert (m_id m) m |> |>.
Definition put_life_claim (c : MemoryClaim) (s : Life) : Life := s <| ledger ::= put_claim c |>.
Definition put_life_revision (r : MemoryClaimRevision) (s : Life) : Life :=
  s <| ledger ::= put_revision r |>.

(** [asafe_record_version]: the numbering query flushes; exceptions are
    logged and swallowed. *)
Definition asafe_record_version (memory : Memory) (change_type reason : string) : FM unit :=
  fun s =>
    match session_flush s with
    | (s', inl _) => (s', inr tt)
    | (s', inr _) =>
        (id ← fresh_id;
         modify_st (fun s => s <| db ::= fun d =>
           (safe_record_version id memory change_type (Some reason) "system" d).1 |>)) s'
    end.

Definition IST_OFFSET : Z := 19800000000.            (* 5 h 30 min *)
Definition HOUR : Z := 3600000000.
Definition ARCHIVE_IMPORTANCE_THRESHOLD : Q := 3 # 2.
Definition ARCHIVE_DAYS_THRESHOLD : Z := 90.
Definition HOT_TIER_IMPORTANCE_THRESHOLD : Q := 8.
Definition HOT_TIER_ACCESS_THRESHOLD : Z := 5.
Definition HOT_TIER_RECENT_DAYS : Z := 7.

Section Manager.
Context `{PyLib}.
(** [memory.embedding_model.qdrant_collection] and the content setting. *)
Variable model_collection : Memory -> option string.
Variable include_content : bool.
(** [format(x, "g")] *)
Variable fmt_g : Q -> string.

Definition _enqueue_lifecycle_payload (memory : Memory) (tenant_id : uuid) (state : string)
    (now : datetime) : FM unit :=
  id ← fresh_id;
  let payload := build_vector_payload memory
    {| pl_tenant_id := Some (uuid_str tenant_id); pl_proxy_user_id := Some (uuid_str (m_proxy_user_id memory));
       pl_user_id := Some (uuid_str (m_user_id memory));
       pl_embedding_model_id := Some (m_embedding_model_id memory); pl_qdrant_collection := None;
       pl_model_collection := model_collection memory; pl_include_content := include_content |} in
  modify_st (fun s => s <| queue ::= enqueue_vector_archive id now (m_id memory)
    (jset "lifecycle_state" (JStr state) (jset "is_archived" (JBool (m_is_archived memory)) payload)) |>).

Definition _lock_claim_for_memory (memory_id : uuid)
    : FM (option MemoryClaimRevision * option MemoryClaim) :=
  revision ← query (fun s => latest (revisions_of_memory memory_id (ledger s)));
  match revision with
  | None => mret (None, None)
  | Some r => claim ← query (fun s => claims (ledger s) !! r_claim_id r); mret (Some r, claim)
  end.

(** [lifecycle_state] and [lifecycle_transitioned_at] of the metadata *)
Definition transitioned (state : string) (archived : bool) (reference_time : datetime) (m : Memory)
    : Memory :=
  m <| m_is_archived := archived |>
    <| m_metadata_json ::= fun o =>
         jset "lifecycle_transitioned_at" (JStr (isoformat reference_time))
           (jset "lifecycle_state" (JStr state) o) |>.

Definition winning_claim (memory : Memory) (revision : MemoryClaimRevision) (reference_time : datetime)
    (c : MemoryClaim) : MemoryClaim :=
  c <| c_active_memory_id := Some (m_id memory) |> <| c_winning_revision_id := Some (r_id revision) |>
    <| c_active_value := Some (r_asserted_value revision) |> <| c_status := ClaimStatus.active |>
    <| c_effective_at := reference_time |> <| c_updated_at := reference_time |>.

Definition _activate_locked_winner (memory : Memory) (revision : MemoryClaimRevision)
    (claim : MemoryClaim) (tenant_id : uuid) (reference_time : datetime) (reason : string) : FM unit :=
  let memory' := transitioned "active" false reference_time memory in
  modify_st (put_memory memory');;
  modify_st (put_life_revision (revision <| r_status := RevisionStatus.activated |>));;
  modify_st (put_life_claim (winning_claim memory' revision reference_time claim));;
  asafe_record_version memory' "conflict_resolved" reason;;
  _enqueue_lifecycle_payload memory' tenant_id "active" reference_time.

(** The direct predecessor, when it is recorded in the claim and valid now. *)
Definition _eligible_predecessor (claim_id : uuid) (predecessor_memory_id : option uuid)
    (reference_time : datetime) : FM (option (Memory * MemoryClaimRevision)) :=
  match predecessor_memory_id with
  | None => mret None
  | Some p =>
      query (fun s =>
        m ← db_memories (db s) !! p;
        if starts_by (m_effective_from m) reference_time && ends_after (m_effective_until m) reference_time
        then r ← head (filter (fun r => r_claim_id r = claim_id) (revisions_of_memory p (ledger s)));
             Some (m, r)
        else None)
  end.

Definition cleared_claim (reference_time : datetime) (c : MemoryClaim) : MemoryClaim :=
  c <| c_active_memory_id := None |> <| c_winning_revision_id := None |>
    <| c_active_value := None |> <| c_status := ClaimStatus.archived |>
    <| c_updated_at := reference_time |>.

Definition archive_if_activated (r : MemoryClaimRevision) : MemoryClaimRevision :=
  if bool_decide (r_status r = RevisionStatus.activated)
  then r <| r_status := RevisionStatus.archived |> else r.

Definition _expire_temporal_memory (memory : Memory) (tenant_id : uuid) (reference_time : datetime)
    : FM unit :=
  let memory' := transitioned "expired" true reference_time memory in
  modify_st (put_memory memory');;
  asafe_record_version memory' "archived" "Semantic validity interval expired";;
  rc ← _lock_claim_for_memory (m_id memory);
  match rc.1 with
  | Some r => modify_st (put_life_revision (archive_if_activated r))
  | None => mret tt
  end;;
  match rc.2 with
  | Some c =>
      if bool_decide (c_active_memory_id c = Some (m_id memory)) then
        let c' := cleared_claim reference_time c in
        modify_st (put_life_claim c');;
        predecessor ← _eligible_predecessor (c_id c) (m_previous_version_id memory) reference_time;
        match predecessor with
        | Some (m, r) =>
            session_flush;;
            _activate_locked_winner m r c' tenant_id reference_time
              "Restored after successor validity expired"
        | None => mret tt
        end
      else mret tt
  | None => mret tt
  end;;
  _enqueue_lifecycle_payload memory' tenant_id "expired" reference_time.

Definition superseded_memory (m : Memory) : Memory :=
  m <| m_is_archived := true |>
    <| m_metadata_json ::= jset "lifecycle_state" (JStr "superseded") |>.

(** Archive the memory the claim displays, if it is another live one. *)
Definition demote_current (memory : Memory) (claim : MemoryClaim) (tenant_id : uuid)
    (reference_time : datetime) : FM unit :=
  match c_active_memory_id claim with
  | Some active =>
      if bool_decide (active = m_id memory) then mret tt
      else
        current ← query (fun s => db_memories (db s) !! active);
        match current with
        | Some cur =>
            if m_is_archived cur then mret tt
            else
              let cur' := superseded_memory cur in
              modify_st (put_memory cur');;
              rc ← _lock_claim_for_memory (m_id cur);
              match rc.1 with
              | Some r =>
                  if bool_decide (r_status r = RevisionStatus.activated)
                  then modify_st (put_life_revision (r <| r_status := RevisionStatus.superseded |>))
                  else mret tt
              | None => mret tt
              end;;
              asafe_record_version cur' "conflict_update" "Superseded by scheduled validity transition";;
              _enqueue_lifecycle_payload cur' tenant_id "superseded" reference_time;;
              session_flush
        | None => mret tt
        end
  | None => mret tt
  end.

Definition _activate_temporal_memory (memory : Memory) (tenant_id : uuid) (reference_time : datetime)
    : FM unit :=
  rc ← _lock_claim_for_memory (m_id memory);
  match rc.2 with
  | Some claim => demote_current memory claim tenant_id reference_time
  | None => mret tt
  end;;
  match rc with
  | (Some revision, Some claim) =>
      _activate_locked_winner memory revision claim tenant_id reference_time
        "Scheduled semantic validity began"
  | _ =>
      let memory' := transitioned "active" false reference_time memory in
      modify_st (put_memory memory');;
      _enqueue_lifecycle_payload memory' tenant_id "active" reference_time
  end.

Definition due_to_expire (reference_time : datetime) (m : Memory) : bool :=
  negb (m_is_archived m) &&
  match m_effective_until m with Some u => (u <=? reference_time)%Z | None => false end.

Definition due_to_activate (reference_time : datetime) (m : Memory) : bool :=
  m_is_archived m &&
  bool_decide (jget_or_null "lifecycle_state" (m_metadata_json m) = JStr "scheduled") &&
  match m_effective_from m with Some f => (f <=? reference_time)%Z | None => false end &&
  ends_after (m_effective_until m) reference_time.

(** [for memory in memories: if due(memory): step(memory); count += 1]; rows
    are shared objects, so each is read as the previous steps left it. *)
Fixpoint for_due (due : Memory -> bool) (step : Memory -> FM unit) (ids : list uuid) : FM Z :=
  match ids with
  | [] => mret 0%Z
  | id :: ids =>
      s ← get_st;
      match db_memories (db s) !! id with
      | Some m =>
          if due m then step m;; n ← for_due due step ids; mret (n + 1)%Z
          else for_due due step ids
      | None => for_due due step ids
      end
  end.

(** Ids of the tenant's memories satisfying [where], in id order. *)
Definition _select_memories (tenant_id : uuid) (where_ : Memory -> bool) (s : Life) : list uuid :=
  m_id <$> sort_by (fun a b => (m_id a <=? m_id b)%Z)
    (filter (fun m => where_ m = true /\
                      (pu_tenant_id <$> db_proxy_users (db s) !! m_proxy_user_id m) = Some tenant_id)
       (snd <$> map_to_list (db_memories (db s)))).

Definition _process_temporal_transitions (tenant_id : uuid) (reference_time : datetime) : FM (Z * Z) :=
  let reached o := match o with Some t => (t <=? reference_time)%Z | None => false end in
  ids ← query (_select_memories tenant_id
                 (fun m => reached (m_effective_from m) || reached (m_effective_until m)));
  expired ← for_due (due_to_expire reference_time)
              (fun m => _expire_temporal_memory m tenant_id reference_time) ids;
  activated ← for_due (due_to_activate reference_time)
                (fun m => _activate_temporal_memory m tenant_id reference_time) ids;
  mret (activated, expired).

(** ** Decay, archiving, hot tier *)

Definition accessed_before (cutoff : datetime) (m : Memory) : bool :=
  match m_last_accessed_at m with Some t => (t <? cutoff)%Z | None => false end.

Definition decay_one (scorer : ImportanceScorer) (reference_time : datetime) (m : Memory) : FM bool :=
  let old_score := m_importance_score m in
  match compute_decay scorer reference_time 30 (1 # 2) m with
  | None => raise_st BadBaseline
  | Some (m', new_score) =>
      modify_st (put_memory m');;
      if Qeq_bool old_score new_score then mret false
      else
        let m2 := m' <| m_importance_score := new_score |> in
        modify_st (put_memory m2);;
        (if 1 <?q Qabs (old_score - new_score)
         then asafe_record_version m2
                (if new_score <?q old_score then "importance_decay" else "importance_boost")
                ("Score changed from " +:+ fmt_g old_score +:+ " to " +:+ fmt_g new_score)
         else mret tt);;
        mret true
  end.

(** The sweep; every 200 memories it flushes. *)
Fixpoint decay_all (scorer : ImportanceScorer) (reference_time : datetime) (index : nat)
    (ids : list uuid) : FM Z :=
  match ids with
  | [] => mret 0%Z
  | id :: ids =>
      s ← get_st;
      changed ← match db_memories (db s) !! id with
                | Some m => decay_one scorer reference_time m
                | None => mret false
                end;
      (if bool_decide (index mod 200 = 0)%nat then session_flush else mret tt);;
      n ← decay_all scorer reference_time (S index) ids;
      mret (if changed : bool then n + 1 else n)%Z
  end.

Definition _decay_inactive_memories (scorer : ImportanceScorer) (tenant_id : uuid)
    (reference_time : datetime) : FM Z :=
  ids ← query (_select_memories tenant_id (fun m =>
                 negb (m_is_archived m) && accessed_before (reference_time - 30 * DAY) m));
  decay_all scorer reference_time 1 ids.

Definition auto_archivable (reference_time : datetime) (m : Memory) : bool :=
  negb (m_is_archived m) && (m_importance_score m <?q ARCHIVE_IMPORTANCE_THRESHOLD)
  && accessed_before (reference_time - ARCHIVE_DAYS_THRESHOLD * DAY) m
  && (m_access_count m =? 0)%Z.

Definition auto_archive (now : datetime) (m : Memory) : FM unit :=
  let m' := m <| m_is_archived := true |> in
  modify_st (put_memory m');;
  asafe_record_version m' "archived" "Auto-archived: low importance, no access in 90 days";;
  id ← fresh_id;
  modify_st (fun s => s <| queue ::= enqueue_vector_delete id now (m_id m)
                             (Some [("memory_id", JStr (uuid_str (m_id m)))]) |>).

Definition _auto_archive_memories (tenant_id : uuid) (reference_time : datetime) : FM Z :=
  ids ← query (_select_memories tenant_id (auto_archivable reference_time));
  for_due (fun _ => true) (auto_archive reference_time) ids.

Definition hot (reference_time : datetime) (m : Memory) : bool :=
  negb (m_is_archived m) && (HOT_TIER_IMPORTANCE_THRESHOLD <=?q m_importance_score m)
  && (HOT_TIER_ACCESS_THRESHOLD <=? m_access_count m)%Z
  && match m_last_accessed_at m with
     | Some t => (reference_time - HOT_TIER_RECENT_DAYS * DAY <? t)%Z
     | None => false
     end.

Definition _memory_cache_payload (m : Memory) : obj :=
  [("id", JStr (uuid_str (m_id m))); ("content", JStr (m_content m));
   ("category", JStr (MemoryCategory.value (m_category m)));
   ("importance_score", JFloat (m_importance_score m));
   ("confidence_score", JFloat (m_confidence_score m));
   ("semantic_score", JFloat 1); ("recency_score", JFloat 1); ("final_score", JFloat 1);
   ("agent_id", opt_str (m_agent_id m));
   ("previous_version_id", opt_str (m_previous_version_id m));
   ("last_accessed_at", _isoformat_or_none (m_last_accessed_at m));
   ("created_at", JStr (isoformat (m_created_at m)));
   ("effective_from", _isoformat_or_none (m_effective_from m));
   ("effective_until", _isoformat_or_none (m_effective_until m))].

Definition _promote_hot_memories (tenant_id : uuid) (reference_time : datetime) : FM Z :=
  ids ← query (_select_memories tenant_id (hot reference_time));
  for_due (fun _ => true) (fun m => modify_st (fun s =>
    s <| hot_tier ::= insert (m_proxy_user_id m, m_id m) (_memory_cache_payload m) |>)) ids.

Definition _rescore_baselines (tenant_id : uuid) (reference_time : datetime) : FM Z :=
  ids ← query (_select_memories tenant_id (fun _ => true));
  for_due (fun _ => true) (fun m => modify_st (put_memory (recompute_baseline reference_time m))) ids.

Definition _is_peak_ist (reference_time : datetime) : bool :=
  let time := ((reference_time + IST_OFFSET) mod DAY)%Z in
  (9 * HOUR <=? time)%Z && (time <? 22 * HOUR)%Z.

(** ** Runs *)

Record LifecycleReport := {
  lr_activated : Z; lr_expired : Z; lr_decayed : Z; lr_archived : Z; lr_promoted : Z; lr_rescored : Z;
  lr_skipped : bool;
}.

Definition run_for_tenant (scorer : ImportanceScorer) (enforce_off_peak : bool) (tenant_id : uuid)
    (reference_time : datetime) : FM LifecycleReport :=
  if enforce_off_peak && _is_peak_ist reference_time
  then mret {| lr_activated := 0; lr_expired := 0; lr_decayed := 0; lr_archived := 0;
               lr_promoted := 0; lr_rescored := 0; lr_skipped := true |}
  else
    ae ← _process_temporal_transitions tenant_id reference_time;
    decayed ← _decay_inactive_memories scorer tenant_id reference_time;
    archived ← _auto_archive_memories tenant_id reference_time;
    promoted ← _promote_hot_memories tenant_id reference_time;
    rescored ← _rescore_baselines tenant_id reference_time;
    session_flush;;                                   (* commit *)
    mret {| lr_activated := ae.1; lr_expired := ae.2; lr_decayed := decayed; lr_archived := archived;
            lr_promoted := promoted; lr_rescored := rescored; lr_skipped := false |}.

Definition run_temporal_transitions_for_tenant (tenant_id : uuid) (reference_time : datetime)
    : FM (Z * Z) :=
  ae ← _process_temporal_transitions tenant_id reference_time;
  session_flush;;                                     (* commit *)
  mret ae.
End Manager.
