(* ===== verification/LifecycleTheorems.v ===== *)
(** * The lifecycle: transitions settle

    A run of the temporal transitions on a consistent database cannot fail,
    keeps it consistent and leaves no transition due; the sweep that archives
    unused memories behind the ledger's back breaks the assumption. *)

From S2P Require Import Lifecycle ClaimLedgerTheorems.

#[local] Arguments _enqueue_lifecycle_payload : simpl never.
#[local] Arguments asafe_record_version : simpl never.
#[local] Arguments session_flush : simpl never.

(** ** Consistency *)

Abbreviation memories s := (db_memories (db s)).
Abbreviation proxies s := (db_proxy_users (db s)).

Record life_ok (s : Life) : Prop := {
  lo_usable : poisoned s = false;
  lo_ledger : wf (ledger s);
  lo_memory_ids i m : memories s !! i = Some m -> m_id m = i;
  (** a displayed memory has a winning revision and is live *)
  lo_displayed i c m : claims (ledger s) !! i = Some c -> c_active_memory_id c = Some m ->
    is_Some (c_winning_revision_id c) /\
    exists mem, memories s !! m = Some mem /\ m_is_archived mem = false;
  (** the winner of a claim about memories comes from one *)
  lo_kind j r m c : revisions (ledger s) !! j = Some r -> r_memory_id r = Some m ->
    claims (ledger s) !! r_claim_id r = Some c -> is_Some (c_winning_revision_id c) ->
    is_Some (c_active_memory_id c);
}.

(** A session whose next flush passes. *)
Definition flushable (s : Life) : Prop :=
  poisoned s = false /\ NoDup (activated_claim_ids (ledger s)) /\ NoDup (claim_keys (ledger s)).

Lemma vacant_flushable cid s : poisoned s = false -> vacant cid (ledger s) -> flushable s.
Proof.
  intros Hp Hv. split_and!; [done| |apply NoDup_claim_keys, Hv].
  apply (NoDup_fmap_rows _ r_id); [apply Hv|].
  intros i j a b Ha Hb Sa Sb Heq.
  destruct (va_activated _ _ Hv i a Ha Sa) as (_ & c & Hc & Hi).
  destruct (va_activated _ _ Hv j b Hb Sb) as (_ & c' & Hc' & Hj). rewrite Heq in Hc. congruence.
Qed.

Lemma wf_flushable s : poisoned s = false -> wf (ledger s) -> flushable s.
Proof. intros. split_and!; [done|by apply wf_one_activated|by apply wf_claim_keys]. Qed.

Lemma session_flush_ok s : flushable s -> session_flush s = (s, inr tt).
Proof. intros (Hp & Ha & Hk). unfold session_flush. rewrite Hp. by rewrite flush_ok. Qed.

Lemma query_ok {A} (f : Life -> A) s : flushable s -> query f s = (s, inr (f s)).
Proof.
  intros Hf. unfold query, mbind, M_bind. by rewrite session_flush_ok.
Qed.

(** What the rows of a session are, versions and outbox apart. *)
Definition same_core (s s' : Life) : Prop :=
  ledger s' = ledger s /\ memories s' = memories s /\ proxies s' = proxies s /\ poisoned s' = poisoned s.

Lemma same_core_flushable s s' : same_core s s' -> flushable s -> flushable s'.
Proof. intros (E1 & _ & _ & E4). unfold flushable. by rewrite E1, E4. Qed.

Lemma safe_record_version_core id m t r b d :
  let d' := (safe_record_version id m t r b d).1 in
  db_memories d' = db_memories d /\ db_proxy_users d' = db_proxy_users d.
Proof.
  unfold safe_record_version, record_version, _validate_change, mbind, M_bind.
  by destruct (valid_change _ _ t b).
Qed.

Lemma asafe_record_version_ok m t r s :
  flushable s -> exists s', asafe_record_version m t r s = (s', inr tt) /\ same_core s s'.
Proof.
  intros Hf. unfold asafe_record_version. rewrite session_flush_ok by done.
  eexists. split; [done|]. unfold same_core. simpl.
  pose proof (safe_record_version_core (supply s) m t (Some r) "system" (db s)) as [H1 H2].
  by rewrite H1, H2.
Qed.

Section Transitions.
Context `{PyLib}.
Variables (model_collection : Memory -> option string) (include_content : bool).
Variables (tenant : uuid) (t : datetime).

Lemma enqueue_ok m state s :
  exists s', _enqueue_lifecycle_payload model_collection include_content m tenant state t s = (s', inr tt)
    /\ same_core s s'.
Proof.
  unfold _enqueue_lifecycle_payload, fresh_id, mbind, M_bind, get_st, modify_st. simpl.
  eexists. split; [reflexivity|]. by split_and!.
Qed.

#[local] Opaque _enqueue_lifecycle_payload.

Lemma lock_claim_ok m s :
  poisoned s = false -> wf (ledger s) ->
  exists ro co, _lock_claim_for_memory m s = (s, inr (ro, co)) /\
    match ro with
    | Some r => revisions (ledger s) !! r_id r = Some r /\ r_memory_id r = Some m /\
        exists c, co = Some c /\ claims (ledger s) !! r_claim_id r = Some c
    | None => co = None /\ forall j r, revisions (ledger s) !! j = Some r -> r_memory_id r <> Some m
    end.
Proof.
  intros Hp Hwf. pose proof (wf_flushable s Hp Hwf) as Hf.
  unfold _lock_claim_for_memory, mbind, M_bind. rewrite query_ok by done.
  destruct (latest (revisions_of_memory m (ledger s))) as [r|] eqn:E.
  - rewrite query_ok by done. do 2 eexists. split; [done|]. simpl.
    apply latest_elem, revisions_of_memory_elem in E as [Hm [j Hj]].
    rewrite (wf_revision_ids _ Hwf j r Hj). split_and!; [done|done|].
    destruct (wf_foreign_key _ Hwf j r Hj) as [c Hc]. eauto.
  - exists None, None. split; [done|]. split; [done|]. intros j r Hj Hm.
    assert (r ∈ revisions_of_memory m (ledger s)) as Hin by (apply revisions_of_memory_elem; eauto).
    destruct (revisions_of_memory m (ledger s)) as [|x l]; [by apply elem_of_nil in Hin|].
    simpl in E. by destruct (latest l).
Qed.

(** The winner of a claim that displays memory [m] is the revision of [m]. *)
Lemma displayed_winner s c i m :
  life_ok s -> claims (ledger s) !! i = Some c -> c_active_memory_id c = Some m ->
  exists w, c_winning_revision_id c = Some (r_id w) /\ revisions (ledger s) !! r_id w = Some w /\
    r_claim_id w = i /\ r_memory_id w = Some m.
Proof.
  intros Hok Hc Ha. destruct (lo_displayed s Hok i c m Hc Ha) as [[j Hj] _].
  destruct (wf_winner _ (lo_ledger s Hok) i c j Hc Hj) as (w & Hw & Hi & Hm).
  exists w. rewrite (wf_revision_ids _ (lo_ledger s Hok) j w Hw). split_and!; congruence.
Qed.

(** ** Activating a winner of a vacant claim *)

(** Consistency with claim [cid] vacated. *)
Record life_vacant (cid : uuid) (s : Life) : Prop := {
  lv_usable : poisoned s = false;
  lv_ledger : vacant cid (ledger s);
  lv_memory_ids i m : memories s !! i = Some m -> m_id m = i;
  lv_displayed i c m : i <> cid -> claims (ledger s) !! i = Some c -> c_active_memory_id c = Some m ->
    is_Some (c_winning_revision_id c) /\
    exists mem, memories s !! m = Some mem /\ m_is_archived mem = false;
  lv_kind j r m c : r_claim_id r <> cid -> revisions (ledger s) !! j = Some r -> r_memory_id r = Some m ->
    claims (ledger s) !! r_claim_id r = Some c -> is_Some (c_winning_revision_id c) ->
    is_Some (c_active_memory_id c);
}.

(** The ledger in which claim [c] displays revision [r]. *)
Definition with_winner (mem : Memory) (r : MemoryClaimRevision) (c : MemoryClaim) (L : Ledger) : Ledger :=
  put_claim (winning_claim mem r t c) (put_revision (r <| r_status := RevisionStatus.activated |>) L).

Lemma with_winner_wf mem r c L :
  vacant (c_id c) L -> claims L !! c_id c = Some c -> revisions L !! r_id r = Some r ->
  r_claim_id r = c_id c -> r_memory_id r = Some (m_id mem) -> wf (with_winner mem r c L).
Proof.
  intros Hv Hc Hr Hcl Hm.
  set (c' := winning_claim mem r t c). set (r' := r <| r_status := RevisionStatus.activated |>).
  assert (vacant (c_id c) (put_claim c' L)) as Hv' by (by eapply vacant_put_claim).
  assert (claims (put_claim c' L) !! c_id c = Some c') as Hc' by (simpl; by rewrite lookup_insert_eq).
  assert (with_winner mem r c L =
    put_revision r' (put_claim c' L) <| claims ::= alter (set_winner (r_id r')) (r_claim_id r') |>) as ->.
  { unfold with_winner, put_claim, put_revision. simpl. f_equal. rewrite Hcl.
    by rewrite alter_insert_eq. }
  apply (vacant_install _ c' r'); simpl; rewrite ?Hcl; try done.
  - intros r0 Hr0. simplify_eq. done.
  - intros j r0 m Hne Hr0 Hm' Hm0. apply Hne. by eapply (va_memory_once _ L Hv).
Qed.

Lemma activate_locked_winner_ok mem r c reason s :
  life_vacant (c_id c) s -> claims (ledger s) !! c_id c = Some c ->
  revisions (ledger s) !! r_id r = Some r -> r_claim_id r = c_id c -> r_memory_id r = Some (m_id mem) ->
  exists s', _activate_locked_winner model_collection include_content mem r c tenant t reason s = (s', inr tt) /\
    life_ok s' /\ ledger s' = with_winner mem r c (ledger s) /\ proxies s' = proxies s /\
    memories s' = <[m_id mem := transitioned "active" false t mem]> (memories s).
Proof.
  intros Hv Hc Hr Hcl Hm.
  pose proof (with_winner_wf mem r c (ledger s) (lv_ledger _ _ Hv) Hc Hr Hcl Hm) as Hwf.
  set (mem' := transitioned "active" false t mem).
  set (s1 := put_life_claim (winning_claim mem' r t c)
               (put_life_revision (r <| r_status := RevisionStatus.activated |>) (put_memory mem' s))).
  assert (ledger s1 = with_winner mem r c (ledger s)) as HL by done.
  assert (flushable s1) as Hf by (apply wf_flushable; [apply Hv|by rewrite HL]).
  unfold _activate_locked_winner, mbind, M_bind, modify_st. fold mem' s1.
  destruct (asafe_record_version_ok mem' "conflict_resolved" reason s1 Hf) as (s2 & -> & E1 & E2 & E3 & E4).
  destruct (enqueue_ok mem' "active" s2) as (s3 & -> & F1 & F2 & F3 & F4).
  exists s3. split; [done|].
  assert (ledger s3 = with_winner mem r c (ledger s)) as HL3 by congruence.
  assert (memories s3 = <[m_id mem := mem']> (memories s)) as HM3 by (rewrite F2, E2; done).
  split_and!; [|done|rewrite F3, E3; done|done].
  constructor.
  - rewrite F4, E4. apply Hv.
  - by rewrite HL3.
  - intros i m. rewrite HM3, lookup_insert_Some. intros [[<- <-]|[_ Hi]]; [done|].
    by apply (lv_memory_ids _ _ Hv).
  - intros i d m. rewrite HL3, HM3. unfold with_winner. simpl. rewrite lookup_insert_Some.
    intros [[<- <-]|[Hne Hd]].
    + simpl. intros [= <-]. split; [eauto|]. exists mem'. by rewrite lookup_insert_eq.
    + intros Ha. destruct (lv_displayed _ _ Hv i d m) as [Hw (x & Hx & Hl)]; [congruence|done..|].
      split; [done|]. destruct (decide (m_id mem = m)) as [<-|Hnm].
      * exists mem'. by rewrite lookup_insert_eq.
      * exists x. by rewrite lookup_insert_ne.
  - intros j q m d. rewrite HL3. unfold with_winner. simpl. intros Hq Hqm Hd Hw.
    apply lookup_insert_Some in Hd as [[_ <-]|[Hne Hd]]; [simpl; eauto|].
    apply lookup_insert_Some in Hq as [[_ <-]|[_ Hq]]; [done|].
    by apply (lv_kind _ _ Hv j q m d).
Qed.

(** ** What a transition may change *)

Definition settled_memory (m : Memory) : Prop :=
  due_to_expire t m = false /\ due_to_activate t m = false.

(** Other memories keep their row or come out with nothing due. *)
Definition advances (mem : Memory) (s s' : Life) : Prop :=
  proxies s' = proxies s /\
  forall i m, memories s' !! i = Some m ->
    settled_memory m \/ (i <> m_id mem /\ memories s !! i = Some m).

Lemma transitioned_active_settled mem :
  ends_after (m_effective_until mem) t = true -> settled_memory (transitioned "active" false t mem).
Proof.
  intros He. split; [|done]. unfold due_to_expire. simpl. unfold ends_after in He.
  destruct (m_effective_until mem); [|done]. apply Z.leb_gt. by apply Z.ltb_lt in He.
Qed.

Lemma transitioned_expired_settled mem : settled_memory (transitioned "expired" true t mem).
Proof.
  split; [done|]. unfold due_to_activate. simpl. unfold jget_or_null.
  rewrite jget_jset_ne, jget_jset_eq by done. done.
Qed.

Lemma superseded_settled mem : settled_memory (superseded_memory mem).
Proof.
  split; [done|]. unfold due_to_activate. simpl. unfold jget_or_null. by rewrite jget_jset_eq.
Qed.

(** ** Clearing a claim *)

Lemma life_ok_vacant s c (f : MemoryClaimRevision -> MemoryClaimRevision) s' :
  life_ok s -> claims (ledger s) !! c_id c = Some c ->
  (forall r, r_id (f r) = r_id r /\ r_claim_id (f r) = r_claim_id r /\
             r_memory_id (f r) = r_memory_id r /\ r_status (f r) <> RevisionStatus.activated) ->
  poisoned s' = false ->
  claims (ledger s') = claims (ledger s) ->
  revisions (ledger s') = match c_winning_revision_id c with
                          | Some i => alter f i (revisions (ledger s))
                          | None => revisions (ledger s)
                          end ->
  (forall i m, memories s' !! i = Some m -> m_id m = i) ->
  (forall m mem, c_active_memory_id c <> Some m -> memories s !! m = Some mem ->
     m_is_archived mem = false ->
     exists mem', memories s' !! m = Some mem' /\ m_is_archived mem' = false) ->
  life_vacant (c_id c) s'.
Proof.
  intros Hok Hc Hf Hp Hcl Hrev Hids Hmem.
  pose proof (wf_demote_vacant (ledger s) (c_id c) c f (lo_ledger s Hok) Hc Hf) as Hv.
  assert (vacant (c_id c) (ledger s')) as Hv'.
  { destruct (c_winning_revision_id c); destruct (ledger s'); simpl in *; subst;
      by destruct (ledger s). }
  constructor; [done|done|done| |].
  - rewrite Hcl. intros i d m Hne Hd Ha.
    destruct (lo_displayed s Hok i d m Hd Ha) as [Hw (mem & Hm & Hl)]. split; [done|].
    apply (Hmem m mem); [|done..]. intros Hcm.
    destruct (displayed_winner s d i m Hok Hd Ha) as (w & _ & Hw1 & Hw2 & Hw3).
    destruct (displayed_winner s c (c_id c) m Hok Hc Hcm) as (w' & _ & Hw1' & Hw2' & Hw3').
    assert (r_id w = r_id w') as E by (by eapply (wf_memory_once _ (lo_ledger s Hok))). congruence.
  - rewrite Hcl. intros j r m d Hne Hr Hm Hd Hw.
    assert (exists r0, revisions (ledger s) !! j = Some r0 /\ r_claim_id r0 = r_claim_id r /\
              r_memory_id r0 = r_memory_id r) as (r0 & Hr0 & E1 & E2).
    { rewrite Hrev in Hr. destruct (c_winning_revision_id c) as [w|]; [|eauto].
      apply lookup_alter_Some in Hr as [(-> & r0 & Hr0 & ->)|[_ Hr]]; [|eauto].
      destruct (Hf r0) as (_ & -> & -> & _). eauto. }
    apply (lo_kind s Hok j r0 m d); congruence.
Qed.

Lemma life_vacant_cleared s c :
  life_vacant (c_id c) s -> claims (ledger s) !! c_id c = Some c ->
  let s' := put_life_claim (cleared_claim t c) s in
  life_ok s' /\ life_vacant (c_id c) s' /\ claims (ledger s') !! c_id c = Some (cleared_claim t c).
Proof.
  intros Hv Hc s'.
  assert (claims (ledger s') !! c_id c = Some (cleared_claim t c)) as Hc'
    by (simpl; by rewrite lookup_insert_eq).
  assert (vacant (c_id c) (ledger s')) as Hv' by (by eapply vacant_put_claim; [apply Hv| |]).
  assert (forall i d, claims (ledger s') !! i = Some d ->
            i = c_id c /\ d = cleared_claim t c \/ i <> c_id c /\ claims (ledger s) !! i = Some d) as Hd.
  { intros i d. simpl. rewrite lookup_insert_Some. naive_solver. }
  split_and!; [| |done].
  - constructor; [apply Hv|by eapply vacant_wf|apply (lv_memory_ids _ _ Hv)| |].
    + intros i d m [[-> ->]|[Hne Hi]]%Hd; [done|]. by apply (lv_displayed _ _ Hv i d m).
    + intros j r m d Hr Hm [[_ ->]|[Hne Hi]]%Hd; [by intros []|]. by apply (lv_kind _ _ Hv j r m d).
  - constructor; [apply Hv|done|apply (lv_memory_ids _ _ Hv)| |].
    + intros i d m Hne [[-> ->]|[_ Hi]]%Hd; [done|]. by apply (lv_displayed _ _ Hv i d m).
    + intros j r m d Hne Hr Hm [[Hx _]|[_ Hi]]%Hd; [done|]. by apply (lv_kind _ _ Hv j r m d).
Qed.

(** Rewriting a memory that is not displayed, or that stays live. *)
Lemma life_ok_put_memory s mem mem' :
  life_ok s -> memories s !! m_id mem = Some mem -> m_id mem' = m_id mem ->
  (forall i c, claims (ledger s) !! i = Some c -> c_active_memory_id c <> Some (m_id mem)) \/
    m_is_archived mem' = false ->
  life_ok (put_memory mem' s).
Proof.
  intros Hok Hm Hid Hcase. constructor; simpl; try apply Hok.
  - intros i m. rewrite lookup_insert_Some. intros [[<- <-]|[_ Hi]]; [done|].
    by apply (lo_memory_ids s Hok).
  - intros i c m Hc Ha. destruct (lo_displayed s Hok i c m Hc Ha) as [Hw (x & Hx & Hl)].
    split; [done|]. rewrite Hid. destruct (decide (m_id mem = m)) as [<-|Hne].
    + exists mem'. rewrite lookup_insert_eq. split; [done|].
      destruct Hcase as [Hno|Hlive]; [by destruct (Hno i c Hc)|done].
    + exists x. by rewrite lookup_insert_ne.
Qed.

Lemma same_core_life_ok s s' : same_core s s' -> life_ok s -> life_ok s'.
Proof.
  intros (E1 & E2 & E3 & E4) Hok. constructor; rewrite ?E1, ?E2, ?E4; apply Hok.
Qed.

Lemma eligible_predecessor_ok cid p s :
  flushable s -> wf (ledger s) \/ vacant cid (ledger s) ->
  (forall i m, memories s !! i = Some m -> m_id m = i) ->
  exists o, _eligible_predecessor cid p t s = (s, inr o) /\
    forall m r, o = Some (m, r) -> memories s !! m_id m = Some m /\
      ends_after (m_effective_until m) t = true /\
      revisions (ledger s) !! r_id r = Some r /\ r_claim_id r = cid /\ r_memory_id r = Some (m_id m).
Proof.
  intros Hf Hids Hmem. unfold _eligible_predecessor.
  destruct p as [p|]; [|by exists None]. rewrite query_ok by done. eexists. split; [done|].
  intros m r Ho. destruct (memories s !! p) as [m0|] eqn:Hm; [|done]. simpl in Ho.
  destruct (starts_by _ t && ends_after _ t) eqn:Hval; [|done].
  apply andb_true_iff in Hval as [_ Hend].
  destruct (head _) as [r0|] eqn:Hr0; [|done]. simpl in Ho. injection Ho as -> ->.
  apply head_Some_elem_of, list_elem_of_filter in Hr0 as [Hcl Hr0].
  apply revisions_of_memory_elem in Hr0 as [Hm0 [j Hj]].
  assert (r_id r = j) as -> by (destruct Hids as [Hw|Hv]; [by apply (wf_revision_ids _ Hw)|by apply (va_revision_ids _ _ Hv)]).
  rewrite (Hmem p m Hm). by split_and!.
Qed.

(** ** Expiring a memory *)

Lemma no_display s m :
  life_ok s -> (forall j r, revisions (ledger s) !! j = Some r -> r_memory_id r <> Some m) ->
  forall i c, claims (ledger s) !! i = Some c -> c_active_memory_id c <> Some m.
Proof.
  intros Hok Hno i c Hc Ha. destruct (displayed_winner s c i m Hok Hc Ha) as (w & _ & Hw & _ & Hm).
  by apply (Hno _ w Hw).
Qed.

Lemma put_life_revision_same s r :
  revisions (ledger s) !! r_id r = Some r -> same_core s (put_life_revision r s).
Proof.
  intros Hr. split_and!; try done. unfold put_life_revision, put_revision. simpl.
  rewrite insert_id by done. by destruct (ledger s).
Qed.

Lemma archive_if_activated_row r :
  r_id (archive_if_activated r) = r_id r /\ r_claim_id (archive_if_activated r) = r_claim_id r /\
  r_memory_id (archive_if_activated r) = r_memory_id r /\
  r_status (archive_if_activated r) <> RevisionStatus.activated.
Proof. unfold archive_if_activated. case_bool_decide; by split_and!. Qed.

(** The claim part of an expiry, for the revision and the claim it locked. *)
Lemma expire_displayed mem r c s s2 :
  life_ok s -> memories s !! m_id mem = Some mem ->
  same_core (put_memory (transitioned "expired" true t mem) s) s2 ->
  revisions (ledger s) !! r_id r = Some r -> r_memory_id r = Some (m_id mem) ->
  claims (ledger s) !! c_id c = Some c -> c_active_memory_id c = Some (m_id mem) ->
  let s4 := put_life_claim (cleared_claim t c) (put_life_revision (archive_if_activated r) s2) in
  life_ok s4 /\ life_vacant (c_id c) s4 /\ claims (ledger s4) !! c_id c = Some (cleared_claim t c) /\
  memories s4 = <[m_id mem := transitioned "expired" true t mem]> (memories s) /\ proxies s4 = proxies s.
Proof.
  intros Hok Hm (E1 & E2 & E3 & E4) Hr Hrm Hc Ha s4.
  destruct (displayed_winner s c (c_id c) (m_id mem) Hok Hc Ha) as (w & Hw & Hwl & Hwc & Hwm).
  assert (r_id w = r_id r) as Hid by (by eapply (wf_memory_once _ (lo_ledger s Hok))).
  set (s3 := put_life_revision (archive_if_activated r) s2).
  assert (memories s3 = <[m_id mem := transitioned "expired" true t mem]> (memories s)) as HM by exact E2.
  assert (life_vacant (c_id c) s3) as Hv.
  { apply (life_ok_vacant s c archive_if_activated s3 Hok Hc archive_if_activated_row).
    - simpl. rewrite E4. apply Hok.
    - simpl. by rewrite E1.
    - simpl. rewrite E1, Hw, Hid. simpl. destruct (archive_if_activated_row r) as (-> & _).
      by apply insert_as_alter.
    - rewrite HM. intros i m. rewrite lookup_insert_Some. intros [[<- <-]|[_ Hi]]; [done|].
      by apply (lo_memory_ids s Hok).
    - rewrite HM. intros m x Hne Hx Hl. exists x. rewrite lookup_insert_ne by congruence. done. }
  assert (claims (ledger s3) !! c_id c = Some c) as Hc3 by (simpl; by rewrite E1).
  destruct (life_vacant_cleared s3 c Hv Hc3) as (H1 & H2 & H3).
  split_and!; [done..|exact HM|exact E3].
Qed.

Lemma expire_ok mem s :
  life_ok s -> memories s !! m_id mem = Some mem ->
  exists s', _expire_temporal_memory model_collection include_content mem tenant t s = (s', inr tt) /\
    life_ok s' /\ advances mem s s'.
Proof.
  intros Hok Hm. unfold _expire_temporal_memory. cbv zeta.
  set (mem' := transitioned "expired" true t mem). set (s1 := put_memory mem' s).
  assert (flushable s1) as Hf1 by (by apply (wf_flushable s1); apply Hok).
  destruct (asafe_record_version_ok mem' "archived" "Semantic validity interval expired" s1 Hf1)
    as (s2 & Hs2 & Hcore). pose proof Hcore as (E1 & E2 & E3 & E4).
  destruct (lock_claim_ok (m_id mem) s2) as (ro & co & Hlock & Hspec).
  { rewrite E4. apply Hok. }
  { rewrite E1. apply Hok. }
  unfold mbind, M_bind, modify_st at 1. fold s1. rewrite Hs2, Hlock. simpl.
  rewrite E1 in Hspec. change (ledger s1) with (ledger s) in Hspec.
  assert (forall s', memories s' = <[m_id mem := mem']> (memories s) -> proxies s' = proxies s ->
            advances mem s s') as Hadv.
  { intros s' HM HP. split; [done|]. intros i m. rewrite HM, lookup_insert_Some.
    intros [[<- <-]|[Hne Hi]]; [left; apply transitioned_expired_settled|by right]. }
  assert ((forall i c, claims (ledger s) !! i = Some c -> c_active_memory_id c <> Some (m_id mem)) ->
          life_ok s1) as Hundisplayed.
  { intros Hno. apply (life_ok_put_memory s mem mem'); [done..|by left]. }
  destruct ro as [r|].
  2:{ destruct Hspec as [-> Hno]. simpl. destruct (enqueue_ok mem' "expired" s2) as (s3 & Hs3 & Hcore3).
      exists s3. rewrite Hs3. split; [done|]. split.
      - eapply same_core_life_ok; [exact Hcore3|]. eapply same_core_life_ok; [exact Hcore|].
        apply Hundisplayed, no_display; done.
      - destruct Hcore3 as (F1 & F2 & F3 & F4). apply Hadv; [rewrite F2, E2|rewrite F3, E3]; done. }
  destruct Hspec as (Hr & Hrm & c & -> & Hc). cbn [M_bind modify_st].
  pose proof (wf_claim_ids _ (lo_ledger s Hok) _ c Hc) as Hcid. simpl.
  case_bool_decide as Ha.
  - rewrite <- Hcid in Hc.
    destruct (expire_displayed mem r c s s2 Hok Hm Hcore Hr Hrm Hc Ha) as (Hok4 & Hv4 & Hc4 & HM4 & HP4).
    set (s4 := put_life_claim (cleared_claim t c) (put_life_revision (archive_if_activated r) s2)) in *.
    unfold modify_st. fold s4.
    destruct (eligible_predecessor_ok (c_id c) (m_previous_version_id mem) s4) as (o & Ho & Hpred).
    { by apply (vacant_flushable (c_id c)); apply Hv4. }
    { right. apply Hv4. }
    { apply Hv4. }
    rewrite Ho. destruct o as [[p q]|].
    + destruct (Hpred p q eq_refl) as (Hp & Hend & Hq & Hqc & Hqm).
      rewrite session_flush_ok by (by apply (vacant_flushable (c_id c)); apply Hv4).
      destruct (activate_locked_winner_ok p q (cleared_claim t c)
        "Restored after successor validity expired" s4 Hv4 Hc4 Hq Hqc Hqm)
        as (s5 & Hs5 & Hok5 & _ & HP5 & HM5).
      rewrite Hs5. destruct (enqueue_ok mem' "expired" s5) as (s6 & Hs6 & Hcore6).
      exists s6. rewrite Hs6. split; [done|]. split; [by eapply same_core_life_ok|].
      destruct Hcore6 as (_ & F2 & F3 & _). split; [by rewrite F3, HP5|].
      intros i m. rewrite F2, HM5, HM4, !lookup_insert_Some.
      intros [[<- <-]|[_ [[<- <-]|[Hne Hi]]]]; [|left; apply transitioned_expired_settled|by right].
      left. by apply transitioned_active_settled.
    + simpl. destruct (enqueue_ok mem' "expired" s4) as (s6 & Hs6 & Hcore6).
      exists s6. rewrite Hs6. split; [done|]. split; [by eapply same_core_life_ok|].
      destruct Hcore6 as (_ & F2 & F3 & _). apply Hadv; [by rewrite F2, HM4|by rewrite F3, HP4].
  - assert (forall i d, claims (ledger s) !! i = Some d -> c_active_memory_id d <> Some (m_id mem)) as Hno.
    { intros i d Hd Had. destruct (displayed_winner s d i _ Hok Hd Had) as (w & _ & Hw & Hwc & Hwm).
      assert (r_id w = r_id r) as Hid by (by eapply (wf_memory_once _ (lo_ledger s Hok))).
      rewrite Hid, Hr in Hw. injection Hw as <-. rewrite <- Hwc, Hc in Hd. congruence. }
    assert (archive_if_activated r = r) as Hsame.
    { unfold archive_if_activated. rewrite bool_decide_false; [done|]. intros Hact.
      destruct (wf_activated _ (lo_ledger s Hok) _ r Hr Hact) as (d & Hd & Hw).
      destruct (wf_winner _ (lo_ledger s Hok) _ d _ Hd Hw) as (w & Hw1 & _ & Hw3). congruence. }
    rewrite Hsame. unfold modify_st. simpl.
    pose proof (put_life_revision_same s2 r ltac:(by rewrite E1)) as Hcore3.
    destruct (enqueue_ok mem' "expired" (put_life_revision r s2)) as (s6 & Hs6 & Hcore6).
    exists s6. rewrite Hs6. split; [done|]. split.
    + eapply same_core_life_ok; [exact Hcore6|]. eapply same_core_life_ok; [exact Hcore3|].
      eapply same_core_life_ok; [exact Hcore|]. by apply Hundisplayed.
    + destruct Hcore6 as (_ & F2 & F3 & _), Hcore3 as (_ & G2 & G3 & _).
      apply Hadv; [by rewrite F2, G2, E2|by rewrite F3, G3, E3].
Qed.

(** ** Activating a scheduled memory *)

Definition supersede_if_activated (r : MemoryClaimRevision) : MemoryClaimRevision :=
  if bool_decide (r_status r = RevisionStatus.activated)
  then r <| r_status := RevisionStatus.superseded |> else r.

Lemma supersede_if_activated_row r :
  r_id (supersede_if_activated r) = r_id r /\ r_claim_id (supersede_if_activated r) = r_claim_id r /\
  r_memory_id (supersede_if_activated r) = r_memory_id r /\
  r_status (supersede_if_activated r) <> RevisionStatus.activated.
Proof. unfold supersede_if_activated. case_bool_decide; by split_and!. Qed.

(** What demoting the displayed memory leaves, for the claim and the memory
    [mem] about to be activated. *)
Record demoted (mem : Memory) (c : MemoryClaim) (s s' : Life) : Prop := {
  de_vacant : life_vacant (c_id c) s';
  de_claims : claims (ledger s') = claims (ledger s);
  de_revision r : revisions (ledger s) !! r_id r = Some r -> r_memory_id r = Some (m_id mem) ->
    revisions (ledger s') !! r_id r = Some r;
  de_proxies : proxies s' = proxies s;
  de_memories i m : memories s' !! i = Some m -> settled_memory m \/ memories s !! i = Some m;
}.

Lemma demoted_same_core mem c s s1 s2 : same_core s1 s2 -> demoted mem c s s1 -> demoted mem c s s2.
Proof.
  intros (E1 & E2 & E3 & E4) [Hv Hcl Hr Hp Hm].
  constructor; rewrite ?E1, ?E2, ?E3; try done.
  destruct Hv as [V1 V2 V3 V4 V5]. constructor; rewrite ?E1, ?E2, ?E4; done.
Qed.

(** The displayed memory [cur] is archived and its winning revision demoted. *)
Lemma demote_displayed mem c cur w s :
  life_ok s -> claims (ledger s) !! c_id c = Some c -> c_active_memory_id c = Some (m_id cur) ->
  m_id cur <> m_id mem -> memories s !! m_id cur = Some cur ->
  c_winning_revision_id c = Some (r_id w) -> revisions (ledger s) !! r_id w = Some w ->
  r_memory_id w = Some (m_id cur) ->
  demoted mem c s (put_life_revision (supersede_if_activated w) (put_memory (superseded_memory cur) s)).
Proof.
  intros Hok Hc Ha Hne Hcur Hw Hwr Hwm. constructor.
  - apply (life_ok_vacant s c supersede_if_activated _ Hok Hc supersede_if_activated_row);
      [apply Hok|done|..].
    + simpl. rewrite Hw. destruct (supersede_if_activated_row w) as (-> & _). by apply insert_as_alter.
    + intros i m. simpl. rewrite lookup_insert_Some. intros [[<- <-]|[_ Hi]]; [done|].
      by apply (lo_memory_ids s Hok).
    + intros m x Hm Hx Hl. exists x. simpl. rewrite lookup_insert_ne by congruence. done.
  - done.
  - intros r Hr Hrm. simpl. destruct (supersede_if_activated_row w) as (-> & _).
    rewrite lookup_insert_ne; [done|]. intros Heq. rewrite Heq in Hwr. congruence.
  - done.
  - intros i m. simpl. rewrite lookup_insert_Some.
    intros [[<- <-]|[_ Hi]]; [left; apply superseded_settled|by right].
Qed.

Lemma demote_current_ok mem c q s :
  life_ok s -> memories s !! m_id mem = Some mem -> m_is_archived mem = true ->
  claims (ledger s) !! c_id c = Some c ->
  revisions (ledger s) !! r_id q = Some q -> r_claim_id q = c_id c -> r_memory_id q = Some (m_id mem) ->
  exists s', demote_current model_collection include_content mem c tenant t s = (s', inr tt) /\
    demoted mem c s s'.
Proof.
  intros Hok Hm Harch Hc Hq Hqc Hqm. unfold demote_current.
  destruct (c_active_memory_id c) as [a|] eqn:Ha.
  2:{ exists s. split; [done|].
      assert (c_winning_revision_id c = None) as Hw.
      { destruct (c_winning_revision_id c) as [w|] eqn:Hw; [|done].
        destruct (lo_kind s Hok (r_id q) q (m_id mem) c Hq Hqm) as [x Hx]; [by rewrite Hqc|eauto|].
        congruence. }
      constructor; [|done..|by right].
      apply (life_ok_vacant s c supersede_if_activated s Hok Hc supersede_if_activated_row); try done.
      - apply Hok.
      - by rewrite Hw.
      - apply Hok.
      - eauto. }
  destruct (displayed_winner s c (c_id c) a Hok Hc Ha) as (w & Hw & Hwr & Hwc & Hwm).
  destruct (lo_displayed s Hok (c_id c) c a Hc Ha) as [_ (cur & Hcur & Hlive)].
  pose proof (lo_memory_ids s Hok a cur Hcur) as <-.
  rewrite bool_decide_false by (intros E; rewrite E in Hcur; congruence).
  unfold mbind at 1, M_bind at 1.
  rewrite query_ok by (apply wf_flushable; apply Hok). rewrite Hcur, Hlive.
  set (s1 := put_memory (superseded_memory cur) s).
  destruct (lock_claim_ok (m_id cur) s1) as (ro & co & Hlock & Hspec); [apply Hok..|].
  change (ledger s1) with (ledger s) in Hspec.
  destruct ro as [r|]; [|by destruct Hspec as [_ Hno], (Hno _ w Hwr)].
  destruct Hspec as (Hr & Hrm & _).
  assert (r_id r = r_id w) as Hid by (by eapply (wf_memory_once _ (lo_ledger s Hok))).
  assert (r = w) as -> by congruence.
  assert (m_id cur <> m_id mem) as Hne by (intros E; rewrite E in Hcur; congruence).
  pose proof (demote_displayed mem c cur w s Hok Hc Ha Hne Hcur Hw Hwr Hwm) as Hd.
  set (s2 := put_life_revision (supersede_if_activated w) s1) in *.
  assert (exists s2', (if bool_decide (r_status w = RevisionStatus.activated)
            then modify_st (put_life_revision (w <| r_status := RevisionStatus.superseded |>))
            else mret tt : FM unit) s1 = (s2', inr tt) /\ same_core s2 s2') as (s2' & Hs2 & Hcore2).
  { subst s2. unfold supersede_if_activated. case_bool_decide; eexists; (split; [done|]); [by split_and!|].
    destruct (put_life_revision_same s1 w Hwr) as (E1 & E2 & E3 & E4). by split_and!. }
  pose proof (demoted_same_core _ _ _ _ _ Hcore2 Hd) as Hd2.
  assert (flushable s2') as Hf2 by (apply (vacant_flushable (c_id c)); apply Hd2).
  destruct (asafe_record_version_ok (superseded_memory cur) "conflict_update"
    "Superseded by scheduled validity transition" s2' Hf2) as (s3 & Hs3 & Hcore3).
  destruct (enqueue_ok (superseded_memory cur) "superseded" s3) as (s4 & Hs4 & Hcore4).
  exists s4. unfold mbind, M_bind. unfold modify_st at 1. fold s1. rewrite Hlock. simpl.
  unfold mbind, M_bind in Hs2. simpl in Hs2 |- *. rewrite Hs2. cbv beta iota. rewrite Hs3. cbv beta iota.
  rewrite Hs4. cbv beta iota.
  pose proof (demoted_same_core _ _ _ _ _ Hcore4 (demoted_same_core _ _ _ _ _ Hcore3 Hd2)) as Hd4.
  rewrite session_flush_ok by (apply (vacant_flushable (c_id c)); apply Hd4). done.
Qed.

Lemma activate_ok mem s :
  life_ok s -> memories s !! m_id mem = Some mem -> due_to_activate t mem = true ->
  exists s', _activate_temporal_memory model_collection include_content mem tenant t s = (s', inr tt) /\
    life_ok s' /\ advances mem s s'.
Proof.
  intros Hok Hm Hdue. unfold due_to_activate in Hdue.
  apply andb_true_iff in Hdue as [Hdue Hend]. apply andb_true_iff in Hdue as [Hdue _].
  apply andb_true_iff in Hdue as [Harch _].
  pose proof (transitioned_active_settled mem Hend) as Hsettled.
  unfold _activate_temporal_memory, mbind, M_bind.
  destruct (lock_claim_ok (m_id mem) s) as (ro & co & Hlock & Hspec); [apply Hok..|]. rewrite Hlock.
  destruct ro as [q|].
  - destruct Hspec as (Hq & Hqm & c & -> & Hc). simpl.
    pose proof (wf_claim_ids _ (lo_ledger s Hok) _ c Hc) as Hcid. rewrite <- Hcid in Hc.
    destruct (demote_current_ok mem c q s Hok Hm Harch Hc Hq (eq_sym Hcid) Hqm) as (s1 & Hs1 & Hd).
    rewrite Hs1.
    destruct (activate_locked_winner_ok mem q c "Scheduled semantic validity began" s1
                (de_vacant _ _ _ _ Hd)) as (s2 & Hs2 & Hok2 & _ & HP & HM); try done.
    { by rewrite (de_claims _ _ _ _ Hd). }
    { by apply (de_revision _ _ _ _ Hd). }
    exists s2. split; [exact Hs2|]. split; [done|].
    split; [by rewrite HP, (de_proxies _ _ _ _ Hd)|].
    intros i m. rewrite HM, lookup_insert_Some. intros [[<- <-]|[Hne Hi]]; [by left|].
    destruct (de_memories _ _ _ _ Hd i m Hi); [by left|by right].
  - destruct Hspec as [-> Hno]. simpl. unfold modify_st.
    set (mem' := transitioned "active" false t mem).
    destruct (enqueue_ok mem' "active" (put_memory mem' s)) as (s2 & Hs2 & Hcore).
    exists s2. rewrite Hs2. split; [done|].
    split; [eapply same_core_life_ok; [exact Hcore|]; apply (life_ok_put_memory s mem mem'); auto|].
    destruct Hcore as (_ & F2 & F3 & _). split; [by rewrite F3|].
    intros i m. rewrite F2. simpl. rewrite lookup_insert_Some.
    intros [[<- <-]|[Hne Hi]]; [by left|by right].
Qed.

(** ** A whole run *)

Lemma advances_keep mem s s' ids :
  advances mem s s' ->
  (forall i m, memories s !! i = Some m -> settled_memory m \/ i ∈ m_id mem :: ids) ->
  forall i m, memories s' !! i = Some m -> settled_memory m \/ i ∈ ids.
Proof.
  intros [_ Hadv] Hin i m Hi. destruct (Hadv i m Hi) as [?|[Hne Hold]]; [by left|].
  destruct (Hin i m Hold) as [?|Hel]; [by left|].
  apply elem_of_cons in Hel as [->|Hel]; [done|by right].
Qed.

(** Nothing but these memories is due in the tenant. *)
Definition covers (P : Memory -> bool) (ids : list uuid) (s : Life) : Prop :=
  forall i m, memories s !! i = Some m ->
    (pu_tenant_id <$> proxies s !! m_proxy_user_id m) = Some tenant -> P m = true -> i ∈ ids.

Lemma for_due_ok (due : Memory -> bool) (step : Memory -> FM unit) ids s :
  life_ok s ->
  (forall m, settled_memory m -> due m = false) ->
  (forall mem s, life_ok s -> memories s !! m_id mem = Some mem -> due mem = true ->
     exists s', step mem s = (s', inr tt) /\ life_ok s' /\ advances mem s s') ->
  exists s' n, for_due due step ids s = (s', inr n) /\ life_ok s' /\ proxies s' = proxies s /\
    (forall i m, memories s' !! i = Some m -> settled_memory m \/ memories s !! i = Some m) /\
    (covers due ids s -> covers due [] s').
Proof.
  intros Hok Hset Hstep. revert s Hok. induction ids as [|id ids IH]; intros s Hok.
  { exists s, 0%Z. by split_and!; auto. }
  cbn [for_due]. unfold mbind, M_bind, get_st.
  assert (forall s1, life_ok s1 -> proxies s1 = proxies s ->
    (forall i m, memories s1 !! i = Some m -> settled_memory m \/ memories s !! i = Some m) ->
    (covers due (id :: ids) s -> covers due ids s1) ->
    exists s' n, for_due due step ids s1 = (s', inr n) /\ life_ok s' /\ proxies s' = proxies s /\
      (forall i m, memories s' !! i = Some m -> settled_memory m \/ memories s !! i = Some m) /\
      (covers due (id :: ids) s -> covers due [] s')) as Hrest.
  { intros s1 Hok1 HP HM Hcov. destruct (IH s1 Hok1) as (s' & n & Hs' & Hok' & HP' & HM' & Hcov').
    exists s', n. split_and!; try done; [congruence| |auto].
    intros i m Hi. destruct (HM' i m Hi) as [?|Hi1]; [by left|by apply HM]. }
  destruct (memories s !! id) as [mem|] eqn:Hm.
  - pose proof (lo_memory_ids s Hok id mem Hm) as <-.
    destruct (due mem) eqn:Hd.
    + destruct (Hstep mem s Hok Hm Hd) as (s1 & -> & Hok1 & HP & Hadv).
      destruct (Hrest s1 Hok1 HP) as (s' & n & -> & Hfin); [| |by exists s', (n + 1)%Z].
      * intros i m Hi. destruct (Hadv i m Hi) as [?|[_ ?]]; auto.
      * intros Hcov i m Hi Ht Hdm. destruct (Hadv i m Hi) as [Hs|[Hne Hold]].
        { rewrite (Hset m Hs) in Hdm. done. }
        rewrite HP in Ht. specialize (Hcov i m Hold Ht Hdm). apply elem_of_cons in Hcov as [->|?]; done.
    + destruct (Hrest s Hok eq_refl) as (s' & n & -> & Hfin); [auto| |by exists s', n].
      intros Hcov i m Hi Ht Hdm. specialize (Hcov i m Hi Ht Hdm).
      apply elem_of_cons in Hcov as [->|?]; [congruence|done].
  - destruct (Hrest s Hok eq_refl) as (s' & n & -> & Hfin); [auto| |by exists s', n].
    intros Hcov i m Hi Ht Hdm. specialize (Hcov i m Hi Ht Hdm).
    apply elem_of_cons in Hcov as [->|?]; [congruence|done].
Qed.

Lemma select_covers (P due : Memory -> bool) s :
  life_ok s -> (forall m, due m = true -> P m = true) -> covers due (_select_memories tenant P s) s.
Proof.
  intros Hok HP i m Hi Ht Hd. unfold _select_memories.
  rewrite sort_by_perm. apply list_elem_of_fmap. exists m.
  split; [by rewrite (lo_memory_ids s Hok i m Hi)|].
  apply list_elem_of_filter. split; [by auto|]. apply elem_of_rows. eauto.
Qed.

Lemma covers_kept due ids s s' :
  (forall m, settled_memory m -> due m = false) -> proxies s' = proxies s ->
  (forall i m, memories s' !! i = Some m -> settled_memory m \/ memories s !! i = Some m) ->
  covers due ids s -> covers due ids s'.
Proof.
  intros Hset HP HM Hcov i m Hi Ht Hd. destruct (HM i m Hi) as [Hs|Hold].
  - by rewrite (Hset m Hs) in Hd.
  - rewrite HP in Ht. by apply (Hcov i m).
Qed.

(** C5: On a consistent database a run of the temporal transitions always
    succeeds: it keeps the database consistent (so no claim ever has two
    activated revisions, and every displayed memory is live) and leaves no
    memory of the tenant whose validity has expired unarchived and no scheduled
    memory whose validity has begun inactive. *)
Theorem transitions_settle (s : Life) (Hok : life_ok s) :
  exists s' activated expired,
    run_temporal_transitions_for_tenant model_collection include_content tenant t s
      = (s', inr (activated, expired)) /\
    life_ok s' /\
    forall i m, memories s' !! i = Some m ->
      (pu_tenant_id <$> proxies s' !! m_proxy_user_id m) = Some tenant ->
      due_to_expire t m = false /\ due_to_activate t m = false.
Proof.
  unfold run_temporal_transitions_for_tenant, _process_temporal_transitions, mbind, M_bind.
  rewrite query_ok by (apply wf_flushable; apply Hok).
  set (P := fun m => _ || _). set (ids := _select_memories tenant P s).
  assert (covers (due_to_expire t) ids s) as Hce.
  { apply select_covers; [done|]. intros m Hd. unfold due_to_expire in Hd.
    apply andb_true_iff in Hd as [_ Hd]. subst P. simpl.
    destruct (m_effective_until m); [by rewrite Hd, orb_true_r|done]. }
  assert (covers (due_to_activate t) ids s) as Hca.
  { apply select_covers; [done|]. intros m Hd. unfold due_to_activate in Hd.
    apply andb_true_iff in Hd as [Hd _]. apply andb_true_iff in Hd as [_ Hd]. subst P. simpl.
    destruct (m_effective_from m); [by rewrite Hd|done]. }
  assert (forall m, settled_memory m -> due_to_expire t m = false) as He by (by intros m []).
  assert (forall m, settled_memory m -> due_to_activate t m = false) as Ha by (by intros m []).
  destruct (for_due_ok (due_to_expire t)
    (fun m => _expire_temporal_memory model_collection include_content m tenant t) ids s Hok He)
    as (s1 & n & -> & Hok1 & HP1 & HM1 & Hcov1); [by intros; apply expire_ok|].
  destruct (for_due_ok (due_to_activate t)
    (fun m => _activate_temporal_memory model_collection include_content m tenant t) ids s1 Hok1 Ha)
    as (s2 & n2 & -> & Hok2 & HP2 & HM2 & Hcov2); [by intros; apply activate_ok|].
  unfold mret, M_ret. rewrite session_flush_ok by (apply wf_flushable; apply Hok2).
  exists s2, n2, n. split; [done|]. split; [done|].
  pose proof (covers_kept _ _ _ _ He HP2 HM2 (Hcov1 Hce)) as F1.
  pose proof (Hcov2 (covers_kept _ _ _ _ Ha HP1 HM1 Hca)) as F2.
  intros i m Hi Ht. split; apply not_true_iff_false; intros Hd.
  - specialize (F1 i m Hi Ht Hd). by apply elem_of_nil in F1.
  - specialize (F2 i m Hi Ht Hd). by apply elem_of_nil in F2.
Qed.
End Transitions.

(** ** Examples *)

Section LifecycleExamples.
#[local] Existing Instance example_pylib.

Definition lifecycle_memory (id : uuid) (archived : bool) (from : option datetime) (meta : obj)
    (importance : Q) : Memory :=
  {| m_id := id; m_user_id := 1; m_proxy_user_id := 2; m_agent_id := None; m_content := "Lives in Oslo";
     m_category := MemoryCategory.fact; m_importance_score := importance; m_confidence_score := 1;
     m_embedding_model_id := "e"; m_created_at := 0; m_updated_at := 0; m_last_accessed_at := Some 0%Z;
     m_access_count := 0; m_expires_at := None; m_effective_from := from; m_effective_until := None;
     m_previous_version_id := None; m_source_event_id := None; m_metadata_json := meta;
     m_is_archived := archived |}.

Definition lifecycle_revision (id m : uuid) (status : RevisionStatus.t) : MemoryClaimRevision :=
  memory_revision (example_args m 3 id) 3
    (build_claim_identity "Lives in Oslo" "fact" []) 50 None [] status.

Definition lifecycle_claim : MemoryClaim :=
  (new_claim (example_args 7 3 4) 1 2 (build_claim_identity "Lives in Oslo" "fact" []) 50 None)
    <| c_winning_revision_id := Some 4%Z |>.

(** Claim 3 displays memory 7; memory 8 is scheduled in it for day 200. *)
Definition scheduled_state (importance : Q) : Life :=
  {| ledger := {| claims := {[3%Z := lifecycle_claim]};
                  revisions := {[4%Z := lifecycle_revision 4 7 RevisionStatus.activated;
                                 5%Z := lifecycle_revision 5 8 RevisionStatus.disputed]} |};
     db := {| db_memories :=
                {[7%Z := lifecycle_memory 7 false None [] importance;
                  8%Z := lifecycle_memory 8 true (Some (200 * DAY)%Z)
                           [("lifecycle_state", JStr "scheduled")] 5]};
              db_proxy_users := {[2%Z := {| pu_id := 2; pu_tenant_id := 1; pu_is_blocked := false; pu_external_user_id_hash := EmptyString |}]};
              db_versions := ∅ |};
     queue := ∅; supply := 1000; hot_tier := ∅; poisoned := false |}.

Ltac two_keys H :=
  apply lookup_insert_Some in H as [[<- <-]|[? H]];
  [|try (apply lookup_singleton_Some in H as [<- <-])].

Lemma scheduled_state_ok importance : life_ok (scheduled_state importance).
Proof.
  constructor; [done| | | |].
  - constructor; simpl.
    + intros i c Hc. by apply lookup_singleton_Some in Hc as [<- <-].
    + intros j r Hr. by two_keys Hr.
    + intros j r Hr. by two_keys Hr; eexists.
    + intros j r Hr Hs. two_keys Hr; [|done]. by eexists.
    + intros i c j Hc Hw. apply lookup_singleton_Some in Hc as [<- <-].
      injection Hw as <-. by eexists.
    + intros i c Hc Hs. apply lookup_singleton_Some in Hc as [<- <-]. by do 2 eexists.
    + intros j j' r r' m Hr Hr' Hm Hm'. two_keys Hr; two_keys Hr'; simpl in *; congruence.
    + intros i i' c c' Hc Hc' _. apply lookup_singleton_Some in Hc as [<- <-].
      by apply lookup_singleton_Some in Hc' as [<- _].
  - intros i m Hm. simpl in Hm. by two_keys Hm.
  - intros i c m Hc Ha. simpl in Hc. apply lookup_singleton_Some in Hc as [<- <-].
    injection Ha as <-. split; [by eexists|]. by eexists.
  - intros j r m c Hr Hm Hc _. simpl in Hc. apply lookup_singleton_Some in Hc as [_ <-]. by eexists.
Qed.

Lemma transitions_settle_witness :
  exists s' a e,
    run_temporal_transitions_for_tenant (fun _ => None) false 1 (200 * DAY)%Z (scheduled_state 5)
      = (s', inr (a, e)) /\ life_ok s' /\
    (m_is_archived <$> memories s' !! 8%Z) = Some false /\
    (c_active_memory_id <$> claims (ledger s') !! 3%Z) = Some (Some 8%Z).
Proof.
  destruct (transitions_settle (fun _ => None) false 1 (200 * DAY)%Z (scheduled_state 5)
              (scheduled_state_ok 5)) as (s' & a & e & Hrun & Hok & _).
  exists s', a, e. split; [exact Hrun|]. split; [exact Hok|].
  apply (f_equal fst) in Hrun. simpl in Hrun. rewrite <- Hrun. vm_compute. split; reflexivity.
Defined.

(** Auto-archiving does not tell the ledger.  A memory that its claim
    displays and that nobody uses is archived by the nightly sweep while its
    revision stays activated; when a memory scheduled in the same claim comes
    due, the run skips demoting it, violates the index of activated revisions
    inside the version record whose errors are swallowed, and fails with the
    session unusable; rolled back, it fails again the next day. *)
Theorem auto_archive_blocks_schedule :
  life_ok (scheduled_state 1) /\
  let s1 := (_auto_archive_memories 1 (150 * DAY) (scheduled_state 1)).1 in
  (m_is_archived <$> memories s1 !! 7%Z) = Some true /\
  (r_status <$> revisions (ledger s1) !! 4%Z) = Some RevisionStatus.activated /\
  (run_temporal_transitions_for_tenant (fun _ => None) false 1 (200 * DAY) s1).2 = inl PendingRollback /\
  (run_temporal_transitions_for_tenant (fun _ => None) false 1 (201 * DAY) s1).2 = inl PendingRollback.
Proof.
  split; [apply scheduled_state_ok|]. vm_compute. by split_and!.
Qed.
End LifecycleExamples.
