(* ===== verification/ConflictResolution.v ===== *)
(** * Resolving a conflict by hand

    [apply_conflict_selection] of [api/services/conflict_resolution_service.py]
    with the evidence of [conflict_decision_evidence.py].  It composes the other
    components in one session: the memories are archived or brought back, each
    change is recorded as a version and queued for the vector store, and the
    claim ledger is settled.  The session is [Lifecycle.Life].  The embedding
    provider is a parameter. *)

From S2P Require Export Lifecycle.

(** ** Decision evidence *)

Record ConflictDecisionEvidence := {
  ev_action : string; ev_decision_level : string; ev_reason_codes : list string; ev_explanation : string;
  ev_confidence : option Q; ev_winner_source : option string; ev_details : obj;
}.

(** [sorted(set(l))] *)
Definition sorted_distinct (l : list string) : list string := sort_by py_string_le (remove_dups l).

Definition to_dict (e : ConflictDecisionEvidence) : obj :=
  [("action", JStr (ev_action e)); ("decision_level", JStr (ev_decision_level e));
   ("reason_codes", JArr (JStr <$> sorted_distinct (ev_reason_codes e)));
   ("explanation", JStr (ev_explanation e));
   ("confidence", match ev_confidence e with Some q => JFloat q | None => JNull end);
   ("winner_source", match ev_winner_source e with Some s => JStr s | None => JNull end);
   ("details", JObj (ev_details e))].

Definition automatic_evidence (action : string) (reason_codes : list string) (explanation : string)
    (confidence : option Q) (winner_source : option string) (details : obj) : obj :=
  to_dict {| ev_action := action; ev_decision_level := "automatic"; ev_reason_codes := reason_codes;
             ev_explanation := explanation; ev_confidence := confidence; ev_winner_source := winner_source;
             ev_details := details |}.

Definition review_evidence (action : string) (reason_codes : list string) (explanation : string)
    (details : obj) : obj :=
  to_dict {| ev_action := action;
             ev_decision_level := if bool_decide (action = "USER_REVIEW") then "personal_truth"
                                  else "organisational_truth";
             ev_reason_codes := reason_codes; ev_explanation := explanation; ev_confidence := None;
             ev_winner_source := None; ev_details := details |}.

Definition manual_evidence (action : string) (reason_codes : list string) (explanation : string)
    (winner_source : option string) (details : obj) : obj :=
  to_dict {| ev_action := action; ev_decision_level := "manual"; ev_reason_codes := reason_codes;
             ev_explanation := explanation; ev_confidence := Some 1%Q; ev_winner_source := winner_source;
             ev_details := details |}.

(** ** The operation *)

Record EmbeddingResult := { er_vector : list Q; er_model_id : string; er_qdrant_collection : option string }.

Inductive resolution_exn :=
  | ConflictMemoryMissing             (* ValueError("conflict_memory_missing") *)
  | UnknownSelection                  (* KeyError of the selection table *)
  | EmbeddingFailed                   (* the provider raised *)
  | LedgerFailed (e : ledger_exn).

Abbreviation RM := (M Life resolution_exn).

(** Whether a selection archives the first and the second memory. *)
Definition desired_states (selection : string) : option (bool * bool) :=
  if bool_decide (selection = "A") then Some (false, true)
  else if bool_decide (selection = "B") then Some (true, false)
  else if bool_decide (selection = "both") then Some (false, false)
  else if bool_decide (selection = "neither") then Some (true, true)
  else None.

(** [desired_states[memory.id]]: of equal keys the second counts. *)
Definition should_archive (desired : bool * bool) (memory_b memory : uuid) : bool :=
  if bool_decide (memory = memory_b) then desired.2 else desired.1.

Definition _memory_label (memory memory_a : uuid) : string :=
  if bool_decide (memory = memory_a) then "memory_a" else "memory_b".

(** [asafe_record_version(memory, "conflict_resolved", reason, changed_by)] *)
Definition record_resolution (memory : Memory) (reason changed_by : string) : RM unit :=
  fun s =>
    match session_flush s with
    | (s', inl _) => (s', inr tt)
    | (s', inr _) =>
        (s' <| supply ::= Z.add 1 |> <| db ::= fun d =>
           (safe_record_version (supply s') memory "conflict_resolved" (Some reason) changed_by d).1 |>, inr tt)
    end.

(** Queue a row for the vector store under a fresh id. *)
Definition enqueue (row : uuid -> Outbox -> Outbox) : RM unit :=
  modify_st (fun s => s <| supply ::= Z.add 1 |> <| queue ::= row (supply s) |>).

Section Service.
Context `{PyLib}.
Variable embed : string -> string -> uuid -> option EmbeddingResult.
Variable model_collection : Memory -> option string.
Variable include_content : bool.

(** The metadata every selection leaves on both memories. *)
Definition with_resolution (conflict_id : uuid) (selection reason : string) (m : Memory) : Memory :=
  m <| m_metadata_json ::= jset "conflict_resolution"
         (JObj [("conflict_id", JStr (uuid_str conflict_id)); ("selection", JStr selection);
                ("reason", JStr reason)]) |>.

Definition upsert_payload (tenant_id : uuid) (memory : Memory) (embedding : EmbeddingResult) : obj :=
  build_vector_payload memory
    {| pl_tenant_id := Some (uuid_str tenant_id); pl_proxy_user_id := Some (uuid_str (m_proxy_user_id memory));
       pl_user_id := Some (uuid_str (m_user_id memory)); pl_embedding_model_id := Some (er_model_id embedding);
       pl_qdrant_collection := er_qdrant_collection embedding; pl_model_collection := model_collection memory;
       pl_include_content := include_content |}.

(** One round of the loop over the two memories: the transition, if any. *)
Definition resolve_memory (conflict : CrossUserConflict) (selection reason changed_by : string)
    (now : datetime) (memory_a memory_id : uuid) (archive : bool) : RM (list string) :=
  s ← get_st;
  m ← lift_opt ConflictMemoryMissing (db_memories (db s) !! memory_id);
  let m := with_resolution (cf_id conflict) selection reason m in
  modify_st (put_memory m);;
  if archive then
    if m_is_archived m then mret []
    else
      record_resolution m reason changed_by;;
      modify_st (put_memory (m <| m_is_archived := true |>));;
      enqueue (fun id => enqueue_vector_delete id now memory_id
                 (Some [("memory_id", JStr (uuid_str memory_id));
                        ("embedding_model_id", JStr (m_embedding_model_id m))]));;
      mret ["archived_" +:+ _memory_label memory_id memory_a]
  else
    if m_is_archived m then
      record_resolution m reason changed_by;;
      let m := m <| m_is_archived := false |> in
      modify_st (put_memory m);;
      embedding ← lift_opt EmbeddingFailed
        (embed (m_content m) (m_embedding_model_id m) (cf_tenant_id conflict));
      let m := m <| m_embedding_model_id := er_model_id embedding |> in
      modify_st (put_memory m);;
      enqueue (fun id => enqueue_vector_upsert id now memory_id (er_vector embedding)
                 (upsert_payload (cf_tenant_id conflict) m embedding));;
      mret ["activated_" +:+ _memory_label memory_id memory_a]
    else mret [].

Definition selection_evidence (selection reason changed_by : string) : obj :=
  manual_evidence
    (if bool_decide (selection = "both") then "KEEP_BOTH"
     else if bool_decide (selection = "neither") then "REJECT" else "UPDATE")
    ["human_review_completed"; "selection:" +:+ selection] reason (Some selection)
    [("changed_by", JStr changed_by); ("selection", JStr selection)].

(** [ClaimLedgerService(session).apply_conflict_selection] *)
Definition settle_ledger (memory_a memory_b : uuid) (selection reason : string) (now : datetime) : RM unit :=
  fun s => match ClaimLedger.apply_conflict_selection memory_a memory_b selection reason now (ledger s) with
           | (L, inr _) => (s <| ledger := L |>, inr tt)
           | (L, inl e) => (s <| ledger := L |>, inl (LedgerFailed e))
           end.

(** The memory a column of the conflict refers to. *)
Definition conflict_memory (memory_id : option uuid) : RM uuid :=
  s ← get_st;
  lift_opt ConflictMemoryMissing (i ← memory_id; m ← db_memories (db s) !! i; Some i).

Definition apply_conflict_selection (conflict : CrossUserConflict) (selection changed_by reason : string)
    (now : datetime) : RM (CrossUserConflict * string) :=
  memory_a ← conflict_memory (cf_user_a_memory_id conflict);
  memory_b ← conflict_memory (cf_user_b_memory_id conflict);
  desired ← lift_opt UnknownSelection (desired_states selection);
  let resolve id := resolve_memory conflict selection reason changed_by now memory_a id
                      (should_archive desired memory_b id) in
  first ← resolve memory_a;
  second ← resolve memory_b;
  settle_ledger memory_a memory_b selection reason now;;
  let conflict := conflict <| cf_decision_evidence := selection_evidence selection reason changed_by |> in
  mret (conflict, match first ++ second with
                  | [] => "memory_states_unchanged"
                  | transitions => py_join "_and_" transitions
                  end).
End Service.
