(* ===== verification/ConflictResolutionTheorems.v ===== *)
(** * Resolving a conflict by hand: what it guarantees

    A resolution leaves the memories, the claim ledger, the version history and
    the outbox in agreement, and repeating it changes nothing. *)

From S2P Require Export ConflictResolution ClaimLedgerTheorems LifecycleTheorems.

Section Resolution.
Context `{PyLib}.
Variable embed : string -> string -> uuid -> option EmbeddingResult.
Hypothesis Hembed : forall content model tenant, is_Some (embed content model tenant).
Variables (model_collection : Memory -> option string) (include_content : bool).
Variables (conflict : CrossUserConflict) (selection reason changed_by : string) (now : datetime).

Abbreviation resolve := (resolve_memory embed model_collection include_content conflict selection reason
                           changed_by now).

(** A pending row that tells the vector store of a transition. *)
Definition announces (memory_id : uuid) (archive : bool) (row : VectorSyncOutbox) : Prop :=
  o_memory_id row = memory_id /\ o_status row = VectorSyncStatus.pending /\
  o_operation row = (if archive then VectorSyncOperation.delete else VectorSyncOperation.upsert).

(** What resolving one memory does to the session. *)
Record resolved (memory_id : uuid) (archive : bool) (m : Memory) (s s' : Life) (l : list string) : Prop := {
  re_ledger : ledger s' = ledger s;
  re_poisoned : poisoned s' = poisoned s;
  re_memory : exists m', memories s' = <[memory_id := m']> (memories s) /\ m_id m' = m_id m /\
                         m_is_archived m' = archive;
  re_same : m_is_archived m = archive -> l = [] /\ queue s' = queue s /\ db_versions (db s') = db_versions (db s);
  re_changed : m_is_archived m <> archive -> (exists t, l = [t]) /\
    exists row, queue s' = <[(1 + supply s)%Z := row]> (queue s) /\ announces memory_id archive row;
  re_supply : (supply s <= supply s')%Z /\ (m_is_archived m <> archive -> supply s' = supply s + 2)%Z;
}.

Lemma record_resolution_ok memory s :
  flushable s -> exists s', record_resolution memory reason changed_by s = (s', inr tt) /\ same_core s s' /\
    queue s' = queue s /\ supply s' = (1 + supply s)%Z.
Proof using.
  clear Hembed. intros Hf. unfold record_resolution. rewrite session_flush_ok by done.
  eexists. split; [done|]. unfold same_core. simpl.
  pose proof (safe_record_version_core (supply s) memory "conflict_resolved" (Some reason) changed_by (db s))
    as [H1 H2]. by rewrite H1, H2.
Qed.

Lemma flushable_put_memory s m : flushable s -> flushable (put_memory m s).
Proof using. clear Hembed. done. Qed.

Lemma resolve_memory_ok memory_a memory_id archive m s :
  flushable s -> memories s !! memory_id = Some m -> m_id m = memory_id ->
  exists s' l, resolve memory_a memory_id archive s = (s', inr l) /\ resolved memory_id archive m s s' l.
Proof using Hembed.
  intros Hf Hm Hid. unfold resolve_memory, mbind at 1, M_bind, get_st, lift_opt. rewrite Hm.
  set (m1 := with_resolution (cf_id conflict) selection reason m).
  assert (m_id m1 = memory_id /\ m_is_archived m1 = m_is_archived m) as [Hid1 Har1] by done.
  unfold mbind, M_bind, modify_st. cbn [mret M_ret].
  set (s1 := put_memory m1 s).
  assert (memories s1 = <[memory_id := m1]> (memories s)) as Hs1 by (simpl; by rewrite Hid).
  fold m1 s1. assert (flushable s1) as Hf1 by done. rewrite Har1.
  assert (forall a, m_is_archived m = a -> archive = a -> resolved memory_id archive m s s1 []) as Hnone.
  { intros a Ha ->. constructor; try done. exists m1. by split_and!. }
  destruct (record_resolution_ok m1 s1 Hf1) as (s2 & Hrec & (E1 & E2 & E3 & E4) & Eq & Es).
  destruct archive, (m_is_archived m) eqn:Har; try (by exists s1, []; split; [done|eapply Hnone]).
  - rewrite Hrec. do 2 eexists. split; [reflexivity|]. constructor; simpl; try done.
    + eexists. rewrite E2, Hs1, Hid, insert_insert_eq. by split_and!.
    + intros E. by rewrite Har in E.
    + intros _. split; [by eexists|]. rewrite Eq, Es. by eexists.
    + rewrite Es. simpl. split; lia.
  - rewrite Hrec. destruct (Hembed (m_content m1) (m_embedding_model_id m1) (cf_tenant_id conflict)) as [e He].
    cbn [m_content m_embedding_model_id] in *.
    match goal with |- context [embed ?c ?d ?t] => replace (embed c d t) with (Some e) by (by rewrite <- He) end.
    do 2 eexists. split; [reflexivity|]. constructor; simpl; try done.
    + eexists. rewrite E2, Hs1, Hid, !insert_insert_eq. by split_and!.
    + intros E. by rewrite Har in E.
    + intros _. split; [by eexists|]. rewrite Eq, Es. by eexists.
    + rewrite Es. simpl. split; lia.
Qed.

(** ** The ledger afterwards *)

Section Settling.
Variables (s : Life) (memory_a memory_b : uuid) (selected : gset uuid).
Hypothesis Hok : life_ok s.
Hypothesis Hsel : selected_memories memory_a memory_b selection = Some selected.

Abbreviation after_ledger := (settled (ledger s) memory_a memory_b selection reason now selected).

Lemma settled_no_display c :
  c_id c ∈ affected_claim_ids memory_a memory_b (ledger s) ->
  c_winning_revision_id (settled_claim (ledger s) memory_a memory_b selection now selected c) = None ->
  c_active_memory_id (settled_claim (ledger s) memory_a memory_b selection now selected c) = None.
Proof using.
  clear. intros Hin. unfold settled_claim. rewrite bool_decide_true by done. unfold settle_claim.
  destruct (bool_decide (selection = "both") && _); [done|].
  by destruct (selected_revisions _ _ _) as [|w [|w' l]].
Qed.

Lemma displayed_affects c i m :
  claims (ledger s) !! i = Some c -> c_active_memory_id c = Some m -> m = memory_a \/ m = memory_b ->
  c_id c ∈ affected_claim_ids memory_a memory_b (ledger s).
Proof using Hok.
  clear Hsel Hembed. intros Hc Ha Hm. destruct (displayed_winner s c i m Hok Hc Ha) as (w & _ & Hw & Hi & Hwm).
  apply (elem_of_affected _ _ _ "" ∅). exists (r_id w), w.
  rewrite (wf_claim_ids _ (lo_ledger s Hok) i c Hc). split_and!; [done..|]. rewrite Hwm.
  destruct Hm as [->| ->]; auto.
Qed.

(** A settled claim that displays a memory displays a selected one, or one the
    conflict is not about. *)
Lemma settled_display i c' m :
  claims after_ledger !! i = Some c' -> c_active_memory_id c' = Some m ->
  is_Some (c_winning_revision_id c') /\
  (m ∈ selected \/ (claims (ledger s) !! i = Some c' /\ m <> memory_a /\ m <> memory_b)).
Proof using Hok Hsel.
  clear Hembed. intros Hc' Ha. pose proof (lo_ledger s Hok) as Hwf.
  apply settled_claims_at in Hc' as (c & Hc & ->).
  destruct (decide (c_id c ∈ affected_claim_ids memory_a memory_b (ledger s))) as [Hin|Hout].
  - destruct (settled_claim_winner (ledger s) memory_a memory_b selection now selected Hwf Hsel c Hin)
      as [(w & Hw & _ & Hwin & Hmem & _)|(Hwin & _ & _)].
    + split; [rewrite Hwin; by eexists|]. left.
      assert (w ∈ selected_revisions selected (c_id c) (ledger s)) as Hel by (rewrite Hw; apply list_elem_of_here).
      apply (elem_of_selected_revisions _ selection) in Hel as (_ & _ & Hs); [|done].
      unfold is_selected in Hs. rewrite <- Hmem, Ha in Hs. by apply bool_decide_eq_true in Hs.
    + rewrite settled_no_display in Ha by done. done.
  - rewrite settled_claim_id in * by done. split; [by apply (lo_displayed s Hok i c m)|]. right.
    split; [done|]. split; intros ->; apply Hout; eapply displayed_affects; eauto.
Qed.

Lemma settled_kind j r m c :
  revisions after_ledger !! j = Some r -> r_memory_id r = Some m ->
  claims after_ledger !! r_claim_id r = Some c -> is_Some (c_winning_revision_id c) ->
  is_Some (c_active_memory_id c).
Proof using Hok Hsel.
  clear Hembed. intros Hr Hm Hc [w Hw]. pose proof (lo_ledger s Hok) as Hwf.
  apply settled_revisions_at in Hr as (r0 & Hr0 & ->).
  destruct (settled_revision_row (ledger s) memory_a memory_b selection reason selected r0) as (_ & E & Em & _).
  rewrite E in Hc. rewrite Em in Hm. apply settled_claims_at in Hc as (c0 & Hc0 & ->).
  destruct (decide (c_id c0 ∈ affected_claim_ids memory_a memory_b (ledger s))) as [Hin|Hout].
  - destruct (settled_claim_winner (ledger s) memory_a memory_b selection now selected Hwf Hsel c0 Hin)
      as [(w' & Hw' & _ & _ & Hmem & _)|(Hwin & _ & _)]; [|congruence].
    assert (w' ∈ selected_revisions selected (c_id c0) (ledger s)) as Hel by (rewrite Hw'; apply list_elem_of_here).
    apply (elem_of_selected_revisions _ selection) in Hel as (_ & _ & Hs); [|done].
    rewrite Hmem. unfold is_selected in Hs. destruct (r_memory_id w'); [by eexists|done].
  - rewrite settled_claim_id in * by done. by apply (lo_kind s Hok j r0 m c0 Hr0 Hm Hc0); eexists.
Qed.

(** The session after the memories were resolved and the ledger settled. *)
Lemma settled_life_ok s2 :
  poisoned s2 = false -> ledger s2 = after_ledger ->
  (forall i m, memories s2 !! i = Some m -> m_id m = i) ->
  (forall m, m ∈ selected -> exists mem, memories s2 !! m = Some mem /\ m_is_archived mem = false) ->
  (forall m, m <> memory_a -> m <> memory_b -> memories s2 !! m = memories s !! m) ->
  life_ok s2.
Proof using Hok Hsel.
  clear Hembed. intros Hp HL Hids Hlive Hrest. constructor; [done| |done| |]; rewrite HL.
  - apply settled_wf; [apply Hok|done].
  - intros i c m Hc Ha. destruct (settled_display i c m Hc Ha) as [Hw [Hm|(Hc0 & Hna & Hnb)]]; [by auto|].
    split; [done|]. rewrite Hrest by done. by apply (lo_displayed s Hok i c m).
  - intros j r m c. apply settled_kind.
Qed.
End Settling.

Lemma desired_selected memory_a memory_b desired :
  memory_a <> memory_b -> desired_states selection = Some desired ->
  exists selected, selected_memories memory_a memory_b selection = Some selected /\
    forall m, m ∈ selected <-> (m = memory_a /\ desired.1 = false) \/ (m = memory_b /\ desired.2 = false).
Proof using.
  clear. intros Hne. unfold desired_states, selected_memories.
  repeat case_bool_decide; intros [= <-]; (eexists; split; [reflexivity|]); simpl; intros m; set_solver.
Qed.

(** A resolution of two memories that exist, spelled out. *)
Lemma resolution_spec s memory_a memory_b desired mem_a mem_b :
  life_ok s -> cf_user_a_memory_id conflict = Some memory_a -> cf_user_b_memory_id conflict = Some memory_b ->
  memory_a <> memory_b -> desired_states selection = Some desired ->
  memories s !! memory_a = Some mem_a -> memories s !! memory_b = Some mem_b ->
  exists s1 s2 s3 conflict' l1 l2,
    apply_conflict_selection embed model_collection include_content conflict selection changed_by reason now s
      = (s3, inr (conflict', match l1 ++ l2 with [] => "memory_states_unchanged"
                             | transitions => py_join "_and_" transitions end)) /\
    resolved memory_a desired.1 mem_a s s1 l1 /\ resolved memory_b desired.2 mem_b s1 s2 l2 /\
    life_ok s3 /\ memories s3 = memories s2 /\ queue s3 = queue s2 /\ db_versions (db s3) = db_versions (db s2).
Proof using Hembed.
  intros Hok Ha Hb Hne Hd Hma Hmb. pose proof (lo_ledger s Hok) as Hwf.
  destruct (desired_selected memory_a memory_b desired Hne Hd) as (selected & Hsel & Hselected).
  destruct (resolve_memory_ok memory_a memory_a desired.1 mem_a s) as (s1 & l1 & E1 & R1);
    [apply wf_flushable; apply Hok|done|by apply (lo_memory_ids s Hok)|].
  destruct (re_memory _ _ _ _ _ _ R1) as (ma & Ema & Ima & Aa).
  assert (memories s1 !! memory_b = Some mem_b) as Hmb1 by (by rewrite Ema, lookup_insert_ne).
  destruct (resolve_memory_ok memory_a memory_b desired.2 mem_b s1) as (s2 & l2 & E2 & R2).
  { apply wf_flushable; [rewrite (re_poisoned _ _ _ _ _ _ R1)|rewrite (re_ledger _ _ _ _ _ _ R1)]; apply Hok. }
  { done. } { by apply (lo_memory_ids s Hok). }
  destruct (re_memory _ _ _ _ _ _ R2) as (mb & Emb & Imb & Ab).
  set (L' := settled (ledger s) memory_a memory_b selection reason now selected).
  exists s1, s2, (s2 <| ledger := L' |>). do 3 eexists. split.
  { unfold apply_conflict_selection, conflict_memory, mbind, M_bind, option_bind, get_st, lift_opt.
    rewrite Ha, Hb. cbn [mret M_ret]. rewrite Hma. cbn [mret M_ret]. rewrite Hmb. cbn [mret M_ret].
    rewrite Hd. cbn [mret M_ret]. unfold should_archive. rewrite bool_decide_false by done.
    rewrite bool_decide_true by done. rewrite E1, E2. unfold settle_ledger.
    rewrite (re_ledger _ _ _ _ _ _ R2), (re_ledger _ _ _ _ _ _ R1).
    rewrite (apply_conflict_selection_settles _ _ _ _ _ _ selected Hwf Hsel). reflexivity. }
  split_and!; [done..| |done|done|done].
  apply (settled_life_ok s memory_a memory_b selected Hok Hsel).
  - simpl. rewrite (re_poisoned _ _ _ _ _ _ R2), (re_poisoned _ _ _ _ _ _ R1). apply Hok.
  - done.
  - simpl. intros i m. rewrite Emb, Ema, !lookup_insert_Some.
    intros [[<- <-]|[_ [[<- <-]|[_ Hi]]]]; [rewrite Imb|rewrite Ima|]; by apply (lo_memory_ids s Hok).
  - simpl. intros m Hm. rewrite Emb, Ema. apply Hselected in Hm as [[-> Hda]|[-> Hdb]].
    + exists ma. rewrite lookup_insert_ne, lookup_insert_eq by done. split; [done|congruence].
    + exists mb. rewrite lookup_insert_eq. split; [done|congruence].
  - simpl. intros m Hna Hnb. rewrite Emb, Ema. by rewrite !lookup_insert_ne.
Qed.

(** C4: Resolving a conflict by hand keeps the whole database consistent. Assumed:
    the conflict names two different memories that are both stored, the selection
    is one of the four, the embedder answers, and the session runs alone. Then the
    run succeeds, archives exactly the memories the selection rejects, touches no
    other memory, and leaves every claim displaying a live memory that its winning
    revision asserts.  Each memory whose state changes is announced to the vector
    store; when neither changes, no version and no announcement is added. *)
Theorem resolution_keeps_database_consistent (s : Life) (memory_a memory_b : uuid) (desired : bool * bool)
    (mem_a mem_b : Memory) (Hok : life_ok s)
    (Ha : cf_user_a_memory_id conflict = Some memory_a) (Hb : cf_user_b_memory_id conflict = Some memory_b)
    (Hne : memory_a <> memory_b) (Hd : desired_states selection = Some desired)
    (Hma : memories s !! memory_a = Some mem_a) (Hmb : memories s !! memory_b = Some mem_b) :
  exists s' conflict' text,
    apply_conflict_selection embed model_collection include_content conflict selection changed_by reason now s
      = (s', inr (conflict', text)) /\
    life_ok s' /\
    m_is_archived <$> memories s' !! memory_a = Some desired.1 /\
    m_is_archived <$> memories s' !! memory_b = Some desired.2 /\
    (forall m, m <> memory_a -> m <> memory_b -> memories s' !! m = memories s !! m) /\
    (m_is_archived mem_a = desired.1 -> m_is_archived mem_b = desired.2 ->
       text = "memory_states_unchanged" /\ queue s' = queue s /\ db_versions (db s') = db_versions (db s)) /\
    (m_is_archived mem_a <> desired.1 ->
       exists id row, queue s' !! id = Some row /\ announces memory_a desired.1 row) /\
    (m_is_archived mem_b <> desired.2 ->
       exists id row, queue s' !! id = Some row /\ announces memory_b desired.2 row).
Proof using Hembed.
  destruct (resolution_spec s memory_a memory_b desired mem_a mem_b)
    as (s1 & s2 & s3 & conflict' & l1 & l2 & E & R1 & R2 & Hok3 & Em & Eq & Ev); [done..|].
  destruct (re_memory _ _ _ _ _ _ R1) as (ma & Ema & _ & Aa).
  destruct (re_memory _ _ _ _ _ _ R2) as (mb & Emb & _ & Ab).
  exists s3, conflict'. eexists. split; [exact E|]. rewrite Em, Emb, Ema. split_and!.
  - done.
  - rewrite lookup_insert_ne, lookup_insert_eq by done. simpl. congruence.
  - rewrite lookup_insert_eq. simpl. congruence.
  - intros m Hna Hnb. by rewrite !lookup_insert_ne.
  - intros Da Db. destruct (re_same _ _ _ _ _ _ R1 Da) as (-> & Q1 & V1).
    destruct (re_same _ _ _ _ _ _ R2 Db) as (-> & Q2 & V2). simpl. split_and!; congruence.
  - intros Da. destruct (re_changed _ _ _ _ _ _ R1 Da) as (_ & row & Q1 & Hrow).
    exists (1 + supply s)%Z, row. split; [|done]. rewrite Eq.
    destruct (decide (m_is_archived mem_b = desired.2)) as [Db|Db].
    + destruct (re_same _ _ _ _ _ _ R2 Db) as (_ & -> & _). by rewrite Q1, lookup_insert_eq.
    + destruct (re_changed _ _ _ _ _ _ R2 Db) as (_ & row' & -> & _).
      destruct (re_supply _ _ _ _ _ _ R1) as [_ Es]. rewrite lookup_insert_ne by (specialize (Es Da); lia).
      by rewrite Q1, lookup_insert_eq.
  - intros Db. destruct (re_changed _ _ _ _ _ _ R2 Db) as (_ & row & Q2 & Hrow).
    exists (1 + supply s1)%Z, row. split; [|done]. by rewrite Eq, Q2, lookup_insert_eq.
Qed.
End Resolution.

(** ** Witness *)

Section ResolutionExamples.
#[local] Existing Instance example_pylib.

Definition example_conflict : CrossUserConflict :=
  {| cf_id := 30; cf_tenant_id := 1; cf_user_a_memory_id := Some 7%Z; cf_user_b_memory_id := Some 8%Z;
     cf_entity_type := SharedContextEntityType.personal_fact; cf_entity_value_a := "Pune";
     cf_entity_value_b := "Delhi"; cf_status := CrossUserConflictStatus.clarification_queued;
     cf_auto_resolution := None; cf_auto_resolution_at := None; cf_resolution_path := Some "user_session";
     cf_requires_attention := false; cf_resolution_reason := None; cf_decision_evidence := [] |}.
Definition example_embed (content model : string) (tenant : uuid) : option EmbeddingResult :=
  Some {| er_vector := [1%Q]; er_model_id := "m2"; er_qdrant_collection := None |}.

Lemma resolution_keeps_database_consistent_witness :
  exists s' conflict' text,
    apply_conflict_selection example_embed (fun _ => None) false example_conflict "B" "user" "they moved" 5
      (scheduled_state 5) = (s', inr (conflict', text)) /\
    life_ok s' /\ text = "archived_memory_a_and_activated_memory_b" /\
    (m_is_archived <$> memories s' !! 8%Z) = Some false /\
    (c_active_memory_id <$> claims (ledger s') !! 3%Z) = Some (Some 8%Z).
Proof.
  destruct (resolution_keeps_database_consistent example_embed (fun _ _ _ => ltac:(by eexists))
    (fun _ => None) false example_conflict "B" "they moved" "user" 5 (scheduled_state 5) 7 8 (true, false)
    (lifecycle_memory 7 false None [] 5)
    (lifecycle_memory 8 true (Some (200 * DAY)%Z) [("lifecycle_state", JStr "scheduled")] 5)
    (scheduled_state_ok 5) eq_refl eq_refl ltac:(lia) eq_refl eq_refl eq_refl)
    as (s' & conflict' & text & E & Hok & _).
  exists s', conflict', text. split; [exact E|]. split; [exact Hok|].
  vm_compute in E. injection E as <- <- <-. vm_compute. split_and!; reflexivity.
Defined.
End ResolutionExamples.
