(* ===== verification/Quota.v ===== *)
(** * Plans, budgets and quota modes

    [api/config/plan_limits.py] (what a plan allows),
    [api/services/budget_governor.py] (whether one add fits the budget),
    [api/services/quota_manager.py] (the tenant's mode, its cache and the
    notifications) and the usage counter of [api/tasks/quality_gate_tasks.py].
    Ratios are exact rationals; [round(x, 4)] is [py_round x 4]. *)

From S2P Require Export ClaimIdentity.

(** ** Plans *)

Record PlanLimits := {
  pl_monthly_call_limit : option Z;
  pl_monthly_token_limit : option Z;
  pl_write_call_limit : option Z;
  pl_read_limit : option Z;
  pl_rate_limit_per_user_per_minute : option Z;
  pl_overage_policy : OveragePolicy.t;
  pl_alert_threshold_pct : Q;
}.

Definition PLAN_LIMITS (tier : PlanTier.t) : PlanLimits :=
  match tier with
  | PlanTier.free =>
      {| pl_monthly_call_limit := Some 5000%Z; pl_monthly_token_limit := Some 2000000%Z;
         pl_write_call_limit := Some 5000%Z; pl_read_limit := None;
         pl_rate_limit_per_user_per_minute := Some 3%Z; pl_overage_policy := OveragePolicy.block;
         pl_alert_threshold_pct := 4 # 5 |}
  | PlanTier.starter =>
      {| pl_monthly_call_limit := Some 50000%Z; pl_monthly_token_limit := Some 25000000%Z;
         pl_write_call_limit := Some 50000%Z; pl_read_limit := None;
         pl_rate_limit_per_user_per_minute := Some 10%Z; pl_overage_policy := OveragePolicy.warn;
         pl_alert_threshold_pct := 4 # 5 |}
  | PlanTier.growth =>
      {| pl_monthly_call_limit := Some 500000%Z; pl_monthly_token_limit := Some 250000000%Z;
         pl_write_call_limit := Some 500000%Z; pl_read_limit := None;
         pl_rate_limit_per_user_per_minute := Some 30%Z; pl_overage_policy := OveragePolicy.warn;
         pl_alert_threshold_pct := 4 # 5 |}
  | PlanTier.scale =>
      {| pl_monthly_call_limit := Some 1000000%Z; pl_monthly_token_limit := Some 500000000%Z;
         pl_write_call_limit := Some 1000000%Z; pl_read_limit := None;
         pl_rate_limit_per_user_per_minute := Some 80%Z; pl_overage_policy := OveragePolicy.warn;
         pl_alert_threshold_pct := 9 # 10 |}
  | PlanTier.enterprise =>
      {| pl_monthly_call_limit := None; pl_monthly_token_limit := None;
         pl_write_call_limit := None; pl_read_limit := None;
         pl_rate_limit_per_user_per_minute := None; pl_overage_policy := OveragePolicy.warn;
         pl_alert_threshold_pct := 9 # 10 |}
  end.

Inductive quota_exn :=
  | UnknownPlan
  | NotNullViolation (column : string)
  | BadCachedValue.

(** [get_limits]; the keys of the dictionary are the enumeration's values. *)
Definition get_limits (plan_tier : string) : option (PlanTier.t * PlanLimits) :=
  t ← find (fun t => bool_decide (PlanTier.value t = plan_tier))
        [PlanTier.free; PlanTier.starter; PlanTier.growth; PlanTier.scale; PlanTier.enterprise];
  Some (t, PLAN_LIMITS t).

(** ** Modes, envelopes and notifications *)

Record QuotaEnvelope := {
  qe_mode : QuotaMode.t;
  qe_budget_remaining_pct : Q;
  qe_reset_at : option datetime;
}.

Inductive webhook :=
  | QuotaWarning (remaining_pct threshold_pct : Q)
  | QuotaCritical (remaining_pct : Q)
  | ModeChanged (from_mode to_mode : QuotaMode.t) (reason : string)
  | QuotaExhausted (mode : QuotaMode.t).

(** A cached text: what [json.loads] gives, or [JSONDecodeError]. *)
Inductive cached_text := NotJson | JsonObject (o : obj).

(** The session's budgets, the shared cache ([None] while Redis fails: the
    calls then fall back to [None]) and the events sent. *)
Record QuotaState := {
  qs_budgets : gmap uuid TenantBudget;
  qs_cache : option (gmap uuid cached_text);
  qs_events : list (uuid * webhook);
}.

Abbreviation QM := (M QuotaState quota_exn).

(** [invalidate_plan_cache], quota key *)
Definition invalidate_cache (tenant_id : uuid) : QM unit :=
  modify_st (fun s => s <| qs_cache ::= fmap (delete tenant_id) |>).

(** [apply_plan_limits]: the UPDATE, with the table's NOT NULL column. *)
Definition apply_plan_limits (tenant_id : uuid) (plan_tier : string) (next_month : datetime) : QM unit :=
  tl ← lift_opt UnknownPlan (get_limits plan_tier);
  s ← get_st;
  match qs_budgets s !! tenant_id, pl_rate_limit_per_user_per_minute tl.2 with
  | Some _, None => raise_st (NotNullViolation "rate_limit_per_user_per_minute")
  | Some b, Some rate =>
      let b' := b <| b_plan_tier := tl.1 |>
                  <| b_monthly_call_limit := pl_monthly_call_limit tl.2 |>
                  <| b_monthly_token_limit := pl_monthly_token_limit tl.2 |>
                  <| b_write_call_limit := pl_write_call_limit tl.2 |>
                  <| b_read_limit := pl_read_limit tl.2 |>
                  <| b_rate_limit_per_user_per_minute := rate |>
                  <| b_overage_policy := pl_overage_policy tl.2 |>
                  <| b_alert_threshold_pct := pl_alert_threshold_pct tl.2 |>
                  <| b_reset_at := Some next_month |> in
      modify_st (fun s => s <| qs_budgets ::= insert tenant_id b' |>);;
      invalidate_cache tenant_id
  | None, _ => invalidate_cache tenant_id
  end.

Definition reached (used : Z) (limit : option Z) : bool :=
  match limit with Some l => (l <=? used)%Z | None => false end.

Definition _compute_mode (b : TenantBudget) : QuotaMode.t :=
  let call_limit_reached := reached (b_current_month_calls b) (b_monthly_call_limit b) in
  let token_limit_reached := reached (b_current_month_tokens b) (b_monthly_token_limit b) in
  let write_limit_reached := reached (b_write_calls b) (b_write_call_limit b) in
  let read_limit_remaining := match b_read_limit b with
                              | None => true | Some l => (b_read_calls b <? l)%Z end in
  if bool_decide (b_overage_policy b = OveragePolicy.block) && (call_limit_reached || token_limit_reached)
  then QuotaMode.blocked
  else if bool_decide (b_overage_policy b = OveragePolicy.warn) && call_limit_reached
  then QuotaMode.passthrough
  else if write_limit_reached && read_limit_remaining
  then QuotaMode.degraded_retrieve
  else QuotaMode.full.

(** [used / limit], for a limit that is neither absent nor zero *)
Definition usage (used : Z) (limit : option Z) : list Q :=
  match limit with
  | Some l => if (l =? 0)%Z then [] else [(inject_Z used / inject_Z l)%Q]
  | None => []
  end.

Definition qmax_list (x : Q) (l : list Q) : Q := fold_right Qmax x l.

Definition _budget_remaining_pct (b : TenantBudget) : Q :=
  match usage (b_current_month_calls b) (b_monthly_call_limit b)
        ++ usage (b_current_month_tokens b) (b_monthly_token_limit b)
        ++ usage (b_write_calls b) (b_write_call_limit b)
        ++ usage (b_read_calls b) (b_read_limit b) with
  | [] => 1%Q
  | u :: us => Qmax 0 (py_round (1 - Qmin (qmax_list u us) 1) 4)
  end.

Definition _compute_envelope (b : option TenantBudget) : QuotaEnvelope :=
  match b with
  | None => {| qe_mode := QuotaMode.full; qe_budget_remaining_pct := 1; qe_reset_at := None |}
  | Some b => {| qe_mode := _compute_mode b; qe_budget_remaining_pct := _budget_remaining_pct b;
                 qe_reset_at := b_reset_at b |}
  end.

Definition _mode_change_reason (mode : QuotaMode.t) : string :=
  match mode with
  | QuotaMode.passthrough => "call_limit_reached"
  | QuotaMode.blocked => "budget_exhausted"
  | QuotaMode.degraded_retrieve => "write_limit_reached"
  | QuotaMode.full => "quota_recovered"
  end.

(** [float(b.alert_threshold_pct or 0.8)] *)
Definition threshold_of (b : TenantBudget) : Q :=
  if Qeq_bool (b_alert_threshold_pct b) 0 then 4 # 5 else b_alert_threshold_pct b.

Definition not_notified_below (last : option Q) (level : Q) : bool :=
  match last with None => true | Some l => level <?q l end.

Definition should_send_warning (remaining threshold : Q) (last : option Q) : bool :=
  (remaining <=?q threshold) && not_notified_below last threshold.
Definition should_send_critical (remaining : Q) (last : option Q) : bool :=
  (remaining <=?q 1 # 20) && not_notified_below last (1 # 20).

(** The new [last_notified_pct] and [last_notified_mode] *)
Definition next_notified_pct (remaining threshold : Q) (last : option Q) : option Q :=
  if should_send_critical remaining last then Some (1 # 20)
  else if should_send_warning remaining threshold last then Some threshold
  else last.
Definition next_notified_mode (mode : QuotaMode.t) (last : option QuotaMode.t) : option QuotaMode.t :=
  if bool_decide (default QuotaMode.full last = mode) then last else Some mode.

Definition mode_events (from_mode to_mode : QuotaMode.t) : list webhook :=
  if bool_decide (from_mode = to_mode) then []
  else ModeChanged from_mode to_mode (_mode_change_reason to_mode)
       :: if bool_decide (to_mode = QuotaMode.passthrough) || bool_decide (to_mode = QuotaMode.blocked)
          then [QuotaExhausted to_mode] else [].

(** [_handle_mode_transition]: the committed budget and the webhooks sent, in
    order. *)
Definition mode_transition (b : TenantBudget) (envelope : QuotaEnvelope) : TenantBudget * list webhook :=
  let threshold_pct := threshold_of b in
  let remaining_pct := qe_budget_remaining_pct envelope in
  let warning := should_send_warning remaining_pct threshold_pct (b_last_notified_pct b) in
  let critical := should_send_critical remaining_pct (b_last_notified_pct b) in
  (b <| b_last_notified_mode ::= next_notified_mode (qe_mode envelope) |>
     <| b_last_notified_pct ::= next_notified_pct remaining_pct threshold_pct |>,
   (if warning && negb critical then [QuotaWarning remaining_pct threshold_pct] else [])
   ++ (if critical then [QuotaCritical remaining_pct] else [])
   ++ mode_events (default QuotaMode.full (b_last_notified_mode b)) (qe_mode envelope)).

Definition _handle_mode_transition (tenant_id : uuid) (b : option TenantBudget)
    (envelope : QuotaEnvelope) : QM unit :=
  match b with
  | None => mret tt
  | Some b =>
      let (b', events) := mode_transition b envelope in
      modify_st (fun s => s <| qs_budgets ::= insert tenant_id b' |>
                            <| qs_events ::= fun l => l ++ ((fun e => (tenant_id, e)) <$> events) |>)
  end.

Section Manager.
Context `{PyLib}.

Definition envelope_payload (e : QuotaEnvelope) : obj :=
  [("mode", JStr (QuotaMode.value (qe_mode e)));
   ("budget_remaining_pct", JFloat (qe_budget_remaining_pct e));
   ("reset_at", match qe_reset_at e with Some t => JStr (isoformat t) | None => JNull end)].

Definition _cache_envelope (tenant_id : uuid) (e : QuotaEnvelope) : QM unit :=
  modify_st (fun s => s <| qs_cache ::= fmap (insert tenant_id (JsonObject (envelope_payload e))) |>).

(** The envelope a cached object stands for; [None] is an exception. *)
Definition envelope_of_payload (mode : json) (o : obj) : option QuotaEnvelope :=
  m ← match mode with JStr s => QuotaMode.of_value s | _ => None end;
  pct ← py_float (default (JFloat 1) (jget "budget_remaining_pct" o));
  let reset_at := jget_or_null "reset_at" o in
  if truthy reset_at
  then match reset_at with
       | JStr s => t ← fromisoformat s;
                   Some {| qe_mode := m; qe_budget_remaining_pct := pct; qe_reset_at := Some t.1 |}
       | _ => None
       end
  else Some {| qe_mode := m; qe_budget_remaining_pct := pct; qe_reset_at := None |}.

Definition _get_cached_envelope (tenant_id : uuid) : QM (option QuotaEnvelope) :=
  s ← get_st;
  match qs_cache s ≫= lookup tenant_id with
  | None | Some NotJson => mret None
  | Some (JsonObject o) =>
      match jget_or_null "mode" o with
      | JNull => mret None
      | mode => e ← lift_opt BadCachedValue (envelope_of_payload mode o); mret (Some e)
      end
  end.

Definition get_quota_envelope (tenant_id : uuid) : QM QuotaEnvelope :=
  cached ← _get_cached_envelope tenant_id;
  match cached with
  | Some e => mret e
  | None =>
      s ← get_st;
      let budget := qs_budgets s !! tenant_id in
      let envelope := _compute_envelope budget in
      _handle_mode_transition tenant_id budget envelope;;
      _cache_envelope tenant_id envelope;;
      mret envelope
  end.

Definition get_mode (tenant_id : uuid) : QM QuotaMode.t :=
  e ← get_quota_envelope tenant_id; mret (qe_mode e).

(** ** The governor *)

(** [str(message.get("content", "") or "")] *)
Definition message_content (message : obj) : string :=
  let c := default (JStr "") (jget "content" message) in
  if truthy c then py_str str_other c else EmptyString.

Definition estimate_tokens (messages : list obj) : Z :=
  fold_right (fun m total => (Z.max 1 (Z.of_nat (String.length (message_content m)) / 4) + total)%Z)
    0%Z messages.

Record BudgetDecision := {
  bd_passed : bool;
  bd_reason : option string;
  bd_estimated_tokens : Z;
  bd_should_alert : bool;
  bd_overage_policy : OveragePolicy.t;
  bd_budget_remaining_pct : Q;
  bd_should_flag_for_billing : bool;
  bd_should_warn : bool;
}.

Definition capped_usage (used : Z) (limit : option Z) : Q :=
  match usage used limit with u :: _ => Qmin u 1 | [] => 0 end.

Definition usage_pct (b : TenantBudget) (estimated_tokens : Z) : Q :=
  Qmax (capped_usage (b_current_month_calls b) (b_monthly_call_limit b))
       (capped_usage (b_current_month_tokens b + estimated_tokens) (b_monthly_token_limit b)).

Definition remaining_of (usage_pct : Q) : Q := Qmax 0 (py_round (1 - usage_pct) 4).

Definition exhausted (b : TenantBudget) (estimated_tokens : Z) : bool :=
  match b_monthly_call_limit b with
  | Some l => (l <=? b_current_month_calls b)%Z | None => false end
  || match b_monthly_token_limit b with
     | Some l => (l <? b_current_month_tokens b + estimated_tokens)%Z | None => false end.

(** [evaluate]; [bd_should_alert] also says whether the alert task is
    dispatched (when notifications are on). *)
Definition evaluate (messages : list obj) (tenant_budget : option TenantBudget) : BudgetDecision :=
  let estimated_tokens := estimate_tokens messages in
  match tenant_budget with
  | None =>
      {| bd_passed := true; bd_reason := None; bd_estimated_tokens := estimated_tokens;
         bd_should_alert := false; bd_overage_policy := OveragePolicy.warn;
         bd_budget_remaining_pct := 1; bd_should_flag_for_billing := false; bd_should_warn := false |}
  | Some b =>
      let used := usage_pct b estimated_tokens in
      let should_alert := threshold_of b <=?q used in
      let blocked := exhausted b estimated_tokens
                     && bool_decide (b_overage_policy b = OveragePolicy.block) in
      {| bd_passed := negb blocked;
         bd_reason := if blocked then Some "budget_exhausted" else None;
         bd_estimated_tokens := estimated_tokens; bd_should_alert := should_alert;
         bd_overage_policy := b_overage_policy b; bd_budget_remaining_pct := remaining_of used;
         bd_should_flag_for_billing :=
           negb blocked && bool_decide (b_overage_policy b = OveragePolicy.charge);
         bd_should_warn := negb blocked && bool_decide (b_overage_policy b = OveragePolicy.warn)
                           && exhausted b estimated_tokens |}
  end.

Definition budget_remaining_pct (messages : list obj) (tenant_budget : option TenantBudget) : Q :=
  match tenant_budget with
  | None => 1
  | Some b => remaining_of (usage_pct b (estimate_tokens messages))
  end.

Definition DEFAULT_RATE_LIMIT_PER_USER_PER_MINUTE : Z := 10.

Definition rate_limit_per_user (tenant_budget : option TenantBudget) : Z :=
  match tenant_budget with
  | None => DEFAULT_RATE_LIMIT_PER_USER_PER_MINUTE
  | Some b => int_or (Some (b_rate_limit_per_user_per_minute b)) DEFAULT_RATE_LIMIT_PER_USER_PER_MINUTE
  end.

(** [increment_tenant_budget_usage] on one budget *)
Definition increment_tenant_budget_usage (estimated_tokens : Z) (b : TenantBudget) : TenantBudget :=
  b <| b_current_month_calls ::= Z.add 1 |> <| b_current_month_tokens ::= Z.add estimated_tokens |>.

(** One add: evaluate, and count it when it is admitted. *)
Definition count_add (b : TenantBudget) (messages : list obj) : TenantBudget :=
  let d := evaluate messages (Some b) in
  if bd_passed d then increment_tenant_budget_usage (bd_estimated_tokens d) b else b.
End Manager.

(** ** Lemmas *)

Lemma estimate_tokens_nonneg `{PyLib} messages : (0 <= estimate_tokens messages)%Z.
Proof. induction messages as [|m l IH]; simpl; lia. Qed.

(** The counters are within the limits a blocking plan enforces. *)
Definition within_limits (b : TenantBudget) : Prop :=
  (forall l, b_monthly_call_limit b = Some l -> (b_current_month_calls b <= l)%Z) /\
  (forall l, b_monthly_token_limit b = Some l -> (b_current_month_tokens b <= l)%Z).

Lemma admit_within `{PyLib} b messages :
  b_overage_policy b = OveragePolicy.block -> within_limits b ->
  within_limits (count_add b messages) /\ b_overage_policy (count_add b messages) = OveragePolicy.block /\
  b_monthly_call_limit (count_add b messages) = b_monthly_call_limit b /\
  b_monthly_token_limit (count_add b messages) = b_monthly_token_limit b.
Proof.
  intros Hpol [Hc Ht]. unfold count_add, evaluate. simpl. rewrite Hpol, bool_decide_true, andb_true_r by done.
  destruct (exhausted b (estimate_tokens messages)) eqn:He; simpl; [by split_and!|].
  unfold exhausted in He. apply orb_false_iff in He as [E1 E2].
  split; [|by split_and!]. split; simpl; intros l Hl.
  - rewrite Hl in E1. apply Z.leb_gt in E1. lia.
  - rewrite Hl in E2. apply Z.ltb_ge in E2. lia.
Qed.

(** A blocking plan is never overrun: however many adds arrive one after
    the other, counting only the admitted ones keeps the month's calls and
    tokens within the plan's limits. *)
Theorem blocking_plan_never_overrun `{PyLib} (b : TenantBudget) (adds : list (list obj))
    (Hpolicy : b_overage_policy b = OveragePolicy.block) (Hwithin : within_limits b) :
  within_limits (fold_left count_add adds b) /\
  b_monthly_call_limit (fold_left count_add adds b) = b_monthly_call_limit b /\
  b_monthly_token_limit (fold_left count_add adds b) = b_monthly_token_limit b.
Proof.
  revert b Hpolicy Hwithin. induction adds as [|a adds IH]; intros b Hpol Hw; [done|]. simpl.
  destruct (admit_within b a Hpol Hw) as (Hw' & Hpol' & E1 & E2).
  destruct (IH _ Hpol' Hw') as (? & F1 & F2). split_and!; congruence.
Qed.

Lemma next_notified_pct_settled r th last :
  (1 # 20 <= th)%Q -> let last' := next_notified_pct r th last in
  next_notified_pct r th last' = last' /\ should_send_warning r th last' = false /\
  should_send_critical r last' = false.
Proof.
  intros Hth last'.
  assert (should_send_critical r last' = false) as Hc.
  { subst last'. unfold next_notified_pct, should_send_warning, should_send_critical.
    destruct (r <=?q 1 # 20) eqn:E1; [|done]. simpl.
    assert ((r <=?q th) = true) as -> by (apply Qle_bool_iff; q_reflect; lra). simpl.
    destruct last as [l|]; simpl; [|done]. destruct (1 # 20 <?q l) eqn:E2; [done|].
    destruct (th <?q l) eqn:E3; [q_reflect; exfalso; lra|done]. }
  assert (should_send_warning r th last' = false) as Hw.
  { subst last'. unfold next_notified_pct, should_send_warning.
    destruct (r <=?q th) eqn:E1; [|by destruct (should_send_critical r last)]. simpl.
    destruct (should_send_critical r last); simpl; [by apply Qltb_ge|].
    destruct last as [l|]; simpl; [|apply Qltb_ge; lra].
    destruct (th <?q l) eqn:E2; [apply Qltb_ge; lra|done]. }
  split; [|done]. unfold next_notified_pct at 1. by rewrite Hc, Hw.
Qed.

Lemma next_notified_mode_settled m last :
  let last' := next_notified_mode m last in
  next_notified_mode m last' = last' /\ default QuotaMode.full last' = m.
Proof.
  unfold next_notified_mode. destruct (decide (default QuotaMode.full last = m)) as [Hm|Hm].
  - by rewrite !(bool_decide_true _ Hm).
  - rewrite (bool_decide_false _ Hm). simpl. by rewrite bool_decide_true.
Qed.

(** Quota notifications are sent once: evaluating the same budget and
    envelope again sends nothing and leaves the budget as it is, as long as the
    warning threshold is not below the critical one. *)
Theorem notifications_are_sent_once (b : TenantBudget) (e : QuotaEnvelope)
    (Hthreshold : (1 # 20 <= threshold_of b)%Q) :
  let b' := (mode_transition b e).1 in mode_transition b' e = (b', []).
Proof.
  unfold mode_transition. set (r := qe_budget_remaining_pct e) in *. set (th := threshold_of b) in *. simpl.
  change (threshold_of _) with th.
  destruct (next_notified_pct_settled r th (b_last_notified_pct b) Hthreshold) as (-> & -> & ->).
  destruct (next_notified_mode_settled (qe_mode e) (b_last_notified_mode b)) as [-> ->]. simpl.
  unfold mode_events. by rewrite bool_decide_true.
Qed.

(** A cached envelope reads back as it was computed: after a budget was
    evaluated, the next request within the cache's lifetime returns the same
    envelope and sends no further events. *)
Theorem cached_envelope_round_trip `{PyLib} (tenant : uuid) (s s' : QuotaState) (e : QuotaEnvelope)
    (cache : gmap uuid cached_text)
    (Hiso : forall t, exists tz, isoformat t <> EmptyString /\ fromisoformat (isoformat t) = Some (t, tz))
    (Hup : qs_cache s = Some cache) (Hmiss : cache !! tenant = None)
    (Hfirst : get_quota_envelope tenant s = (s', inr e)) :
  e = _compute_envelope (qs_budgets s !! tenant) /\ get_quota_envelope tenant s' = (s', inr e).
Proof.
  unfold get_quota_envelope, _get_cached_envelope, mbind, M_bind, get_st in Hfirst.
  rewrite Hup in Hfirst. simpl in Hfirst. rewrite Hmiss in Hfirst. simpl in Hfirst.
  set (env := _compute_envelope _) in *.
  assert (e = env /\ (qs_cache s' ≫= lookup tenant) = Some (JsonObject (envelope_payload env))) as [-> Hc].
  { unfold _handle_mode_transition, _cache_envelope, modify_st in Hfirst.
    destruct (qs_budgets s !! tenant) as [b|]; [destruct (mode_transition b env) as [b' ev]|];
      injection Hfirst as <- <-; simpl; rewrite Hup; simpl; by rewrite lookup_insert_eq. }
  split; [done|]. unfold get_quota_envelope, _get_cached_envelope, mbind, M_bind, get_st.
  destruct (qs_cache s') as [cache'|]; simpl in Hc |- *; [|done].
  rewrite Hc. simpl. unfold envelope_of_payload, jget_or_null. simpl.
  rewrite QuotaMode.of_value_value. simpl.
  destruct env as [m pct [t|]]; simpl; [|done].
  destruct (Hiso t) as (tz & Hne & Hiso'). rewrite bool_decide_false by done. simpl. by rewrite Hiso'.
Qed.

(** Exhausting the read quota lifts the write block: with the write limit
    reached the tenant is degraded to retrieval while reads remain, and is back
    in full mode once the reads are used up as well. *)
Theorem exhausted_reads_restore_full_mode (b : TenantBudget) (w r : Z)
    (Hw : b_write_call_limit b = Some w) (Hr : b_read_limit b = Some r)
    (Hcalls : b_monthly_call_limit b = None) (Htokens : b_monthly_token_limit b = None)
    (Hwrites : (w <= b_write_calls b)%Z) :
  _compute_mode b = if (b_read_calls b <? r)%Z then QuotaMode.degraded_retrieve else QuotaMode.full.
Proof.
  unfold _compute_mode. rewrite Hw, Hr, Hcalls, Htokens. simpl. rewrite !andb_false_r.
  destruct (Z.leb_spec w (b_write_calls b)); [|lia]. simpl. done.
Qed.

(** The enterprise plan cannot be applied: its rate limit is null while the
    column is not nullable, so the update fails and the tenant keeps its old
    limits; every other known plan is applied and invalidates the cached mode. *)
Theorem enterprise_plan_cannot_be_applied (tenant : uuid) (tier : PlanTier.t) (next_month : datetime)
    (s : QuotaState) (b : TenantBudget) (Hb : qs_budgets s !! tenant = Some b) :
  match apply_plan_limits tenant (PlanTier.value tier) next_month s with
  | (s', inl e) => tier = PlanTier.enterprise /\ s' = s /\
      e = NotNullViolation "rate_limit_per_user_per_minute"
  | (s', inr _) => tier <> PlanTier.enterprise /\
      exists b', qs_budgets s' !! tenant = Some b' /\ b_plan_tier b' = tier /\
        b_monthly_call_limit b' = pl_monthly_call_limit (PLAN_LIMITS tier) /\
        b_overage_policy b' = pl_overage_policy (PLAN_LIMITS tier) /\
        b_current_month_calls b' = b_current_month_calls b /\
        (qs_cache s' ≫= lookup tenant) = None
  end.
Proof.
  unfold apply_plan_limits, mbind, M_bind, get_st, modify_st, invalidate_cache.
  destruct tier; simpl; rewrite Hb; simpl; try by split_and!.
  all: split; [done|]; eexists; rewrite lookup_insert_eq; split_and!; try done;
    destruct (qs_cache s); simpl; [apply lookup_delete_eq|done].
Qed.

(** C36: The same threshold means two things: with a threshold of four fifths
    and a quarter of the calls used, the quota manager sends the warning
    (remaining at most the threshold) while the governor does not alert (usage
    not yet at the threshold). *)
Theorem threshold_read_two_ways `{PyLib} (b : TenantBudget)
    (Hthreshold : b_alert_threshold_pct b = (4 # 5)%Q)
    (Hcalls : b_monthly_call_limit b = Some 1000%Z /\ b_current_month_calls b = 250%Z)
    (Hother : b_monthly_token_limit b = None /\ b_write_call_limit b = None /\ b_read_limit b = None)
    (Hnew : b_last_notified_pct b = None /\ b_last_notified_mode b = None) :
  (exists rest, (mode_transition b (_compute_envelope (Some b))).2
                = QuotaWarning (7500 # 10000) (4 # 5) :: rest) /\
  bd_should_alert (evaluate [] (Some b)) = false.
Proof.
  destruct Hcalls as [E1 E2], Hother as (E3 & E4 & E5), Hnew as [E6 E7].
  split.
  - unfold mode_transition, _compute_envelope, _budget_remaining_pct, threshold_of. simpl.
    rewrite E1, E2, E3, E4, E5, E6, Hthreshold. eexists. vm_compute. reflexivity.
  - unfold evaluate, threshold_of, usage_pct. simpl. rewrite Hthreshold, E1, E2, E3. by vm_compute.
Qed.

(** ** Witnesses *)

Section QuotaExamples.
#[local] Existing Instance example_pylib.

Definition example_budget : TenantBudget :=
  {| b_tenant_id := 1; b_plan_tier := PlanTier.free; b_monthly_call_limit := Some 1000%Z;
     b_monthly_token_limit := None; b_current_month_calls := 250; b_current_month_tokens := 0;
     b_write_calls := 9; b_write_call_limit := None; b_read_calls := 3; b_read_limit := None;
     b_rate_limit_per_user_per_minute := 3; b_overage_policy := OveragePolicy.block;
     b_alert_threshold_pct := 4 # 5; b_last_notified_pct := None; b_last_notified_mode := None;
     b_reset_at := Some 77%Z |}.

Lemma blocking_plan_never_overrun_witness :
  within_limits (fold_left count_add (repeat [[("content", JStr "hello there")]] 3) example_budget).
Proof.
  refine (proj1 (blocking_plan_never_overrun example_budget _ eq_refl _)).
  split; intros l Hl; [injection Hl as <-; vm_compute; discriminate|discriminate Hl].
Defined.

Lemma notifications_are_sent_once_witness :
  let e := _compute_envelope (Some example_budget) in
  (mode_transition example_budget e).2 = [QuotaWarning (7500 # 10000) (4 # 5)] /\
  (mode_transition (mode_transition example_budget e).1 e).2 = [].
Proof.
  split; [vm_compute; reflexivity|].
  rewrite (notifications_are_sent_once example_budget (_compute_envelope (Some example_budget))).
  - reflexivity.
  - vm_compute. discriminate.
Defined.

(** A library whose timestamps print and parse in unary. *)
Definition unary_pylib : PyLib := {|
  digest k := k_predicate k;
  fromisoformat s := Some (match s with
                           | String "-" s' => (- Z.of_nat (String.length s'))%Z
                           | _ => (Z.of_nat (String.length s) - 1)%Z
                           end, true);
  parse_uuid_str _ := None;
  str_other _ := "object";
  compact_dump _ := "object";
  isoformat t := if (t <? 0)%Z then String "-" (ones (Z.to_nat (- t)))
                 else String "1" (ones (Z.to_nat t));
  uuid_str := py_str_Z;
|}.

Lemma unary_round_trip (t : datetime) :
  exists tz, @isoformat unary_pylib t <> EmptyString /\
    @fromisoformat unary_pylib (@isoformat unary_pylib t) = Some (t, tz).
Proof.
  exists true. simpl. destruct (Z.ltb_spec t 0) as [Ht|Ht]; (split; [done|]).
  - rewrite length_ones. do 2 f_equal. lia.
  - simpl. rewrite length_ones. do 2 f_equal. lia.
Qed.

Lemma cached_envelope_round_trip_witness :
  let s := {| qs_budgets := {[1%Z := example_budget]}; qs_cache := Some ∅; qs_events := [] |} in
  exists s' e, @get_quota_envelope unary_pylib 1 s = (s', inr e) /\ length (qs_events s') = 1%nat /\
    @get_quota_envelope unary_pylib 1 s' = (s', inr e).
Proof.
  intros s. destruct (@get_quota_envelope unary_pylib 1 s) as [s' [x|e]] eqn:E.
  - exfalso. vm_compute in E. discriminate E.
  - exists s', e. split; [reflexivity|]. split.
    + apply (f_equal fst) in E. simpl in E. rewrite <- E. reflexivity.
    + exact (proj2 (@cached_envelope_round_trip unary_pylib 1 s s' e ∅ unary_round_trip eq_refl
                      eq_refl E)).
Defined.

Lemma exhausted_reads_restore_full_mode_witness :
  let b := example_budget <| b_monthly_call_limit := None |> <| b_write_call_limit := Some 9%Z |>
                          <| b_read_limit := Some 3%Z |> in
  _compute_mode (b <| b_read_calls := 2%Z |>) = QuotaMode.degraded_retrieve /\
  _compute_mode b = QuotaMode.full.
Proof.
  intros b. split.
  - exact (exhausted_reads_restore_full_mode (b <| b_read_calls := 2%Z |>) 9 3 eq_refl eq_refl eq_refl
             eq_refl ltac:(simpl; lia)).
  - exact (exhausted_reads_restore_full_mode b 9 3 eq_refl eq_refl eq_refl eq_refl ltac:(simpl; lia)).
Defined.

Lemma enterprise_plan_cannot_be_applied_witness :
  let s := {| qs_budgets := {[1%Z := example_budget]}; qs_cache := Some ∅; qs_events := [] |} in
  (apply_plan_limits 1 "enterprise" 99 s).1 = s.
Proof.
  intros s.
  pose proof (enterprise_plan_cannot_be_applied 1 PlanTier.enterprise 99 s example_budget eq_refl) as H.
  simpl in H. destruct (apply_plan_limits 1 "enterprise" 99 s) as [s' [e|u]].
  - exact (proj1 (proj2 H)).
  - exfalso. exact (proj1 H eq_refl).
Defined.

Lemma threshold_read_two_ways_witness :
  bd_should_alert (evaluate [] (Some example_budget)) = false.
Proof.
  exact (proj2 (threshold_read_two_ways example_budget eq_refl (conj eq_refl eq_refl)
                  (conj eq_refl (conj eq_refl eq_refl)) (conj eq_refl eq_refl))).
Defined.
End QuotaExamples.
