(* ===== verification/RateLimit.v ===== *)
(** * API-key permissions and rate limits

    [RateLimiterMiddleware] of [api/middleware/rate_limiter.py].  Redis is a
    store of counters with the increment script of the source; while it fails
    the breaker's fallback counts zero or the call raises ([redis_state]). *)

From S2P Require Export ClaimIdentity.

Definition DEFAULT_TENANT_RATE_LIMIT_PER_MINUTE : Z := 120.
Definition TENANT_RATE_LIMIT_TTL_SECONDS : Z := 120.
Definition API_KEY_SCOPED_PREFIXES : list string :=
  ["/v1/memories"; "/v1/users"; "/v1/api-keys"; "/v1/agents"; "/v1/tenant"].

(** What the middleware reads of a request; [now] is in seconds. *)
Record Request := {
  rq_method : string;
  rq_path : string;
  rq_auth_scheme : option string;
  rq_tenant_id : option string;
  rq_api_key_id : option string;
  rq_permissions : option (list string);         (* [None]: none recorded on the key *)
  rq_rate_limit : option Z;                      (* state.api_key_rate_limit_per_minute *)
  rq_now : Z;
}.

Inductive response :=
  | CallNext
  | Forbidden (required_permission : string)
  | RateLimited (scope : string) (retry_after_seconds : Z).
#[export] Instance response_eq_dec : EqDecision response.
Proof. solve_decision. Defined.

Inductive counter_key :=
  | ApiKeyRate (api_key_id : string) (window_minute : Z)
  | TenantRate (tenant_id : string) (window_minute : Z).
#[export] Instance counter_key_eq_dec : EqDecision counter_key.
Proof. solve_decision. Defined.
#[export] Instance counter_key_countable : Countable counter_key.
Proof.
  apply (inj_countable'
    (fun k => match k with ApiKeyRate i w => inl (i, w) | TenantRate i w => inr (i, w) end)
    (fun x => match x with inl (i, w) => ApiKeyRate i w | inr (i, w) => TenantRate i w end)).
  by intros [].
Defined.

(** A counter with the second it expires at. *)
Record Counter := { ct_value : Z; ct_expires : Z }.
Abbreviation Counters := (gmap counter_key Counter).

Inductive redis_state := Healthy | FallsBack | Raises.

(** The Lua script: INCR, and EXPIRE on the first increment. *)
Definition increment_script (now : Z) (key : counter_key) (ttl : Z) (r : Counters) : Counters * Z :=
  match r !! key with
  | Some c =>
      if (ct_expires c <=? now)%Z
      then (<[key := {| ct_value := 1; ct_expires := now + ttl |}]> r, 1%Z)
      else (<[key := {| ct_value := ct_value c + 1; ct_expires := ct_expires c |}]> r, ct_value c + 1)%Z
  | None => (<[key := {| ct_value := 1; ct_expires := now + ttl |}]> r, 1%Z)
  end.

(** [_increment]: [None] is one of [REDIS_FAILURES]. *)
Definition _increment (redis : redis_state) (now : Z) (key : counter_key) (r : Counters)
    : Counters * option Z :=
  match redis with
  | Healthy => let (r', n) := increment_script now key TENANT_RATE_LIMIT_TTL_SECONDS r in (r', Some n)
  | FallsBack => (r, Some 0%Z)
  | Raises => (r, None)
  end.

Definition _is_scoped_path (path : string) : bool :=
  existsb (fun prefix => bool_decide (path = prefix) || py_startswith path (prefix +:+ "/"))
    API_KEY_SCOPED_PREFIXES.

Definition _required_permission (method path : string) : string :=
  if bool_decide (path = "/v1/memories/service-corrections")
     || py_startswith path "/v1/memories/service-corrections/" then "admin"
  else if py_startswith path "/v1/users/" && negb (py_startswith path "/v1/users/me/")
          && existsb (py_endswith path) ["/block"; "/unblock"; "/export"; "/stats"] then "admin"
  else if py_startswith path "/v1/api-keys" || py_startswith path "/v1/tenant" then "admin"
  else if py_startswith path "/v1/agents" then if bool_decide (method = "GET") then "read" else "admin"
  else if bool_decide (method = "DELETE") then "delete"
  else if bool_decide (path = "/v1/memories/retrieve") || bool_decide (method = "GET") then "read"
  else "write".

Definition _retry_after_seconds (now : Z) : Z :=
  let current_second := (now mod 60)%Z in
  if (current_second =? 0)%Z then 60 else (60 - current_second)%Z.

(** The key's permissions, trimmed and lower-cased, blanks dropped. *)
Definition permissions_of (raw : option (list string)) : list string :=
  (fun s => py_lower (py_strip s)) <$> filter (fun s => py_strip s <> EmptyString) (default [] raw).

Definition PREPARE_TURN : string := "/v1/memories/prepare-turn".

(** The permission refused, if any. *)
Definition refused_permission (q : Request) : option string :=
  match rq_permissions q with
  | None => None
  | Some raw =>
      let permissions := permissions_of (Some raw) in
      if bool_decide ("admin" ∈ permissions) then None
      else
        let turn := if bool_decide (rq_path q = PREPARE_TURN)
                    then find (fun p => negb (bool_decide (p ∈ permissions))) ["write"; "read"] else None in
        match turn with
        | Some p => Some p
        | None =>
            let required := _required_permission (rq_method q) (rq_path q) in
            if bool_decide (required ∈ permissions) then None else Some required
        end
  end.

Definition window_minute (now : Z) : Z := (now / 60)%Z.

(** [max(1, int(state.limit or 60))] *)
Definition api_key_limit (q : Request) : Z := Z.max 1 (int_or (rq_rate_limit q) 60).

Definition counts_for_tenant (q : Request) : bool :=
  bool_decide (rq_method q = "POST")
  && (bool_decide (rq_path q = "/v1/memories/add") || bool_decide (rq_path q = PREPARE_TURN)).

Definition given (o : option string) : bool :=
  match o with Some s => negb (bool_decide (s = EmptyString)) | None => false end.

(** [dispatch]; [has_cache]: the application has a cache service;
    [tenant_limit]: [TENANT_RATE_LIMIT_PER_MINUTE] or its default. *)
Definition dispatch (redis : redis_state) (has_cache : bool) (tenant_limit : Z) (q : Request)
    (r : Counters) : Counters * response :=
  if negb (bool_decide (rq_auth_scheme q = Some "apikey")) || negb (_is_scoped_path (rq_path q))
  then (r, CallNext)
  else
    match refused_permission q with
    | Some p => (r, Forbidden p)
    | None =>
        match rq_tenant_id q, rq_api_key_id q with
        | Some tenant, Some key =>
            if negb (given (Some tenant)) || negb (given (Some key)) || negb has_cache then (r, CallNext)
            else
              match _increment redis (rq_now q) (ApiKeyRate key (window_minute (rq_now q))) r with
              | (r1, None) => (r1, CallNext)
              | (r1, Some n) =>
                  if (api_key_limit q <? n)%Z
                  then (r1, RateLimited "api_key" (_retry_after_seconds (rq_now q)))
                  else if counts_for_tenant q then
                    match _increment redis (rq_now q) (TenantRate tenant (window_minute (rq_now q))) r1 with
                    | (r2, None) => (r2, CallNext)
                    | (r2, Some m) =>
                        if (tenant_limit <? m)%Z
                        then (r2, RateLimited "tenant" (_retry_after_seconds (rq_now q)))
                        else (r2, CallNext)
                    end
                  else (r1, CallNext)
              end
        | _, _ => (r, CallNext)
        end
    end.

(** ** Permissions *)

(** A key is let through only with the permission the endpoint needs: when
    a scoped request authenticated by an API key with recorded permissions
    reaches the application, the key holds "admin" or the required permission
    (both "write" and "read" for preparing a turn), whatever Redis does. *)
Theorem admitted_keys_hold_the_permission (redis : redis_state) (has_cache : bool) (tenant_limit : Z)
    (q : Request) (r : Counters) (raw : list string)
    (Hkey : rq_auth_scheme q = Some "apikey") (Hscoped : _is_scoped_path (rq_path q) = true)
    (Hraw : rq_permissions q = Some raw)
    (Hnext : (dispatch redis has_cache tenant_limit q r).2 = CallNext) :
  "admin" ∈ permissions_of (Some raw) \/
  (_required_permission (rq_method q) (rq_path q) ∈ permissions_of (Some raw) /\
   (rq_path q = PREPARE_TURN ->
      "write" ∈ permissions_of (Some raw) /\ "read" ∈ permissions_of (Some raw))).
Proof.
  unfold dispatch in Hnext. rewrite bool_decide_true, Hscoped in Hnext by done. simpl in Hnext.
  destruct (refused_permission q) as [p|] eqn:Hp; [done|]. clear Hnext.
  unfold refused_permission in Hp. rewrite Hraw in Hp.
  set (ps := permissions_of (Some raw)) in *.
  destruct (decide ("admin" ∈ ps)) as [?|Hna]; [by left|right].
  rewrite bool_decide_false in Hp by done.
  destruct (decide (rq_path q = PREPARE_TURN)) as [Hturn|Hturn].
  - rewrite bool_decide_true in Hp by done. simpl in Hp.
    destruct (decide ("write" ∈ ps)) as [Hw|Hw]; [rewrite (bool_decide_true _ Hw) in Hp|by rewrite (bool_decide_false _ Hw) in Hp].
    simpl in Hp.
    destruct (decide ("read" ∈ ps)) as [Hr|Hr]; [rewrite (bool_decide_true _ Hr) in Hp|by rewrite (bool_decide_false _ Hr) in Hp].
    simpl in Hp. by case_bool_decide.
  - rewrite bool_decide_false in Hp by done. simpl in Hp. by case_bool_decide.
Qed.

(** ** Limits *)

(** A request that only the key's own limit can refuse. *)
Definition plain_request (key : string) (w : Z) (limit : Z) (q : Request) : Prop :=
  rq_auth_scheme q = Some "apikey" /\ _is_scoped_path (rq_path q) = true /\
  refused_permission q = None /\ given (rq_tenant_id q) = true /\
  rq_api_key_id q = Some key /\ key <> EmptyString /\ window_minute (rq_now q) = w /\
  api_key_limit q = limit /\ counts_for_tenant q = false.

(** The count of key [key] in window [w], as the script would see it there. *)
Definition count_of (key : string) (w : Z) (r : Counters) : Z :=
  match r !! ApiKeyRate key w with Some c => ct_value c | None => 0 end.

Definition fresh_expiry (key : string) (w : Z) (r : Counters) : Prop :=
  forall c, r !! ApiKeyRate key w = Some c -> (60 * w + 60 <= ct_expires c)%Z.

Lemma dispatch_plain key w limit tenant_limit q r :
  plain_request key w limit q -> fresh_expiry key w r ->
  let (r', resp) := dispatch Healthy true tenant_limit q r in
  fresh_expiry key w r' /\ count_of key w r' = (count_of key w r + 1)%Z /\
  resp = if (limit <? count_of key w r + 1)%Z
         then RateLimited "api_key" (_retry_after_seconds (rq_now q)) else CallNext.
Proof.
  intros (H1 & H2 & H3 & H4 & H5 & H6 & H7 & H8 & H9) Hexp. unfold dispatch.
  rewrite bool_decide_true, H2, H3, H5 by done. cbn [negb orb].
  destruct (rq_tenant_id q) as [tenant|]; [|done]. rewrite H4. unfold given.
  rewrite (bool_decide_false (key = EmptyString)) by done. simpl.
  rewrite H7, H8, H9. unfold increment_script, TENANT_RATE_LIMIT_TTL_SECONDS, window_minute, count_of in *.
  assert (60 * w <= rq_now q < 60 * w + 60)%Z as Hnow.
  { pose proof (Z.div_mod (rq_now q) 60). pose proof (Z.mod_pos_bound (rq_now q) 60). lia. }
  assert (forall c, (60 * w + 60 <= ct_expires c)%Z -> fresh_expiry key w (<[ApiKeyRate key w := c]> r)) as Hf.
  { intros c Hc c'. rewrite lookup_insert_eq. by intros [= <-]. }
  destruct (r !! ApiKeyRate key w) as [c|] eqn:Hc.
  - specialize (Hexp c Hc). destruct (Z.leb_spec (ct_expires c) (rq_now q)); [lia|].
    destruct (limit <? ct_value c + 1)%Z; (split_and!; [by apply Hf|by rewrite lookup_insert_eq|done]).
  - simpl. change (0 + 1)%Z with 1%Z. destruct (limit <? 1)%Z;
      (split_and!; [apply Hf; simpl; lia|by rewrite lookup_insert_eq|done]).
Qed.

(** Dispatch a sequence of requests. *)
Fixpoint dispatch_all (tenant_limit : Z) (qs : list Request) (r : Counters) : list response :=
  match qs with
  | [] => []
  | q :: qs => let (r', resp) := dispatch Healthy true tenant_limit q r in
               resp :: dispatch_all tenant_limit qs r'
  end.

Definition admitted (resps : list response) : nat :=
  length (filter (fun x => x = CallNext) resps).

Lemma dispatch_all_admitted key w limit tenant_limit qs r :
  Forall (plain_request key w limit) qs -> fresh_expiry key w r ->
  Z.of_nat (admitted (dispatch_all tenant_limit qs r))
    = Z.max 0 (Z.min (Z.of_nat (length qs)) (limit - count_of key w r)).
Proof.
  intros Hqs. revert r. induction Hqs as [|q qs Hq Hqs IH]; intros r Hexp; [unfold admitted; simpl; lia|].
  simpl. pose proof (dispatch_plain key w limit tenant_limit q r Hq Hexp) as Hd.
  destruct (dispatch Healthy true tenant_limit q r) as [r' resp].
  destruct Hd as (Hexp' & Hcount & ->). specialize (IH r' Hexp'). rewrite Hcount in IH.
  unfold admitted in *. rewrite filter_cons.
  destruct (Z.ltb_spec limit (count_of key w r + 1)).
  - rewrite decide_False by discriminate. lia.
  - rewrite decide_True by done. simpl. lia.
Qed.

(** The per-key limit is exact: of any number of requests of one key within
    one minute, while Redis answers, exactly the first [limit] reach the
    application. *)
Theorem key_limit_is_exact (key : string) (w limit tenant_limit : Z) (qs : list Request) (r : Counters)
    (Hqs : Forall (plain_request key w limit) qs) (Hlimit : (1 <= limit)%Z)
    (Hnew : r !! ApiKeyRate key w = None) :
  Z.of_nat (admitted (dispatch_all tenant_limit qs r)) = Z.min (Z.of_nat (length qs)) limit.
Proof.
  rewrite (dispatch_all_admitted key w limit); [|done|].
  - unfold count_of. rewrite Hnew. lia.
  - intros c Hc. congruence.
Qed.

(** ** Witnesses *)

Definition example_request (now : Z) : Request :=
  {| rq_method := "GET"; rq_path := "/v1/memories/7"; rq_auth_scheme := Some "apikey";
     rq_tenant_id := Some "t"; rq_api_key_id := Some "k"; rq_permissions := Some [" Read "];
     rq_rate_limit := Some 2%Z; rq_now := now |}.

Lemma admitted_keys_hold_the_permission_witness :
  "read" ∈ permissions_of (Some [" Read "]).
Proof.
  destruct (admitted_keys_hold_the_permission Raises true 120 (example_request 5) ∅ [" Read "]
              eq_refl eq_refl eq_refl eq_refl) as [H|[H _]].
  - exfalso. vm_compute in H. apply list_elem_of_singleton in H. discriminate H.
  - exact H.
Defined.

Lemma key_limit_is_exact_witness :
  Z.of_nat (admitted (dispatch_all 120 (example_request <$> [600; 601; 659]%Z) ∅)) = 2%Z.
Proof.
  rewrite (key_limit_is_exact "k" 10 2 120 (example_request <$> [600; 601; 659]%Z) ∅).
  - reflexivity.
  - repeat apply Forall_cons_2; [repeat split..|apply Forall_nil_2]; discriminate.
  - lia.
  - reflexivity.
Defined.
