(* ===== verification/QueueRouter.v ===== *)
(** * Extraction queues

    [api/tasks/queue_router.py]: the queue of a tenant's plan, the reservation
    and release of extraction slots (the two Lua scripts, run atomically by
    Redis), the queue snapshot and the processing estimate.  Redis is a record
    of its keys with their expiry times; whether a call to it fails, and whether
    Redis ran the script of a call that failed, are inputs.  The clock is read in whole seconds; the member text
    [f"{tenant_id}:{job_id}"] is the pair. *)

From S2P Require Export RedisKeys.

(** ** Plans and queues *)

Definition PLAN_CACHE_TTL_SECONDS : Z := 300.
Definition QUEUE_RESERVATION_TTL_SECONDS : Z := 14400.
Definition ADMISSION_METRICS_TTL_SECONDS : Z := 172800.
Definition FREE_QUEUE : string := "free-extraction".
Definition STARTER_QUEUE : string := "starter-extraction".
Definition GROWTH_QUEUE : string := "growth-extraction".
Definition SCALE_QUEUE : string := "scale-extraction".
Definition ENTERPRISE_QUEUE : string := "enterprise-extraction".
Definition BACKGROUND_QUEUE : string := "celery".
Definition REEMBEDDING_QUEUE : string := "reembedding".
Definition DEAD_LETTER_QUEUE : string := "dead-letter".

Definition ALL_QUEUES : list string :=
  [SCALE_QUEUE; ENTERPRISE_QUEUE; GROWTH_QUEUE; STARTER_QUEUE; FREE_QUEUE; BACKGROUND_QUEUE;
   REEMBEDDING_QUEUE; DEAD_LETTER_QUEUE].

(** [TABLE.get(key)] on a constant table. *)
Fixpoint table_get {A} (table : list (string * A)) (key : string) : option A :=
  match table with
  | [] => None
  | (k, a) :: table => if bool_decide (k = key) then Some a else table_get table key
  end.

Definition PLAN_QUEUE_MAP : list (string * string) :=
  [("enterprise", ENTERPRISE_QUEUE); ("scale", SCALE_QUEUE); ("growth", GROWTH_QUEUE);
   ("starter", STARTER_QUEUE); ("free", FREE_QUEUE)].

Definition PLAN_QUEUE_LIMITS : list (string * Z) :=
  [("enterprise", 1000%Z); ("scale", 500%Z); ("growth", 200%Z); ("starter", 50%Z); ("free", 10%Z)].

Definition QUEUE_THROUGHPUT_PER_MINUTE : list (string * Z) :=
  [(SCALE_QUEUE, 8%Z); (ENTERPRISE_QUEUE, 8%Z); (GROWTH_QUEUE, 5%Z); (STARTER_QUEUE, 3%Z);
   (FREE_QUEUE, 1%Z)].

Definition queue_of_plan (plan_tier : string) : string :=
  default STARTER_QUEUE (table_get PLAN_QUEUE_MAP plan_tier).
Definition limit_of_plan (plan_tier : string) : Z :=
  default 50%Z (table_get PLAN_QUEUE_LIMITS plan_tier).

(** ** Redis *)

Abbreviation tenant_key := string.
Abbreviation member := (string * string)%type.

(** [rd_plans]: [tenant:..:plan]; [rd_depth]: [tenant_queue_depth:..]; [rd_jobs]:
    the sorted set [queue_depth:..:jobs]; [rd_breakdown]:
    [queue_depth:..:tenant_breakdown]; [rd_admission]: the day's attempted and
    full counts; [rd_delayed]: [queue_was_delayed:..]. *)
Record Redis := {
  rd_plans : gmap tenant_key (Expiring string);
  rd_depth : gmap (tenant_key * string) (Expiring Z);
  rd_jobs : gmap string (Expiring (gmap member Z));
  rd_breakdown : gmap string (Expiring (gmap tenant_key Z));
  rd_admission : gmap (string * Z) (Expiring (Z * Z));
  rd_delayed : gmap (tenant_key * string) (Expiring unit);
}.

Definition empty_redis : Redis :=
  {| rd_plans := ∅; rd_depth := ∅; rd_jobs := ∅; rd_breakdown := ∅; rd_admission := ∅; rd_delayed := ∅ |}.

Definition depth_of (now : Z) (tenant_id queue_name : string) (r : Redis) : Z :=
  default 0%Z (rget now (tenant_id, queue_name) (rd_depth r)).
Definition jobs_of (now : Z) (queue_name : string) (r : Redis) : gmap member Z :=
  default ∅ (rget now queue_name (rd_jobs r)).
Definition breakdown_of (now : Z) (queue_name : string) (r : Redis) : gmap tenant_key Z :=
  default ∅ (rget now queue_name (rd_breakdown r)).
Definition admission_of (now : Z) (queue_name : string) (r : Redis) : Z * Z :=
  default (0, 0)%Z (rget now (queue_name, now / 86400)%Z (rd_admission r)).

Definition hash_get (h : gmap tenant_key Z) (f : string) : Z := default 0%Z (h !! f).

(** [RESERVE_EXTRACTION_SLOT_SCRIPT] *)
Definition reserve_script (now : Z) (tenant_id queue_name job_id : string) (queue_limit : Z) (r : Redis)
    : Redis * Z :=
  let m := (tenant_id, job_id) in
  if bool_decide (is_Some (jobs_of now queue_name r !! m)) then (r, 2%Z)
  else
    let day := (queue_name, now / 86400)%Z in
    let counts := admission_of now queue_name r in
    let metrics full := rset day (counts.1 + 1, counts.2 + full)%Z
                          (Some (now + ADMISSION_METRICS_TTL_SECONDS)%Z) (rd_admission r) in
    let current := depth_of now tenant_id queue_name r in
    if (queue_limit <=? current)%Z then (r <| rd_admission := metrics 1%Z |>, 0%Z)
    else
      let expires := Some (now + QUEUE_RESERVATION_TTL_SECONDS)%Z in
      let h := breakdown_of now queue_name r in
      (r <| rd_admission := metrics 0%Z |>
         <| rd_depth ::= rset (tenant_id, queue_name) (current + 1)%Z expires |>
         <| rd_jobs ::= rset queue_name (<[m := now]> (jobs_of now queue_name r)) expires |>
         <| rd_breakdown ::= rset queue_name (<[tenant_id := (hash_get h tenant_id + 1)%Z]> h) expires |>,
       1%Z).

(** [RELEASE_EXTRACTION_SLOT_SCRIPT]; a sorted set or hash left empty is gone. *)
Definition release_script (now : Z) (tenant_id queue_name job_id : string) (r : Redis) : Redis * Z :=
  let m := (tenant_id, job_id) in
  let jobs := jobs_of now queue_name r in
  if bool_decide (jobs !! m = None) then (r, 0%Z)
  else
    let depth := (depth_of now tenant_id queue_name r - 1)%Z in
    let h := breakdown_of now queue_name r in
    let tenant_depth := (hash_get h tenant_id - 1)%Z in
    let h' := if (tenant_depth <=? 0)%Z then delete tenant_id h else <[tenant_id := tenant_depth]> h in
    (r <| rd_jobs ::= if bool_decide (delete m jobs = ∅) then delete queue_name
                      else rset queue_name (delete m jobs) (kept_ttl now queue_name (rd_jobs r)) |>
       <| rd_depth ::= if (depth <=? 0)%Z then delete (tenant_id, queue_name)
                       else rset (tenant_id, queue_name) depth
                              (kept_ttl now (tenant_id, queue_name) (rd_depth r)) |>
       <| rd_breakdown ::= if bool_decide (h' = ∅) then delete queue_name
                           else rset queue_name h' (kept_ttl now queue_name (rd_breakdown r)) |>, 1%Z).

(** ** The router *)

(** What becomes of the calls to Redis: [up_plan_get]: the cached plan is read;
    [up_plan_set]: the plan is written (the answer is not looked at);
    [up_eval]: the script's result arrives; [ran_eval]: a script whose result
    does not arrive was run all the same, as when the connection is lost after
    the call was sent. *)
Record Calls := { up_plan_get : bool; up_plan_set : bool; up_eval : bool; ran_eval : bool }.

(** The plan columns the router reads: of the tenant's budget, of the tenant. *)
Record Plans := { budget_plan : gmap uuid PlanTier.t; tenant_plan : gmap uuid PlanTier.t }.

Record QueueReservation := {
  qr_tenant_id : string; qr_queue_name : string; qr_plan_tier : string; qr_queue_limit : Z }.

Section Router.
Context `{PyLib}.

(** The plan the database records. *)
Definition stored_plan (plans : Plans) (tenant : uuid) : string :=
  match budget_plan plans !! tenant with
  | Some p => PlanTier.value p
  | None => PlanTier.value (default PlanTier.starter (tenant_plan plans !! tenant))
  end.

Definition _get_plan_tier (up : Calls) (plans : Plans) (now : Z) (tenant_id : string) (r : Redis)
    : Redis * string :=
  let cached_plan := if up_plan_get up then rget now tenant_id (rd_plans r) else None in
  match cached_plan with
  | Some (String _ _ as plan) => (r, plan)
  | _ =>
      match parse_uuid_str tenant_id with
      | None => (r, PlanTier.value PlanTier.starter)
      | Some tenant =>
          let plan_value := stored_plan plans tenant in
          (if up_plan_set up
           then r <| rd_plans ::= rset tenant_id plan_value (Some (now + PLAN_CACHE_TTL_SECONDS)%Z) |>
           else r, plan_value)
      end
  end.

(** [get_extraction_queue] and [get_extraction_queue_sync] *)
Definition get_extraction_queue (up : Calls) (plans : Plans) (now : Z) (tenant_id : string) (r : Redis)
    : Redis * string :=
  let (r', plan_tier) := _get_plan_tier up plans now tenant_id r in (r', queue_of_plan plan_tier).

Definition reserve_extraction_slot (up : Calls) (plans : Plans) (now : Z) (tenant_id job_id : string)
    (r : Redis) : Redis * option QueueReservation :=
  let (r1, plan_tier) := _get_plan_tier up plans now tenant_id r in
  let queue_name := queue_of_plan plan_tier in
  let queue_limit := limit_of_plan plan_tier in
  let (r2, result) := reserve_script now tenant_id queue_name job_id queue_limit r1 in
  if up_eval up then
    (r2, if (result =? 0)%Z then None
         else Some {| qr_tenant_id := tenant_id; qr_queue_name := queue_name;
                      qr_plan_tier := plan_tier; qr_queue_limit := queue_limit |})
  else (if ran_eval up then r2 else r1, None).

Definition release_extraction_slot (up : Calls) (now : Z) (tenant_id queue_name job_id : string)
    (r : Redis) : Redis :=
  if up_eval up || ran_eval up then (release_script now tenant_id queue_name job_id r).1 else r.

(** Absent or empty arguments release nothing. *)
Definition release_extraction_slot_sync (up : Calls) (now : Z)
    (tenant_id queue_name job_id : option string) (r : Redis) : Redis :=
  match tenant_id, queue_name, job_id with
  | Some (String _ _ as t), Some (String _ _ as q), Some (String _ _ as j) =>
      release_extraction_slot up now t q j r
  | _, _, _ => r
  end.
End Router.

(** ** Observers *)

(** The lowest score of a sorted set. *)
Definition oldest_score (jobs : gmap member Z) : option Z :=
  match map_to_list jobs with
  | [] => None
  | (_, s) :: rest => Some (fold_right (fun ms acc => Z.min ms.2 acc) s rest)
  end.

Record QueueSnapshot := {
  sn_length : Z;
  sn_oldest_job_age_seconds : option Z;
  sn_tenant_breakdown : gmap tenant_key Z;
  sn_admission_attempts_utc_day : Z;
  sn_queue_full_utc_day : Z;
  sn_queue_full_rate_pct : Q;
}.

(** One entry of [inspect_all_queues]; [length] is LLEN's answer and [None]
    stands for a failing call. *)
Definition inspect_queue (up : bool) (now : Z) (length : option Z) (queue_name : string) (r : Redis)
    : QueueSnapshot :=
  let oldest := if up then oldest_score (jobs_of now queue_name r) else None in
  let admission := if up then admission_of now queue_name r else (0, 0)%Z in
  {| sn_length := default 0%Z length;
     sn_oldest_job_age_seconds := (fun s => Z.max 0 (now - s)) <$> oldest;
     sn_tenant_breakdown := if up then breakdown_of now queue_name r else ∅;
     sn_admission_attempts_utc_day := admission.1; sn_queue_full_utc_day := admission.2;
     sn_queue_full_rate_pct :=
       if (admission.1 =? 0)%Z then 0
       else py_round (inject_Z admission.2 / inject_Z admission.1 * 100) 2 |}.

Definition inspect_all_queues (up : bool) (now : Z) (length : string -> option Z) (r : Redis)
    : list (string * QueueSnapshot) :=
  (fun q => (q, inspect_queue up now (length q) q r)) <$> ALL_QUEUES.

Definition get_queue_depth (up : bool) (now : Z) (queue_name : string) (r : Redis) : Z :=
  if up then Z.of_nat (size (jobs_of now queue_name r)) else 0.

Inductive processing_event :=
  | ProcessingDelayed (queue : string) (eta_seconds : Z)
  | ProcessingRecovered (queue : string).

(** [int(math.ceil(depth / throughput) * 60)] *)
Definition eta_seconds (depth throughput : Z) : Z :=
  (Qceiling (inject_Z depth / inject_Z throughput) * 60)%Z.

(** [get_processing_eta] after the tenant's queue was found: the state key, the
    estimate and the events dispatched. *)
Definition get_processing_eta (up : bool) (now : Z) (tenant_id queue_name : string) (r : Redis)
    : Redis * option Z * list processing_event :=
  let depth := get_queue_depth up now queue_name r in
  let key := (tenant_id, queue_name) in
  let was_delayed := up && bool_decide (is_Some (rget now key (rd_delayed r))) in
  if (depth <=? 10)%Z then
    if was_delayed
    then (r <| rd_delayed ::= delete key |>, None, [ProcessingRecovered queue_name])
    else (r, None, [])
  else
    match table_get QUEUE_THROUGHPUT_PER_MINUTE queue_name with
    | None => (r, None, [])
    | Some throughput =>
        let eta := eta_seconds depth throughput in
        (if up then r <| rd_delayed ::= rset key tt (Some (now + 300)%Z) |> else r, Some eta,
         if was_delayed then [] else [ProcessingDelayed queue_name eta])
    end.

(** ** Slots

    Within one reservation lifetime no key expires; the counter of a tenant,
    its entry of the breakdown and its members of the sorted set then agree. *)

(** The members of a tenant. *)
Definition held (tenant_id : string) (jobs : gmap member Z) : nat :=
  size (filter (fun mj : member * Z => mj.1.1 = tenant_id) jobs).

(** The limit that goes with a queue. *)
Definition queue_limit (queue_name : string) : Z :=
  default 50%Z (table_get [(ENTERPRISE_QUEUE, 1000%Z); (SCALE_QUEUE, 500%Z); (GROWTH_QUEUE, 200%Z);
                           (STARTER_QUEUE, 50%Z); (FREE_QUEUE, 10%Z)] queue_name).

Lemma limit_of_queue plan : limit_of_plan plan = queue_limit (queue_of_plan plan).
Proof.
  unfold limit_of_plan, queue_of_plan. simpl.
  repeat (case_bool_decide; [done|]). done.
Qed.

(** Keys whose expiry, if any, is not before [T]. *)
Definition fresh {K A} `{Countable K} (T : Z) (m : gmap K (Expiring A)) : Prop :=
  forall k e t, m !! k = Some e -> ex_at e = Some t -> (T <= t)%Z.

Definition value {K A} `{Countable K} (k : K) (m : gmap K (Expiring A)) : option A := ex_value <$> m !! k.

Section Fresh.
Context {K A : Type} `{Countable K}.
Implicit Types m : gmap K (Expiring A).

Lemma rget_fresh T now k m : fresh T m -> (now < T)%Z -> rget now k m = value k m.
Proof.
  intros Hf Hnow. unfold rget, value. destruct (m !! k) as [e|] eqn:He; [|done]. simpl.
  unfold alive. destruct (ex_at e) as [t|] eqn:Ht; [|done].
  pose proof (Hf k e t He Ht). destruct (Z.ltb_spec now t); [done|lia].
Qed.

Lemma kept_ttl_fresh T now k m t : fresh T m -> kept_ttl now k m = Some t -> (T <= t)%Z.
Proof.
  intros Hf Hk. unfold kept_ttl in Hk. destruct (m !! k) as [e|] eqn:He; [|done]. simpl in Hk.
  destruct (alive now e); [|done]. by apply (Hf k e).
Qed.

Lemma fresh_rset T k (a : A) at_ m :
  fresh T m -> (forall t, at_ = Some t -> (T <= t)%Z) -> fresh T (rset k a at_ m).
Proof.
  intros Hf Ha k' e t. unfold rset. rewrite lookup_insert. case_decide; [|apply Hf].
  intros [= <-]. apply Ha.
Qed.

Lemma fresh_delete T k m : fresh T m -> fresh T (delete k m).
Proof. intros Hf k' e t. rewrite lookup_delete. case_decide; [done|apply Hf]. Qed.

Lemma value_rset k k' (a : A) at_ m :
  value k' (rset k a at_ m) = if decide (k = k') then Some a else value k' m.
Proof. unfold value, rset. rewrite lookup_insert. by case_decide. Qed.

Lemma value_delete k k' m :
  value k' (delete k m) = if decide (k = k') then None else value k' m.
Proof. unfold value. rewrite lookup_delete. by case_decide. Qed.
End Fresh.

Lemma held_insert (t t' j : string) (s : Z) (jobs : gmap member Z) :
  jobs !! (t, j) = None ->
  held t' (<[(t, j) := s]> jobs) = if decide (t = t') then S (held t' jobs) else held t' jobs.
Proof.
  intros Hn. unfold held. case_decide as Ht.
  - rewrite map_filter_insert_True by done. rewrite map_size_insert_None; [done|].
    apply map_lookup_filter_None. by left.
  - by rewrite map_filter_insert_not' by (simpl; intros; congruence).
Qed.

Lemma held_delete (t t' j : string) (jobs : gmap member Z) :
  is_Some (jobs !! (t, j)) ->
  held t' jobs = if decide (t = t') then S (held t' (delete (t, j) jobs)) else held t' (delete (t, j) jobs).
Proof.
  intros [s Hs]. rewrite <- (insert_delete_id jobs (t, j) s Hs) at 1.
  apply held_insert, lookup_delete_eq.
Qed.

(** The three views of a tenant's slots agree and stay within the limit. *)
Record slots_ok (T : Z) (r : Redis) : Prop := {
  so_depth_fresh : fresh T (rd_depth r);
  so_jobs_fresh : fresh T (rd_jobs r);
  so_breakdown_fresh : fresh T (rd_breakdown r);
  so_depth t q : default 0%Z (value (t, q) (rd_depth r)) = Z.of_nat (held t (default ∅ (value q (rd_jobs r))));
  so_breakdown t q : hash_get (default ∅ (value q (rd_breakdown r))) t
                     = Z.of_nat (held t (default ∅ (value q (rd_jobs r))));
  so_limit t q : (Z.of_nat (held t (default ∅ (value q (rd_jobs r)))) <= queue_limit q)%Z;
}.

Lemma slots_ok_empty T : slots_ok T empty_redis.
Proof.
  constructor; simpl; try by intros ??. all: intros t q; unfold value, held; simpl;
    rewrite ?lookup_empty; simpl; rewrite ?map_filter_empty, ?map_size_empty; [done..|].
  unfold queue_limit. simpl. repeat (case_bool_decide; [simpl; lia|]). simpl. lia.
Qed.

(** The script's reads, while nothing has expired. *)
Lemma reads_fresh T now t q r :
  slots_ok T r -> (now < T)%Z ->
  depth_of now t q r = default 0%Z (value (t, q) (rd_depth r)) /\
  jobs_of now q r = default ∅ (value q (rd_jobs r)) /\
  breakdown_of now q r = default ∅ (value q (rd_breakdown r)).
Proof.
  intros [Hd Hj Hb _ _ _] Hnow. unfold depth_of, jobs_of, breakdown_of.
  by rewrite (rget_fresh T now _ _ Hd Hnow), (rget_fresh T now _ _ Hj Hnow), (rget_fresh T now _ _ Hb Hnow).
Qed.

Lemma hash_get_insert h t t' v : hash_get (<[t := v]> h) t' = if decide (t = t') then v else hash_get h t'.
Proof. unfold hash_get. rewrite lookup_insert. by case_decide. Qed.

Lemma hash_get_delete h t t' : hash_get (delete t h) t' = if decide (t = t') then 0%Z else hash_get h t'.
Proof. unfold hash_get. rewrite lookup_delete. by case_decide. Qed.

Lemma same_slots T r r' :
  rd_depth r' = rd_depth r -> rd_jobs r' = rd_jobs r -> rd_breakdown r' = rd_breakdown r ->
  slots_ok T r -> slots_ok T r'.
Proof. intros E1 E2 E3 [? ? ? ? ? ?]. constructor; rewrite ?E1, ?E2, ?E3; done. Qed.

Lemma reserve_script_ok T now t j plan r :
  slots_ok T r -> (now < T <= now + QUEUE_RESERVATION_TTL_SECONDS)%Z ->
  slots_ok T (reserve_script now t (queue_of_plan plan) j (limit_of_plan plan) r).1.
Proof.
  intros Hok Hnow. set (q := queue_of_plan plan).
  destruct (reads_fresh T now t q r Hok ltac:(lia)) as (Ed & Ej & Eb).
  unfold reserve_script. fold q. rewrite Ed, Ej, Eb. destruct Hok as [Fd Fj Fb Hd Hb Hl].
  set (jobs := default ∅ (value q (rd_jobs r))) in *.
  destruct (decide (is_Some (jobs !! (t, j)))) as [Hin|Hin]; [by rewrite bool_decide_true|].
  rewrite bool_decide_false by done. apply eq_None_not_Some in Hin.
  rewrite Hd. fold jobs. rewrite limit_of_queue. fold q.
  destruct (Z.leb_spec (queue_limit q) (Z.of_nat (held t jobs))) as [Hfull|Hfull]; [by constructor|].
  constructor; simpl; try (apply fresh_rset; [done|intros ? [= <-]; lia]).
  all: intros t' q'; rewrite ?value_rset; destruct (decide (q = q')) as [<-|Hq]; simpl;
    rewrite ?decide_False by congruence; try done; rewrite ?held_insert by done.
  - destruct (decide (t = t')) as [<-|Ht].
    + rewrite decide_True by done. simpl. lia.
    + rewrite decide_False by congruence. apply Hd.
  - rewrite hash_get_insert. destruct (decide (t = t')) as [<-|Ht]; [rewrite Hb; fold jobs; lia|apply Hb].
  - specialize (Hl t' q). fold jobs in Hl. destruct (decide (t = t')) as [<-|Ht]; lia.
Qed.

(** Deleting an emptied container or storing it leaves the same value. *)
Lemma value_or_delete {K A K' : Type} `{Countable K, Countable K'} (k k' : K) (a : gmap K' A) at_
    (m : gmap K (Expiring (gmap K' A))) (b : bool) :
  (b = true -> a = ∅) ->
  default ∅ (value k' ((if b then delete k else rset k a at_) m))
    = if decide (k = k') then a else default ∅ (value k' m).
Proof.
  intros Hb. destruct b; rewrite ?value_delete, ?value_rset; case_decide; simpl; try done.
  by rewrite Hb.
Qed.

Lemma fresh_or_delete {K A} `{Countable K} T now (k : K) (a : A) (m : gmap K (Expiring A)) (b : bool) :
  fresh T m -> fresh T ((if b then delete k else rset k a (kept_ttl now k m)) m).
Proof.
  intros Hf. destruct b; [by apply fresh_delete|]. apply fresh_rset; [done|].
  intros t. by apply kept_ttl_fresh.
Qed.

Lemma release_script_ok T now t q j r :
  slots_ok T r -> (now < T)%Z -> slots_ok T (release_script now t q j r).1.
Proof.
  intros Hok Hnow. destruct (reads_fresh T now t q r Hok Hnow) as (Ed & Ej & Eb).
  unfold release_script. rewrite Ed, Ej, Eb. destruct Hok as [Fd Fj Fb Hd Hb Hl].
  set (jobs := default ∅ (value q (rd_jobs r))) in *.
  destruct (decide (jobs !! (t, j) = None)) as [Hin|Hin]; [by rewrite bool_decide_true|].
  rewrite bool_decide_false by done. apply not_eq_None_Some in Hin.
  pose proof (fun t' => held_delete t t' j jobs Hin) as Hheld.
  assert (default 0%Z (value (t, q) (rd_depth r)) = Z.of_nat (S (held t (delete (t, j) jobs)))) as Hdt.
  { rewrite Hd. fold jobs. by rewrite Hheld, decide_True. }
  rewrite Hdt, Hb. fold jobs.
  constructor; simpl; try by apply fresh_or_delete.
  all: intros t' q'.
  all: rewrite (value_or_delete q q' (delete (t, j) jobs)) by apply bool_decide_eq_true.
  - destruct (Z.leb_spec (Z.of_nat (S (held t (delete (t, j) jobs))) - 1) 0);
      rewrite ?value_delete, ?value_rset; destruct (decide (q = q')) as [<-|Hq];
      rewrite ?(decide_False (P := (t, q) = (t', q'))) by congruence; try apply Hd;
      (destruct (decide (t = t')) as [<-|Ht];
        [rewrite decide_True by done; simpl; lia
        |rewrite decide_False by congruence; rewrite Hd; fold jobs; by rewrite Hheld, decide_False]).
  - rewrite value_or_delete by apply bool_decide_eq_true.
    destruct (decide (q = q')) as [<-|Hq]; [|apply Hb].
    assert (hash_get (default ∅ (value q (rd_breakdown r))) t' = Z.of_nat (held t' jobs)) as Hb' by apply Hb.
    rewrite Hheld in Hb'. rewrite (Hheld t), decide_True by done.
    destruct (Z.leb_spec (Z.of_nat (S (held t (delete (t, j) jobs))) - 1) 0);
      rewrite ?hash_get_delete, ?hash_get_insert; destruct (decide (t = t')) as [<-|Ht]; lia.
  - destruct (decide (q = q')) as [<-|Hq]; [|apply Hl].
    specialize (Hl t' q). fold jobs in Hl. rewrite Hheld in Hl. case_decide; lia.
Qed.

(** ** The abstract admission controller

    What the keys implement: per queue a set of held slots.  A job is admitted
    while its tenant holds fewer slots than the plan allows; asking again for a
    held slot is granted; nothing else changes the set.  A request whose answer
    is lost is decided alike, and its caller takes it for refused. *)

Abbreviation Slots := (gmap string (gset member)).

Definition slots_in (queue_name : string) (H : Slots) : gset member := default ∅ (H !! queue_name).

Definition slots_held (tenant_id queue_name : string) (H : Slots) : nat :=
  size (filter (fun m : member => m.1 = tenant_id) (slots_in queue_name H)).

Inductive request :=
  | Ask (plan tenant_id job_id : string)
  | AskUnheard (plan tenant_id job_id : string)
  | Refuse
  | GiveBack (queue_name tenant_id job_id : string)
  | Observe.

Definition grant_slot (H : Slots) (plan t j : string) : Slots * bool :=
  let q := queue_of_plan plan in
  if bool_decide ((t, j) ∈ slots_in q H) then (H, true)
  else if (limit_of_plan plan <=? Z.of_nat (slots_held t q H))%Z then (H, false)
  else (<[q := {[(t, j)]} ∪ slots_in q H]> H, true).

Definition spec_step (H : Slots) (a : request) : Slots * option bool :=
  match a with
  | Ask plan t j => let (H', granted) := grant_slot H plan t j in (H', Some granted)
  | AskUnheard plan t j => ((grant_slot H plan t j).1, Some false)
  | Refuse => (H, Some false)
  | GiveBack q t j => (<[q := slots_in q H ∖ {[(t, j)]}]> H, None)
  | Observe => (H, None)
  end.

Fixpoint spec_run (H : Slots) (l : list request) : Slots * list (option bool) :=
  match l with
  | [] => (H, [])
  | a :: l => let (H', reply) := spec_step H a in
              let (H'', replies) := spec_run H' l in (H'', reply :: replies)
  end.

(** The keys represent the slots. *)
Record represents (T : Z) (H : Slots) (r : Redis) : Prop := {
  rp_ok : slots_ok T r;
  rp_slots q : slots_in q H = dom (default ∅ (value q (rd_jobs r)));
}.

Lemma slots_in_insert q q' X H :
  slots_in q' (<[q := X]> H) = if decide (q = q') then X else slots_in q' H.
Proof. unfold slots_in. rewrite lookup_insert. by case_decide. Qed.

Lemma slots_held_represented T H r t q :
  represents T H r -> slots_held t q H = held t (default ∅ (value q (rd_jobs r))).
Proof.
  intros [_ Hr]. unfold slots_held, held. rewrite Hr, <- size_dom. f_equal.
  apply set_eq. intros m. rewrite elem_of_filter, !elem_of_dom. split.
  - intros [Hm [s Hs]]. exists s. by apply map_lookup_filter_Some.
  - intros [s [Hs Hm]%map_lookup_filter_Some]. split; [done|by exists s].
Qed.

Lemma reserve_represented T H r now plan t j :
  represents T H r -> (now < T <= now + QUEUE_RESERVATION_TTL_SECONDS)%Z ->
  let res := reserve_script now t (queue_of_plan plan) j (limit_of_plan plan) r in
  represents T (grant_slot H plan t j).1 res.1 /\ (grant_slot H plan t j).2 = negb (res.2 =? 0)%Z.
Proof.
  intros Hr Hnow. pose proof (reserve_script_ok T now t j plan r (rp_ok _ _ _ Hr) Hnow) as Hok.
  pose proof (slots_held_represented T H r t (queue_of_plan plan) Hr) as Hheld.
  destruct (reads_fresh T now t (queue_of_plan plan) r (rp_ok _ _ _ Hr) ltac:(lia)) as (Ed & Ej & _).
  destruct Hr as [[_ _ _ Hd _ _] Hs]. cbv zeta. revert Hok. unfold grant_slot, reserve_script.
  set (q := queue_of_plan plan) in *. rewrite Ed, Ej, Hd, <- Hheld.
  rewrite (bool_decide_ext ((t, j) ∈ slots_in q H) (is_Some (default ∅ (value q (rd_jobs r)) !! (t, j))))
    by (by rewrite Hs, elem_of_dom).
  case_bool_decide; [by intros; split|]. case_match; intros Hok; (split; [|done]).
  - constructor; [done|apply Hs].
  - constructor; [done|]. intros q'. simpl. rewrite slots_in_insert, value_rset.
    case_decide; [|apply Hs]. simpl. by rewrite dom_insert_L, Hs.
Qed.

Lemma release_represented T H r now q t j :
  represents T H r -> (now < T)%Z ->
  represents T (spec_step H (GiveBack q t j)).1 (release_script now t q j r).1.
Proof.
  intros Hr Hnow. constructor; [by apply release_script_ok, Hnow; apply Hr|].
  destruct (reads_fresh T now t q r (rp_ok _ _ _ Hr) Hnow) as (_ & Ej & _).
  destruct Hr as [_ Hs]. intros q'. simpl. rewrite slots_in_insert. unfold release_script. rewrite Ej.
  case_bool_decide as Hin; simpl.
  - case_decide as Hq; [subst q'|apply Hs]. rewrite Hs.
    apply difference_disjoint_L, disjoint_singleton_r. by rewrite not_elem_of_dom.
  - rewrite (value_or_delete q q') by apply bool_decide_eq_true.
    case_decide; [|apply Hs]. by rewrite dom_delete_L, Hs.
Qed.

(** ** Runs *)

Section Runs.
Context `{PyLib}.

Inductive op :=
  | Reserve (up : Calls) (plans : Plans) (now : Z) (tenant_id job_id : string)
  | Release (up : Calls) (now : Z) (tenant_id queue_name job_id : string)
  | Poll (up : bool) (now : Z) (tenant_id queue_name : string).

Definition op_time (o : op) : Z :=
  match o with Reserve _ _ now _ _ | Release _ now _ _ _ | Poll _ now _ _ => now end.

Definition run_op (r : Redis) (o : op) : Redis :=
  match o with
  | Reserve up plans now t j => (reserve_extraction_slot up plans now t j r).1
  | Release up now t q j => release_extraction_slot up now t q j r
  | Poll up now t q => (get_processing_eta up now t q r).1.1
  end.

Lemma plan_tier_slots up plans now t r T :
  slots_ok T r -> slots_ok T (_get_plan_tier up plans now t r).1.
Proof.
  intros Hr. unfold _get_plan_tier.
  destruct (if up_plan_get up then _ else None) as [[|c s]|]; [|done|];
    (destruct (parse_uuid_str t); [|done]; destruct (up_plan_set up); [|done];
     by apply (same_slots T r)).
Qed.

Lemma run_op_ok T r o :
  slots_ok T r -> (op_time o < T <= op_time o + QUEUE_RESERVATION_TTL_SECONDS)%Z -> slots_ok T (run_op r o).
Proof.
  intros Hr Ht. destruct o as [up plans now t j|up now t q j|up now t q]; simpl in *.
  - unfold reserve_extraction_slot. pose proof (plan_tier_slots up plans now t r T Hr) as H1.
    destruct (_get_plan_tier up plans now t r) as [r1 plan]. simpl in H1.
    pose proof (reserve_script_ok T now t j plan r1 H1 Ht) as H2.
    destruct (reserve_script now t (queue_of_plan plan) j (limit_of_plan plan) r1).
    by destruct (up_eval up), (ran_eval up).
  - unfold release_extraction_slot. destruct (up_eval up || ran_eval up); [|done]. apply release_script_ok; [done|lia].
  - unfold get_processing_eta. case_match; [case_match; [by apply (same_slots T r)|done]|].
    case_match; [|done]. destruct up; [by apply (same_slots T r)|done].
Qed.

Lemma run_ops_ok T ops r :
  slots_ok T r ->
  Forall (fun o => (op_time o < T <= op_time o + QUEUE_RESERVATION_TTL_SECONDS)%Z) ops ->
  slots_ok T (fold_left run_op ops r).
Proof.
  intros Hr Hops. revert r Hr. induction Hops as [|o ops Ho _ IH]; intros r Hr; [done|].
  simpl. by apply IH, run_op_ok.
Qed.

Lemma jobs_of_rset now q jobs e m (r : Redis) :
  rd_jobs r = rset q jobs (Some e) m -> (now < e)%Z -> jobs_of now q r = jobs.
Proof.
  intros Hr He. unfold jobs_of, rget. rewrite Hr. unfold rset. rewrite lookup_insert_eq. simpl.
  unfold alive. simpl. by destruct (Z.ltb_spec now e); [|lia].
Qed.

(** Extraction slots are never oversubscribed: after any interleaving of
    reservations, releases and polls, by any tenants, under changing plans and
    with failing Redis calls, a tenant holds at most its queue's limit, and the
    counter, the breakdown and the sorted set agree on how many it holds, as
    long as no key has reached its lifetime. *)
Theorem slots_never_oversubscribed (ops : list op) (start now : Z)
    (Hops : Forall (fun o => start <= op_time o < start + QUEUE_RESERVATION_TTL_SECONDS)%Z ops)
    (Hnow : (start <= now < start + QUEUE_RESERVATION_TTL_SECONDS)%Z) :
  let r := fold_left run_op ops empty_redis in
  forall t q,
    (Z.of_nat (held t (jobs_of now q r)) <= queue_limit q)%Z /\
    depth_of now t q r = Z.of_nat (held t (jobs_of now q r)) /\
    hash_get (breakdown_of now q r) t = Z.of_nat (held t (jobs_of now q r)).
Proof.
  intros r t q. set (T := (start + QUEUE_RESERVATION_TTL_SECONDS)%Z).
  assert (slots_ok T r) as Hok.
  { apply run_ops_ok; [apply slots_ok_empty|]. eapply Forall_impl; [done|]. simpl. subst T. lia. }
  destruct (reads_fresh T now t q r Hok ltac:(lia)) as (-> & -> & ->).
  destruct Hok as [_ _ _ Hd Hb Hl]. auto.
Qed.

(** What an operation asks of the controller; the plan is the one the router
    resolves, from its cache or the database. *)
Definition request_of (r : Redis) (o : op) : request :=
  match o with
  | Reserve up plans now t j =>
      let plan := (_get_plan_tier up plans now t r).2 in
      if up_eval up then Ask plan t j else if ran_eval up then AskUnheard plan t j else Refuse
  | Release up now t q j => if up_eval up || ran_eval up then GiveBack q t j else Observe
  | Poll _ _ _ _ => Observe
  end.

(** What the caller of an operation learns. *)
Definition reply_of (r : Redis) (o : op) : option bool :=
  match o with
  | Reserve up plans now t j =>
      Some (bool_decide (is_Some (reserve_extraction_slot up plans now t j r).2))
  | _ => None
  end.

Fixpoint trace (r : Redis) (ops : list op) : list request * list (option bool) :=
  match ops with
  | [] => ([], [])
  | o :: ops => let (requests, replies) := trace (run_op r o) ops in
                (request_of r o :: requests, reply_of r o :: replies)
  end.

Lemma represents_same T G r r' :
  rd_depth r' = rd_depth r -> rd_jobs r' = rd_jobs r -> rd_breakdown r' = rd_breakdown r ->
  represents T G r -> represents T G r'.
Proof.
  intros E1 E2 E3 [Hok Hs]. constructor; [by apply (same_slots T r)|]. intros q. by rewrite E2.
Qed.

Lemma plan_tier_represents up plans now t G r T :
  represents T G r -> represents T G (_get_plan_tier up plans now t r).1.
Proof.
  intros Hr. unfold _get_plan_tier.
  destruct (if up_plan_get up then _ else None) as [[|c s]|]; [|done|];
    (destruct (parse_uuid_str t); [|done]; destruct (up_plan_set up); [|done];
     by apply (represents_same T G r)).
Qed.

Lemma run_op_refines T G r o :
  represents T G r -> (op_time o < T <= op_time o + QUEUE_RESERVATION_TTL_SECONDS)%Z ->
  represents T (spec_step G (request_of r o)).1 (run_op r o) /\
  (spec_step G (request_of r o)).2 = reply_of r o.
Proof.
  intros Hr Ht. destruct o as [up plans now t j|up now t q j|up now t q]; cbn [op_time request_of reply_of run_op] in *.
  - unfold reserve_extraction_slot. pose proof (plan_tier_represents up plans now t G r T Hr) as H1.
    destruct (_get_plan_tier up plans now t r) as [r1 plan]. cbn [fst snd] in *.
    destruct (reserve_represented T G r1 now plan t j H1 Ht) as [H2 H3].
    destruct (reserve_script now t (queue_of_plan plan) j (limit_of_plan plan) r1) as [r2 n].
    destruct (up_eval up); [|by destruct (ran_eval up)]. cbn [spec_step].
    destruct (grant_slot G plan t j) as [G' granted]. cbn [fst snd] in *.
    split; [done|]. rewrite H3. by destruct (n =? 0)%Z.
  - unfold release_extraction_slot. destruct (up_eval up || ran_eval up); [|by split]. split; [|done].
    apply release_represented; [done|lia].
  - split; [|done]. unfold get_processing_eta.
    case_match; [case_match; [by apply (represents_same T G r)|done]|].
    case_match; [|done]. destruct up; [by apply (represents_same T G r)|done].
Qed.

Lemma run_ops_refine T ops G r :
  represents T G r ->
  Forall (fun o => (op_time o < T <= op_time o + QUEUE_RESERVATION_TTL_SECONDS)%Z) ops ->
  represents T (spec_run G (trace r ops).1).1 (fold_left run_op ops r) /\
  (spec_run G (trace r ops).1).2 = (trace r ops).2.
Proof.
  intros Hr Hops. revert G r Hr. induction Hops as [|o ops Ho _ IH]; intros G r Hr; [done|].
  destruct (run_op_refines T G r o Hr Ho) as [H1 E1]. specialize (IH _ _ H1). simpl.
  destruct (trace (run_op r o) ops) as [requests replies]. simpl in *.
  destruct (spec_step G (request_of r o)) as [G' reply]. simpl in *.
  destruct (spec_run G' requests) as [G'' replies']. simpl in *. destruct IH as [IH ->]. by subst.
Qed.

Lemma represents_empty T : represents T ∅ empty_redis.
Proof.
  constructor; [apply slots_ok_empty|]. intros q. unfold slots_in, value. simpl.
  by rewrite !lookup_empty.
Qed.

(** C29: The Redis keys and Lua scripts implement an atomic admission controller
    over sets of slots: within one reservation lifetime, every sequence of
    reservations, releases and polls with changing plans and failing Redis calls
    (of which Redis may have run the script all the same) answers each request
    as the controller does on the same requests, and ends in keys that represent
    the controller's slots. *)
Theorem redis_refines_admission_control (ops : list op) (start : Z)
    (Hops : Forall (fun o => start <= op_time o < start + QUEUE_RESERVATION_TTL_SECONDS)%Z ops) :
  let (requests, replies) := trace empty_redis ops in
  let (G, expected) := spec_run ∅ requests in
  replies = expected /\
  represents (start + QUEUE_RESERVATION_TTL_SECONDS) G (fold_left run_op ops empty_redis).
Proof.
  destruct (run_ops_refine (start + QUEUE_RESERVATION_TTL_SECONDS) ops ∅ empty_redis) as [H1 H2].
  - apply represents_empty.
  - eapply Forall_impl; [done|]. simpl. lia.
  - destruct (trace empty_redis ops) as [requests replies]. simpl in *.
    by destruct (spec_run ∅ requests).
Qed.

(** A job is refused exactly when its tenant is full: while nothing has
    expired and Redis runs the script, a reservation is refused if and only if
    the tenant already holds its queue's limit without this job; a granted job
    is held afterwards, and reserving it again changes no slot. *)
Theorem reservation_refused_iff_full (r : Redis) (T : Z) (up : Calls) (plans : Plans) (now : Z)
    (tenant job : string) (Hok : slots_ok T r)
    (Hnow : (now < T <= now + QUEUE_RESERVATION_TTL_SECONDS)%Z) (Hup : up_eval up = true) :
  let q := (get_extraction_queue up plans now tenant r).2 in
  let (r', reservation) := reserve_extraction_slot up plans now tenant job r in
  match reservation with
  | None => jobs_of now q r !! (tenant, job) = None /\
            Z.of_nat (held tenant (jobs_of now q r)) = queue_limit q /\ jobs_of now q r' = jobs_of now q r
  | Some res => qr_queue_name res = q /\ is_Some (jobs_of now q r' !! (tenant, job)) /\
      ((is_Some (jobs_of now q r !! (tenant, job)) /\ jobs_of now q r' = jobs_of now q r) \/
       ((Z.of_nat (held tenant (jobs_of now q r)) < queue_limit q)%Z /\
        held tenant (jobs_of now q r') = S (held tenant (jobs_of now q r))))
  end.
Proof.
  unfold get_extraction_queue, reserve_extraction_slot.
  pose proof (plan_tier_slots up plans now tenant r T Hok) as Hok1.
  assert (rd_jobs (_get_plan_tier up plans now tenant r).1 = rd_jobs r) as Ej.
  { unfold _get_plan_tier. destruct (if up_plan_get up then _ else None) as [[|c s]|]; [|done|];
      (destruct (parse_uuid_str tenant); [|done]; by destruct (up_plan_set up)). }
  destruct (_get_plan_tier up plans now tenant r) as [r1 plan]. simpl in *. rewrite Hup.
  set (q := queue_of_plan plan).
  assert (jobs_of now q r = jobs_of now q r1) as -> by (unfold jobs_of; by rewrite Ej).
  destruct (reads_fresh T now tenant q r1 Hok1 ltac:(lia)) as (Ed & Ejobs & _).
  pose proof (so_depth T r1 Hok1 tenant q) as Hd. pose proof (so_limit T r1 Hok1 tenant q) as Hl.
  unfold reserve_script. fold q. rewrite limit_of_queue. fold q. rewrite Ed, Hd, <- Ejobs in *.
  destruct (decide (is_Some (jobs_of now q r1 !! (tenant, job)))) as [Hin|Hin].
  - rewrite bool_decide_true by done. simpl. split_and!; [done..|]. by left.
  - rewrite bool_decide_false by done. apply eq_None_not_Some in Hin.
    destruct (Z.leb_spec (queue_limit q) (Z.of_nat (held tenant (jobs_of now q r1)))); simpl.
    + split_and!; [done|lia|done].
    + erewrite jobs_of_rset by (reflexivity || (simpl; lia)).
      split_and!; [done|rewrite lookup_insert_eq; by eexists|]. right. split; [done|].
      by rewrite held_insert, decide_True.
Qed.
End Runs.

(** ** Witnesses and an expired counter *)

Section QueueExamples.
#[local] Existing Instance example_pylib.

Definition all_up : Calls := {| up_plan_get := true; up_plan_set := true; up_eval := true; ran_eval := true |}.
Definition no_plans : Plans := {| budget_plan := ∅; tenant_plan := ∅ |}.

(** [n] reservations of one tenant from job number [first] on. *)
Definition reservations (now : Z) (tenant_id : string) (first n : nat) : list op :=
  (fun i => Reserve all_up no_plans now tenant_id (py_str_Z (Z.of_nat i))) <$> seq first n.

(** Slots are oversubscribed once a counter outlives its jobs: each
    reservation renews the queue's shared job set but only its own tenant's
    counter, so a tenant holding its 50 slots for four hours, in which another
    tenant reserved in the same queue, is granted 50 more. *)
Theorem expired_counter_oversubscribes :
  let r := fold_left run_op (reservations 0 "a" 0 50 ++ reservations 14000 "b" 0 1
                             ++ reservations 14400 "a" 50 50) empty_redis in
  queue_limit STARTER_QUEUE = 50%Z /\ depth_of 14400 "a" STARTER_QUEUE r = 50%Z /\
  held "a" (jobs_of 14400 STARTER_QUEUE r) = 100%nat.
Proof. vm_compute. split_and!; reflexivity. Qed.

(** A reservation whose answer is lost keeps its slot: the caller is told that
    the queue is full and never gives the slot back. *)
Example unheard_reservation_keeps_its_slot :
  let lost := {| up_plan_get := true; up_plan_set := true; up_eval := false; ran_eval := true |} in
  let (r, reservation) := reserve_extraction_slot lost no_plans 5 "a" "j" empty_redis in
  reservation = None /\ held "a" (jobs_of 5 STARTER_QUEUE r) = 1%nat.
Proof. vm_compute. split; reflexivity. Qed.

Lemma redis_refines_admission_control_witness :
  let ops := reservations 5 "a" 0 51 ++ [Release all_up 9 "a" STARTER_QUEUE "3"] ++ reservations 10 "a" 50 1 in
  (trace empty_redis ops).2 !! 50%nat = Some (Some false) /\
  (trace empty_redis ops).2 !! 52%nat = Some (Some true) /\
  represents 14400 (spec_run ∅ (trace empty_redis ops).1).1 (fold_left run_op ops empty_redis).
Proof.
  intros ops. split_and!; [vm_compute; reflexivity..|].
  assert (Forall (fun o => 0 <= op_time o < 0 + QUEUE_RESERVATION_TTL_SECONDS)%Z ops) as Hops.
  { apply Forall_forall. intros o Ho. unfold QUEUE_RESERVATION_TTL_SECONDS. unfold ops, reservations in Ho.
    rewrite !elem_of_app, list_elem_of_singleton, !list_elem_of_fmap in Ho.
    destruct Ho as [(i & -> & _)|[->|(i & -> & _)]]; simpl; lia. }
  pose proof (redis_refines_admission_control ops 0 Hops) as H.
  destruct (trace empty_redis ops) as [requests replies]. cbn [fst].
  destruct (spec_run ∅ requests) as [H' expected]. exact (proj2 H).
Defined.

Lemma slots_never_oversubscribed_witness :
  let r := fold_left run_op (reservations 5 "a" 0 60 ++ [Release all_up 9 "a" STARTER_QUEUE "3"]) empty_redis in
  (Z.of_nat (held "a" (jobs_of 10 STARTER_QUEUE r)) <= 50)%Z /\ depth_of 10 "a" STARTER_QUEUE r = 49%Z.
Proof.
  intros r.
  split; [|vm_compute; reflexivity].
  refine (proj1 (slots_never_oversubscribed
    (reservations 5 "a" 0 60 ++ [Release all_up 9 "a" STARTER_QUEUE "3"]) 0 10 _ _ "a" STARTER_QUEUE)).
  - apply Forall_app. split; [|apply Forall_singleton; unfold QUEUE_RESERVATION_TTL_SECONDS; simpl; lia].
    apply Forall_forall. intros o Ho. apply list_elem_of_fmap in Ho as (i & -> & _). unfold QUEUE_RESERVATION_TTL_SECONDS. simpl. lia.
  - unfold QUEUE_RESERVATION_TTL_SECONDS. lia.
Defined.

Lemma reservation_refused_iff_full_witness :
  let r := fold_left run_op (reservations 5 "a" 0 50) empty_redis in
  (reserve_extraction_slot all_up no_plans 6 "a" "new" r).2 = None /\
  Z.of_nat (held "a" (jobs_of 6 STARTER_QUEUE r)) = 50%Z.
Proof.
  intros r. assert (slots_ok 14000 r) as Hr.
  { subst r. apply run_ops_ok; [apply slots_ok_empty|]. apply Forall_forall.
    intros o Ho. apply list_elem_of_fmap in Ho as (i & -> & _). unfold QUEUE_RESERVATION_TTL_SECONDS. simpl. lia. }
  pose proof (reservation_refused_iff_full r 14000 all_up no_plans 6 "a" "new" Hr
                ltac:(unfold QUEUE_RESERVATION_TTL_SECONDS; lia) eq_refl) as H.
  assert ((reserve_extraction_slot all_up no_plans 6 "a" "new" r).2 = None) as Hn by (vm_compute; reflexivity).
  destruct (reserve_extraction_slot all_up no_plans 6 "a" "new" r) as [r' res].
  cbn [snd] in Hn |- *. subst res. split; [reflexivity|]. exact (proj1 (proj2 H)).
Defined.
End QueueExamples.
