(* ===== verification/ConflictDetection.v ===== *)
(** * Conflict detection

    [api/services/conflict_detection.py]: which stored memories a new memory may
    contradict, how sure the detector is of each, what kind of conflict it is,
    and which statements of other users about the shared context disagree.  The
    source's patterns are values of [PyRegex.regex]; a Python set is a [gset]
    and a set constant the list of its members. *)

From S2P Require Export PyRegex ClaimIdentity.

(** ** Vocabulary *)

Definition SEMANTIC_CONFLICT_THRESHOLD : Q := 82 # 100.

Definition MONTH_NAMES : list string := [
  "january"; "february"; "march"; "april"; "may"; "june"; "july"; "august"; "september"; "october";
  "november"; "december"].

Definition LANGUAGE_NAMES : list string := [
  "arabic"; "assamese"; "bengali"; "english"; "french"; "german"; "gujarati"; "hindi"; "italian";
  "japanese"; "kannada"; "korean"; "malayalam"; "marathi"; "odia"; "punjabi"; "sanskrit"; "spanish";
  "tamil"; "telugu"; "urdu"].

Definition LOCATION_NAMES : list string := [
  "bangalore"; "bengaluru"; "chennai"; "delhi"; "gurgaon"; "gurugram"; "hyderabad"; "kolkata";
  "mumbai"; "noida"; "pune"; "san francisco"; "new york"; "london"; "singapore"].

Definition PROCESS_TERMS : list string := [
  "agile"; "backfill"; "backlog"; "ci/cd"; "code review"; "daily standup"; "deployment";
  "incident response"; "kanban"; "onboarding"; "postmortem"; "qa"; "release"; "retro"; "runbook";
  "scrum"; "sprint"; "standup"; "testing"].

Definition PRODUCT_TERMS : list string := [
  "api"; "app"; "checkout"; "dashboard"; "feature"; "mobile app"; "onboarding"; "payment"; "product";
  "sdk"; "search"; "web app"].

Definition SHARED_CONTEXT_MARKERS : list string := [
  "all of us"; "company"; "everyone"; "our "; "our team"; "team"; "the company"; "the organisation";
  "the organization"; "the project"; "we "].

Definition GENERIC_GOAL_TOKENS : list string := [
  "build"; "building"; "current"; "currently"; "get"; "goal"; "looking"; "need"; "needs";
  "opportunities"; "opportunity"; "plan"; "project"; "serious"; "want"; "wants"].

Definition TECH_NAMES : list string := [
  "airflow"; "alembic"; "android"; "angular"; "ansible"; "apache"; "aws"; "azure"; "bash"; "bigquery";
  "bootstrap"; "c"; "c++"; "c#"; "cassandra"; "celery"; "chakra"; "clickhouse"; "cloudflare"; "css";
  "dart"; "django"; "docker"; "docker compose"; "dynamodb"; "elasticsearch"; "express"; "fastapi";
  "figma"; "firebase"; "flask"; "flutter"; "gcp"; "git"; "github"; "gitlab"; "go"; "graphql"; "grpc";
  "hadoop"; "html"; "ios"; "java"; "javascript"; "jenkins"; "jest"; "kafka"; "kotlin"; "kubernetes";
  "laravel"; "linux"; "llamaindex"; "langchain"; "mariadb"; "mongodb"; "mysql"; "nestjs"; "next.js";
  "nextjs"; "nginx"; "node"; "node.js"; "nuxt"; "openai"; "oracle"; "pandas"; "pinecone"; "postgres";
  "postgresql"; "prisma"; "pytest"; "python"; "pytorch"; "qdrant"; "rabbitmq"; "react"; "redis";
  "redux"; "ruby"; "rust"; "s3"; "scala"; "scikit-learn"; "selenium"; "snowflake"; "spark"; "spring";
  "sql"; "sqlalchemy"; "sqlite"; "svelte"; "swift"; "tailwind"; "tensorflow"; "terraform"; "trpc";
  "typescript"; "vercel"; "vue"; "webpack"].

Definition STOPWORDS : list string := [
  "a"; "about"; "an"; "and"; "are"; "as"; "at"; "be"; "by"; "for"; "from"; "has"; "have"; "he"; "her";
  "his"; "i"; "in"; "is"; "it"; "my"; "of"; "on"; "or"; "she"; "that"; "the"; "their"; "they"; "this";
  "to"; "user"; "was"; "with"].

(** [DATE_REGEXES], [NUMBER_REGEX], [NAME_REGEX], [TOKEN_REGEX] *)
Definition digit : regex := Ch is_digit.
Definition ISO_DATE_REGEX : regex :=
  seqs [Bound; Alt (lit "19") (lit "20"); times 2 digit; chr "-"; times 2 digit; chr "-"; times 2 digit; Bound].
Definition SLASH_DATE_REGEX : regex :=
  let day := Seq digit (opt digit) in
  seqs [Bound; day; chr "/"; day; chr "/"; Alt (times 2 digit) (times 4 digit); Bound].
Definition DATE_REGEXES : list regex := [ISO_DATE_REGEX; SLASH_DATE_REGEX].
Definition word_or_dot (c : ascii) : bool := is_word c || bool_decide (c = "."%char).
Definition NUMBER_REGEX : regex :=
  seqs [NotBehind word_or_dot; many1 digit; opt (Seq (chr ".") (many1 digit)); opt (chr "%"); NotAhead word_or_dot].
Definition NAME_REGEX : regex :=
  seqs [Bound; Ch is_upper; times 2 (Ch is_lower); Many (Ch is_lower); Bound].
Definition is_letter (c : ascii) : bool := is_lower c || is_upper c.
Definition TOKEN_REGEX : regex :=
  Seq (Ch is_letter)
      (Many (Ch (fun c => is_letter c || is_digit c || bool_decide (c ∈ ["+"%char; "#"%char; "."%char; "-"%char])))).

(** ** Entities and topics *)

(** The terms of a vocabulary that occur in a lowered text as [\bterm\b]. *)
Definition terms_in (terms : list string) (lower : string) : gset string :=
  list_to_set (filter (fun term => search (whole_word term) lower = true) terms).

Definition extract_entities (content : string) : gset string :=
  let lower := py_lower content in
  terms_in MONTH_NAMES lower
  ∪ list_to_set (py_lower <$> flat_map (fun r => findall r content) DATE_REGEXES)
  ∪ list_to_set (py_lower <$> filter (fun number =>
      (py_contains "%" number || (String.length number <=? 4)%nat) = true) (findall NUMBER_REGEX content))
  ∪ terms_in TECH_NAMES lower ∪ terms_in LANGUAGE_NAMES lower ∪ terms_in LOCATION_NAMES lower
  ∪ list_to_set (filter (fun name => name ∉ STOPWORDS /\ name ∉ ["user"; "memory"])
      (py_lower <$> findall NAME_REGEX content)).

Definition topic_tokens (content : string) : gset string :=
  list_to_set (filter (fun token => (2 < String.length token)%nat /\ token ∉ STOPWORDS)
    (py_lower <$> findall TOKEN_REGEX content)).

Definition token_overlap_ratio (left right : gset string) : Q :=
  if bool_decide (left = ∅) || bool_decide (right = ∅) then 0
  else Z.of_nat (size (left ∩ right)) # Pos.of_nat (Nat.max 1 (Nat.min (size left) (size right))).

Definition is_date_entity (entity : string) : bool :=
  bool_decide (py_lower entity ∈ MONTH_NAMES) || existsb (fun r => fullmatch r entity) DATE_REGEXES.
Definition is_numeric_entity (entity : string) : bool := fullmatch NUMBER_REGEX entity.
Definition has_date_entity (entities : gset string) : bool := existsb is_date_entity (elements entities).
Definition has_numeric_entity (entities : gset string) : bool := existsb is_numeric_entity (elements entities).

(** [sorted] of a set of strings *)
Definition sorted_set (X : gset string) : list string := sort_by py_string_le (elements X).

Definition entity_conflict_triggers (new_entities existing_entities : gset string) (topic_overlap : Q)
    : list string :=
  let common := new_entities ∩ existing_entities in
  if bool_decide (common <> ∅) then sorted_set common
  else
    let new_dates := filter (fun e => is_date_entity e = true) new_entities in
    let existing_dates := filter (fun e => is_date_entity e = true) existing_entities in
    if bool_decide (new_dates <> ∅) && bool_decide (existing_dates <> ∅) && ((30 # 100) <=?q topic_overlap)
    then sorted_set (new_dates ∪ existing_dates)
    else
      let new_numbers := filter (fun e => is_numeric_entity e = true) new_entities in
      let existing_numbers := filter (fun e => is_numeric_entity e = true) existing_entities in
      if bool_decide (new_numbers <> ∅) && bool_decide (existing_numbers <> ∅)
         && ((30 # 100) <=?q topic_overlap)
      then sorted_set (new_numbers ∪ existing_numbers)
      else [].

(** ** Candidates *)

(** A stored memory with the [_conflict_similarity_score] the resolver put on
    it, 0 where there is none. *)
Record Existing := { ex_memory : Memory; ex_score : Q }.

(** The last is that of [check_and_store] for verified sources. *)
Inductive strategy := semantic | entity | topic_overlap | verified_source_relation.
#[export] Instance strategy_eq_dec : EqDecision strategy.
Proof. solve_decision. Defined.

Record ConflictCandidate := {
  cc_new_memory : ExtractedMemory;
  cc_existing_memory : Memory;
  cc_detection_strategy : strategy;
  cc_confidence : Q;
  cc_detected_entities : list string;
}.

Definition same_category (left : string) (right : MemoryCategory.t) : bool :=
  bool_decide (py_lower left = py_lower (MemoryCategory.value right)).

(** [strategy_priority] *)
Definition strategy_priority (s : strategy) : Z :=
  match s with semantic => 3 | topic_overlap => 2 | entity => 1 | verified_source_relation => 0 end.

(** Evidence of an entity that is a date or a number. *)
Definition precise (c : ConflictCandidate) : bool :=
  bool_decide (cc_detection_strategy c = entity)
  && existsb (fun e => is_date_entity e || is_numeric_entity e) (cc_detected_entities c).

Definition choose_stronger_candidate (current : option ConflictCandidate) (new_candidate : ConflictCandidate)
    : ConflictCandidate :=
  match current with
  | None => new_candidate
  | Some current =>
      if precise current then current
      else if precise new_candidate then new_candidate
      else
        let current_priority := strategy_priority (cc_detection_strategy current) in
        let new_priority := strategy_priority (cc_detection_strategy new_candidate) in
        if (current_priority <? new_priority)%Z then new_candidate
        else if (new_priority <? current_priority)%Z then current
        else if cc_confidence current <?q cc_confidence new_candidate then new_candidate
        else current
  end.

(** What the detector reads of a pair of memories. *)
Definition overlap_of (new_memory : ExtractedMemory) (existing : Existing) : Q :=
  token_overlap_ratio (topic_tokens (x_content new_memory)) (topic_tokens (m_content (ex_memory existing))).
Definition common_entities (new_memory : ExtractedMemory) (existing : Existing) : list string :=
  sorted_set (extract_entities (x_content new_memory) ∩ extract_entities (m_content (ex_memory existing))).
Definition triggers_of (new_memory : ExtractedMemory) (existing : Existing) : list string :=
  entity_conflict_triggers (extract_entities (x_content new_memory))
    (extract_entities (m_content (ex_memory existing))) (overlap_of new_memory existing).

Definition candidate (new_memory : ExtractedMemory) (existing : Existing) (s : strategy) (confidence : Q)
    (entities : list string) : ConflictCandidate :=
  {| cc_new_memory := new_memory; cc_existing_memory := ex_memory existing; cc_detection_strategy := s;
     cc_confidence := confidence; cc_detected_entities := entities |}.

Definition semantic_candidate (new_memory : ExtractedMemory) (existing : Existing) : ConflictCandidate :=
  candidate new_memory existing semantic (Qmin 1 (ex_score existing)) (common_entities new_memory existing).
Definition entity_candidate (new_memory : ExtractedMemory) (existing : Existing) : ConflictCandidate :=
  candidate new_memory existing entity
    (Qmax (74 # 100) (Qmin (95 # 100) ((65 # 100) + overlap_of new_memory existing)))
    (triggers_of new_memory existing).
Definition topic_candidate (new_memory : ExtractedMemory) (existing : Existing) : ConflictCandidate :=
  candidate new_memory existing topic_overlap (Qmin (94 # 100) ((60 # 100) + overlap_of new_memory existing))
    (common_entities new_memory existing).

(** Whether two memories of one category share most of their topic. *)
Definition same_topic (new_memory : ExtractedMemory) (existing : Existing) : bool :=
  same_category (x_category new_memory) (m_category (ex_memory existing))
  && ((60 # 100) <?q overlap_of new_memory existing).

Abbreviation Candidates := (list (uuid * ConflictCandidate)).

(** The body of the loop of [detect_candidates]. *)
Definition detect_one (new_memory : ExtractedMemory) (candidates : Candidates) (existing : Existing)
    : Candidates :=
  let memory_key := m_id (ex_memory existing) in
  let candidates :=
    if SEMANTIC_CONFLICT_THRESHOLD <?q ex_score existing
    then dict_set memory_key (semantic_candidate new_memory existing) candidates else candidates in
  let candidates :=
    match triggers_of new_memory existing with
    | [] => candidates
    | _ => dict_set memory_key (choose_stronger_candidate (dict_get memory_key candidates)
                                  (entity_candidate new_memory existing)) candidates
    end in
  if same_topic new_memory existing
  then dict_set memory_key (choose_stronger_candidate (dict_get memory_key candidates)
                              (topic_candidate new_memory existing)) candidates
  else candidates.

Definition by_confidence (a b : ConflictCandidate) : bool := cc_confidence b <=?q cc_confidence a.

Definition detect_candidates (new_memory : ExtractedMemory) (existing_memories : list Existing)
    : list ConflictCandidate :=
  sort_by by_confidence (snd <$> fold_left (detect_one new_memory) existing_memories []).

(** ** The kind of a conflict *)

Inductive ConflictType :=
  | PREFERENCE_CHANGE | FACT_UPDATE | SKILL_PROGRESSION | NEGATION | NUMERIC_UPDATE | TEMPORAL_SHIFT | UNKNOWN.

Definition mentions (phrases : list string) (lower : string) : bool :=
  existsb (fun phrase => py_contains phrase lower) phrases.

Definition classify_conflict_type (new_content existing_content category : string)
    (detected_entities : list string) : ConflictType :=
  let new_lower := py_lower new_content in
  let detected := py_lower <$> detected_entities in
  let new_entities := extract_entities new_content in
  let existing_entities := extract_entities existing_content in
  if bool_decide (py_lower category = "preference") then PREFERENCE_CHANGE
  else if mentions ["no longer"; "stopped"; "quit"; "moved away from"] new_lower then NEGATION
  else if mentions ["learned"; "mastered"; "now know"; "now knows"] new_lower then SKILL_PROGRESSION
  else if has_numeric_entity new_entities && has_numeric_entity existing_entities then NUMERIC_UPDATE
  else if existsb (fun e => bool_decide (e ∈ MONTH_NAMES)) detected
          || (has_date_entity new_entities && has_date_entity existing_entities) then FACT_UPDATE
  else if mentions ["last week"; "yesterday"; "now"; "recently"] new_lower then TEMPORAL_SHIFT
  else UNKNOWN.

(** ** Shared context *)

Record SharedContextEntity := {
  se_entity_type : SharedContextEntityType.t; se_entity_value : string; se_confidence : Q }.

(** The columns of [SharedContextSignal]. *)
Record SharedContextSignal := {
  sg_id : uuid; sg_tenant_id : uuid; sg_entity_type : SharedContextEntityType.t; sg_entity_value : string;
  sg_source_proxy_user_id : option uuid; sg_source_memory_id : option uuid; sg_confidence : Q;
  sg_is_superseded : bool }.

Record SharedContextConflict := {
  sc_new_memory : ExtractedMemory; sc_conflicting_signal : SharedContextSignal; sc_conflict_entity : string;
  sc_entity_value_a : string; sc_entity_value_b : string; sc_description : string }.

Abbreviation Entities := (list ((SharedContextEntityType.t * string) * SharedContextEntity)).

(** [add] of [extract_shared_context_entities] *)
Definition add_entity (entity_type : SharedContextEntityType.t) (confidence : Q) (entities : Entities)
    (entity_value : string) : Entities :=
  let normalized := py_strip (py_lower entity_value) in
  match normalized with
  | EmptyString => entities
  | _ => dict_set (entity_type, normalized)
           {| se_entity_type := entity_type; se_entity_value := normalized; se_confidence := confidence |}
           entities
  end.

Definition has_shared_context_marker (lower_content : string) : bool := mentions SHARED_CONTEXT_MARKERS lower_content.

Definition shared_goal_entity_value (content : string) : option string :=
  let tokens := filter (fun token => token ∉ TECH_NAMES /\ token ∉ GENERIC_GOAL_TOKENS)
                  (elements (topic_tokens content)) in
  match tokens with
  | [] => None
  | _ => Some (py_join " " (take 5 (sort_by py_string_le tokens)))
  end.

Definition company_markers : list string := ["company"; "team"; "product"; "codebase"; "stack"].

(** The terms of a set are added in its iteration order. *)
Definition extract_shared_context_entities (content category : string) : list SharedContextEntity :=
  let lower := py_lower content in
  let named entity_type confidence terms entities :=
    fold_left (add_entity entity_type confidence) (elements (terms_in terms lower)) entities in
  let entities := named SharedContextEntityType.tech_stack (85 # 100) TECH_NAMES [] in
  let entities := named SharedContextEntityType.team_process (75 # 100) PROCESS_TERMS entities in
  let entities := named SharedContextEntityType.product_feature (65 # 100) PRODUCT_TERMS entities in
  let entities :=
    if bool_decide (py_lower category = "goal") && has_shared_context_marker lower then
      match shared_goal_entity_value content with
      | Some shared_goal => add_entity SharedContextEntityType.shared_goal (65 # 100) entities shared_goal
      | None => entities
      end
    else entities in
  let entities :=
    if mentions company_markers lower then
      fold_left (add_entity SharedContextEntityType.company_fact (60 # 100))
        (filter (fun e => e ∉ TECH_NAMES) (elements (extract_entities content))) entities
    else entities in
  snd <$> entities.

(** [source_proxy_user_id != proxy_user_id] in SQL: a null source is not [!=] anyone. *)
Definition from_another (proxy_user_id : uuid) (s : SharedContextSignal) : bool :=
  match sg_source_proxy_user_id s with Some source => bool_decide (source <> proxy_user_id) | None => false end.

(** The rows of the query. *)
Definition other_signals (tenant_id proxy_user_id : uuid) (entity_types : list SharedContextEntityType.t)
    (signals : list SharedContextSignal) : list SharedContextSignal :=
  filter (fun s => sg_tenant_id s = tenant_id /\ sg_entity_type s ∈ entity_types
                   /\ sg_is_superseded s = false /\ from_another proxy_user_id s = true) signals.

Definition shared_conflict (new_memory : ExtractedMemory) (entity : SharedContextEntity)
    (signal : SharedContextSignal) : SharedContextConflict :=
  {| sc_new_memory := new_memory; sc_conflicting_signal := signal;
     sc_conflict_entity := SharedContextEntityType.value (se_entity_type entity);
     sc_entity_value_a := sg_entity_value signal; sc_entity_value_b := se_entity_value entity;
     sc_description := "Another user says " +:+ sg_entity_value signal +:+ "; this user says "
                       +:+ se_entity_value entity |}.

Definition detect_shared_context_conflict (signals : list SharedContextSignal) (new_memory : ExtractedMemory)
    (proxy_user_id tenant_id : uuid) : list SharedContextConflict :=
  let entities := extract_shared_context_entities (x_content new_memory) (x_category new_memory) in
  match entities with
  | [] => []
  | _ =>
      let rows := other_signals tenant_id proxy_user_id (se_entity_type <$> entities) signals in
      flat_map (fun entity =>
        shared_conflict new_memory entity <$> filter (fun signal =>
          sg_entity_type signal = se_entity_type entity
          /\ py_lower (sg_entity_value signal) <> py_lower (se_entity_value entity)) rows) entities
  end.
