(* ===== verification/ConflictDetectionTheorems.v ===== *)
(** * What the conflict detector finds

    The dictionary the detector builds equals a case distinction per memory;
    candidates are ranked and their confidence is bounded; only statements of
    other users of the tenant are reported; and a gap in the patterns. *)

From S2P Require Export ConflictDetection.

(** ** Overlap *)

Lemma token_overlap_range X Y : (0 <= token_overlap_ratio X Y <= 1)%Q.
Proof.
  unfold token_overlap_ratio. case_match; [lra|].
  assert (size (X ∩ Y) <= Nat.min (size X) (size Y))%nat as Hle
    by (apply Nat.min_glb; apply subseteq_size; set_solver).
  unfold Qle. simpl. lia.
Qed.

Lemma token_overlap_sym X Y : token_overlap_ratio X Y = token_overlap_ratio Y X.
Proof.
  unfold token_overlap_ratio. rewrite orb_comm, (intersection_comm_L X Y), (Nat.min_comm (size X)). done.
Qed.

(** ** One memory *)

(** The candidate the detector should report for a stored memory, if any. *)
Definition expected_candidate (new_memory : ExtractedMemory) (existing : Existing) : option ConflictCandidate :=
  if precise (entity_candidate new_memory existing) then Some (entity_candidate new_memory existing)
  else if SEMANTIC_CONFLICT_THRESHOLD <?q ex_score existing then Some (semantic_candidate new_memory existing)
  else if same_topic new_memory existing then Some (topic_candidate new_memory existing)
  else match triggers_of new_memory existing with
       | [] => None
       | _ => Some (entity_candidate new_memory existing)
       end.

Lemma precise_triggers new_memory existing :
  precise (entity_candidate new_memory existing) = true -> triggers_of new_memory existing <> [].
Proof. unfold precise. simpl. by destruct (triggers_of new_memory existing). Qed.

Definition key_of (existing : Existing) : uuid := m_id (ex_memory existing).

Lemma dict_set_set {K A} `{EqDecision K} k (v v' : A) (d : list (K * A)) :
  dict_set k v' (dict_set k v d) = dict_set k v' d.
Proof.
  induction d as [|[k1 v1] d IH]; simpl; [by rewrite decide_True|].
  destruct (decide (k = k1)) as [->|]; simpl; [by rewrite decide_True|]. by rewrite decide_False, IH.
Qed.

Lemma detect_one_spec new_memory candidates existing :
  dict_get (key_of existing) candidates = None ->
  detect_one new_memory candidates existing =
    match expected_candidate new_memory existing with
    | Some c => dict_set (key_of existing) c candidates
    | None => candidates
    end.
Proof.
  intros Hfresh. unfold detect_one, expected_candidate. fold (key_of existing).
  pose proof (precise_triggers new_memory existing) as Hprecise.
  assert (precise (semantic_candidate new_memory existing) = false) as Hs by done.
  assert (precise (topic_candidate new_memory existing) = false) as Ht by done.
  set (k := key_of existing) in *. set (ec := entity_candidate new_memory existing) in *.
  set (sc := semantic_candidate new_memory existing) in *.
  set (tc := topic_candidate new_memory existing) in *.
  destruct (SEMANTIC_CONFLICT_THRESHOLD <?q ex_score existing);
    destruct (triggers_of new_memory existing) as [|t ts];
    destruct (precise ec) eqn:He; try (by destruct (Hprecise eq_refl));
    destruct (same_topic new_memory existing); cbv zeta;
    rewrite ?dict_get_set, ?decide_True, ?Hfresh by done;
    cbn [choose_stronger_candidate]; rewrite ?He, ?Hs, ?Ht; cbn;
    rewrite ?dict_get_set, ?decide_True by done; cbn [choose_stronger_candidate];
    rewrite ?He, ?Hs, ?Ht; cbn; rewrite ?dict_set_set; done.
Qed.

(** ** All memories *)

Lemma dict_set_fresh {K A} `{EqDecision K} k (v : A) (d : list (K * A)) :
  dict_get k d = None -> dict_set k v d = d ++ [(k, v)].
Proof. induction d as [|[k1 v1] d IH]; simpl; [done|]. case_decide; [done|]. intros. by rewrite IH. Qed.

Lemma dict_get_app {K A} `{EqDecision K} k (d d' : list (K * A)) :
  dict_get k d = None -> dict_get k (d ++ d') = dict_get k d'.
Proof. induction d as [|[k1 v1] d IH]; simpl; [done|]. by case_decide. Qed.

Lemma detect_all new_memory existing_memories candidates :
  NoDup (key_of <$> existing_memories) ->
  Forall (fun e => dict_get (key_of e) candidates = None) existing_memories ->
  snd <$> fold_left (detect_one new_memory) existing_memories candidates
  = (snd <$> candidates) ++ omap (expected_candidate new_memory) existing_memories.
Proof.
  revert candidates. induction existing_memories as [|e l IH]; intros candidates Hnd Hf; [by rewrite app_nil_r|].
  apply NoDup_cons in Hnd as [He Hnd]. apply Forall_cons in Hf as [Hfe Hf]. cbn [fold_left].
  rewrite detect_one_spec by done.
  change (omap (expected_candidate new_memory) (e :: l)) with
    (match expected_candidate new_memory e with
     | Some c => c :: omap (expected_candidate new_memory) l
     | None => omap (expected_candidate new_memory) l end).
  destruct (expected_candidate new_memory e) as [c|]; [|by apply IH].
  rewrite dict_set_fresh by done. rewrite IH; [|done|].
  - by rewrite fmap_app, <- app_assoc.
  - apply Forall_forall. intros e' He'. rewrite Forall_forall in Hf.
    rewrite dict_get_app by by apply Hf. simpl. rewrite decide_False; [done|].
    intros E. apply He. rewrite <- E. by apply list_elem_of_fmap_2.
Qed.

Lemma detection_rule new_memory existing_memories :
  NoDup (key_of <$> existing_memories) ->
  detect_candidates new_memory existing_memories
  = sort_by by_confidence (omap (expected_candidate new_memory) existing_memories).
Proof. intros Hids. unfold detect_candidates. rewrite detect_all; [done|done|]. by apply Forall_forall. Qed.

(** C38: The detector's dictionary of competing candidates amounts to one rule per
    stored memory: evidence naming a date or a number wins, then semantic
    similarity, then a shared topic, then any other shared entity; a memory with
    none of these is not a candidate.  The candidates come ranked by confidence,
    those of equal confidence in the order of their memories. *)
Theorem detection_follows_the_rule (new_memory : ExtractedMemory) (existing_memories : list Existing)
    (Hids : NoDup (key_of <$> existing_memories)) :
  detect_candidates new_memory existing_memories
  = sort_by by_confidence (omap (expected_candidate new_memory) existing_memories).
Proof. by apply detection_rule. Qed.

Lemma expected_confidence new_memory existing c :
  expected_candidate new_memory existing = Some c ->
  cc_existing_memory c = ex_memory existing /\ (74 # 100 <= cc_confidence c <= 1)%Q.
Proof.
  unfold expected_candidate. intros Hc.
  pose proof (token_overlap_range (topic_tokens (x_content new_memory))
                (topic_tokens (m_content (ex_memory existing)))) as Ho. fold (overlap_of new_memory existing) in Ho.
  assert (74 # 100 <= cc_confidence (entity_candidate new_memory existing) <= 1)%Q as He.
  { simpl. split; [apply Q.le_max_l|]. apply Q.max_lub; [lra|]. apply (Qle_trans _ _ _ (Q.le_min_l _ _)). lra. }
  destruct (precise _); [by injection Hc as <-|].
  destruct (SEMANTIC_CONFLICT_THRESHOLD <?q ex_score existing) eqn:Hs.
  { injection Hc as <-. split; [done|]. unfold SEMANTIC_CONFLICT_THRESHOLD in Hs. q_reflect. simpl.
    split; [apply Q.min_glb; lra|apply Q.le_min_l]. }
  destruct (same_topic new_memory existing) eqn:Ht.
  { injection Hc as <-. split; [done|]. unfold same_topic in Ht. apply andb_true_iff in Ht as [_ Ht].
    q_reflect. simpl. split; [apply Q.min_glb; lra|]. apply (Qle_trans _ _ _ (Q.le_min_l _ _)). lra. }
  destruct (triggers_of new_memory existing); [done|]. by injection Hc as <-.
Qed.

(** Conflict candidates are ranked and bounded: they come in descending
    confidence, every confidence lies between 0.74 and 1, each is about one of
    the memories given, and no memory has two. *)
Theorem candidates_are_ranked (new_memory : ExtractedMemory) (existing_memories : list Existing)
    (Hids : NoDup (key_of <$> existing_memories)) :
  let l := detect_candidates new_memory existing_memories in
  StronglySorted (fun a b => cc_confidence b <= cc_confidence a)%Q l /\
  Forall (fun c => 74 # 100 <= cc_confidence c <= 1)%Q l /\
  Forall (fun c => cc_existing_memory c ∈ (ex_memory <$> existing_memories)) l /\
  NoDup ((fun c => m_id (cc_existing_memory c)) <$> l).
Proof.
  cbv zeta. rewrite detection_rule by done. set (l := omap (expected_candidate new_memory) existing_memories).
  assert (forall c, c ∈ l -> exists e, e ∈ existing_memories /\ expected_candidate new_memory e = Some c) as Hl
    by (intros c; subst l; by rewrite list_elem_of_omap).
  split_and!; [apply (sort_by_descending cc_confidence)| | |].
  - apply Forall_forall. intros c. rewrite sort_by_perm. intros (e & _ & Hc)%Hl.
    by apply expected_confidence in Hc as [_ Hc].
  - apply Forall_forall. intros c. rewrite sort_by_perm. intros (e & He & Hc)%Hl.
    apply expected_confidence in Hc as [-> _]. by apply list_elem_of_fmap_2.
  - rewrite sort_by_perm. subst l. clear Hl. induction existing_memories as [|e l IH]; [constructor|].
    apply NoDup_cons in Hids as [He Hids]. cbn [omap list_omap].
    destruct (expected_candidate new_memory e) as [c|] eqn:Hc; [|by apply IH].
    rewrite fmap_cons. constructor; [|by apply IH]. apply expected_confidence in Hc as [-> _].
    intros (c' & E & Hc')%list_elem_of_fmap. apply list_elem_of_omap in Hc' as (e' & He' & Hc').
    apply expected_confidence in Hc' as [Ee' _]. apply He. unfold key_of. rewrite E, Ee'.
    by apply (list_elem_of_fmap_2 key_of).
Qed.

(** ** Shared context *)

Lemma shared_conflict_elem (signals : list SharedContextSignal) (new_memory : ExtractedMemory)
    (proxy_user_id tenant_id : uuid) (c : SharedContextConflict) :
  c ∈ detect_shared_context_conflict signals new_memory proxy_user_id tenant_id <->
  exists entity signal source,
    entity ∈ extract_shared_context_entities (x_content new_memory) (x_category new_memory) /\
    signal ∈ signals /\ sg_tenant_id signal = tenant_id /\ sg_is_superseded signal = false /\
    sg_source_proxy_user_id signal = Some source /\ source <> proxy_user_id /\
    sg_entity_type signal = se_entity_type entity /\
    py_lower (sg_entity_value signal) <> py_lower (se_entity_value entity) /\
    c = shared_conflict new_memory entity signal.
Proof.
  unfold detect_shared_context_conflict.
  set (entities := extract_shared_context_entities (x_content new_memory) (x_category new_memory)).
  assert (forall P : Prop, (c ∈ flat_map (fun entity => shared_conflict new_memory entity <$>
      filter (fun signal => sg_entity_type signal = se_entity_type entity
        /\ py_lower (sg_entity_value signal) <> py_lower (se_entity_value entity))
        (other_signals tenant_id proxy_user_id (se_entity_type <$> entities) signals)) entities <-> P) ->
    c ∈ match entities with
        | [] => []
        | _ => flat_map (fun entity => shared_conflict new_memory entity <$>
                 filter (fun signal => sg_entity_type signal = se_entity_type entity
                   /\ py_lower (sg_entity_value signal) <> py_lower (se_entity_value entity))
                   (other_signals tenant_id proxy_user_id (se_entity_type <$> entities) signals)) entities
        end <-> P) as Hnil by (intros P; by destruct entities).
  apply Hnil. rewrite elem_of_flat_map. split.
  - intros (entity & Hentity & (signal & -> & Hs)%list_elem_of_fmap).
    apply list_elem_of_filter in Hs as [[Ht Hv] Hs]. apply list_elem_of_filter in Hs as [(H1 & H2 & H3 & H4) Hs].
    unfold from_another in H4. destruct (sg_source_proxy_user_id signal) as [source|] eqn:Hsource; [|done].
    apply bool_decide_eq_true in H4. exists entity, signal, source. by split_and!.
  - intros (entity & signal & source & Hentity & Hs & H1 & H3 & Hsource & Hne & Ht & Hv & ->).
    exists entity. split; [done|]. apply list_elem_of_fmap_2, list_elem_of_filter. split; [done|].
    apply list_elem_of_filter. split_and!; [done|rewrite Ht; by apply list_elem_of_fmap_2|done| |done].
    unfold from_another. rewrite Hsource. by apply bool_decide_eq_true.
Qed.

(** A statement is reported as contradicting the shared context exactly when
    the memory names an entity of its kind with another value and it stands
    (not superseded) in the same tenant on behalf of another user: no report
    crosses tenants or sets a user against themselves. *)
Theorem shared_conflicts_are_other_users (signals : list SharedContextSignal) (new_memory : ExtractedMemory)
    (proxy_user_id tenant_id : uuid) (c : SharedContextConflict) :
  c ∈ detect_shared_context_conflict signals new_memory proxy_user_id tenant_id <->
  exists entity signal source,
    entity ∈ extract_shared_context_entities (x_content new_memory) (x_category new_memory) /\
    signal ∈ signals /\ sg_tenant_id signal = tenant_id /\ sg_is_superseded signal = false /\
    sg_source_proxy_user_id signal = Some source /\ source <> proxy_user_id /\
    sg_entity_type signal = se_entity_type entity /\
    py_lower (sg_entity_value signal) <> py_lower (se_entity_value entity) /\
    c = shared_conflict new_memory entity signal.
Proof. apply shared_conflict_elem. Qed.

(** ** A gap in the vocabulary *)

Section ConflictExamples.

Definition example_claim (content : string) : ExtractedMemory :=
  {| x_content := content; x_category := "expertise"; x_importance_score := 5; x_confidence := 1;
     x_expiry := "permanent"; x_reasoning := "stated"; x_validated_evidence := [] |}.

Definition example_stored (id : uuid) (content : string) (category : MemoryCategory.t) (score : Q) : Existing :=
  {| ex_memory :=
       {| m_id := id; m_user_id := 1; m_proxy_user_id := 1; m_agent_id := None; m_content := content;
          m_category := category; m_importance_score := 5; m_confidence_score := 1;
          m_embedding_model_id := ""; m_created_at := 0; m_updated_at := 0; m_last_accessed_at := None;
          m_access_count := 0; m_expires_at := None; m_effective_from := None; m_effective_until := None;
          m_previous_version_id := None; m_source_event_id := None; m_metadata_json := [];
          m_is_archived := false |};
     ex_score := score |}.

Definition example_stored_memories : list Existing :=
  [example_stored 1 "Avoids C# at work" MemoryCategory.preference 0;
   example_stored 2 "Exam on 2024-05-01" MemoryCategory.fact (9 # 10);
   example_stored 3 "Likes green tea" MemoryCategory.preference 0].

(** The languages C++ and C# are invisible to the detector, because no word
    boundary follows the sign that ends their names; both read as C, so that
    statements about the two are reported as sharing an entity. *)
Theorem sharp_and_plus_languages_read_as_c :
  "c++" ∈ TECH_NAMES /\ "c#" ∈ TECH_NAMES /\
  extract_entities "uses C++ daily" = {["c"]} /\ extract_entities "avoids C# at work" = {["c"]} /\
  (cc_detected_entities <$> detect_candidates (example_claim "uses C++ daily") example_stored_memories)
    = [[]; ["c"]].
Proof. split_and!; [by apply (bool_decide_unpack _)..| | |]; vm_compute; reflexivity. Qed.

Lemma detection_follows_the_rule_witness :
  (fun c => (m_id (cc_existing_memory c), cc_detection_strategy c, cc_detected_entities c)) <$>
  detect_candidates (example_claim "Exam moved to 2024-06-01 for C++") example_stored_memories
  = [(2%Z, entity, ["01"; "2024"; "exam"]); (1%Z, entity, ["c"])].
Proof.
  rewrite (detection_follows_the_rule (example_claim "Exam moved to 2024-06-01 for C++") example_stored_memories);
    [vm_compute; reflexivity|]. by apply (bool_decide_unpack _).
Defined.

Lemma candidates_are_ranked_witness :
  Forall (fun c => 74 # 100 <= cc_confidence c <= 1)%Q
    (detect_candidates (example_claim "uses C++ daily") example_stored_memories).
Proof.
  apply (candidates_are_ranked (example_claim "uses C++ daily") example_stored_memories).
  by apply (bool_decide_unpack _).
Defined.
End ConflictExamples.
