(* ===== verification/CrossUser.v ===== *)
(** * Conflicts between users

    The cross-user half of [api/services/conflict_resolver.py]: the routers of
    [api/services/conflict_routing/], the automatic resolution of a conflict
    between two users' memories, and the recording of the shared context of a
    stored memory: its signals, and the conflicts with other users' signals.
    [Store] is the session of the resolver: the database of [Lifecycle.Life]
    with the tables only the resolver writes.  Memories have an owner
    ([proxy_user_id] is not nullable), so the branch for memories without one
    does not arise. *)

From S2P Require Export ConflictDetection ConflictResolution.

(** ** Routing *)

Inductive ResolutionPath := user_session | tenant_review.
#[export] Instance ResolutionPath_eq_dec : EqDecision ResolutionPath.
Proof. solve_decision. Defined.

Definition path_value (p : ResolutionPath) : string :=
  match p with user_session => "user_session" | tenant_review => "tenant_review" end.

(** The two entity lists of a domain's router. *)
Record domain_router := {
  USER_SESSION_ENTITIES : list string;
  TENANT_REVIEW_ENTITIES : list string;
}.

Definition EdTechEntityRouter : domain_router := {|
  USER_SESSION_ENTITIES := [
    "exam_date"; "grade_level"; "personal_skill"; "personal_preference"; "individual_goal"; "learning_style";
    "personal_fact"; "marks_target"; "study_schedule"; "weak_topic"; "strong_topic"; "forgetting_stage";
    "explanation_style"; "language_profile"; "session_profile"; "mock_score"];
  TENANT_REVIEW_ENTITIES := [
    "institution_name"; "curriculum_standard"; "batch_assignment"; "cohort_goal"; "institution_policy";
    "shared_syllabus"] |}.

Definition HealthcareEntityRouter : domain_router := {|
  USER_SESSION_ENTITIES := [
    "condition"; "medication"; "allergy"; "symptom"; "personal_health_goal"; "diet_restriction";
    "exercise_preference"; "mental_health_note"; "personal_medical_history"];
  TENANT_REVIEW_ENTITIES := [
    "clinic_protocol"; "standard_dosage"; "facility_policy"; "shared_care_plan"; "department_process"] |}.

Definition HRTechEntityRouter : domain_router := {|
  USER_SESSION_ENTITIES := [
    "salary_expectation"; "career_goal"; "skill_level"; "job_preference"; "interview_feedback";
    "personal_strength"; "work_style"; "relocation_preference"];
  TENANT_REVIEW_ENTITIES := [
    "role_requirement"; "team_headcount"; "hiring_policy"; "compensation_band"; "org_structure";
    "team_process"] |}.

Definition PERSONAL_SIGNALS : list string :=
  ["i "; "my "; "i've"; "i have"; "i prefer"; "i use"; "i like"; "i need"; "for me"].
Definition SHARED_SIGNALS : list string :=
  ["we "; "our "; "the team"; "the company"; "everyone"; "all of us"; "the project"; "our stack"; "our process"].

Definition signals_in (signals : list string) (text : string) : nat :=
  length (filter (fun signal => py_contains signal text = true) signals).

Definition both_contents (memory_a memory_b : Memory) : string :=
  py_lower (m_content memory_a +:+ " " +:+ m_content memory_b).

(** [GenericEntityRouter.classify], which always answers *)
Definition generic_classify (memory_a memory_b : Memory) : ResolutionPath :=
  let combined := both_contents memory_a memory_b in
  let personal_score := signals_in PERSONAL_SIGNALS combined in
  let shared_score := signals_in SHARED_SIGNALS combined in
  if (shared_score <? personal_score)%nat then user_session
  else if (personal_score <? shared_score)%nat then tenant_review
  else if bool_decide (m_proxy_user_id memory_a = m_proxy_user_id memory_b) then user_session
  else tenant_review.

Inductive router := Domain (r : domain_router) | GenericEntityRouter.

Definition classify (r : router) (entity_type : string) (memory_a memory_b : Memory) : option ResolutionPath :=
  match r with
  | Domain d =>
      if bool_decide (entity_type ∈ USER_SESSION_ENTITIES d) then Some user_session
      else if bool_decide (entity_type ∈ TENANT_REVIEW_ENTITIES d) then Some tenant_review
      else None
  | GenericEntityRouter => Some (generic_classify memory_a memory_b)
  end.

Definition DOMAIN_ROUTERS : list (string * router) :=
  [("edtech", Domain EdTechEntityRouter); ("healthcare", Domain HealthcareEntityRouter);
   ("hrtech", Domain HRTechEntityRouter); ("generic", GenericEntityRouter)].

Definition get_router (domain_schema : option string) : router :=
  default GenericEntityRouter (dict_get (py_lower (py_strip (default EmptyString domain_schema))) DOMAIN_ROUTERS).

Definition classify_resolution_path (entity_type : string) (memory_a memory_b : Memory)
    (domain_schema : option string) : ResolutionPath :=
  let router := get_router domain_schema in
  match classify router entity_type memory_a memory_b with
  | Some routed => routed
  | None =>
      match router with
      | GenericEntityRouter =>
          if bool_decide (m_proxy_user_id memory_a = m_proxy_user_id memory_b) then user_session
          else tenant_review
      | Domain _ => generic_classify memory_a memory_b
      end
  end.

(** ** The resolver's session *)

(** A row of [ClarificationQueue]. *)
Record Clarification := {
  cl_tenant_id : uuid; cl_proxy_user_id : uuid; cl_question_context : string; cl_conflict_id : uuid;
  cl_trigger_on : string;
}.

Module AuditAction.
Inductive t := memory_created | updated | archived | deleted.
#[global] Instance eq_dec : EqDecision t.
Proof. solve_decision. Defined.
End AuditAction.

Record AuditLog := {
  al_user_id : uuid; al_proxy_user_id : option uuid; al_action : AuditAction.t; al_memory_id : option uuid;
  al_old_value : json; al_new_value : json;
}.

(** The ["context.conflict_detected"] event of a conflict. *)
Record conflict_webhook := {
  wh_tenant_id : uuid; wh_entity_type : string; wh_value_a : string; wh_value_b : string;
  wh_user_a : option uuid; wh_user_b : uuid;
}.

(** A candidate withheld from the store, as [api/schemas/extraction_schemas.py]
    has it. *)
Record PendingExtractedMemory := {
  pe_content : string; pe_category : string; pe_importance_score : Q; pe_confidence : Q; pe_reasoning : string;
  pe_candidate_reason : string; pe_validated_evidence : obj;
}.

Record Store := {
  life : Life;
  conflicts : gmap uuid CrossUserConflict;
  signals : list SharedContextSignal;
  clarifications : list Clarification;
  webhooks : list conflict_webhook;
  audits : list AuditLog;
  pending : list PendingExtractedMemory; (* last_pending_candidates *)
  flagged : Z;                          (* last_cross_user_conflicts_flagged *)
  clarified : Z;                        (* last_user_clarifications_queued *)
}.

Inductive resolver_exn :=
  | UnexpectedKeyword                   (* TypeError of a call *)
  | SessionFailed (e : life_exn)
  | LedgerRaised (e : ledger_exn)
  | EmbedderRaised
  | NotAMapping                         (* TypeError of dict() *)
  | RaisedValueError (message : string).

Abbreviation SM := (M Store resolver_exn).

(** An operation of the database session. *)
Definition in_life {A} (m : FM A) : SM A :=
  fun s => match m (life s) with
           | (l, inr a) => (s <| life := l |>, inr a)
           | (l, inl e) => (s <| life := l |>, inl (SessionFailed e))
           end.

Definition new_id : SM uuid := in_life fresh_id.

(** The statements of the recording of shared context. *)
Inductive recording_statement :=
  | ReadSignals (memory : uuid)       (* the query for other users' signals *)
  | ReadConflicts (memory : uuid)     (* the query for existing conflicts; it flushes the signals *)
  | WriteConflicts (memory : uuid)
  | LoadMemories (conflict : uuid).

(** What the recording meets outside: whether events are dispatched, and which
    of its statements the database refuses — a timeout, a lost connection, a
    constraint of a table that is not modelled. *)
Record Outside := { dispatches : bool; refuses : recording_statement -> bool }.

(** A refused statement raises and leaves the session unusable. *)
Definition refused_or {A} (refused : bool) (m : SM A) : SM A :=
  if refused
  then fun s => (s <| life ::= fun l => l <| poisoned := true |> |>, inl (SessionFailed Refused))
  else m.

Definition stored_memories (s : Store) : gmap uuid Memory := db_memories (db (life s)).

(** ** The automatic resolution *)

Record AutoResolutionResult := {
  ar_strategy_used : string; ar_resolution : string; ar_action_taken : string; ar_requires_attention : bool;
  ar_reason : string; ar_decision_evidence : obj;
}.

Definition PER_USER_SCOPED_ENTITY_TYPES : list string := [
  "exam_date"; "grade_level"; "individual_goal"; "learning_style"; "marks_target"; "personal_fact";
  "personal_goal"; "personal_preference"; "personal_skill"; "study_schedule"].

Definition PERSONAL_GOAL_SIGNALS : list string := [
  "become "; "career"; "for himself"; "for herself"; "for me"; "internship"; "is currently looking";
  "job opportunities"; "learn "; "looking for"; "my "; "personal"; "user is currently looking"; "user wants";
  "wants to"].

Definition SHARED_ORG_SIGNALS : list string :=
  ["all of us"; "company"; "organisation"; "organization"; "our "; "team"; "we "].

Definition _is_per_user_scoped_conflict (entity_type : string) (memory_a memory_b : Memory) : bool :=
  if bool_decide (entity_type ∈ PER_USER_SCOPED_ENTITY_TYPES) then true
  else
    let combined := both_contents memory_a memory_b in
    if bool_decide (entity_type = "shared_goal")
    then mentions PERSONAL_GOAL_SIGNALS combined && negb (mentions SHARED_ORG_SIGNALS combined)
    else false.

(** [abs((created_a - created_b).days)]; [timedelta.days] rounds down. *)
Definition recency_days (memory_a memory_b : Memory) : Z :=
  Z.abs ((m_created_at memory_a - m_created_at memory_b) / DAY).

Definition confidence_diff (memory_a memory_b : Memory) : Q :=
  Qabs (m_confidence_score memory_a - m_confidence_score memory_b).

Section Automatic.
Context `{PyLib}.
Variables (now : datetime) (conflict : uuid).

Definition set_conflict (f : CrossUserConflict -> CrossUserConflict) : SM unit :=
  modify_st (fun s => s <| conflicts ::= alter f conflict |>).

Definition _attach_cross_user_decision_evidence (evidence : obj) : SM obj :=
  set_conflict (fun c => c <| cf_decision_evidence := evidence |>);;
  mret evidence.

Definition weighted_down (reason : string) (superseding_memory memory : Memory) : Memory :=
  memory <| m_importance_score := (m_importance_score memory * (1 # 2))%Q |>
         <| m_metadata_json ::= fun o =>
              jset "auto_resolution_reason" (JStr reason)
                (jset "superseded_candidate_id" (JStr (uuid_str (m_id superseding_memory)))
                   (jset "potentially_outdated" (JBool true) o)) |>.

(** The keyword parameters of [_weight_down_memory]. *)
Definition weight_down_keywords : list string := ["reason"].

Definition _weight_down_memory (memory superseding_memory : Memory) (reason : string) : SM unit :=
  in_life (modify_st (put_memory (weighted_down reason superseding_memory memory))).

(** A call of it with keyword arguments: one the function does not have is a
    [TypeError]. *)
Definition call_weight_down (memory superseding_memory : Memory) (reason : string)
    (other_keywords : list string) : SM unit :=
  if forallb (fun k => bool_decide (k ∈ weight_down_keywords)) other_keywords
  then _weight_down_memory memory superseding_memory reason
  else raise_st UnexpectedKeyword.

Definition _mark_conflict_auto_resolved (strategy : string) : SM unit :=
  set_conflict (fun c => c <| cf_status := CrossUserConflictStatus.resolved |>
    <| cf_auto_resolution := Some strategy |> <| cf_auto_resolution_at := Some now |>
    <| cf_requires_attention := false |>).

(** The weighting of one memory over another. *)
Definition weight (winner loser : Memory) (strategy action reason : string) (evidence : obj)
    : SM AutoResolutionResult :=
  _attach_cross_user_decision_evidence evidence;;
  call_weight_down loser winner reason ["decision_evidence"];;
  _mark_conflict_auto_resolved strategy;;
  evidence ← _attach_cross_user_decision_evidence evidence;
  mret {| ar_strategy_used := strategy; ar_resolution := strategy; ar_action_taken := action;
          ar_requires_attention := false; ar_reason := reason; ar_decision_evidence := evidence |}.

Definition _queue_user_session_clarification (c : CrossUserConflict) (target_memory : Memory)
    (question_context : string) : SM unit :=
  modify_st (fun s => s <| clarifications ::= fun l => l ++
    [{| cl_tenant_id := cf_tenant_id c; cl_proxy_user_id := m_proxy_user_id target_memory;
        cl_question_context := question_context; cl_conflict_id := cf_id c;
        cl_trigger_on := "next_session" |}] |>).

(** The conflict waits for a review by the tenant. *)
Definition left_pending (reason : string) (evidence : obj) : SM AutoResolutionResult :=
  set_conflict (fun c => c <| cf_status := CrossUserConflictStatus.pending |>
    <| cf_auto_resolution := Some "requires_attention" |> <| cf_auto_resolution_at := Some now |>
    <| cf_resolution_path := Some "tenant_review" |> <| cf_requires_attention := true |>);;
  evidence ← _attach_cross_user_decision_evidence evidence;
  mret {| ar_strategy_used := "requires_attention"; ar_resolution := "unresolvable";
          ar_action_taken := "left_pending"; ar_requires_attention := true; ar_reason := reason;
          ar_decision_evidence := evidence |}.

Definition ignore_per_user (entity_type : string) : SM AutoResolutionResult :=
  set_conflict (fun c => c <| cf_status := CrossUserConflictStatus.ignored |>
    <| cf_auto_resolution := Some "per_user_scoped" |> <| cf_auto_resolution_at := Some now |>
    <| cf_resolution_path := Some "user_session" |> <| cf_requires_attention := false |>
    <| cf_resolution_reason := Some "Personal goals or facts are user-specific" |>);;
  evidence ← _attach_cross_user_decision_evidence
    (automatic_evidence "IGNORE" ["personal_truth"; "per_user_scoped"]
       "This is personal information, so it should not create an organisation-level conflict."
       (Some (95 # 100)) None [("entity_type", JStr entity_type)]);
  mret {| ar_strategy_used := "per_user_scoped"; ar_resolution := "per_user_scoped";
          ar_action_taken := "ignored_personal_cross_user_conflict"; ar_requires_attention := false;
          ar_reason := "Personal facts are user-specific"; ar_decision_evidence := evidence |}.

Definition queue_clarification (c : CrossUserConflict) (entity_type : string) (target_memory : Memory)
    : SM AutoResolutionResult :=
  _queue_user_session_clarification c target_memory
    (entity_type +:+ ": " +:+ cf_entity_value_a c +:+ " vs " +:+ cf_entity_value_b c);;
  set_conflict (fun c => c <| cf_status := CrossUserConflictStatus.clarification_queued |>
    <| cf_auto_resolution := Some "clarification_queued" |> <| cf_auto_resolution_at := Some now |>
    <| cf_requires_attention := false |>);;
  evidence ← _attach_cross_user_decision_evidence
    (review_evidence "USER_REVIEW" ["personal_truth_requires_user"; "clarification_queued"]
       "This concerns personal memory, so MemoryOS queued a user-facing clarification."
       [("entity_type", JStr entity_type)]);
  mret {| ar_strategy_used := "clarification_queued"; ar_resolution := "clarification_queued";
          ar_action_taken := "queued_clarification"; ar_requires_attention := false;
          ar_reason := "Will ask user to confirm in next session"; ar_decision_evidence := evidence |}.

(** With both memories at hand. *)
Definition resolve_between (domain_schema : option string) (c : CrossUserConflict) (memory_a memory_b : Memory)
    : SM AutoResolutionResult :=
  let entity_type := SharedContextEntityType.value (cf_entity_type c) in
  let diff := confidence_diff memory_a memory_b in
  if _is_per_user_scoped_conflict entity_type memory_a memory_b then ignore_per_user entity_type
  else if (7 <? recency_days memory_a memory_b)%Z then
    let (newer, older) := if (m_created_at memory_b <? m_created_at memory_a)%Z
                          then (memory_a, memory_b) else (memory_b, memory_a) in
    weight newer older "recency_weighted" "weighted_down_older_claim"
      "Newer claim weighted higher automatically"
      (automatic_evidence "UPDATE" ["recency_weighted"; "recency_safe_to_apply"]
         "The newer claim was weighted higher because the evidence is more recent." (Some (8 # 10))
         (Some (uuid_str (m_id newer)))
         [("recency_days", JInt (recency_days memory_a memory_b)); ("entity_type", JStr entity_type)])
  else if (1 # 5) <?q diff then
    let (higher, lower) := if m_confidence_score memory_b <?q m_confidence_score memory_a
                           then (memory_a, memory_b) else (memory_b, memory_a) in
    weight higher lower "confidence_weighted" "weighted_down_lower_confidence_claim"
      "Higher-confidence claim weighted higher automatically"
      (automatic_evidence "UPDATE" ["confidence_weighted"; "higher_confidence_source"]
         "The higher-confidence claim was weighted higher automatically." (Some (75 # 100))
         (Some (uuid_str (m_id higher)))
         [("confidence_diff", JFloat diff); ("entity_type", JStr entity_type)])
  else
    let path := classify_resolution_path entity_type memory_a memory_b domain_schema in
    set_conflict (fun c => c <| cf_resolution_path := Some (path_value path) |>);;
    match path with
    | user_session =>
        queue_clarification c entity_type
          (if (m_created_at memory_a <=? m_created_at memory_b)%Z then memory_a else memory_b)
    | tenant_review =>
        left_pending "Tenant review is required for shared organizational context"
          (review_evidence "TENANT_REVIEW" ["organisation_truth_requires_tenant"; "shared_context_conflict"]
             "This concerns shared organisation context, so MemoryOS routed it to tenant review."
             [("entity_type", JStr entity_type)])
    end.

Definition _load_conflict_memory (s : Store) (memory_id : option uuid) : option Memory :=
  memory_id ≫= fun i => stored_memories s !! i.

Definition resolve_cross_user_conflict_automatically (domain_schema : option string) (c : CrossUserConflict)
    : SM AutoResolutionResult :=
  s ← get_st;
  match _load_conflict_memory s (cf_user_a_memory_id c), _load_conflict_memory s (cf_user_b_memory_id c) with
  | Some memory_a, Some memory_b => resolve_between domain_schema c memory_a memory_b
  | _, _ =>
      left_pending "One or both memories are unavailable for automatic resolution"
        (review_evidence "TENANT_REVIEW" ["conflict_memory_missing"; "tenant_review_required"]
           "One or both memories are unavailable, so MemoryOS cannot safely decide automatically."
           [("entity_type", JStr (SharedContextEntityType.value (cf_entity_type c)))])
  end.
End Automatic.

(** ** The shared context of a stored memory *)

Section Recording.
Context `{PyLib}.
Variable now : datetime.

Definition signal_of (tenant_id proxy_user_id memory_id id : uuid) (e : SharedContextEntity)
    : SharedContextSignal :=
  {| sg_id := id; sg_tenant_id := tenant_id; sg_entity_type := se_entity_type e;
     sg_entity_value := se_entity_value e; sg_source_proxy_user_id := Some proxy_user_id;
     sg_source_memory_id := Some memory_id; sg_confidence := se_confidence e; sg_is_superseded := false |}.

Fixpoint insert_signals (tenant_id proxy_user_id memory_id : uuid) (entities : list SharedContextEntity)
    : SM unit :=
  match entities with
  | [] => mret tt
  | e :: entities =>
      id ← new_id;
      modify_st (fun s => s <| signals ::= fun l => l ++ [signal_of tenant_id proxy_user_id memory_id id e] |>);;
      insert_signals tenant_id proxy_user_id memory_id entities
  end.

Definition _insert_shared_context_signals (extracted_memory : ExtractedMemory)
    (tenant_id proxy_user_id memory_id : uuid) : SM unit :=
  insert_signals tenant_id proxy_user_id memory_id
    (extract_shared_context_entities (x_content extracted_memory) (x_category extracted_memory)).

(** An unordered pair of memories with an entity type. *)
Definition conflict_key : Type := uuid * uuid * SharedContextEntityType.t.
Definition key_of (a b : uuid) (entity_type : SharedContextEntityType.t) : conflict_key :=
  (Z.min a b, Z.max a b, entity_type).

(** [candidates]: the first conflict of each key, in order. *)
Fixpoint conflict_candidates (new_memory_id : uuid) (found : list SharedContextConflict)
    (candidates : list (conflict_key * SharedContextConflict)) : list (conflict_key * SharedContextConflict) :=
  match found with
  | [] => candidates
  | conflict :: found =>
      conflict_candidates new_memory_id found
        (let signal := sc_conflicting_signal conflict in
         match sg_source_memory_id signal with
         | None => candidates
         | Some source =>
             let key := key_of source new_memory_id (sg_entity_type signal) in
             match dict_get key candidates with
             | Some _ => candidates
             | None => candidates ++ [(key, conflict)]
             end
         end)
  end.

(** The keys of the rows of the query. *)
Definition existing_keys (tenant_id new_memory_id : uuid) (entity_types : list SharedContextEntityType.t)
    (rows : gmap uuid CrossUserConflict) : list conflict_key :=
  omap (fun row =>
      match cf_user_a_memory_id row, cf_user_b_memory_id row with
      | Some a, Some b => Some (key_of a b (cf_entity_type row))
      | _, _ => None
      end)
    (filter (fun row => cf_tenant_id row = tenant_id /\ cf_entity_type row ∈ entity_types
               /\ (cf_user_a_memory_id row = Some new_memory_id \/ cf_user_b_memory_id row = Some new_memory_id))
       (snd <$> map_to_list rows)).

Definition build_cross_user_conflict_row (id tenant_id : uuid) (user_a_memory_id : option uuid)
    (user_b_memory_id : uuid) (conflict : SharedContextConflict) : CrossUserConflict :=
  {| cf_id := id; cf_tenant_id := tenant_id; cf_user_a_memory_id := user_a_memory_id;
     cf_user_b_memory_id := Some user_b_memory_id;
     cf_entity_type := sg_entity_type (sc_conflicting_signal conflict);
     cf_entity_value_a := sc_entity_value_a conflict; cf_entity_value_b := sc_entity_value_b conflict;
     cf_status := CrossUserConflictStatus.pending; cf_auto_resolution := None; cf_auto_resolution_at := None;
     cf_resolution_path := None; cf_requires_attention := false; cf_resolution_reason := None;
     cf_decision_evidence := [] |}.

(** Add a row for each candidate without one; the rows with their signals. *)
Fixpoint insert_rows (tenant_id new_memory_id : uuid) (existing : list conflict_key)
    (candidates : list (conflict_key * SharedContextConflict))
    : SM (list (CrossUserConflict * SharedContextConflict)) :=
  match candidates with
  | [] => mret []
  | (key, conflict) :: candidates =>
      if bool_decide (key ∈ existing) then insert_rows tenant_id new_memory_id existing candidates
      else
        id ← new_id;
        let row := build_cross_user_conflict_row id tenant_id
                     (sg_source_memory_id (sc_conflicting_signal conflict)) new_memory_id conflict in
        modify_st (fun s => s <| conflicts ::= insert id row |>);;
        rows ← insert_rows tenant_id new_memory_id existing candidates;
        mret ((row, conflict) :: rows)
  end.

(** A dispatch that fails is ignored. *)
Definition _dispatch_context_conflict_webhook (outside : Outside) (tenant_id : uuid) (c : CrossUserConflict)
    (source_proxy_user_id : option uuid) (current_proxy_user_id : uuid) : SM unit :=
  if dispatches outside then
    modify_st (fun s => s <| webhooks ::= fun l => l ++
      [{| wh_tenant_id := tenant_id; wh_entity_type := SharedContextEntityType.value (cf_entity_type c);
          wh_value_a := cf_entity_value_a c; wh_value_b := cf_entity_value_b c;
          wh_user_a := source_proxy_user_id; wh_user_b := current_proxy_user_id |}] |>)
  else mret tt.

(** Resolve the new rows one after another. *)
Fixpoint resolve_rows (outside : Outside) (domain_schema : option string) (tenant_id proxy_user_id : uuid)
    (rows : list (CrossUserConflict * SharedContextConflict)) : SM unit :=
  match rows with
  | [] => mret tt
  | (row, conflict) :: rows =>
      result ← refused_or (refuses outside (LoadMemories (cf_id row)))
                 (resolve_cross_user_conflict_automatically now (cf_id row) domain_schema row);
      (if ar_requires_attention result
       then _dispatch_context_conflict_webhook outside tenant_id row
              (sg_source_proxy_user_id (sc_conflicting_signal conflict)) proxy_user_id
       else mret tt);;
      resolve_rows outside domain_schema tenant_id proxy_user_id rows
  end.

Definition _insert_cross_user_conflicts (outside : Outside) (domain_schema : option string)
    (found : list SharedContextConflict) (tenant_id new_memory_id proxy_user_id : uuid) : SM Z :=
  let candidates := conflict_candidates new_memory_id found [] in
  match candidates with
  | [] => mret 0%Z
  | _ =>
      refused_or (refuses outside (ReadConflicts new_memory_id)) (in_life session_flush);;
      s ← get_st;
      let existing := existing_keys tenant_id new_memory_id ((fun c => c.1.2) <$> candidates) (conflicts s) in
      rows ← insert_rows tenant_id new_memory_id existing candidates;
      (match rows with
       | [] => mret tt
       | _ => refused_or (refuses outside (WriteConflicts new_memory_id)) (in_life session_flush)
       end);;
      resolve_rows outside domain_schema tenant_id proxy_user_id rows;;
      mret (Z.of_nat (length rows))
  end.

(** The body of the [try]. *)
Definition record_shared_context (outside : Outside) (domain_schema : option string) (memory_id : uuid)
    (extracted_memory : ExtractedMemory) (tenant_id proxy_user_id : uuid) : SM unit :=
  (match extract_shared_context_entities (x_content extracted_memory) (x_category extracted_memory) with
   | [] => mret tt
   | _ => refused_or (refuses outside (ReadSignals memory_id)) (in_life session_flush)
   end);;
  s ← get_st;
  let found := detect_shared_context_conflict (signals s) extracted_memory proxy_user_id tenant_id in
  _insert_shared_context_signals extracted_memory tenant_id proxy_user_id memory_id;;
  match found with
  | [] => mret tt
  | _ =>
      n ← _insert_cross_user_conflicts outside domain_schema found tenant_id memory_id proxy_user_id;
      modify_st (fun s => s <| flagged ::= Z.add n |>)
  end.

(** Whatever it raises is dropped; what it wrote stays. *)
Definition _record_shared_context_for_stored_memory (outside : Outside) (domain_schema : option string)
    (memory_id : uuid) (extracted_memory : ExtractedMemory) (tenant_id proxy_user_id : option uuid) : SM unit :=
  match tenant_id, proxy_user_id with
  | Some tenant, Some proxy =>
      fun s => ((record_shared_context outside domain_schema memory_id extracted_memory tenant proxy s).1, inr tt)
  | _, _ => mret tt
  end.
End Recording.
