(* ===== verification/CrossUserTheorems.v ===== *)
(** * Conflicts between users: what the resolver does with them

    The outcome of the automatic resolution on every pair of memories, and the
    recording of a memory's shared context: it never disturbs the memory's own
    storage and never records a disagreement twice. *)

From S2P Require Export ConflictDetectionTheorems ConflictResolutionTheorems CrossUser.

(** ** The outcome of the automatic resolution *)

Section Outcome.
Context `{PyLib}.
Variables (now : datetime) (domain_schema : option string).

(** One of the memories outweighs the other. *)
Definition decisive (entity_type : string) (memory_a memory_b : Memory) : bool :=
  negb (_is_per_user_scoped_conflict entity_type memory_a memory_b)
  && ((7 <? recency_days memory_a memory_b)%Z || ((1 # 5) <?q confidence_diff memory_a memory_b)).

(** The memories of a conflict, when both exist. *)
Definition conflict_memories (s : Store) (c : CrossUserConflict) : option (Memory * Memory) :=
  a ← _load_conflict_memory s (cf_user_a_memory_id c);
  b ← _load_conflict_memory s (cf_user_b_memory_id c);
  Some (a, b).

(** What a resolution may change: the conflict's verdict and the queue of
    clarifications. *)
Record verdict_only (c : CrossUserConflict) (s s' : Store) : Prop := {
  vo_life : life s' = life s;
  vo_signals : signals s' = signals s;
  vo_webhooks : webhooks s' = webhooks s;
  vo_audits : audits s' = audits s;
  vo_flagged : flagged s' = flagged s;
  vo_others j : j <> cf_id c -> conflicts s' !! j = conflicts s !! j;
  vo_row : exists c', conflicts s' !! cf_id c = Some c'
    /\ cf_id c' = cf_id c /\ cf_tenant_id c' = cf_tenant_id c /\ cf_entity_type c' = cf_entity_type c
    /\ cf_user_a_memory_id c' = cf_user_a_memory_id c /\ cf_user_b_memory_id c' = cf_user_b_memory_id c;
}.

(** A verdict reached without weighting. *)
Definition settled_verdict (c : CrossUserConflict) (result : AutoResolutionResult) (s s' : Store) : Prop :=
  exists c', conflicts s' !! cf_id c = Some c' /\
    cf_auto_resolution c' = Some (ar_strategy_used result) /\
    cf_auto_resolution_at c' = Some now /\
    cf_decision_evidence c' = ar_decision_evidence result /\
    cf_requires_attention c' = ar_requires_attention result /\
    (ar_requires_attention result = true <-> cf_status c' = CrossUserConflictStatus.pending) /\
    cf_status c' <> CrossUserConflictStatus.resolved /\
    (if bool_decide (cf_status c' = CrossUserConflictStatus.clarification_queued)
     then exists cl, clarifications s' = clarifications s ++ [cl] /\ cl_conflict_id cl = cf_id c
     else clarifications s' = clarifications s).

(** Read the tables of the conflict through the updates made to them. *)
Ltac read_rows Hc :=
  repeat first [rewrite lookup_alter_eq | rewrite lookup_alter_ne by done];
  rewrite ?Hc; cbn [fmap option_fmap option_map].

Ltac verdict_only_row Hc :=
  constructor; try reflexivity;
    [intros j Hj; cbn; read_rows Hc; reflexivity | cbn; read_rows Hc; eexists; split_and!; reflexivity].

Lemma weight_fails c w l strategy action reason evidence s :
  conflicts s !! cf_id c = Some c ->
  exists s', weight now (cf_id c) w l strategy action reason evidence s = (s', inl UnexpectedKeyword)
    /\ verdict_only c s s' /\ clarifications s' = clarifications s
    /\ conflicts s' !! cf_id c = Some (c <| cf_decision_evidence := evidence |>).
Proof.
  intros Hc. eexists. split; [reflexivity|]. split; [verdict_only_row Hc|]. split; [reflexivity|].
  cbn. by read_rows Hc.
Qed.

Lemma left_pending_ok c reason evidence s :
  conflicts s !! cf_id c = Some c ->
  exists s' result, left_pending now (cf_id c) reason evidence s = (s', inr result)
    /\ verdict_only c s s' /\ settled_verdict c result s s'.
Proof.
  intros Hc. do 2 eexists. split; [reflexivity|]. split; [verdict_only_row Hc|].
  unfold settled_verdict. cbn. read_rows Hc. eexists. by split_and!.
Qed.

Lemma ignore_per_user_ok c entity_type s :
  conflicts s !! cf_id c = Some c ->
  exists s' result, ignore_per_user now (cf_id c) entity_type s = (s', inr result)
    /\ verdict_only c s s' /\ settled_verdict c result s s'.
Proof.
  intros Hc. do 2 eexists. split; [reflexivity|]. split; [verdict_only_row Hc|].
  unfold settled_verdict. cbn. read_rows Hc. eexists. by split_and!.
Qed.
Lemma queue_clarification_ok c entity_type path target s :
  conflicts s !! cf_id c = Some c ->
  exists s' result,
    (set_conflict (cf_id c) (fun c => c <| cf_resolution_path := path |>);;
     queue_clarification now (cf_id c) c entity_type target) s = (s', inr result)
    /\ verdict_only c s s' /\ settled_verdict c result s s'.
Proof.
  intros Hc. do 2 eexists. split; [reflexivity|]. split; [verdict_only_row Hc|].
  unfold settled_verdict. cbn. read_rows Hc. eexists. split; [reflexivity|]. cbn. split_and!; try done.
  eexists. by split.
Qed.

Lemma route_to_tenant_ok c path reason evidence s :
  conflicts s !! cf_id c = Some c ->
  exists s' result,
    (set_conflict (cf_id c) (fun c => c <| cf_resolution_path := path |>);;
     left_pending now (cf_id c) reason evidence) s = (s', inr result)
    /\ verdict_only c s s' /\ settled_verdict c result s s'.
Proof.
  intros Hc. do 2 eexists. split; [reflexivity|]. split; [verdict_only_row Hc|].
  unfold settled_verdict. cbn. read_rows Hc. eexists. by split_and!.
Qed.

Lemma resolution_outcomes (c : CrossUserConflict) (s : Store)
    (Hc : conflicts s !! cf_id c = Some c) :
  let entity_type := SharedContextEntityType.value (cf_entity_type c) in
  let outweighs := match conflict_memories s c with
                   | Some (a, b) => decisive entity_type a b | None => false end in
  let (s', r) := resolve_cross_user_conflict_automatically now (cf_id c) domain_schema c s in
  verdict_only c s s' /\
  match r with
  | inr result => outweighs = false /\ settled_verdict c result s s'
  | inl e => outweighs = true /\ e = UnexpectedKeyword /\ clarifications s' = clarifications s /\
      exists evidence, conflicts s' !! cf_id c = Some (c <| cf_decision_evidence := evidence |>)
        /\ jget "action" evidence = Some (JStr "UPDATE")
  end.
Proof.
  cbv zeta. unfold resolve_cross_user_conflict_automatically, conflict_memories.
  rewrite (M_bind_inr get_st _ s s s eq_refl).
  destruct (_load_conflict_memory s (cf_user_a_memory_id c)) as [a|], (_load_conflict_memory s (cf_user_b_memory_id c)) as [b|];
    try (edestruct (left_pending_ok c) as (s' & result & -> & ? & ?); [done|]; cbn; by split_and!).
  cbn [mbind option_bind]. unfold resolve_between, decisive.
  set (entity_type := SharedContextEntityType.value (cf_entity_type c)).
  destruct (_is_per_user_scoped_conflict entity_type a b); cbn [negb andb];
    [edestruct (ignore_per_user_ok c) as (s' & result & -> & ? & ?); [done|]; by split_and!|].
  destruct (7 <? recency_days a b)%Z; cbn [orb].
  - destruct (m_created_at b <? m_created_at a)%Z;
      (edestruct (weight_fails c) as (s' & -> & ? & ? & ?); [done|]; split_and!; eauto).
  - destruct ((1 # 5) <?q confidence_diff a b).
    + destruct (m_confidence_score b <?q m_confidence_score a);
        (edestruct (weight_fails c) as (s' & -> & ? & ? & ?); [done|]; split_and!; eauto).
    + destruct (classify_resolution_path entity_type a b domain_schema).
      * edestruct (queue_clarification_ok c) as (s' & result & -> & ? & ?); [done|]. by split_and!.
      * edestruct (route_to_tenant_ok c) as (s' & result & -> & ? & ?); [done|]. by split_and!.
Qed.
(** C37: The automatic resolution of a conflict between users changes nothing but
    that conflict's verdict and the queue of clarifications: memories, ledger,
    signals and webhooks stay.  Unless one memory outweighs the other it settles
    the conflict: the row carries the verdict and evidence it returns, it is
    left pending exactly when it needs attention, a clarification is queued
    exactly when the verdict says so, and it is never marked resolved.  When one
    memory does outweigh the other (the absolute whole days between the first and
    the second exceed seven, the days being rounded down before the sign is
    dropped, or it is over 0.20 more confident) it always fails, with the
    evidence of an update on a conflict whose status is what it was. *)
Theorem cross_user_resolution_outcomes (c : CrossUserConflict) (s : Store)
    (Hc : conflicts s !! cf_id c = Some c) :
  let entity_type := SharedContextEntityType.value (cf_entity_type c) in
  let outweighs := match conflict_memories s c with
                   | Some (a, b) => decisive entity_type a b | None => false end in
  let (s', r) := resolve_cross_user_conflict_automatically now (cf_id c) domain_schema c s in
  verdict_only c s s' /\
  match r with
  | inr result => outweighs = false /\ settled_verdict c result s s'
  | inl e => outweighs = true /\ e = UnexpectedKeyword /\ clarifications s' = clarifications s /\
      exists evidence, conflicts s' !! cf_id c = Some (c <| cf_decision_evidence := evidence |>)
        /\ jget "action" evidence = Some (JStr "UPDATE")
  end.
Proof. by apply resolution_outcomes. Qed.
End Outcome.

(** ** Recording the shared context *)

(** What identifies a disagreement: the tenant, the two memories in any order
    and the entity type. *)
Definition pair_key (c : CrossUserConflict) : option (uuid * conflict_key) :=
  a ← cf_user_a_memory_id c; b ← cf_user_b_memory_id c;
  Some (cf_tenant_id c, key_of a b (cf_entity_type c)).

Record shared_ok (s : Store) : Prop := {
  so_ids i c : conflicts s !! i = Some c -> cf_id c = i /\ (i < supply (life s))%Z;
  (** a disagreement is recorded once *)
  so_once i j a b : conflicts s !! i = Some a -> conflicts s !! j = Some b ->
    is_Some (pair_key a) -> pair_key a = pair_key b -> i = j;
  (** fresh ids are not the ids of memories *)
  so_members i c m : conflicts s !! i = Some c ->
    cf_user_a_memory_id c = Some m \/ cf_user_b_memory_id c = Some m -> (m < supply (life s))%Z;
  so_sources g m : g ∈ signals s -> sg_source_memory_id g = Some m -> (m < supply (life s))%Z;
}.

Lemma key_of_sym a b e : key_of a b e = key_of b a e.
Proof. unfold key_of. by rewrite Z.min_comm, Z.max_comm. Qed.

(** The candidates: one per key, for every disagreement with a source. *)
Lemma conflict_candidates_keys n found acc :
  NoDup acc.*1 ->
  let found_keys := omap (fun c => (fun source => key_of source n (sg_entity_type (sc_conflicting_signal c)))
                                  <$> sg_source_memory_id (sc_conflicting_signal c)) found in
  NoDup (conflict_candidates n found acc).*1
  /\ (forall k, k ∈ (conflict_candidates n found acc).*1 <-> k ∈ acc.*1 \/ k ∈ found_keys).
Proof.
  cbv zeta. revert acc. induction found as [|c found IH]; intros acc Hnd; [simpl; split; [done|set_solver]|].
  cbn [conflict_candidates]. cbn [omap list_omap].
  destruct (sg_source_memory_id (sc_conflicting_signal c)) as [source|]; cbn [fmap option_fmap option_map]; [|by apply IH].
  set (k0 := key_of source n _). destruct (dict_get k0 acc) as [x|] eqn:E.
  - destruct (IH acc Hnd) as [? Hk]. split; [done|]. intros k. rewrite Hk, elem_of_cons.
    assert (k0 ∈ acc.*1) by (apply dict_get_is_Some; eauto). naive_solver.
  - assert (k0 ∉ acc.*1) as Hnew by (rewrite <- dict_get_is_Some, E; by intros []).
    destruct (IH (acc ++ [(k0, c)])) as [? Hk].
    { rewrite fmap_app. apply NoDup_app. split_and!; [done| |apply NoDup_singleton]. set_solver. }
    split; [done|]. intros k. rewrite Hk, fmap_app, elem_of_app, elem_of_cons. simpl. set_solver.
Qed.

Definition well_keyed (n b : uuid) (kc : conflict_key * SharedContextConflict) : Prop :=
  exists source, sg_source_memory_id (sc_conflicting_signal kc.2) = Some source
    /\ kc.1 = key_of source n (sg_entity_type (sc_conflicting_signal kc.2)) /\ (source < b)%Z.

(** The sources of the signals a conflict was found with. *)
Definition sources_below (b : uuid) (found : list SharedContextConflict) : Prop :=
  forall c source, c ∈ found -> sg_source_memory_id (sc_conflicting_signal c) = Some source -> (source < b)%Z.

Lemma conflict_candidates_well_keyed n b found acc :
  sources_below b found -> Forall (well_keyed n b) acc ->
  Forall (well_keyed n b) (conflict_candidates n found acc).
Proof.
  intros Hb. assert (forall c, c ∈ found -> c ∈ found) as Hin by done. revert Hin.
  generalize found at 1 3 as l. intros l. revert acc.
  induction l as [|c l IH]; intros acc Hin Hacc; [done|]. cbn [conflict_candidates].
  apply IH; [intros c' Hc'; apply Hin; by right|].
  destruct (sg_source_memory_id (sc_conflicting_signal c)) as [source|] eqn:E; [|done].
  destruct (dict_get _ acc); [done|]. apply Forall_app. split; [done|]. constructor; [|done].
  exists source. split_and!; [done|done|]. eapply Hb; [apply Hin; by left|done].
Qed.

(** Two sessions that differ in the conflict rows and fresh ids only. *)
Record rows_only (s s' : Store) : Prop := {
  ro_life : life s' = (life s) <| supply := supply (life s') |>;
  ro_supply : (supply (life s) <= supply (life s'))%Z;
  ro_signals : signals s' = signals s;
  ro_clarifications : clarifications s' = clarifications s;
  ro_webhooks : webhooks s' = webhooks s;
  ro_audits : audits s' = audits s;
  ro_flagged : flagged s' = flagged s;
  ro_kept i c : conflicts s !! i = Some c -> conflicts s' !! i = Some c;
}.

Lemma rows_only_refl s : rows_only s s.
Proof. constructor; try done. by destruct (life s). Qed.

Lemma rows_only_trans s1 s2 s3 : rows_only s1 s2 -> rows_only s2 s3 -> rows_only s1 s3.
Proof.
  intros [L1 ? ? ? ? ? ? ?] [L2 ? ? ? ? ? ? ?]. constructor; try congruence; try lia; auto.
  rewrite L2. rewrite L1 at 1. by destruct (life s1).
Qed.

(** The tenant has no row of this key. *)
Definition unrecorded (tenant : uuid) (k : conflict_key) (s : Store) : Prop :=
  forall i c, conflicts s !! i = Some c -> pair_key c <> Some (tenant, k).

Section Insertion.
Variables (tenant n bound : uuid) (existing : list conflict_key).

Definition new_row (s : Store) (conflict : SharedContextConflict) : CrossUserConflict :=
  build_cross_user_conflict_row (supply (life s)) tenant (sg_source_memory_id (sc_conflicting_signal conflict))
    n conflict.

Definition with_row (s : Store) (conflict : SharedContextConflict) : Store :=
  s <| life ::= (fun l => l <| supply ::= Z.add 1 |>) |>
    <| conflicts ::= insert (supply (life s)) (new_row s conflict) |>.

Lemma new_row_key s kc : well_keyed n bound kc -> pair_key (new_row s kc.2) = Some (tenant, kc.1).
Proof. intros (source & E & -> & _). unfold pair_key, new_row. cbn. by rewrite E. Qed.

Lemma supply_fresh s : shared_ok s -> conflicts s !! supply (life s) = None.
Proof.
  intros Hok. destruct (conflicts s !! supply (life s)) as [c|] eqn:E; [|done].
  apply (so_ids s Hok) in E. lia.
Qed.

Lemma with_row_ok s kc :
  shared_ok s -> (n < bound <= supply (life s))%Z -> well_keyed n bound kc -> unrecorded tenant kc.1 s ->
  shared_ok (with_row s kc.2) /\ rows_only s (with_row s kc.2)
  /\ conflicts (with_row s kc.2) !! supply (life s) = Some (new_row s kc.2).
Proof.
  intros Hok Hb Hkc Hun. pose proof (supply_fresh s Hok) as Hfresh. pose proof (new_row_key s kc Hkc) as Hkey.
  split; [|split; [|apply lookup_insert_eq]].
  - constructor; cbn.
    + intros i c Hi. apply lookup_insert_Some in Hi as [[<- <-]|[Hne Hi]]; cbn; [split; [done|lia]|].
      apply (so_ids s Hok) in Hi as [? ?]. split; [done|lia].
    + intros i j a b Hi Hj. apply lookup_insert_Some in Hi as [[<- <-]|[? Hi]];
        apply lookup_insert_Some in Hj as [[<- <-]|[? Hj]]; try done.
      * rewrite Hkey. intros _ E. exfalso. by eapply Hun.
      * rewrite Hkey. intros _ E. exfalso. by eapply Hun.
      * by eapply so_once.
    + intros i c m Hi. apply lookup_insert_Some in Hi as [[<- <-]|[_ Hi]].
      * cbn. destruct Hkc as (source & -> & _ & ?). intros [[= ->]|[= ->]]; lia.
      * intros Hm. pose proof (so_members s Hok i c m Hi Hm). lia.
    + intros g m Hg Hm. pose proof (so_sources s Hok g m Hg Hm). lia.
  - constructor; try reflexivity; cbn; [lia|].
    intros i c Hi. rewrite lookup_insert_ne; [done|]. intros <-. congruence.
Qed.

Lemma insert_rows_ok candidates s :
  shared_ok s -> (n < bound <= supply (life s))%Z -> Forall (well_keyed n bound) candidates -> NoDup candidates.*1 ->
  (forall k, k ∈ candidates.*1 -> k ∉ existing -> unrecorded tenant k s) ->
  exists s' rows, insert_rows tenant n existing candidates s = (s', inr rows)
    /\ shared_ok s' /\ rows_only s s'
    /\ NoDup ((fun r => cf_id r.1) <$> rows)
    /\ Forall (fun r => conflicts s' !! cf_id r.1 = Some r.1 /\ conflicts s !! cf_id r.1 = None) rows
    /\ (forall k, k ∈ candidates.*1 -> k ∉ existing ->
          exists i c, conflicts s' !! i = Some c /\ pair_key c = Some (tenant, k)).
Proof.
  revert s. induction candidates as [|[k conflict] candidates IH]; intros s Hok Hb Hk Hnd Hun.
  { exists s, []. split_and!; auto using rows_only_refl, NoDup_nil_2. set_solver. }
  apply Forall_cons in Hk as [Hk0 Hk]. cbn [fmap list_fmap] in Hnd. apply NoDup_cons in Hnd as [Hk0new Hnd].
  cbn [insert_rows]. case_bool_decide as Hex.
  { destruct (IH s Hok Hb Hk Hnd) as (s' & rows & -> & ? & ? & ? & ? & Hrec).
    { intros k' Hk' ?. apply Hun; [by right|done]. }
    exists s', rows. split_and!; try done. intros k' Hk' Hn. cbn in Hk'.
    apply elem_of_cons in Hk' as [->|Hk']; [done|]. by apply Hrec. }
  destruct (with_row_ok s (k, conflict) Hok Hb Hk0) as (Hok1 & Hro & Hrow).
  { apply Hun; [by left|done]. }
  cbn [snd] in Hok1, Hro, Hrow. set (s1 := with_row s conflict) in *.
  destruct (IH s1 Hok1 ltac:(subst s1; cbn; lia) Hk Hnd) as (s' & rows & E & Hok' & Hro' & Hids & Hrows & Hrec).
  { intros k' Hk' Hn i c. subst s1. cbn. intros Hi.
    apply lookup_insert_Some in Hi as [[<- <-]|[? Hi]].
    - intros Ek. assert (Some (tenant, k') = Some (tenant, k)) as [= ->]; [|done].
      rewrite <- Ek. exact (new_row_key s (k, conflict) Hk0).
    - eapply (Hun k'); [by right|done|done]. }
  exists s', ((new_row s conflict, conflict) :: rows). split.
  { change ((rows ← insert_rows tenant n existing candidates; mret ((new_row s conflict, conflict) :: rows)) s1
            = (s', inr ((new_row s conflict, conflict) :: rows))).
    by rewrite (M_bind_inr _ _ _ _ _ E). }
  assert (Forall (fun r => cf_id r.1 <> supply (life s)) rows) as Hne.
  { eapply Forall_impl; [exact Hrows|]. intros r [_ Hr] Heq. rewrite Heq in Hr. congruence. }
  split_and!; [done|by eapply rows_only_trans| | |].
  - cbn. constructor; [|done]. intros Hin. apply list_elem_of_fmap in Hin as (r & Heq & Hr).
    rewrite Forall_forall in Hne. by apply (Hne r).
  - constructor; cbn.
    + split; [by apply (ro_kept _ _ Hro')|by apply supply_fresh].
    + apply Forall_forall. intros r Hr. rewrite Forall_forall in Hrows, Hne.
      destruct (Hrows r Hr) as [? Hn]. split; [done|]. subst s1. cbn in Hn.
      by rewrite lookup_insert_ne in Hn by (specialize (Hne r Hr); congruence).
  - intros k' Hk' Hn. cbn in Hk'. apply elem_of_cons in Hk' as [->|Hk'].
    + exists (supply (life s)), (new_row s conflict). split; [by apply (ro_kept _ _ Hro')|].
      by apply (new_row_key s (k, conflict)).
    + by apply Hrec.
Qed.
End Insertion.

Lemma existing_keys_complete tenant n types s source e :
  e ∈ types -> key_of source n e ∉ existing_keys tenant n types (conflicts s) ->
  unrecorded tenant (key_of source n e) s.
Proof.
  intros He Hk i c Hi Hp. apply Hk. unfold pair_key in Hp.
  destruct (cf_user_a_memory_id c) as [a|] eqn:Ea; [|done].
  destruct (cf_user_b_memory_id c) as [b|] eqn:Eb; [|done]. cbn in Hp. injection Hp as Ht Hmin Hmax Hty.
  unfold existing_keys. apply list_elem_of_omap. exists c. split.
  - apply list_elem_of_filter. split.
    + rewrite Hty. split_and!; [done|done|]. rewrite Ea, Eb.
      assert (a = n \/ b = n) as [->| ->] by lia; auto.
    + apply list_elem_of_fmap. exists (i, c). split; [done|]. by apply elem_of_map_to_list.
  - rewrite Ea, Eb. unfold key_of. by rewrite Hmin, Hmax, Hty.
Qed.

Lemma existing_keys_sound tenant n types s k :
  k ∈ existing_keys tenant n types (conflicts s) ->
  exists i c, conflicts s !! i = Some c /\ pair_key c = Some (tenant, k).
Proof.
  unfold existing_keys. intros (c & Hc & Hk)%list_elem_of_omap.
  apply list_elem_of_filter in Hc as ((Ht & _) & Hc). apply list_elem_of_fmap in Hc as ([i c'] & -> & Hi).
  apply elem_of_map_to_list in Hi. exists i, c'. split; [done|]. simpl in *. unfold pair_key.
  destruct (cf_user_a_memory_id c'), (cf_user_b_memory_id c'); try done. cbn. congruence.
Qed.

(** The verdicts of the new rows: other rows stay, and every row keeps its key. *)
Record verdicts_only (ids : list uuid) (s s' : Store) : Prop := {
  vs_life : life s' = life s;
  vs_signals : signals s' = signals s;
  vs_audits : audits s' = audits s;
  vs_flagged : flagged s' = flagged s;
  vs_others j : j ∉ ids -> conflicts s' !! j = conflicts s !! j;
  vs_rows j c' : conflicts s' !! j = Some c' -> exists c, conflicts s !! j = Some c
    /\ cf_id c' = cf_id c /\ pair_key c' = pair_key c
    /\ cf_user_a_memory_id c' = cf_user_a_memory_id c /\ cf_user_b_memory_id c' = cf_user_b_memory_id c;
  vs_kept j c : conflicts s !! j = Some c -> exists c', conflicts s' !! j = Some c'
    /\ cf_id c' = cf_id c /\ pair_key c' = pair_key c;
}.

Lemma verdicts_only_refl ids s : verdicts_only ids s s.
Proof. constructor; eauto 10. Qed.

Lemma verdicts_only_trans ids1 ids2 s1 s2 s3 :
  verdicts_only ids1 s1 s2 -> verdicts_only ids2 s2 s3 -> verdicts_only (ids1 ++ ids2) s1 s3.
Proof.
  intros V1 V2. destruct V1 as [? ? ? ? O1 R1 K1], V2 as [? ? ? ? O2 R2 K2]. constructor; try congruence.
  - intros j Hj. rewrite elem_of_app in Hj. rewrite O2 by tauto. apply O1. tauto.
  - intros j c' Hj. destruct (R2 j c' Hj) as (c2 & Hc2 & -> & -> & -> & ->). eauto.
  - intros j c Hj. destruct (K1 j c Hj) as (c2 & Hc2 & <- & <-). eauto.
Qed.

Lemma verdict_only_pair c s s' :
  conflicts s !! cf_id c = Some c -> verdict_only c s s' -> verdicts_only [cf_id c] s s'.
Proof.
  intros Hc [Hl Hs Hw Ha Hf Ho (c1 & Hc1 & Ei & Et & Ee & Eu & Ev)]. constructor; try done.
  - intros j Hj. apply Ho. set_solver.
  - intros j c' Hj. destruct (decide (j = cf_id c)) as [->|Hne].
    + exists c. rewrite Hc1 in Hj. injection Hj as <-. split_and!; [done|done| |done|done].
      unfold pair_key. by rewrite Eu, Ev, Et, Ee.
    + rewrite Ho in Hj by done. exists c'. by split_and!.
  - intros j c' Hj. destruct (decide (j = cf_id c)) as [->|Hne].
    + exists c1. rewrite Hc in Hj. injection Hj as <-. split_and!; [done|done|].
      unfold pair_key. by rewrite Eu, Ev, Et, Ee.
    + exists c'. by rewrite Ho.
Qed.

Section Recorded.
Context `{PyLib}.
Variables (now : datetime) (outside : Outside) (domain_schema : option string) (tenant proxy : uuid).
Hypothesis Hcalm : forall statement, refuses outside statement = false.

Lemma resolve_rows_ok rows s :
  NoDup ((fun r => cf_id r.1) <$> rows) -> Forall (fun r => conflicts s !! cf_id r.1 = Some r.1) rows ->
  verdicts_only ((fun r => cf_id r.1) <$> rows) s (resolve_rows now outside domain_schema tenant proxy rows s).1.
Proof.
  revert s. induction rows as [|[row conflict] rows IH]; intros s Hnd Hrows; [apply verdicts_only_refl|].
  rewrite fmap_cons in Hnd |- *. apply NoDup_cons in Hnd as [Hnew Hnd].
  apply Forall_cons in Hrows as [Hrow Hrows]. cbn [fst] in *.
  cbn [resolve_rows]. rewrite Hcalm. cbn [refused_or]. pose proof (resolution_outcomes now domain_schema row s Hrow) as Ho. cbv zeta in Ho.
  destruct (resolve_cross_user_conflict_automatically _ _ _ _ s) as [s1 r] eqn:E.
  destruct Ho as [Hv _]. apply verdict_only_pair in Hv; [|done].
  apply (verdicts_only_trans [cf_id row] _ s s1); [done|].
  destruct r as [e|result]; [rewrite (M_bind_inl _ _ _ _ _ E); apply verdicts_only_refl|].
  rewrite (M_bind_inr _ _ _ _ _ E).
  assert (Forall (fun r => conflicts s1 !! cf_id r.1 = Some r.1) rows) as Hrows1.
  { apply Forall_forall. intros r Hr. rewrite Forall_forall in Hrows. rewrite <- (Hrows r Hr).
    apply (vs_others _ _ _ Hv). rewrite list_elem_of_singleton. intros Heq. apply Hnew.
    rewrite <- Heq. by apply (list_elem_of_fmap_2 (fun r => cf_id r.1)). }
  assert (exists l, (if ar_requires_attention result
                     then _dispatch_context_conflict_webhook outside tenant row
                            (sg_source_proxy_user_id (sc_conflicting_signal conflict)) proxy
                     else mret tt) s1 = (s1 <| webhooks := l |>, inr tt)) as (l & El).
  { unfold _dispatch_context_conflict_webhook. destruct (ar_requires_attention result), (dispatches outside);
      first [by eexists | exists (webhooks s1); by destruct s1]. }
  rewrite (M_bind_inr _ _ _ _ _ El).
  apply (verdicts_only_trans [] _ s1 (s1 <| webhooks := l |>)); [constructor; eauto 10|]. by apply IH.
Qed.

(** What the signals of one memory say. *)
Definition signals_of (x : ExtractedMemory) (memory_id : uuid) (new : list SharedContextSignal) : Prop :=
  (fun g => (sg_entity_type g, sg_entity_value g)) <$> new
    = (fun e => (se_entity_type e, se_entity_value e))
        <$> extract_shared_context_entities (x_content x) (x_category x)
  /\ Forall (fun g => sg_tenant_id g = tenant /\ sg_source_proxy_user_id g = Some proxy
              /\ sg_source_memory_id g = Some memory_id /\ sg_is_superseded g = false) new.

Lemma insert_signals_ok memory_id entities s :
  shared_ok s -> (memory_id < supply (life s))%Z ->
  exists s' new, insert_signals tenant proxy memory_id entities s = (s', inr tt)
    /\ shared_ok s' /\ signals s' = signals s ++ new
    /\ conflicts s' = conflicts s /\ audits s' = audits s /\ flagged s' = flagged s
    /\ life s' = (life s) <| supply := supply (life s') |> /\ (supply (life s) <= supply (life s'))%Z
    /\ (fun g => (sg_entity_type g, sg_entity_value g)) <$> new
       = (fun e => (se_entity_type e, se_entity_value e)) <$> entities
    /\ Forall (fun g => sg_tenant_id g = tenant /\ sg_source_proxy_user_id g = Some proxy
              /\ sg_source_memory_id g = Some memory_id /\ sg_is_superseded g = false) new.
Proof.
  revert s. induction entities as [|e entities IH]; intros s Hok Hlt.
  { exists s, []. split_and!; try done; [by rewrite app_nil_r|by destruct (life s)]. }
  set (s1 := s <| life ::= (fun l => l <| supply ::= Z.add 1 |>) |>
               <| signals ::= fun l => l ++ [signal_of tenant proxy memory_id (supply (life s)) e] |>).
  assert (shared_ok s1) as Hok1.
  { destruct Hok as [Hi Ho Hm Hg]. constructor; cbn; [|done| |].
    - intros i c Hc. apply Hi in Hc as [? ?]. split; [done|lia].
    - intros i c m Hc Hcm. specialize (Hm i c m Hc Hcm). lia.
    - intros g m Hin Hsm. apply elem_of_app in Hin as [Hin|Hin]; [specialize (Hg g m Hin Hsm); lia|].
      apply list_elem_of_singleton in Hin as ->. injection Hsm as <-. lia. }
  destruct (IH s1 Hok1 ltac:(subst s1; cbn; lia)) as (s' & new & E & ? & Es & ? & ? & ? & El & Hs & ? & ?).
  exists s', (signal_of tenant proxy memory_id (supply (life s)) e :: new).
  split_and!; try done.
  - rewrite Es. cbn. by rewrite <- app_assoc.
  - subst s1. cbn in Hs. lia.
  - cbn. by f_equal.
  - by constructor.
Qed.

Lemma life_supply_flushable s s' :
  life s' = (life s) <| supply := supply (life s') |> -> flushable (life s) -> flushable (life s').
Proof. intros ->. by apply same_core_flushable. Qed.

Lemma in_life_flush_ok s : flushable (life s) -> in_life session_flush s = (s, inr tt).
Proof. intros Hf. unfold in_life. rewrite session_flush_ok by done. by destruct s. Qed.

Lemma verdicts_only_shared_ok ids s s' : verdicts_only ids s s' -> shared_ok s -> shared_ok s'.
Proof.
  intros Hv [Hi Ho Hm Hg]. constructor.
  - intros i c Hc. destruct (vs_rows _ _ _ Hv i c Hc) as (c0 & Hc0 & Eid & _).
    rewrite (vs_life _ _ _ Hv), Eid. by apply Hi.
  - intros i j a b Ha Hb. destruct (vs_rows _ _ _ Hv i a Ha) as (a0 & Ha0 & _ & -> & _).
    destruct (vs_rows _ _ _ Hv j b Hb) as (b0 & Hb0 & _ & -> & _). by apply Ho.
  - intros i c m Hc Hcm. rewrite (vs_life _ _ _ Hv).
    destruct (vs_rows _ _ _ Hv i c Hc) as (c0 & Hc0 & _ & _ & Eu & Ev). rewrite Eu, Ev in Hcm. by eapply Hm.
  - intros g m. rewrite (vs_life _ _ _ Hv), (vs_signals _ _ _ Hv). apply Hg.
Qed.

Lemma insert_conflicts_ok found n s :
  shared_ok s -> flushable (life s) -> (n < supply (life s))%Z -> sources_below (supply (life s)) found ->
  let s' := (_insert_cross_user_conflicts now outside domain_schema found tenant n proxy s).1 in
  shared_ok s' /\ life s' = (life s) <| supply := supply (life s') |>
    /\ (supply (life s) <= supply (life s'))%Z
    /\ signals s' = signals s /\ audits s' = audits s
    /\ (forall i c, conflicts s !! i = Some c -> conflicts s' !! i = Some c)
    /\ (forall c source, c ∈ found -> sg_source_memory_id (sc_conflicting_signal c) = Some source ->
         exists i row, conflicts s' !! i = Some row
           /\ pair_key row = Some (tenant, key_of source n (sg_entity_type (sc_conflicting_signal c)))).
Proof.
  intros Hok Hf Hlt Hsrc. cbv zeta. destruct (conflict_candidates_keys n found []) as [Hnd Hkeys]; [constructor|]. cbv zeta in Hkeys.
  pose proof (conflict_candidates_well_keyed n _ found [] Hsrc ltac:(constructor)) as Hwk.
  unfold _insert_cross_user_conflicts. rewrite !Hcalm. cbn [refused_or]. set (candidates := conflict_candidates n found []) in *.
  assert (forall c source, c ∈ found -> sg_source_memory_id (sc_conflicting_signal c) = Some source ->
            key_of source n (sg_entity_type (sc_conflicting_signal c)) ∈ candidates.*1) as Hcover.
  { intros c source Hc Hs. apply Hkeys. right. apply list_elem_of_omap. exists c. by rewrite Hs. }
  destruct candidates as [|kc0 rest] eqn:Ecand.
  { unfold mret, M_ret; cbn [fst]. split_and!; try done; try (by destruct (life s)); try (cbn; lia). intros c source Hc Hs.
    pose proof (Hcover c source Hc Hs) as Hin. by apply elem_of_nil in Hin. }
  rewrite <- Ecand in *. clear kc0 rest Ecand.
  rewrite (M_bind_inr _ _ _ _ _ (in_life_flush_ok s Hf)), (M_bind_inr get_st _ s s s eq_refl).
  set (types := (fun c => c.1.2) <$> candidates). set (existing := existing_keys tenant n types (conflicts s)).
  assert (forall k, k ∈ candidates.*1 -> k ∉ existing -> unrecorded tenant k s) as Hun.
  { intros k Hk Hn. apply list_elem_of_fmap in Hk as ([k' c] & -> & Hin). rewrite Forall_forall in Hwk.
    destruct (Hwk _ Hin) as (source & _ & Ek & _). cbn in Ek, Hn |- *. rewrite Ek in Hn |- *.
    apply (existing_keys_complete tenant n types); [|done].
    subst types. apply list_elem_of_fmap. exists (k', c). split; [cbn; by rewrite Ek|done]. }
  destruct (insert_rows_ok tenant n (supply (life s)) existing candidates s Hok ltac:(lia) Hwk Hnd Hun)
    as (s1 & rows & E & Hok1 & Hro & Hids & Hrows & Hrec).
  rewrite (M_bind_inr _ _ _ _ _ E).
  assert (flushable (life s1)) as Hf1 by (eapply life_supply_flushable; [apply Hro|done]).
  assert ((match rows with [] => mret tt | _ => in_life session_flush end) s1 = (s1, inr tt)) as Efl
    by (destruct rows; [done|by apply in_life_flush_ok]).
  rewrite (M_bind_inr _ _ _ _ _ Efl).
  assert (Forall (fun r => conflicts s1 !! cf_id r.1 = Some r.1) rows) as Hrows1
    by (eapply Forall_impl; [exact Hrows|]; by intros r [? _]).
  pose proof (resolve_rows_ok rows s1 Hids Hrows1) as Hv.
  destruct (resolve_rows now outside domain_schema tenant proxy rows s1) as [s2 r] eqn:E2. cbn [fst] in Hv.
  assert (((resolve_rows now outside domain_schema tenant proxy rows;; mret (Z.of_nat (length rows)) : SM Z) s1).1 = s2) as ->
    by (unfold mbind, M_bind; rewrite E2; by destruct r).
  destruct Hro as [Hl1 ? ? ? ? ? ? Hkept]. pose proof (vs_life _ _ _ Hv) as Hl2.
  split_and!.
  - by eapply verdicts_only_shared_ok.
  - by rewrite Hl2.
  - by rewrite Hl2.
  - rewrite (vs_signals _ _ _ Hv). done.
  - rewrite (vs_audits _ _ _ Hv). done.
  - intros i c Hc. rewrite (vs_others _ _ _ Hv); [by apply Hkept|]. intros Hin.
    apply list_elem_of_fmap in Hin as (r0 & -> & Hr0). rewrite Forall_forall in Hrows.
    destruct (Hrows _ Hr0) as [_ ?]. congruence.
  - intros c source Hc Hs. specialize (Hcover c source Hc Hs).
    set (k := key_of source n _) in *. 
    assert (exists i row, conflicts s1 !! i = Some row /\ pair_key row = Some (tenant, k)) as (i & row & Hi & Hk).
    { destruct (decide (k ∈ existing)) as [Hin|Hn]; [|by apply Hrec].
      destruct (existing_keys_sound _ _ _ _ _ Hin) as (i & row & ? & ?). eauto. }
    destruct (vs_kept _ _ _ Hv i row Hi) as (row' & ? & _ & Ek). exists i, row'. split; [done|congruence].
Qed.

(** What recording the context of a memory does to the session. *)
Record context_recorded (x : ExtractedMemory) (n : uuid) (s s' : Store) : Prop := {
  cx_ok : shared_ok s';
  cx_life : life s' = (life s) <| supply := supply (life s') |>;
  cx_supply : (supply (life s) <= supply (life s'))%Z;
  cx_audits : audits s' = audits s;
  cx_signals : exists new, signals s' = signals s ++ new /\ signals_of x n new;
  cx_kept i c : conflicts s !! i = Some c -> conflicts s' !! i = Some c;
  cx_found c source : c ∈ detect_shared_context_conflict (signals s) x proxy tenant ->
    sg_source_memory_id (sc_conflicting_signal c) = Some source ->
    exists i row, conflicts s' !! i = Some row
      /\ pair_key row = Some (tenant, key_of source n (sg_entity_type (sc_conflicting_signal c)));
}.

Lemma record_shared_context_ok x n s :
  shared_ok s -> flushable (life s) -> (n < supply (life s))%Z ->
  context_recorded x n s (record_shared_context now outside domain_schema n x tenant proxy s).1.
Proof.
  intros Hok Hf Hlt. unfold record_shared_context. rewrite Hcalm. cbn [refused_or].
  set (entities := extract_shared_context_entities (x_content x) (x_category x)).
  assert ((match entities with [] => mret tt | _ => in_life session_flush end) s = (s, inr tt)) as Efl
    by (destruct entities; [done|by apply in_life_flush_ok]).
  rewrite (M_bind_inr _ _ _ _ _ Efl), (M_bind_inr get_st _ s s s eq_refl).
  set (found := detect_shared_context_conflict (signals s) x proxy tenant).
  unfold _insert_shared_context_signals. fold entities.
  destruct (insert_signals_ok n entities s Hok Hlt) as (s1 & new & E & Hok1 & Hs1 & Hc1 & Ha1 & Hf1 & Hl1 & Hle1 & Hn1 & Hn2).
  rewrite (M_bind_inr _ _ _ _ _ E).
  assert (flushable (life s1)) as Hfl1 by (by eapply life_supply_flushable).
  assert (forall s', shared_ok s' -> life s' = (life s1) <| supply := supply (life s') |> ->
    (supply (life s1) <= supply (life s'))%Z -> audits s' = audits s1 -> signals s' = signals s1 ->
    (forall i c, conflicts s1 !! i = Some c -> conflicts s' !! i = Some c) ->
    (forall c source, c ∈ found -> sg_source_memory_id (sc_conflicting_signal c) = Some source ->
         exists i row, conflicts s' !! i = Some row
           /\ pair_key row = Some (tenant, key_of source n (sg_entity_type (sc_conflicting_signal c)))) ->
    context_recorded x n s s') as Hdone.
  { intros s' Hok' Hl' Hle' Ha' Hs' Hk' Hf'. constructor; try done; try congruence; try lia.
    - rewrite Hl'. rewrite Hl1 at 1. by destruct (life s).
    - exists new. split; [congruence|by split].
    - intros i c Hi. apply Hk'. by rewrite Hc1. }
  destruct (decide (found = [])) as [Enil|Hne].
  { clearbody found. subst found. unfold mret, M_ret. cbn [fst]. apply Hdone; try done; try lia.
    - by destruct (life s1).
    - intros c source Hc. by apply elem_of_nil in Hc. }
  assert (sources_below (supply (life s1)) found) as Hsrc.
  { intros c source Hc Hsource. apply shared_conflict_elem in Hc as (entity & signal & _ & _ & Hin & _ & _ & _ & _ & _ & _ & ->).
    pose proof (so_sources s Hok signal source Hin Hsource). lia. }
  pose proof (insert_conflicts_ok found n s1 Hok1 Hfl1 ltac:(lia) Hsrc) as Hins. cbv zeta in Hins.
  destruct (_insert_cross_user_conflicts now outside domain_schema found tenant n proxy s1) as [s2 r] eqn:E2. cbn [fst] in Hins.
  destruct Hins as (Hok2 & Hl2 & Hle2 & Hs2 & Ha2 & Hk2 & Hrec2).
  assert (exists g, ((n ← _insert_cross_user_conflicts now outside domain_schema found tenant n proxy;
            modify_st (fun s => s <| flagged ::= Z.add n |>) : SM unit) s1).1 = s2 <| flagged := g |>) as [g Eg].
  { unfold mbind, M_bind. rewrite E2. destruct r; [exists (flagged s2); by destruct s2|by eexists]. }
  destruct found as [|c0 rest]; [done|]. rewrite Eg. apply Hdone; try done. by destruct Hok2.
Qed.
End Recorded.

(** ** Recording is advisory *)

Section Advisory.
Context `{PyLib}.
Variables (now : datetime) (outside : Outside) (domain_schema : option string).

(** Of the tables of a memory's storage a call changes nothing; it draws ids and
    may leave the session unusable. *)
Definition contained (s s' : Store) : Prop :=
  life s' = (life s) <| supply := supply (life s') |> <| poisoned := poisoned (life s') |> /\
  audits s' = audits s /\ pending s' = pending s.

Definition contains {A} (m : SM A) : Prop := forall s, contained s (m s).1.

Lemma contained_refl s : contained s s.
Proof. by destruct s as [[]]. Qed.

Lemma contains_bind {A B} (m : SM A) (f : A -> SM B) : contains m -> (forall a, contains (f a)) -> contains (m ≫= f).
Proof.
  intros Hm Hf s. specialize (Hm s). unfold mbind, M_bind. destruct (m s) as [s1 [e|a]]; [done|].
  specialize (Hf a s1). destruct Hm as (Hl & Ha & Hp), Hf as (Hl' & Ha' & Hp'). cbn [fst] in *.
  split_and!; [|congruence..]. rewrite Hl', Hl. by destruct (life s), (life (f a s1).1).
Qed.

Lemma contains_ret {A} (a : A) : contains (mret a).
Proof. intros s. apply contained_refl. Qed.
Lemma contains_raise {A} e : contains (raise_st e : SM A).
Proof. intros s. apply contained_refl. Qed.
Lemma contains_get : contains get_st.
Proof. intros s. apply contained_refl. Qed.
Lemma contains_modify f : (forall s, contained s (f s)) -> contains (modify_st f).
Proof. done. Qed.
Lemma contains_new_id : contains new_id.
Proof. intros [[]]. done. Qed.
Lemma contains_flush : contains (in_life session_flush).
Proof.
  intros [[L d q n h []]]; [done|]. unfold in_life, session_flush. cbn. by destruct (flush L) as [? [|]].
Qed.
Lemma contains_refused {A} b (m : SM A) : contains m -> contains (refused_or b m).
Proof. intros Hm. destruct b; [|done]. by intros [[]]. Qed.
#[local] Hint Resolve @contains_ret @contains_raise contains_get contains_new_id contains_flush : contains.

Ltac contain :=
  repeat match goal with
    | |- contains (_ ≫= _) => apply contains_bind; [|intros ?]
    | |- contains (refused_or _ _) => apply contains_refused
    | |- contains (modify_st _) => apply contains_modify; by intros [[]]
    | |- contains (set_conflict _ _) => apply contains_modify; by intros [[]]
    | |- contains (if ?b then _ else _) => destruct b
    | |- contains (match ?x with _ => _ end) => destruct x
    | |- contains (let _ := _ in _) => cbv zeta
    | |- _ => by eauto with contains
    end.

Lemma contains_weight conflict winner loser strategy action reason evidence :
  contains (weight now conflict winner loser strategy action reason evidence).
Proof.
  unfold weight, _attach_cross_user_decision_evidence, _mark_conflict_auto_resolved.
  change (call_weight_down loser winner reason ["decision_evidence"]) with (raise_st UnexpectedKeyword : SM unit).
  contain.
Qed.

Lemma contains_automatic conflict c :
  contains (resolve_cross_user_conflict_automatically now conflict domain_schema c).
Proof.
  unfold resolve_cross_user_conflict_automatically, resolve_between, ignore_per_user, queue_clarification, left_pending,
    _queue_user_session_clarification, _attach_cross_user_decision_evidence.
  pose proof contains_weight. contain.
Qed.
#[local] Hint Resolve contains_automatic : contains.

Lemma contains_rows tenant proxy rows : contains (resolve_rows now outside domain_schema tenant proxy rows).
Proof.
  induction rows as [|[row c] rows IH]; cbn [resolve_rows]; [by contain|].
  unfold _dispatch_context_conflict_webhook. contain.
Qed.

Lemma contains_insert_rows tenant n existing candidates : contains (insert_rows tenant n existing candidates).
Proof. induction candidates as [|[k c] candidates IH]; cbn [insert_rows]; contain. Qed.

Lemma contains_signals tenant proxy n entities : contains (insert_signals tenant proxy n entities).
Proof. induction entities as [|x entities IH]; cbn [insert_signals]; contain. Qed.
#[local] Hint Resolve contains_rows contains_insert_rows contains_signals : contains.

Lemma contains_record x n tenant proxy : contains (record_shared_context now outside domain_schema n x tenant proxy).
Proof. unfold record_shared_context, _insert_shared_context_signals, _insert_cross_user_conflicts. contain. Qed.

(** C28: Recording the shared context of a stored memory is advisory: however it
    goes inside — also when it raises, and when the database refuses one of its
    statements — the ledger, memories, versions, outbox,
    audit trail and withheld candidates are as before; only fresh ids are used.
    When the session is healthy and can be flushed, and the database refuses no
    statement of the recording, the session stays healthy as well, each shared
    entity of the memory becomes one signal of its owner, every disagreement
    found with a signal that names its memory has exactly one row, however
    often and in whichever order the two memories meet, and rows that existed
    are untouched.  (A refused statement is dropped too, but leaves the session
    unusable: [refused_signal_blocks_the_storage].) *)
Theorem shared_context_is_advisory (x : ExtractedMemory) (n tenant proxy : uuid) (s : Store) :
  let s' := (_record_shared_context_for_stored_memory now outside domain_schema n x (Some tenant) (Some proxy) s).1 in
  contained s s' /\
  (shared_ok s -> flushable (life s) -> (n < supply (life s))%Z ->
   (forall statement, refuses outside statement = false) ->
   life s' = (life s) <| supply := supply (life s') |> /\
   (exists new, signals s' = signals s ++ new /\ signals_of tenant proxy x n new) /\
   (forall i c, conflicts s !! i = Some c -> conflicts s' !! i = Some c) /\
   shared_ok s' /\
   (forall c source, c ∈ detect_shared_context_conflict (signals s) x proxy tenant ->
      sg_source_memory_id (sc_conflicting_signal c) = Some source ->
      exists! i, exists row, conflicts s' !! i = Some row
        /\ pair_key row = Some (tenant, key_of source n (sg_entity_type (sc_conflicting_signal c))))).
Proof.
  cbv zeta. split; [exact (contains_record x n tenant proxy s)|]. intros Hok Hf Hn Hcalm.
  destruct (record_shared_context_ok now outside domain_schema tenant proxy Hcalm x n s Hok Hf Hn)
    as [Hok' Hl _ Ha Hs Hk Hfound].
  cbn [_record_shared_context_for_stored_memory fst]. split_and!; try done.
  intros c source Hc Hsrc. destruct (Hfound c source Hc Hsrc) as (i & row & Hi & Ekey).
  exists i. split; [by exists row|]. intros j (row' & Hj & Ekey').
  eapply (so_once _ Hok'); [exact Hi|exact Hj| |congruence]. by rewrite Ekey.
Qed.
End Advisory.

(** ** Witnesses *)

Section CrossUserExamples.
#[local] Existing Instance example_pylib.

Definition team_memory (id user : uuid) (content : string) (created_at : datetime) : Memory :=
  {| m_id := id; m_user_id := user; m_proxy_user_id := user; m_agent_id := None; m_content := content;
     m_category := MemoryCategory.fact; m_importance_score := 5; m_confidence_score := 9 # 10;
     m_embedding_model_id := "e"; m_created_at := created_at; m_updated_at := created_at;
     m_last_accessed_at := None; m_access_count := 0; m_expires_at := None; m_effective_from := None;
     m_effective_until := None; m_previous_version_id := None; m_source_event_id := None;
     m_metadata_json := []; m_is_archived := false |}.

Definition team_signal : SharedContextSignal :=
  {| sg_id := 20; sg_tenant_id := 1; sg_entity_type := SharedContextEntityType.tech_stack;
     sg_entity_value := "django"; sg_source_proxy_user_id := Some 1%Z; sg_source_memory_id := Some 7%Z;
     sg_confidence := 85 # 100; sg_is_superseded := false |}.

(** Two users of one tenant: memory 7 is ten days older than memory 8. *)
Definition team_store : Store :=
  {| life := {| ledger := {| claims := ∅; revisions := ∅ |};
                db := {| db_memories := {[7%Z := team_memory 7 1 "Our team runs django" 0;
                                          8%Z := team_memory 8 2 "Our team runs flask" (10 * DAY)]};
                         db_proxy_users := ∅; db_versions := ∅ |};
                queue := ∅; supply := 1000; hot_tier := ∅; poisoned := false |};
     conflicts := ∅;
     signals := [team_signal];
     clarifications := []; webhooks := []; audits := []; pending := []; flagged := 0; clarified := 0 |}.

Definition team_claim : ExtractedMemory :=
  {| x_content := "Our team runs flask"; x_category := "fact"; x_importance_score := 5; x_confidence := 9 # 10;
     x_expiry := "permanent"; x_reasoning := "stated"; x_validated_evidence := [] |}.

Definition team_conflict : CrossUserConflict :=
  build_cross_user_conflict_row 30 1 (Some 7%Z) 8
    {| sc_new_memory := team_claim; sc_conflicting_signal := team_signal;
       sc_conflict_entity := "tech_stack"; sc_entity_value_a := "django"; sc_entity_value_b := "flask";
       sc_description := "Another user says django; this user says flask" |}.

Lemma team_store_ok : shared_ok team_store.
Proof.
  constructor; [intros i c Hc|intros i j a b Hc|intros i c m Hc|];
    try (cbn [conflicts team_store] in Hc; by rewrite lookup_empty in Hc).
  intros g m Hg Hm. apply list_elem_of_singleton in Hg as ->. by injection Hm as <-.
Qed.

Lemma team_store_flushable : flushable (life team_store).
Proof. split_and!; [done|vm_compute; constructor|vm_compute; constructor]. Qed.

(** The newer claim never outweighs the older one: the conflict fails to settle. *)
Lemma cross_user_resolution_outcomes_witness :
  let s := team_store <| conflicts := {[30%Z := team_conflict]} |> in
  conflicts s !! cf_id team_conflict = Some team_conflict /\
  (resolve_cross_user_conflict_automatically (10 * DAY)%Z 30 None team_conflict s).2 = inl UnexpectedKeyword.
Proof.
  cbv zeta. set (s := team_store <| conflicts := {[30%Z := team_conflict]} |>).
  assert (conflicts s !! cf_id team_conflict = Some team_conflict) as Hc by (vm_compute; reflexivity).
  split; [exact Hc|].
  pose proof (cross_user_resolution_outcomes (10 * DAY)%Z None team_conflict s Hc) as H. cbv zeta in H.
  change (cf_id team_conflict) with 30%Z in H.
  destruct (resolve_cross_user_conflict_automatically (10 * DAY) 30 None team_conflict s) as [s' r].
  destruct H as [_ H]. destruct r as [e|result]; [by destruct H as (_ & -> & _)|].
  destruct H as [H _]. vm_compute in H. discriminate H.
Defined.

(** Nothing is refused, or only the query for signals. *)
Definition calm : Outside := {| dispatches := true; refuses _ := false |}.
Definition refusing_signals : Outside :=
  {| dispatches := true; refuses statement := match statement with ReadSignals _ => true | _ => false end |}.

Lemma shared_context_is_advisory_witness :
  detect_shared_context_conflict (signals team_store) team_claim 2 1 <> [] /\
  let s' := (_record_shared_context_for_stored_memory (10 * DAY)%Z calm None 8 team_claim (Some 1%Z) (Some 2%Z)
               team_store).1 in
  contained team_store s' /\ life s' = (life team_store) <| supply := supply (life s') |>.
Proof.
  split; [vm_compute; discriminate|].
  destruct (shared_context_is_advisory (10 * DAY)%Z calm None team_claim 8 1 2 team_store) as [Hc Hall].
  split; [exact Hc|]. apply Hall; [exact team_store_ok|exact team_store_flushable|done|done].
Defined.

(** The exception of a refused statement is swallowed, but the session is not
    rolled back: the next flush, that of the commit, raises. *)
Example refused_signal_blocks_the_storage :
  let (s', r) := _record_shared_context_for_stored_memory (10 * DAY)%Z refusing_signals None 8 team_claim (Some 1%Z)
                   (Some 2%Z) team_store in
  r = inr tt /\ (in_life session_flush s').2 = inl (SessionFailed PendingRollback).
Proof. vm_compute. done. Qed.

(** What is left behind: the conflict is pending with the evidence of an update,
    needs no attention, is not counted, and nobody is told. *)
Example unsettled_conflict_stays_unseen :
  let s := (_record_shared_context_for_stored_memory (10 * DAY)%Z calm None 8 team_claim (Some 1%Z) (Some 2%Z)
              team_store).1 in
  (fun c => (cf_status c, cf_auto_resolution c, cf_requires_attention c, jget "action" (cf_decision_evidence c)))
    <$> (snd <$> map_to_list (conflicts s))
  = [(CrossUserConflictStatus.pending, None, false, Some (JStr "UPDATE"))]
  /\ flagged s = 0%Z /\ webhooks s = [] /\ clarifications s = [].
Proof. vm_compute. by split_and!. Qed.
End CrossUserExamples.
