(* ===== verification/ResolverDecisions.v ===== *)
(** * How the resolver decides

    The decisions of [ConflictResolver] in [api/services/conflict_resolver.py]
    about a new memory and a stored one it may contradict: what the authority of
    the two sources decides, what their dates decide, what a classifier's reply
    is taken to mean, and the order in which these are asked.  The classifier is
    a language model; its reply is an input.  Claims with verified source spans
    take another route and are not covered here. *)

From S2P Require Export CrossUser.

Module Action.
Inductive t := UPDATE | MERGE | KEEP_BOTH | REJECT | CLARIFY.
#[global] Instance eq_dec : EqDecision t.
Proof. solve_decision. Defined.
Definition value (a : t) : string :=
  match a with
  | UPDATE => "UPDATE" | MERGE => "MERGE" | KEEP_BOTH => "KEEP_BOTH" | REJECT => "REJECT" | CLARIFY => "CLARIFY"
  end.
(** [if action not in {...}: raise ValueError] *)
Definition of_value (s : string) : option t :=
  find (fun a => bool_decide (value a = s)) [UPDATE; MERGE; KEEP_BOTH; REJECT; CLARIFY].
End Action.

Record ConflictDecision := {
  d_action : Action.t;
  d_reasoning : string;
  d_merged_memory : option ExtractedMemory;
  d_clarification_option_memory : option ExtractedMemory;
  d_decision_evidence : option obj;
}.

Definition decision (action : Action.t) (reasoning : string) (evidence : obj) : ConflictDecision :=
  {| d_action := action; d_reasoning := reasoning; d_merged_memory := None;
     d_clarification_option_memory := None; d_decision_evidence := Some evidence |}.

Definition conflict_type_value (c : ConflictType) : string :=
  match c with
  | PREFERENCE_CHANGE => "preference_change" | FACT_UPDATE => "fact_update"
  | SKILL_PROGRESSION => "skill_progression" | NEGATION => "negation" | NUMERIC_UPDATE => "numeric_update"
  | TEMPORAL_SHIFT => "temporal_shift" | UNKNOWN => "unknown"
  end.

Definition strategy_value (s : strategy) : string :=
  match s with semantic => "semantic" | entity => "entity" | topic_overlap => "topic_overlap"
            | verified_source_relation => "verified_source_relation" end.

(** ** Authority and time *)

Section Decisions.
Context `{PyLib}.

Definition _authority_rules (provenance : obj) : option obj :=
  dict_or_empty (jget_or_null "authority_rules" provenance).

Definition _has_explicit_authority_rules (provenance : obj) (category : string) : option bool :=
  rules ← _authority_rules provenance;
  category_rules ← dict_or_empty (jget_or_null "categories" rules);
  Some (bool_decide (is_Some (jget category category_rules))
        || bool_decide (is_Some (jget "default_priority" rules))).

Definition _authority_priority (provenance : obj) (category : string) : option Z :=
  rules ← _authority_rules provenance;
  category_rules ← dict_or_empty (jget_or_null "categories" rules);
  let raw_priority := match jget category category_rules with
                      | Some v => v
                      | None => default (JInt 50) (jget "default_priority" rules)
                      end in
  Some (match py_int raw_priority with Some p => clamp 0 100 p | None => 50%Z end).

Definition _source_identity (provenance : obj) : option string :=
  let raw_identity := json_or (jget_or_null "writer_id" provenance) (jget_or_null "service" provenance) in
  if truthy raw_identity then Some (py_str str_other raw_identity) else None.

Definition _provenance_observed_at (provenance : obj) : option datetime :=
  let raw_value := jget_or_null "observed_at" provenance in
  if truthy raw_value then fst <$> fromisoformat (replace_Z (py_str str_other raw_value)) else None.

(** [dict(dict(memory.metadata_json or {}).get("provenance") or {})] *)
Definition stored_provenance (memory : Memory) : option obj :=
  dict_or_empty (jget_or_null "provenance" (m_metadata_json memory)).

Definition authority_details (incoming existing : Z) : obj :=
  [("incoming_authority", JInt incoming); ("existing_authority", JInt existing)].

Definition incoming_authority_wins (incoming existing : Z) : ConflictDecision :=
  decision Action.UPDATE
    ("Incoming writer authority " +:+ py_str_Z incoming +:+ " exceeds stored writer authority "
     +:+ py_str_Z existing +:+ ".")
    (automatic_evidence "UPDATE" ["higher_authority_source"; "incoming_source_wins"]
       "Incoming source has higher authority for this memory category." (Some 1%Q) (Some "incoming")
       (authority_details incoming existing)).

Definition quarantined_assertion (incoming existing : Z) : ConflictDecision :=
  decision Action.CLARIFY "A lower-authority client assertion contradicts trusted stored evidence."
    (review_evidence "TENANT_REVIEW"
       ["lower_authority_contradiction"; "stored_source_remains_active"; "human_review_required"]
       "MemoryOS kept the trusted memory active and quarantined the client assertion for review."
       (authority_details incoming existing)).

Definition stored_authority_wins (incoming existing : Z) : ConflictDecision :=
  decision Action.REJECT
    ("Stored writer authority " +:+ py_str_Z existing +:+ " exceeds incoming writer authority "
     +:+ py_str_Z incoming +:+ ".")
    (automatic_evidence "REJECT" ["higher_authority_source"; "stored_source_wins"]
       "Stored source has higher authority for this memory category." (Some 1%Q) (Some "stored")
       (authority_details incoming existing)).

Definition older_event (incoming existing : datetime) : ConflictDecision :=
  decision Action.REJECT
    ("Incoming event observed at " +:+ isoformat incoming +:+ " is older than stored evidence observed at "
     +:+ isoformat existing +:+ ".")
    (automatic_evidence "REJECT" ["older_source_event"; "recency_safe_to_apply"]
       "Incoming evidence is older than the currently stored source event." (Some 1%Q) (Some "stored")
       [("incoming_observed_at", JStr (isoformat incoming)); ("existing_observed_at", JStr (isoformat existing))]).

(** [incoming_identity == existing_identity or not incoming_identity or not existing_identity] *)
Definition same_or_legacy_source (incoming existing : option string) : bool :=
  bool_decide (incoming = existing) || negb (text_given incoming) || negb (text_given existing).

(** The outer [None] is the [TypeError] of a provenance that is no mapping. *)
Definition _authority_conflict_decision (incoming_provenance : obj) (new_memory : ExtractedMemory)
    (existing_memory : Memory) : option (option ConflictDecision) :=
  let existing_category := MemoryCategory.value (m_category existing_memory) in
  existing_provenance ← stored_provenance existing_memory;
  incoming_priority ← _authority_priority incoming_provenance (x_category new_memory);
  existing_priority ← _authority_priority existing_provenance existing_category;
  incoming_has_authority ← _has_explicit_authority_rules incoming_provenance (x_category new_memory);
  existing_has_authority ← _has_explicit_authority_rules existing_provenance existing_category;
  Some
    (if incoming_has_authority && existing_has_authority && (existing_priority <? incoming_priority)%Z
     then Some (incoming_authority_wins incoming_priority existing_priority)
     else if incoming_has_authority && existing_has_authority && (incoming_priority <? existing_priority)%Z
     then Some (if bool_decide (jget "attestation" incoming_provenance = Some (JStr "client_asserted"))
                then quarantined_assertion incoming_priority existing_priority
                else stored_authority_wins incoming_priority existing_priority)
     else
       match _provenance_observed_at incoming_provenance, _provenance_observed_at existing_provenance with
       | Some incoming_observed_at, Some existing_observed_at =>
           if same_or_legacy_source (_source_identity incoming_provenance) (_source_identity existing_provenance)
              && (incoming_observed_at <? existing_observed_at)%Z
           then Some (older_event incoming_observed_at existing_observed_at) else None
       | _, _ => None
       end).

Definition _is_equal_authority_cross_writer_conflict (incoming : obj) (new_memory : ExtractedMemory)
    (existing_memory : Memory) : option bool :=
  let existing_category := MemoryCategory.value (m_category existing_memory) in
  existing ← stored_provenance existing_memory;
  let incoming_writer := jget_or_null "writer_id" incoming in
  let existing_writer := jget_or_null "writer_id" existing in
  if negb (truthy incoming_writer) || negb (truthy existing_writer)
     || bool_decide (py_str str_other incoming_writer = py_str str_other existing_writer) then Some false
  else if bool_decide (py_lower (py_strip (x_content new_memory)) = py_lower (py_strip (m_content existing_memory)))
  then Some false
  else
    incoming_rules ← _has_explicit_authority_rules incoming (x_category new_memory);
    existing_rules ← (if incoming_rules then _has_explicit_authority_rules existing existing_category
                      else Some false);
    if incoming_rules && existing_rules then
      incoming_priority ← _authority_priority incoming (x_category new_memory);
      existing_priority ← _authority_priority existing existing_category;
      Some (incoming_priority =? existing_priority)%Z
    else Some false.

(** [\b(?:19|20)\d{2}\b] *)
Definition year_pattern : regex := seqs [Bound; Alt (lit "19") (lit "20"); times 2 digit; Bound].
Definition years_in (content : string) : gset string := list_to_set (findall year_pattern content).

Definition _temporal_conflict_decision (new_memory : ExtractedMemory) (existing_memory : Memory)
    : option ConflictDecision :=
  let new_years := years_in (x_content new_memory) in
  let existing_years := years_in (m_content existing_memory) in
  if bool_decide (new_years <> ∅) && bool_decide (existing_years <> ∅)
     && bool_decide (new_years <> existing_years)
  then Some (decision Action.KEEP_BOTH
               "Temporal context differs across memories; keep both with temporal context."
               (automatic_evidence "KEEP_BOTH" ["temporal_context_differs"; "both_claims_contextually_valid"]
                  "The claims describe different time periods, so both are preserved." (Some (9 # 10)) None
                  [("incoming_years", JArr (JStr <$> sorted_set new_years));
                   ("existing_years", JArr (JStr <$> sorted_set existing_years))]))
  else None.

(** ** The classifier's reply *)

Definition CONFLICT_RELATION_TO_ACTION : list (string * Action.t) :=
  [("supersedes", Action.UPDATE); ("mergeable", Action.MERGE); ("coexists", Action.KEEP_BOTH);
   ("duplicate", Action.REJECT); ("ambiguous", Action.CLARIFY)].

Definition COMMITMENT_STATUSES : list string :=
  ["committed_current"; "tentative"; "historical_or_contextual"; "unclear"].

(** The validation of the [ExtractedMemory] model; [None] is the [ValueError]. *)
Definition extracted_memory (content category : string) (importance_score confidence : Q)
    (expiry reasoning : string) (evidence : obj) : option ExtractedMemory :=
  if negb (bool_decide (content = EmptyString)) && bool_decide (is_Some (category_of_value category))
     && (1 <=?q importance_score) && (importance_score <=?q 10) && (0 <=?q confidence) && (confidence <=?q 1)
     && bool_decide (expiry ∈ ["permanent"; "temporary"]) && negb (bool_decide (reasoning = EmptyString))
  then Some {| x_content := content; x_category := category; x_importance_score := importance_score;
               x_confidence := confidence; x_expiry := expiry; x_reasoning := reasoning;
               x_validated_evidence := evidence |}
  else None.

(** [" ".join(s.split()).strip(" .:;")] *)
Definition is_option_mark (c : ascii) : bool :=
  bool_decide (c ∈ [" "%char; "."%char; ":"%char; ";"%char]).
Definition option_text (s : string) : string :=
  drop_while_end is_option_mark (drop_while is_option_mark (py_join " " (py_split s))).

(** Drop the first of the prefixes the lowered attribute starts with. *)
Fixpoint without_prefix (prefixes : list string) (attribute : string) : string :=
  match prefixes with
  | [] => attribute
  | prefix :: prefixes =>
      if py_startswith (py_lower attribute) prefix
      then py_strip (String.substring (String.length prefix) (String.length attribute) attribute)
      else without_prefix prefixes attribute
  end.

Definition str_field (key : string) (o : obj) : option string :=
  match jget key o with Some (JStr s) => Some s | _ => None end.

(** [None] is the [ValueError]. *)
Definition _build_clarification_option_memory (payload : obj) (new_memory : ExtractedMemory)
    (existing_memory : Memory) : option ExtractedMemory :=
  if negb (bool_decide ((list_to_set payload.*1 : gset string) = {["attribute"; "value"; "category"]})) then None
  else
    raw_attribute ← str_field "attribute" payload;
    raw_value ← str_field "value" payload;
    raw_category ← str_field "category" payload;
    let attribute := option_text raw_attribute in
    let value := option_text raw_value in
    let category := py_lower (py_strip raw_category) in
    if negb (bool_decide (is_Some (category_of_value category))) then None
    else if bool_decide (attribute = EmptyString) || bool_decide (value = EmptyString)
            || (128 <? String.length attribute)%nat || (1000 <? String.length value)%nat then None
    else
      let attribute := without_prefix ["the user's "; "user's "] attribute in
      if bool_decide (attribute = EmptyString) then None
      else if negb (py_contains (py_lower value) (py_lower (x_content new_memory))) then None
      else if py_contains (py_lower value) (py_lower (m_content existing_memory)) then None
      else extracted_memory ("User's " +:+ attribute +:+ " is " +:+ value +:+ ".") category
             (x_importance_score new_memory) (x_confidence new_memory) (x_expiry new_memory)
             "Canonical current claim offered only if the user selects this clarification option."
             (x_validated_evidence new_memory).

(** The actions of clients that reply without a relation. *)
Definition _action_from_payload (payload : obj) : string :=
  match jget "archive_A" payload with
  | Some (JBool true) => "UPDATE"
  | Some (JBool false) => "KEEP_BOTH"
  | _ =>
      let action := jget_or_null "action" payload in
      if truthy action then py_upper (py_str str_other action)
      else
        let keep := py_upper (py_str str_other (default (JStr EmptyString) (jget "keep" payload))) in
        let conflict_type := py_lower (py_str str_other (default (JStr EmptyString) (jget "type" payload))) in
        if bool_decide (keep = "CLARIFY") || bool_decide (conflict_type = "uncertain") then "CLARIFY"
        else if bool_decide (keep = "B") then if bool_decide (conflict_type = "same") then "REJECT" else "UPDATE"
        else if bool_decide (keep = "A") then "REJECT"
        else if bool_decide (keep = "BOTH") then "KEEP_BOTH"
        else EmptyString
  end.

Definition _classifier_failure_decision (conflict_type : ConflictType) (reason_code : string) : ConflictDecision :=
  let reasoning := "MemoryOS could not safely determine how these memories relate, so it preserved the current memory and kept the candidate pending review." in
  decision Action.CLARIFY reasoning
    (review_evidence "USER_REVIEW" [reason_code; "safe_clarification_fallback"] reasoning
       [("classifier", JStr "llm"); ("conflict_type", JStr (conflict_type_value conflict_type))]).

Definition _classifier_decision_evidence (action : Action.t) (conflict_type : ConflictType)
    (raw_action reasoning : string) (commitment_status : option string) (requires_user_choice : option bool)
    : obj :=
  let details := [("classifier", JStr "llm"); ("raw_action", JStr raw_action);
                  ("conflict_type", JStr (conflict_type_value conflict_type));
                  ("commitment_status", opt_text commitment_status);
                  ("requires_user_choice", match requires_user_choice with
                                           | Some b => JBool b | None => JNull end)] in
  if bool_decide (action = Action.CLARIFY)
  then review_evidence "USER_REVIEW" ["ambiguous_personal_contradiction"; "clarification_requested"] reasoning
         details
  else automatic_evidence (Action.value action)
         ["semantic_conflict_classified"; "conflict_type:" +:+ conflict_type_value conflict_type;
          "decision:" +:+ py_lower (Action.value action)] reasoning None None details.

(** What the relation of a reply asks for: the action with its raw form, the
    commitment, the choice flag and the option offered. *)
Record Relation := {
  rl_action : Action.t; rl_raw_action : string; rl_commitment_status : option string;
  rl_requires_user_choice : option bool; rl_option : option ExtractedMemory;
}.

Definition structured_relation (relation : string) (payload : obj) (new_memory : ExtractedMemory)
    (existing_memory : Memory) : option Relation :=
  option_payload ← jget "clarification_option_memory" payload;
  let commitment_status := py_lower (py_strip (str_or_empty (jget_or_null "commitment_status" payload))) in
  if negb (bool_decide (commitment_status ∈ COMMITMENT_STATUSES)) then None
  else
    match jget_or_null "requires_user_choice" payload with
    | JBool requires_user_choice =>
        action ← dict_get relation CONFLICT_RELATION_TO_ACTION;
        if negb (bool_decide (relation = "duplicate"))
           && (requires_user_choice || bool_decide (commitment_status ∈ ["tentative"; "unclear"]))
        then
          match option_payload with
          | JObj o =>
              option_memory ← _build_clarification_option_memory o new_memory existing_memory;
              Some {| rl_action := Action.CLARIFY;
                      rl_raw_action := relation +:+ ":" +:+ commitment_status +:+ ":user_choice";
                      rl_commitment_status := Some commitment_status;
                      rl_requires_user_choice := Some requires_user_choice; rl_option := Some option_memory |}
          | _ => None
          end
        else Some {| rl_action := action; rl_raw_action := relation;
                     rl_commitment_status := Some commitment_status;
                     rl_requires_user_choice := Some requires_user_choice; rl_option := None |}
    | _ => None
    end.

Definition legacy_relation (payload : obj) : option Relation :=
  action ← Action.of_value (_action_from_payload payload);
  Some {| rl_action := action;
          rl_raw_action := str_or_empty (json_or (jget_or_null "action" payload) (jget_or_null "keep" payload));
          rl_commitment_status := None; rl_requires_user_choice := None; rl_option := None |}.

Definition merged_of (payload : obj) : option ExtractedMemory :=
  match jget_or_null "merged_memory" payload with
  | JObj m =>
      content ← jget "content" m; category ← jget "category" m;
      importance_score ← jget "importance_score" m ≫= py_float;
      confidence ← jget "confidence" m ≫= py_float;
      expiry ← jget "expiry" m; reasoning ← jget "reasoning" m;
      extracted_memory (py_strip (py_str str_other content)) (py_lower (py_strip (py_str str_other category)))
        importance_score confidence (py_lower (py_strip (py_str str_other expiry)))
        (py_strip (py_str str_other reasoning)) []
  | _ => None
  end.

(** The body of the [try]; [None] is any exception it catches. *)
Definition parse_reply (payload : json) (new_memory : ExtractedMemory) (existing_memory : Memory)
    (conflict_type : ConflictType) : option ConflictDecision :=
  match payload with
  | JObj payload =>
      let relation := py_lower (py_strip (str_or_empty (jget_or_null "relation" payload))) in
      rl ← (if bool_decide (relation = EmptyString) then legacy_relation payload
            else structured_relation relation payload new_memory existing_memory);
      let reasoning := py_strip (str_or_empty (json_or (jget_or_null "reasoning" payload)
                                                 (jget_or_null "reason" payload))) in
      if bool_decide (reasoning = EmptyString) then None
      else
        merged_memory ← (if bool_decide (rl_action rl = Action.MERGE) then Some <$> merged_of payload
                         else Some None);
        Some {| d_action := rl_action rl; d_reasoning := reasoning; d_merged_memory := merged_memory;
                d_clarification_option_memory := rl_option rl;
                d_decision_evidence := Some (_classifier_decision_evidence (rl_action rl) conflict_type
                  (rl_raw_action rl) reasoning (rl_commitment_status rl) (rl_requires_user_choice rl)) |}
  | _ => None
  end.

(** What the classifier call came to: no provider answered, or a text, which is
    a JSON value or no JSON at all. *)
Inductive classifier_reply := AllProvidersFailed | Replied (payload : option json).

Definition _parse_conflict_decision (payload : option json) (new_memory : ExtractedMemory)
    (existing_memory : Memory) (conflict_type : ConflictType) : ConflictDecision :=
  default (_classifier_failure_decision conflict_type "invalid_classifier_response")
    (p ← payload; parse_reply p new_memory existing_memory conflict_type).

(** The classifier is asked about the pair and its kind of conflict. *)
Variable classifier : ExtractedMemory -> Memory -> ConflictType -> classifier_reply.

Definition conflict_type_of (candidate : ConflictCandidate) : ConflictType :=
  classify_conflict_type (x_content (cc_new_memory candidate)) (m_content (cc_existing_memory candidate))
    (x_category (cc_new_memory candidate)) (cc_detected_entities candidate).

Definition _classify_conflict (candidate : ConflictCandidate) : ConflictDecision :=
  let conflict_type := conflict_type_of candidate in
  match classifier (cc_new_memory candidate) (cc_existing_memory candidate) conflict_type with
  | AllProvidersFailed => _classifier_failure_decision conflict_type "provider_unavailable"
  | Replied payload =>
      _parse_conflict_decision payload (cc_new_memory candidate) (cc_existing_memory candidate) conflict_type
  end.

(** ** The order of the questions *)

Definition governance_directive (new_memory : ExtractedMemory) : string :=
  str_or_empty (jget_or_null "governance_directive" (x_validated_evidence new_memory)).

Definition equal_authority_decision : ConflictDecision :=
  decision Action.CLARIFY
    "Registered services with equal authority reported different values for the same user."
    (review_evidence "TENANT_REVIEW"
       ["equal_authority_disagreement"; "cross_writer_conflict"; "human_review_required"]
       "Two registered services with equal authority disagree, so MemoryOS preserved both claims and routed the decision for review."
       []).

Definition uncertain_change_rejected : ConflictDecision :=
  decision Action.REJECT
    "MemoryOS could not construct a grounded canonical alternative for the uncertain change, so it preserved the current memory."
    (automatic_evidence "REJECT"
       ["uncertain_change"; "canonical_alternative_unavailable"; "safe_current_preserved"]
       "An uncertain candidate cannot become a selectable current memory unless its alternative value is grounded and canonicalized."
       None None [("scope", JStr "same_proxy_user")]).

Definition requested_clarification : ConflictDecision :=
  decision Action.CLARIFY "The user explicitly asked to choose between conflicting memories."
    (review_evidence "USER_REVIEW" ["explicit_user_clarification_request"; "matched_personal_memory_candidate"]
       "The user asked MemoryOS not to decide this matched memory contradiction automatically."
       [("scope", JStr "same_proxy_user")]).

(** A classified clarification with an option to choose, and nothing else. *)
Definition clarify_or_reject (classified : ConflictDecision) : ConflictDecision :=
  if bool_decide (d_action classified = Action.CLARIFY)
     && bool_decide (is_Some (d_clarification_option_memory classified))
  then classified else uncertain_change_rejected.

(** The decision about a candidate, and whether two writers of equal authority
    disagree; [None] is a [TypeError]. *)
Definition decide_candidate (provenance : obj) (clarification_requested : bool) (candidate : ConflictCandidate)
    : option (ConflictDecision * bool) :=
  let new_memory := cc_new_memory candidate in
  let existing_memory := cc_existing_memory candidate in
  by_authority ← _authority_conflict_decision provenance new_memory existing_memory;
  equal_authority ← _is_equal_authority_cross_writer_conflict provenance new_memory existing_memory;
  Some
    (match by_authority with
     | Some d => d
     | None =>
         if (equal_authority : bool) then equal_authority_decision
         else if bool_decide (governance_directive new_memory = "clarify_if_conflict")
         then clarify_or_reject (_classify_conflict candidate)
         else match _temporal_conflict_decision new_memory existing_memory with
              | Some d => d
              | None => if clarification_requested then requested_clarification
                        else _classify_conflict candidate
              end
     end, equal_authority).

(** The decision about the target of a verified source, whose own relation is
    [source_decision]: authority may settle a replacement, it cannot create one
    nor commit the user.  With it, the review the withheld candidate asks for. *)
Definition decide_source_candidate (provenance : obj) (source_decision : ConflictDecision) (review : option json)
    (candidate : ConflictCandidate) : option (ConflictDecision * option json * bool) :=
  let new_memory := cc_new_memory candidate in
  let existing_memory := cc_existing_memory candidate in
  if bool_decide (d_action source_decision = Action.KEEP_BOTH) || bool_decide (d_action source_decision = Action.REJECT)
  then Some (source_decision, review, false)
  else
    by_authority ← _authority_conflict_decision provenance new_memory existing_memory;
    equal_authority ← _is_equal_authority_cross_writer_conflict provenance new_memory existing_memory;
    Some
      (match by_authority with
       | Some d =>
           if bool_decide (d_action source_decision = Action.CLARIFY) && negb (bool_decide (d_action d = Action.REJECT))
           then (source_decision, review) else (d, None)
       | None =>
           if bool_decide (d_action source_decision = Action.CLARIFY) then (source_decision, review)
           else if (equal_authority : bool) then (equal_authority_decision, None)
           else (source_decision, review)
       end, equal_authority).

(** Without an owner to ask, a clarification keeps both memories. *)
Definition reachable_decision (tenant_id proxy_user_id : option uuid) (equal_authority : bool)
    (existing_memory : Memory) (d : ConflictDecision) : ConflictDecision :=
  let is_self_scoped :=
    match tenant_id, proxy_user_id with
    | Some _, Some p => bool_decide (m_proxy_user_id existing_memory = p)
    | _, _ => false
    end in
  if bool_decide (d_action d = Action.CLARIFY) && negb (equal_authority || is_self_scoped)
  then {| d_action := Action.KEEP_BOTH; d_reasoning := d_reasoning d; d_merged_memory := None;
          d_clarification_option_memory := None; d_decision_evidence := d_decision_evidence d |}
  else d.

Definition _fallback_decision_evidence (d : ConflictDecision) (candidate : ConflictCandidate) : obj :=
  automatic_evidence
    (if bool_decide (d_action d = Action.CLARIFY) then "TENANT_REVIEW" else Action.value (d_action d))
    ["semantic_conflict_detected"; "conflict_type:" +:+ conflict_type_value (conflict_type_of candidate);
     "decision:" +:+ py_lower (Action.value (d_action d))] (d_reasoning d) None None
    [("detection_strategy", JStr (strategy_value (cc_detection_strategy candidate)));
     ("detected_entities", JArr (JStr <$> cc_detected_entities candidate));
     ("incoming_category", JStr (x_category (cc_new_memory candidate)));
     ("existing_memory_id", JStr (uuid_str (m_id (cc_existing_memory candidate))))].

(** [decision.decision_evidence or self._fallback_decision_evidence(...)] *)
Definition evidence_of (d : ConflictDecision) (candidate : ConflictCandidate) : obj :=
  match d_decision_evidence d with
  | Some ((_ :: _) as evidence) => evidence
  | _ => _fallback_decision_evidence d candidate
  end.

(** [_build_merged_memory] *)
Definition _build_merged_memory (existing_memory : Memory) (new_memory : ExtractedMemory)
    (merged_memory : option ExtractedMemory) : ExtractedMemory :=
  let merged := default new_memory merged_memory in
  {| x_content := x_content merged; x_category := x_category merged;
     x_importance_score := Qmin 10 (Qmax (m_importance_score existing_memory) (x_importance_score new_memory) + (1 # 2));
     x_confidence := x_confidence merged; x_expiry := x_expiry merged; x_reasoning := x_reasoning merged;
     x_validated_evidence := x_validated_evidence new_memory |}.
End Decisions.
