(* ===== verification/Resolver.v ===== *)
(** * The resolver: storing extracted memories

    [ConflictResolver.check_and_store] of [api/services/conflict_resolver.py] for
    extracted claims: candidates are nominated by the vector index and, for
    verified sources, by the rows of the source context; the detector picks those
    that may contradict, or the source classifier relates the claim to one of
    them; [ResolverDecisions] decides, and the decision is carried out over the
    database: the old memory is archived, the new one is stored, versioned,
    recorded in the claim ledger, queued for the vector store and its shared
    context recorded, or it waits for a clarification, is withheld for review, or
    is dropped.  A batch of declared preferences goes another way
    ([_store_declared_preferences]) and is outside this model.

    The embedder, the vector index and the classifier are parameters.  So is the
    relation of a verified source ([_classify_source_claim]): it may answer any
    target among the candidates, decision and review. *)

From S2P Require Export ResolverDecisions.

(** [StoredMemory] *)
Record StoredMemory := {
  sm_id : uuid; sm_user_id : uuid; sm_proxy_user_id : option uuid; sm_content : string; sm_category : string;
  sm_importance_score : Q; sm_confidence_score : Q; sm_previous_version_id : option uuid;
  sm_resolution : string;
}.

(** The rows of the user the caller has read, by id. *)
Record SourceMemoryContext := {
  sc_memories : list uuid;
  sc_complete : bool;
  sc_available : bool;
  sc_index_gaps_complete : bool;
}.

Definition MAX_SOURCE_CONTEXT_CANDIDATES : nat := 90.

(** The arguments of a call and the attributes of the resolver. *)
Record Request := {
  rq_user_id : uuid;
  rq_tenant_id : option uuid;
  rq_proxy_user_id : option uuid;
  rq_source_conversation_id : option uuid;
  rq_agent_id : option uuid;
  rq_auto_commit : bool;
  rq_clarification_requested : bool;
  rq_provenance_snapshot : obj;                 (* [] when there is none *)
  rq_default_source_conversation_id : option uuid;
  rq_default_source_event_id : option uuid;
  rq_domain_schema : option string;
  rq_source_context : option SourceMemoryContext;
}.

(** What a search of the index answers. *)
Inductive search_reply :=
  | Points (points : list (uuid * Q))
  | VectorSearchUnavailable
  | SearchRaised.

Section Resolver.
Context `{PyLib}.
Variable embedder : string -> option EmbeddingResult.
(** [search_memories], the last argument being [require_available]. *)
Variable search_memories : list Q -> Request -> bool -> search_reply.
(** The index is a [QdrantService]. *)
Variable native_index : bool.
Variable source_classifier : ExtractedMemory -> list Memory -> option uuid * ConflictDecision * option json.
(** SHA-256 of the sorted JSON text. *)
Variable snapshot_digest : json -> string.
Variable classifier : ExtractedMemory -> Memory -> ConflictType -> classifier_reply.
Variable model_collection : Memory -> option string.
Variable include_content : bool.
Variable outside : Outside.
Variables (rq : Request) (now : datetime).

Definition registered_source : bool := truthy (jget_or_null "writer_id" (rq_provenance_snapshot rq)).

(** ** Candidates *)

Definition PREFERENCE_MARKER : string := "explicit_preference_v1".

(** [preference_declaration(provenance)] is there; stored declarations validate. *)
Definition declares_preference (memory : Memory) : bool :=
  match jget_or_null "provenance" (m_metadata_json memory) with
  | JObj provenance =>
      match jget_or_null "extraction_evidence" provenance with
      | JObj evidence => negb (bool_decide (jget_or_null PREFERENCE_MARKER evidence = JNull))
      | _ => false
      end
  | _ => false
  end.

Definition _load_existing_memory (s : Store) (memory_id : uuid) : option Memory :=
  m ← stored_memories s !! memory_id;
  if declares_preference m then None else Some m.

Definition scope_of (provenance : json) : json :=
  match provenance with
  | JObj p => json_or (jget_or_null "scope" p) (JObj [])
  | _ => JObj []
  end.

Definition _source_scope_matches (memory : Memory) : bool :=
  bool_decide (json_sorted (scope_of (JObj (rq_provenance_snapshot rq)))
               = json_sorted (scope_of (jget_or_null "provenance" (m_metadata_json memory)))).

Definition _owned_active_target (s : Store) (memory : Memory) : bool :=
  if declares_preference memory then false
  else if m_is_archived memory || negb (bool_decide (m_user_id memory = rq_user_id rq)) then false
  else if negb (starts_by (m_effective_from memory) now && ends_after (m_effective_until memory) now
                && ends_after (m_expires_at memory) now) then false
  else
    match rq_proxy_user_id rq with
    | Some proxy =>
        match rq_tenant_id rq, db_proxy_users (db (life s)) !! proxy with
        | Some tenant, Some p =>
            bool_decide (m_proxy_user_id memory = proxy) && bool_decide (pu_tenant_id p = tenant)
        | _, _ => false
        end
    | None => false                     (* a memory always has an owner *)
    end.

Definition source_verified (x : ExtractedMemory) : bool :=
  bool_decide (jget "grounding_mode" (x_validated_evidence x) = Some (JStr "verified_source_spans")).
Definition governed_source (x : ExtractedMemory) : bool := source_verified x || registered_source.

Definition known (memory : Memory) (found : list Existing) : bool :=
  existsb (fun e => bool_decide (m_id (ConflictDetection.ex_memory e) = m_id memory)) found.

(** The rows of the context that may be a target, each once. *)
Fixpoint context_candidates (s : Store) (rows : list uuid) (found : list Existing) : list Existing :=
  match rows with
  | [] => found
  | i :: rows =>
      context_candidates s rows
        (match stored_memories s !! i with
         | None => found
         | Some m => if _owned_active_target s m && _source_scope_matches m && negb (known m found)
                     then found ++ [Build_Existing m 0] else found
         end)
  end.

(** The stored memories the points stand for, each once, in index order. *)
Fixpoint candidate_memories (governed : bool) (s : Store) (points : list (uuid * Q)) (found : list Existing)
    : list Existing :=
  match points with
  | [] => found
  | (memory_id, score) :: points =>
      candidate_memories governed s points
        (match _load_existing_memory s memory_id with
         | None => found
         | Some m =>
             if governed && negb (_owned_active_target s m && _source_scope_matches m) then found
             else if known m found then found
             else found ++ [Build_Existing m score]
         end)
  end.

(** ** Storing a memory *)

(** [_provenance_for_extracted_memory]; [None] is no provenance. *)
Definition _provenance_for_extracted_memory (x : ExtractedMemory) (source_conversation_id memory_id : uuid)
    : option obj :=
  let provenance :=
    match x_validated_evidence x with
    | [] => rq_provenance_snapshot rq
    | evidence =>
        jset "extraction_evidence"
          (JObj (jset "source_conversation_id" (JStr (uuid_str source_conversation_id))
                   (jset "memory_id" (JStr (uuid_str memory_id)) evidence)))
          (rq_provenance_snapshot rq)
    end in
  match provenance with [] => None | _ => Some provenance end.

Definition metadata_of (x : ExtractedMemory) (resolution : string) (decision_evidence : option obj)
    (provenance : option obj) : obj :=
  [("expiry", JStr (x_expiry x)); ("reasoning", JStr (x_reasoning x)); ("resolution", JStr resolution)]
  ++ match decision_evidence with Some ((_ :: _) as e) => [("decision_evidence", JObj e)] | _ => [] end
  ++ match provenance with Some p => [("provenance", JObj p)] | None => [] end.

Definition new_stored_memory (memory_id owner : uuid) (category : MemoryCategory.t) (x : ExtractedMemory)
    (embedding : EmbeddingResult) (previous_version_id : option uuid) (resolution : string)
    (interval : option datetime * option datetime) (decision_evidence : option obj) (provenance : option obj)
    (is_archived : bool) : Memory :=
  {| m_id := memory_id; m_user_id := rq_user_id rq; m_proxy_user_id := owner; m_agent_id := rq_agent_id rq;
     m_content := x_content x; m_category := category; m_importance_score := x_importance_score x;
     m_confidence_score := x_confidence x; m_embedding_model_id := er_model_id embedding;
     m_created_at := now; m_updated_at := now; m_last_accessed_at := None; m_access_count := 0;
     m_expires_at := None; m_effective_from := interval.1; m_effective_until := interval.2;
     m_previous_version_id := previous_version_id; m_source_event_id := rq_default_source_event_id rq;
     m_metadata_json := metadata_of x resolution decision_evidence provenance; m_is_archived := is_archived |}.

(** What an exception inside the ledger leaves of the session: a violated index
    makes it unusable. *)
Definition after_ledger (L : Ledger) (e : option ledger_exn) (l : Life) : Life :=
  let l := l <| ledger := L |> in
  match e with Some (IntegrityError _) => l <| poisoned := true |> | _ => l end.

Definition record_args (memory : Memory) (tenant proxy : uuid) (provenance : option obj) (resolution : string)
    (decision_evidence : option obj) (predecessor_memory_id : option uuid) (claim_id revision_id : uuid)
    : RecordArgs :=
  {| ra_memory := memory; ra_tenant_id := Some tenant; ra_proxy_user_id := Some proxy;
     ra_provenance := provenance; ra_declaration := None; ra_resolution := resolution;
     ra_decision_evidence := JObj <$> decision_evidence; ra_predecessor_memory_id := predecessor_memory_id;
     ra_now := now; ra_claim_id := claim_id; ra_revision_id := revision_id |}.

(** The [try] around the ledger: a registered source must be tracked, otherwise
    tracking is best effort. *)
Definition record_in_ledger (registered : bool) (a : RecordArgs) : SM unit :=
  fun s =>
    match record_memory a (ledger (life s)) with
    | (L, inr (Some _)) => (s <| life ::= after_ledger L None |>, inr tt)
    | (L, inr None) =>
        (s <| life ::= after_ledger L None |>,
         if registered then inl (RaisedValueError "registered source ledger did not record the memory")
         else inr tt)
    | (L, inl e) =>
        (s <| life ::= after_ledger L (Some e) |>, if registered then inl (LedgerRaised e) else inr tt)
    end.

Definition _record_claim_for_memory (memory : Memory) (resolution : string) (decision_evidence : option obj)
    (predecessor_memory_id : option uuid) : SM unit :=
  let provenance := match jget_or_null "provenance" (m_metadata_json memory) with
                    | JObj p => p | _ => [] end in
  let registered := truthy (jget_or_null "writer_id" provenance) in
  if registered && (bool_decide (rq_tenant_id rq = None) || bool_decide (m_source_event_id memory = None))
  then raise_st (RaisedValueError "registered source ledger requires owner and source event")
  else
    match rq_tenant_id rq with
    | None => mret tt
    | Some tenant =>
        claim_id ← new_id;
        revision_id ← new_id;
        record_in_ledger registered
          (record_args memory tenant (m_proxy_user_id memory) (Some provenance) resolution decision_evidence
             predecessor_memory_id claim_id revision_id)
    end.

Definition owner_id : SM uuid :=
  match rq_proxy_user_id rq with Some p => mret p | None => new_id end.

Definition _store_new_memory (x : ExtractedMemory) (embedding : EmbeddingResult)
    (previous_version_id : option uuid) (resolution : string) (is_archived : bool)
    (decision_evidence : option obj) : SM StoredMemory :=
  memory_id ← new_id;
  conversation ← (match rq_source_conversation_id rq, rq_default_source_conversation_id rq with
                  | Some c, _ | None, Some c => mret c
                  | None, None => new_id
                  end);
  let provenance := _provenance_for_extracted_memory x conversation memory_id in
  interval ← lift_opt (RaisedValueError "temporal validity") (temporal_validity_from_provenance provenance);
  owner ← owner_id;
  category ← lift_opt (RaisedValueError "category") (category_of_value (x_category x));
  let memory := new_stored_memory memory_id owner category x embedding previous_version_id resolution interval
                  decision_evidence provenance is_archived in
  in_life (modify_st (put_memory memory));;
  in_life session_flush;;
  in_life (asafe_record_version memory "created" "Extracted from conversation");;
  _record_claim_for_memory memory resolution decision_evidence previous_version_id;;
  (if is_archived then mret tt
   else
     row_id ← new_id;
     in_life (modify_st (fun l => l <| queue ::= enqueue_vector_upsert row_id now memory_id (er_vector embedding)
       (build_vector_payload memory
          {| pl_tenant_id := uuid_str <$> rq_tenant_id rq; pl_proxy_user_id := uuid_str <$> rq_proxy_user_id rq;
             pl_user_id := Some (uuid_str (rq_user_id rq)); pl_embedding_model_id := Some (er_model_id embedding);
             pl_qdrant_collection := er_qdrant_collection embedding;
             pl_model_collection := model_collection memory; pl_include_content := include_content |}) |>)));;
  mret {| sm_id := memory_id; sm_user_id := rq_user_id rq; sm_proxy_user_id := rq_proxy_user_id rq;
          sm_content := m_content memory; sm_category := x_category x;
          sm_importance_score := m_importance_score memory; sm_confidence_score := m_confidence_score memory;
          sm_previous_version_id := previous_version_id; sm_resolution := resolution |}.

Definition _store_new_memory_with_shared_context (x : ExtractedMemory) (embedding : EmbeddingResult)
    (previous_version_id : option uuid) (resolution : string) (is_archived record_shared_context : bool)
    (decision_evidence : option obj) : SM StoredMemory :=
  stored ← _store_new_memory x embedding previous_version_id resolution is_archived decision_evidence;
  (if record_shared_context
   then _record_shared_context_for_stored_memory now outside (rq_domain_schema rq) (sm_id stored) x
          (rq_tenant_id rq) (rq_proxy_user_id rq)
   else mret tt);;
  mret stored.

Definition _archive_memory (memory : Memory) (change_reason : string) : SM unit :=
  in_life (asafe_record_version memory "conflict_update" change_reason);;
  s ← get_st;
  row_id ← new_id;
  let memory := memory <| m_is_archived := true |> in
  let payload := build_vector_payload memory
    {| pl_tenant_id := (fun p => uuid_str (pu_tenant_id p)) <$> db_proxy_users (db (life s)) !! m_proxy_user_id memory;
       pl_proxy_user_id := Some (uuid_str (m_proxy_user_id memory));
       pl_user_id := Some (uuid_str (m_user_id memory));
       pl_embedding_model_id := Some (m_embedding_model_id memory);
       pl_qdrant_collection := model_collection memory; pl_model_collection := model_collection memory;
       pl_include_content := include_content |} in
  in_life (modify_st (fun l => l <| queue ::= enqueue_vector_archive row_id now (m_id memory)
    (jset "lifecycle_state" (JStr "superseded") (jset "is_archived" (JBool true) payload)) |>));;
  in_life (modify_st (put_memory memory)).

Definition _create_audit_log (action : AuditAction.t) (old_value new_value : json) (memory_id : option uuid)
    : SM unit :=
  modify_st (fun s => s <| audits ::= fun l => l ++
    [{| al_user_id := rq_user_id rq; al_proxy_user_id := rq_proxy_user_id rq; al_action := action;
        al_memory_id := memory_id; al_old_value := old_value; al_new_value := new_value |}] |>).

(** ** Serialised forms for the audit trail *)

Definition _serialize_extracted_memory (x : ExtractedMemory) : obj :=
  [("content", JStr (x_content x)); ("category", JStr (x_category x));
   ("importance_score", JFloat (x_importance_score x)); ("confidence", JFloat (x_confidence x));
   ("expiry", JStr (x_expiry x)); ("reasoning", JStr (x_reasoning x));
   ("validated_evidence", JObj (x_validated_evidence x))].

Definition _serialize_memory (m : Memory) : obj :=
  [("id", JStr (uuid_str (m_id m))); ("content", JStr (m_content m));
   ("category", JStr (MemoryCategory.value (m_category m)));
   ("importance_score", JFloat (m_importance_score m)); ("confidence_score", JFloat (m_confidence_score m));
   ("previous_version_id", opt_str (m_previous_version_id m)); ("is_archived", JBool (m_is_archived m))].

(** ** Clarifications *)

Definition entity_type_of_category (category : string) : SharedContextEntityType.t :=
  if bool_decide (category = "preference") then SharedContextEntityType.personal_preference
  else if bool_decide (category = "goal") then SharedContextEntityType.individual_goal
  else if bool_decide (category = "expertise") then SharedContextEntityType.personal_skill
  else SharedContextEntityType.personal_fact.

Definition pending_conflict (id tenant : uuid) (existing_memory pending_memory : Memory) (category : string)
    (status : CrossUserConflictStatus.t) (auto_resolution path : string) (requires_attention : bool)
    (evidence : obj) : CrossUserConflict :=
  {| cf_id := id; cf_tenant_id := tenant; cf_user_a_memory_id := Some (m_id existing_memory);
     cf_user_b_memory_id := Some (m_id pending_memory); cf_entity_type := entity_type_of_category category;
     cf_entity_value_a := m_content existing_memory; cf_entity_value_b := m_content pending_memory;
     cf_status := status; cf_auto_resolution := Some auto_resolution; cf_auto_resolution_at := Some now;
     cf_resolution_path := Some path; cf_requires_attention := requires_attention;
     cf_resolution_reason := None; cf_decision_evidence := evidence |}.

Definition add_conflict (conflict : CrossUserConflict) : SM unit :=
  modify_st (fun s => s <| conflicts ::= insert (cf_id conflict) conflict |>);;
  in_life session_flush.

Definition _create_equal_authority_conflict (existing_memory : Memory) (pending_memory_id : uuid)
    (category : string) : SM unit :=
  s ← get_st;
  match rq_tenant_id rq, rq_proxy_user_id rq, stored_memories s !! pending_memory_id with
  | Some tenant, Some _, Some pending_memory =>
      id ← new_id;
      add_conflict (pending_conflict id tenant existing_memory pending_memory category
        CrossUserConflictStatus.pending "equal_authority_clarification" "tenant_review" true
        (review_evidence "TENANT_REVIEW"
           ["equal_authority_disagreement"; "cross_writer_conflict"; "human_review_required"]
           "Two registered services with equal authority reported different values. MemoryOS preserved both claims and routed this conflict for review."
           [("category", JStr category)]));;
      modify_st (fun s => s <| flagged ::= Z.add 1 |>)
  | _, _, _ => mret tt
  end.

Definition _create_self_scoped_clarification (existing_memory : Memory) (pending_memory_id : uuid)
    (category reasoning : string) : SM unit :=
  s ← get_st;
  match rq_tenant_id rq, rq_proxy_user_id rq, stored_memories s !! pending_memory_id with
  | Some tenant, Some proxy, Some pending_memory =>
      if negb (bool_decide (m_proxy_user_id existing_memory = proxy)) then mret tt
      else
        id ← new_id;
        let conflict := pending_conflict id tenant existing_memory pending_memory category
          CrossUserConflictStatus.clarification_queued "self_scoped_clarification" "user_session" false
          (review_evidence "USER_REVIEW" ["ambiguous_personal_contradiction"; "clarification_queued"] reasoning
             [("category", JStr category); ("scope", JStr "same_proxy_user")]) in
        add_conflict conflict;;
        _queue_user_session_clarification conflict pending_memory
          (SharedContextEntityType.value (cf_entity_type conflict) +:+ ": " +:+ cf_entity_value_a conflict
           +:+ " vs " +:+ cf_entity_value_b conflict);;
        modify_st (fun s => s <| clarified ::= Z.add 1 |> <| flagged ::= Z.add 1 |>)
  | _, _, _ => mret tt
  end.

(** ** Carrying a decision out *)

Definition embed (content : string) : SM EmbeddingResult := lift_opt EmbedderRaised (embedder content).

Definition candidate_details (candidate : ConflictCandidate) : obj :=
  [("detection_strategy", JStr (strategy_value (cc_detection_strategy candidate)));
   ("detected_entities", JArr (JStr <$> cc_detected_entities candidate))].

Definition apply_clarify (candidate : ConflictCandidate) (embedding : EmbeddingResult) (equal_authority : bool)
    (d : ConflictDecision) : SM StoredMemory :=
  let new_memory := cc_new_memory candidate in
  let existing_memory := cc_existing_memory candidate in
  let clarification_memory := default new_memory (d_clarification_option_memory d) in
  embedding ← (if bool_decide (x_content clarification_memory = x_content new_memory) then mret embedding
               else embed (x_content clarification_memory));
  waiting ← _store_new_memory_with_shared_context clarification_memory embedding (Some (m_id existing_memory))
              "CLARIFICATION_PENDING" true false (Some (evidence_of d candidate));
  (if (equal_authority : bool)
   then _create_equal_authority_conflict existing_memory (sm_id waiting) (x_category clarification_memory)
   else _create_self_scoped_clarification existing_memory (sm_id waiting) (x_category clarification_memory)
          (d_reasoning d));;
  _create_audit_log AuditAction.memory_created (JObj (_serialize_memory existing_memory))
    (JObj [("resolution", JStr "CLARIFICATION_PENDING"); ("reasoning", JStr (d_reasoning d));
           ("pending_memory_id", JStr (uuid_str (sm_id waiting)));
           ("new_memory", JObj (_serialize_extracted_memory clarification_memory))]) (Some (sm_id waiting));;
  mret waiting.

Definition apply_update (candidate : ConflictCandidate) (embedding : EmbeddingResult) (d : ConflictDecision)
    : SM StoredMemory :=
  let new_memory := cc_new_memory candidate in
  let existing_memory := cc_existing_memory candidate in
  _archive_memory existing_memory ("Superseded by: " +:+ py_take 100 (x_content new_memory));;
  stored ← _store_new_memory_with_shared_context new_memory embedding (Some (m_id existing_memory)) "UPDATE"
             false true (Some (evidence_of d candidate));
  _create_audit_log AuditAction.updated (JObj (_serialize_memory (existing_memory <| m_is_archived := true |>)))
    (JObj ([("resolution", JStr "UPDATE"); ("reasoning", JStr (d_reasoning d))] ++ candidate_details candidate
           ++ [("new_memory", JObj (_serialize_extracted_memory new_memory))])) (Some (m_id existing_memory));;
  mret stored.

Definition apply_merge (candidate : ConflictCandidate) (d : ConflictDecision) : SM StoredMemory :=
  let new_memory := cc_new_memory candidate in
  let existing_memory := cc_existing_memory candidate in
  let merged_memory := _build_merged_memory existing_memory new_memory (d_merged_memory d) in
  _archive_memory existing_memory ("Superseded by: " +:+ py_take 100 (x_content merged_memory));;
  embedding ← embed (x_content merged_memory);
  stored ← _store_new_memory_with_shared_context merged_memory embedding (Some (m_id existing_memory)) "MERGE"
             false true (Some (evidence_of d candidate));
  _create_audit_log AuditAction.updated
    (JObj [("existing_memory", JObj (_serialize_memory (existing_memory <| m_is_archived := true |>)));
           ("incoming_memory", JObj (_serialize_extracted_memory new_memory))])
    (JObj ([("resolution", JStr "MERGE"); ("reasoning", JStr (d_reasoning d))] ++ candidate_details candidate
           ++ [("merged_memory", JObj (_serialize_extracted_memory merged_memory))]))
    (Some (m_id existing_memory));;
  mret stored.

Definition apply_reject (candidate : ConflictCandidate) (d : ConflictDecision) : SM unit :=
  _create_audit_log AuditAction.deleted (JObj (_serialize_extracted_memory (cc_new_memory candidate)))
    (JObj ([("resolution", JStr "REJECT"); ("reasoning", JStr (d_reasoning d))] ++ candidate_details candidate))
    (Some (m_id (cc_existing_memory candidate))).

(** ** Candidates withheld for review *)

Definition target_version (m : Memory) : string :=
  let date t := match t with Some t => JDate t | None => JNull end in
  snapshot_digest (JObj
    [("id", JStr (uuid_str (m_id m))); ("user_id", JStr (uuid_str (m_user_id m)));
     ("proxy_user_id", JStr (uuid_str (m_proxy_user_id m))); ("content", JStr (m_content m));
     ("category", JStr (MemoryCategory.value (m_category m))); ("is_archived", JBool (m_is_archived m));
     ("expires_at", date (m_expires_at m)); ("effective_from", date (m_effective_from m));
     ("effective_until", date (m_effective_until m)); ("metadata_json", JObj (m_metadata_json m))]).

Definition review_intent (target : option Memory) : json :=
  JObj [("kind", JStr "restate_source");
        ("target_memory_id", match target with Some m => JStr (uuid_str (m_id m)) | None => JNull end);
        ("target_version", match target with Some m => JStr (target_version m) | None => JNull end)].

(** Withhold a candidate with the evidence of the decision. *)
Definition _buffer_source_candidate (x : ExtractedMemory) (d : ConflictDecision) (review : option json) : SM unit :=
  let evidence := jset "source_decision" (JObj (default [] (d_decision_evidence d))) (x_validated_evidence x) in
  modify_st (fun s => s <| pending ::= fun l => l ++
    [{| pe_content := x_content x; pe_category := x_category x; pe_importance_score := x_importance_score x;
        pe_confidence := x_confidence x; pe_reasoning := d_reasoning d;
        pe_candidate_reason := "source_decision_pending";
        pe_validated_evidence := match review with
                                 | Some r => if truthy r then jset "source_review" r evidence else evidence
                                 | None => evidence end |}] |>).

(** A candidate that is withheld and stores nothing. *)
Definition withhold (x : ExtractedMemory) (d : ConflictDecision) (review : option json) : SM (option StoredMemory) :=
  _buffer_source_candidate x d review;; mret None.

(** What a decision about a candidate does: whether it settles the new memory,
    and what was stored for it. *)
Definition carry_out (embedding : EmbeddingResult) (candidate : ConflictCandidate) (equal_authority : bool)
    (d : ConflictDecision) (rest : SM (bool * option StoredMemory)) : SM (bool * option StoredMemory) :=
  match d_action d with
  | Action.CLARIFY => m ← apply_clarify candidate embedding equal_authority d; mret (true, Some m)
  | Action.UPDATE => m ← apply_update candidate embedding d; mret (true, Some m)
  | Action.MERGE => m ← apply_merge candidate d; mret (true, Some m)
  | Action.REJECT => apply_reject candidate d;; mret (true, None)
  | Action.KEEP_BOTH => rest
  end.

Definition reachable (candidate : ConflictCandidate) (equal_authority : bool) (d : ConflictDecision) : ConflictDecision :=
  reachable_decision (rq_tenant_id rq) (rq_proxy_user_id rq) equal_authority (cc_existing_memory candidate) d.

(** The loop over the candidates of a memory. *)
Fixpoint settle_candidates (embedding : EmbeddingResult) (candidates : list ConflictCandidate)
    : SM (bool * option StoredMemory) :=
  match candidates with
  | [] => mret (false, None)
  | candidate :: candidates =>
      decided ← lift_opt NotAMapping
        (decide_candidate classifier (rq_provenance_snapshot rq) (rq_clarification_requested rq) candidate);
      carry_out embedding candidate decided.2 (reachable candidate decided.2 decided.1)
        (settle_candidates embedding candidates)
  end.

(** The one candidate of a verified source.  A clarification it cannot word, or
    has nobody to ask, is withheld. *)
Definition settle_source (embedding : EmbeddingResult) (candidate : ConflictCandidate)
    (source_decision : ConflictDecision) (review : option json) : SM (bool * option StoredMemory) :=
  decided ← lift_opt NotAMapping (decide_source_candidate (rq_provenance_snapshot rq) source_decision review candidate);
  let '(d, d_review, equal_authority) := decided in
  if bool_decide (d_action d = Action.CLARIFY)
     && (bool_decide (d_clarification_option_memory d = None)
         || negb (bool_decide (is_Some (rq_tenant_id rq)) && bool_decide (is_Some (rq_proxy_user_id rq))))
  then stored ← withhold (cc_new_memory candidate) d d_review; mret (true, stored)
  else carry_out embedding candidate equal_authority (reachable candidate equal_authority d) (mret (false, None)).

(** ** [check_and_store] *)

Definition commit : SM unit := if rq_auto_commit rq then in_life session_flush else mret tt.

(** The end of a round: whether a candidate settled it, whether there were
    candidates, and the relation of a verified source. *)
Definition finish_round (x : ExtractedMemory) (embedding : EmbeddingResult) (candidates : bool)
    (source_decision : option (ConflictDecision * option json)) (settled : bool * option StoredMemory)
    : SM (option StoredMemory) :=
  if (settled.1 : bool) then commit;; mret settled.2
  else if bool_decide (governance_directive x = "clarify_if_conflict")
  then match source_decision with Some (d, review) => withhold x d review | None => mret None end
  else if governed_source x
          && bool_decide (jget "claim_state" (x_validated_evidence x) = Some (JStr "correction"))
  then withhold x (_classifier_failure_decision UNKNOWN "source_correction_unresolved")
         (if source_verified x then Some (review_intent None) else None)
  else
    let resolution := if candidates then "KEEP_BOTH" else "NEW" in
    stored ← _store_new_memory_with_shared_context x embedding None resolution false true
               (p ← source_decision; d_decision_evidence p.1);
    _create_audit_log AuditAction.memory_created JNull
      (JObj [("resolution", JStr resolution); ("new_memory", JObj (_serialize_extracted_memory x))]) None;;
    commit;;
    mret (Some stored).

(** Verified input spans do not validate generated merge wording. *)
Definition merge_contained : ConflictDecision :=
  let reasoning := "MemoryOS preserved the current memory because automatic source-backed merging cannot yet verify scope preservation." in
  decision Action.CLARIFY reasoning
    (review_evidence "USER_REVIEW"
       ["source_merge_containment"; "scope_preservation_unverified"; "stored_source_remains_active"] reasoning
       [("policy", JStr "source_merge_containment_v1"); ("proposed_action", JStr "MERGE")]).

Definition verified_candidate (x : ExtractedMemory) (target : Memory) : ConflictCandidate :=
  {| cc_new_memory := x; cc_existing_memory := target; cc_detection_strategy := verified_source_relation;
     cc_confidence := 0; cc_detected_entities := [] |}.

(** A round of a verified source over its candidates. *)
Definition source_round (s : Store) (x : ExtractedMemory) (embedding : EmbeddingResult) (found : list Existing)
    : SM (option StoredMemory) :=
  if (MAX_SOURCE_CONTEXT_CANDIDATES <? length found)%nat
  then withhold x (_classifier_failure_decision UNKNOWN "source_context_incomplete") None
  else
    let targets := ConflictDetection.ex_memory <$> found in
    let '(selected, d, review) := source_classifier x targets in
    match (i ← selected; find (fun m => bool_decide (m_id m = i)) targets) with
    | None =>
        match d_action d with
        | Action.KEEP_BOTH => finish_round x embedding false (Some (d, review)) (false, None)
        | Action.REJECT => mret None
        | _ => withhold x d review
        end
    | Some target =>
        if negb (_owned_active_target s target)
        then withhold x (_classifier_failure_decision UNKNOWN "source_target_stale") None
        else if bool_decide (d_action d = Action.MERGE)
        then withhold x merge_contained (Some (review_intent (Some target)))
        else
          settled ← settle_source embedding (verified_candidate x target) d review;
          finish_round x embedding true (Some (d, review)) settled
    end.

(** A round of any other claim. *)
Definition ordinary_round (x : ExtractedMemory) (embedding : EmbeddingResult) (found : list Existing)
    : SM (option StoredMemory) :=
  let candidates := detect_candidates x found in
  settled ← settle_candidates embedding candidates;
  finish_round x embedding (match candidates with [] => false | _ => true end) None settled.

(** Why a verified source cannot be judged against what is stored. *)
Definition context_missing : option string :=
  match rq_source_context rq with
  | Some c => if negb (sc_index_gaps_complete c) then Some "source_context_incomplete"
              else if negb (sc_available c) then Some "source_context_unavailable" else None
  | None => if native_index then Some "source_context_unavailable" else None
  end.

Definition context_complete : bool :=
  match rq_source_context rq with Some c => sc_complete c | None => false end.

(** The nominations of the index; [None]: it is unavailable to a verified source,
    for which a complete context stands in. *)
Definition search_index (x : ExtractedMemory) (embedding : EmbeddingResult) : SM (option (list (uuid * Q))) :=
  if source_verified x && context_complete then mret (Some []) else
  match search_memories (er_vector embedding) rq (source_verified x && native_index) with
  | Points points => mret (Some points)
  | VectorSearchUnavailable => if source_verified x then mret None else raise_st EmbedderRaised
  | SearchRaised => raise_st EmbedderRaised
  end.

(** One round of the loop over the new memories; [batch]: what the rounds before
    have stored. *)
Definition store_one (batch : list uuid) (new_memory : ExtractedMemory) : SM (option StoredMemory) :=
  match (if source_verified new_memory then context_missing else None) with
  | Some reason => withhold new_memory (_classifier_failure_decision UNKNOWN reason) None
  | None =>
      embedding ← embed (x_content new_memory);
      nominated ← search_index new_memory embedding;
      match nominated with
      | None => withhold new_memory (_classifier_failure_decision UNKNOWN "source_search_unavailable") None
      | Some points =>
          s ← get_st;
          let context := default [] (sc_memories <$> rq_source_context rq) ++ batch in
          let verified := source_verified new_memory in
          let found := candidate_memories (governed_source new_memory) s points
                         (if verified then context_candidates s context [] else []) in
          if verified then source_round s new_memory embedding found
          else ordinary_round new_memory embedding found
      end
  end.

Fixpoint store_all (batch : list uuid) (new_memories : list ExtractedMemory) : SM (list StoredMemory) :=
  match new_memories with
  | [] => mret []
  | new_memory :: new_memories =>
      stored ← store_one batch new_memory;
      rest ← store_all (match stored with Some m => batch ++ [sm_id m] | None => batch end) new_memories;
      mret (match stored with Some m => m :: rest | None => rest end)
  end.

(** The counters and the withheld candidates start afresh. *)
Definition check_and_store (new_memories : list ExtractedMemory) : SM (list StoredMemory) :=
  modify_st (fun s => s <| flagged := 0%Z |> <| clarified := 0%Z |> <| pending := [] |>);;
  store_all [] new_memories.
End Resolver.
