(* ===== verification/ResolverTheorems.v ===== *)
(** * What the resolver guarantees

    Decisions: what the authority of sources fixes whatever the classifier
    replies, and what a reply must say to change anything.  Effects: storing a
    claim keeps the whole database consistent. *)

From S2P Require Export Resolver ClaimDisplay CrossUserTheorems.

(** ** Decisions *)

Section DecisionTheorems.
Context `{PyLib}.
Variable classifier : ExtractedMemory -> Memory -> ConflictType -> classifier_reply.

(** What a structured reply must say for its action to be taken. *)
Definition committed (o : obj) : Prop :=
  jget_or_null "requires_user_choice" o = JBool false /\
  py_lower (py_strip (str_or_empty (jget_or_null "commitment_status" o)))
    ∈ ["committed_current"; "historical_or_contextual"].

Definition relation_of (o : obj) : string := py_lower (py_strip (str_or_empty (jget_or_null "relation" o))).

(** The bounds of the [ExtractedMemory] model. *)
Record extracted_ok (x : ExtractedMemory) : Prop := {
  xo_content : x_content x <> EmptyString;
  xo_category : is_Some (category_of_value (x_category x));
  xo_importance : (1 <= x_importance_score x <= 10)%Q;
  xo_confidence : (0 <= x_confidence x <= 1)%Q;
}.

Lemma extracted_memory_ok content category i c e r ev x :
  extracted_memory content category i c e r ev = Some x -> extracted_ok x.
Proof.
  unfold extracted_memory. destruct (_ && _) eqn:E; [|done]. intros [= <-].
  repeat (apply andb_true_iff in E as [E ?]). q_reflect.
  repeat match goal with
  | H : negb (bool_decide _) = true |- _ => apply negb_true_iff, bool_decide_eq_false in H
  | H : bool_decide _ = true |- _ => apply bool_decide_eq_true in H
  end.
  by constructor.
Qed.

(** An option states a value the new memory contains and the stored one lacks. *)
Definition grounded_option (new_memory : ExtractedMemory) (existing_memory : Memory) (x : ExtractedMemory)
    : Prop :=
  extracted_ok x /\ x_validated_evidence x = x_validated_evidence new_memory /\
  exists attribute value, x_content x = "User's " +:+ attribute +:+ " is " +:+ value +:+ "." /\
    py_contains (py_lower value) (py_lower (x_content new_memory)) = true /\
    py_contains (py_lower value) (py_lower (m_content existing_memory)) = false.

Lemma option_memory_grounded payload x m y :
  _build_clarification_option_memory payload x m = Some y -> grounded_option x m y.
Proof.
  unfold _build_clarification_option_memory. destruct (negb _); [done|].
  destruct (str_field "attribute" payload) as [a|]; [|done].
  destruct (str_field "value" payload) as [v|]; [|done].
  destruct (str_field "category" payload) as [c|]; [|done]. cbn [mbind option_bind].
  destruct (negb _); [done|]. destruct (_ || _); [done|].
  destruct (bool_decide _); [done|]. destruct (negb _) eqn:Ein; [done|].
  destruct (py_contains _ (py_lower (m_content m))) eqn:Eout; [done|]. intros Hy.
  split; [by eapply extracted_memory_ok|]. apply negb_false_iff in Ein.
  unfold extracted_memory in Hy. destruct (_ && _); [|done]. injection Hy as <-. cbn. split; [done|].
  by do 2 eexists.
Qed.

(** What each action of a parsed reply rests on. *)
Definition warranted (payload : option json) (new_memory : ExtractedMemory) (existing_memory : Memory)
    (d : ConflictDecision) : Prop :=
  (d_action d = Action.CLARIFY /\ d_clarification_option_memory d = None)
  \/ exists o, payload = Some (JObj o) /\
     ((relation_of o = EmptyString /\ Action.of_value (_action_from_payload o) = Some (d_action d)
       /\ d_clarification_option_memory d = None)
      \/ (d_action d = Action.CLARIFY /\ exists x, d_clarification_option_memory d = Some x
            /\ grounded_option new_memory existing_memory x)
      \/ (d_clarification_option_memory d = None
          /\ dict_get (relation_of o) CONFLICT_RELATION_TO_ACTION = Some (d_action d)
          /\ (d_action d = Action.REJECT \/ committed o))).

Lemma structured_relation_warranted o new_memory existing_memory rl :
  structured_relation (relation_of o) o new_memory existing_memory = Some rl ->
  (rl_action rl = Action.CLARIFY /\ exists x, rl_option rl = Some x
     /\ grounded_option new_memory existing_memory x)
  \/ (rl_option rl = None /\ dict_get (relation_of o) CONFLICT_RELATION_TO_ACTION = Some (rl_action rl)
      /\ (rl_action rl = Action.REJECT \/ committed o)).
Proof.
  unfold structured_relation. destruct (jget "clarification_option_memory" o) as [op|]; [|done].
  cbn [mbind option_bind]. set (status := py_lower (py_strip (str_or_empty (jget_or_null "commitment_status" o)))).
  destruct (negb (bool_decide (status ∈ _))) eqn:Es; [done|].
  apply negb_false_iff, bool_decide_eq_true in Es.
  destruct (jget_or_null "requires_user_choice" o) as [|b| | | | | |] eqn:Eb; try done.
  destruct (dict_get (relation_of o) CONFLICT_RELATION_TO_ACTION) as [a|] eqn:Ea; [|done]. cbn [mbind option_bind].
  destruct (negb (bool_decide (relation_of o = "duplicate"))
            && (b || bool_decide (status ∈ ["tentative"; "unclear"]))) eqn:Ec.
  - destruct op as [| | | | | | |po]; try done.
    destruct (_build_clarification_option_memory po new_memory existing_memory) as [x|] eqn:Ex; [|done].
    intros [= <-]. left. split; [done|]. exists x. split; [done|]. by eapply option_memory_grounded.
  - intros [= <-]. right. split; [done|]. split; [done|]. cbn.
    apply andb_false_iff in Ec as [Ec|Ec].
    + left. apply negb_false_iff, bool_decide_eq_true in Ec. rewrite Ec in Ea. by injection Ea as <-.
    + right. apply orb_false_iff in Ec as [-> Ec]. apply bool_decide_eq_false in Ec. split; [done|].
      fold status. revert Es Ec. unfold COMMITMENT_STATUSES. rewrite !elem_of_cons, elem_of_nil. tauto.
Qed.

Lemma parse_warranted payload new_memory existing_memory conflict_type :
  warranted payload new_memory existing_memory
    (_parse_conflict_decision payload new_memory existing_memory conflict_type).
Proof.
  unfold _parse_conflict_decision.
  destruct (p ← payload; parse_reply p new_memory existing_memory conflict_type) as [d|] eqn:E; [|by left].
  cbn [default]. destruct payload as [p|]; [|done]. cbn [mbind option_bind] in E.
  destruct p as [| | | | | | |o]; try done. right. exists o. split; [done|].
  unfold parse_reply in E. fold (relation_of o) in E.
  destruct (if bool_decide (relation_of o = EmptyString) then _ else _) as [rl|] eqn:Erl; [|done].
  cbn [mbind option_bind] in E. destruct (bool_decide (py_strip _ = _)); [done|].
  destruct (if bool_decide (rl_action rl = Action.MERGE) then _ else _) as [mm|]; [|done].
  cbn [mbind option_bind] in E. injection E as <-. cbn [d_action d_clarification_option_memory].
  destruct (bool_decide (relation_of o = EmptyString)) eqn:Er.
  - left. apply bool_decide_eq_true in Er. split; [done|]. unfold legacy_relation in Erl.
    destruct (Action.of_value _) as [a|] eqn:Eo; [|done]. by injection Erl as <-.
  - right. apply structured_relation_warranted in Erl as [[-> (x & -> & Hx)]|(-> & Ha & Hc)]; [left|by right].
    split; [done|]. by exists x.
Qed.

(** C8: Whatever text the classifier returns, the decision read from it is
    warranted.  A provider failure, text that is no JSON object, an unknown
    relation or a malformed field is a clarification that changes nothing.  A
    reply that names a relation updates, merges or keeps a memory only under the
    relation that means so, and only when it states a committed claim without
    asking for the user's choice; an uncertain one becomes a clarification,
    and only with an option whose value the new memory contains and the stored
    one does not.  A reply that names no relation, as the older prompt's did,
    carries no commitment and is not checked for one: its action is the one the
    reply states, whichever of the five that is, and it never brings an
    option. *)
Theorem classifier_reply_is_warranted (candidate : ConflictCandidate) :
  let new_memory := cc_new_memory candidate in
  let existing_memory := cc_existing_memory candidate in
  let d := _classify_conflict classifier candidate in
  match classifier new_memory existing_memory (conflict_type_of candidate) with
  | AllProvidersFailed => d_action d = Action.CLARIFY /\ d_clarification_option_memory d = None
  | Replied payload => warranted payload new_memory existing_memory d
  end.
Proof.
  cbv zeta. unfold _classify_conflict. destruct (classifier _ _ _) as [|payload]; [done|].
  apply parse_warranted.
Qed.

(** Both sources come with rules that rank them, at these priorities. *)
Record ranked (incoming : obj) (candidate : ConflictCandidate) (stored : obj) (a b : Z) : Prop := {
  rk_stored : stored_provenance (cc_existing_memory candidate) = Some stored;
  rk_new_ruled : _has_explicit_authority_rules incoming (x_category (cc_new_memory candidate)) = Some true;
  rk_old_ruled : _has_explicit_authority_rules stored
      (MemoryCategory.value (m_category (cc_existing_memory candidate))) = Some true;
  rk_new : _authority_priority incoming (x_category (cc_new_memory candidate)) = Some a;
  rk_old : _authority_priority stored
      (MemoryCategory.value (m_category (cc_existing_memory candidate))) = Some b;
}.

(** Two named writers that say different things. *)
Definition writers_disagree (incoming stored : obj) (candidate : ConflictCandidate) : Prop :=
  exists w v, jget_or_null "writer_id" incoming = JStr w /\ jget_or_null "writer_id" stored = JStr v
    /\ w <> EmptyString /\ v <> EmptyString /\ w <> v
    /\ py_lower (py_strip (x_content (cc_new_memory candidate)))
       <> py_lower (py_strip (m_content (cc_existing_memory candidate))).

Lemma unequal_not_equal_authority incoming candidate stored a b :
  ranked incoming candidate stored a b -> a <> b ->
  _is_equal_authority_cross_writer_conflict incoming (cc_new_memory candidate) (cc_existing_memory candidate)
  = Some false.
Proof.
  intros [Hs Hi He Ha Hb] Hab. unfold _is_equal_authority_cross_writer_conflict.
  rewrite Hs. cbn [mbind option_bind].
  do 2 (case_match; [done|]). rewrite Hi, He. cbn [mbind option_bind andb]. rewrite Ha, Hb. cbn [mbind option_bind].
  f_equal. lia.
Qed.

Lemma source_identity_of_writer provenance w :
  jget_or_null "writer_id" provenance = JStr w -> w <> EmptyString -> _source_identity provenance = Some w.
Proof.
  intros Hw Hne. unfold _source_identity, json_or. rewrite Hw. cbn [truthy].
  rewrite (bool_decide_eq_false_2 (w = EmptyString)) by done. cbn [negb truthy].
  by rewrite (bool_decide_eq_false_2 (w = EmptyString)).
Qed.

Lemma different_writers_are_different_sources w v :
  w <> EmptyString -> v <> EmptyString -> w <> v -> same_or_legacy_source (Some w) (Some v) = false.
Proof.
  intros Hw Hv Hne. unfold same_or_legacy_source, text_given.
  rewrite !bool_decide_eq_false_2; congruence || done.
Qed.

Lemma disagreement_detected incoming candidate stored a :
  ranked incoming candidate stored a a -> writers_disagree incoming stored candidate ->
  _is_equal_authority_cross_writer_conflict incoming (cc_new_memory candidate) (cc_existing_memory candidate)
  = Some true
  /\ _authority_conflict_decision incoming (cc_new_memory candidate) (cc_existing_memory candidate) = Some None.
Proof.
  intros [Hs Hi He Ha Hb] (w & v & Hw & Hv & Hwe & Hve & Hne & Hc). split.
  - unfold _is_equal_authority_cross_writer_conflict. rewrite Hs. cbn [mbind option_bind].
    rewrite Hw, Hv. cbn [truthy py_str].
    rewrite !(bool_decide_eq_false_2 (_ = EmptyString)), (bool_decide_eq_false_2 (w = v)),
      (bool_decide_eq_false_2 (py_lower _ = _)) by done.
    cbn [negb orb]. rewrite Hi, He. cbn [mbind option_bind andb]. rewrite Ha, Hb. cbn [mbind option_bind].
    by rewrite Z.eqb_refl.
  - unfold _authority_conflict_decision. rewrite Hs. cbn [mbind option_bind].
    rewrite Hi, He, Ha, Hb. cbn [mbind option_bind andb]. rewrite !Z.ltb_irrefl.
    rewrite (source_identity_of_writer _ w), (source_identity_of_writer _ v) by done.
    rewrite different_writers_are_different_sources by done.
    by destruct (_provenance_observed_at incoming), (_provenance_observed_at stored).
Qed.
(** The decision and what becomes of it for the owner asked, if any. *)
Definition settled_action (incoming : obj) (clarification_requested : bool) (tenant_id proxy_user_id : option uuid)
    (candidate : ConflictCandidate) : option (Action.t * bool) :=
  p ← decide_candidate classifier incoming clarification_requested candidate;
  Some (d_action (reachable_decision tenant_id proxy_user_id p.2 (cc_existing_memory candidate) p.1), p.2).

(** Between two sources that both come with authority rules the rules decide
    before anything is asked of the classifier.  The higher authority wins: a
    higher incoming source updates the stored memory, a lower one is rejected or,
    when it only relays the client's word, is kept apart for review by the owner
    of the stored memory.  Writers of equal authority that say different things
    are always put up for review, with or without an owner. *)
Theorem authority_decides_first incoming candidate stored a b clarification_requested tenant_id proxy_user_id :
  ranked incoming candidate stored a b ->
  let settled := settled_action incoming clarification_requested tenant_id proxy_user_id candidate in
  let owner_asked := bool_decide (is_Some tenant_id)
                     && bool_decide (proxy_user_id = Some (m_proxy_user_id (cc_existing_memory candidate))) in
  ((b < a)%Z -> settled = Some (Action.UPDATE, false))
  /\ ((a < b)%Z -> settled = Some
       (if bool_decide (jget "attestation" incoming = Some (JStr "client_asserted"))
        then if owner_asked then Action.CLARIFY else Action.KEEP_BOTH
        else Action.REJECT, false))
  /\ (a = b -> writers_disagree incoming stored candidate -> settled = Some (Action.CLARIFY, true)).
Proof.
  intros Hr. cbv zeta. unfold settled_action, decide_candidate. split_and!.
  - intros Hlt. rewrite (unequal_not_equal_authority _ _ _ _ _ Hr) by lia. destruct Hr as [Hs Hi He Ha Hb].
    unfold _authority_conflict_decision. rewrite Hs. cbn [mbind option_bind].
    rewrite Hi, He, Ha, Hb. cbn [mbind option_bind andb]. by rewrite (proj2 (Z.ltb_lt b a) Hlt).
  - intros Hlt. rewrite (unequal_not_equal_authority _ _ _ _ _ Hr) by lia. destruct Hr as [Hs Hi He Ha Hb].
    unfold _authority_conflict_decision. rewrite Hs. cbn [mbind option_bind].
    rewrite Hi, He, Ha, Hb. cbn [mbind option_bind andb].
    rewrite (proj2 (Z.ltb_ge b a)), (proj2 (Z.ltb_lt a b) Hlt) by lia. cbn [mbind option_bind fst snd].
    case_bool_decide; [|done]. unfold reachable_decision. cbn [d_action quarantined_assertion decision orb].
    destruct tenant_id as [t|], proxy_user_id as [p|]; try done.
    rewrite (bool_decide_eq_true_2 (is_Some (Some t))) by eauto. cbn [andb].
    rewrite (bool_decide_ext (m_proxy_user_id (cc_existing_memory candidate) = p)
               (Some p = Some (m_proxy_user_id (cc_existing_memory candidate)))) by (split; congruence).
    rewrite (bool_decide_eq_true_2 (Action.CLARIFY = Action.CLARIFY)) by done. by destruct (bool_decide _).
  - intros -> Hw. destruct (disagreement_detected _ _ _ _ Hr Hw) as [-> ->]. done.
Qed.
End DecisionTheorems.

Section ResolverExamples.
#[local] Existing Instance example_pylib.

(** Two writers of the same tenant: the stored one outranks the incoming one. *)
Definition ruled (writer : string) (priority : Z) : obj :=
  [("writer_id", JStr writer); ("attestation", JStr "client_asserted");
   ("authority_rules", JObj [("categories", JObj [("fact", JInt priority)])])].

Definition ruled_candidate : ConflictCandidate :=
  {| cc_new_memory := team_claim;
     cc_existing_memory := (team_memory 7 2 "Our team runs django" 0)
       <| m_metadata_json := [("provenance", JObj (ruled "crm" 80))] |>;
     cc_detection_strategy := semantic; cc_confidence := 9 # 10; cc_detected_entities := ["tech_stack"] |}.

Lemma authority_decides_first_witness :
  ranked (ruled "form" 30) ruled_candidate (ruled "crm" 80) 30 80 /\
  settled_action (fun _ _ _ => AllProvidersFailed) (ruled "form" 30) false (Some 1%Z) (Some 2%Z) ruled_candidate
  = Some (Action.CLARIFY, false).
Proof.
  assert (ranked (ruled "form" 30) ruled_candidate (ruled "crm" 80) 30 80) as Hr
    by (constructor; vm_compute; reflexivity).
  split; [exact Hr|].
  destruct (authority_decides_first (fun _ _ _ => AllProvidersFailed) _ _ _ _ _ false (Some 1%Z) (Some 2%Z) Hr)
    as (_ & H & _). exact (H ltac:(lia)).
Defined.
End ResolverExamples.
