(* ===== verification/ResolverEffects.v ===== *)
(** * What storing a claim does to the database

    The effects of [Resolver.store_one] on memories, claim ledger, versions,
    outbox and conflicts, on the routes of verified sources and of other claims:
    whatever the embedder, the index and the classifiers answer, no unique index
    of the claim and conflict tables refuses a statement, one memory is added at
    most, only the memory an update replaces is archived, and every claim still
    displays a live memory its winning revision asserts. *)

From S2P Require Export Resolver ClaimDisplay CrossUserTheorems.

#[local] Arguments asafe_record_version : simpl never.
#[local] Arguments session_flush : simpl never.

(** ** Consistency *)

(** The memory is stored, and live unless it is the one being replaced. *)
Definition displayable (replaced : option uuid) (l : Life) (m : uuid) : Prop :=
  exists mem, memories l !! m = Some mem /\ (m_is_archived mem = false \/ replaced = Some m).

Section Effects.
Context `{PyLib}.

(** [life_ok] while a memory is being replaced, with what makes fresh rows fresh
    and what tells the claims of propositions from the claims of fields. *)
Record consistent (replaced : option uuid) (l : Life) : Prop := {
  cs_usable : poisoned l = false;
  cs_ledger : wf (ledger l);
  cs_memory_ids i m : memories l !! i = Some m -> m_id m = i;
  cs_displayed i c m : claims (ledger l) !! i = Some c -> c_active_memory_id c = Some m ->
    is_Some (c_winning_revision_id c) /\ displayable replaced l m;
  cs_kind j r m c : revisions (ledger l) !! j = Some r -> r_memory_id r = Some m ->
    claims (ledger l) !! r_claim_id r = Some c -> is_Some (c_winning_revision_id c) ->
    is_Some (c_active_memory_id c);
  (** the winner of a proposition comes from a memory *)
  cs_proposition i c : claims (ledger l) !! i = Some c -> c_subject_key c = GENERIC_CLAIM_SUBJECT ->
    is_Some (c_winning_revision_id c) -> is_Some (c_active_memory_id c);
  (** fingerprints tell propositions from fields *)
  cs_fingerprint i c content category scope : claims (ledger l) !! i = Some c ->
    c_claim_fingerprint c = ci_fingerprint (build_claim_identity content category scope) ->
    c_subject_key c = GENERIC_CLAIM_SUBJECT;
  (** ids are drawn upwards *)
  cs_memories_below i : is_Some (memories l !! i) -> (i < supply l)%Z;
  cs_claims_below i : is_Some (claims (ledger l) !! i) -> (i < supply l)%Z;
  cs_revisions_below j r : revisions (ledger l) !! j = Some r ->
    (j < supply l)%Z /\ (forall m, r_memory_id r = Some m -> (m < supply l)%Z);
}.

Lemma consistent_life_ok l : consistent None l -> life_ok l.
Proof.
  intros Hc. constructor; try apply Hc. intros i c m Hi Ha.
  destruct (cs_displayed _ _ Hc i c m Hi Ha) as [? (mem & ? & [?|?])]; [|done]. eauto.
Qed.

Lemma consistent_flushable r l : consistent r l -> flushable l.
Proof. intros Hc. apply wf_flushable; apply Hc. Qed.

(** A step that adds versions and queued changes only. *)
Record quiet (l l' : Life) : Prop := {
  qt_core : same_core l l';
  qt_supply : (supply l <= supply l')%Z;
  qt_queue i : (i < supply l)%Z -> queue l' !! i = queue l !! i;
}.

Lemma quiet_refl l : quiet l l.
Proof. constructor; [by split_and!|lia|done]. Qed.

Lemma quiet_trans l1 l2 l3 : quiet l1 l2 -> quiet l2 l3 -> quiet l1 l3.
Proof.
  intros [(E1 & E2 & E3 & E4) S1 Q1] [(F1 & F2 & F3 & F4) S2 Q2]. constructor.
  - split_and!; congruence.
  - lia.
  - intros i Hi. rewrite Q2 by lia. by apply Q1.
Qed.

Lemma consistent_quiet r l l' : quiet l l' -> consistent r l -> consistent r l'.
Proof.
  intros [(E1 & E2 & _ & E4) Hs _] [C1 C2 C3 C4 C5 C6 C7 C8 C9 C10].
  constructor; rewrite ?E1, ?E2, ?E4; try done.
  - intros i c m Hi Ha. destruct (C4 i c m Hi Ha) as [? (mem & ? & ?)]. split; [done|].
    exists mem. by rewrite E2.
  - intros i Hi. specialize (C8 i Hi). lia.
  - intros i Hi. specialize (C9 i Hi). lia.
  - intros j x Hj. destruct (C10 j x Hj) as [? Hm]. split; [lia|]. intros m Hx. specialize (Hm m Hx). lia.
Qed.

(** A new memory displaces nothing. *)
Lemma consistent_new_memory r m l :
  consistent r l -> memories l !! m_id m = None -> (m_id m < supply l)%Z -> consistent r (put_memory m l).
Proof.
  intros [C1 C2 C3 C4 C5 C6 C7 C8 C9 C10] Hnew Hlt. constructor; try done; cbn.
  - intros i x Hi. apply lookup_insert_Some in Hi as [[<- <-]|[_ Hi]]; [done|by apply C3].
  - intros i c x Hi Ha. destruct (C4 i c x Hi Ha) as [? (mem & Hx & ?)]. split; [done|].
    exists mem. cbn. rewrite lookup_insert_ne; [done|]. intros E. rewrite E in Hnew. congruence.
  - intros i Hi. destruct (decide (i = m_id m)) as [->|Hne]; [done|]. rewrite lookup_insert_ne in Hi by done. by apply C8.
Qed.

(** Archiving a memory leaves it displayed until it is replaced. *)
Lemma consistent_archived m l :
  consistent None l -> memories l !! m_id m = Some m ->
  consistent (Some (m_id m)) (put_memory (m <| m_is_archived := true |>) l).
Proof.
  intros [C1 C2 C3 C4 C5 C6 C7 C8 C9 C10] Hm. constructor; try done; cbn.
  - intros i x Hi. apply lookup_insert_Some in Hi as [[<- <-]|[_ Hi]]; [done|by apply C3].
  - intros i c x Hi Ha. destruct (C4 i c x Hi Ha) as [? (mem & Hx & [Hl|?])]; [|done]. split; [done|].
    destruct (decide (x = m_id m)) as [->|Hne].
    + eexists. cbn. rewrite lookup_insert_eq. split; [done|by right].
    + exists mem. cbn. rewrite lookup_insert_ne by done. split; [done|by left].
  - intros i Hi. destruct (decide (i = m_id m)) as [->|Hne]; [by apply C8; eexists|].
    rewrite lookup_insert_ne in Hi by done. by apply C8.
Qed.

(** A claim displays a memory through a revision of it. *)
Lemma consistent_winner r l i c m :
  consistent r l -> claims (ledger l) !! i = Some c -> c_active_memory_id c = Some m ->
  exists w, revisions (ledger l) !! r_id w = Some w /\ r_claim_id w = i /\ r_memory_id w = Some m.
Proof.
  intros Hok Hc Ha. destruct (cs_displayed _ _ Hok i c m Hc Ha) as [[j Hj] _].
  destruct (wf_winner _ (cs_ledger _ _ Hok) i c j Hc Hj) as (w & Hw & Hi & Hm).
  exists w. rewrite (wf_revision_ids _ (cs_ledger _ _ Hok) j w Hw). split_and!; congruence.
Qed.

(** ** Recording a new memory in the ledger *)

Section Recording.
Variables (a : RecordArgs) (l : Life) (replaced : option uuid).
Let m := ra_memory a.
Hypothesis Hok : consistent replaced l.
Hypothesis Hdecl : ra_declaration a = None.
Hypothesis Hclaim : claims (ledger l) !! ra_claim_id a = None.
Hypothesis Hrevision : revisions (ledger l) !! ra_revision_id a = None.
Hypothesis Hmemory : forall j r, revisions (ledger l) !! j = Some r -> r_memory_id r <> Some (m_id m).
Hypothesis Hstored : memories l !! m_id m = Some m.
Hypothesis Hbelow : (ra_claim_id a < supply l)%Z /\ (ra_revision_id a < supply l)%Z.
(** A memory being replaced is the predecessor of a live update. *)
Hypothesis Hreplaced : forall p, replaced = Some p ->
  ra_predecessor_memory_id a = Some p /\ is_update (ra_resolution a) = true /\ m_is_archived m = false.

Lemma identity_is_proposition identity :
  identity_for a = Some identity ->
  ci_subject_key identity = GENERIC_CLAIM_SUBJECT /\
  exists content category scope, identity = build_claim_identity content category scope.
Proof using Hdecl.
  clear -Hdecl. unfold identity_for. rewrite Hdecl. destruct (dict_or_empty _) as [scope|]; [|done].
  intros [= <-]. split; [done|]. by do 3 eexists.
Qed.

Lemma unrecorded_memory : revisions_of_memory (m_id m) (ledger l) = [].
Proof using Hmemory.
  clear -Hmemory. destruct (revisions_of_memory (m_id m) (ledger l)) as [|r rest] eqn:E; [done|].
  assert (r ∈ revisions_of_memory (m_id m) (ledger l)) as Hin by (rewrite E; apply list_elem_of_here).
  apply revisions_of_memory_elem in Hin as [Hr [j Hj]]. by destruct (Hmemory j r Hj).
Qed.

(** Nothing displays a replaced memory the ledger does not know. *)
Lemma unknown_replaced p :
  replaced = Some p -> (forall j r, revisions (ledger l) !! j = Some r -> r_memory_id r <> Some p) ->
  consistent None l.
Proof using Hok.
  clear -Hok. intros Hp Hno. destruct Hok as [C1 C2 C3 C4 C5 C6 C7 C8 C9 C10]. constructor; try done.
  intros i c x Hi Ha. destruct (C4 i c x Hi Ha) as [? (mem & Hx & Hl)]. split; [done|].
  exists mem. split; [done|]. left. destruct Hl as [?|Hl]; [done|]. exfalso. rewrite Hp in Hl. injection Hl as <-.
  destruct (consistent_winner _ _ i c p Hok Hi Ha) as (w & Hw & _ & Hm). by apply (Hno (r_id w) w).
Qed.

(** The claim a memory was recorded in. *)
Lemma recorded_claim L' cid :
  record_memory a (ledger l) = (L', inr (Some cid)) ->
  recording a cid (ledger l) L' /\ wf L' /\
  (forall c, claims (ledger l) !! cid = Some c -> c_subject_key c = GENERIC_CLAIM_SUBJECT) /\
  (forall p j r, replaced = Some p -> revisions (ledger l) !! j = Some r -> r_memory_id r = Some p ->
     r_claim_id r = cid /\
     exists c', claims L' !! cid = Some c' /\ c_active_memory_id c' = Some (m_id m)).
Proof.
  intros E. pose proof (record_memory_outcome a (ledger l) (cs_ledger _ _ Hok) Hclaim Hrevision unrecorded_memory) as Ho.
  rewrite E in Ho. destruct Ho as [Hwf _].
  destruct (record_memory_recording a (ledger l) L' cid (cs_ledger _ _ Hok) Hclaim Hdecl E)
    as (identity & Hid & Hrec & Hgen & Hupd).
  split_and!; [done|done| |].
  - intros c Hc. destruct (Hgen c Hc) as [?|Hf]; [done|].
    destruct (identity_is_proposition identity Hid) as (_ & content & category & scope & ->).
    by eapply (cs_fingerprint _ _ Hok).
  - intros p j r Hp Hj Hm. destruct (Hreplaced p Hp) as (Hpred & Hu & Ha). by eapply Hupd.
Qed.

(** What its claim displays afterwards. *)
Lemma recorded_display L' cid c' x :
  record_memory a (ledger l) = (L', inr (Some cid)) ->
  claims L' !! cid = Some c' -> c_active_memory_id c' = Some x ->
  is_Some (c_winning_revision_id c') /\ displayable None l x.
Proof.
  intros E Hc' Hx. destruct (recorded_claim L' cid E) as (Hrec & _ & _ & Hupd).
  destruct (rc_claim _ _ _ _ Hrec) as (c1 & Hc1 & Hafter & _). rewrite Hc' in Hc1. injection Hc1 as <-.
  destruct Hafter as [Hd Hw Hlive|c Hb Hd Hw|_ Hd Hw]; [| |congruence].
  - rewrite Hx in Hd. injection Hd as ->. split; [done|]. exists m. split; [done|by left].
  - rewrite Hd in Hx. destruct (cs_displayed _ _ Hok cid c x Hb Hx) as [Hwin (mem & Hmem & Hl)].
    split; [by rewrite Hw|]. exists mem. split; [done|]. left. destruct Hl as [?|Hp]; [done|]. exfalso.
    destruct (consistent_winner _ _ cid c x Hok Hb Hx) as (w & Hwr & _ & Hwm).
    destruct (Hupd x (r_id w) w Hp Hwr Hwm) as (_ & c2 & Hc2 & Hd2). rewrite Hc' in Hc2. injection Hc2 as <-.
    rewrite Hd, Hx in Hd2. injection Hd2 as ->. by apply (Hmemory (r_id w) w).
Qed.

Lemma other_display L' cid i c x :
  record_memory a (ledger l) = (L', inr (Some cid)) -> i <> cid ->
  claims (ledger l) !! i = Some c -> c_active_memory_id c = Some x ->
  is_Some (c_winning_revision_id c) /\ displayable None l x.
Proof.
  intros E Hne Hc Hx. destruct (recorded_claim L' cid E) as (_ & _ & _ & Hupd).
  destruct (cs_displayed _ _ Hok i c x Hc Hx) as [Hwin (mem & Hmem & Hl)].
  split; [done|]. exists mem. split; [done|]. left. destruct Hl as [?|Hp]; [done|]. exfalso.
  destruct (consistent_winner _ _ i c x Hok Hc Hx) as (w & Hwr & Hwi & Hwm).
  destruct (Hupd x (r_id w) w Hp Hwr Hwm) as [Hcid _]. congruence.
Qed.

(** A recorded claim with a winner displays a memory. *)
Lemma recorded_winner L' cid c' :
  record_memory a (ledger l) = (L', inr (Some cid)) ->
  claims L' !! cid = Some c' -> is_Some (c_winning_revision_id c') -> is_Some (c_active_memory_id c').
Proof.
  intros E Hc' Hwin. destruct (recorded_claim L' cid E) as (Hrec & _ & Hgen & _).
  destruct (rc_claim _ _ _ _ Hrec) as (c1 & Hc1 & Hafter & _). rewrite Hc' in Hc1. injection Hc1 as <-.
  destruct Hafter as [Hd _ _|c Hb Hd Hw|_ _ Hw].
  - rewrite Hd. by eexists.
  - rewrite Hd. rewrite Hw in Hwin. exact (cs_proposition _ _ Hok cid c Hb (Hgen c Hb) Hwin).
  - rewrite Hw in Hwin. by destruct Hwin.
Qed.

Lemma recorded_identity L' cid c' :
  record_memory a (ledger l) = (L', inr (Some cid)) -> claims L' !! cid = Some c' ->
  c_subject_key c' = GENERIC_CLAIM_SUBJECT.
Proof.
  intros E Hc'. destruct (recorded_claim L' cid E) as (Hrec & _ & Hgen & _).
  destruct (rc_claim _ _ _ _ Hrec) as (c1 & Hc1 & _ & Hsame & Hnew). rewrite Hc' in Hc1. injection Hc1 as <-.
  destruct (claims (ledger l) !! cid) as [c|] eqn:Hb.
  - destruct (Hsame c eq_refl) as [-> _]. by apply Hgen.
  - destruct (Hnew eq_refl) as (identity & Hid & -> & _). by apply identity_is_proposition.
Qed.

Lemma recorded_consistent L' cid :
  record_memory a (ledger l) = (L', inr (Some cid)) -> consistent None (l <| ledger := L' |>).
Proof.
  intros E. destruct (recorded_claim L' cid E) as (Hrec & Hwf & Hgen & _).
  pose proof (recorded_winner L' cid) as Hwinner. pose proof (recorded_identity L' cid) as Hident.
  assert (forall i c, claims L' !! i = Some c -> i <> cid -> claims (ledger l) !! i = Some c) as Hother
    by (intros i c Hi Hne; by rewrite <- (rc_other _ _ _ _ Hrec i Hne)).
  constructor; cbn; try apply Hok; [done| | | | | |].
  - intros i c x Hi Hx. destruct (decide (i = cid)) as [->|Hne]; [by eapply recorded_display|].
    eapply other_display; eauto.
  - intros j r x c Hj Hx Hc Hw. destruct (decide (r_claim_id r = cid)) as [Heq|Hne].
    { rewrite Heq in Hc. by eapply Hwinner. }
    destruct (decide (j = ra_revision_id a)) as [->|Hj0].
    { destruct (rc_new _ _ _ _ Hrec) as (r1 & Hr1 & _ & Hcid). congruence. }
    destruct (rc_old _ _ _ _ Hrec j r Hj Hj0) as (r0 & Hr0 & Em & Ec).
    eapply (cs_kind _ _ Hok j r0 x c); [done|congruence| |done]. rewrite <- Ec. by apply Hother.
  - intros i c Hi Hs Hw. destruct (decide (i = cid)) as [->|Hne]; [by eapply Hwinner|].
    eapply (cs_proposition _ _ Hok i); eauto.
  - intros i c content category scope Hi Hf. destruct (decide (i = cid)) as [->|Hne]; [by eapply Hident|].
    by eapply (cs_fingerprint _ _ Hok i c content category scope); [apply Hother|].
  - intros i [c Hi]. destruct (decide (i = cid)) as [->|Hne].
    + destruct (claims (ledger l) !! cid) as [c0|] eqn:Hb; [apply (cs_claims_below _ _ Hok); by eexists|].
      rewrite (rc_created _ _ _ _ Hrec Hb). apply Hbelow.
    + apply (cs_claims_below _ _ Hok). eexists. by apply Hother.
  - intros j r Hj. destruct (decide (j = ra_revision_id a)) as [->|Hj0].
    + split; [apply Hbelow|]. destruct (rc_new _ _ _ _ Hrec) as (r1 & Hr1 & Hm1 & _).
      rewrite Hj in Hr1. injection Hr1 as <-. rewrite Hm1. intros x [= <-].
      apply (cs_memories_below _ _ Hok). by eexists.
    + destruct (rc_old _ _ _ _ Hrec j r Hj Hj0) as (r0 & Hr0 & Em & _).
      destruct (cs_revisions_below _ _ Hok j r0 Hr0) as [? Hx]. split; [done|]. rewrite Em. exact Hx.
Qed.
End Recording.

(** ** Running an operation *)

(** What the resolver may raise: never a refused statement. *)
Definition benign (e : resolver_exn) : Prop :=
  match e with
  | SessionFailed _ | UnexpectedKeyword | LedgerRaised (IntegrityError _) => False
  | _ => True
  end.

Definition after {A} (m : SM A) (s : Store) (Q : A -> Store -> Prop) : Prop :=
  match m s with (s', inr x) => Q x s' | (_, inl e) => benign e end.

Lemma after_bind {A B} (m : SM A) (k : A -> SM B) s Q :
  after m s (fun x s' => after (k x) s' Q) -> after (m ≫= k) s Q.
Proof. unfold after, mbind, M_bind. by destruct (m s) as [s' [e|x]]. Qed.

Lemma after_mono {A} (m : SM A) s (Q R : A -> Store -> Prop) :
  after m s Q -> (forall x s', Q x s' -> R x s') -> after m s R.
Proof. unfold after. destruct (m s) as [s' [e|x]]; auto. Qed.

Lemma after_returns {A} (m : SM A) s s' x Q : m s = (s', inr x) -> Q x s' -> after m s Q.
Proof. unfold after. by intros ->. Qed.

Lemma after_ret {A} (x : A) s (Q : A -> Store -> Prop) : Q x s -> after (mret x) s Q.
Proof. done. Qed.

Lemma after_lift_opt {A} e (o : option A) s (Q : A -> Store -> Prop) :
  benign e -> (forall x, o = Some x -> Q x s) -> after (lift_opt e o) s Q.
Proof. intros He HQ. destruct o as [x|]; [by apply HQ|done]. Qed.

(** Draw an id. *)
Definition drawn (s : Store) : Store := s <| life ::= fun l => l <| supply ::= Z.add 1 |> |>.

Lemma after_new_id s (Q : uuid -> Store -> Prop) : Q (supply (life s)) (drawn s) -> after new_id s Q.
Proof. done. Qed.

Lemma drawn_quiet s : quiet (life s) (life (drawn s)).
Proof. constructor; [by split_and!|cbn; lia|done]. Qed.

Lemma in_life_modify f s : in_life (modify_st f) s = (s <| life := f (life s) |>, inr tt).
Proof. done. Qed.

Lemma in_life_version m t r s :
  flushable (life s) -> exists l, in_life (asafe_record_version m t r) s = (s <| life := l |>, inr tt) /\ quiet (life s) l.
Proof.
  intros Hf. unfold in_life, asafe_record_version. rewrite session_flush_ok by done.
  eexists. split; [reflexivity|]. constructor; cbn; [|lia|done].
  pose proof (safe_record_version_core (supply (life s)) m t (Some r) "system" (db (life s))) as [H1 H2].
  unfold same_core. cbn. by rewrite H1, H2.
Qed.

(** Nothing about shared context, and ids drawn upwards. *)
Lemma shared_ok_later s s' :
  conflicts s' = conflicts s -> signals s' = signals s -> (supply (life s) <= supply (life s'))%Z ->
  shared_ok s -> shared_ok s'.
Proof.
  intros Ec Es Hle [S1 S2 S3 S4]. constructor; rewrite ?Ec, ?Es; try done.
  - intros i c Hi. destruct (S1 i c Hi) as [? ?]. split; [done|lia].
  - intros i c m Hi Hm. specialize (S3 i c m Hi Hm). lia.
  - intros g m Hg Hm. specialize (S4 g m Hg Hm). lia.
Qed.

(** ** Storing a memory *)

Section Storing.
Variable embedder : string -> option EmbeddingResult.
Variable model_collection : Memory -> option string.
Variable include_content : bool.
Variable outside : Outside.
Variables (rq : Request) (now : datetime) (tenant proxy : uuid).
Hypothesis Htenant : rq_tenant_id rq = Some tenant.
Hypothesis Hproxy : rq_proxy_user_id rq = Some proxy.
Hypothesis Hevidence : is_Some (evidence_refs (Some (rq_provenance_snapshot rq))).
(** The database refuses no statement of the recording of shared context. *)
Hypothesis Hcalm : forall statement, refuses outside statement = false.

(** Other tables than those of the session stay. *)
Definition only_life (s s' : Store) : Prop := s' = s <| life := life s' |>.

(** The effect of recording a stored memory. *)
Record claim_recorded (s s' : Store) : Prop := {
  cr_only : only_life s s';
  cr_consistent : consistent None (life s');
  cr_memories : memories (life s') = memories (life s);
  cr_proxies : proxies (life s') = proxies (life s);
  cr_queue : queue (life s') = queue (life s);
  cr_supply : (supply (life s) <= supply (life s'))%Z;
}.

(** Every claim of memory [p] can be updated by what [a] records. *)
Definition updatable (a : RecordArgs) (p : uuid) (L : Ledger) : Prop :=
  forall j r c, revisions L !! j = Some r -> r_memory_id r = Some p -> claims L !! r_claim_id r = Some c ->
  traceable a tenant proxy L c.

Lemma record_in_ledger_ok registered a replaced s :
  consistent replaced (life s) -> ra_declaration a = None ->
  ra_tenant_id a = Some tenant -> ra_proxy_user_id a = Some proxy -> is_Some (evidence_refs (ra_provenance a)) ->
  claims (ledger (life s)) !! ra_claim_id a = None -> revisions (ledger (life s)) !! ra_revision_id a = None ->
  (forall j r, revisions (ledger (life s)) !! j = Some r -> r_memory_id r <> Some (m_id (ra_memory a))) ->
  memories (life s) !! m_id (ra_memory a) = Some (ra_memory a) ->
  (ra_claim_id a < supply (life s))%Z /\ (ra_revision_id a < supply (life s))%Z ->
  (forall p, replaced = Some p -> ra_predecessor_memory_id a = Some p /\ is_update (ra_resolution a) = true
     /\ m_is_archived (ra_memory a) = false /\ updatable a p (ledger (life s))) ->
  after (record_in_ledger registered a) s (fun _ s' => claim_recorded s s').
Proof.
  intros Hok Hdecl Ht Hp Hev Hc Hr Hm Hst Hlt Hrep.
  pose proof (unrecorded_memory a (life s) Hm) as Hnone.
  pose proof (record_memory_outcome a (ledger (life s)) (cs_ledger _ _ Hok) Hc Hr Hnone) as Hout.
  (* where the ledger stays as it is, nothing was being replaced *)
  assert (fst (record_memory a (ledger (life s))) = ledger (life s) ->
          (forall cid, snd (record_memory a (ledger (life s))) <> inr (Some cid)) ->
          claim_recorded s (s <| life ::= fun l => l <| ledger := ledger (life s) |> |>)) as Hstays.
  { intros _ Hno. assert (consistent None (life s)) as Hnow.
    { destruct replaced as [p|]; [|done]. destruct (Hrep p eq_refl) as (Hpred & Hu & _ & Hupd).
      apply (unknown_replaced (life s) (Some p) Hok p eq_refl). intros j r Hj Hrm.
      destruct (wf_foreign_key _ (cs_ledger _ _ Hok) j r Hj) as [c Hcl].
      destruct (record_memory_returns a (ledger (life s)) tenant proxy p j r c) as (L' & cid & E); try done.
      { apply Hok. } { by eapply Hupd. }
      apply (Hno cid). by rewrite E. }
    constructor; cbn; try done. by destruct (life s). }
  unfold after, record_in_ledger. destruct (record_memory a (ledger (life s))) as [L' [e|[cid|]]] eqn:E.
  - assert (L' = ledger (life s) /\ (e = AttributeError \/ e = BadMapping \/ exists msg, e = ValueError msg)) as [-> He].
    { destruct e; try done. destruct Hout as [Hnone' _]. rewrite Hnone' in Hev. by destruct Hev. }
    destruct registered.
    + cbn. by destruct He as [->|[->|[msg ->]]].
    + assert (after_ledger (ledger (life s)) (Some e) (life s) = (life s) <| ledger := ledger (life s) |>) as Ea
        by (by destruct He as [->|[->|[msg ->]]]).
      cbn -[after_ledger]. rewrite Ea. by apply Hstays.
  - cbn. constructor; try done. cbn.
    apply (recorded_consistent a (life s) replaced) with (cid := cid); try done.
    intros p Hpr. destruct (Hrep p Hpr) as (? & ? & ? & _). by split_and!.
  - destruct Hout as [-> Hno]. destruct Hno; congruence.
Qed.

(** The provenance a memory row carries. *)
Definition row_provenance (m : Memory) : obj :=
  match jget_or_null "provenance" (m_metadata_json m) with JObj p => p | _ => [] end.

Lemma record_claim_ok memory resolution evidence predecessor replaced s :
  consistent replaced (life s) -> m_proxy_user_id memory = proxy ->
  is_Some (evidence_refs (Some (row_provenance memory))) ->
  memories (life s) !! m_id memory = Some memory ->
  (forall j r, revisions (ledger (life s)) !! j = Some r -> r_memory_id r <> Some (m_id memory)) ->
  (forall p, replaced = Some p -> predecessor = Some p /\ is_update resolution = true
     /\ m_is_archived memory = false
     /\ forall cid rid, updatable (record_args now memory tenant proxy (Some (row_provenance memory)) resolution
                                     evidence predecessor cid rid) p (ledger (life s))) ->
  after (_record_claim_for_memory rq now memory resolution evidence predecessor) s
    (fun _ s' => claim_recorded s s').
Proof.
  intros Hok Hprx Hev Hst Hm Hrep. unfold _record_claim_for_memory. rewrite Htenant, Hprx. fold (row_provenance memory).
  destruct (truthy _ && _); [done|].
  set (s2 := drawn (drawn s)).
  assert (consistent replaced (life s2)) as Hok2
    by (eapply consistent_quiet; [eapply quiet_trans; apply drawn_quiet|done]).
  assert (claims (ledger (life s)) !! supply (life s) = None) as Hc.
  { destruct (claims (ledger (life s)) !! supply (life s)) eqn:E; [|done].
    pose proof (cs_claims_below _ _ Hok (supply (life s)) ltac:(by eexists)). lia. }
  assert (revisions (ledger (life s)) !! (1 + supply (life s))%Z = None) as Hr.
  { destruct (revisions (ledger (life s)) !! (1 + supply (life s))%Z) eqn:E; [|done].
    destruct (cs_revisions_below _ _ Hok _ _ E). lia. }
  apply after_bind, after_new_id. apply after_bind, after_new_id.
  eapply after_mono.
  - apply (record_in_ledger_ok _ _ replaced s2); try done; [cbn; lia|].
    intros p Hp. destruct (Hrep p Hp) as (? & ? & ? & Hupd). split_and!; try done.
  - intros _ s' [Ho Hk Em Ep Eq Hs]. constructor; try done. cbn in Hs. lia.
Qed.

(** The row written for a memory. *)
Record written (x : ExtractedMemory) (previous : option uuid) (resolution : string) (archived : bool) (m : Memory)
    : Prop := {
  wr_content : m_content m = x_content x;
  wr_category : category_of_value (x_category x) = Some (m_category m);
  wr_owner : m_proxy_user_id m = proxy;
  wr_previous : m_previous_version_id m = previous;
  wr_archived : m_is_archived m = archived;
  wr_resolution : jget "resolution" (m_metadata_json m) = Some (JStr resolution);
}.

(** A pending row that brings a memory to the vector store, or takes it away. *)
Definition queued (operation : VectorSyncOperation.t) (memory_id : uuid) (l : Life) (from : uuid) : Prop :=
  exists i row, (from <= i < supply l)%Z /\ queue l !! i = Some row /\ o_memory_id row = memory_id
    /\ o_status row = VectorSyncStatus.pending /\ o_operation row = operation.

(** The effect of storing a memory. *)
Record stored_as (x : ExtractedMemory) (previous : option uuid) (resolution : string) (archived : bool)
    (sm : StoredMemory) (s s' : Store) : Prop := {
  st_consistent : consistent None (life s');
  st_shared : shared_ok s';
  st_supply : (supply (life s) <= sm_id sm < supply (life s'))%Z;
  st_queue i : (i < supply (life s))%Z -> queue (life s') !! i = queue (life s) !! i;
  st_memory : exists m, memories (life s') = <[sm_id sm := m]> (memories (life s))
                /\ written x previous resolution archived m;
  st_queued : archived = false -> queued VectorSyncOperation.upsert (sm_id sm) (life s') (supply (life s));
  st_returned : sm_content sm = x_content x /\ sm_previous_version_id sm = previous /\ sm_resolution sm = resolution;
}.

Lemma metadata_resolution x resolution evidence provenance :
  jget "resolution" (metadata_of x resolution evidence provenance) = Some (JStr resolution).
Proof. reflexivity. Qed.

Lemma metadata_provenance x resolution evidence provenance :
  match jget_or_null "provenance" (metadata_of x resolution evidence provenance) with JObj p => p | _ => [] end
  = default [] provenance.
Proof. unfold metadata_of. by destruct evidence as [[|]|], provenance. Qed.

Lemma row_provenance_lookup x previous resolution interval evidence embedding archived id owner category conversation
    memory_id k :
  k <> "extraction_evidence" ->
  jget k (row_provenance (new_stored_memory rq now id owner category x embedding previous resolution interval evidence
            (_provenance_for_extracted_memory rq x conversation memory_id) archived))
  = jget k (rq_provenance_snapshot rq).
Proof.
  intros Hk. unfold row_provenance. cbn [m_metadata_json new_stored_memory]. rewrite metadata_provenance.
  unfold _provenance_for_extracted_memory. destruct (x_validated_evidence x) as [|e evs].
  - by destruct (rq_provenance_snapshot rq).
  - rewrite <- (jget_jset_ne k "extraction_evidence" (JObj (jset "source_conversation_id" (JStr (uuid_str conversation))
        (jset "memory_id" (JStr (uuid_str memory_id)) (e :: evs)))) (rq_provenance_snapshot rq) Hk).
    by destruct (jset _ _ (rq_provenance_snapshot rq)).
Qed.

Lemma row_evidence_refs x previous resolution interval evidence embedding archived id owner category conversation
    memory_id :
  is_Some (evidence_refs (Some (row_provenance (new_stored_memory rq now id owner category x embedding previous
    resolution interval evidence (_provenance_for_extracted_memory rq x conversation memory_id) archived)))).
Proof.
  pose proof Hevidence as He. revert He. unfold evidence_refs, jget_or_null. cbn [default]. unfold Datatypes.id.
  by rewrite row_provenance_lookup.
Qed.

(** An update of stored memory [p] by [x] is one the ledger can follow: the
    claims of [p] are propositions of the same owner, category and scope. *)
Definition trackable (x : ExtractedMemory) (p : uuid) (L : Ledger) : Prop :=
  forall j r c, revisions L !! j = Some r -> r_memory_id r = Some p -> claims L !! r_claim_id r = Some c ->
  c_subject_key c = GENERIC_CLAIM_SUBJECT /\ c_tenant_id c = tenant /\ c_proxy_user_id c = proxy
  /\ category_of_value (x_category x) = Some (c_category c)
  /\ (exists scope, dict_or_empty (jget_or_null "scope" (rq_provenance_snapshot rq)) = Some scope
        /\ normalize_generic_scope (c_scope c) = normalize_generic_scope scope)
  /\ is_Some (authority_priority (Some (rq_provenance_snapshot rq)) (MemoryCategory.value (c_category c))).

Lemma trackable_updatable x p L memory_id' category embedding previous resolution interval evidence conversation memory_id
    archived predecessor cid rid :
  trackable x p L -> category_of_value (x_category x) = Some category ->
  let m := new_stored_memory rq now memory_id' proxy category x embedding previous resolution interval evidence
             (_provenance_for_extracted_memory rq x conversation memory_id) archived in
  updatable (record_args now m tenant proxy (Some (row_provenance m)) resolution evidence predecessor cid rid) p L.
Proof.
  intros Ht Hcat m j r c Hj Hr Hc. destruct (Ht j r c Hj Hr Hc) as (Hs & Hten & Hpr & Hca & (scope & Hscope & Hn) & Hprio).
  rewrite Hcat in Hca. injection Hca as ->.
  constructor; cbn [record_args ra_memory ra_provenance]; try done.
  - exists scope. cbn [default]. split; [|done]. unfold jget_or_null, m, id.
    by rewrite row_provenance_lookup.
  - revert Hprio. unfold authority_priority, provenance_dict, jget_or_null. cbn [default m_category].
    unfold m, id. by rewrite row_provenance_lookup.
  - apply row_evidence_refs.
Qed.

Lemma fresh_memory replaced s : consistent replaced (life s) -> memories (life s) !! supply (life s) = None.
Proof.
  intros Hok. destruct (memories (life s) !! supply (life s)) eqn:E; [|done].
  pose proof (cs_memories_below _ _ Hok (supply (life s)) ltac:(by eexists)). lia.
Qed.

Lemma unrecorded_below replaced l m j r :
  consistent replaced l -> (supply l <= m)%Z -> revisions (ledger l) !! j = Some r -> r_memory_id r <> Some m.
Proof. intros Hok Hle Hj Hm. destruct (cs_revisions_below _ _ Hok j r Hj) as [_ Hb]. specialize (Hb m Hm). lia. Qed.

(** Writing the row of a memory, its version and its claim. *)
Lemma write_memory_ok {A} m resolution evidence predecessor replaced s0 s (rest : SM A) Q :
  consistent replaced (life s) -> quiet (life s0) (life s) ->
  m_id m = supply (life s0) -> (supply (life s0) < supply (life s))%Z -> m_proxy_user_id m = proxy ->
  is_Some (evidence_refs (Some (row_provenance m))) ->
  consistent replaced (life s0) ->
  (forall p, replaced = Some p -> predecessor = Some p /\ is_update resolution = true
     /\ m_is_archived m = false
     /\ forall cid rid, updatable (record_args now m tenant proxy (Some (row_provenance m)) resolution
                                     evidence predecessor cid rid) p (ledger (life s0))) ->
  (forall s', only_life s s' -> consistent None (life s') ->
     memories (life s') = <[m_id m := m]> (memories (life s)) ->
     (supply (life s) <= supply (life s'))%Z ->
     (forall i, (i < supply (life s))%Z -> queue (life s') !! i = queue (life s) !! i) -> after rest s' Q) ->
  after (in_life (modify_st (put_memory m));;
         in_life session_flush;;
         in_life (asafe_record_version m "created" "Extracted from conversation");;
         _record_claim_for_memory rq now m resolution evidence predecessor;;
         rest) s Q.
Proof.
  intros Hok Hq Hid Hlt Hprx Hev Hok0 Hrep Hrest.
  destruct (qt_core _ _ Hq) as (El & Em & _ & _).
  set (s1 := s <| life := put_memory m (life s) |>).
  assert (consistent replaced (life s1)) as Hok1.
  { apply consistent_new_memory; [done| |lia]. rewrite Hid, Em. by eapply fresh_memory. }
  apply after_bind. eapply after_returns; [apply in_life_modify|]. fold s1.
  apply after_bind. eapply after_returns; [apply in_life_flush_ok; by eapply consistent_flushable|].
  destruct (in_life_version m "created" "Extracted from conversation" s1) as (l2 & Ev & Hq2);
    [by eapply consistent_flushable|].
  apply after_bind. eapply after_returns; [exact Ev|]. set (s2 := s1 <| life := l2 |>).
  pose proof (consistent_quiet _ _ _ Hq2 Hok1) as Hok2. destruct Hq2 as [(El2 & Em2 & _ & _) Hs2 Hqu2].
  apply after_bind. eapply after_mono.
  - apply (record_claim_ok m resolution evidence predecessor replaced s2); try done.
    + subst s2. cbn. rewrite Em2. cbn. apply lookup_insert_eq.
    + intros j r. subst s2. cbn. rewrite El2. cbn. rewrite El. intros Hj. rewrite Hid.
      eapply unrecorded_below; [exact Hok0|lia|exact Hj].
    + intros p Hp. destruct (Hrep p Hp) as (? & ? & ? & Hupd). split_and!; try done.
      intros cid rid. subst s2. cbn. rewrite El2. cbn. rewrite El. apply Hupd.
  - intros _ s' [Ho Hk Emem _ Eq Hsup]. subst s2. cbn in Emem, Eq, Hsup. apply Hrest.
    + unfold only_life in *. rewrite Ho. subst s1. by destruct s.
    + done.
    + by rewrite Emem, Em2.
    + cbn in Hs2. lia.
    + intros i Hi. rewrite Eq. apply Hqu2. cbn. lia.
Qed.

Lemma store_new_memory_ok x embedding previous resolution archived evidence replaced s :
  consistent replaced (life s) -> shared_ok s ->
  (forall p, replaced = Some p -> previous = Some p /\ is_update resolution = true /\ archived = false
     /\ trackable x p (ledger (life s))) ->
  after (_store_new_memory model_collection include_content rq now x embedding previous resolution archived evidence) s
    (fun sm s' => stored_as x previous resolution archived sm s s' /\ conflicts s' = conflicts s).
Proof.
  intros Hok Hsh Hrep. unfold _store_new_memory. apply after_bind, after_new_id.
  set (memory_id := supply (life s)).
  assert (forall Q : uuid -> Store -> Prop,
    (forall conversation s1, only_life s s1 -> quiet (life s) (life s1) -> (memory_id < supply (life s1))%Z -> Q conversation s1) ->
    after (match rq_source_conversation_id rq, rq_default_source_conversation_id rq with
           | Some c, _ | None, Some c => mret c | None, None => new_id end) (drawn s) Q) as Hconv.
  { intros Q HQ. assert (quiet (life s) (life (drawn (drawn s)))) as Hq2 by (eapply quiet_trans; apply drawn_quiet).
    destruct (rq_source_conversation_id rq), (rq_default_source_conversation_id rq);
      first [apply after_ret; apply HQ; [by destruct s|apply drawn_quiet|cbn; lia]
            |apply after_new_id, HQ; [by destruct s|done|cbn; lia]]. }
  apply after_bind, Hconv. clear Hconv. intros conversation s1 Ho1 Hq1 Hlt1. cbv zeta.
  apply after_bind, after_lift_opt; [done|]. intros interval _.
  unfold owner_id. rewrite Hproxy. apply after_bind, after_ret.
  apply after_bind, after_lift_opt; [done|]. intros category Hcat.
  set (m := new_stored_memory rq now memory_id proxy category x embedding previous resolution interval evidence
              (_provenance_for_extracted_memory rq x conversation memory_id) archived).
  apply (write_memory_ok m resolution evidence previous replaced s s1); try done.
  { by eapply consistent_quiet. }
  { apply row_evidence_refs. }
  { intros p Hp. destruct (Hrep p Hp) as (? & ? & -> & Ht). split_and!; try done.
    intros cid rid. by apply trackable_updatable. }
  intros s2 Ho2 Hok2 Em2 Hle2 Hq2. destruct (qt_core _ _ Hq1) as (_ & Em1 & _ & _).
  assert (written x previous resolution archived m) as Hw by (by constructor).
  assert (forall s3 : Store, conflicts s3 = conflicts s2 -> signals s3 = signals s2 ->
    (supply (life s2) <= supply (life s3))%Z -> quiet (life s2) (life s3) -> 
    (archived = false -> queued VectorSyncOperation.upsert memory_id (life s3) memory_id) ->
    forall sm, sm_id sm = memory_id -> sm_content sm = x_content x -> sm_previous_version_id sm = previous ->
    sm_resolution sm = resolution ->
    stored_as x previous resolution archived sm s s3 /\ conflicts s3 = conflicts s) as Hdone.
  { intros s3 Ec Es Hle3 Hq3 Hqueued sm Eid Econt Eprev Eres.
    assert (conflicts s3 = conflicts s) as Ecs by (rewrite Ec, Ho2; cbn; by rewrite Ho1). split; [|done].
    constructor; rewrite ?Eid; try done.
    - by eapply consistent_quiet.
    - apply (shared_ok_later s); [..|done].
      + done.
      + rewrite Es, Ho2. cbn. by rewrite Ho1.
      + unfold memory_id in *. lia.
    - unfold memory_id in *. lia.
    - intros i Hi. unfold memory_id in *. rewrite (qt_queue _ _ Hq3), Hq2, (qt_queue _ _ Hq1) by lia. done.
    - exists m. destruct (qt_core _ _ Hq3) as (_ & -> & _ & _). rewrite Em2, Em1. done. }
  apply after_bind. destruct archived.
  - apply after_ret, after_ret. apply Hdone; try done.
  - apply after_bind, after_new_id. eapply after_returns; [apply in_life_modify|]. apply after_ret. apply Hdone; try done.
    + cbn. lia.
    + constructor; cbn; [by split_and!|lia|]. intros i Hi. unfold enqueue_vector_upsert. by rewrite lookup_insert_ne by lia.
    + intros _. exists (supply (life s2)). eexists. cbn. unfold enqueue_vector_upsert. rewrite lookup_insert_eq. split; [|split; [done|]].
      * unfold memory_id in *. cbn in *. lia.
      * by split_and!.
Qed.

Lemma stored_as_later x previous resolution archived sm s s1 s2 :
  stored_as x previous resolution archived sm s s1 -> quiet (life s1) (life s2) -> shared_ok s2 ->
  queue (life s2) = queue (life s1) -> stored_as x previous resolution archived sm s s2.
Proof.
  intros [Hc Hsh Hs Hq (m & Em & Hw) Hqd Hr] Hqt Hsh2 Eq. destruct Hqt as [Hcore Hle _].
  constructor; try done.
  - eapply consistent_quiet; [|done]. constructor; [done|done|]. intros i _. by rewrite Eq.
  - lia.
  - intros i Hi. rewrite Eq. by apply Hq.
  - exists m. destruct Hcore as (_ & -> & _ & _). done.
  - intros Ha. destruct (Hqd Ha) as (i & row & ? & ? & ?). exists i, row. rewrite Eq. split; [lia|done].
Qed.

Lemma quiet_supply l : (forall n, (supply l <= n)%Z -> quiet l (l <| supply := n |>)).
Proof. intros n Hn. constructor; [by split_and!|done|done]. Qed.

Lemma after_context memory_id x s Q :
  Q tt (record_shared_context now outside (rq_domain_schema rq) memory_id x tenant proxy s).1 ->
  after (_record_shared_context_for_stored_memory now outside (rq_domain_schema rq) memory_id x
           (Some tenant) (Some proxy)) s Q.
Proof. unfold after, _record_shared_context_for_stored_memory. done. Qed.

Lemma store_with_context_ok x embedding previous resolution archived context evidence replaced s :
  consistent replaced (life s) -> shared_ok s ->
  (forall p, replaced = Some p -> previous = Some p /\ is_update resolution = true /\ archived = false
     /\ trackable x p (ledger (life s))) ->
  after (_store_new_memory_with_shared_context model_collection include_content outside rq now x embedding previous
           resolution archived context evidence) s
    (fun sm s' => stored_as x previous resolution archived sm s s').
Proof.
  intros Hok Hsh Hrep. unfold _store_new_memory_with_shared_context. apply after_bind.
  eapply after_mono; [exact (store_new_memory_ok x embedding previous resolution archived evidence replaced s Hok Hsh Hrep)|].
  intros sm s1 [Hst _]. apply after_bind.
  destruct context; [|by apply after_ret, after_ret]. rewrite Htenant, Hproxy.
  pose proof (record_shared_context_ok now outside (rq_domain_schema rq) tenant proxy Hcalm x (sm_id sm) s1
    (st_shared _ _ _ _ _ _ _ Hst) (consistent_flushable _ _ (st_consistent _ _ _ _ _ _ _ Hst))
    (proj2 (st_supply _ _ _ _ _ _ _ Hst))) as [Hok2 Hl2 Hle2 _ _ _ _].
  apply after_context, after_ret. eapply stored_as_later; [exact Hst| |done|].
  - rewrite Hl2. by apply quiet_supply.
  - by rewrite Hl2.
Qed.

(** ** Archiving the memory an update replaces *)

Record archived_for_update (m : Memory) (s s' : Store) : Prop := {
  ar_only : only_life s s';
  ar_consistent : consistent (Some (m_id m)) (life s');
  ar_ledger : ledger (life s') = ledger (life s);
  ar_memories : memories (life s') = <[m_id m := m <| m_is_archived := true |>]> (memories (life s));
  ar_supply : (supply (life s) <= supply (life s'))%Z;
  ar_queue i : (i < supply (life s))%Z -> queue (life s') !! i = queue (life s) !! i;
  ar_queued : queued VectorSyncOperation.archive (m_id m) (life s') (supply (life s));
}.

Lemma archive_memory_ok m reason s :
  consistent None (life s) -> memories (life s) !! m_id m = Some m ->
  after (_archive_memory model_collection include_content now m reason) s (fun _ s' => archived_for_update m s s').
Proof.
  intros Hok Hm. unfold _archive_memory.
  destruct (in_life_version m "conflict_update" reason s) as (l1 & Ev & Hq1); [by eapply consistent_flushable|].
  apply after_bind. eapply after_returns; [exact Ev|]. set (s1 := s <| life := l1 |>).
  apply after_bind. eapply after_returns; [reflexivity|]. apply after_bind, after_new_id.
  apply after_bind. eapply after_returns; [apply in_life_modify|].
  eapply after_returns; [apply in_life_modify|].
  pose proof (consistent_quiet _ _ _ Hq1 Hok) as Hok1. destruct Hq1 as [(El & Em & _ & _) Hle Hq].
  assert (memories l1 !! m_id m = Some m) as Hm1 by (by rewrite Em).
  constructor; cbn.
  - unfold only_life. by destruct s.
  - eapply consistent_quiet; [|exact (consistent_archived m l1 Hok1 Hm1)].
    constructor; cbn; [by split_and!|lia|]. intros i Hi. unfold enqueue_vector_archive.
    by rewrite lookup_insert_ne by lia.
  - done.
  - by rewrite Em.
  - lia.
  - intros i Hi. unfold enqueue_vector_archive. rewrite lookup_insert_ne by lia. by apply Hq.
  - exists (supply l1). eexists. unfold enqueue_vector_archive. cbn. rewrite lookup_insert_eq.
    split; [lia|]. by split_and!.
Qed.

(** ** Clarifications *)

(** A conflict row added, and nothing else of what matters here. *)
Definition waits (s s' : Store) : Prop :=
  life s' = (life s) <| supply := supply (life s') |> /\ (supply (life s) <= supply (life s'))%Z /\ shared_ok s'.

Lemma waits_refl s : shared_ok s -> waits s s.
Proof. intros Hsh. split_and!; [by destruct (life s)|lia|done]. Qed.

Lemma add_conflict_ok {A} c s (rest : SM A) Q :
  shared_ok s -> flushable (life s) -> cf_id c = supply (life s) ->
  (forall m, cf_user_a_memory_id c = Some m \/ cf_user_b_memory_id c = Some m -> (m < supply (life s))%Z) ->
  (forall i c', conflicts s !! i = Some c' -> pair_key c' <> pair_key c) ->
  (forall s', waits s s' -> after rest s' Q) ->
  after (add_conflict c;; rest) (drawn s) Q.
Proof.
  intros Hsh Hf Hid Hmem Hnew Hrest. apply after_bind. unfold add_conflict.
  set (s1 := drawn s <| conflicts ::= insert (cf_id c) c |>).
  apply after_bind. apply (after_returns _ _ s1 tt); [done|].
  eapply after_returns; [by apply in_life_flush_ok|]. apply Hrest. destruct Hsh as [S1 S2 S3 S4].
  split; [reflexivity|]. split; [cbn; lia|]. constructor; cbn; rewrite ?Hid.
  - intros i c' Hi. apply lookup_insert_Some in Hi as [[<- <-]|[_ Hi]]; [split; [done|lia]|].
    destruct (S1 i c' Hi). split; [done|lia].
  - intros i j a b Hi Hj Ha E. apply lookup_insert_Some in Hi as [[<- <-]|[_ Hi]];
      apply lookup_insert_Some in Hj as [[<- <-]|[_ Hj]]; [done| | |by eapply S2].
    + by destruct (Hnew j b Hj).
    + by destruct (Hnew i a Hi).
  - intros i c' m Hi Hm. apply lookup_insert_Some in Hi as [[<- <-]|[_ Hi]].
    + specialize (Hmem m Hm). lia.
    + specialize (S3 i c' m Hi Hm). lia.
  - intros g m Hg Hm. specialize (S4 g m Hg Hm). lia.
Qed.

(** A pair with a memory no conflict knows is a new pair. *)
Lemma pending_pair_is_new s bound id existing pending category status resolution path attention evidence :
  (forall i c m, conflicts s !! i = Some c -> cf_user_a_memory_id c = Some m \/ cf_user_b_memory_id c = Some m ->
     (m < bound)%Z) ->
  (bound <= m_id pending)%Z ->
  forall i c, conflicts s !! i = Some c ->
    pair_key c <> pair_key (pending_conflict now id tenant existing pending category status resolution path attention evidence).
Proof.
  intros Hb Hle i c Hi. unfold pair_key. cbn.
  destruct (cf_user_a_memory_id c) as [a|] eqn:Ea; [|done]. destruct (cf_user_b_memory_id c) as [b|] eqn:Eb; [|done].
  cbn. intros [= _ Hmin Hmax _]. pose proof (Hb i c a Hi ltac:(by left)). pose proof (Hb i c b Hi ltac:(by right)). lia.
Qed.

Section Clarify.
Variables (s : Store) (existing pending : Memory) (bound : uuid).
Hypothesis Hsh : shared_ok s.
Hypothesis Hf : flushable (life s).
Hypothesis Hexisting : (m_id existing < supply (life s))%Z.
Hypothesis Hpending : stored_memories s !! m_id pending = Some pending.
Hypothesis Hpending_below : (bound <= m_id pending < supply (life s))%Z.
Hypothesis Hbound : forall i c m, conflicts s !! i = Some c ->
  cf_user_a_memory_id c = Some m \/ cf_user_b_memory_id c = Some m -> (m < bound)%Z.

Lemma equal_authority_ok category :
  after (_create_equal_authority_conflict rq now existing (m_id pending) category) s (fun _ s' => waits s s').
Proof.
  unfold _create_equal_authority_conflict. apply after_bind. apply (after_returns _ s s s); [done|].
  rewrite Htenant, Hproxy, Hpending. apply after_bind, after_new_id. apply add_conflict_ok; try done.
  - cbn. intros m [[= <-]|[= <-]]; [done|apply Hpending_below].
  - by eapply pending_pair_is_new; [|apply Hpending_below].
  - intros s' (E1 & E2 & [S1 S2 S3 S4]). by split_and!.
Qed.

Lemma self_scoped_ok category reasoning :
  after (_create_self_scoped_clarification rq now existing (m_id pending) category reasoning) s
    (fun _ s' => waits s s').
Proof.
  unfold _create_self_scoped_clarification. apply after_bind. apply (after_returns _ s s s); [done|].
  rewrite Htenant, Hproxy, Hpending. destruct (negb _); [by apply after_ret, waits_refl|].
  apply after_bind, after_new_id. cbv zeta. apply add_conflict_ok; try done.
  - cbn. intros m [[= <-]|[= <-]]; [done|apply Hpending_below].
  - by eapply pending_pair_is_new; [|apply Hpending_below].
  - intros s' (E1 & E2 & [S1 S2 S3 S4]). apply after_bind. eapply after_returns; [reflexivity|]. by split_and!.
Qed.
End Clarify.

(** ** Candidates *)

Lemma expected_new_memory x e c : expected_candidate x e = Some c -> cc_new_memory c = x.
Proof. unfold expected_candidate. repeat (case_match; try done); by intros [= <-]. Qed.

Lemma detected_candidate x existing_memories c :
  NoDup (ConflictDetectionTheorems.key_of <$> existing_memories) -> c ∈ detect_candidates x existing_memories ->
  cc_new_memory c = x /\ exists e, e ∈ existing_memories /\ cc_existing_memory c = ConflictDetection.ex_memory e.
Proof.
  intros Hnd. rewrite detection_rule by done. rewrite sort_by_perm. intros (e & He & Hc)%list_elem_of_omap.
  split; [by eapply expected_new_memory|]. exists e. split; [done|]. by apply expected_confidence in Hc as [-> _].
Qed.

Definition loaded (s : Store) (e : Existing) : Prop :=
  stored_memories s !! m_id (ConflictDetection.ex_memory e) = Some (ConflictDetection.ex_memory e).

Definition nominees (s : Store) (found : list Existing) : Prop :=
  NoDup (ConflictDetectionTheorems.key_of <$> found) /\ Forall (loaded s) found.

Lemma nominees_snoc s found m score :
  nominees s found -> known m found = false -> stored_memories s !! m_id m = Some m ->
  nominees s (found ++ [Build_Existing m score]).
Proof.
  intros [Hnd Hall] Eex Hm. split.
  - rewrite fmap_app. apply NoDup_app. split_and!; [done| |apply NoDup_singleton].
    intros k Hk Hin. apply list_elem_of_singleton in Hin as ->.
    apply list_elem_of_fmap in Hk as (e & Ee & Hin). apply not_true_iff_false in Eex. apply Eex.
    apply existsb_exists. exists e. split; [by apply list_elem_of_In|]. by apply bool_decide_eq_true.
  - apply Forall_app. split; [done|]. by constructor.
Qed.

Lemma context_candidates_loaded s rows found :
  (forall i m, stored_memories s !! i = Some m -> m_id m = i) -> nominees s found ->
  nominees s (context_candidates rq now s rows found).
Proof.
  intros Hids. revert found. induction rows as [|i rows IH]; intros found Hf; [done|].
  cbn [context_candidates]. apply IH. destruct (stored_memories s !! i) as [m|] eqn:E; [|done].
  destruct (_ && _ && _) eqn:Eb; [|done]. apply andb_true_iff in Eb as [_ Eb%negb_true_iff].
  apply nominees_snoc; [done..|]. by rewrite (Hids i m E).
Qed.

Lemma candidate_memories_loaded governed s points found :
  (forall i m, stored_memories s !! i = Some m -> m_id m = i) -> nominees s found ->
  nominees s (candidate_memories rq now governed s points found).
Proof.
  intros Hids. revert found. induction points as [|[i score] points IH]; intros found Hf; [done|].
  cbn [candidate_memories]. apply IH. destruct (_load_existing_memory s i) as [m|] eqn:E; [|done].
  destruct (governed && _); [done|]. destruct (known m found) eqn:Eex; [done|]. apply nominees_snoc; [done..|].
  unfold _load_existing_memory in E. destruct (stored_memories s !! i) as [m'|] eqn:Em; [|done].
  cbn in E. destruct (declares_preference m'); [done|]. injection E as ->. by rewrite (Hids i m Em).
Qed.

(** ** Carrying a decision out *)

Definition archive_target (target : option Memory) (ms : gmap uuid Memory) : gmap uuid Memory :=
  match target with Some e => <[m_id e := e <| m_is_archived := true |>]> ms | None => ms end.

(** A memory was stored, and the one it replaces was archived. *)
Record stored_effect (target : option Memory) (x : ExtractedMemory) (previous : option uuid) (resolution : string)
    (archived : bool) (sm : StoredMemory) (s s' : Store) : Prop := {
  se_fresh : memories (life s) !! sm_id sm = None;
  se_memories : exists m, memories (life s') = <[sm_id sm := m]> (archive_target target (memories (life s)))
                  /\ written x previous resolution archived m;
  se_queued : archived = false -> queued VectorSyncOperation.upsert (sm_id sm) (life s') (supply (life s));
  se_withdrawn e : target = Some e -> queued VectorSyncOperation.archive (m_id e) (life s') (supply (life s));
  se_returned : sm_content sm = x_content x /\ sm_previous_version_id sm = previous /\ sm_resolution sm = resolution;
}.

Definition sound (s : Store) : Prop := consistent None (life s) /\ shared_ok s.

(** The outcome of a round. *)
Definition round_outcome (s s' : Store) (stored : option StoredMemory) : Prop :=
  match stored with
  | None => life s' = life s
  | Some sm => exists target x previous resolution archived,
      stored_effect target x previous resolution archived sm s s' /\
      (is_Some target <-> is_update resolution = true) /\
      (archived = true <-> resolution = "CLARIFICATION_PENDING") /\
      (forall e, target = Some e -> previous = Some (m_id e) /\ memories (life s) !! m_id e = Some e)
  end.

Lemma stored_as_effect x previous resolution archived sm s s' :
  sound s -> stored_as x previous resolution archived sm s s' ->
  sound s' /\ stored_effect None x previous resolution archived sm s s'.
Proof.
  intros [Hok Hsh] [Hc Hsh' Hs Hq Hm Hqd Hr]. split; [done|]. constructor; try done.
  destruct (memories (life s) !! sm_id sm) eqn:E; [|done].
  pose proof (cs_memories_below _ _ Hok (sm_id sm) ltac:(by eexists)). lia.
Qed.

(** Later changes to tables the ledger does not see. *)
Lemma audit_after action old new memory_id s (Q : unit -> Store -> Prop) :
  (forall s', life s' = life s -> conflicts s' = conflicts s -> signals s' = signals s -> Q tt s') ->
  after (_create_audit_log rq action old new memory_id) s Q.
Proof. intros HQ. by apply HQ. Qed.

Lemma sound_later s s' :
  life s' = life s -> conflicts s' = conflicts s -> signals s' = signals s -> sound s -> sound s'.
Proof. intros El Ec Es [Hok Hsh]. split; [by rewrite El|]. apply (shared_ok_later s); try done. rewrite El. lia. Qed.

Lemma effect_later target x previous resolution archived sm s s1 s2 :
  life s2 = life s1 -> stored_effect target x previous resolution archived sm s s1 ->
  stored_effect target x previous resolution archived sm s s2.
Proof. intros El []. constructor; try done; by rewrite El. Qed.

(** What replaces a memory: the new memory, or its merge with the old one. *)
Definition replacement (d : ConflictDecision) (c : ConflictCandidate) : option ExtractedMemory :=
  match d_action d with
  | Action.UPDATE => Some (cc_new_memory c)
  | Action.MERGE => Some (_build_merged_memory (cc_existing_memory c) (cc_new_memory c) (d_merged_memory d))
  | _ => None
  end.

Section Apply.
Variables (s : Store) (c : ConflictCandidate).
Let existing := cc_existing_memory c.
Hypothesis Hsound : sound s.
Hypothesis Hexisting : memories (life s) !! m_id existing = Some existing.

Lemma replace_ok {A} x resolution evidence embedding (rest : StoredMemory -> SM A) s1 Q :
  archived_for_update existing s s1 -> is_update resolution = true -> trackable x (m_id existing) (ledger (life s)) ->
  (forall sm s', sound s' -> stored_effect (Some existing) x (Some (m_id existing)) resolution false sm s s' ->
     after (rest sm) s' Q) ->
  after (stored ← _store_new_memory_with_shared_context model_collection include_content outside rq now x embedding
                    (Some (m_id existing)) resolution false true evidence;
         rest stored) s1 Q.
Proof.
  intros Har Hu Ht Hrest. destruct Hsound as [Hok Hsh].
  apply after_bind. eapply after_mono.
  - apply (store_with_context_ok x embedding (Some (m_id existing)) resolution false true evidence
             (Some (m_id existing)) s1); [apply Har| |].
    + apply (shared_ok_later s); [by rewrite (ar_only _ _ _ Har)|by rewrite (ar_only _ _ _ Har)|apply Har|done].
    + intros p [= <-]. split_and!; try done. by rewrite (ar_ledger _ _ _ Har).
  - intros sm s' [Hc Hsh' Hs Hq (m & Em & Hw) Hqd Hr]. pose proof (ar_supply _ _ _ Har) as Hle.
    apply Hrest; [done|]. constructor; try done.
    + destruct (memories (life s) !! sm_id sm) eqn:E; [|done].
      pose proof (cs_memories_below _ _ Hok (sm_id sm) ltac:(by eexists)). lia.
    + exists m. split; [|done]. by rewrite Em, (ar_memories _ _ _ Har).
    + intros _. destruct (Hqd eq_refl) as (i & row & ? & ? & ?). exists i, row. split; [lia|done].
    + intros e [= <-]. destruct (ar_queued _ _ _ Har) as (i & row & Hi & Hrow & Hrest').
      exists i, row. rewrite Hq by lia. split; [lia|done].
Qed.

(** The state after a decision was carried out. *)
Definition round_done (stored : option StoredMemory) (s' : Store) : Prop :=
  sound s' /\ round_outcome s s' stored.

Lemma replaced_outcome x resolution sm s' :
  is_update resolution = true -> sound s' ->
  stored_effect (Some existing) x (Some (m_id existing)) resolution false sm s s' -> round_done (Some sm) s'.
Proof.
  intros Hu Hs' He. split; [done|]. exists (Some existing), x, (Some (m_id existing)), resolution, false.
  split_and!; try done.
  - split; [done|]. intros E. by rewrite E in Hu.
  - by intros e [= <-].
Qed.

Lemma apply_update_ok embedding d :
  trackable (cc_new_memory c) (m_id existing) (ledger (life s)) ->
  after (apply_update model_collection include_content outside rq now c embedding d) s
    (fun sm s' => round_done (Some sm) s').
Proof.
  intros Ht. unfold apply_update. cbv zeta. apply after_bind.
  eapply after_mono; [exact (archive_memory_ok existing _ s (proj1 Hsound) Hexisting)|]. cbv beta. intros _ s1 Har.
  apply (replace_ok _ _ _ _ _ s1); try done. intros sm s2 Hs2 He.
  apply after_bind, audit_after. intros s3 El Ec Es. apply after_ret.
  eapply (replaced_outcome _ "UPDATE"); [done|by eapply sound_later|by eapply effect_later].
Qed.

Lemma apply_merge_ok d :
  trackable (_build_merged_memory existing (cc_new_memory c) (d_merged_memory d)) (m_id existing) (ledger (life s)) ->
  after (apply_merge embedder model_collection include_content outside rq now c d) s
    (fun sm s' => round_done (Some sm) s').
Proof.
  intros Ht. unfold apply_merge. cbv zeta. fold existing. apply after_bind.
  eapply after_mono; [exact (archive_memory_ok existing _ s (proj1 Hsound) Hexisting)|]. cbv beta. intros _ s1 Har.
  apply after_bind. unfold embed. apply after_lift_opt; [done|]. intros embedding _.
  apply (replace_ok _ _ _ _ _ s1); try done. intros sm s2 Hs2 He.
  apply after_bind, audit_after. intros s3 El Ec Es. apply after_ret.
  eapply (replaced_outcome _ "MERGE"); [done|by eapply sound_later|by eapply effect_later].
Qed.

Lemma waits_effect target x previous resolution archived sm s1 s2 :
  waits s1 s2 -> stored_effect target x previous resolution archived sm s s1 ->
  sound s1 -> sound s2 /\ stored_effect target x previous resolution archived sm s s2.
Proof.
  intros (El & Hle & Hsh) [F M Q W R] [Hok _].
  assert (memories (life s2) = memories (life s1)) as Em by (by rewrite El).
  assert (queue (life s2) = queue (life s1)) as Eq by (by rewrite El).
  split.
  - split; [|done]. eapply consistent_quiet; [|done]. rewrite El. by apply quiet_supply.
  - constructor; try done.
    + by rewrite Em.
    + intros Ha. destruct (Q Ha) as (i & row & ? & ? & ?). exists i, row. rewrite Eq. split; [lia|done].
    + intros e He. destruct (W e He) as (i & row & ? & ? & ?). exists i, row. rewrite Eq. split; [lia|done].
Qed.

Lemma apply_clarify_ok embedding equal_authority d :
  after (apply_clarify embedder model_collection include_content outside rq now c embedding equal_authority d) s
    (fun sm s' => round_done (Some sm) s').
Proof.
  unfold apply_clarify. cbv zeta. fold existing.
  set (x := default (cc_new_memory c) (d_clarification_option_memory d)). destruct Hsound as [Hok Hsh].
  apply after_bind. eapply (after_mono _ _ (fun _ s' => s' = s)).
  { destruct (bool_decide _); [by apply after_ret|]. unfold embed. by apply after_lift_opt. }
  intros embedding' ? ->. unfold _store_new_memory_with_shared_context. apply after_bind. apply after_bind.
  eapply after_mono; [apply (store_new_memory_ok x embedding' (Some (m_id existing)) "CLARIFICATION_PENDING" true
    (Some (evidence_of d c)) None s Hok Hsh); done|].
  intros sm s1 [Hst Ec]. apply after_bind, after_ret, after_ret.
  destruct (stored_as_effect _ _ _ _ _ _ _ Hsound Hst) as [Hs1 He].
  destruct (st_memory _ _ _ _ _ _ _ Hst) as (m & Em & Hw).
  assert (memories (life s1) !! sm_id sm = Some m) as Hm by (by rewrite Em, lookup_insert_eq).
  pose proof (cs_memory_ids _ _ (proj1 Hs1) _ _ Hm) as Hid.
  pose proof (st_supply _ _ _ _ _ _ _ Hst) as Hsup.
  apply after_bind. eapply (after_mono _ _ (fun _ s' => waits s1 s')).
  { rewrite <- Hid in *.
    assert (m_id existing < supply (life s))%Z as Hlt by (apply (cs_memories_below _ _ Hok); by eexists).
    assert (forall i c' m', conflicts s1 !! i = Some c' ->
              cf_user_a_memory_id c' = Some m' \/ cf_user_b_memory_id c' = Some m' -> (m' < supply (life s))%Z) as Hb
      by (rewrite Ec; apply (so_members s Hsh)).
    destruct equal_authority; [apply (equal_authority_ok _ _ _ (supply (life s)))|apply (self_scoped_ok _ _ _ (supply (life s)))];
      try done; try (by apply Hs1); try (by eapply consistent_flushable, Hs1); lia. }
  intros _ s2 Hwait. destruct (waits_effect _ _ _ _ _ _ _ _ Hwait He Hs1) as [Hs2 He2].
  apply after_bind, audit_after. intros s3 El Ec3 Es3. apply after_ret.
  split; [by eapply sound_later|]. do 5 eexists. split; [by eapply effect_later|]. split_and!; try done.
Qed.
End Apply.

(** A source that asks for a clarification replaces nothing, whatever the
    authority of its writer. *)
Lemma clarifying_source_replaces_nothing provenance source_decision review c d r equal_authority :
  d_action source_decision = Action.CLARIFY ->
  decide_source_candidate provenance source_decision review c = Some (d, r, equal_authority) ->
  replacement (reachable rq c equal_authority d) c = None.
Proof.
  intros Ha Hd. assert (d_action d = Action.CLARIFY \/ d_action d = Action.REJECT) as Hact.
  { revert Hd. unfold decide_source_candidate. rewrite Ha. rewrite !bool_decide_false by done. cbn [orb].
    destruct (_authority_conflict_decision _ _ _) as [by_authority|]; [|done]. cbn [mbind option_bind].
    destruct (_is_equal_authority_cross_writer_conflict _ _ _); [|done]. cbn [mbind option_bind].
    rewrite bool_decide_true by done. destruct by_authority as [d1|]; [|intros [= <- _ _]; by left].
    case_bool_decide; cbn [andb negb]; intros [= <- _ _]; [by right|by left]. }
  unfold replacement, reachable, reachable_decision.
  destruct (bool_decide _ && _); cbn [d_action]; [done|]. by destruct Hact as [-> | ->].
Qed.

(** ** A round *)

Section Round.
Variable search_memories : list Q -> Request -> bool -> search_reply.
Variable native_index : bool.
Variable classifier : ExtractedMemory -> Memory -> ConflictType -> classifier_reply.
Variable source_classifier : ExtractedMemory -> list Memory -> option uuid * ConflictDecision * option json.
Variable snapshot_digest : json -> string.
Variables (x : ExtractedMemory) (batch : list uuid) (s : Store).

Abbreviation store := (store_one embedder search_memories native_index source_classifier snapshot_digest classifier
  model_collection include_content outside rq now batch x).

(** The decision about candidate [c], by whichever classifier is asked. *)
Inductive decided (c : ConflictCandidate) (d : ConflictDecision) (equal_authority : bool) : Prop :=
  | decided_ordinary :
      decide_candidate classifier (rq_provenance_snapshot rq) (rq_clarification_requested rq) c
        = Some (d, equal_authority) -> decided c d equal_authority
  | decided_source targets selected source_decision review r :
      source_classifier (cc_new_memory c) targets = (selected, source_decision, review) ->
      d_action source_decision <> Action.MERGE ->
      decide_source_candidate (rq_provenance_snapshot rq) source_decision review c = Some (d, r, equal_authority) ->
      decided c d equal_authority.

(** Whatever is decided about a stored memory, an update of it can be followed
    by the ledger. *)
Definition updates_trackable : Prop := forall c d equal_authority y,
  cc_new_memory c = x -> memories (life s) !! m_id (cc_existing_memory c) = Some (cc_existing_memory c) ->
  decided c d equal_authority -> replacement (reachable rq c equal_authority d) c = Some y ->
  trackable y (m_id (cc_existing_memory c)) (ledger (life s)).

Hypothesis Hsound : sound s.
Hypothesis Htrackable : updates_trackable.

Definition stands (c : ConflictCandidate) : Prop :=
  cc_new_memory c = x /\ memories (life s) !! m_id (cc_existing_memory c) = Some (cc_existing_memory c).

(** A round settled by a candidate, or one that did nothing so far. *)
Definition settled_or_untouched (r : bool * option StoredMemory) (s' : Store) : Prop :=
  if (r.1 : bool) then round_done s r.2 s' else s' = s.

Lemma apply_reject_ok c d :
  after (apply_reject rq c d) s (fun _ s' => round_done s None s').
Proof.
  apply audit_after. intros s' El Ec Es. split; [by eapply sound_later|done].
Qed.

Lemma withhold_ok y d review :
  after (withhold y d review) s (fun stored s' => round_done s stored s').
Proof. split; [by apply (sound_later s)|done]. Qed.

Lemma carry_out_ok embedding c equal_authority d rest :
  stands c -> decided c d equal_authority -> after rest s settled_or_untouched ->
  after (carry_out embedder model_collection include_content outside rq now embedding c equal_authority
           (reachable rq c equal_authority d) rest) s settled_or_untouched.
Proof.
  intros [Hnew Hst] Hd Hrest. pose proof (Htrackable c d equal_authority) as Ht.
  specialize (fun y => Ht y Hnew Hst Hd). unfold carry_out.
  set (d' := reachable rq c equal_authority d) in *. unfold replacement in Ht.
  destruct (d_action d') eqn:Ea; cbn beta iota in Ht; [| |exact Hrest| |]; apply after_bind; eapply after_mono.
  - apply (apply_update_ok s c Hsound Hst). by apply Ht.
  - intros sm s' Hs'. by apply after_ret.
  - apply (apply_merge_ok s c Hsound Hst). by apply Ht.
  - intros sm s' Hs'. by apply after_ret.
  - apply apply_reject_ok.
  - intros ? s' Hs'. by apply after_ret.
  - apply (apply_clarify_ok s c Hsound Hst).
  - intros sm s' Hs'. by apply after_ret.
Qed.

Lemma settle_candidates_ok embedding candidates :
  Forall stands candidates ->
  after (settle_candidates embedder classifier model_collection include_content outside rq now embedding candidates) s
    settled_or_untouched.
Proof.
  induction candidates as [|c candidates IH]; intros Hall; [by apply after_ret|].
  apply Forall_cons in Hall as [Hc Hall]. cbn [settle_candidates]. apply after_bind.
  apply after_lift_opt; [done|]. intros [d equal_authority] Hd. cbn [fst snd].
  apply carry_out_ok; [done|by apply decided_ordinary|by apply IH].
Qed.

Lemma settle_source_ok embedding c targets selected d review :
  stands c -> source_classifier (cc_new_memory c) targets = (selected, d, review) -> d_action d <> Action.MERGE ->
  after (settle_source embedder model_collection include_content outside rq now embedding c d review) s
    settled_or_untouched.
Proof.
  intros Hc Hcl Hmerge. unfold settle_source. apply after_bind, after_lift_opt; [done|].
  intros [[d' r] equal_authority] Hd. destruct (_ && _).
  - apply after_bind. eapply after_mono; [apply withhold_ok|]. intros stored s' Hs'. by apply after_ret.
  - apply carry_out_ok; [done| |by apply after_ret]. by eapply decided_source.
Qed.

Lemma commit_ok s' Q : sound s' -> (Q tt s' : Prop) -> after (commit rq) s' Q.
Proof.
  intros [Hok _] HQ. unfold commit. destruct (rq_auto_commit rq); [|by apply after_ret].
  eapply after_returns; [by apply in_life_flush_ok, (consistent_flushable None)|done].
Qed.

Lemma finish_round_ok embedding candidates source settled s1 :
  settled_or_untouched settled s1 ->
  after (finish_round snapshot_digest model_collection include_content outside rq now x embedding candidates source settled)
    s1 (fun stored s' => round_done s stored s').
Proof.
  destruct settled as [settled stored]. unfold settled_or_untouched, finish_round. cbn [fst snd]. intros Hs1.
  destruct settled.
  { destruct Hs1 as [Hsd Hout]. apply after_bind, commit_ok; [done|]. by apply after_ret. }
  subst s1. assert (round_done s None s) as Hnone by done.
  destruct (bool_decide (governance_directive x = "clarify_if_conflict")).
  { destruct source as [[d review]|]; [apply withhold_ok|by apply after_ret]. }
  destruct (governed_source rq x && _); [apply withhold_ok|].
  destruct Hsound as [Hok Hsh]. apply after_bind.
  eapply after_mono; [apply (store_with_context_ok x embedding None _ false true _ None s Hok Hsh); done|].
  intros sm s1 Hst. destruct (stored_as_effect _ _ _ _ _ _ _ Hsound Hst) as [Hsd He].
  apply after_bind, audit_after. intros s2 El Ec Es.
  assert (sound s2) as Hsd2 by (by eapply sound_later). apply after_bind, commit_ok; [done|]. apply after_ret.
  split; [done|]. do 5 eexists. split; [by eapply effect_later|]. split_and!; try done.
  - by destruct candidates.
  - split; [done|]. by destruct candidates.
Qed.

Lemma ordinary_round_ok embedding found :
  nominees s found ->
  after (ordinary_round embedder snapshot_digest classifier model_collection include_content outside rq now x embedding
           found) s (fun stored s' => round_done s stored s').
Proof.
  intros [Hnd Hloaded]. unfold ordinary_round. cbv zeta.
  assert (Forall stands (detect_candidates x found)) as Hall.
  { apply Forall_forall. intros c Hc. unfold stands. destruct (detected_candidate x _ c Hnd Hc) as (Hx & e & He & ->).
    split; [done|]. rewrite Forall_forall in Hloaded. by apply Hloaded. }
  apply after_bind. eapply after_mono; [exact (settle_candidates_ok embedding _ Hall)|].
  intros settled s1 Hs1. by apply finish_round_ok.
Qed.

Lemma source_round_ok embedding found :
  nominees s found ->
  after (source_round embedder source_classifier snapshot_digest model_collection include_content outside rq now s x
           embedding found) s (fun stored s' => round_done s stored s').
Proof.
  intros [_ Hloaded]. unfold source_round. destruct (_ <? _)%nat; [apply withhold_ok|].
  destruct (source_classifier x _) as [[selected d] review] eqn:Hcl.
  destruct (_ ≫= _) as [target|] eqn:Htarget.
  - assert (stands (verified_candidate x target)) as Hstands.
    { split; [done|]. destruct selected as [i|]; [|done]. cbn in Htarget.
      apply find_some in Htarget as [Hin _]. apply list_elem_of_In, list_elem_of_fmap in Hin as (e & -> & He).
      rewrite Forall_forall in Hloaded. by apply Hloaded. }
    destruct (negb _); [apply withhold_ok|]. case_bool_decide as Hmerge; [apply withhold_ok|].
    apply after_bind. eapply after_mono; [by eapply settle_source_ok|]. intros settled s1 Hs1.
    by apply finish_round_ok.
  - destruct (d_action d); try apply withhold_ok; [|by apply after_ret]. by apply finish_round_ok.
Qed.

Lemma search_index_ok embedding Q :
  (forall points, Q points s : Prop) -> after (search_index search_memories native_index rq x embedding) s Q.
Proof.
  intros HQ. unfold search_index. destruct (_ && _); [by apply after_ret|].
  destruct (search_memories _ _ _); [by apply after_ret| |done]. by destruct (source_verified x); [apply after_ret|].
Qed.

Lemma store_one_ok : after store s (fun stored s' => round_done s stored s').
Proof.
  unfold store_one. destruct (if source_verified x then _ else _); [apply withhold_ok|].
  apply after_bind. unfold embed. apply after_lift_opt; [done|]. intros embedding _.
  apply after_bind, search_index_ok. intros [points|]; [|apply withhold_ok].
  apply after_bind. apply (after_returns _ s s s); [done|]. cbv zeta.
  assert (forall i m, stored_memories s !! i = Some m -> m_id m = i) as Hids
    by (intros i m; apply (cs_memory_ids _ _ (proj1 Hsound))).
  assert (nominees s []) as Hnil by (split; constructor).
  destruct (source_verified x).
  - apply source_round_ok, candidate_memories_loaded, context_candidates_loaded; done.
  - apply ordinary_round_ok, candidate_memories_loaded; done.
Qed.

(** C3: Storing an extracted claim of a user keeps the ledger, the memories and the
    vector queue consistent, whatever the embedder, the index and the classifiers
    answer, for claims from verified sources and any others.  Neither unique
    index of the ledger nor the index on conflict pairs refuses a statement
    (foreign keys and value checks are not part of the model).  A round that
    stores nothing leaves every row of these tables as it was.
    A round that stores a memory adds exactly that memory under a fresh id and
    archives exactly the stored memory that an update or merge replaces, of which
    it becomes the next version; it is archived itself exactly when it waits for
    a clarification; what becomes live is queued for the vector store and what
    is archived is queued to be withdrawn.  Afterwards every claim displays a
    live memory its winning revision asserts.  Assumed: a tenant's user is served;
    the evidence in the provenance can be listed; the database refuses no
    statement of the recording of shared context; the claims of a memory that is
    updated are propositions of the same owner, category and scope, under
    readable authority rules; the batch holds no declared preferences. *)
Theorem storing_keeps_database_consistent :
  let (s', r) := store s in
  match r with
  | inl e => benign e
  | inr stored => sound s' /\ life_ok (life s') /\ round_outcome s s' stored
  end.
Proof.
  pose proof store_one_ok as Hok. unfold after in Hok.
  destruct (store s) as [s' [e|stored]]; [done|]. destruct Hok as [Hs Ho].
  split_and!; [done|by apply consistent_life_ok, Hs|done].
Qed.
End Round.
End Storing.
End Effects.

(** ** Witness *)

Section EffectExamples.
#[local] Existing Instance example_pylib.

Definition example_request (priority : Z) : Request :=
  {| rq_user_id := 2; rq_tenant_id := Some 1%Z; rq_proxy_user_id := Some 2%Z; rq_source_conversation_id := Some 3%Z;
     rq_agent_id := None; rq_auto_commit := true; rq_clarification_requested := false;
     rq_provenance_snapshot := [("authority_rules", JObj [("categories", JObj [("fact", JInt priority)])])];
     rq_default_source_conversation_id := None; rq_default_source_event_id := None; rq_domain_schema := None;
     rq_source_context := None |}.

Definition example_embedder (content : string) : option EmbeddingResult :=
  Some {| er_vector := [1%Q]; er_model_id := "m1"; er_qdrant_collection := None |}.

Definition silent (_ : ExtractedMemory) (_ : Memory) (_ : ConflictType) : classifier_reply := AllProvidersFailed.

Definition silent_source (_ : ExtractedMemory) (_ : list Memory) : option uuid * ConflictDecision * option json :=
  (None, _classifier_failure_decision UNKNOWN "source_provider_unavailable", None).
Definition no_digest (_ : json) : string := EmptyString.
Definition example_store (index : list (uuid * Q)) (request : Request) (x : ExtractedMemory) : SM (option StoredMemory) :=
  store_one example_embedder (fun _ _ _ => Points index) true silent_source no_digest silent (fun _ => None) false calm
    request 0%Z [] x.

Definition example_round (priority : Z) (index : list (uuid * Q)) (x : ExtractedMemory) (s : Store)
    : Store * (resolver_exn + option StoredMemory) :=
  example_store index (example_request priority) x s.

Definition empty_store : Store :=
  {| life := {| ledger := {| claims := ∅; revisions := ∅ |};
                db := {| db_memories := ∅; db_proxy_users := ∅; db_versions := ∅ |};
                queue := ∅; supply := 100; hot_tier := ∅; poisoned := false |};
     conflicts := ∅; signals := []; clarifications := []; webhooks := []; audits := []; pending := [];
     flagged := 0; clarified := 0 |}.

Definition stated (content : string) : ExtractedMemory :=
  {| x_content := content; x_category := "fact"; x_importance_score := 5; x_confidence := 9 # 10;
     x_expiry := "permanent"; x_reasoning := "stated"; x_validated_evidence := [] |}.

Definition first_store : Store := (example_round 30 [] (stated "I live in Pune") empty_store).1.

Lemma empty_store_sound : sound empty_store.
Proof.
  assert (forall A i (a : A), (∅ : gmap uuid A) !! i = Some a -> False) as Hnone
    by (intros A i a E; by rewrite lookup_empty in E).
  split; constructor; cbn; try done; try (intros; exfalso; by eapply Hnone).
  - intros i [m Hi]. exfalso. by eapply Hnone.
  - intros i [m Hi]. exfalso. by eapply Hnone.
  - intros g m Hg. by apply elem_of_nil in Hg.
Qed.

Lemma first_store_sound : sound first_store.
Proof.
  pose proof (store_one_ok example_embedder (fun _ => None) false calm (example_request 30) 0 1 2 eq_refl eq_refl
    (ex_intro _ [] eq_refl) (fun _ => eq_refl) (fun _ _ _ => Points []) true silent silent_source no_digest (stated "I live in Pune") []
    empty_store empty_store_sound) as Hok.
  assert (updates_trackable (example_request 30) 1 2 silent silent_source (stated "I live in Pune") empty_store) as Ht.
  { intros c d e y _ Hst. cbn in Hst. by rewrite lookup_empty in Hst. }
  specialize (Hok Ht). unfold after in Hok. unfold first_store, example_round.
  assert (exists s' sm, example_store [] (example_request 30) (stated "I live in Pune") empty_store = (s', inr sm))
    as (s' & sm & E) by (vm_compute; do 2 eexists; reflexivity).
  unfold example_store in E |- *. rewrite E in Hok |- *. apply Hok.
Qed.

Definition first_memory : Memory := default (team_memory 0 0 "none" 0) (memories (life first_store) !! 100%Z).
Definition first_claim : option MemoryClaim := claims (ledger (life first_store)) !! 102%Z.

Lemma first_claim_facts : exists c, first_claim = Some c /\
  c_subject_key c = GENERIC_CLAIM_SUBJECT /\ c_tenant_id c = 1%Z /\ c_proxy_user_id c = 2%Z
  /\ c_category c = MemoryCategory.fact /\ c_scope c = [].
Proof. vm_compute. eexists. split_and!; reflexivity. Qed.

Lemma second_round_trackable :
  updates_trackable (example_request 90) 1 2 silent silent_source (stated "I live in Delhi") first_store.
Proof.
  assert (map_to_list (memories (life first_store)) = [(100%Z, first_memory)]) as Em by (vm_compute; reflexivity).
  assert (exists r, map_to_list (revisions (ledger (life first_store))) = [(103%Z, r)] /\ r_claim_id r = 102%Z)
    as (r0 & Er & Ec) by (vm_compute; eexists; split; reflexivity).
  intros c d e y Hnew Hst Hd Hrep j r cl Hj _ Hcl.
  apply (proj2 (elem_of_map_to_list (memories (life first_store)) _ _)) in Hst. rewrite Em in Hst.
  apply (proj2 (elem_of_map_to_list (revisions (ledger (life first_store))) _ _)) in Hj. rewrite Er in Hj.
  apply list_elem_of_singleton, (f_equal snd) in Hst. apply list_elem_of_singleton, (f_equal snd) in Hj.
  cbn [snd] in Hst, Hj. subst r. rewrite Ec in Hcl.
  destruct c as [new old st conf ents]. 
  change (new = stated "I live in Delhi") in Hnew. change (old = first_memory) in Hst. subst new old. clear Em Er.
  destruct Hd as [Hd|targets selected source d0 review Hsource _ Hd].
  2:{ injection Hsource as <- <- <-. apply (clarifying_source_replaces_nothing (example_request 90)) in Hd; [|reflexivity].
      rewrite Hd in Hrep. discriminate Hrep. }
  assert (decide_candidate silent (rq_provenance_snapshot (example_request 90)) false
            {| cc_new_memory := stated "I live in Delhi"; cc_existing_memory := first_memory;
               cc_detection_strategy := st; cc_confidence := conf; cc_detected_entities := ents |}
          = Some (incoming_authority_wins 90 30, false)) as Hdecided by (vm_compute; reflexivity).
  unfold rq_clarification_requested, example_request at 2 in Hd. rewrite Hdecided in Hd. injection Hd as <- <-.
  injection Hrep as <-. destruct first_claim_facts as (cl0 & E0 & F). change (first_claim = Some cl) in Hcl.
  rewrite E0 in Hcl. injection Hcl as <-. destruct F as (-> & -> & -> & -> & ->).
  split_and!; [reflexivity..| |eexists; reflexivity]. exists []. split; reflexivity.
Qed.

Definition second_round : Store * (resolver_exn + option StoredMemory) :=
  example_round 90 [(100%Z, 9 # 10)] (stated "I live in Delhi") first_store.

(** The round updated memory 100 in claim 102. *)
Definition updated (p : Store * (resolver_exn + option StoredMemory)) : Prop :=
  match p with
  | (s', inr (Some sm)) =>
      sm_resolution sm = "UPDATE" /\ (m_is_archived <$> memories (life s') !! 100%Z) = Some true /\
      (c_active_memory_id <$> claims (ledger (life s')) !! 102%Z) = Some (Some (sm_id sm))
  | _ => False
  end.

Lemma second_round_result : updated second_round.
Proof. vm_compute. split_and!; reflexivity. Qed.

Lemma storing_keeps_database_consistent_witness :
  sound first_store /\ updates_trackable (example_request 90) 1 2 silent silent_source (stated "I live in Delhi") first_store /\
  updated second_round /\ life_ok (life (fst second_round)).
Proof.
  split; [exact first_store_sound|]. split; [exact second_round_trackable|].
  pose proof (storing_keeps_database_consistent example_embedder (fun _ => None) false calm (example_request 90) 0 1 2
    eq_refl eq_refl (ex_intro _ [] eq_refl) (fun _ => eq_refl) (fun _ _ _ => Points [(100%Z, 9 # 10)]) true silent silent_source no_digest
    (stated "I live in Delhi") [] first_store first_store_sound second_round_trackable) as Hok.
  pose proof second_round_result as Hres. split; [exact Hres|]. unfold second_round, example_round in Hres |- *.
  change (match example_store [(100%Z, 9 # 10)] (example_request 90) (stated "I live in Delhi") first_store with
          | (s', inl e) => benign e
          | (s', inr stored) => sound s' /\ life_ok (life s') /\ round_outcome 2 first_store s' stored
          end) in Hok.
  revert Hok Hres.
  generalize (example_store [(100%Z, 9 # 10)] (example_request 90) (stated "I live in Delhi") first_store).
  intros [s' [e|[sm|]]] Hok Hres; try contradiction. destruct Hok as (_ & Hlife & _). exact Hlife.
Defined.

(** ** Where the assumption fails *)

Definition contents (s : Store) : list (uuid * string * bool) :=
  (fun p => (p.1, m_content p.2, m_is_archived p.2)) <$> map_to_list (memories (life s)).
Definition displays (s : Store) : list (uuid * option uuid * option string) :=
  (fun p => (p.1, c_active_memory_id p.2, c_active_value p.2)) <$> map_to_list (claims (ledger (life s))).

(** The replacement is of another category: the ledger refuses it, the refusal is
    swallowed, and the claim goes on displaying the memory that was archived. *)
Example untracked_update_displays_archived :
  let request := (example_request 0) <| rq_provenance_snapshot :=
                   [("authority_rules", JObj [("categories", JObj [("preference", JInt 90)])])] |> in
  let s := (example_store [(100%Z, 9 # 10)] request ((stated "I live in Delhi") <| x_category := "preference" |>) first_store).1 in
  contents s = [(107%Z, "I live in Delhi", false); (100%Z, "I live in Pune", true)] /\
  displays s = [(102%Z, Some 100%Z, Some "I live in Pune")].
Proof. vm_compute. split; reflexivity. Qed.

(** Two claims of one batch that the index takes for updates of one memory: the
    second is set against the memory the first has archived, both new memories
    stay live, and the claim displays the second only. *)
Example batch_updates_leave_two_live :
  let s := (check_and_store example_embedder (fun _ _ _ => Points [(100%Z, 9 # 10)]) true silent_source no_digest silent
              (fun _ => None) false calm (example_request 90) 0%Z [stated "I live in Delhi"; stated "I live in Mumbai"] first_store).1 in
  contents s = [(107%Z, "I live in Delhi", false); (114%Z, "I live in Mumbai", false); (100%Z, "I live in Pune", true)] /\
  displays s = [(102%Z, Some 114%Z, Some "I live in Mumbai")].
Proof. vm_compute. split; reflexivity. Qed.
End EffectExamples.
