(* ===== verification/QuotaReset.v ===== *)
(** * The monthly quota reset

    [api/tasks/quota_tasks.py]: the hourly task that gives every tenant whose
    period has ended a fresh quota, with the calendar arithmetic of
    [_next_month_reset_at], and the cleanup of superseded shared-context
    signals; and the budget alert of [api/tasks/quality_gate_tasks.py].
    Instants are microseconds since 1970 in UTC; the calendar is the proleptic
    Gregorian one of Python's [datetime], days counted from 1 January of year 1. *)

From S2P Require Export Quota ConflictDetection.

(** ** The calendar *)

Definition is_leap (y : Z) : bool :=
  ((y mod 4 =? 0) && (negb (y mod 100 =? 0) || (y mod 400 =? 0)))%Z.

(** [calendar.monthrange(y, m)[1]] *)
Definition days_in_month (y m : Z) : Z :=
  if (m =? 2)%Z then (if is_leap y then 29 else 28)%Z
  else if existsb (Z.eqb m) [4; 6; 9; 11]%Z then 30 else 31.

Definition days_before_year (y : Z) : Z :=
  ((y - 1) * 365 + (y - 1) / 4 - (y - 1) / 100 + (y - 1) / 400)%Z.

Definition days_before_month (y m : Z) : Z :=
  foldr (fun k acc => if (k <? m)%Z then days_in_month y k + acc else acc)%Z 0%Z
    [1; 2; 3; 4; 5; 6; 7; 8; 9; 10; 11; 12]%Z.

Record civil := { cv_year : Z; cv_month : Z; cv_day : Z; cv_micros : Z (* of the day *) }.

Definition MICROS_PER_DAY : Z := 86400000000.
Definition EPOCH_ORDINAL : Z := 719163.              (* date(1970, 1, 1).toordinal() *)

Definition ymd2ord (y m d : Z) : Z := (days_before_year y + days_before_month y m + d)%Z.

(** The year of a day: the average length gives it up to one. *)
Definition year_of_ord (n : Z) : Z :=
  let g := (n * 400 / 146097 + 1)%Z in
  if (n <=? days_before_year g)%Z then g - 1
  else if (days_before_year (g + 1) <? n)%Z then g + 1 else g.

(** The month of day [r] of year [y]: the number of months that start before it. *)
Definition month_of_day (y r : Z) : Z :=
  foldr (fun k acc => Z.b2z (days_before_month y k <? r) + acc)%Z 0%Z
    [1; 2; 3; 4; 5; 6; 7; 8; 9; 10; 11; 12]%Z.

Definition civil_of (t : datetime) : civil :=
  let n := (t / MICROS_PER_DAY + EPOCH_ORDINAL)%Z in
  let y := year_of_ord n in
  let m := month_of_day y (n - days_before_year y) in
  {| cv_year := y; cv_month := m; cv_day := n - days_before_year y - days_before_month y m;
     cv_micros := t mod MICROS_PER_DAY |}.

Definition datetime_of (c : civil) : datetime :=
  ((ymd2ord (cv_year c) (cv_month c) (cv_day c) - EPOCH_ORDINAL) * MICROS_PER_DAY + cv_micros c)%Z.

Record civil_ok (c : civil) : Prop := {
  co_month : (1 <= cv_month c <= 12)%Z;
  co_day : (1 <= cv_day c <= days_in_month (cv_year c) (cv_month c))%Z;
  co_micros : (0 <= cv_micros c < MICROS_PER_DAY)%Z;
}.

(** Months are numbered consecutively across years. *)
Definition month_index (c : civil) : Z := (12 * cv_year c + cv_month c)%Z.

(** ** The tasks *)

Definition _next_month_reset_at (value : datetime) : datetime :=
  let normalized := civil_of value in
  let year := if (cv_month normalized =? 12)%Z then (cv_year normalized + 1)%Z else cv_year normalized in
  let month := if (cv_month normalized =? 12)%Z then 1%Z else (cv_month normalized + 1)%Z in
  let day := Z.min (cv_day normalized) (days_in_month year month) in
  datetime_of {| cv_year := year; cv_month := month; cv_day := day; cv_micros := cv_micros normalized |}.

(** The budgets the task selects. *)
Definition reset_due (now : datetime) (b : TenantBudget) : bool :=
  match b_reset_at b with Some t => (t <=? now)%Z | None => false end.

Definition reset_budget (now : datetime) (b : TenantBudget) : TenantBudget :=
  b <| b_current_month_calls := 0%Z |> <| b_current_month_tokens := 0%Z |> <| b_write_calls := 0%Z |>
    <| b_read_calls := 0%Z |> <| b_last_notified_mode := Some QuotaMode.full |> <| b_last_notified_pct := None |>
    <| b_reset_at := Some (_next_month_reset_at (default now (b_reset_at b))) |>.

(** The ["quota.reset"] event of a budget. *)
Record reset_event := { rs_tenant_id : uuid; rs_new_limit : option Z; rs_reset_at : datetime }.

(** [monthly_quota_reset_task]: the budgets afterwards and the events sent. *)
Definition monthly_quota_reset_task (now : datetime) (budgets : list TenantBudget)
    : list TenantBudget * list reset_event :=
  ((fun b => if reset_due now b then reset_budget now b else b) <$> budgets,
   (fun b => {| rs_tenant_id := b_tenant_id b; rs_new_limit := b_monthly_call_limit b;
                rs_reset_at := _next_month_reset_at (default now (b_reset_at b)) |})
     <$> filter (fun b => reset_due now b = true) budgets).

(** Signals with their [created_at]. *)
Definition cleanup_superseded_shared_context_signals (now : datetime)
    (signals : list (SharedContextSignal * datetime)) : list (SharedContextSignal * datetime) * Z :=
  let deleted s := sg_is_superseded s.1 && (s.2 <? now - 90 * MICROS_PER_DAY)%Z in
  (filter (fun s => deleted s = false) signals, Z.of_nat (length (filter (fun s => deleted s = true) signals))).

(** [send_budget_alert] of a budget with an alert URL or not: the budget
    afterwards and the remaining and threshold shares of the warning sent. *)
Definition send_budget_alert (has_webhook : bool) (usage_pct : Q) (b : TenantBudget)
    : TenantBudget * option (Q * Q) :=
  let threshold_pct := threshold_of b in
  let remaining_pct := remaining_of usage_pct in
  if negb has_webhook || (threshold_pct <?q remaining_pct) then (b, None)
  else match b_last_notified_pct b with
       | Some last => if last <=?q threshold_pct then (b, None)
                      else (b <| b_last_notified_pct := Some threshold_pct |>, Some (remaining_pct, threshold_pct))
       | None => (b <| b_last_notified_pct := Some threshold_pct |>, Some (remaining_pct, threshold_pct))
       end.

(** ** The calendar is right *)

Lemma days_before_year_succ y :
  days_before_year (y + 1) = (days_before_year y + (if is_leap y then 366 else 365))%Z.
Proof.
  unfold days_before_year, is_leap. replace (y + 1 - 1)%Z with y by lia.
  destruct (Z.eqb_spec (y mod 4) 0), (Z.eqb_spec (y mod 100) 0), (Z.eqb_spec (y mod 400) 0);
    simpl; Z.div_mod_to_equations; lia.
Qed.

(** Every year has 365 or 366 days, so years are ordered by their first day. *)
Lemma days_before_year_mono y y' : (y < y')%Z -> (days_before_year y + 365 <= days_before_year y')%Z.
Proof.
  intros Hy. replace y' with (y + 1 + Z.of_nat (Z.to_nat (y' - y - 1)))%Z by lia.
  induction (Z.to_nat (y' - y - 1)) as [|k IH].
  - rewrite Z.add_0_r, days_before_year_succ. destruct (is_leap y); lia.
  - replace (y + 1 + Z.of_nat (S k))%Z with (y + 1 + Z.of_nat k + 1)%Z by lia.
    rewrite days_before_year_succ. destruct (is_leap _); lia.
Qed.

Lemma year_of_ord_spec n :
  let y := year_of_ord n in (days_before_year y < n <= days_before_year (y + 1))%Z.
Proof.
  cbv zeta. unfold year_of_ord. set (g := (n * 400 / 146097 + 1)%Z).
  assert (days_before_year (g - 1) < n)%Z as Hlo
    by (unfold days_before_year; subst g; Z.div_mod_to_equations; lia).
  assert (n <= days_before_year (g + 1 + 1))%Z as Hhi
    by (unfold days_before_year; subst g; Z.div_mod_to_equations; lia).
  destruct (Z.leb_spec n (days_before_year g)); [by replace (g - 1 + 1)%Z with g by lia|].
  destruct (Z.ltb_spec (days_before_year (g + 1)) n); [done|lia].
Qed.

Lemma year_of_ord_unique n y :
  (days_before_year y < n <= days_before_year (y + 1))%Z -> year_of_ord n = y.
Proof.
  intros Hy. pose proof (year_of_ord_spec n) as Hs. cbv zeta in Hs. set (x := year_of_ord n) in *.
  destruct (Z.lt_trichotomy x y) as [Hlt|[->|Hlt]]; [|done|];
    apply Z.le_succ_l in Hlt; unfold Z.succ in Hlt; exfalso.
  - destruct (Z.eq_dec (x + 1)%Z y) as [<-|]; [lia|]. pose proof (days_before_year_mono (x + 1)%Z y). lia.
  - destruct (Z.eq_dec (y + 1)%Z x) as [E|]; [rewrite E in *; lia|]. pose proof (days_before_year_mono (y + 1)%Z x). lia.
Qed.

(** The month table of a year. *)
Definition leap_day (y : Z) : Z := if is_leap y then 1 else 0.

Definition MONTH_STARTS : list Z := [0; 31; 59; 90; 120; 151; 181; 212; 243; 273; 304; 334]%Z.
Definition MONTH_LENGTHS : list Z := [31; 28; 31; 30; 31; 30; 31; 31; 30; 31; 30; 31]%Z.

Record months_of (y : Z) : Prop := {
  mo_starts : Forall2 (fun m d => days_before_month y m = (d + (if 2 <? m then leap_day y else 0)))%Z
    [1; 2; 3; 4; 5; 6; 7; 8; 9; 10; 11; 12]%Z MONTH_STARTS;
  mo_lengths : Forall2 (fun m d => days_in_month y m = (d + (if m =? 2 then leap_day y else 0)))%Z
    [1; 2; 3; 4; 5; 6; 7; 8; 9; 10; 11; 12]%Z MONTH_LENGTHS;
  mo_leap : (leap_day y = 0 /\ is_leap y = false \/ leap_day y = 1 /\ is_leap y = true)%Z;
}.

Lemma months_of_year y : months_of y.
Proof.
  constructor; unfold leap_day, days_before_month, days_in_month; destruct (is_leap y) eqn:E;
    try (repeat constructor; reflexivity); auto.
Qed.

(** Bring the month table of year [y] into the context, one equation a month. *)
Ltac month_table y :=
  let Hs := fresh in let Hl := fresh in let Hleap := fresh "Hleap" in
  destruct (months_of_year y) as [Hs Hl Hleap]; unfold MONTH_STARTS, MONTH_LENGTHS in Hs, Hl;
  repeat match goal with
  | H : Forall2 _ (_ :: _) (_ :: _) |- _ =>
      let Hx := fresh in apply Forall2_cons_1 in H; destruct H as [Hx H]; cbn [Z.ltb Z.eqb Z.compare Pos.compare Pos.compare_cont Pos.eqb] in Hx
  end.

Ltac by_month m :=
  let H := fresh in
  assert (m = 1 \/ m = 2 \/ m = 3 \/ m = 4 \/ m = 5 \/ m = 6 \/ m = 7 \/ m = 8 \/ m = 9 \/ m = 10 \/ m = 11 \/ m = 12)%Z
    as H by lia;
  repeat (destruct H as [H|H]); subst m.

(** Decide the comparisons of [month_of_day] from the table. *)
Ltac decide_months :=
  unfold month_of_day; cbn [foldr];
  repeat match goal with
  | |- context [(days_before_month ?y ?k <? ?r)%Z] =>
      first [rewrite (proj2 (Z.ltb_lt (days_before_month y k) r)) by lia
            |rewrite (proj2 (Z.ltb_ge (days_before_month y k) r)) by lia]
  end; cbn [Z.b2z].

Lemma month_of_day_unique y m d :
  (1 <= m <= 12)%Z -> (1 <= d <= days_in_month y m)%Z -> month_of_day y (days_before_month y m + d) = m.
Proof. intros Hm. month_table y. by_month m; intros Hd; decide_months; reflexivity. Qed.

(** Every day of a year lies in one of its months. *)
Lemma month_of_day_exists y r :
  (1 <= r <= if is_leap y then 366 else 365)%Z ->
  exists m, (1 <= m <= 12 /\ 1 <= r - days_before_month y m <= days_in_month y m)%Z.
Proof.
  intros Hr. month_table y.
  assert (r <= 365 + leap_day y)%Z as Hr' by (destruct Hleap as [[-> E]|[-> E]]; rewrite E in Hr; lia).
  let rec try_month k :=
    tryif (exists k; lia) then idtac
    else (destruct (Z.le_gt_cases r (days_before_month y k + days_in_month y k)); [exists k; lia|]) in
  try_month 1%Z; try_month 2%Z; try_month 3%Z; try_month 4%Z; try_month 5%Z; try_month 6%Z;
  try_month 7%Z; try_month 8%Z; try_month 9%Z; try_month 10%Z; try_month 11%Z; try_month 12%Z.
Qed.

Lemma month_of_day_spec y r :
  (1 <= r <= if is_leap y then 366 else 365)%Z ->
  let m := month_of_day y r in
  (1 <= m <= 12 /\ 1 <= r - days_before_month y m <= days_in_month y m)%Z.
Proof.
  intros Hr. cbv zeta. destruct (month_of_day_exists y r Hr) as (m & Hm & Hd).
  pose proof (month_of_day_unique y m _ Hm Hd) as E.
  replace (days_before_month y m + (r - days_before_month y m))%Z with r in E by lia. by rewrite E.
Qed.

Lemma day_of_year_range y m d :
  (1 <= m <= 12)%Z -> (1 <= d <= days_in_month y m)%Z ->
  (1 <= days_before_month y m + d <= if is_leap y then 366 else 365)%Z.
Proof.
  intros Hm. month_table y.
  by_month m; intros Hd; destruct Hleap as [[? ->]|[? ->]]; lia.
Qed.

Lemma civil_of_ok t : civil_ok (civil_of t).
Proof.
  unfold civil_of. set (n := (t / MICROS_PER_DAY + EPOCH_ORDINAL)%Z).
  pose proof (year_of_ord_spec n) as Hy. cbv zeta in Hy. rewrite days_before_year_succ in Hy.
  destruct (month_of_day_spec (year_of_ord n) (n - days_before_year (year_of_ord n)))
    as [Hm Hd]; [destruct (is_leap (year_of_ord n)); lia|].
  constructor; simpl; [done|done|]. apply Z.mod_pos_bound. done.
Qed.

Lemma datetime_of_civil_of t : datetime_of (civil_of t) = t.
Proof.
  unfold datetime_of, civil_of, ymd2ord. cbn [cv_year cv_month cv_day cv_micros].
  pose proof (Z.div_mod t MICROS_PER_DAY ltac:(done)). lia.
Qed.

Lemma civil_of_datetime_of c : civil_ok c -> civil_of (datetime_of c) = c.
Proof.
  intros [Hm Hd Hu]. destruct c as [y m d u]. simpl in *. unfold datetime_of, civil_of. simpl.
  assert (((ymd2ord y m d - EPOCH_ORDINAL) * MICROS_PER_DAY + u) / MICROS_PER_DAY = ymd2ord y m d - EPOCH_ORDINAL)%Z
    as -> by (rewrite Z.div_add_l, Z.div_small by (done || lia); lia).
  assert (((ymd2ord y m d - EPOCH_ORDINAL) * MICROS_PER_DAY + u) mod MICROS_PER_DAY = u)%Z
    as -> by (rewrite Z.add_comm, Z.mod_add, Z.mod_small by (done || lia); done).
  replace (ymd2ord y m d - EPOCH_ORDINAL + EPOCH_ORDINAL)%Z with (ymd2ord y m d) by lia.
  pose proof (day_of_year_range y m d Hm Hd) as Hr. unfold ymd2ord.
  rewrite (year_of_ord_unique _ y) by (rewrite days_before_year_succ; destruct (is_leap y); lia).
  replace (days_before_year y + days_before_month y m + d - days_before_year y)%Z
    with (days_before_month y m + d)%Z by lia.
  rewrite month_of_day_unique by done. f_equal. lia.
Qed.

(** ** Successive resets *)

Lemma next_reset_civil t :
  let c := civil_of t in let n := civil_of (_next_month_reset_at t) in
  month_index n = (month_index c + 1)%Z /\ cv_micros n = cv_micros c
  /\ cv_day n = Z.min (cv_day c) (days_in_month (cv_year n) (cv_month n)).
Proof.
  cbv zeta. unfold _next_month_reset_at. set (c := civil_of t). destruct (civil_of_ok t) as [Hm Hd Hu].
  fold c in Hm, Hd, Hu.
  assert (forall y m, 28 <= days_in_month y m)%Z as Hlen
    by (intros y m; unfold days_in_month; repeat destruct (_ : bool); lia).
  rewrite civil_of_datetime_of.
  - unfold month_index. cbn [cv_year cv_month cv_day cv_micros].
    destruct (Z.eqb_spec (cv_month c) 12); repeat split; lia.
  - destruct (Z.eqb_spec (cv_month c) 12); (constructor; cbn [cv_year cv_month cv_day cv_micros]; [lia| |done]);
      (match goal with |- context [days_in_month ?y ?m] => pose proof (Hlen y m) end; lia).
Qed.

(** The first day of the month after month [m] of year [y]. *)
Lemma month_after y m :
  (1 <= m <= 12)%Z ->
  (days_before_year y + days_before_month y m + days_in_month y m
   = if m =? 12 then days_before_year (y + 1) else days_before_year y + days_before_month y (m + 1))%Z.
Proof.
  intros Hm. rewrite days_before_year_succ. remember (m + 1)%Z as m' eqn:Em. month_table y.
  by_month m; vm_compute in Em; subst m'; cbn [Z.eqb Pos.eqb]; destruct Hleap as [[? E]|[? E]]; rewrite ?E; lia.
Qed.

(** Days of different months are ordered as the months are. *)
Lemma ymd2ord_month_mono y m y' m' d d' :
  (1 <= m <= 12)%Z -> (1 <= m' <= 12)%Z ->
  (1 <= d <= days_in_month y m)%Z -> (1 <= d' <= days_in_month y' m')%Z ->
  (12 * y + m < 12 * y' + m')%Z -> (ymd2ord y m d < ymd2ord y' m' d')%Z.
Proof.
  intros Hm Hm' Hd Hd' Hlt. unfold ymd2ord.
  pose proof (day_of_year_range y m d Hm Hd). pose proof (day_of_year_range y' m' d' Hm' Hd').
  destruct (Z.eq_dec y y') as [<-|Hy].
  - assert (days_before_month y m + days_in_month y m <= days_before_month y m')%Z; [|lia].
    clear -Hm Hm' Hlt. assert (m < m')%Z as Hmm by lia. clear Hlt.
    month_table y. by_month m; by_month m'; lia.
  - assert (y < y')%Z as Hyy by lia. pose proof (days_before_year_succ y).
    assert (days_before_year (y + 1) <= days_before_year y')%Z; [|destruct (is_leap y); lia].
    destruct (Z.eq_dec (y + 1)%Z y') as [->|]; [lia|].
    pose proof (days_before_year_mono (y + 1)%Z y' ltac:(lia)). lia.
Qed.

Lemma month_index_lt c c' :
  civil_ok c -> civil_ok c' -> (month_index c < month_index c')%Z -> (datetime_of c < datetime_of c')%Z.
Proof.
  intros [Hm Hd Hu] [Hm' Hd' Hu'] Hlt. unfold datetime_of, month_index in *.
  pose proof (ymd2ord_month_mono _ _ _ _ _ _ Hm Hm' Hd Hd' Hlt). unfold MICROS_PER_DAY in *. lia.
Qed.

(** An instant of a later month is later. *)
Lemma later_month_later t t' :
  (month_index (civil_of t) < month_index (civil_of t'))%Z -> (t < t')%Z.
Proof.
  intros Hlt. rewrite <- (datetime_of_civil_of t), <- (datetime_of_civil_of t').
  apply month_index_lt; auto using civil_of_ok.
Qed.

Lemma next_reset_gap t :
  let n := _next_month_reset_at t in
  (28 * MICROS_PER_DAY <= n - t <= 31 * MICROS_PER_DAY)%Z.
Proof.
  cbv zeta. rewrite <- (datetime_of_civil_of t) at 2 4. unfold _next_month_reset_at, datetime_of.
  destruct (civil_of_ok t) as [Hm Hd Hu]. set (c := civil_of t) in *. clearbody c.
  cbn [cv_year cv_month cv_day cv_micros].
  assert (forall y m, 28 <= days_in_month y m <= 31)%Z as Hlen
    by (intros y m; unfold days_in_month; repeat destruct (_ : bool); lia).
  pose proof (month_after (cv_year c) _ Hm) as Hnext. pose proof (Hlen (cv_year c) (cv_month c)).
  enough (28 <= ymd2ord (if cv_month c =? 12 then cv_year c + 1 else cv_year c)
                  (if cv_month c =? 12 then 1 else cv_month c + 1)
                  (Z.min (cv_day c) (days_in_month (if cv_month c =? 12 then cv_year c + 1 else cv_year c)
                     (if cv_month c =? 12 then 1 else cv_month c + 1)))
          - ymd2ord (cv_year c) (cv_month c) (cv_day c) <= 31)%Z by (unfold MICROS_PER_DAY; lia).
  unfold ymd2ord. destruct (Z.eqb_spec (cv_month c) 12).
  - pose proof (Hlen (cv_year c + 1)%Z 1%Z). change (days_before_month (cv_year c + 1) 1) with 0%Z. lia.
  - pose proof (Hlen (cv_year c) (cv_month c + 1)%Z). lia.
Qed.

(** ** The quota reset *)

(** The reset after [value] falls in the next calendar month, across the
    year's end included, at the same time of day, on the same day of the month
    or the month's last day if it is shorter; it is always 28 to 31 days later. *)
Theorem next_reset_is_one_month_later (value : datetime) :
  let c := civil_of value in
  let next := _next_month_reset_at value in
  let n := civil_of next in
  civil_ok c /\ datetime_of c = value
  /\ month_index n = (month_index c + 1)%Z
  /\ cv_micros n = cv_micros c
  /\ cv_day n = Z.min (cv_day c) (days_in_month (cv_year n) (cv_month n))
  /\ (28 * MICROS_PER_DAY <= next - value <= 31 * MICROS_PER_DAY)%Z.
Proof.
  cbv zeta. pose proof (next_reset_civil value) as (? & ? & ?).
  repeat split; try apply civil_of_ok; try apply next_reset_gap; auto using datetime_of_civil_of.
Qed.

(** One run of the task on one budget. *)
Definition reset_step (now : datetime) (b : TenantBudget) : TenantBudget :=
  if reset_due now b then reset_budget now b else b.

(** The hourly runs at [now], one after another. *)
Definition reset_runs (n : nat) (now : datetime) (budgets : list TenantBudget) : list TenantBudget :=
  Nat.iter n (fun bs => (monthly_quota_reset_task now bs).1) budgets.

Lemma reset_runs_steps n now budgets :
  reset_runs n now budgets = Nat.iter n (reset_step now) <$> budgets.
Proof.
  unfold reset_runs. induction n as [|n IH]; [symmetry; apply list_fmap_id|].
  rewrite Nat.iter_succ, IH. unfold monthly_quota_reset_task, fst. by rewrite <- list_fmap_compose.
Qed.

(** The months from the period a budget is in to the current one. *)
Definition months_overdue (now : datetime) (b : TenantBudget) : nat :=
  match b_reset_at b with
  | Some t => if (t <=? now)%Z
              then S (Z.to_nat (month_index (civil_of now) - month_index (civil_of t))) else 0
  | None => 0
  end.

Lemma reset_step_settled now b : reset_due now b = false -> reset_step now b = b.
Proof. unfold reset_step. by intros ->. Qed.

Lemma month_index_mono t t' : (t <= t')%Z -> (month_index (civil_of t) <= month_index (civil_of t'))%Z.
Proof.
  intros Ht. destruct (Z.le_gt_cases (month_index (civil_of t)) (month_index (civil_of t'))) as [|Hlt]; [done|].
  apply later_month_later in Hlt. lia.
Qed.

Lemma reset_budget_reset_at now b :
  b_reset_at (reset_budget now b) = Some (_next_month_reset_at (default now (b_reset_at b))).
Proof. reflexivity. Qed.

(** Every run brings a due budget one month nearer. *)
Lemma months_overdue_step now b :
  reset_due now b = true -> (months_overdue now (reset_step now b) < months_overdue now b)%nat.
Proof.
  intros Hdue. unfold reset_step. rewrite Hdue. unfold reset_due in Hdue. unfold months_overdue.
  rewrite reset_budget_reset_at. destruct (b_reset_at b) as [t|]; [|done]. change (default now (Some t)) with t.
  rewrite Hdue. apply Z.leb_le in Hdue.
  pose proof (next_reset_civil t) as (Hidx & _). cbv zeta in Hidx.
  destruct (Z.leb_spec (_next_month_reset_at t) now) as [Hle|]; [|lia].
  apply month_index_mono in Hle. lia.
Qed.

Lemma reset_runs_settle n now b :
  (months_overdue now b <= n)%nat -> reset_due now (Nat.iter n (reset_step now) b) = false.
Proof.
  revert b. induction n as [|n IH]; intros b Hn.
  - unfold months_overdue, reset_due in *. simpl. destruct (b_reset_at b) as [t|]; [|done].
    destruct (t <=? now)%Z; [lia|done].
  - rewrite Nat.iter_succ_r. apply IH. destruct (reset_due now b) eqn:E.
    + pose proof (months_overdue_step now b E). lia.
    + rewrite reset_step_settled by done. unfold months_overdue, reset_due in *.
      destruct (b_reset_at b) as [t|]; [|lia]. rewrite E. lia.
Qed.

(** However long the task was down, each run moves every overdue budget on
    by one month: after as many runs as the most overdue budget has months, no
    budget is due, a further run sends no event, and the tenants are the ones
    there were. *)
Theorem overdue_periods_are_worked_off (n : nat) (now : datetime) (budgets : list TenantBudget)
    (Hn : Forall (fun b => months_overdue now b <= n)%nat budgets) :
  let settled := reset_runs n now budgets in
  Forall (fun b => reset_due now b = false) settled
  /\ monthly_quota_reset_task now settled = (settled, [])
  /\ b_tenant_id <$> settled = b_tenant_id <$> budgets.
Proof.
  cbv zeta. rewrite reset_runs_steps. set (step := Nat.iter n (reset_step now)).
  assert (Forall (fun b => reset_due now b = false) (step <$> budgets)) as Hdue.
  { apply Forall_fmap. eapply Forall_impl; [exact Hn|]. intros b Hb. by apply reset_runs_settle. }
  split; [done|]. split.
  - unfold monthly_quota_reset_task. f_equal.
    + rewrite <- (list_fmap_id (step <$> budgets)) at 2. apply list_fmap_ext. intros i b Hb.
      change ((fun b => if reset_due now b then reset_budget now b else b) b) with (reset_step now b).
      apply reset_step_settled. exact (Forall_lookup_1 _ _ _ _ Hdue Hb).
    + assert (filter (fun b => reset_due now b = true) (step <$> budgets) = []) as ->; [|done].
      induction Hdue as [|b bs Hb _ IH]; [done|]. by rewrite filter_cons, Hb.
  - rewrite <- list_fmap_compose. apply list_fmap_ext. intros i b _. simpl. subst step.
    clear Hn Hdue. induction n as [|k IH]; [done|]. simpl. unfold reset_step at 1.
    destruct (reset_due now _); [exact IH|exact IH].
Qed.

(** A budget with no zero limit. *)
Definition limits_positive (b : TenantBudget) : Prop :=
  Forall (fun l => match l with Some l => 0 < l | None => True end)%Z
    [b_monthly_call_limit b; b_monthly_token_limit b; b_write_call_limit b; b_read_limit b].

Lemma usage_of_nothing limit : Forall (fun q => q == 0)%Q (usage 0 limit).
Proof.
  destruct limit as [l|]; [|constructor]. simpl. destruct (l =? 0)%Z; constructor; [|constructor].
  unfold Qdiv. by rewrite Qmult_0_l.
Qed.

Lemma qmax_list_zero x l : (x == 0)%Q -> Forall (fun q => q == 0)%Q l -> (qmax_list x l == 0)%Q.
Proof.
  intros Hx. induction 1 as [|q l Hq _ IH]; [done|]. unfold qmax_list in *. simpl. by rewrite Hq, IH.
Qed.

Lemma unused_budget_remains b :
  b_current_month_calls b = 0%Z -> b_current_month_tokens b = 0%Z -> b_write_calls b = 0%Z ->
  b_read_calls b = 0%Z -> (_budget_remaining_pct b == 1)%Q.
Proof.
  intros Hc Ht Hw Hr. unfold _budget_remaining_pct. rewrite Hc, Ht, Hw, Hr.
  assert (Forall (fun q => q == 0)%Q (usage 0 (b_monthly_call_limit b) ++ usage 0 (b_monthly_token_limit b)
    ++ usage 0 (b_write_call_limit b) ++ usage 0 (b_read_limit b))) as Hz
    by (repeat (apply Forall_app_2; [apply usage_of_nothing|]); apply usage_of_nothing).
  destruct Hz as [|u us Hu Hus]; [done|]. pose proof (qmax_list_zero u us Hu Hus) as Hm.
  assert (1 - Qmin (qmax_list u us) 1 == 1)%Q as E by (rewrite Hm; reflexivity).
  enough (py_round (1 - Qmin (qmax_list u us) 1) 4 == 1)%Q as -> by reflexivity.
  apply Qle_antisym; apply Qle_trans with (py_round 1 4).
  - apply py_round_mono. rewrite E. apply Qle_refl.
  - vm_compute. discriminate.
  - vm_compute. discriminate.
  - apply py_round_mono. rewrite E. apply Qle_refl.
Qed.

(** A run of the task leaves a budget that is not due alone. A due one
    starts its next period with nothing used: its mode is computed as full and
    all of it remains, whatever had been used before, provided no limit is
    zero; its plan, its limits and its alert threshold are untouched and the
    notification record starts afresh. *)
Theorem reset_restores_full_service (now : datetime) (b : TenantBudget) (Hl : limits_positive b) :
  let b' := reset_step now b in
  if reset_due now b
  then _compute_mode b' = QuotaMode.full /\ (_budget_remaining_pct b' == 1)%Q
       /\ (b_current_month_calls b', b_current_month_tokens b', b_write_calls b', b_read_calls b') = (0, 0, 0, 0)%Z
       /\ (b_plan_tier b', b_overage_policy b', b_alert_threshold_pct b')
          = (b_plan_tier b, b_overage_policy b, b_alert_threshold_pct b)
       /\ limits_positive b'
       /\ b_reset_at b' = _next_month_reset_at <$> b_reset_at b
       /\ (b_last_notified_mode b', b_last_notified_pct b') = (Some QuotaMode.full, None)
  else b' = b.
Proof.
  cbv zeta. unfold reset_step. destruct (reset_due now b) eqn:Hdue; [|done].
  split; [|split; [by apply unused_budget_remains|]].
  - unfold limits_positive in Hl. rewrite !Forall_cons in Hl. destruct Hl as (Hc & Ht & Hw & _).
    unfold _compute_mode, reached. simpl.
    destruct (b_monthly_call_limit b) as [c|], (b_monthly_token_limit b) as [t|], (b_write_call_limit b) as [w|];
      repeat match goal with H : (0 < ?l)%Z |- _ => apply Z.leb_gt in H; rewrite H; clear H end;
      by rewrite ?andb_false_r.
  - repeat split; [done|]. unfold reset_due in Hdue. simpl. by destruct (b_reset_at b).
Qed.

(** A day of the month lost to a short month does not come back: from 31 January
    2025 the resets fall on 28 February, 28 March, and on the 28th for good. *)
Example reset_day_drifts :
  (fun k => let c := civil_of (Nat.iter k _next_month_reset_at 1738281600000000%Z) in
            (cv_year c, cv_month c, cv_day c)) <$> [0; 1; 2; 3; 11; 12]%nat
  = [(2025, 1, 31); (2025, 2, 28); (2025, 3, 28); (2025, 4, 28); (2025, 12, 28); (2026, 1, 28)]%Z.
Proof. vm_compute. reflexivity. Qed.

(** A blocked tenant of the starter plan whose January period ended while the task was down. *)
Definition overdue_budget : TenantBudget :=
  {| b_tenant_id := 7; b_plan_tier := PlanTier.starter; b_monthly_call_limit := Some 100%Z;
     b_monthly_token_limit := Some 5000%Z; b_current_month_calls := 130; b_current_month_tokens := 800;
     b_write_calls := 90; b_write_call_limit := None; b_read_calls := 40; b_read_limit := None;
     b_rate_limit_per_user_per_minute := 60; b_overage_policy := OveragePolicy.block;
     b_alert_threshold_pct := 4 # 5; b_last_notified_pct := Some (1 # 20);
     b_last_notified_mode := Some QuotaMode.blocked; b_reset_at := Some 1738281600000000%Z |}.

Lemma overdue_periods_are_worked_off_witness :
  let now := 1746057600000000%Z (* 1 May 2025 *) in
  Forall (fun b => months_overdue now b <= 5)%nat [overdue_budget]
  /\ reset_due now overdue_budget = true
  /\ Forall (fun b => reset_due now b = false) (reset_runs 5 now [overdue_budget]).
Proof.
  assert (Forall (fun b => months_overdue 1746057600000000%Z b <= 5)%nat [overdue_budget]) as Hn
    by (constructor; [vm_compute; lia|constructor]).
  split; [exact Hn|]. split; [reflexivity|].
  apply (overdue_periods_are_worked_off 5 1746057600000000%Z [overdue_budget] Hn).
Defined.

Lemma reset_restores_full_service_witness :
  limits_positive overdue_budget /\ _compute_mode overdue_budget = QuotaMode.blocked
  /\ _compute_mode (reset_step 1746057600000000%Z overdue_budget) = QuotaMode.full.
Proof.
  assert (limits_positive overdue_budget) as Hl by (repeat constructor).
  split; [exact Hl|]. split; [reflexivity|].
  apply (reset_restores_full_service 1746057600000000%Z overdue_budget Hl).
Defined.
