(* ===== verification/ContextBuilder.v ===== *)
(** * Prompt context

    [ContextBuilder] of [api/services/context_builder.py]: the memories shown to
    a model, filtered, deduplicated, grouped and rendered as bullets, JSON or
    XML within a token budget.  The tokenizer (tiktoken) is the class
    [Tokenizer]; while it fails the source's word estimate is used.  A
    [while] loop runs on fuel and reports [OutOfFuel], which is proved never to
    happen.  [json.loads] of a text this file dumped is the dumped value. *)

From S2P Require Export ClaimIdentity.

(** ** Text functions of the standard library *)

(** [s.rfind(c, 0, n)]; [i] is the position of [s] in the text. *)
Fixpoint rfind_from (c : ascii) (i : Z) (n : nat) (s : string) : Z :=
  match n, s with
  | S n, String d s =>
      let later := rfind_from c (i + 1) n s in
      if (0 <=? later)%Z then later else if bool_decide (c = d) then i else (-1)%Z
  | _, _ => (-1)%Z
  end.
Definition rfind (c : ascii) (n : nat) (s : string) : Z := rfind_from c 0 n s.

Definition quote_char : ascii := "034".
Definition newline : string := String "010" EmptyString.

(** [html.escape(s)] *)
Definition escape_char (c : ascii) : string :=
  if bool_decide (c = "&"%char) then "&amp;"
  else if bool_decide (c = "<"%char) then "&lt;"
  else if bool_decide (c = ">"%char) then "&gt;"
  else if bool_decide (c = quote_char) then "&quot;"
  else if bool_decide (c = "'"%char) then "&#x27;"
  else String c EmptyString.

Fixpoint escape (s : string) : string :=
  match s with EmptyString => EmptyString | String c s => escape_char c +:+ escape s end.

(** A character inside a string [json.dumps] prints with [ensure_ascii]. *)
Definition hex_digit (n : nat) : ascii :=
  if (n <? 10)%nat then ascii_of_nat (48 + n) else ascii_of_nat (87 + n).

Definition json_char (c : ascii) : string :=
  let n := nat_of_ascii c in
  if bool_decide (c = quote_char) then String "\" (String quote_char EmptyString)
  else if bool_decide (c = "\"%char) then "\\"
  else if (n =? 8)%nat then "\b" else if (n =? 9)%nat then "\t" else if (n =? 10)%nat then "\n"
  else if (n =? 12)%nat then "\f" else if (n =? 13)%nat then "\r"
  else if ((32 <=? n) && (n <=? 126))%nat then String c EmptyString
  else "\u00" +:+ String (hex_digit (n / 16)) (String (hex_digit (n mod 16)) EmptyString).

Fixpoint json_chars (s : string) : string :=
  match s with EmptyString => EmptyString | String c s => json_char c +:+ json_chars s end.

Definition json_string (s : string) : string :=
  String quote_char (json_chars s +:+ String quote_char EmptyString).

Fixpoint spaces (n : nat) : string := match n with O => EmptyString | S n => String " " (spaces n) end.

(** A printed list or object; [indent]: the width of a level, if indented. *)
Definition json_block (indent : option nat) (level : nat) (opening closing : string) (items : list string)
    : string :=
  match items, indent with
  | [], _ => opening +:+ closing
  | _, None => opening +:+ py_join ", " items +:+ closing
  | _, Some w =>
      let inner := newline +:+ spaces (w * S level) in
      opening +:+ inner +:+ py_join ("," +:+ inner) items +:+ newline +:+ spaces (w * level) +:+ closing
  end.

(** [json.dumps(v, indent=indent)] *)
Fixpoint json_dumps (str_other : json -> string) (indent : option nat) (level : nat) (v : json) : string :=
  match v with
  | JNull => "null"
  | JBool true => "true"
  | JBool false => "false"
  | JInt z => py_str_Z z
  | JStr s => json_string s
  | JArr l => json_block indent level "[" "]" (map (json_dumps str_other indent (S level)) l)
  | JObj kv => json_block indent level "{" "}"
                 (map (fun kx => json_string kx.1 +:+ ": " +:+ json_dumps str_other indent (S level) kx.2) kv)
  | JFloat _ | JDate _ => str_other v
  end.

(** ** Memories and results *)

(** [MemoryResult] of [api/services/retriever.py] *)
Record MemoryResult := {
  mr_id : string; mr_content : string; mr_category : string;
  mr_importance_score : Q; mr_confidence_score : Q; mr_semantic_score : Q; mr_recency_score : Q;
  mr_final_score : Q;
  mr_agent_id : option string; mr_previous_version_id : option string;
  mr_last_accessed_at : option string; mr_created_at : option string; mr_source_event_id : option string;
  mr_provenance : json;
  mr_effective_from : option string; mr_effective_until : option string;
}.

(** [==] of two results; equal floats may have different representations here. *)
Definition result_eqb (a b : MemoryResult) : bool :=
  bool_decide (mr_id a = mr_id b) && bool_decide (mr_content a = mr_content b)
  && bool_decide (mr_category a = mr_category b)
  && Qeq_bool (mr_importance_score a) (mr_importance_score b)
  && Qeq_bool (mr_confidence_score a) (mr_confidence_score b)
  && Qeq_bool (mr_semantic_score a) (mr_semantic_score b)
  && Qeq_bool (mr_recency_score a) (mr_recency_score b)
  && Qeq_bool (mr_final_score a) (mr_final_score b)
  && bool_decide (mr_agent_id a = mr_agent_id b)
  && bool_decide (mr_previous_version_id a = mr_previous_version_id b)
  && bool_decide (mr_last_accessed_at a = mr_last_accessed_at b)
  && bool_decide (mr_created_at a = mr_created_at b)
  && bool_decide (mr_source_event_id a = mr_source_event_id b)
  && bool_decide (mr_provenance a = mr_provenance b)
  && bool_decide (mr_effective_from a = mr_effective_from b)
  && bool_decide (mr_effective_until a = mr_effective_until b).

Definition DEFAULT_MAX_TOKENS : Z := 500.
Definition MIN_CONTEXT_IMPORTANCE : Q := 3.
Definition MIN_MEMORIES_TO_KEEP : nat := 3.
Definition NEAR_DUPLICATE_THRESHOLD : Q := 9 # 10.
Definition SUPPORTED_FORMATS : list string := ["bullets"; "json"; "xml"].
Definition TRUNCATE_CONTENT_CHARS : nat := 150.
Definition CATEGORY_ORDER : list string :=
  ["expertise"; "preference"; "goal"; "fact"; "procedure"; "relationship"].
Definition CATEGORY_LABELS : gmap string string := list_to_map
  [("expertise", "Skills & expertise"); ("preference", "Preferences"); ("goal", "Goals"); ("fact", "Facts");
   ("procedure", "Workflows & habits"); ("relationship", "Relationships & context")].

Record ContextResult := {
  cr_system_prompt_addition : string; cr_token_count : Z; cr_memory_count : Z; cr_memories_dropped : Z;
  cr_format : string;
}.

(** [ValueError] for an unsupported format; [OutOfFuel] is a loop cut short. *)
Inductive build_error := UnsupportedFormat (format : string) | OutOfFuel.

Class Tokenizer := { encoded_length : string -> option nat (* [None]: tiktoken raised *) }.

Section Builder.
Context `{PyLib} `{Tokenizer}.

Definition _empty_result (format : string) (memories_dropped : Z) : ContextResult :=
  {| cr_system_prompt_addition := EmptyString; cr_token_count := 0; cr_memory_count := 0;
     cr_memories_dropped := memories_dropped; cr_format := format |}.

Definition _count_tokens (text : string) : Z :=
  match text with
  | EmptyString => 0
  | _ => match encoded_length text with
         | Some n => Z.of_nat n
         | None => Qceiling (inject_Z (Z.of_nat (length (py_split text))) * (13 # 10))
         end
  end%Z.

Definition words (s : string) : string := py_join " " (py_split s).

Definition is_sentence_end (c : ascii) : bool :=
  bool_decide (c ∈ ["."%char; ","%char; ";"%char; ":"%char; "!"%char; "?"%char]).

Definition _content_similarity (left right : string) : Q :=
  let l := words (py_lower left) in
  let r := words (py_lower right) in
  if bool_decide (l = r) then 1
  else
    let lt : gset string := list_to_set (py_split (drop_while_end is_sentence_end l)) in
    let rt : gset string := list_to_set (py_split (drop_while_end is_sentence_end r)) in
    if bool_decide (lt = ∅) || bool_decide (rt = ∅) then 0
    else Z.of_nat (size (lt ∩ rt)) # Pos.of_nat (size (lt ∪ rt)).

Definition _content_for_prompt (m : MemoryResult) : string :=
  let content := words (mr_content m) in
  if (String.length content <=? TRUNCATE_CONTENT_CHARS)%nat then content
  else
    let cutoff := rfind " " (TRUNCATE_CONTENT_CHARS - 1) content in
    let cutoff := if (cutoff <? 80)%Z then (Z.of_nat TRUNCATE_CONTENT_CHARS - 1)%Z else cutoff in
    drop_while_end is_space (py_take (Z.to_nat cutoff) content) +:+ "...".

(** The memories of one category, in order. *)
Definition in_category (category : string) (memories : list MemoryResult) : list MemoryResult :=
  filter (fun m => mr_category m = category) memories.

Definition _group_by_category (memories : list MemoryResult) : list (string * list MemoryResult) :=
  (fun category => (category, in_category category memories)) <$> CATEGORY_ORDER.

(** The groups that are not empty. *)
Definition shown_groups (memories : list MemoryResult) : list (string * list MemoryResult) :=
  filter (fun g => g.2 <> []) (_group_by_category memories).

Definition _render_bullets (memories : list MemoryResult) : string :=
  let groups := shown_groups memories in
  let multi_category := (1 <? length groups)%nat in
  py_join newline ("What you know about this user:" :: flat_map (fun g =>
    (if multi_category then [default EmptyString (CATEGORY_LABELS !! g.1) +:+ ":"] else [])
    ++ ((fun m => "- " +:+ _content_for_prompt m) <$> g.2)) groups).

(** The object [_render_json] dumps under ["memories"]. *)
Definition grouped_json (memories : list MemoryResult) : json :=
  JObj ((fun g => (g.1, JArr ((fun m => JStr (_content_for_prompt m)) <$> g.2))) <$> shown_groups memories).

Definition _render_json (memories : list MemoryResult) : string :=
  json_dumps str_other (Some 2%nat) 0 (JObj [("memories", grouped_json memories)]).

Definition attribute (name value : string) : string :=
  name +:+ "=" +:+ String quote_char (value +:+ String quote_char EmptyString).

Definition xml_memory (category : string) (m : MemoryResult) : string :=
  "  <memory " +:+ attribute "category" (escape category) +:+ ">" +:+ escape (_content_for_prompt m)
  +:+ "</memory>".

Definition _render_xml (memories : list MemoryResult) : string :=
  py_join newline (["<memory_context>"]
    ++ flat_map (fun g => xml_memory g.1 <$> g.2) (_group_by_category memories)
    ++ ["</memory_context>"]).

Definition _render (memories : list MemoryResult) (format : string) : string :=
  if bool_decide (format = "bullets") then _render_bullets memories
  else if bool_decide (format = "json") then _render_json memories
  else _render_xml memories.

(** ** Selection *)

Definition by_final_score (a b : MemoryResult) : bool := mr_final_score b <=?q mr_final_score a.

Definition near_duplicate (m existing : MemoryResult) : bool :=
  NEAR_DUPLICATE_THRESHOLD <?q _content_similarity (mr_content m) (mr_content existing).

(** The loop of [_prepare_memories]: what it kept and dropped so far. *)
Fixpoint prepare (memories prepared : list MemoryResult) (dropped : Z) : list MemoryResult * Z :=
  match memories with
  | [] => (prepared, dropped)
  | m :: memories =>
      if mr_importance_score m <?q MIN_CONTEXT_IMPORTANCE then prepare memories prepared (dropped + 1)
      else if existsb (near_duplicate m) prepared then prepare memories prepared (dropped + 1)
      else prepare memories (prepared ++ [m]) dropped
  end%Z.

Definition _prepare_memories (memories : list MemoryResult) : list MemoryResult * Z :=
  prepare (sort_by by_final_score memories) [] 0.

(** [(importance, final)] compared as a tuple. *)
Definition scores_below (a b : MemoryResult) : bool :=
  (mr_importance_score a <?q mr_importance_score b)
  || Qeq_bool (mr_importance_score a) (mr_importance_score b)
     && (mr_final_score a <?q mr_final_score b).

(** [min(m :: l, key=...)]: the first of the least. *)
Fixpoint lowest (m : MemoryResult) (l : list MemoryResult) : MemoryResult :=
  match l with
  | [] => m
  | x :: l => lowest (if scores_below x m then x else m) l
  end.

(** [l.remove(x)]: the first element equal to [x]. *)
Fixpoint remove_first (x : MemoryResult) (l : list MemoryResult) : list MemoryResult :=
  match l with
  | [] => []
  | y :: l => if result_eqb y x then l else y :: remove_first x l
  end.

(** [while over(selected): selected.remove(min(selected[keep:])); dropped += 1]
    with the guard that [selected[keep:]] is not empty. *)
Fixpoint shed (fuel keep : nat) (over : list MemoryResult -> bool) (selected : list MemoryResult) (dropped : Z)
    : option (list MemoryResult * Z) :=
  match drop keep selected with
  | [] => Some (selected, dropped)
  | m :: removable =>
      if over selected then
        match fuel with
        | O => None
        | S fuel => shed fuel keep over (remove_first (lowest m removable) selected) (dropped + 1)
        end
      else Some (selected, dropped)
  end.

Definition _select_memories_within_budget (memories : list MemoryResult) (format : string) (max_tokens : Z)
    : option (list MemoryResult * Z) :=
  shed (length memories) MIN_MEMORIES_TO_KEEP
    (fun selected => max_tokens <? _count_tokens (_render selected format))%Z memories 0.

(** ** Building *)

Definition supported (format : string) : bool := bool_decide (format ∈ SUPPORTED_FORMATS).

Definition build (memories : list MemoryResult) (format : string) (max_tokens : Z)
    : build_error + ContextResult :=
  let normalized_format := py_strip (py_lower format) in
  if negb (supported normalized_format) then inl (UnsupportedFormat format)
  else if (max_tokens <=? 0)%Z || bool_decide (length memories = 0%nat)
  then inr (_empty_result normalized_format 0)
  else
    let (eligible, dropped_before_budget) := _prepare_memories memories in
    match eligible with
    | [] => inr (_empty_result normalized_format dropped_before_budget)
    | _ =>
        match _select_memories_within_budget eligible normalized_format max_tokens with
        | None => inl OutOfFuel
        | Some (selected, dropped_for_budget) =>
            let rendered := _render selected normalized_format in
            inr {| cr_system_prompt_addition := rendered; cr_token_count := _count_tokens rendered;
                   cr_memory_count := Z.of_nat (length selected);
                   cr_memories_dropped := (dropped_before_budget + dropped_for_budget)%Z;
                   cr_format := normalized_format |}
        end
    end.

Definition build_context (memories : list MemoryResult) (format : string) (max_tokens : Z)
    : build_error + string :=
  match build memories format max_tokens with
  | inl e => inl e
  | inr r => inr (cr_system_prompt_addition r)
  end.

Definition build_system_prompt (base_prompt : string) (memories : list MemoryResult) : build_error + string :=
  let base := py_strip base_prompt in
  match build_context memories "bullets" DEFAULT_MAX_TOKENS with
  | inl e => inl e
  | inr EmptyString => inr base
  | inr memory_context =>
      inr (base +:+ newline +:+ newline +:+ "Relevant memory context:" +:+ newline
           +:+ "Use these memories only when they improve the response." +:+ newline
           +:+ "Do not mention that memory context was injected." +:+ newline +:+ memory_context)
  end.

(** A withheld-context notice: the text, its status object and the key it is
    filed under. *)
Record Notice := { no_key : string; no_status : obj; no_notice : string }.

Definition status_text (k : string) (status : obj) : string := py_str str_other (jget_or_null k status).

(** [render] of [_build_noticed] *)
Definition render_noticed (n : Notice) (format : string) (selected : list MemoryResult) : string :=
  let base := match selected with [] => EmptyString | _ => _render selected format end in
  if bool_decide (format = "json") then
    json_dumps str_other None 0
      (JObj [("memories", match selected with [] => JObj [] | _ => grouped_json selected end);
             (no_key n, JObj (no_status n)); ("notice", JStr (no_notice n))])
  else
    let scope_attribute := match jget "scope" (no_status n) with
                           | Some _ => " " +:+ attribute "scope" (status_text "scope" (no_status n))
                           | None => EmptyString end in
    let element := "<" +:+ no_key n +:+ " " +:+ attribute "state" (status_text "state" (no_status n))
                   +:+ scope_attribute +:+ ">" +:+ escape (no_notice n) +:+ "</" +:+ no_key n +:+ ">" in
    if bool_decide (format = "xml") then
      match base with
      | EmptyString => element
      | _ => "<governed_memory_context>" +:+ element +:+ base +:+ "</governed_memory_context>"
      end
    else no_notice n +:+ match base with EmptyString => EmptyString | _ => newline +:+ newline +:+ base end.

Definition _build_noticed (memories : list MemoryResult) (n : Notice) (format : string) (max_tokens : Z)
    : build_error + ContextResult :=
  if negb (supported format) then inl (UnsupportedFormat format)
  else
    let (selected, dropped) := _prepare_memories memories in
    match shed (length selected) 0
            (fun selected => max_tokens <? _count_tokens (render_noticed n format selected))%Z selected dropped with
    | None => inl OutOfFuel
    | Some (selected, dropped) =>
        let rendered := render_noticed n format selected in
        let count := _count_tokens rendered in
        if ((max_tokens <=? 0) || (max_tokens <? count))%Z then inr (_empty_result format dropped)
        else inr {| cr_system_prompt_addition := rendered; cr_token_count := count;
                    cr_memory_count := Z.of_nat (length selected); cr_memories_dropped := dropped;
                    cr_format := format |}
    end.

(** [MemoryVisibility] of [api/schemas/responses.py] *)
Inductive visibility_state := processing | unavailable.
Inductive visibility_scope := user_learned_context | affected_context.
Record MemoryVisibility := { vi_state : visibility_state; vi_scope : visibility_scope }.

Definition visibility_dump (v : MemoryVisibility) : obj :=
  [("state", JStr match vi_state v with processing => "processing" | unavailable => "unavailable" end);
   ("scope", JStr match vi_scope v with
                  | user_learned_context => "user_learned_context" | affected_context => "affected_context" end)].

Definition visibility_notice (v : MemoryVisibility) : string :=
  "MemoryOS has withheld "
  +:+ match vi_scope v with affected_context => "affected context" | _ => "learned context" end
  +:+ " while an update is "
  +:+ match vi_state v with processing => "processing." | _ => "not yet resolved safely." end
  +:+ " Do not present a withheld stored value as current. "
  +:+ "This status is not a request for user clarification.".

Definition build_guarded (memories : list MemoryResult) (visibility : MemoryVisibility) (format : string)
    (max_tokens : Z) : build_error + ContextResult :=
  if negb (supported format) then inl (UnsupportedFormat format)
  else
    _build_noticed (match vi_scope visibility with affected_context => memories | _ => [] end)
      {| no_key := "memory_visibility"; no_status := visibility_dump visibility;
         no_notice := visibility_notice visibility |} format max_tokens.

(** [request] is the dumped [PreferenceScopeRequest]. *)
Definition build_scope_required (memories : list MemoryResult) (request : obj) (format : string)
    (max_tokens : Z) : build_error + ContextResult :=
  _build_noticed memories
    {| no_key := "preference_scope_request"; no_status := request;
       no_notice := "MemoryOS has withheld preferences whose application scope is unknown. "
         +:+ "Ask which application/project scope applies; do not choose a global or scoped default. "
         +:+ "This is a scope question, not a new preference value or permission change. "
         +:+ json_dumps str_other None 0 (JObj request) |} format max_tokens.

(** [decisions] are the dumped [PreferenceReadDecision]s. *)
Definition build_choice_unresolved (memories : list MemoryResult) (decisions : list json) (format : string)
    (max_tokens : Z) : build_error + ContextResult :=
  let status := [("state", JStr "current_choice_unresolved"); ("decisions", JArr decisions)] in
  _build_noticed memories
    {| no_key := "preference_decisions"; no_status := status;
       no_notice := "MemoryOS has withheld unresolved current preference choices. "
         +:+ "Do not choose a prior or candidate value as current. Ask which value should remain current "
         +:+ "and where it applies. " +:+ json_dumps str_other None 0 (JObj status) |} format max_tokens.
End Builder.
