(* ===== verification/ContextBuilderTheorems.v ===== *)
(** * Prompt context: what is shown

    The selection of ContextBuilder.v keeps the best memories and drops only
    unimportant, duplicate or, when over budget, the least important ones; its
    loops terminate; a notice never exceeds its budget; and no memory's text can
    forge structure in what is rendered. *)

From S2P Require Export ContextBuilder.

(** ** Scores *)

Lemma scores_below_spec a b :
  scores_below a b = true <->
  (mr_importance_score a < mr_importance_score b \/
   (mr_importance_score a == mr_importance_score b /\ mr_final_score a < mr_final_score b))%Q.
Proof. unfold scores_below. by rewrite orb_true_iff, andb_true_iff, !Qltb_lt, Qeq_bool_iff. Qed.

Lemma scores_below_irrefl a : scores_below a a = false.
Proof. apply not_true_iff_false. rewrite scores_below_spec. intros [|[]]; lra. Qed.

Lemma scores_below_neg_trans a b c :
  scores_below a b = false -> scores_below b c = false -> scores_below a c = false.
Proof.
  rewrite <- !not_true_iff_false, !scores_below_spec. intros Hab Hbc Hac.
  destruct (Qlt_le_dec (mr_importance_score a) (mr_importance_score b)); [tauto|].
  destruct (Qlt_le_dec (mr_importance_score b) (mr_importance_score c)); [tauto|].
  destruct Hac as [|[Hi Hf]]; [lra|].
  destruct (Qlt_le_dec (mr_final_score a) (mr_final_score b)); [apply Hab; right; split; lra|].
  apply Hbc. right. split; lra.
Qed.

Lemma scores_below_asym a b : scores_below a b = true -> scores_below b a = false.
Proof.
  intros Hab. destruct (scores_below b a) eqn:Hba; [|done].
  rewrite scores_below_spec in *. destruct Hab as [|[]], Hba as [|[]]; lra.
Qed.

Lemma lowest_in m l : lowest m l ∈ m :: l.
Proof.
  revert m. induction l as [|x l IH]; intros m; simpl; [apply list_elem_of_here|].
  destruct (scores_below x m); [apply list_elem_of_further, IH|].
  specialize (IH m). rewrite !elem_of_cons in *. tauto.
Qed.

Lemma lowest_least m l x : x ∈ m :: l -> scores_below x (lowest m l) = false.
Proof.
  revert m x. induction l as [|y l IH]; intros m x; simpl.
  - rewrite list_elem_of_singleton. intros ->. apply scores_below_irrefl.
  - destruct (scores_below y m) eqn:E; rewrite !elem_of_cons; intros [->|[->|Hx]].
    + apply (scores_below_neg_trans _ y); [by apply scores_below_asym|]. apply IH, list_elem_of_here.
    + apply IH, list_elem_of_here.
    + by apply IH, list_elem_of_further.
    + apply IH, list_elem_of_here.
    + apply (scores_below_neg_trans _ m); [done|]. apply IH, list_elem_of_here.
    + by apply IH, list_elem_of_further.
Qed.

(** ** The budget loop *)

Lemma fmap_sublist {A B} (f : A -> B) l l' : l' `sublist_of` l -> f <$> l' `sublist_of` f <$> l.
Proof. induction 1; simpl; by constructor. Qed.

Lemma result_eqb_refl a : result_eqb a a = true.
Proof.
  unfold result_eqb. rewrite !bool_decide_true by done.
  repeat (rewrite (proj2 (Qeq_bool_iff _ _)) by reflexivity). done.
Qed.

Lemma result_eqb_content a b : result_eqb a b = true -> mr_content a = mr_content b.
Proof. unfold result_eqb. rewrite !andb_true_iff, !bool_decide_eq_true. tauto. Qed.

Abbreviation contents l := (mr_content <$> l).

(** Contents are distinct, so [remove] takes out the element it was given. *)
Lemma remove_first_split l x :
  NoDup (contents l) -> x ∈ l ->
  exists l1 l2, l = l1 ++ x :: l2 /\ remove_first x l = l1 ++ l2.
Proof.
  induction l as [|y l IH]; simpl; [by rewrite elem_of_nil|].
  rewrite NoDup_cons. intros [Hy Hl] Hx. destruct (result_eqb y x) eqn:E.
  - assert (y = x) as -> by (apply elem_of_cons in Hx as [->|Hx]; [done|];
      exfalso; apply Hy; rewrite (result_eqb_content _ _ E); by apply list_elem_of_fmap_2).
    by exists [], l.
  - apply elem_of_cons in Hx as [->|Hx]; [by rewrite result_eqb_refl in E|].
    destruct (IH Hl Hx) as (l1 & l2 & -> & ->). by exists (y :: l1), l2.
Qed.

(** What a run of the loop keeps. *)
Record shed_result (keep : nat) (over : list MemoryResult -> bool) (selected kept : list MemoryResult) : Prop := {
  sr_prefix : take keep kept = take keep selected;
  sr_suffix : drop keep kept `sublist_of` drop keep selected;
  sr_fits : (length kept <= keep)%nat \/ over kept = false;
  sr_least x y : x ∈ selected -> x ∉ kept -> y ∈ drop keep kept -> scores_below y x = false;
}.

Lemma sublist_of_parts {A} keep (l' l : list A) :
  take keep l' = take keep l -> drop keep l' `sublist_of` drop keep l -> l' `sublist_of` l.
Proof. intros Ht Hd. rewrite <- (take_drop keep l'), <- (take_drop keep l), Ht. by apply sublist_app. Qed.

Lemma shed_step keep l m removable :
  NoDup (contents l) -> drop keep l = m :: removable ->
  let x := lowest m removable in
  let l' := remove_first x l in
  S (length l') = length l /\ take keep l' = take keep l /\ drop keep l' `sublist_of` drop keep l /\
  (forall y, y ∈ l -> y = x \/ y ∈ l') /\ (forall y, y ∈ drop keep l' -> scores_below y x = false).
Proof.
  intros Hnd Hdrop x l'. assert (x ∈ drop keep l) as Hx by (rewrite Hdrop; apply lowest_in).
  destruct (remove_first_split l x Hnd) as (l1 & l2 & El & E').
  { eapply elem_of_sublist; [exact Hx|apply sublist_drop]. }
  subst l'. rewrite E'.
  assert (keep <= length l1)%nat as Hk.
  { destruct (decide (keep <= length l1)%nat) as [|Hlt]; [done|]. exfalso.
    rewrite El, fmap_app, fmap_cons in Hnd. apply NoDup_app in Hnd as (_ & _ & Hnd).
    apply NoDup_cons in Hnd as [Hnd _]. apply Hnd. apply list_elem_of_fmap_2.
    rewrite El, drop_app_ge in Hx by lia. destruct (keep - length l1)%nat as [|k] eqn:E; [lia|].
    simpl in Hx. eapply elem_of_sublist; [exact Hx|apply sublist_drop]. }
  assert (drop keep (l1 ++ l2) `sublist_of` drop keep l) as Hsub.
  { rewrite El, !drop_app_le by done. apply sublist_app; [done|]. by apply sublist_cons. }
  split_and!; [by rewrite El, !length_app; simpl; lia|by rewrite El, !take_app_le by done|done| |].
  - intros y. rewrite El, !elem_of_app, elem_of_cons. tauto.
  - intros y Hy. apply lowest_least. rewrite <- Hdrop. by eapply elem_of_sublist.
Qed.

Lemma shed_spec fuel keep over l dropped :
  NoDup (contents l) -> (length l <= fuel + keep)%nat ->
  exists kept, shed fuel keep over l dropped = Some (kept, dropped + Z.of_nat (length l - length kept))%Z /\
               shed_result keep over l kept.
Proof.
  revert l dropped. induction fuel as [|fuel IH]; intros l dropped Hnd Hlen; simpl.
  - rewrite drop_ge by lia. exists l. rewrite Nat.sub_diag, Z.add_0_r. split; [done|].
    constructor; [done|done|left; lia|done].
  - destruct (drop keep l) as [|m removable] eqn:Hdrop.
    { exists l. rewrite Nat.sub_diag, Z.add_0_r. split; [done|]. constructor; [done|done| |done].
      left. apply (f_equal length) in Hdrop. rewrite length_drop in Hdrop. simpl in Hdrop. lia. }
    destruct (over l) eqn:Hover.
    2: { exists l. rewrite Nat.sub_diag, Z.add_0_r. split; [done|]. by constructor; auto. }
    destruct (shed_step keep l m removable Hnd Hdrop) as (Hl' & Htake & Hsub & Hin & Hlow).
    set (l' := remove_first (lowest m removable) l) in *.
    assert (NoDup (contents l')) as Hnd'.
    { eapply sublist_NoDup; [exact Hnd|]. by apply fmap_sublist, (sublist_of_parts keep). }
    destruct (IH l' (dropped + 1)%Z Hnd' ltac:(lia)) as (kept & -> & [K1 K2 K3 K4]).
    pose proof (sublist_length _ _ (sublist_of_parts keep _ _ K1 K2)).
    exists kept. split; [do 2 f_equal; lia|].
    constructor; [by rewrite K1|by etrans|done|].
    intros x y Hx Hnk Hy. destruct (Hin x Hx) as [->|Hx']; [|by apply (K4 x y)].
    apply Hlow. by eapply elem_of_sublist.
Qed.

(** ** The memories worth showing *)

Lemma near_duplicate_content a b : near_duplicate a b = false -> mr_content a <> mr_content b.
Proof.
  unfold near_duplicate, _content_similarity. intros Hf E. rewrite E, bool_decide_true in Hf by done.
  by vm_compute in Hf.
Qed.

(** No memory is a near duplicate of one before it. *)
Abbreviation no_duplicates := (StronglySorted (fun a b => near_duplicate b a = false)).

Lemma no_duplicates_contents l : no_duplicates l -> NoDup (contents l).
Proof.
  induction 1 as [|a l _ IH Ha]; simpl; constructor; [|done].
  intros (b & E & Hb)%list_elem_of_fmap. rewrite Forall_forall in Ha.
  by apply (near_duplicate_content b a); [apply Ha|].
Qed.

Definition important (m : MemoryResult) : Prop := (MIN_CONTEXT_IMPORTANCE <= mr_importance_score m)%Q.

(** What [_prepare_memories] makes of a list of memories. *)
Record prepared_result (memories kept : list MemoryResult) (dropped : Z) : Prop := {
  pr_sublist : kept `sublist_of` memories;
  pr_count : (Z.of_nat (length kept) + dropped = Z.of_nat (length memories))%Z;
  pr_important : Forall important kept;
  pr_distinct : no_duplicates kept;
  pr_dropped m : m ∈ memories -> m ∈ kept \/ ~ important m \/
    exists e, e ∈ kept /\ near_duplicate m e = true /\ by_final_score e m = true;
}.

Lemma prepared_result_app seen m kept dropped k d :
  prepared_result seen kept dropped -> kept ++ k `sublist_of` seen ++ [m] ->
  (Z.of_nat (length k) + d = 1)%Z -> Forall important (kept ++ k) -> no_duplicates (kept ++ k) ->
  (m ∈ k \/ ~ important m \/ exists e, e ∈ kept /\ near_duplicate m e = true /\ by_final_score e m = true) ->
  prepared_result (seen ++ [m]) (kept ++ k) (dropped + d).
Proof.
  intros [P1 P2 P3 P4 P5] Hs Hn Hi Hd Hm. constructor; [done| |done|done|].
  - rewrite !length_app. simpl. lia.
  - intros x. rewrite !elem_of_app, list_elem_of_singleton. intros [Hx| ->].
    + destruct (P5 x Hx) as [|[|(e & He & ?)]]; [tauto|tauto|]. right; right. exists e.
      rewrite elem_of_app. tauto.
    + destruct Hm as [|[|(e & He & ?)]]; [tauto|tauto|]. right; right. exists e.
      rewrite elem_of_app. tauto.
Qed.

Lemma prepared_result_drop seen m kept dropped :
  prepared_result seen kept dropped ->
  (~ important m \/ exists e, e ∈ kept /\ near_duplicate m e = true /\ by_final_score e m = true) ->
  prepared_result (seen ++ [m]) kept (dropped + 1).
Proof.
  intros Hok Hm. rewrite <- (app_nil_r kept).
  apply prepared_result_app; rewrite ?app_nil_r; try done; try apply Hok; [|by right].
  rewrite <- (app_nil_r kept). apply sublist_app; [apply Hok|apply sublist_nil_l].
Qed.

Lemma prepare_spec memories : forall seen prepared dropped,
  StronglySorted (fun a b => by_final_score a b = true) (seen ++ memories) ->
  prepared_result seen prepared dropped ->
  prepared_result (seen ++ memories) (prepare memories prepared dropped).1 (prepare memories prepared dropped).2.
Proof.
  induction memories as [|m memories IH]; intros seen kept dropped Hsorted Hok; simpl.
  { by rewrite app_nil_r. }
  assert (forall e, e ∈ seen -> by_final_score e m = true) as Hbefore.
  { clear -Hsorted. induction seen as [|x seen IH]; intros e; [by rewrite elem_of_nil|].
    inversion Hsorted as [|? ? Hs Hx]; subst. rewrite elem_of_cons. intros [->|He]; [|by apply IH].
    rewrite Forall_forall in Hx. apply Hx. rewrite elem_of_app, elem_of_cons. tauto. }
  pose proof (pr_sublist _ _ _ Hok) as Hsub.
  replace (seen ++ m :: memories) with ((seen ++ [m]) ++ memories) in * by (by rewrite <- app_assoc).
  destruct (mr_importance_score m <?q MIN_CONTEXT_IMPORTANCE) eqn:Hi.
  { apply IH; [done|]. apply prepared_result_drop; [done|]. left. apply Qltb_lt in Hi.
    unfold important. lra. }
  destruct (existsb (near_duplicate m) kept) eqn:Hdup.
  - apply existsb_exists in Hdup as (e & He & Hdup). apply list_elem_of_In in He.
    apply IH; [done|]. apply prepared_result_drop; [done|]. right.
    exists e. split_and!; [done..|]. apply Hbefore. by eapply elem_of_sublist.
  - apply IH; [done|]. rewrite <- (Z.add_0_r dropped). apply prepared_result_app; try done.
    + by apply sublist_app.
    + apply Forall_app. split; [apply Hok|]. apply Forall_singleton. by apply Qltb_ge in Hi.
    + apply StronglySorted_snoc; [apply Hok|]. apply Forall_forall. intros e He.
      apply not_true_iff_false. intros Hd. apply not_true_iff_false in Hdup. apply Hdup.
      apply existsb_exists. exists e. by rewrite <- list_elem_of_In.
    + left. by apply list_elem_of_singleton.
Qed.

Lemma by_final_score_total a b : by_final_score a b = false -> by_final_score b a = true.
Proof. unfold by_final_score. intros Hab. q_reflect. apply Qle_bool_iff. lra. Qed.

Lemma by_final_score_sorted l : StronglySorted (fun a b => by_final_score a b = true) (sort_by by_final_score l).
Proof.
  apply Sorted_StronglySorted; [|by apply sort_by_sorted, by_final_score_total].
  intros a b c. unfold by_final_score. rewrite !Qle_bool_iff. lra.
Qed.

Lemma prepare_memories_result memories :
  prepared_result (sort_by by_final_score memories) (_prepare_memories memories).1 (_prepare_memories memories).2.
Proof.
  apply (prepare_spec (sort_by by_final_score memories) [] [] 0); [apply by_final_score_sorted|].
  constructor; [constructor|done|constructor|constructor|]. intros m. by rewrite elem_of_nil.
Qed.

(** The memories considered for a prompt are chosen as intended: they come
    in descending score, all are important enough, none nearly repeats one
    before it, and a memory is left out only if it is unimportant or nearly
    repeats a kept memory with at least its score; the number reported as
    dropped is the number left out. *)
Theorem prepared_memories_are_the_best (memories : list MemoryResult) :
  let (kept, dropped) := _prepare_memories memories in
  StronglySorted (fun a b => mr_final_score b <= mr_final_score a)%Q kept /\
  Forall (fun m => 3 <= mr_importance_score m)%Q kept /\
  (forall i j a b, kept !! i = Some a -> kept !! j = Some b -> (i < j)%nat ->
     (_content_similarity (mr_content b) (mr_content a) <= 9 # 10)%Q) /\
  (forall m, m ∈ memories -> m ∈ kept \/ (mr_importance_score m < 3)%Q \/
     exists e, e ∈ kept /\ (9 # 10 < _content_similarity (mr_content m) (mr_content e))%Q /\
               (mr_final_score m <= mr_final_score e)%Q) /\
  (Z.of_nat (length kept) + dropped = Z.of_nat (length memories))%Z.
Proof.
  pose proof (prepare_memories_result memories) as Hok.
  destruct (_prepare_memories memories) as [kept dropped]. destruct Hok as [P1 P2 P3 P4 P5]. simpl in *.
  split_and!.
  - pose proof (by_final_score_sorted memories) as Hs. clear -P1 Hs. induction P1 as [|x l k H IH|x l k H IH].
    + constructor.
    + inversion Hs as [|? ? Hk Hx]; subst. constructor; [by apply IH|]. apply Forall_forall. intros y Hy.
      rewrite Forall_forall in Hx. apply Qle_bool_iff. apply Hx. by eapply elem_of_sublist.
    + inversion Hs; subst. by apply IH.
  - exact P3.
  - clear -P4. intros i j a b Ha Hb Hij. revert i j Ha Hb Hij.
    induction P4 as [|x l _ IH Hx]; intros [|i] [|j] Ha Hb Hij; simplify_eq/=; [lia| |lia|].
    + rewrite Forall_forall in Hx. apply Qltb_ge, Hx. by eapply list_elem_of_lookup_2.
    + by apply (IH i j); [..|lia].
  - intros m Hm. destruct (P5 m) as [|[Hi|(e & He & Hd & Hs)]].
    + by rewrite sort_by_perm.
    + by left.
    + right; left. unfold important in Hi. apply Qnot_le_lt. exact Hi.
    + right; right. exists e. apply Qltb_lt in Hd. by apply Qle_bool_iff in Hs.
  - by rewrite P2, sort_by_perm.
Qed.

(** ** Budgets *)

Section Budget.
Context `{PyLib} `{Tokenizer}.

Lemma prepared_NoDup memories : NoDup (contents (_prepare_memories memories).1).
Proof. apply no_duplicates_contents, prepare_memories_result. Qed.

Lemma prepared_count memories :
  (Z.of_nat (length (_prepare_memories memories).1) + (_prepare_memories memories).2
   = Z.of_nat (length memories))%Z.
Proof. rewrite (pr_count _ _ _ (prepare_memories_result memories)). by rewrite sort_by_perm. Qed.

(** A notice of withheld context always comes out, for any memories and any
    tokenizer: the loop that makes room for it terminates, the text returned
    never takes more tokens than the budget, its token count is its own, and
    with a positive budget every memory is accounted for as shown or dropped.
    Only an unsupported format is refused. *)
Theorem notices_fit_their_budget (memories : list MemoryResult) (n : Notice) (format : string)
    (max_tokens : Z) :
  match _build_noticed memories n format max_tokens with
  | inl e => supported format = false /\ e = UnsupportedFormat format
  | inr r =>
      (cr_token_count r <= Z.max 0 max_tokens)%Z /\
      cr_token_count r = _count_tokens (cr_system_prompt_addition r) /\
      ((0 < max_tokens)%Z -> (cr_memory_count r + cr_memories_dropped r = Z.of_nat (length memories))%Z)
  end.
Proof.
  unfold _build_noticed. destruct (supported format); [simpl|done].
  pose proof (prepared_NoDup memories) as Hnd. pose proof (prepared_count memories) as Hc.
  destruct (_prepare_memories memories) as [kept dropped]. simpl in Hnd, Hc.
  set (over := fun selected => (max_tokens <? _count_tokens (render_noticed n format selected))%Z).
  destruct (shed_spec (length kept) 0 over kept dropped Hnd ltac:(lia)) as (sel & -> & [S1 S2 S3 S4]).
  pose proof (sublist_length _ _ (sublist_of_parts 0 _ _ S1 S2)) as Hl.
  destruct (Z.leb_spec max_tokens 0), (Z.ltb_spec max_tokens (_count_tokens (render_noticed n format sel)));
    simpl; (split; [lia|split; [done|intros Hm]]); try lia.
  destruct S3 as [S3|S3]; [lia|]. unfold over in S3. lia.
Qed.

(** A context is built from the best memories: the build terminates and
    fails only on an unsupported format; otherwise the text shows a selection of
    the memories worth showing in which the three best scored always stay, which
    fits the budget as soon as it has more than these three, and from which only
    memories no more important than any of the others shown were dropped. *)
Theorem context_keeps_the_best (memories : list MemoryResult) (format : string) (max_tokens : Z) :
  let worthy := (_prepare_memories memories).1 in
  let f := py_strip (py_lower format) in
  match build memories format max_tokens with
  | inl e => supported f = false /\ e = UnsupportedFormat format
  | inr r =>
      (cr_system_prompt_addition r = EmptyString /\ cr_token_count r = 0%Z /\ cr_memory_count r = 0%Z /\
       ((max_tokens <= 0)%Z \/ worthy = [])) \/
      exists shown,
        cr_system_prompt_addition r = _render shown f /\
        cr_token_count r = _count_tokens (_render shown f) /\
        cr_memory_count r = Z.of_nat (length shown) /\
        (cr_memory_count r + cr_memories_dropped r = Z.of_nat (length memories))%Z /\
        shown `sublist_of` worthy /\ take 3 shown = take 3 worthy /\
        ((length shown <= 3)%nat \/ (cr_token_count r <= max_tokens)%Z) /\
        (forall x y, x ∈ worthy -> x ∉ shown -> y ∈ drop 3 shown ->
           (mr_importance_score x <= mr_importance_score y)%Q)
  end.
Proof.
  unfold build. set (f := py_strip (py_lower format)). cbv zeta. destruct (supported f); [simpl|done].
  destruct (Z.leb_spec max_tokens 0); [by left; auto|]. simpl.
  case_bool_decide as Hlen. { left. destruct memories; [auto|done]. }
  pose proof (prepared_NoDup memories) as Hnd. pose proof (prepared_count memories) as Hc.
  destruct (_prepare_memories memories) as [[|m worthy] dropped]; cbn [fst snd] in *; [by left; auto|].
  unfold _select_memories_within_budget, MIN_MEMORIES_TO_KEEP.
  set (over := fun selected => (max_tokens <? _count_tokens (_render selected f))%Z).
  destruct (shed_spec (length (m :: worthy)) 3 over (m :: worthy) 0 Hnd ltac:(simpl; lia))
    as (shown & -> & [S1 S2 S3 S4]).
  pose proof (sublist_of_parts 3 _ _ S1 S2) as Hsub. pose proof (sublist_length _ _ Hsub) as Hl.
  right. exists shown. simpl in *. split_and!; [done..|lia|done|done| |].
  - destruct S3 as [|S3]; [by left|right]. unfold over in S3. lia.
  - intros x y Hx Hn Hy. specialize (S4 x y Hx Hn Hy). apply not_true_iff_false in S4.
    rewrite scores_below_spec in S4. destruct (Qlt_le_dec (mr_importance_score y) (mr_importance_score x)); [tauto|done].
Qed.
End Budget.

(** ** Rendering *)

Fixpoint count_char (c : ascii) (s : string) : nat :=
  match s with
  | EmptyString => 0
  | String d s => (if bool_decide (c = d) then 1 else 0) + count_char c s
  end.

Section CountChar.
Context (c : ascii).
Implicit Types s : string.

Lemma count_app s t : count_char c (s +:+ t) = (count_char c s + count_char c t)%nat.
Proof. induction s as [|d s IH]; simpl; [done|]. rewrite IH. lia. Qed.

Lemma count_rev_onto s acc : count_char c (rev_onto s acc) = (count_char c s + count_char c acc)%nat.
Proof. revert acc. induction s as [|d s IH]; intros acc; simpl; [done|]. rewrite IH. simpl. lia. Qed.

Lemma count_rev s : count_char c (py_rev s) = count_char c s.
Proof. unfold py_rev. rewrite count_rev_onto. simpl. lia. Qed.

Lemma count_drop_while p s : (count_char c (drop_while p s) <= count_char c s)%nat.
Proof. induction s as [|d s IH]; simpl; [done|]. destruct (p d); simpl; lia. Qed.

Lemma count_drop_while_end p s : (count_char c (drop_while_end p s) <= count_char c s)%nat.
Proof. unfold drop_while_end. rewrite count_rev. etrans; [apply count_drop_while|]. by rewrite count_rev. Qed.

Lemma count_take n s : (count_char c (py_take n s) <= count_char c s)%nat.
Proof. revert n. induction s as [|d s IH]; intros [|n]; simpl; [lia..|]. specialize (IH n). lia. Qed.

Lemma count_join sep l :
  count_char c (py_join sep l)
  = (sum_list_with (count_char c) l + count_char c sep * (length l - 1))%nat.
Proof.
  induction l as [|s [|t l] IH]; [simpl; lia..|].
  change (py_join sep (s :: t :: l)) with (s +:+ sep +:+ py_join sep (t :: l)).
  rewrite !count_app, IH. simpl. rewrite Nat.sub_0_r. lia.
Qed.

(** Words hold no white space. *)
Lemma count_split_words cur s :
  is_space c = true -> count_char c cur = 0%nat ->
  sum_list_with (count_char c) (split_words cur s) = 0%nat.
Proof.
  intros Hc. revert cur. induction s as [|d s IH]; intros cur Hcur; simpl.
  - case_bool_decide; simpl; [done|]. rewrite count_rev. lia.
  - destruct (is_space d) eqn:Hd.
    + rewrite sum_list_with_app, IH by done. case_bool_decide; simpl; [done|]. rewrite count_rev. lia.
    + apply IH. simpl. rewrite bool_decide_false by congruence. done.
Qed.

Lemma count_words s : is_space c = true -> c <> " "%char -> count_char c (words s) = 0%nat.
Proof.
  intros Hc Hne. unfold words. rewrite count_join. unfold py_split.
  rewrite count_split_words by done. simpl. by rewrite bool_decide_false.
Qed.
End CountChar.

Lemma count_content_for_prompt c m : is_space c = true -> c <> " "%char -> count_char c (_content_for_prompt m) = 0%nat.
Proof.
  intros Hc Hne. unfold _content_for_prompt. pose proof (count_words c (mr_content m) Hc Hne) as Hw.
  destruct (_ <=? _)%nat; [done|]. cbv zeta. rewrite count_app.
  match goal with |- (count_char c (drop_while_end ?p (py_take ?n ?s)) + _)%nat = _ =>
    pose proof (count_drop_while_end c p (py_take n s)); pose proof (count_take c n s) end.
  assert (count_char c "..." = 0%nat) as ->; [|lia].
  assert (c <> "."%char) by (intros ->; done). simpl. by rewrite !bool_decide_false.
Qed.

Lemma count_escape c s :
  c = "<"%char \/ c = ">"%char \/ c = quote_char -> count_char c (escape s) = 0%nat.
Proof.
  intros Hc. induction s as [|d s IH]; [done|]. cbn [escape]. rewrite count_app, IH, Nat.add_0_r.
  unfold escape_char. destruct Hc as [->|[->| ->]]; repeat (case_bool_decide; [done|]);
    cbn [count_char]; by rewrite bool_decide_false by congruence.
Qed.

(** The memories a rendering shows: those of a known category. *)
Definition shown (memories : list MemoryResult) : list MemoryResult :=
  filter (fun m => mr_category m ∈ CATEGORY_ORDER) memories.

Lemma length_flat_map_categories (l : list MemoryResult) (categories : list string) :
  NoDup categories ->
  sum_list_with (fun g => length g.2) ((fun category => (category, in_category category l)) <$> categories)
  = length (filter (fun m => mr_category m ∈ categories) l).
Proof.
  induction 1 as [|c cs Hc _ IH].
  - rewrite list_filter_none; [done|]. intros m _ []%elem_of_nil.
  - rewrite fmap_cons. cbn [sum_list_with snd]. rewrite IH. clear IH. unfold in_category. induction l as [|m l IH]; [done|].
    rewrite !filter_cons. destruct (decide (mr_category m = c)) as [E|E].
    + rewrite decide_False by (by rewrite E). rewrite decide_True by (rewrite E; apply list_elem_of_here).
      simpl. lia.
    + destruct (decide (mr_category m ∈ cs)) as [Hm|Hm].
      * rewrite decide_True by (by apply list_elem_of_further). simpl. lia.
      * rewrite decide_False by (rewrite elem_of_cons; tauto). done.
Qed.

Lemma NoDup_category_order : NoDup CATEGORY_ORDER.
Proof. by apply (bool_decide_unpack _). Qed.

(** Lines without the character, joined by a separator. *)
Lemma count_join_clean c sep lines :
  Forall (fun line => count_char c line = 0%nat) lines ->
  count_char c (py_join sep lines) = (count_char c sep * (length lines - 1))%nat.
Proof.
  intros Hl. rewrite count_join. assert (sum_list_with (count_char c) lines = 0%nat) as ->; [|done].
  induction Hl as [|x l Hx _ IH]; simpl; [done|lia].
Qed.

Lemma shown_groups_category memories g : g ∈ shown_groups memories -> g.1 ∈ CATEGORY_ORDER.
Proof.
  unfold shown_groups, _group_by_category. rewrite list_elem_of_filter, list_elem_of_fmap.
  by intros (_ & c & -> & Hc).
Qed.

Lemma shown_groups_length memories :
  sum_list_with (fun g => length g.2) (shown_groups memories) = length (shown memories).
Proof.
  unfold shown. rewrite <- (length_flat_map_categories memories CATEGORY_ORDER NoDup_category_order).
  unfold shown_groups, _group_by_category.
  generalize ((fun category => (category, in_category category memories)) <$> CATEGORY_ORDER). intros l.
  induction l as [|g l IH]; simpl; [done|]. rewrite filter_cons. case_decide as Hg; simpl; [lia|].
  rewrite IH. destruct g as [c [|m ms]]; [done|]. discriminate Hg.
Qed.

Lemma label_is_one_line category :
  category ∈ CATEGORY_ORDER -> count_char "010" (default EmptyString (CATEGORY_LABELS !! category) +:+ ":") = 0%nat.
Proof.
  assert (Forall (fun category =>
    count_char "010" (default EmptyString (CATEGORY_LABELS !! category) +:+ ":") = 0%nat) CATEGORY_ORDER) as H
    by (by vm_compute; repeat constructor).
  rewrite Forall_forall in H. apply H.
Qed.

Lemma length_bullet_lines (multi_category : bool) groups :
  length (flat_map (fun g : string * list MemoryResult =>
    (if multi_category then [default EmptyString (CATEGORY_LABELS !! g.1) +:+ ":"] else [])
    ++ ((fun m => "- " +:+ _content_for_prompt m) <$> g.2)) groups)
  = (sum_list_with (fun g => length g.2) groups + if multi_category then length groups else 0)%nat.
Proof.
  induction groups as [|g l IH]; [by destruct multi_category|]. cbn [flat_map sum_list_with length].
  rewrite length_app, IH, length_app, length_fmap. destruct multi_category; simpl; lia.
Qed.

Section Tags.
Context (c : ascii) (Hc : c = "<"%char \/ c = ">"%char).

Lemma count_xml_memory category m : count_char c (xml_memory category m) = 2%nat.
Proof using Hc.
  assert (c = "<"%char \/ c = ">"%char \/ c = quote_char) as Hc' by tauto.
  unfold xml_memory, attribute. rewrite !count_app, (count_escape c _ Hc').
  destruct Hc as [->| ->]; cbn -[escape _content_for_prompt]; rewrite ?count_app;
    rewrite ?count_escape by tauto; done.
Qed.

Lemma count_xml_memories category ms :
  sum_list_with (count_char c) (xml_memory category <$> ms) = (2 * length ms)%nat.
Proof using Hc.
  induction ms as [|m ms IH]; [done|]. rewrite fmap_cons. cbn [sum_list_with length].
  rewrite IH, count_xml_memory. lia.
Qed.

Lemma count_xml_groups groups :
  sum_list_with (count_char c) (flat_map (fun g : string * list MemoryResult => xml_memory g.1 <$> g.2) groups)
  = (2 * sum_list_with (fun g => length g.2) groups)%nat.
Proof using Hc.
  induction groups as [|g l IH]; [done|]. cbn [flat_map sum_list_with].
  rewrite sum_list_with_app, IH, count_xml_memories. lia.
Qed.
End Tags.

(** C40: No memory can forge structure in the prompt: the bullet list has exactly
    one line for its title, one per shown memory and one per heading, whatever
    the memories say, and the tags of the XML form are exactly the two of the
    context and two per shown memory. *)
Theorem rendering_is_injection_safe (memories : list MemoryResult) :
  let groups := length (shown_groups memories) in
  count_char "010" (_render_bullets memories)
    = (length (shown memories) + if decide (1 < groups) then groups else 0)%nat /\
  count_char "<" (_render_xml memories) = (2 + 2 * length (shown memories))%nat /\
  count_char ">" (_render_xml memories) = (2 + 2 * length (shown memories))%nat.
Proof.
  intros groups. split.
  - unfold _render_bullets. fold groups. rewrite count_join_clean.
    + cbn [length]. rewrite length_bullet_lines, shown_groups_length. fold groups. simpl.
      destruct (Nat.ltb_spec 1 groups); case_decide; lia.
    + constructor; [done|]. apply Forall_flat_map, Forall_forall. intros g Hg%shown_groups_category.
      apply Forall_app. split.
      * destruct (1 <? groups)%nat; [|done]. apply Forall_singleton. by apply label_is_one_line.
      * apply Forall_fmap, Forall_forall. intros m _. simpl. by apply count_content_for_prompt.
  - assert (forall c, c = "<"%char \/ c = ">"%char ->
      count_char c (_render_xml memories) = (2 + 2 * length (shown memories))%nat) as Hx; [|by auto].
    intros c Hc. unfold _render_xml. rewrite count_join, !sum_list_with_app, (count_xml_groups c Hc).
    assert (count_char c newline = 0%nat) as -> by (destruct Hc as [->| ->]; done).
    unfold shown. rewrite <- (length_flat_map_categories memories CATEGORY_ORDER NoDup_category_order).
    fold (_group_by_category memories). destruct Hc as [->| ->]; simpl; lia.
Qed.

(** ** Witnesses *)

Section ContextExamples.
#[local] Existing Instance example_pylib.
#[local] Instance no_tiktoken : Tokenizer := {| encoded_length _ := None |}.

Definition example_memory (id : string) (content category : string) (importance score : Q) : MemoryResult :=
  {| mr_id := id; mr_content := content; mr_category := category; mr_importance_score := importance;
     mr_confidence_score := 1; mr_semantic_score := 1; mr_recency_score := 1; mr_final_score := score;
     mr_agent_id := None; mr_previous_version_id := None; mr_last_accessed_at := None; mr_created_at := None;
     mr_source_event_id := None; mr_provenance := JNull; mr_effective_from := None; mr_effective_until := None |}.

Definition example_memories : list MemoryResult :=
  [example_memory "1" "Prefers dark mode" "preference" 5 (1 # 2);
   example_memory "2" "prefers  DARK mode" "preference" 9 (1 # 4);
   example_memory "3" "Speaks <b>Rust</b>" "expertise" 4 (3 # 4);
   example_memory "4" "Likes tea" "preference" 2 1;
   example_memory "5" "Ships on Fridays" "procedure" 4 (1 # 8);
   example_memory "6" "Lives in Pune" "fact" 8 (1 # 9);
   example_memory "7" "Works at night" "fact" 7 (1 # 10)].

Example example_context :
  build example_memories " XML " 20 =
  inr {| cr_system_prompt_addition := py_join newline
           ["<memory_context>";
            "  <memory " +:+ attribute "category" "expertise" +:+ ">Speaks &lt;b&gt;Rust&lt;/b&gt;</memory>";
            "  <memory " +:+ attribute "category" "preference" +:+ ">Prefers dark mode</memory>";
            "  <memory " +:+ attribute "category" "procedure" +:+ ">Ships on Fridays</memory>";
            "</memory_context>"];
         cr_token_count := 17; cr_memory_count := 3; cr_memories_dropped := 4; cr_format := "xml" |}.
Proof. vm_compute. reflexivity. Qed.

Lemma prepared_memories_are_the_best_witness :
  contents (_prepare_memories example_memories).1
    = ["Speaks <b>Rust</b>"; "Prefers dark mode"; "Ships on Fridays"; "Lives in Pune"; "Works at night"] /\
  Forall (fun m => 3 <= mr_importance_score m)%Q (_prepare_memories example_memories).1.
Proof.
  split; [vm_compute; reflexivity|].
  pose proof (prepared_memories_are_the_best example_memories) as H.
  destruct (_prepare_memories example_memories) as [kept dropped]. exact (proj1 (proj2 H)).
Defined.

Lemma notices_fit_their_budget_witness :
  match build_guarded example_memories {| vi_state := processing; vi_scope := affected_context |} "bullets" 70 with
  | inl _ => False
  | inr r => cr_token_count r = 63%Z /\ (cr_memory_count r + cr_memories_dropped r = 7)%Z
  end.
Proof.
  pose proof (notices_fit_their_budget example_memories
    {| no_key := "memory_visibility";
       no_status := visibility_dump {| vi_state := processing; vi_scope := affected_context |};
       no_notice := visibility_notice {| vi_state := processing; vi_scope := affected_context |} |}
    "bullets" 70) as H.
  unfold build_guarded. change (supported "bullets") with true. cbn [negb vi_scope].
  destruct (_build_noticed _ _ _ _) as [e|r] eqn:E; [vm_compute in E; discriminate E|].
  split; [vm_compute in E; injection E as <-; reflexivity|]. apply H. reflexivity.
Defined.

Lemma context_keeps_the_best_witness :
  match build example_memories " XML " 20 with
  | inl _ => False
  | inr r => (cr_memory_count r + cr_memories_dropped r = 7)%Z
  end.
Proof.
  pose proof (context_keeps_the_best example_memories " XML " 20) as H.
  destruct (build example_memories " XML " 20) as [e|r] eqn:E; [vm_compute in E; discriminate E|].
  destruct H as [(_ & _ & _ & [H|H])|(shown & _ & _ & _ & H & _)]; [lia|vm_compute in H; discriminate H|exact H].
Defined.
End ContextExamples.
