(* ===== verification/Ranking.v ===== *)
(** * Ranking of retrieved memories

    The functions of [api/services/retriever.py] that neither read the database
    nor keep state: temporal validity, scores, the result record of a memory,
    deduplication, the merge of candidate tiers, bounded id lists, cache
    contexts, and the winner check of source claims. *)

From S2P Require Export PreferenceClaims ContextBuilder.

Definition SEMANTIC_WEIGHT : Q := 3 # 5.
Definition IMPORTANCE_WEIGHT : Q := 1 # 4.
Definition RECENCY_WEIGHT : Q := 3 # 20.
Definition OVERFETCH_MULTIPLIER : Z := 3.
Definition MIN_SEMANTIC_SCORE : Q := 315 # 1000.
Definition COLD_START_THRESHOLD : Z := 5.
Definition DEDUPLICATION_THRESHOLD : Q := 95 # 100.
Definition day : Z := 86400000000.

(** A point of the vector index. *)
Record Point := { pt_id : option string; pt_score : Q; pt_payload : obj }.

Section Ranking.
Context `{PyLib} `{Hashing}.

(** ** Time *)

(** A value that is no date reads as no bound. *)
Definition _parse_datetime (value : json) : option datetime :=
  match value with
  | JNull => None
  | JDate t => Some t
  | v => fst <$> fromisoformat (replace_Z (py_str str_other v))
  end.

Definition _is_valid_at (effective_from effective_until : json) (reference : datetime) : bool :=
  starts_by (_parse_datetime effective_from) reference && ends_after (_parse_datetime effective_until) reference.

Definition _payload_is_valid_at (payload : obj) (reference : datetime) : bool :=
  _is_valid_at (jget_or_null "effective_from" payload) (jget_or_null "effective_until" payload) reference.

Definition date_json (o : option datetime) : json := opt_json JDate o.

Definition _memory_is_current (memory : Memory) (reference : datetime) : bool :=
  _is_valid_at JNull (date_json (m_expires_at memory)) reference
  && _is_valid_at (date_json (m_effective_from memory)) (date_json (m_effective_until memory)) reference.

(** [_filter_current_results] on results whose bounds are texts. *)
Definition _filter_current_results (results : list MemoryResult) (reference : datetime) : list MemoryResult :=
  filter (fun r => _is_valid_at (opt_json JStr (mr_effective_from r)) (opt_json JStr (mr_effective_until r))
                     reference = true) results.

(** [timedelta.days] floors. *)
Definition _recency_score (last_accessed_at : option datetime) (now : datetime) : Q :=
  match last_accessed_at with
  | None => 0
  | Some t => let age_days := ((now - t) / day)%Z in
              if (age_days <=? 7)%Z then 1 else if (age_days <=? 30)%Z then 1 # 2 else 0
  end.

Definition _created_after (time_filter_days : option Z) (now : datetime) : option datetime :=
  (fun days => now - Z.max 0 days * day)%Z <$> time_filter_days.

(** ** Results *)

Definition weighted_score (semantic importance recency : Q) : Q :=
  SEMANTIC_WEIGHT * semantic + IMPORTANCE_WEIGHT * (importance / 10) + RECENCY_WEIGHT * recency.

Definition result_of (memory : Memory) (provenance : json) (semantic_score : Q) (now : datetime) : MemoryResult :=
  let recency_score := _recency_score (m_last_accessed_at memory) now in
  {| mr_id := uuid_str (m_id memory);
     mr_content := m_content memory;
     mr_category := MemoryCategory.value (m_category memory);
     mr_importance_score := m_importance_score memory;
     mr_confidence_score := m_confidence_score memory;
     mr_semantic_score := semantic_score;
     mr_recency_score := recency_score;
     mr_final_score := py_round (weighted_score semantic_score (m_importance_score memory) recency_score) 6;
     mr_agent_id := uuid_str <$> m_agent_id memory;
     mr_previous_version_id := uuid_str <$> m_previous_version_id memory;
     mr_last_accessed_at := isoformat <$> m_last_accessed_at memory;
     mr_created_at := Some (isoformat (m_created_at memory));
     mr_source_event_id := uuid_str <$> m_source_event_id memory;
     mr_provenance := provenance;
     mr_effective_from := isoformat <$> m_effective_from memory;
     mr_effective_until := isoformat <$> m_effective_until memory |}.

(** [None]: the stored provenance is malformed and reading it raises. *)
Definition _memory_to_result (memory : Memory) (semantic_score : Q) (now : datetime) : option MemoryResult :=
  provenance ← preference_provenance memory;
  Some (result_of memory provenance semantic_score now).

Definition given_text (k : string) (o : obj) : option string :=
  let v := jget_or_null k o in if truthy v then Some (py_str str_other v) else None.

(** [None]: a [KeyError], [TypeError] or [ValueError].  A provenance that is a
    list of pairs, which [dict] would accept, counts as malformed. *)
Definition _memory_result_from_cache (item : obj) : option MemoryResult :=
  id ← jget "id" item;
  content ← jget "content" item;
  category ← jget "category" item;
  importance ← jget "importance_score" item ≫= py_float;
  confidence ← jget "confidence_score" item ≫= py_float;
  semantic ← jget "semantic_score" item ≫= py_float;
  recency ← jget "recency_score" item ≫= py_float;
  final ← jget "final_score" item ≫= py_float;
  provenance ← match jget_or_null "provenance" item with
               | JObj p => Some (if truthy (JObj p) then JObj p else JNull)
               | v => if truthy v then None else Some JNull
               end;
  Some {| mr_id := py_str str_other id; mr_content := py_str str_other content;
          mr_category := py_str str_other category; mr_importance_score := importance;
          mr_confidence_score := confidence; mr_semantic_score := semantic; mr_recency_score := recency;
          mr_final_score := final; mr_agent_id := given_text "agent_id" item;
          mr_previous_version_id := given_text "previous_version_id" item;
          mr_last_accessed_at := given_text "last_accessed_at" item;
          mr_created_at := given_text "created_at" item;
          mr_source_event_id := given_text "source_event_id" item; mr_provenance := provenance;
          mr_effective_from := given_text "effective_from" item;
          mr_effective_until := given_text "effective_until" item |}.

(** ** Deduplication and ranking *)

Definition _content_similarity : string -> string -> Q := ContextBuilder._content_similarity.

(** [json.dumps] accepts the value: JSON only, no datetime object. *)
Fixpoint dumpable (v : json) : bool :=
  match v with
  | JDate _ => false
  | JArr l => forallb dumpable l
  | JObj kv => forallb (fun kx => dumpable kx.2) kv
  | _ => true
  end.

Definition scope_value (r : MemoryResult) : json :=
  let scope := json_path "scope" (mr_provenance r) in if truthy scope then scope else JObj [].

Definition _same_source_scope (left right : MemoryResult) : bool :=
  dumpable (scope_value left) && dumpable (scope_value right)
  && bool_decide (json_sorted (scope_value left) = json_sorted (scope_value right)).

Definition duplicates (candidate item : MemoryResult) : bool :=
  _same_source_scope candidate item
  && (DEDUPLICATION_THRESHOLD <?q _content_similarity (mr_content candidate) (mr_content item)).

Fixpoint deduplicate (candidates deduplicated : list MemoryResult) : list MemoryResult :=
  match candidates with
  | [] => deduplicated
  | c :: candidates =>
      if existsb (duplicates c) deduplicated then deduplicate candidates deduplicated
      else deduplicate candidates (deduplicated ++ [c])
  end.

Definition by_final_score (a b : MemoryResult) : bool := mr_final_score b <=?q mr_final_score a.
Definition ranked (results : list MemoryResult) : list MemoryResult := sort_by by_final_score results.
Definition _deduplicate_results (results : list MemoryResult) : list MemoryResult :=
  deduplicate (ranked results) [].

(** The loop of [_merge_hot_tier_results]: the limit is looked at after a result
    has been added. *)
Fixpoint merge_loop (results : list MemoryResult) (limit : Z) (merged : list MemoryResult) : list MemoryResult :=
  match results with
  | [] => merged
  | r :: results =>
      if bool_decide (mr_id r ∈ mr_id <$> merged) then merge_loop results limit merged
      else let merged := merged ++ [r] in
           if (limit <=? Z.of_nat (length merged))%Z then merged else merge_loop results limit merged
  end.

Definition _merge_hot_tier_results (hot_results other_results : list MemoryResult) (limit : Z) : list MemoryResult :=
  merge_loop (hot_results ++ other_results) limit [].

(** [l[:n]], a negative [n] counting from the end. *)
Definition py_slice {A} (n : Z) (l : list A) : list A :=
  if (n <? 0)%Z then take (length l - Z.to_nat (- n)) l else take (Z.to_nat n) l.

(** ** Identifiers and points *)

Fixpoint distinct_ids (values : list (option string)) (ids : list uuid) : list uuid :=
  match values with
  | [] => ids
  | v :: values =>
      match v ≫= parse_uuid_str with
      | Some parsed => distinct_ids values (if bool_decide (parsed ∈ ids) then ids else ids ++ [parsed])
      | None => distinct_ids values ids
      end
  end.

(** [list(dict.fromkeys(l))] *)
Definition dict_fromkeys (l : list uuid) : list uuid :=
  fold_left (fun ids i => if bool_decide (i ∈ ids) then ids else ids ++ [i]) l [].

(** At most one page of fifty; [None] prints as no UUID. *)
Definition _bounded_memory_ids (memory_ids : list (option string)) : list uuid :=
  distinct_ids (take 50 memory_ids) [].

Definition _passes_semantic_floor (point : Point) : bool := MIN_SEMANTIC_SCORE <=?q pt_score point.

Definition _point_memory_id (point : Point) : option string :=
  let named := jget_or_null "memory_id" (pt_payload point) in
  if truthy named then Some (py_str str_other named) else pt_id point.

(** The best point of every memory, in the order of their first appearance. *)
Fixpoint keep_best (point_id : string) (point : Point) (merged : list (string * Point)) : list (string * Point) :=
  match merged with
  | [] => [(point_id, point)]
  | (k, existing) :: merged =>
      if bool_decide (k = point_id)
      then (k, if pt_score existing <?q pt_score point then point else existing) :: merged
      else (k, existing) :: keep_best point_id point merged
  end.

Definition merge_points (points : list Point) (limit : Z) : list Point :=
  let merged := fold_left (fun merged point =>
                             match _point_memory_id point with
                             | None => merged
                             | Some point_id => keep_best point_id point merged
                             end) points [] in
  py_slice limit (sort_by (fun a b => pt_score b <=?q pt_score a) (snd <$> merged)).

(** [min(max(n * OVERFETCH_MULTIPLIER, n), 50)] *)
Definition overfetch (n : Z) : Z := Z.min (Z.max (n * OVERFETCH_MULTIPLIER) n) 50.

(** ** Cache contexts and keys *)

Definition text_or_empty (o : option string) : string := default EmptyString o.

Definition _cache_context (query : string) (categories : list string) (agent_id : option string) (limit : Z)
    (time_filter_days : option Z) (as_of : option datetime) : string :=
  let base := py_lower (py_strip query) +:+ "|" +:+ py_join "," (sort_by py_string_le categories) +:+ "|"
              +:+ text_or_empty agent_id +:+ "|" +:+ py_str_Z limit in
  match as_of with
  | None => match time_filter_days with None => base | Some days => base +:+ "|" +:+ py_str_Z days end
  | Some as_of => base +:+ "|" +:+ match time_filter_days with None => EmptyString | Some days => py_str_Z days end
                  +:+ "|" +:+ isoformat as_of
  end.

Definition _l1_cache_key (user_id cache_context : string) : string := user_id +:+ "|" +:+ cache_context.

Definition _hot_tier_cache_key (proxy_user_id : string) (categories : list string) (agent_id : option string)
    (created_after : option datetime) : string :=
  proxy_user_id +:+ "|" +:+ py_join "," (sort_by py_string_le categories) +:+ "|" +:+ text_or_empty agent_id
  +:+ "|" +:+ match created_after with Some t => isoformat t | None => EmptyString end.

(** ** Winners of source claims *)

(** [None]: the stored declaration raises. *)
Definition source_winner_matches (claim : option MemoryClaim) (memory : option Memory)
    (revision : option MemoryClaimRevision) : option bool :=
  match claim, memory, revision with
  | Some c, Some m, Some r =>
      declaration ← preference_declaration (provenance_of m);
      let usable :=
        match declaration with
        | Some d => bool_decide (c_claim_fingerprint c
                                 = preference_fingerprint (pc_property_key d) (pc_applicability d))
        | None => bool_decide (c_subject_key c = GENERIC_CLAIM_SUBJECT)
        end in
      Some (usable
            && bool_decide (c_status c = ClaimStatus.active) && negb (m_is_archived m)
            && bool_decide (c_active_memory_id c = Some (m_id m))
            && bool_decide (c_winning_revision_id c = Some (r_id r))
            && bool_decide (r_claim_id r = c_id c)
            && bool_decide (r_memory_id r = Some (m_id m))
            && bool_decide (r_asserted_value r = default "None" (c_active_value c))
            && bool_decide (r_source_event_id r = m_source_event_id m)
            && bool_decide (c_proxy_user_id c = m_proxy_user_id m))
  | _, _, _ => Some false
  end.
End Ranking.
