(* ===== verification/PreferenceReads.v ===== *)
(** * Reading preferences

    What a retrieval reads about declared preferences: the tables and rows
    ([ReadDb]), the bounded ledger queries and the discovery of applicable
    properties ([preference_discovery.py], the catalog of
    [preference_snapshot_service.py] and [preference_runtime_routing.py]), the
    verified target of a ledger entry, and the confirmations still pending
    ([preference_confirmation_service.py]). *)

From S2P Require Export RuntimeHolds Versions Ranking.

(** ** Tables *)

Record Tenant := { te_id : uuid; te_is_active : bool; te_metadata_json : obj }.

Record PendingExtractionCandidate := {
  pe_id : uuid; pe_tenant_id : uuid; pe_proxy_user_id : uuid; pe_source_event_id : uuid;
  pe_content : string; pe_category : string; pe_candidate_reason : string; pe_status : string;
  pe_metadata_json : obj; pe_created_at : datetime;
}.

Record MemorySourceEvent := {
  se_id : uuid; se_tenant_id : uuid; se_proxy_user_id : uuid; se_writer_id : option uuid; se_scope : obj;
}.

(** The tables a retrieval reads, as one snapshot of the database. *)
Record ReadDb := {
  rd_memories : gmap uuid Memory;
  rd_proxy_users : gmap uuid ProxyUser;
  rd_tenants : gmap uuid Tenant;
  rd_claims : gmap uuid MemoryClaim;
  rd_revisions : gmap uuid MemoryClaimRevision;
  rd_outbox : gmap uuid VectorSyncOutbox;
  rd_pending : gmap uuid PendingExtractionCandidate;
  rd_source_events : gmap uuid MemorySourceEvent;
  rd_jobs : list RuntimeJob;
  rd_reconciliations : gmap uuid RuntimeJobReconciliation;
}.

Definition rows {A} (t : gmap uuid A) : list A := snd <$> map_to_list t.

(** Exceptions of a read. *)
Inductive read_exn :=
  | ValueError (what : string)
  | AttributeError
  | AdmissionUnavailable (reason : string)      (* PreferenceAdmissionUnavailable *)
  | APIError (status_code : Z) (code error : string)
  | ProxyUserBlocked
  | DependencyError (what : string).            (* the vector store failed *)

Abbreviation res A := (read_exn + A)%type.
Definition raises {A} (e : read_exn) (o : option A) : res A := match o with Some a => inr a | None => inl e end.
#[export] Instance res_bind : MBind (sum read_exn) :=
  fun A B f m => match m with inl e => inl e | inr a => f a end.

Lemma res_bind_inv {A B} (m : res A) (k : A -> res B) b :
  m ≫= k = inr b -> exists a, m = inr a /\ k a = inr b.
Proof. destruct m as [exc|a]; [done|]. by exists a. Qed.

(** A user of the tenant who is not blocked. *)
Definition open_to (db : ReadDb) (tenant_id owner : uuid) : bool :=
  match rd_proxy_users db !! owner with
  | Some u => bool_decide (pu_tenant_id u = tenant_id) && negb (pu_is_blocked u)
  | None => false
  end.

Section Reads.
Context `{PyLib} `{Hashing}.
Variable settings : ReadSettings.

Definition discovery_enabled (tenant_id : option uuid) : bool :=
  match tenant_id with
  | Some t => runtime_preference_discovery_enabled settings && explicit_preference_claims_enabled settings
              && runtime_tenant settings t
  | None => false
  end.

(** ** Ledger queries *)

(** [preference_query]: the claims by fingerprint, or the live claims by
    predicate, at most thirty-three of these. *)
Inductive claim_filter := ByFingerprint (fingerprints : list string) | ByPredicate (predicates : list string).

Definition selects (f : claim_filter) (c : MemoryClaim) : bool :=
  match f with
  | ByFingerprint fingerprints => bool_decide (c_claim_fingerprint c ∈ fingerprints)
  | ByPredicate predicates =>
      bool_decide (c_category c = MemoryCategory.preference) && bool_decide (c_predicate_key c ∈ predicates)
      && bool_decide (c_status c ∈ [ClaimStatus.active; ClaimStatus.disputed])
  end.

Definition preference_rows (db : ReadDb) (tenant_id owner : uuid) (f : claim_filter)
    : list (MemoryClaim * option Memory) :=
  if open_to db tenant_id owner then
    let claims := filter (fun c => (bool_decide (c_tenant_id c = tenant_id)
                                    && bool_decide (c_proxy_user_id c = owner) && selects f c) = true)
                         (rows (rd_claims db)) in
    (fun c => (c, c_active_memory_id c ≫= fun i => rd_memories db !! i))
      <$> match f with ByPredicate _ => take 33 claims | ByFingerprint _ => claims end
  else [].

(** ** The tenant's catalog *)

Record SnapshotScope := { sc_ref : string; sc_applicability : PreferenceApplicability }.
Record PreferenceSnapshotCatalog := { ca_properties : list string; ca_scopes : list SnapshotScope }.

Definition MAX_SNAPSHOT_IDENTITIES : nat := 32.

Definition is_ref_char (c : ascii) : bool :=
  is_lower c || is_digit c || bool_decide (c ∈ ["_"%char; "-"%char]).
Definition ref_ok (s : string) : bool :=
  length_between 1 64 s && match s with String c s => is_lower c && all_chars is_ref_char s | _ => false end.

Definition described (o : obj) : option unit :=
  d ← jget "description" o ≫= as_string; check length_between 1 400 d; Some tt.

Definition validate_property (v : json) : option string :=
  o ← as_object v;
  check closed ["key"; "description"] o;
  key ← jget "key" o ≫= PropertyKey;
  _ ← described o;
  Some key.

Definition validate_scope (v : json) : option SnapshotScope :=
  o ← as_object v;
  check closed ["ref"; "applicability"; "description"] o;
  ref ← jget "ref" o ≫= as_string;
  check ref_ok ref;
  applicability ← jget "applicability" o ≫= validate_applicability;
  _ ← described o;
  Some {| sc_ref := ref; sc_applicability := applicability |}.

(** Every offered identity with its property and applicability. *)
Definition offered (c : PreferenceSnapshotCatalog) : list (string * (string * PreferenceApplicability)) :=
  key ← ca_properties c;
  scope ← ca_scopes c;
  [(preference_fingerprint key (sc_applicability scope), (key, sc_applicability scope))].

(** [bounded_identities] *)
Definition bounded_identities (c : PreferenceSnapshotCatalog) : bool :=
  (length (ca_properties c) * length (ca_scopes c) <=? MAX_SNAPSHOT_IDENTITIES)%nat
  && bool_decide (NoDup (ca_properties c)) && bool_decide (NoDup (sc_ref <$> ca_scopes c))
  && forallb (fun s => negb (bool_decide (pa_kind (sc_applicability s) = ApplicabilityKind.unresolved)))
       (ca_scopes c)
  && bool_decide (NoDup (fst <$> offered c)).

Definition validate_catalog (o : obj) : option PreferenceSnapshotCatalog :=
  properties ← jget "properties" o ≫= tuple_up_to validate_property 1 16;
  scopes ← jget "scopes" o ≫= tuple_up_to validate_scope 1 32;
  let c := {| ca_properties := properties; ca_scopes := scopes |} in
  check bounded_identities c;
  Some c.

Definition CATALOG_KEY : string := "runtime_preference_catalog".
Definition MAX_CATALOG_BYTES : Z := 32768.

Definition admission_unavailable {A} (reason : string) : res A := inl (AdmissionUnavailable reason).

Definition runtime_catalog (tenant : option Tenant) : res PreferenceSnapshotCatalog :=
  match tenant with
  | None => admission_unavailable "intent_tenant_unavailable"
  | Some tenant =>
      if negb (te_is_active tenant) then admission_unavailable "intent_tenant_unavailable"
      else
        let raw := jget_or_null CATALOG_KEY (te_metadata_json tenant) in
        match raw with
        | JNull => admission_unavailable "intent_catalog_missing"
        | raw =>
            if (MAX_CATALOG_BYTES <? Z.of_nat (String.length (json_dumps str_other None 0 raw)))%Z
            then admission_unavailable "intent_catalog_oversized"
            else
              match (o ← as_object raw;
                     check closed ["properties"; "scopes"] o && (length o =? 2)%nat;
                     validate_catalog o) with
              | None => admission_unavailable "intent_catalog_invalid"
              | Some catalog =>
                  if existsb (fun k => truthy (jget_or_null k (te_metadata_json tenant)))
                       ["domain_schema"; "memory_domain"]
                  then admission_unavailable "intent_domain_overlay_ineligible" else inr catalog
              end
        end
  end.

(** ** Discovery *)

Record PreferenceDiscovery := {
  di_context : option PreferenceReadContext;
  di_scope_request : option PreferenceScopeRequest;
  di_rows : list (MemoryClaim * option Memory);
  di_nominated_keys : list string;
}.

Definition GLOBAL : PreferenceApplicability :=
  {| pa_kind := ApplicabilityKind.global; pa_namespace := None; pa_key := None |}.

(** [scope.model_dump_json()] *)
Definition model_dump_json (a : PreferenceApplicability) : string :=
  let text o := match o with Some s => json_string s | None => "null" end in
  "{" +:+ json_string "kind" +:+ ":" +:+ json_string (ApplicabilityKind.value (pa_kind a))
  +:+ "," +:+ json_string "namespace" +:+ ":" +:+ text (pa_namespace a)
  +:+ "," +:+ json_string "key" +:+ ":" +:+ text (pa_key a) +:+ "}".

(** [ORDER BY importance_score DESC, id] *)
Definition by_importance (a b : Memory) : bool :=
  if Qeq_bool (m_importance_score a) (m_importance_score b) then (m_id a <=? m_id b)%Z
  else m_importance_score b <=?q m_importance_score a.

Definition nominees (db : ReadDb) (tenant_id owner : uuid) (nominee_ids : list uuid) (cold_start : bool)
    : list Memory :=
  let declared := filter (fun m => (bool_decide (m_proxy_user_id m = owner) && open_to db tenant_id owner
                                    && negb (legacy_memory_predicate m)) = true) (rows (rd_memories db)) in
  if cold_start
  then take 50 (sort_by by_importance
         (filter (fun m => m_category m = MemoryCategory.preference /\ m_is_archived m = false) declared))
  else filter (fun m => m_id m ∈ take 50 nominee_ids) declared.

(** The nominated properties that the catalog offers; a malformed declaration raises. *)
Fixpoint nominated_keys (scopes : gmap string (string * PreferenceApplicability)) (memories : list Memory)
    (keys : gset string) : option (gset string) :=
  match memories with
  | [] => Some keys
  | m :: memories =>
      declaration ← preference_declaration (provenance_of m);
      nominated_keys scopes memories
        (match declaration with
         | Some d =>
             if bool_decide (m_category m = MemoryCategory.preference) then
               match scopes !! preference_fingerprint (pc_property_key d) (pc_applicability d) with
               | Some found => {[found.1]} ∪ keys
               | None => keys
               end
             else keys
         | None => keys
         end)
  end.

(** What the discovered rows require: properties whose scope has to be asked
    for, and the scopes to offer. *)
Definition required_options : Type := gset string * gmap string PreferenceApplicability.

Section Discovery.
Variables (tenant_id owner : uuid) (is_current : Memory -> bool) (created_after : option datetime).

(** The memory a context-scoped row shows is surely not in force. *)
Definition out_of_force (memory : option Memory) : bool :=
  match memory with
  | Some m =>
      bool_decide (m_proxy_user_id m = owner)
      && (m_is_archived m || negb (is_current m)
          || match created_after with Some t => (m_created_at m <? t)%Z | None => false end)
  | None => false
  end.

Definition predicate_of (key : string) : string := PREFERENCE_MARKER +:+ "." +:+ key.

Fixpoint examine_rows (scopes : gmap string (string * PreferenceApplicability)) (keys : gset string)
    (found : list (MemoryClaim * option Memory)) (acc : required_options) : res required_options :=
  match found with
  | [] => inr acc
  | (claim, memory) :: found =>
      match scopes !! c_claim_fingerprint claim with
      | None => admission_unavailable "preference_discovery_scope_catalog_incomplete"
      | Some (key, scope) =>
          if negb (bool_decide (key ∈ keys)) || negb (bool_decide (c_predicate_key claim = predicate_of key))
             || negb (bool_decide (json_sorted (JObj (c_scope claim)) = json_sorted (JObj (dump_applicability scope))))
          then admission_unavailable "preference_discovery_scope_binding_changed"
          else if negb (bool_decide (pa_kind scope = ApplicabilityKind.context)) || out_of_force memory
          then examine_rows scopes keys found acc
          else examine_rows scopes keys found ({[key]} ∪ acc.1, <[model_dump_json scope := scope]> acc.2)
      end
  end.

Definition withheld_scopes (scopes : gmap string (string * PreferenceApplicability)) (keys : gset string)
    (withheld_fingerprints : gset string) (acc : required_options) : required_options :=
  fold_left (fun acc fp =>
    match scopes !! fp with
    | Some (key, scope) =>
        if bool_decide (key ∈ keys) && bool_decide (pa_kind scope = ApplicabilityKind.context)
        then ({[key]} ∪ acc.1, <[model_dump_json scope := scope]> acc.2) else acc
    | None => acc
    end) (elements withheld_fingerprints) acc.

Definition sorted_strings (s : gset string) : list string := sort_by py_string_le (elements s).

Definition offers_global (scopes : gmap string (string * PreferenceApplicability)) (key : string) : bool :=
  isSome (scopes !! preference_fingerprint key GLOBAL).

Definition scope_request_of (required : gset string) (options : gmap string PreferenceApplicability)
    : PreferenceScopeRequest :=
  {| ps_property_keys := sorted_strings required;
     ps_available_scopes := snd <$> sort_items (map_to_list options) |}.

Definition discover_preferences (db : ReadDb) (nominee_ids : list uuid) (cold_start : bool)
    (withheld_fingerprints : gset string) : res PreferenceDiscovery :=
  catalog ← runtime_catalog (rd_tenants db !! tenant_id);
  let scopes := list_to_map (offered catalog) : gmap string (string * PreferenceApplicability) in
  keys ← raises AttributeError (nominated_keys scopes (nominees db tenant_id owner nominee_ids cold_start) ∅);
  if bool_decide (keys = ∅)
  then inr {| di_context := None; di_scope_request := None; di_rows := []; di_nominated_keys := [] |}
  else
    let found := preference_rows db tenant_id owner (ByPredicate (predicate_of <$> elements keys)) in
    if (32 <? length found)%nat then admission_unavailable "preference_discovery_scope_coverage_exceeded"
    else
      examined ← examine_rows scopes keys found (∅, ∅);
      let acc := withheld_scopes scopes keys withheld_fingerprints examined in
      let required := acc.1 in
      let global_keys := filter (fun key => offers_global scopes key = true) (keys ∖ required) in
      context ← (if bool_decide (global_keys = ∅) then inr None
                 else let c := {| px_applicability := GLOBAL; px_property_keys := sorted_strings global_keys |} in
                      if validate_keys c then inr (Some c) else inl (ValueError "context"));
      let options := if existsb (offers_global scopes) (elements required)
                     then <[model_dump_json GLOBAL := GLOBAL]> acc.2 else acc.2 in
      request ← (if bool_decide (required = ∅) then inr None
                 else let r := scope_request_of required options in
                      if known_unique_scopes r then inr (Some r) else inl (ValueError "scope request"));
      inr {| di_context := context; di_scope_request := request; di_rows := found;
             di_nominated_keys := sorted_strings keys |}.
End Discovery.

(** ** Verified targets *)

Record PreferenceTargetSnapshot := {
  ts_memory_id : uuid; ts_value : string; ts_memory_version : string; ts_authority : Z;
  ts_is_current : bool; ts_choice_state : string;
}.

(** [None]: PreferenceSnapshotUnavailable. *)
Definition snapshot_target (claim : MemoryClaim) (memory : option Memory) (revision : option MemoryClaimRevision)
    (property_key : string) (applicability : PreferenceApplicability) (now : datetime)
    : option PreferenceTargetSnapshot :=
  memory ← memory;
  revision ← revision;
  declaration ← preference_declaration (provenance_of memory);
  holding ← held_choice memory claim;
  state ← get_or_empty "state" (jget_or_null CHOICE_STATE_MARKER (m_metadata_json memory));
  declaration ← declaration;
  let identity := preference_identity declaration in
  let archived := bool_decide (c_status claim = ClaimStatus.archived) in
  check bool_decide (pc_property_key declaration = property_key)
        && bool_decide (pc_applicability declaration = applicability)
        && bool_decide (ci_fingerprint identity = c_claim_fingerprint claim)
        && bool_decide (c_category claim = MemoryCategory.preference)
        && bool_decide (m_category memory = MemoryCategory.preference)
        && bool_decide (c_active_value claim = Some (pc_value declaration))
        && bool_decide (pc_value declaration = r_asserted_value revision)
        && bool_decide (c_status claim ∈ [ClaimStatus.active; ClaimStatus.archived; ClaimStatus.disputed])
        && Bool.eqb archived (m_is_archived memory)
        && Bool.eqb (bool_decide (c_status claim = ClaimStatus.disputed)) holding
        && Bool.eqb (bool_decide (state = JStr "current_choice_unresolved")) holding
        && bool_decide (r_status revision = (if m_is_archived memory then RevisionStatus.archived
                                             else RevisionStatus.activated))
        && (0 <=? c_authority_priority claim)%Z && (c_authority_priority claim <=? 100)%Z
        && bool_decide (json_sorted (JObj (c_scope claim)) = json_sorted (JObj (ci_scope identity)));
  priority ← stored_authority memory;
  Some {| ts_memory_id := m_id memory; ts_value := pc_value declaration;
          ts_memory_version := target_version memory;
          ts_authority := Z.max (c_authority_priority claim) priority;
          ts_is_current := current_target memory now;
          ts_choice_state := if holding : bool then "current_choice_unresolved" else "current" |}.

Definition claim_status_value (s : ClaimStatus.t) : string :=
  match s with
  | ClaimStatus.active => "active" | ClaimStatus.superseded => "superseded"
  | ClaimStatus.disputed => "disputed" | ClaimStatus.archived => "archived"
  end.

Definition identity_binding_version (claim : MemoryClaim) (target : PreferenceTargetSnapshot) : string :=
  let id u := JStr (uuid_str u) in
  hash_of compact_style (JObj
    [("claim_id", id (c_id claim)); ("status", JStr (claim_status_value (c_status claim)));
     ("active_memory_id", opt_json id (c_active_memory_id claim));
     ("winning_revision_id", opt_json id (c_winning_revision_id claim));
     ("active_value", opt_json JStr (c_active_value claim));
     ("authority", JInt (c_authority_priority claim));
     ("target", JObj [("memory_id", id (ts_memory_id target)); ("value", JStr (ts_value target));
                      ("memory_version", JStr (ts_memory_version target));
                      ("authority", JInt (ts_authority target)); ("is_current", JBool (ts_is_current target));
                      ("choice_state", JStr (ts_choice_state target))]);
     ("updated_at", JDate (c_updated_at claim))]).

(** ** Pending confirmations *)

Definition REASON : string := "preference_confirmation_pending".
Definition MAX_READ_HOLDS : nat := 8.

Record QuestionReviewSpec := {
  qs_tenant_id : uuid; qs_proxy_user_id : uuid; qs_source_conversation_id : uuid; qs_property_key : string;
  qs_scope_ref : string; qs_applicability : PreferenceApplicability; qs_proposed_value : string;
  qs_quote : string; qs_turn_index : Z; qs_fingerprint : string; qs_claim_id : option uuid;
  qs_target_memory_id : option uuid; qs_target_version : option string; qs_binding_version : string;
  qs_source_evidence : obj;
}.

(** [check_binding] *)
Definition check_binding (s : QuestionReviewSpec) : bool :=
  negb (bool_decide (pa_kind (qs_applicability s) = ApplicabilityKind.unresolved))
  && py_contains (qs_proposed_value s) (qs_quote s) && bool_decide (qs_quote s = py_strip (qs_quote s))
  && bool_decide (qs_fingerprint s = preference_fingerprint (qs_property_key s) (qs_applicability s))
  && bool_decide (jget_or_null "requires_preference_confirmation" (qs_source_evidence s) = JBool true)
  && bool_decide (jget_or_null "grounding_mode" (qs_source_evidence s) = JStr "verified_source_spans")
  && Bool.eqb (isSome (qs_target_memory_id s)) (isSome (qs_target_version s))
  && Bool.eqb (isSome (qs_claim_id s)) (isSome (qs_target_memory_id s)).

Definition spec_fields : list string :=
  ["kind"; "tenant_id"; "proxy_user_id"; "source_conversation_id"; "property_key"; "scope_ref";
   "applicability"; "proposed_value"; "quote"; "turn_index"; "fingerprint"; "claim_id"; "target_memory_id";
   "target_version"; "binding_version"; "source_evidence"].

Definition bounded_string (hi : nat) (v : json) : option string :=
  s ← as_string v; check length_between 1 hi s; Some s.

(** [QuestionReviewSpec.model_validate_json] *)
Definition validate_spec (v : json) : option QuestionReviewSpec :=
  o ← as_object v;
  check closed spec_fields o;
  _ ← literal ["preference_question_confirmation_v1"]
        (default (JStr "preference_question_confirmation_v1") (jget "kind" o));
  tenant ← jget "tenant_id" o ≫= uuid_field;
  proxy ← jget "proxy_user_id" o ≫= uuid_field;
  conversation ← jget "source_conversation_id" o ≫= uuid_field;
  property_key ← jget "property_key" o ≫= PropertyKey;
  scope_ref ← jget "scope_ref" o ≫= as_string;
  applicability ← jget "applicability" o ≫= validate_applicability;
  value ← jget "proposed_value" o ≫= bounded_string 256;
  quote ← jget "quote" o ≫= bounded_string 2000;
  turn ← jget "turn_index" o ≫= strict_int_between 0 63;
  fingerprint ← jget "fingerprint" o ≫= Version;
  claim_id ← jget "claim_id" o ≫= nullable uuid_field;
  target ← jget "target_memory_id" o ≫= nullable uuid_field;
  version ← jget "target_version" o ≫= nullable as_string;
  binding ← jget "binding_version" o ≫= Version;
  evidence ← jget "source_evidence" o ≫= as_object;
  let s := {| qs_tenant_id := tenant; qs_proxy_user_id := proxy; qs_source_conversation_id := conversation;
              qs_property_key := property_key; qs_scope_ref := scope_ref; qs_applicability := applicability;
              qs_proposed_value := value; qs_quote := quote; qs_turn_index := turn;
              qs_fingerprint := fingerprint; qs_claim_id := claim_id; qs_target_memory_id := target;
              qs_target_version := version; qs_binding_version := binding; qs_source_evidence := evidence |} in
  check check_binding s;
  Some s.

Definition _spec (candidate : PendingExtractionCandidate) : res QuestionReviewSpec :=
  if negb (bool_decide (pe_candidate_reason candidate = REASON))
  then inl (APIError 404 "PCR_404" "preference_review_not_found")
  else
    raises (APIError 409 "PCR_409" "preference_review_binding_invalid")
      (spec ← jget "preference_confirmation" (pe_metadata_json candidate) ≫= validate_spec;
       check bool_decide (qs_tenant_id spec = pe_tenant_id candidate)
             && bool_decide (qs_proxy_user_id spec = pe_proxy_user_id candidate)
             && bool_decide (qs_quote spec = pe_content candidate)
             && bool_decide (pe_category candidate = "preference");
       Some spec).

Definition claim_of_identity (db : ReadDb) (tenant_id proxy_user_id : uuid) (fingerprint : string)
    : option MemoryClaim :=
  head (filter (fun c => c_tenant_id c = tenant_id /\ c_proxy_user_id c = proxy_user_id
                         /\ c_claim_fingerprint c = fingerprint) (rows (rd_claims db))).

(** [_target]: [None] is the [ValueError] of a changed target, [Some None] no target. *)
Definition _target (db : ReadDb) (spec : QuestionReviewSpec) (now : datetime)
    : option (option PreferenceTargetSnapshot) :=
  let ledger := claim_of_identity db (qs_tenant_id spec) (qs_proxy_user_id spec) (qs_fingerprint spec) in
  match qs_claim_id spec with
  | None =>
      match ledger with
      | Some c =>
          if isSome (c_active_memory_id c) || isSome (c_winning_revision_id c) || text_given (c_active_value c)
          then None else Some None
      | None => Some None
      end
  | Some claim_id =>
      ledger ← ledger;
      check bool_decide (c_id ledger = claim_id)
            && bool_decide (c_active_memory_id ledger = qs_target_memory_id spec);
      let target := i ← c_active_memory_id ledger;
                    m ← rd_memories db !! i;
                    if bool_decide (m_proxy_user_id m = qs_proxy_user_id spec) then Some m else None in
      let revision := c_winning_revision_id ledger ≫= fun i => rd_revisions db !! i in
      current ← snapshot_target ledger target revision (qs_property_key spec) (qs_applicability spec) now;
      check ts_is_current current
            && bool_decide (Some (ts_memory_version current) = qs_target_version spec)
            && bool_decide (identity_binding_version ledger current = qs_binding_version spec);
      Some (Some current)
  end.

Definition newest_first (a b : PendingExtractionCandidate) : bool :=
  if (pe_created_at a =? pe_created_at b)%Z then (pe_id a <=? pe_id b)%Z
  else (pe_created_at b <? pe_created_at a)%Z.

Fixpoint held_confirmations (db : ReadDb) (now : datetime) (found : list PendingExtractionCandidate)
    (result : gset string) : res (gset string) :=
  match found with
  | [] => inr result
  | row :: found =>
      spec ← _spec row;
      held_confirmations db now found
        (match _target db spec now with
         | None => result
         | Some current =>
             if match current with None => true | Some t => (ts_authority t <=? 20)%Z end
             then {[qs_fingerprint spec]} ∪ result else result
         end)
  end.

(** [inr None]: more are pending than can be examined. *)
Definition pending_fingerprints (db : ReadDb) (tenant_id proxy_user_id : uuid) (now : datetime)
    : res (option (gset string)) :=
  let found := take (S MAX_READ_HOLDS) (sort_by newest_first
    (filter (fun r => pe_tenant_id r = tenant_id /\ pe_proxy_user_id r = proxy_user_id
                      /\ pe_candidate_reason r = REASON /\ pe_status r = "pending") (rows (rd_pending db)))) in
  if (MAX_READ_HOLDS <? length found)%nat then inr None
  else result ← held_confirmations db now found ∅; inr (Some result).
End Reads.
