(* ===== verification/Retriever.v ===== *)
(** * Retrieval

    [RetrieverService] of [api/services/retriever.py]: candidate memories from
    caches, SQL and the vector index, and the final read that projects source
    claims, withholds what pending updates may change and adds declared
    preferences.

    A request runs in an environment [Env]: the database as each statement sees
    it (other transactions commit in between), the snapshot of the final read,
    and the answers of Redis, the embedder and the vector index, which may be
    anything.  The service's state is [Svc], the process-wide caches included. *)

From S2P Require Export PreferenceReads.

(** ** Requests and environment *)

Record Request := {
  rq_query : string; rq_external_user_id : option string; rq_proxy_user_id : option string;
  rq_user_id : option string; rq_limit : Z; rq_categories : list string; rq_agent_id : option string;
  rq_tenant_id : option uuid; rq_time_filter_days : option Z; rq_as_of : option datetime;
  rq_quota_mode : option string; rq_preference_context : option PreferenceReadContext;
}.

Record SearchArgs := {
  sa_query_embedding : list Q; sa_tenant_id : option uuid; sa_proxy_user_id : option uuid;
  sa_user_id : option string; sa_limit : Z; sa_category_filter : option string; sa_agent_id : option string;
  sa_include_archived : bool; sa_collection_name : string; sa_created_after : option datetime;
}.

Record Env := {
  e_settings : ReadSettings;
  e_now : datetime;
  e_db : nat -> ReadDb;                       (* as the n-th statement sees it *)
  e_snapshot : ReadDb;                        (* the repeatable-read snapshot *)
  e_session_clean : bool;                     (* nothing new, dirty or deleted in the caller's session *)
  e_proxy_service : option (res uuid);        (* proxy_user_service, and what resolve answers *)
  e_quota_mode : option QuotaMode.t;          (* quota_manager.get_mode; None: it raised *)
  e_retrieval_page : string -> string -> option (list json);
  e_hot_tier : uuid -> option (list json);    (* None: it raised *)
  e_breaker_open : nat -> bool;               (* the vector store's breaker, n inquiries later *)
  e_active_model : option string;             (* None: get_active_model raised *)
  e_embed : string -> string -> option (list Q * string);  (* vector and collection *)
  e_search : SearchArgs -> option (list Point);            (* None: it raised *)
}.

Abbreviation timed A := (gmap string (datetime * A)).

Record Svc := {
  _l1_cache : timed (list MemoryResult);
  _model_id_cache : timed (list string);
  _memory_count_cache : timed Z;
  _hot_tier_cache : timed (list MemoryResult);
  statements : nat;
  in_snapshot : bool;                         (* self.session is the snapshot's *)
  last_cache_hit : bool;
  last_is_degraded : bool;
  last_quota_mode : QuotaMode.t;
  last_memory_visibility : option MemoryVisibility;
  last_preference_decisions : list PreferenceReadDecision;
  last_preference_scope_request : option PreferenceScopeRequest;
  last_discovered_preference_context : option PreferenceReadContext;
  _preference_discovery_active : bool;
  _preference_nominee_ids : list uuid;
  _preference_cold_start : bool;
  _resolved_read_proxy_id : option uuid;
  access_updates : list (list string);        (* update_memory_accesses.delay *)
  cache_writes : list (string * string * list obj);
}.

Definition L1_CACHE_TTL : Z := 1000000.
Definition MODEL_ID_CACHE_TTL : Z := 60000000.
Definition MEMORY_COUNT_CACHE_TTL : Z := 30000000.
Definition HOT_TIER_CACHE_TTL : Z := 2000000.

Abbreviation RM := (M Svc read_exn).

Definition lift {A} (r : res A) : RM A := match r with inl e => raise_st e | inr a => mret a end.

Definition degraded (v : option MemoryVisibility) : RM unit :=
  modify_st (fun s => (s <| last_is_degraded := true |>) <| last_memory_visibility := v |>).
Definition set_hit (b : bool) : RM unit := modify_st (fun s => s <| last_cache_hit := b |>).
Definition set_degraded : RM unit := modify_st (fun s => s <| last_is_degraded := true |>).

Definition visibility (state : visibility_state) (scope : visibility_scope) : option MemoryVisibility :=
  Some {| vi_state := state; vi_scope := scope |}.

Definition _queue_access_update (memory_ids : list string) : RM unit :=
  match memory_ids with
  | [] => mret tt
  | _ => modify_st (fun s => s <| access_updates ::= fun l => l ++ [memory_ids] |>)
  end.

Definition _coerce_quota_mode (value : string) : QuotaMode.t :=
  default QuotaMode.full (QuotaMode.of_value (py_upper (py_strip value))).

(** A cache entry while it lives; an expired one is removed. *)
Definition live_entry {A} (now : datetime) (key : string) (cache : timed A) : option A :=
  match cache !! key with
  | Some (expires_at, a) => if (now <? expires_at)%Z then Some a else None
  | None => None
  end.
Definition drop_expired {A} (now : datetime) (key : string) (cache : timed A) : timed A :=
  match live_entry now key cache with Some _ => cache | None => delete key cache end.

(** Entries above the capacity clear the cache before the new one is stored. *)
Definition store_entry {A} (capacity : nat) (expires_at : datetime) (key : string) (a : A) (cache : timed A)
    : timed A :=
  <[key := (expires_at, a)]> (if (capacity <? size cache)%nat then ∅ else cache).

(** Whose memories are read: a tenant's user, or a user by account. *)
Inductive read_owner := ByProxy (proxy_user_id : uuid) | ByUser (user_id : string).

(** The filters every query carries. *)
Record Filters := {
  fi_categories : list string; fi_agent_id : option string; fi_created_after : option datetime;
}.

Section Retriever.
Context `{PyLib} `{Hashing}.

(** [invalidate_local_user_cache] *)
Definition invalidate_local_user_cache (user_id : string) (s : Svc) : Svc :=
  let others {A} (cache : timed A) := filter (fun kv => py_startswith kv.1 (user_id +:+ "|") = false) cache in
  ((s <| _l1_cache := others (_l1_cache s) |>)
     <| _hot_tier_cache := others (_hot_tier_cache s) |>)
     <| _memory_count_cache := delete ("user:" +:+ user_id)
          (delete ("proxy:" +:+ user_id) (_memory_count_cache s)) |>.

Variable e : Env.
Abbreviation now := (e_now e).
Abbreviation settings := (e_settings e).

(** One SQL statement of [self.session]. *)
Definition sql {A} (q : ReadDb -> A) : RM A := fun s =>
  if in_snapshot s then (s, inr (q (e_snapshot e)))
  else (s <| statements ::= S |>, inr (q (e_db e (statements s)))).

Definition _as_uuid (value : string) : res uuid := raises (ValueError "uuid") (parse_uuid_str value).

Definition agent_uuid (f : Filters) : res (option uuid) :=
  match fi_agent_id f with None => inr None | Some a => u ← _as_uuid a; inr (Some u) end.

Definition owner_uuid (o : read_owner) : res uuid :=
  match o with ByProxy p => inr p | ByUser s => _as_uuid s end.

(** [Memory.proxy_user_id == id] or [Memory.user_id == id] *)
Definition owns (o : read_owner) (id : uuid) (m : Memory) : bool :=
  match o with ByProxy _ => bool_decide (m_proxy_user_id m = id) | ByUser _ => bool_decide (m_user_id m = id) end.

Definition passes_filters (f : Filters) (agent : option uuid) (m : Memory) : bool :=
  match fi_categories f with [] => true | cs => bool_decide (MemoryCategory.value (m_category m) ∈ cs) end
  && match agent with None => true | Some a => bool_decide (m_agent_id m = Some a) end
  && match fi_created_after f with None => true | Some t => (t <=? m_created_at m)%Z end.

(** The rows of [memories] a query selects. *)
Definition select_memories (o : read_owner) (f : Filters) (chosen : ReadDb -> Memory -> bool) : RM (list Memory) :=
  id ← lift (owner_uuid o);
  agent ← lift (agent_uuid f);
  sql (fun db => filter (fun m => (owns o id m && legacy_memory_predicate m && passes_filters f agent m
                                   && chosen db m) = true) (rows (rd_memories db))).

Definition unarchived (_ : ReadDb) (m : Memory) : bool := negb (m_is_archived m).

(** [_fetch_cold_start_memories] and its twin for a user. *)
Definition _fetch_cold_start_memories (o : read_owner) (f : Filters) : RM (list Memory) :=
  select_memories o f unarchived.

Definition by_id (memories : list Memory) : gmap string Memory :=
  list_to_map ((fun m => (uuid_str (m_id m), m)) <$> memories).

(** A memory of one of the ids whose owner is an open user of the tenant, if given. *)
Definition among (ids : list uuid) (tenant_id : option uuid) (db : ReadDb) (m : Memory) : bool :=
  bool_decide (m_id m ∈ ids) && negb (m_is_archived m)
  && match tenant_id with Some t => open_to db t (m_proxy_user_id m) | None => true end.

Definition _fetch_memories_by_ids (memory_ids : list (option string)) (proxy_user_id : uuid) (f : Filters)
    (tenant_id : option uuid) : RM (gmap string Memory) :=
  match _bounded_memory_ids memory_ids with
  | [] => mret ∅
  | ids =>
      modify_st (fun s =>
        if _preference_discovery_active s
        then s <| _preference_nominee_ids :=
                 take 50 (dict_fromkeys (_preference_nominee_ids s ++ ids)) |>
        else s);;
      memories ← select_memories (ByProxy proxy_user_id) f (among ids tenant_id);
      mret (by_id memories)
  end.

Definition _fetch_memories_by_ids_for_user (memory_ids : list (option string)) (user_id : string) (f : Filters)
    : RM (gmap string Memory) :=
  match _bounded_memory_ids memory_ids with
  | [] => mret ∅
  | ids => memories ← select_memories (ByUser user_id) f (among ids None); mret (by_id memories)
  end.

Definition fetch_by_ids (o : read_owner) (memory_ids : list (option string)) (f : Filters)
    (tenant_id : option uuid) : RM (gmap string Memory) :=
  match o with
  | ByProxy p => _fetch_memories_by_ids memory_ids p f tenant_id
  | ByUser u => _fetch_memories_by_ids_for_user memory_ids u f
  end.

Definition to_result (memory : Memory) (semantic_score : Q) : RM MemoryResult :=
  lift (raises AttributeError (_memory_to_result memory semantic_score now)).

(** A list comprehension whose element expression may raise. *)
Fixpoint collect {A B} (f : A -> RM B) (l : list A) : RM (list B) :=
  match l with
  | [] => mret []
  | a :: l => b ← f a; bs ← collect f l; mret (b :: bs)
  end.

Definition deduplicated_ranked (results : list MemoryResult) : list MemoryResult :=
  ranked (_deduplicate_results results).

(** Caches nominate at most one page; SQL owns content and eligibility. *)
Definition _hydrate_current_results (candidates : list MemoryResult) (o : read_owner) (f : Filters)
    (tenant_id : option uuid) : RM (list MemoryResult) :=
  match candidates with
  | [] => mret []
  | _ =>
      let page := take 50 candidates in
      memories ← fetch_by_ids o (Some ∘ mr_id <$> page) f tenant_id;
      results ← collect (fun rm => to_result rm.2 (mr_semantic_score rm.1))
        (omap (fun row => m ← memories !! mr_id row;
                          if _memory_is_current m now then Some (row, m) else None) page);
      mret (deduplicated_ranked results)
  end.

(** ** Caches *)

Definition asdict (r : MemoryResult) : obj :=
  [("id", JStr (mr_id r)); ("content", JStr (mr_content r)); ("category", JStr (mr_category r));
   ("importance_score", JFloat (mr_importance_score r)); ("confidence_score", JFloat (mr_confidence_score r));
   ("semantic_score", JFloat (mr_semantic_score r)); ("recency_score", JFloat (mr_recency_score r));
   ("final_score", JFloat (mr_final_score r)); ("agent_id", opt_json JStr (mr_agent_id r));
   ("previous_version_id", opt_json JStr (mr_previous_version_id r));
   ("last_accessed_at", opt_json JStr (mr_last_accessed_at r)); ("created_at", opt_json JStr (mr_created_at r));
   ("source_event_id", opt_json JStr (mr_source_event_id r)); ("provenance", mr_provenance r);
   ("effective_from", opt_json JStr (mr_effective_from r));
   ("effective_until", opt_json JStr (mr_effective_until r))].

Definition _set_l1_cache (key : string) (results : list MemoryResult) : RM unit :=
  modify_st (fun s => s <| _l1_cache ::= store_entry 1024 (now + L1_CACHE_TTL) key results |>).

Definition result_of_json (v : json) : option MemoryResult := o ← as_object v; _memory_result_from_cache o.

Definition id_of_json (v : json) : option string :=
  match v with JStr s => Some s | JInt z => Some (py_str_Z z) | _ => None end.

(** The nominations a cached page carries; [None]: the page is no evidence. *)
Definition page_nominations (page : list json) : option (list uuid * bool) :=
  match page with
  | JObj first :: _ =>
      match jget_or_null "_preference_nominee_ids" first with
      | JArr ids => Some (_bounded_memory_ids (id_of_json <$> ids),
                          bool_decide (jget_or_null "_preference_cold_start" first = JBool true))
      | _ => None
      end
  | _ => None
  end.

Definition results_of_page (l1_key : string) (page : list json) : RM (option (list MemoryResult)) :=
  match mapM result_of_json (take 50 page) with
  | None => mret None
  | Some results => _set_l1_cache l1_key results;; mret (Some results)
  end.

Definition _get_cached_results (user_id cache_context : string) : RM (option (list MemoryResult)) :=
  let l1_key := _l1_cache_key user_id cache_context in
  s ← get_st;
  match (if _preference_discovery_active s then None else live_entry now l1_key (_l1_cache s)) with
  | Some results => mret (Some results)
  | None =>
      (if _preference_discovery_active s then mret tt
       else modify_st (fun s => s <| _l1_cache ::= drop_expired now l1_key |>));;
      match e_retrieval_page e user_id cache_context with
      | None | Some [] => mret None
      | Some page =>
          if _preference_discovery_active s then
            match page_nominations page with
            | None => mret None
            | Some (ids, cold_start) =>
                modify_st (fun s => (s <| _preference_nominee_ids := ids |>)
                                      <| _preference_cold_start := cold_start |>);;
                results_of_page l1_key page
            end
          else results_of_page l1_key page
      end
  end.

Definition _cache_results (user_id : string) (results : list MemoryResult) (cache_context : string) : RM unit :=
  s ← get_st;
  let payload := match asdict <$> results with
                 | first :: rest =>
                     if _preference_discovery_active s
                     then (first ++ [("_preference_nominee_ids",
                                       JArr ((fun i => JStr (uuid_str i)) <$> _preference_nominee_ids s));
                                     ("_preference_cold_start", JBool (_preference_cold_start s))]) :: rest
                     else first :: rest
                 | [] => []
                 end in
  _set_l1_cache (_l1_cache_key user_id cache_context) results;;
  modify_st (fun s => s <| cache_writes ::= fun l => l ++ [(user_id, cache_context, payload)] |>).

Definition _get_hot_tier_results (o : read_owner) (f : Filters) : RM (list MemoryResult) :=
  match o with
  | ByUser _ => mret []
  | ByProxy p =>
      let key := _hot_tier_cache_key (uuid_str p) (fi_categories f) (fi_agent_id f) (fi_created_after f) in
      s ← get_st;
      match live_entry now key (_hot_tier_cache s) with
      | Some results => mret results
      | None =>
          modify_st (fun s => s <| _hot_tier_cache ::= drop_expired now key |>);;
          match e_hot_tier e p with
          | None => mret []
          | Some items =>
              let results := ranked (omap result_of_json (take 50 items)) in
              modify_st (fun s => s <| _hot_tier_cache ::= store_entry 4096 (now + HOT_TIER_CACHE_TTL) key results |>);;
              mret results
          end
      end
  end.

(** [_count_proxy_user_memories] and [_count_user_memories] *)
Definition count_memories (o : read_owner) : RM Z :=
  let cache_key := match o with ByProxy p => "proxy:" +:+ uuid_str p | ByUser u => "user:" +:+ u end in
  s ← get_st;
  match live_entry now cache_key (_memory_count_cache s) with
  | Some count => mret count
  | None =>
      modify_st (fun s => s <| _memory_count_cache ::= drop_expired now cache_key |>);;
      id ← lift (owner_uuid o);
      count ← sql (fun db => Z.of_nat (length (filter (fun m => owns o id m = true /\ m_is_archived m = false)
                                                      (rows (rd_memories db)))));
      modify_st (fun s => s <| _memory_count_cache ::=
                             store_entry 4096 (now + MEMORY_COUNT_CACHE_TTL) cache_key count |>);;
      mret count
  end.

Definition _candidate_embedding_model_ids (o : read_owner) : RM (list string) :=
  let cache_key := match o with ByProxy p => "proxy:" +:+ uuid_str p | ByUser u => "user:" +:+ u end in
  s ← get_st;
  match live_entry now cache_key (_model_id_cache s) with
  | Some ids => mret ids
  | None =>
      modify_st (fun s => s <| _model_id_cache ::= drop_expired now cache_key |>);;
      id ← lift (owner_uuid o);
      found ← sql (fun db => remove_dups (m_embedding_model_id
        <$> filter (fun m => owns o id m = true /\ m_is_archived m = false) (rows (rd_memories db))));
      ids ← match filter (fun i => i <> EmptyString) found with
            | [] => active ← lift (raises (DependencyError "embedding model") (e_active_model e)); mret [active]
            | ids => mret ids
            end;
      modify_st (fun s => s <| _model_id_cache ::= store_entry 4096 (now + MODEL_ID_CACHE_TTL) cache_key ids |>);;
      mret ids
  end.

(** ** The vector index *)

Definition _search_memories (args : SearchArgs) : RM (list Point) :=
  lift (raises (DependencyError "vector search") (e_search e args)).

Record Embedding := { em_vector : list Q; em_collection : string }.

Definition search_args (o : read_owner) (f : Filters) (tenant_id : option uuid) (embedding : Embedding)
    (limit : Z) (include_archived : bool) (category : option string) : SearchArgs :=
  {| sa_query_embedding := em_vector embedding;
     sa_tenant_id := match o with ByProxy _ => tenant_id | ByUser _ => None end;
     sa_proxy_user_id := match o with ByProxy p => Some p | ByUser _ => None end;
     sa_user_id := match o with ByProxy _ => None | ByUser u => Some u end;
     sa_limit := limit; sa_category_filter := category; sa_agent_id := fi_agent_id f;
     sa_include_archived := include_archived; sa_collection_name := em_collection embedding;
     sa_created_after := fi_created_after f |}.

(** [_search_qdrant] and [_search_qdrant_legacy] *)
Definition _search_qdrant (o : read_owner) (f : Filters) (tenant_id : option uuid) (limit : Z)
    (include_archived : bool) (embedding : Embedding) : RM (list Point) :=
  let args := search_args o f tenant_id embedding limit include_archived in
  match fi_categories f with
  | [] => _search_memories (args None)
  | [c] => _search_memories (args (Some c))
  | cs => found ← collect (fun c => _search_memories (args (Some c))) cs;
          mret (merge_points (concat found) limit)
  end.

(** [_finish_read_transaction] *)
Definition _finish_read_transaction : RM unit :=
  if e_session_clean e then mret tt
  else raise_st (ValueError "governed retrieval requires a read-only session").

Definition _embed_query (query model_id : string) : RM Embedding :=
  _finish_read_transaction;;
  answer ← lift (raises (DependencyError "embedding") (e_embed e model_id query));
  mret {| em_vector := answer.1; em_collection := answer.2 |}.

(** [try: body except Exception as exc: handler] *)
Definition catching {A} (body : RM A) (handler : read_exn -> RM A) : RM A :=
  fun s => match body s with
           | (s', inl exc) => handler exc s'
           | r => r
           end.

Definition breaker_open (inquiry : nat) : RM bool := mret (e_breaker_open e inquiry).

(** ** Candidate tiers *)

Definition as_cold_result (m : Memory) : MemoryResult := result_of m (provenance_of m) 1 now.

(** [_retrieve_cold_start_memories] and its twin for a user *)
Definition _retrieve_cold_start_memories (o : read_owner) (limit : Z) (f : Filters) : RM (list MemoryResult) :=
  memories ← _fetch_cold_start_memories o f;
  mret (py_slice limit (deduplicated_ranked
          (as_cold_result <$> filter (fun m => _memory_is_current m now = true) memories))).

(** [ORDER BY importance_score DESC, last_accessed_at DESC]; a missing instant comes first. *)
Definition accessed_first (a b : option datetime) : bool :=
  match a, b with None, _ => true | Some _, None => false | Some a, Some b => (b <=? a)%Z end.
Definition by_importance_and_access (a b : Memory) : bool :=
  if Qeq_bool (m_importance_score a) (m_importance_score b)
  then accessed_first (m_last_accessed_at a) (m_last_accessed_at b)
  else m_importance_score b <=?q m_importance_score a.

Definition _retrieve_postgres_fallback (o : read_owner) (limit : Z) (f : Filters) : RM (list MemoryResult) :=
  if (limit <=? 0)%Z then mret []
  else
    memories ← select_memories o f unarchived;
    collect (fun m => to_result m 0)
      (filter (fun m => _memory_is_current m now = true)
         (py_slice limit (sort_by by_importance_and_access memories))).

(** The validity a historical read asks for. *)
Definition valid_at (as_of : datetime) (_ : ReadDb) (m : Memory) : bool :=
  starts_by (m_effective_from m) as_of && ends_after (m_effective_until m) as_of
  && (negb (m_is_archived m) || isSome (m_effective_from m) || isSome (m_effective_until m)).

Definition _fetch_historical_memories_by_ids (o : read_owner) (memory_ids : list (option string)) (f : Filters)
    (as_of : datetime) : RM (gmap string Memory) :=
  ids ← collect (fun i => lift (_as_uuid i)) (omap (fun i => if text_given i then i else None) memory_ids);
  match ids with
  | [] => mret ∅
  | _ => memories ← select_memories o f (fun db m => bool_decide (m_id m ∈ ids) && valid_at as_of db m);
         mret (by_id memories)
  end.

(** [ORDER BY importance_score DESC, effective_from DESC NULLS LAST, last_accessed_at DESC] *)
Definition effective_first (a b : option datetime) : comparison :=
  match a, b with
  | Some a, Some b => Z.compare b a
  | Some _, None => Lt
  | None, Some _ => Gt
  | None, None => Eq
  end.
Definition by_history (a b : Memory) : bool :=
  if Qeq_bool (m_importance_score a) (m_importance_score b)
  then match effective_first (m_effective_from a) (m_effective_from b) with
       | Lt => true | Gt => false
       | Eq => accessed_first (m_last_accessed_at a) (m_last_accessed_at b)
       end
  else m_importance_score b <=?q m_importance_score a.

Definition _retrieve_as_of_memories (o : read_owner) (as_of : datetime) (limit : Z) (f : Filters)
    : RM (list MemoryResult) :=
  memories ← select_memories o f (valid_at as_of);
  collect (fun m => to_result m 0) (py_slice limit (sort_by by_history memories)).

(** The memories of scored points, in the order of the points. *)
Definition matched (memories : gmap string Memory) (points : list Point) : list (Point * Memory) :=
  omap (fun p => i ← _point_memory_id p; m ← memories !! i; Some (p, m)) points.

(** The body of the [try] of [_retrieve_as_of_semantic]; [None]: nothing was found. *)
Definition as_of_semantic (query : string) (o : read_owner) (tenant_id : option uuid) (as_of : datetime)
    (limit : Z) (f : Filters) : RM (option (list MemoryResult)) :=
  model_ids ← _candidate_embedding_model_ids o;
  points ← collect (fun model_id =>
    embedding ← _embed_query query model_id;
    _search_qdrant o f tenant_id (overfetch limit) true embedding) model_ids;
  let points := filter (fun p => (_passes_semantic_floor p && _payload_is_valid_at (pt_payload p) as_of) = true)
                  (concat points) in
  match points with
  | [] => mret None
  | _ =>
      memories ← _fetch_historical_memories_by_ids o (_point_memory_id <$> points) f as_of;
      results ← collect (fun pm => to_result pm.2 (pt_score pm.1)) (matched memories points);
      mret (match results with
            | [] => None
            | _ => Some (py_slice limit (deduplicated_ranked results))
            end)
  end.

(** Rank retained vectors, with PostgreSQL as authority and as the fallback. *)
Definition _retrieve_as_of_semantic (query : string) (o : read_owner) (tenant_id : option uuid) (as_of : datetime)
    (limit : Z) (f : Filters) : RM (list MemoryResult) :=
  found ← catching (as_of_semantic query o tenant_id as_of limit f) (fun _ => mret None);
  match found with
  | Some results => mret results
  | None => _retrieve_as_of_memories o as_of limit f
  end.

(** ** Candidates *)

Definition owner_of (proxy_user : option uuid) (identity : string) : read_owner :=
  match proxy_user with Some p => ByProxy p | None => ByUser identity end.

(** The tenant's user and the name results are cached under. *)
Definition resolve_proxy_user (rq : Request) (identity : string) : RM (option uuid * string) :=
  match rq_tenant_id rq, e_proxy_service e with
  | Some _, Some resolved =>
      if text_given (rq_proxy_user_id rq) then
        let given := default EmptyString (rq_proxy_user_id rq) in
        p ← lift (_as_uuid given); mret (Some p, given)
      else p ← lift resolved; mret (Some p, uuid_str p)
  | Some _, None => mret (None, default identity (rq_user_id rq))
  | None, _ => mret (None, identity)
  end.

Definition _resolve_quota_mode (tenant_id : option uuid) : QuotaMode.t :=
  match tenant_id with None => QuotaMode.full | Some _ => default QuotaMode.full (e_quota_mode e) end.

Definition hold_tables (db : ReadDb) : HoldTables :=
  {| ht_jobs := rd_jobs db; ht_reconciliations := rd_reconciliations db; ht_memories := rd_memories db |}.

Record VisibilityRow := { vr_pending : bool; vr_unavailable : bool; vr_routed : bool }.

(** [None]: the owner is no open user of the tenant. *)
Definition visibility_row (owner tenant_id : uuid) (db : ReadDb) : option VisibilityRow :=
  if open_to db tenant_id owner then
    Some {| vr_pending := existsb (pending_job settings owner tenant_id) (rd_jobs db);
            vr_unavailable := existsb (unavailable_job settings owner tenant_id) (rd_jobs db);
            vr_routed := existsb (routed_job owner tenant_id) (rd_jobs db) |}
  else None.

Definition _runtime_visibility_row (owner tenant_id : uuid) : RM (option VisibilityRow) :=
  sql (visibility_row owner tenant_id).

Definition runtime_hold (owner tenant_id : uuid) (row : VisibilityRow) : RM RuntimeHold :=
  sql (fun db => read_runtime_hold settings owner tenant_id (vr_unavailable row) (hold_tables db)).

Definition source_index_pending (owner tenant_id : uuid) (db : ReadDb) : bool :=
  existsb (fun o => bool_decide (o_status o ∈ [VectorSyncStatus.pending; VectorSyncStatus.processing])
                    && match rd_memories db !! o_memory_id o with
                       | Some m => bool_decide (m_proxy_user_id m = owner) && legacy_memory_predicate m
                                   && match rd_proxy_users db !! owner with
                                      | Some u => bool_decide (pu_tenant_id u = tenant_id)
                                      | None => false
                                      end
                       | None => false
                       end) (rows (rd_outbox db)).

Definition _source_index_pending (owner tenant_id : uuid) : RM bool := sql (source_index_pending owner tenant_id).

(** The same ids with the same contents, in whatever order. *)
Definition same_page (verified cached : list MemoryResult) : bool :=
  (length verified =? length cached)%nat
  && bool_decide ((list_to_map ((fun r => (mr_id r, mr_content r)) <$> rev verified) : gmap string string)
                  = list_to_map ((fun r => (mr_id r, mr_content r)) <$> rev cached)).

(** A cached page counts only if SQL confirms every row of it. *)
Definition verified_cache (rq : Request) (o : read_owner) (f : Filters) (cache_identity cache_context : string)
    : RM (option (list MemoryResult)) :=
  match rq_as_of rq with
  | Some _ => mret None
  | None =>
      cached ← _get_cached_results cache_identity cache_context;
      match cached with
      | None | Some [] => mret None
      | Some cached =>
          verified ← _hydrate_current_results cached o f (rq_tenant_id rq);
          mret (if same_page verified cached then Some verified else None)
      end
  end.

Definition ids_of (results : list MemoryResult) : list string := mr_id <$> results.

(** Announce the reads and remember the answer. *)
Definition answer_and_cache (cache_identity cache_context : string) (results : list MemoryResult)
    : RM (list MemoryResult) :=
  _queue_access_update (ids_of results);;
  _cache_results cache_identity results cache_context;;
  mret results.

Definition room (limit : Z) (hot : list MemoryResult) : Z := Z.max 0 (limit - Z.of_nat (length hot)).

(** The fallback while the vector store is unavailable. *)
Definition degraded_answer (o : read_owner) (limit : Z) (f : Filters) (cache_identity cache_context : string)
    (hot : list MemoryResult) : RM (list MemoryResult) :=
  set_degraded;;
  fallback ← _retrieve_postgres_fallback o (room limit hot) f;
  answer_and_cache cache_identity cache_context (_merge_hot_tier_results hot fallback limit).

Definition embed_all (query : string) (model_ids : list string) : RM (list Embedding) :=
  catching (collect (_embed_query query) model_ids)
    (fun _ => raise_st (APIError 503 "EMB_503" "embedding_unavailable")).

(** The result of a scored point whose memory is in force. *)
Definition scored_result (pm : Point * Memory) : MemoryResult :=
  result_of pm.2 (provenance_of pm.2) (pt_score pm.1) now.

Definition semantic_answer (rq : Request) (o : read_owner) (f : Filters) (cache_identity cache_context : string)
    (hot : list MemoryResult) : RM (list MemoryResult) :=
  let limit := rq_limit rq in
  model_ids ← _candidate_embedding_model_ids o;
  embeddings ← embed_all (rq_query rq) model_ids;
  points ← collect (_search_qdrant o f (rq_tenant_id rq) (overfetch (room limit hot)) false) embeddings;
  now_open ← breaker_open 1;
  match concat points with
  | [] =>
      if now_open : bool then degraded_answer o limit f cache_identity cache_context hot
      else _queue_access_update (ids_of hot);; mret (py_slice limit hot)
  | points =>
      match filter (fun p => _passes_semantic_floor p = true) points with
      | [] => _queue_access_update (ids_of hot);; mret (py_slice limit hot)
      | points =>
          memories ← fetch_by_ids o (_point_memory_id <$> points) f
                       (match o with ByProxy _ => rq_tenant_id rq | ByUser _ => None end);
          let scored := scored_result
            <$> filter (fun pm => _memory_is_current pm.2 now = true) (matched memories points) in
          answer_and_cache cache_identity cache_context
            (_merge_hot_tier_results hot (deduplicated_ranked scored) limit)
      end
  end.

(** Everything after the cache: tiers, cold start, vector search. *)
Definition fresh_candidates (rq : Request) (mode : QuotaMode.t) (proxy_user : option uuid) (o : read_owner)
    (f : Filters) (cache_identity cache_context : string) : RM (list MemoryResult) :=
  let limit := rq_limit rq in
  nominated ← _get_hot_tier_results o f;
  hot ← _hydrate_current_results nominated o f (rq_tenant_id rq);
  if bool_decide (mode = QuotaMode.degraded_retrieve) then
    set_degraded;; _queue_access_update (ids_of hot);; mret (py_slice limit hot)
  else
    pending ← match proxy_user, rq_tenant_id rq with
              | Some p, Some t => _source_index_pending p t
              | _, _ => mret false
              end;
    if pending : bool then
      degraded (visibility processing affected_context);;
      results ← _retrieve_cold_start_memories o limit f;
      mret (_merge_hot_tier_results hot results limit)
    else
      count ← count_memories o;
      if (count <? COLD_START_THRESHOLD)%Z then
        modify_st (fun s => s <| _preference_cold_start := _preference_discovery_active s |>);;
        cold ← _retrieve_cold_start_memories o (room limit hot) f;
        answer_and_cache cache_identity cache_context (_merge_hot_tier_results hot cold limit)
      else if (limit <=? Z.of_nat (length hot))%Z then
        answer_and_cache cache_identity cache_context (py_slice limit hot)
      else
        already_open ← breaker_open 0;
        if already_open : bool then degraded_answer o limit f cache_identity cache_context hot
        else semantic_answer rq o f cache_identity cache_context hot.

(** [_retrieve_declared_preferences], to be given below. *)
Definition declared_reader : Type := Request -> string -> uuid -> uuid -> QuotaMode.t -> PreferenceReadContext
                                     -> RM (list MemoryResult).

Definition filters_of (rq : Request) : Filters :=
  {| fi_categories := py_lower <$> rq_categories rq; fi_agent_id := rq_agent_id rq;
     fi_created_after := _created_after (rq_time_filter_days rq) now |}.

(** The preflight: [None] goes on, [Some] is the answer already. *)
Definition preflight (rq : Request) (proxy_user : option uuid) : RM (option (list MemoryResult)) :=
  match rq_as_of rq, rq_tenant_id rq, proxy_user with
  | None, Some tenant_id, Some p =>
      row ← _runtime_visibility_row p tenant_id;
      match row with
      | None => set_hit false;; mret (Some [])
      | Some row =>
          if vr_pending row then
            hold ← runtime_hold p tenant_id row;
            if rh_broad hold then
              set_hit false;;
              degraded (visibility (if rh_unavailable hold then ContextBuilder.unavailable else processing) user_learned_context);;
              mret (Some [])
            else mret None
          else mret None
      end
  | _, _, _ => mret None
  end.

Definition quota_mode_of (rq : Request) : QuotaMode.t :=
  match rq_quota_mode rq with
  | Some v => _coerce_quota_mode v
  | None => _resolve_quota_mode (rq_tenant_id rq)
  end.

(** After identity and quota mode are known. *)
Definition candidates_of (declared : declared_reader) (rq : Request) (identity : string) (proxy_user : option uuid)
    (cache_identity cache_context : string) : RM (list MemoryResult) :=
  let f := filters_of rq in
  let mode := quota_mode_of rq in
  early ← preflight rq proxy_user;
  match early with
  | Some answer => mret answer
  | None =>
      if bool_decide (mode ∈ [QuotaMode.blocked; QuotaMode.passthrough]) then mret []
      else
        let o := owner_of proxy_user identity in
        match rq_preference_context rq with
        | Some context =>
            match rq_tenant_id rq, proxy_user, rq_as_of rq with
            | Some tenant_id, Some p, None =>
                if explicit_preference_claims_enabled settings
                then declared rq identity p tenant_id mode context
                else raise_st (ValueError "explicit preference context unavailable")
            | _, _, _ => raise_st (ValueError "explicit preference context unavailable")
            end
        | None =>
            cached ← verified_cache rq o f cache_identity cache_context;
            match cached with
            | Some results =>
                set_hit true;; _queue_access_update (ids_of results);; mret (py_slice (rq_limit rq) results)
            | None =>
                set_hit false;;
                match rq_as_of rq with
                | Some as_of =>
                    results ← _retrieve_as_of_semantic (rq_query rq) o (rq_tenant_id rq) as_of (rq_limit rq) f;
                    _queue_access_update (ids_of results);; mret results
                | None => fresh_candidates rq mode proxy_user o f cache_identity cache_context
                end
            end
        end
  end.

Definition _retrieve_candidates_with (declared : declared_reader) (rq : Request) : RM (list MemoryResult) :=
  modify_st (fun s => s <| last_preference_decisions := [] |>);;
  match str_or (rq_external_user_id rq) (rq_user_id rq) with
  | None | Some EmptyString => raise_st (ValueError "retrieve requires external_user_id or user_id.")
  | Some identity =>
      s ← get_st;
      let cache_context :=
        _cache_context (rq_query rq) (py_lower <$> rq_categories rq) (rq_agent_id rq) (rq_limit rq)
          (rq_time_filter_days rq) (rq_as_of rq)
        +:+ (if _preference_discovery_active s then "|preference-discovery-v1" else EmptyString) in
      modify_st (fun s => s <| last_is_degraded := false |>);;
      resolved ← resolve_proxy_user rq identity;
      modify_st (fun s => (s <| _resolved_read_proxy_id := resolved.1 |>)
                            <| last_quota_mode := quota_mode_of rq |>);;
      candidates_of declared rq identity resolved.1 resolved.2 cache_context
  end.

(** ** Declared preferences *)

(** What reading one property in one scope yields: nothing here (look at the
    broader scope), a stop, a decision left to the user, or the memory. *)
Inductive scope_reading := Absent | Blocked | Undecided | Selected (m : Memory).

Definition read_scope (f : Filters) (agent_id : option string) (owner : uuid) (key : string)
    (scope : PreferenceApplicability) (pair : option (MemoryClaim * option Memory)) : res scope_reading :=
  match pair with
  | None => inr Absent
  | Some (claim, memory) =>
      match c_active_memory_id claim, memory with
      | None, _ => inr Absent
      | Some _, None => inr Blocked
      | Some _, Some m =>
          held ← raises AttributeError (held_choice m claim);
          if held : bool then inr Undecided
          else if negb (bool_decide (m_proxy_user_id m = owner))
                  || negb (bool_decide (c_status claim ∈ [ClaimStatus.active; ClaimStatus.archived]))
          then inr Blocked
          else
            declaration ← raises AttributeError (preference_declaration (provenance_of m));
            match declaration with
            | None => inr Blocked
            | Some d =>
                if negb (bool_decide (pc_property_key d = key)) || negb (bool_decide (pc_applicability d = scope))
                   || negb (bool_decide (c_active_value claim = Some (pc_value d)))
                   || bool_decide (c_status claim = ClaimStatus.archived) && negb (m_is_archived m)
                then inr Blocked
                else if m_is_archived m || negb (_memory_is_current m now)
                        || match agent_id with
                           | Some a => negb (bool_decide (uuid_str <$> m_agent_id m = Some a))
                           | None => false
                           end
                        || match fi_created_after f with Some t => (m_created_at m <? t)%Z | None => false end
                then inr Absent
                else inr (Selected m)
            end
      end
  end.

(** The scopes of one property from the narrowest: the selected memory, or the
    scope whose choice is the user's. *)
Fixpoint read_property (f : Filters) (agent_id : option string) (owner : uuid) (key : string)
    (found : gmap string (MemoryClaim * option Memory)) (scopes : list PreferenceApplicability)
    : res (option Memory * list PreferenceReadDecision) :=
  match scopes with
  | [] => inr (None, [])
  | scope :: scopes =>
      reading ← read_scope f agent_id owner key scope (found !! preference_fingerprint key scope);
      match reading with
      | Absent => read_property f agent_id owner key found scopes
      | Blocked => inr (None, [])
      | Undecided => inr (None, [{| pd_property_key := key; pd_applicability := scope |}])
      | Selected m => inr (Some m, [])
      end
  end.

Definition scopes_of (context : PreferenceReadContext) : list PreferenceApplicability :=
  [px_applicability context; GLOBAL].

Fixpoint read_properties (f : Filters) (agent_id : option string) (owner : uuid) (context : PreferenceReadContext)
    (withheld : gset string) (found : gmap string (MemoryClaim * option Memory)) (keys : list string)
    : res (list Memory * list PreferenceReadDecision) :=
  match keys with
  | [] => inr ([], [])
  | key :: keys =>
      rest ← read_properties f agent_id owner context withheld found keys;
      if existsb (fun scope => bool_decide (preference_fingerprint key scope ∈ withheld)) (scopes_of context)
      then inr rest
      else
        one ← read_property f agent_id owner key found (scopes_of context);
        inr (option_list one.1 ++ rest.1, one.2 ++ rest.2)
  end.

(** A dictionary comprehension: a later row replaces an earlier one. *)
Definition by_fingerprint (found : list (MemoryClaim * option Memory)) : gmap string (MemoryClaim * option Memory) :=
  list_to_map ((fun cm => (c_claim_fingerprint cm.1, cm)) <$> rev found).

Definition context_fingerprints (context : PreferenceReadContext) : list string :=
  key ← px_property_keys context; scope ← [GLOBAL; px_applicability context]; [preference_fingerprint key scope].

(** The preference rows of a read: given by a discovery, or queried. *)
Definition declared_preferences_read (context : PreferenceReadContext) (owner tenant_id : uuid)
    (categories : list string) (f : Filters) (agent_id : option string) (withheld : gset string)
    (given : option (list (MemoryClaim * option Memory))) : RM (list MemoryResult * list PreferenceReadDecision) :=
  if bool_decide (categories = []) || bool_decide ("preference" ∈ categories) then
    found ← match given with
            | Some found => mret found
            | None => sql (fun db => preference_rows db tenant_id owner (ByFingerprint (context_fingerprints context)))
            end;
    selected ← lift (read_properties f agent_id owner context withheld (by_fingerprint found)
                       (px_property_keys context));
    results ← collect (fun m => to_result m 1) selected.1;
    mret (results, selected.2)
  else mret ([], []).

Definition finish_declared (preferences other : list MemoryResult) (decisions : list PreferenceReadDecision)
    (limit : Z) : RM (list MemoryResult) :=
  modify_st (fun s => (s <| last_cache_hit := false |>) <| last_preference_decisions := decisions |>);;
  _queue_access_update (ids_of preferences);;
  mret (py_slice limit (preferences ++ other)).

Definition OTHER_CATEGORIES : list string := ["fact"; "goal"; "procedure"; "relationship"; "expertise"].

Definition other_request (rq : Request) (identity : string) (owner tenant_id : uuid) (mode : QuotaMode.t)
    (categories : list string) : Request :=
  {| rq_query := rq_query rq; rq_external_user_id := Some identity; rq_proxy_user_id := Some (uuid_str owner);
     rq_user_id := None; rq_limit := rq_limit rq; rq_categories := categories; rq_agent_id := rq_agent_id rq;
     rq_tenant_id := Some tenant_id; rq_time_filter_days := rq_time_filter_days rq; rq_as_of := None;
     rq_quota_mode := Some (QuotaMode.value mode); rq_preference_context := None |}.

(** A context-free read never reaches the declared preferences. *)
Definition no_declared : declared_reader :=
  fun _ _ _ _ _ _ => raise_st (ValueError "explicit preference context unavailable").

Definition _retrieve_declared_preferences : declared_reader := fun rq identity owner tenant_id mode context =>
  let f := filters_of rq in
  let categories := fi_categories f in
  read ← declared_preferences_read context owner tenant_id categories f (rq_agent_id rq) ∅ None;
  let others := filter (fun c => c <> "preference")
                  (match categories with [] => OTHER_CATEGORIES | cs => cs end) in
  other ← match others with
          | [] => mret []
          | _ => _retrieve_candidates_with no_declared (other_request rq identity owner tenant_id mode others)
          end;
  finish_declared read.1 other read.2 (rq_limit rq).

Definition _retrieve_candidates : Request -> RM (list MemoryResult) :=
  _retrieve_candidates_with _retrieve_declared_preferences.

(** ** The final read *)

Definition has_writer (r : MemoryResult) : bool := truthy (json_path "writer_id" (mr_provenance r)).

(** The claims of the source candidates, by memory. *)
Definition claims_by_memory (db : ReadDb) (tenant_id owner : uuid) (memories : list uuid)
    : list (uuid * MemoryClaim) :=
  omap (fun r => i ← r_memory_id r;
                 c ← rd_claims db !! r_claim_id r;
                 if bool_decide (i ∈ memories) && bool_decide (c_tenant_id c = tenant_id)
                    && bool_decide (c_proxy_user_id c = owner) then Some (i, c) else None)
    (rows (rd_revisions db)).

(** The claim of a memory that has exactly one revision row. *)
Definition only_claim (found : list (uuid * MemoryClaim)) (memory_id : string) : option MemoryClaim :=
  match filter (fun ic => uuid_str ic.1 = memory_id) found with [ic] => Some ic.2 | _ => None end.

Definition winner_id (c : MemoryClaim) : option uuid :=
  if bool_decide (c_status c = ClaimStatus.active) && isSome (c_winning_revision_id c)
  then c_active_memory_id c else None.

(** What becomes of a candidate: kept, replaced by the winner, or withheld. *)
Definition project_candidate (found : list (uuid * MemoryClaim)) (winners : gmap string Memory)
    (revisions : gmap uuid MemoryClaimRevision) (candidate : MemoryResult) : res (option (MemoryResult + Memory)) :=
  if negb (has_writer candidate) then inr (Some (inl candidate))
  else
    let claim := only_claim found (mr_id candidate) in
    let memory := c ← claim; i ← c_active_memory_id c; winners !! uuid_str i in
    let revision := c ← claim; i ← c_winning_revision_id c; revisions !! i in
    matches ← raises AttributeError (source_winner_matches claim memory revision);
    inr (match memory with
         | Some m => if (matches : bool) && _memory_is_current m now then Some (inr m) else None
         | None => None
         end).

(** The loop: results, ids of winners seen, and whether anything was withheld. *)
Fixpoint project_loop (found : list (uuid * MemoryClaim)) (winners : gmap string Memory)
    (revisions : gmap uuid MemoryClaimRevision) (candidates : list MemoryResult) (seen : gset uuid)
    : RM (list MemoryResult * bool) :=
  match candidates with
  | [] => mret ([], false)
  | candidate :: candidates =>
      kept ← lift (project_candidate found winners revisions candidate);
      match kept with
      | None => rest ← project_loop found winners revisions candidates seen; mret (rest.1, true)
      | Some (inl r) => rest ← project_loop found winners revisions candidates seen; mret (r :: rest.1, rest.2)
      | Some (inr m) =>
          if bool_decide (m_id m ∈ seen) then project_loop found winners revisions candidates seen
          else
            r ← to_result m (mr_semantic_score candidate);
            rest ← project_loop found winners revisions candidates ({[m_id m]} ∪ seen);
            mret (r :: rest.1, rest.2)
      end
  end.

Definition affected : option MemoryVisibility := visibility ContextBuilder.unavailable affected_context.

Definition _project_source_claims (rq : Request) (tenant_id owner : uuid) (candidates : list MemoryResult)
    : RM (list MemoryResult) :=
  match filter (fun r => has_writer r = true) candidates with
  | [] => mret candidates
  | source =>
      memory_ids ← collect (fun r => lift (_as_uuid (mr_id r))) source;
      found ← sql (fun db => claims_by_memory db tenant_id owner memory_ids);
      let claims := omap (fun r => only_claim found (mr_id r)) source in
      winners ← match omap winner_id claims with
                | [] => mret ∅
                | ids => _fetch_memories_by_ids (Some ∘ uuid_str <$> dict_fromkeys ids) owner (filters_of rq)
                           (Some tenant_id)
                end;
      revisions ← sql (fun db =>
        filter (fun ir => Some ir.1 ∈ c_winning_revision_id <$> claims) (rd_revisions db));
      projected ← project_loop found winners revisions candidates ∅;
      (if (projected.2 : bool) then degraded affected else mret tt);;
      set_hit false;;
      mret (py_slice (rq_limit rq) projected.1)
  end.

(** A pending correction of the user, optionally in the read's categories. *)
Definition unresolved_correction (categories : list string) (tenant_id owner : uuid)
    (c : PendingExtractionCandidate) : bool :=
  let decision := json_path "source_decision" (json_path "extraction_evidence" (JObj (pe_metadata_json c))) in
  bool_decide (pe_tenant_id c = tenant_id) && bool_decide (pe_proxy_user_id c = owner)
  && bool_decide (pe_status c = "pending") && bool_decide (pe_candidate_reason c = "source_decision_pending")
  && match json_path "reason_codes" decision with
     | JArr codes => bool_decide (JStr "source_correction_unresolved" ∈ codes)
     | _ => false
     end
  && match categories with [] => true | cs => bool_decide (pe_category c ∈ cs) end.

(** A source event of the user with a registered writer. *)
Definition writer_event (db : ReadDb) (tenant_id owner event_id : uuid) : option MemorySourceEvent :=
  ev ← rd_source_events db !! event_id;
  if bool_decide (se_tenant_id ev = tenant_id) && bool_decide (se_proxy_user_id ev = owner)
     && isSome (se_writer_id ev) then Some ev else None.

Definition corrections (db : ReadDb) (categories : list string) (tenant_id owner : uuid)
    : list (PendingExtractionCandidate * MemorySourceEvent) :=
  omap (fun c => if unresolved_correction categories tenant_id owner c
                 then ev ← writer_event db tenant_id owner (pe_source_event_id c); Some (c, ev) else None)
    (rows (rd_pending db)).

(** JSONB equality: the order of keys does not matter. *)
Definition same_jsonb (a b : obj) : bool := bool_decide (json_sorted (JObj a) = json_sorted (JObj b)).

(** A memory from a registered writer whose category and exact scope have a
    correction pending. *)
Definition blocked_by_correction (db : ReadDb) (categories : list string) (tenant_id owner : uuid) (m : Memory)
    : bool :=
  bool_decide (m_proxy_user_id m = owner)
  && match m_source_event_id m ≫= writer_event db tenant_id owner with
     | Some ev => existsb (fun ce => bool_decide (pe_category ce.1 = MemoryCategory.value (m_category m))
                                     && same_jsonb (se_scope ce.2) (se_scope ev))
                    (corrections db categories tenant_id owner)
     | None => false
     end.

Definition forget_choices : RM unit :=
  modify_st (fun s => (s <| last_preference_decisions := [] |>) <| last_preference_scope_request := None |>).

Definition _withhold_pending_source_corrections (rq : Request) (tenant_id owner : uuid)
    (candidates : list MemoryResult) : RM (list MemoryResult) :=
  let categories := py_lower <$> rq_categories rq in
  pending ← sql (fun db => negb (bool_decide (corrections db categories tenant_id owner = [])));
  if negb (pending : bool) then mret candidates
  else
    modify_st (fun s => match last_memory_visibility s with
                        | Some {| vi_scope := user_learned_context |} => s
                        | _ => s <| last_memory_visibility := affected |>
                        end);;
    set_degraded;; set_hit false;; forget_choices;;
    match candidates with
    | [] => mret []
    | _ =>
        ids ← collect (fun r => lift (_as_uuid (mr_id r))) candidates;
        blocked ← sql (fun db => uuid_str ∘ m_id
          <$> filter (fun m => m_id m ∈ ids /\ blocked_by_correction db categories tenant_id owner m = true)
                (rows (rd_memories db)));
        mret (filter (fun r => mr_id r ∉ blocked) candidates)
    end.

Definition _project_current_sources (rq : Request) (tenant_id owner : uuid) (candidates : list MemoryResult)
    : RM (list MemoryResult) :=
  projected ← _project_source_claims rq tenant_id owner candidates;
  _withhold_pending_source_corrections rq tenant_id owner projected.

(** [self.session = snapshot; try: ... finally: self.session = original] *)
Definition with_snapshot {A} (body : RM A) : RM A :=
  fun s => let r := body (s <| in_snapshot := true |>) in (r.1 <| in_snapshot := in_snapshot s |>, r.2).

Definition no_hold : RuntimeHold :=
  {| rh_broad := false; rh_unavailable := false; rh_preference_fingerprints := ∅; rh_fact_ids := ∅ |}.

Definition set_visibility (v : option MemoryVisibility) : RM unit :=
  modify_st (fun s => s <| last_memory_visibility := v |>).
Definition clear_decisions : RM unit := modify_st (fun s => s <| last_preference_decisions := [] |>).

(** Nothing may be shown: the read ends. *)
Definition closed_answer : RM (list MemoryResult) :=
  degraded (visibility ContextBuilder.unavailable user_learned_context);; set_hit false;; mret [].

(** A result that a hold names, in its present or its previous version. *)
Definition held_result (hold : RuntimeHold) (r : MemoryResult) : bool :=
  bool_decide (mr_id r ∈ rh_fact_ids hold)
  || match mr_previous_version_id r with Some p => bool_decide (p ∈ rh_fact_ids hold) | None => false end
  || negb (bool_decide (rh_preference_fingerprints hold = ∅)) && bool_decide (mr_category r = "preference").

(** The hold of the snapshot, with the state the reader is told. *)
Definition snapshot_hold (owner tenant_id : uuid) (row : VisibilityRow) : RM RuntimeHold :=
  if vr_pending row then
    hold ← runtime_hold owner tenant_id row;
    degraded (visibility (if rh_unavailable hold then ContextBuilder.unavailable else processing)
                (if rh_broad hold then user_learned_context else affected_context));;
    set_hit false;; clear_decisions;;
    mret hold
  else set_visibility None;; mret no_hold.

Definition add_confirmations (hold : RuntimeHold) (held : gset string) : RM RuntimeHold :=
  if bool_decide (held = ∅) then mret hold
  else degraded affected;;
       mret (hold <| rh_preference_fingerprints ::= fun fps => fps ∪ held |>).

(** [None]: the discovery is unavailable and nothing may be shown. *)
Definition run_discovery (rq : Request) (owner tenant_id : uuid) (hold : RuntimeHold)
    (candidates : list MemoryResult) : RM (option (option PreferenceDiscovery)) :=
  s ← get_st;
  if _preference_discovery_active s && discovery_enabled settings (Some tenant_id) then
    let nominee_ids := match _preference_nominee_ids s with
                       | [] => _bounded_memory_ids (Some ∘ mr_id <$> candidates)
                       | ids => ids
                       end in
    found ← sql (fun db => discover_preferences tenant_id owner (fun m => _memory_is_current m now)
                             (fi_created_after (filters_of rq)) db nominee_ids (_preference_cold_start s)
                             (rh_preference_fingerprints hold));
    match found with
    | inl (AdmissionUnavailable _) => mret None
    | inl exc => raise_st exc
    | inr d =>
        modify_st (fun s => (s <| last_discovered_preference_context := di_context d |>)
                              <| last_preference_scope_request := di_scope_request d |>);;
        mret (Some (Some d))
    end
  else mret (Some None).

(** The governed part: rehydrate, drop what is held, put preferences first. *)
Definition governed_results (rq : Request) (owner tenant_id : uuid) (hold : RuntimeHold)
    (discovery : option PreferenceDiscovery) (candidates : list MemoryResult) : RM (list MemoryResult) :=
  let f := filters_of rq in
  let plain := negb (isSome (rq_preference_context rq)) && negb (isSome discovery) in
  fresh ← _hydrate_current_results
            (filter (fun r => plain = true \/ mr_category r <> "preference") candidates)
            (ByProxy owner) f (Some tenant_id);
  let fresh := filter (fun r => held_result hold r = false) fresh in
  let context := match rq_preference_context rq with
                 | Some c => Some c
                 | None => discovery ≫= di_context
                 end in
  match context with
  | Some c =>
      if bool_decide (fi_categories f = []) || bool_decide ("preference" ∈ fi_categories f) then
        read ← declared_preferences_read c owner tenant_id ["preference"] f (rq_agent_id rq)
                 (rh_preference_fingerprints hold) (di_rows <$> discovery);
        preferences ← finish_declared read.1 [] read.2 (rq_limit rq);
        mret (preferences ++ fresh)
      else mret fresh
  | None => mret fresh
  end.

(** The final read once its hold is known not to be on everything. *)
Definition final_rest (rq : Request) (owner tenant_id : uuid) (row : VisibilityRow) (hold : RuntimeHold)
    (candidates : list MemoryResult) : RM (list MemoryResult) :=
  lagging ← _source_index_pending owner tenant_id;
  candidates ← (if lagging : bool then
                  found ← _retrieve_cold_start_memories (ByProxy owner) (rq_limit rq) (filters_of rq);
                  degraded (visibility processing affected_context);; set_hit false;; mret found
                else mret candidates);
  confirmations ← sql (fun db => pending_fingerprints db tenant_id owner now);
  held ← lift confirmations;
  match held with
  | None => closed_answer
  | Some held =>
      hold ← add_confirmations hold held;
      discovery ← run_discovery rq owner tenant_id hold candidates;
      match discovery with
      | None => clear_decisions;; closed_answer
      | Some discovery =>
          if negb (vr_routed row) && negb (isSome discovery)
          then _project_current_sources rq tenant_id owner candidates
          else
            fresh ← governed_results rq owner tenant_id hold discovery candidates;
            (if vr_pending row || negb (bool_decide (held = ∅))
             then forget_choices;; set_degraded else mret tt);;
            set_hit false;;
            _project_current_sources rq tenant_id owner (py_slice (rq_limit rq) fresh)
      end
  end.

Definition final_body (rq : Request) (owner tenant_id : uuid) (candidates : list MemoryResult)
    : RM (list MemoryResult) :=
  row ← _runtime_visibility_row owner tenant_id;
  match row with
  | None => set_hit false;; clear_decisions;; mret []
  | Some row =>
      hold ← snapshot_hold owner tenant_id row;
      if rh_broad hold then mret [] else final_rest rq owner tenant_id row hold candidates
  end.

Definition _final_current_read (rq : Request) (owner tenant_id : uuid) (candidates : list MemoryResult)
    : RM (list MemoryResult) :=
  _finish_read_transaction;;
  with_snapshot (final_body rq owner tenant_id candidates).

(** ** [retrieve] *)

Definition discovery_wanted (rq : Request) : bool :=
  discovery_enabled settings (rq_tenant_id rq) && negb (isSome (rq_preference_context rq))
  && negb (isSome (rq_as_of rq)) && negb (isSome (rq_agent_id rq))
  && (bool_decide (rq_categories rq = []) || bool_decide ("preference" ∈ rq_categories rq)).

Definition start_request (rq : Request) : RM unit := modify_st (fun s =>
  s <| last_memory_visibility := None |> <| last_preference_scope_request := None |>
    <| last_discovered_preference_context := None |> <| _preference_nominee_ids := [] |>
    <| _preference_cold_start := false |> <| _preference_discovery_active := discovery_wanted rq |>
    <| _resolved_read_proxy_id := None |>).

Definition retrieve (rq : Request) : RM (list MemoryResult) :=
  start_request rq;;
  candidates ← _retrieve_candidates rq;
  s ← get_st;
  match last_memory_visibility s with
  | Some {| vi_scope := user_learned_context |} => mret []
  | _ =>
      match rq_as_of rq, rq_tenant_id rq, _resolved_read_proxy_id s with
      | None, Some tenant_id, Some owner =>
          if bool_decide (last_quota_mode s ∈ [QuotaMode.blocked; QuotaMode.passthrough]) then mret candidates
          else _final_current_read rq owner tenant_id candidates
      | _, _, _ => mret candidates
      end
  end.
End Retriever.
