(* ===== verification/RankingTheorems.v ===== *)
(** * Ranking of retrieved memories: theorems

    Deduplication keeps the best representative of every group of repeated
    memories, the merge of tiers is the prefix of the distinct results, each
    memory has one point, and the result cache gives back what it was given. *)

From S2P Require Export Retriever RuntimeHoldTheorems.

Section Ranking.
Context `{PyLib}.

(** ** Deduplication *)

Abbreviation descending := (StronglySorted (fun a b : MemoryResult => (mr_final_score b <= mr_final_score a)%Q)).
Abbreviation distinct := (StronglySorted (fun a b : MemoryResult => duplicates b a = false)).

Lemma ranked_descending rs : descending (ranked rs).
Proof. apply (sort_by_descending mr_final_score). Qed.

(** What deduplication made of a list in order. *)
Record deduplicated (seen kept : list MemoryResult) : Prop := {
  de_sublist : kept `sublist_of` seen;
  de_distinct : distinct kept;
  de_covered r : r ∈ seen -> exists k, k ∈ kept /\ (r = k \/ duplicates r k = true)
                                       /\ (mr_final_score r <= mr_final_score k)%Q;
}.

Lemma deduplicate_spec candidates : forall seen kept,
  descending (seen ++ candidates) -> deduplicated seen kept ->
  deduplicated (seen ++ candidates) (deduplicate candidates kept).
Proof.
  induction candidates as [|c candidates IH]; intros seen kept Hsorted [Hsub Hdis Hcov]; simpl.
  { by rewrite app_nil_r. }
  assert (forall k, k ∈ seen -> (mr_final_score c <= mr_final_score k)%Q) as Hbest.
  { intros k Hk. eapply StronglySorted_app_1_elem_of in Hsorted; [exact Hsorted|done|by left]. }
  rewrite (cons_middle c), app_assoc. rewrite (cons_middle c), app_assoc in Hsorted.
  destruct (existsb (duplicates c) kept) eqn:Hdup; apply IH; [done| |done|].
  - apply existsb_exists in Hdup as (k & Hk%list_elem_of_In & Hdup).
    split; [by apply sublist_inserts_r|done|].
    intros r [Hr| ->%list_elem_of_singleton]%elem_of_app; [by apply Hcov|].
    exists k. split; [done|]. split; [by right|]. by eapply Hbest, elem_of_sublist.
  - split; [by apply sublist_app| |].
    + apply StronglySorted_snoc; [done|]. apply Forall_forall. intros k Hk.
      apply not_true_iff_false. intros Hd. apply not_true_iff_false in Hdup. apply Hdup, existsb_exists.
      exists k. by rewrite <- list_elem_of_In.
    + intros r [Hr| ->%list_elem_of_singleton]%elem_of_app.
      * apply Hcov in Hr as (k & ? & ?). exists k. split; [|done]. apply elem_of_app. by left.
      * exists c. split; [apply elem_of_app; right; by left|]. split; [by left|lra].
Qed.

(** The ranking of scored memories is what deduplication means: the results
    come in descending score, none repeats one before it (same source scope and
    nearly the same content), each is one of the scored memories, and a memory
    is left out only for a kept one that it repeats and that scores at least as
    much.  Sorting once more after deduplication changes nothing. *)
Theorem ranking_keeps_the_best_representatives rs :
  let kept := deduplicated_ranked rs in
  kept = _deduplicate_results rs /\ descending kept /\ distinct kept /\ kept ⊆+ rs /\
  forall r, r ∈ rs -> exists k, k ∈ kept /\ (r = k \/ duplicates r k = true)
                                /\ (mr_final_score r <= mr_final_score k)%Q.
Proof.
  pose proof (ranked_descending rs) as Hsorted.
  destruct (deduplicate_spec (ranked rs) [] []) as [Hsub Hdis Hcov];
    [done|by split; [constructor|constructor|intros r ?%elem_of_nil]|]. simpl in *.
  assert (descending (_deduplicate_results rs)) as Hdesc by by eapply StronglySorted_sublist.
  assert (deduplicated_ranked rs = _deduplicate_results rs) as Hid
    by exact (sort_by_descending_id mr_final_score _ Hdesc).
  simpl. rewrite Hid. split_and!; try done.
  - etransitivity; [by apply sublist_submseteq|]. unfold ranked. by rewrite sort_by_perm.
  - intros r Hr. apply Hcov. unfold ranked. by rewrite sort_by_perm.
Qed.

(** ** The merge of tiers *)

(** The first result of every id, leaving out the ids seen. *)
Fixpoint firsts (seen : list string) (results : list MemoryResult) : list MemoryResult :=
  match results with
  | [] => []
  | r :: results =>
      if bool_decide (mr_id r ∈ seen) then firsts seen results else r :: firsts (mr_id r :: seen) results
  end.

Lemma firsts_ext seen seen' results : (forall i, i ∈ seen <-> i ∈ seen') -> firsts seen results = firsts seen' results.
Proof.
  revert seen seen'. induction results as [|r results IH]; intros seen seen' Heq; simpl; [done|].
  rewrite (bool_decide_ext _ _ (Heq (mr_id r))). case_bool_decide; [by apply IH|]. f_equal.
  apply IH. intros i. rewrite !elem_of_cons. by rewrite Heq.
Qed.

Lemma firsts_distinct seen results :
  NoDup (mr_id <$> firsts seen results) /\ forall r, r ∈ firsts seen results -> mr_id r ∉ seen.
Proof.
  revert seen. induction results as [|r results IH]; intros seen; simpl.
  { split; [constructor|]. by intros r ?%elem_of_nil. }
  case_bool_decide as Hr; [apply IH|]. destruct (IH (mr_id r :: seen)) as [Hnd Hout]. split.
  - rewrite fmap_cons. constructor; [|done]. intros (r' & Hid & Hr')%list_elem_of_fmap.
    apply (Hout r' Hr'). rewrite Hid. by left.
  - intros r' [->|Hr']%elem_of_cons; [done|]. intros Hin. apply (Hout r' Hr'). by right.
Qed.

Lemma merge_loop_firsts results limit merged :
  (merged = [] \/ (Z.of_nat (length merged) < limit)%Z) ->
  merge_loop results limit merged
    = merged ++ take (Z.to_nat (Z.max 1 limit) - length merged) (firsts (mr_id <$> merged) results).
Proof.
  revert merged. induction results as [|r results IH]; intros merged Hroom; simpl.
  { by rewrite take_nil, app_nil_r. }
  case_bool_decide as Hr; [by apply IH|].
  assert (length merged < Z.to_nat (Z.max 1 limit))%nat as Hlt by (destruct Hroom as [->|?]; simpl; lia).
  destruct (Z.leb_spec limit (Z.of_nat (length (merged ++ [r])))) as [Hfull|Hmore];
    rewrite length_app in *; simpl in *.
  - replace (Z.to_nat (Z.max 1 limit) - length merged)%nat with 1%nat by lia. by rewrite firstn_cons, take_0.
  - rewrite IH by (right; rewrite length_app; simpl; lia).
    rewrite <- app_assoc, length_app, (firsts_ext _ (mr_id r :: (mr_id <$> merged))); simpl.
    + replace (Z.to_nat (Z.max 1 limit) - length merged)%nat
        with (S (Z.to_nat (Z.max 1 limit) - (length merged + 1)))%nat by lia. done.
    + intros i. rewrite fmap_app, elem_of_app, elem_of_cons. simpl. rewrite list_elem_of_singleton. tauto.
Qed.

(** The merge of the hot tier with the other candidates is a prefix of the
    distinct results, hot ones first: the first result of every id, cut at the
    limit (which is looked at only after a result was added, so that a limit
    below one still lets one through).  In particular the ids are distinct and
    a positive limit is never exceeded. *)
Theorem merge_takes_the_first_of_every_memory hot other limit :
  let merged := _merge_hot_tier_results hot other limit in
  merged = take (Z.to_nat (Z.max 1 limit)) (firsts [] (hot ++ other))
  /\ NoDup (mr_id <$> merged)
  /\ (Z.of_nat (length merged) <= Z.max 1 limit)%Z.
Proof.
  assert (_merge_hot_tier_results hot other limit = take (Z.to_nat (Z.max 1 limit)) (firsts [] (hot ++ other)))
    as Heq.
  { unfold _merge_hot_tier_results. rewrite merge_loop_firsts by by left. simpl. by rewrite Nat.sub_0_r. }
  simpl. rewrite Heq. split_and!; [done| |rewrite length_take; lia].
  eapply sublist_NoDup; [apply (firsts_distinct [] (hot ++ other))|]. by apply fmap_sublist, sublist_take.
Qed.

(** ** Points of several searches *)

(** What [keep_best] has gathered from the points seen. *)
Record gathered (seen : list Point) (merged : list (string * Point)) : Prop := {
  ga_distinct : NoDup merged.*1;
  ga_point k p : (k, p) ∈ merged -> p ∈ seen /\ _point_memory_id p = Some k
                   /\ forall q, q ∈ seen -> _point_memory_id q = Some k -> (pt_score q <= pt_score p)%Q;
  ga_covered q k : q ∈ seen -> _point_memory_id q = Some k -> exists p, (k, p) ∈ merged;
}.

Lemma keep_best_keys k point merged i : i ∈ (keep_best k point merged).*1 <-> i = k \/ i ∈ merged.*1.
Proof.
  induction merged as [|[k' e] merged IH]; simpl; [by rewrite list_elem_of_singleton, elem_of_nil; tauto|].
  case_bool_decide as Hk; rewrite !fmap_cons, !elem_of_cons; simpl; [subst; tauto|]. rewrite IH. tauto.
Qed.

Lemma keep_best_elem k point merged i p :
  NoDup merged.*1 -> (i, p) ∈ keep_best k point merged ->
  ((i, p) ∈ merged /\ (i = k -> (pt_score point <= pt_score p)%Q))
  \/ (i = k /\ p = point /\ forall e, (k, e) ∈ merged -> (pt_score e <= pt_score point)%Q).
Proof.
  induction merged as [|[k' e] merged IH]; simpl; intros Hnd Hin.
  { apply list_elem_of_singleton in Hin as [= -> ->]. right. split_and!; [done..|]. by intros e ?%elem_of_nil. }
  apply NoDup_cons in Hnd as [Hfresh Hnd]. case_bool_decide as Hk.
  - subst k'. apply elem_of_cons in Hin as [[= -> ->]|Hin].
    + destruct (pt_score e <?q pt_score point) eqn:Hs; q_reflect.
      * right. split_and!; [done..|]. intros e' [[= ->]|Hin]%elem_of_cons; [lra|].
        destruct Hfresh. apply list_elem_of_fmap. by exists (k, e').
      * left. split; [by left|]. intros _. lra.
    + left. split; [by right|]. intros ->. destruct Hfresh. apply list_elem_of_fmap. by exists (k, p).
  - apply elem_of_cons in Hin as [[= -> ->]|Hin]; [left; split; [by left|done]|].
    destruct (IH Hnd Hin) as [[? ?]|(-> & -> & He)]; [left; split; [by right|done]|right].
    split_and!; [done..|]. intros e' [[= <- _]|Hin']%elem_of_cons; [done|by apply He].
Qed.

Lemma keep_best_distinct k point merged : NoDup merged.*1 -> NoDup (keep_best k point merged).*1.
Proof.
  induction merged as [|[k' e] merged IH]; simpl; intros Hnd; [apply NoDup_singleton|].
  apply NoDup_cons in Hnd as [Hfresh Hnd]. case_bool_decide as Hk; rewrite fmap_cons; constructor; simpl; try done.
  - rewrite keep_best_keys. by intros [->|?].
  - by apply IH.
Qed.

Lemma keep_best_gathered seen merged k point :
  gathered seen merged -> _point_memory_id point = Some k -> gathered (seen ++ [point]) (keep_best k point merged).
Proof.
  intros [Hnd Hp Hc] Hk. split; [by apply keep_best_distinct| |].
  - intros i p [[Hin Hbest]|(-> & -> & Hbest)]%keep_best_elem; [| |done].
    + destruct (Hp i p Hin) as (? & ? & Hmax). split; [apply elem_of_app; by left|]. split; [done|].
      intros q [Hq| ->%list_elem_of_singleton]%elem_of_app Hqi; [by apply Hmax|]. apply Hbest. congruence.
    + split; [apply elem_of_app; right; by left|]. split; [done|].
      intros q [Hq| ->%list_elem_of_singleton]%elem_of_app Hqk; [|lra].
      destruct (Hc q k Hq Hqk) as [e He]. destruct (Hp k e He) as (_ & _ & Hmax).
      specialize (Hbest e He). specialize (Hmax q Hq Hqk). lra.
  - assert (forall i, i ∈ (keep_best k point merged).*1 -> exists p, (i, p) ∈ keep_best k point merged) as Hkey.
    { intros i ([i' p] & -> & ?)%list_elem_of_fmap. by exists p. }
    intros q i Hq Hi. apply Hkey, keep_best_keys.
    apply elem_of_app in Hq as [Hq| ->%list_elem_of_singleton]; [right|left; congruence].
    destruct (Hc q i Hq Hi) as [p Hin]. apply list_elem_of_fmap. by exists (i, p).
Qed.

Lemma merged_gathered points : forall seen merged,
  gathered seen merged ->
  gathered (seen ++ points)
    (fold_left (fun merged point => match _point_memory_id point with
                                    | None => merged
                                    | Some point_id => keep_best point_id point merged
                                    end) points merged).
Proof.
  induction points as [|point points IH]; intros seen merged Hg; simpl; [by rewrite app_nil_r|].
  rewrite (cons_middle point), app_assoc. apply IH.
  destruct (_point_memory_id point) as [k|] eqn:Hk; [by apply keep_best_gathered|].
  destruct Hg as [Hnd Hp Hc]. split; [done| |].
  - intros i p Hin. destruct (Hp i p Hin) as (? & ? & Hmax). split; [apply elem_of_app; by left|]. split; [done|].
    intros q [Hq| ->%list_elem_of_singleton]%elem_of_app Hqi; [by apply Hmax|congruence].
  - intros q i [Hq| ->%list_elem_of_singleton]%elem_of_app Hi; [by eapply Hc|congruence].
Qed.

(** Merging the searches of several categories yields the best point of
    each memory: the points kept come in descending score, at most as many as
    asked for, no two of the same memory; every point of a memory is matched by
    a kept point of that memory scoring at least as much, or the page is full
    of points that score at least as much. *)
Theorem merged_points_are_the_best_of_each_memory points (limit : nat) :
  let kept := merge_points points (Z.of_nat limit) in
  StronglySorted (fun a b => pt_score b <= pt_score a)%Q kept
  /\ NoDup (_point_memory_id <$> kept) /\ (length kept <= limit)%nat
  /\ (forall p, p ∈ kept -> p ∈ points)
  /\ forall q k, q ∈ points -> _point_memory_id q = Some k ->
       (exists p, p ∈ kept /\ _point_memory_id p = Some k /\ (pt_score q <= pt_score p)%Q)
       \/ (length kept = limit /\ forall p, p ∈ kept -> (pt_score q <= pt_score p)%Q).
Proof.
  destruct (merged_gathered points [] []) as [Hnd Hp Hc].
  { split; [constructor|by intros k p ?%elem_of_nil|by intros q k ?%elem_of_nil]. }
  unfold merge_points. set (merged := fold_left _ _ _) in *. simpl in *.
  assert (Some <$> merged.*1 = _point_memory_id <$> merged.*2) as Hids.
  { clear -Hp. induction merged as [|[k p] merged IH]; [done|]. rewrite !fmap_cons. f_equal.
    - symmetry. apply (Hp k p). by left.
    - apply IH. intros k' p' Hin. apply Hp. by right. }
  unfold py_slice. rewrite (proj2 (Z.ltb_ge _ _)) by lia. rewrite Nat2Z.id.
  set (sorted := sort_by _ _).
  assert (sorted ≡ₚ merged.*2) as Hperm by apply sort_by_perm.
  assert (StronglySorted (fun a b => pt_score b <= pt_score a)%Q sorted) as Hsorted by apply sort_by_descending.
  assert (forall p, p ∈ sorted -> exists k, (k, p) ∈ merged) as Hin.
  { intros p. rewrite Hperm. intros ([k p'] & -> & ?)%list_elem_of_fmap. by exists k. }
  split_and!.
  - eapply StronglySorted_sublist; [apply sublist_take|done].
  - eapply sublist_NoDup; [|apply fmap_sublist, sublist_take]. rewrite Hperm, <- Hids.
    by apply NoDup_fmap_2; [intros ?? [=]|].
  - rewrite length_take. lia.
  - intros p Hpk. apply elem_of_take in Hpk as (i & Hi & _). apply list_elem_of_lookup_2, Hin in Hi as [k Hk].
    by apply (Hp k p).
  - intros q k Hq Hk. destruct (Hc q k Hq Hk) as [p Hpm]. destruct (Hp k p Hpm) as (_ & Hpk & Hbest).
    assert (p ∈ sorted) as Hps by (rewrite Hperm; apply list_elem_of_fmap; by exists (k, p)).
    rewrite <- (take_drop limit sorted), elem_of_app in Hps. destruct Hps as [Hps|Hps].
    + left. exists p. split_and!; [done..|]. by apply Hbest.
    + right. split.
      * apply list_elem_of_lookup_1 in Hps as [i Hi]. apply lookup_lt_Some in Hi. rewrite length_drop in Hi.
        rewrite length_take. lia.
      * intros p' Hp'. rewrite <- (take_drop limit sorted) in Hsorted.
        eapply StronglySorted_app_1_elem_of in Hsorted; [|exact Hp'|exact Hps].
        specialize (Hbest q Hq Hk). simpl in Hsorted. lra.
Qed.

(** ** The result cache *)

(** Printed instants and UUIDs are not empty. *)
Definition printing_law : Prop := (forall u, uuid_str u <> EmptyString) /\ (forall t, isoformat t <> EmptyString).

Lemma given_text_read k o (s : option string) :
  (forall x, s = Some x -> x <> EmptyString) -> jget_or_null k o = opt_json JStr s -> given_text k o = s.
Proof. intros Hs Ho. unfold given_text. rewrite Ho. destruct s as [[|c x]|]; [by destruct (Hs "")|done..]. Qed.

Lemma printed {A} (f : A -> string) (o : option A) :
  (forall a, f a <> EmptyString) -> forall x, f <$> o = Some x -> x <> EmptyString.
Proof. intros Hf x Hx. apply fmap_Some in Hx as (a & _ & ->). apply Hf. Qed.

Definition texts (r : MemoryResult) : list (option string) :=
  [mr_agent_id r; mr_previous_version_id r; mr_last_accessed_at r; mr_created_at r; mr_source_event_id r;
   mr_effective_from r; mr_effective_until r].

Lemma asdict_read r :
  Forall (fun o => forall x, o = Some x -> x <> EmptyString) (texts r) ->
  (mr_provenance r = JNull \/ exists kv p, mr_provenance r = JObj (kv :: p)) ->
  _memory_result_from_cache (asdict r) = Some r.
Proof.
  destruct r. unfold texts. cbn. intros Htexts Hprov.
  repeat match goal with H : Forall _ (_ :: _) |- _ => apply Forall_cons in H as [? H] end.
  unfold _memory_result_from_cache.
  repeat (erewrite given_text_read; [| |reflexivity]; [|eassumption]).
  by destruct Hprov as [->|(kv & p & ->)].
Qed.

(** What a request remembers about a memory in the result cache is read
    back as it was: scores, identifiers, instants, and a stored provenance that
    is an object with entries, or none. *)
Theorem cached_result_round_trip `{Hashing} m score now r :
  printing_law -> (provenance_of m = JNull \/ exists kv p, provenance_of m = JObj (kv :: p)) ->
  _memory_to_result m score now = Some r -> _memory_result_from_cache (asdict r) = Some r.
Proof.
  intros [Huuid Hiso] Hprov Hr. unfold _memory_to_result in Hr.
  apply bind_Some in Hr as (prov & Hp & [= <-]).
  assert (prov = JNull \/ exists kv p, prov = JObj (kv :: p)) as Hshape.
  { unfold preference_provenance in Hp. destruct Hprov as [E|(kv & p & E)]; rewrite E in Hp.
    - injection Hp as <-. by left.
    - right. apply bind_Some in Hp as ([d|] & _ & Hp); injection Hp as <-; [|by exists kv, p].
      destruct kv as [k v]. unfold jset. case_bool_decide; by eexists _, _. }
  apply asdict_read; [|exact Hshape]. unfold texts.
  repeat constructor; cbn; try (by apply printed). intros x [= <-]. apply Hiso.
Qed.
End Ranking.

Lemma unary_printing_law : @printing_law unary_uuids.
Proof. split; intros; discriminate. Qed.

Lemma cached_result_round_trip_witness :
  exists r, mr_provenance r <> JNull /\ @_memory_result_from_cache unary_uuids (@asdict r) = Some r.
Proof.
  destruct (@_memory_to_result unary_uuids hold_hashing ex_pref_memory (9 # 10) 5%Z) as [r|] eqn:Hr; [|discriminate Hr].
  exists r. split; [revert Hr; vm_compute; intros [= <-]; discriminate|].
  apply (@cached_result_round_trip unary_uuids hold_hashing ex_pref_memory (9 # 10) 5%Z r);
    [exact unary_printing_law|right; eexists _, _; reflexivity|exact Hr].
Defined.
