(* ===== verification/RetrieverTheorems.v ===== *)
(** * Retrieval: theorems

    What a reader is shown: only memories that the database, as the request
    itself saw it, holds as live and current memories of that reader, whatever
    caches, index and embedder answer. *)

From S2P Require Export Retriever RuntimeHoldTheorems.

(** ** Runs of the service

    [runs lo m Q]: from any state that has issued at least [lo] statements, [m]
    keeps what a request has resolved, and what it returns satisfies [Q]. *)

Record frame (s s' : Svc) : Prop := {
  fr_statements : (statements s <= statements s')%nat;
  fr_snapshot : in_snapshot s' = in_snapshot s;
  fr_resolved : _resolved_read_proxy_id s' = _resolved_read_proxy_id s;
  fr_mode : last_quota_mode s' = last_quota_mode s;
}.

#[export] Instance frame_preorder : PreOrder frame.
Proof. split; [by intros s; split|]. intros s1 s2 s3 [] []. split; [lia|congruence..]. Qed.

Definition runs {A} (lo : nat) (m : RM A) (Q : A -> Prop) : Prop :=
  forall s, (lo <= statements s)%nat -> frame s (m s).1 /\ forall a, (m s).2 = inr a -> Q a.

Create HintDb retrieval.

Section Rules.
Variable lo : nat.

Lemma runs_ret {A} (a : A) (Q : A -> Prop) : Q a -> runs lo (mret a) Q.
Proof. intros Ha s _. split; [done|]. by intros a' [= <-]. Qed.

Lemma runs_raise {A} exc (Q : A -> Prop) : runs lo (raise_st exc) Q.
Proof. intros s _. by split. Qed.

Lemma runs_mono {A} (m : RM A) (Q Q' : A -> Prop) : runs lo m Q -> (forall a, Q a -> Q' a) -> runs lo m Q'.
Proof. intros Hm HQ s Hs. destruct (Hm s Hs) as [Hf Hr]. split; [done|]. auto. Qed.

Lemma runs_bind {A B} (m : RM A) (k : A -> RM B) (Q : A -> Prop) (Q' : B -> Prop) :
  runs lo m Q -> (forall a, Q a -> runs lo (k a) Q') -> runs lo (m ≫= k) Q'.
Proof.
  intros Hm Hk s Hs. destruct (Hm s Hs) as [Hf Hr]. unfold mbind, M_bind.
  destruct (m s) as [s1 [exc|a]]; simpl in *; [by split|].
  destruct (Hk a (Hr a eq_refl) s1) as [Hf' Hr']; [destruct Hf; lia|].
  split; [by etransitivity|done].
Qed.

Lemma runs_seq {A B} (m : RM A) (k : RM B) (Q : B -> Prop) :
  runs lo m (fun _ => True) -> runs lo k Q -> runs lo (m ≫= fun _ => k) Q.
Proof. intros Hm Hk. eapply runs_bind; [exact Hm|]. by intros. Qed.

Lemma runs_modify f (Q : unit -> Prop) : (forall s, frame s (f s)) -> Q tt -> runs lo (modify_st f) Q.
Proof. intros Hf HQ s _. split; [apply Hf|]. by intros [] _. Qed.

Lemma runs_get (Q : Svc -> Prop) : (forall s, Q s) -> runs lo get_st Q.
Proof. intros HQ s _. split; [done|]. by intros a [= <-]. Qed.

Lemma runs_lift {A} (r : res A) (Q : A -> Prop) : (forall a, r = inr a -> Q a) -> runs lo (lift r) Q.
Proof. intros HQ. destruct r as [exc|a]; [apply runs_raise|]. by apply runs_ret, HQ. Qed.

Lemma runs_any {A} (m : RM A) : runs lo m (fun _ => True) <-> forall s, (lo <= statements s)%nat -> frame s (m s).1.
Proof. split; [intros Hm s Hs; by destruct (Hm s Hs)|]. intros Hm s Hs. split; [by apply Hm|done]. Qed.

Lemma runs_catching {A} (body : RM A) handler (Q : A -> Prop) :
  runs lo body Q -> (forall exc, runs lo (handler exc) Q) -> runs lo (catching body handler) Q.
Proof.
  intros Hb Hh s Hs. destruct (Hb s Hs) as [Hf Hr]. unfold catching.
  destruct (body s) as [s1 [exc|a]]; simpl in *; [|by split].
  destruct (Hh exc s1) as [Hf' Hr']; [destruct Hf; lia|]. split; [by etransitivity|done].
Qed.

Lemma runs_collect {A B} (f : A -> RM B) (l : list A) (Q : B -> Prop) :
  (forall a, a ∈ l -> runs lo (f a) Q) -> runs lo (collect f l) (Forall Q).
Proof.
  induction l as [|a l IH]; intros Hf; simpl; [apply runs_ret; constructor|].
  eapply runs_bind; [apply Hf, list_elem_of_here|]. intros b Hb.
  eapply runs_bind; [apply IH; intros; by apply Hf, list_elem_of_further|]. intros bs Hbs.
  apply runs_ret. by constructor.
Qed.

Lemma runs_if {A} (b : bool) (m1 m2 : RM A) (Q : A -> Prop) :
  (b = true -> runs lo m1 Q) -> (b = false -> runs lo m2 Q) -> runs lo (if b then m1 else m2) Q.
Proof. destruct b; auto. Qed.
End Rules.

(** A step that only sets attributes, or announces something. *)
Ltac attr := apply runs_modify; [intros ?; by split|done].

Lemma runs_degraded lo v : runs lo (degraded v) (fun _ => True).
Proof. attr. Qed.
Lemma runs_set_hit lo b : runs lo (set_hit b) (fun _ => True).
Proof. attr. Qed.
Lemma runs_set_degraded lo : runs lo set_degraded (fun _ => True).
Proof. attr. Qed.
Lemma runs_queue lo ids : runs lo (_queue_access_update ids) (fun _ => True).
Proof. destruct ids; [by apply runs_ret|attr]. Qed.
Lemma runs_visibility lo v : runs lo (set_visibility v) (fun _ => True).
Proof. attr. Qed.
Lemma runs_clear lo : runs lo clear_decisions (fun _ => True).
Proof. attr. Qed.
Lemma runs_forget lo : runs lo forget_choices (fun _ => True).
Proof. attr. Qed.
#[export] Hint Resolve runs_degraded runs_set_hit runs_set_degraded runs_queue runs_visibility runs_clear
  runs_forget runs_raise : retrieval.

(** ** Ranking only selects *)

Lemma ranked_elem r rs : r ∈ ranked rs <-> r ∈ rs.
Proof. unfold ranked. by rewrite sort_by_perm. Qed.

Lemma deduplicate_elem candidates kept r :
  r ∈ deduplicate candidates kept -> r ∈ candidates \/ r ∈ kept.
Proof.
  revert kept. induction candidates as [|c candidates IH]; intros kept; simpl; [by right|].
  destruct (existsb _ kept).
  - intros [?|?]%IH; [left; by right|by right].
  - intros [?|Hr]%IH; [left; by right|].
    apply elem_of_app in Hr as [?| ->%list_elem_of_singleton]; [by right|left; by left].
Qed.

Lemma deduplicated_ranked_elem rs r : r ∈ deduplicated_ranked rs -> r ∈ rs.
Proof.
  unfold deduplicated_ranked, _deduplicate_results. rewrite ranked_elem.
  intros [Hr|?%elem_of_nil]%deduplicate_elem; [by rewrite ranked_elem in Hr|done].
Qed.

Lemma merge_loop_elem results limit merged r :
  r ∈ merge_loop results limit merged -> r ∈ results \/ r ∈ merged.
Proof.
  revert merged. induction results as [|x results IH]; intros merged; simpl; [by right|].
  case_bool_decide; [intros [?|?]%IH; [left; by right|by right]|].
  assert (forall y, y ∈ merged ++ [x] -> y ∈ x :: results \/ y ∈ merged) as Hx.
  { intros y [?| ->%list_elem_of_singleton]%elem_of_app; [by right|left; by left]. }
  destruct (_ <=? _)%Z; [by apply Hx|]. intros [?|?%Hx]%IH; [left; by right|done].
Qed.

Lemma merge_elem hot other limit r :
  r ∈ _merge_hot_tier_results hot other limit -> r ∈ hot \/ r ∈ other.
Proof. intros [Hr|?%elem_of_nil]%merge_loop_elem; [by apply elem_of_app in Hr|done]. Qed.

Lemma py_slice_elem {A} n (l : list A) x : x ∈ py_slice n l -> x ∈ l.
Proof. unfold py_slice. destruct (_ <? _)%Z; intros Hx; eapply elem_of_take in Hx as (? & ? & ?); by eapply list_elem_of_lookup_2. Qed.

Section Forall.
Context (P : MemoryResult -> Prop).

Lemma Forall_sub (l l' : list MemoryResult) : (forall r, r ∈ l' -> r ∈ l) -> Forall P l -> Forall P l'.
Proof. rewrite !Forall_forall. auto. Qed.

Lemma Forall_dedup rs : Forall P rs -> Forall P (deduplicated_ranked rs).
Proof. apply Forall_sub, deduplicated_ranked_elem. Qed.
Lemma Forall_merge hot other limit :
  Forall P hot -> Forall P other -> Forall P (_merge_hot_tier_results hot other limit).
Proof. rewrite !Forall_forall. intros Hh Ho r [?|?]%merge_elem; auto. Qed.
Lemma Forall_slice n rs : Forall P rs -> Forall P (py_slice n rs).
Proof. apply Forall_sub, py_slice_elem. Qed.
Lemma Forall_filter_res (Q : MemoryResult -> Prop) `{forall r, Decision (Q r)} rs :
  Forall P rs -> Forall P (filter Q rs).
Proof. apply Forall_sub. intros r Hr. by apply list_elem_of_filter in Hr as [_ ?]. Qed.
End Forall.
#[export] Hint Resolve Forall_dedup Forall_merge Forall_slice Forall_filter_res Forall_nil_2 : retrieval.

(** ** What SQL confirms *)

Section Served.
Context `{PyLib} `{Hashing}.
Variable e : Env.
Variable lo : nat.
Abbreviation now := (e_now e).
Abbreviation settings := (e_settings e).

(** A database state some statement of the request saw, or its snapshot. *)
Definition seen (db : ReadDb) : Prop := db = e_snapshot e \/ exists n, (lo <= n)%nat /\ db = e_db e n.

Lemma runs_sql {A} (q : ReadDb -> A) (Q : A -> Prop) : (forall db, seen db -> Q (q db)) -> runs lo (sql e q) Q.
Proof.
  intros HQ s Hs. unfold sql. destruct (in_snapshot s) eqn:E.
  - split; [done|]. intros a [= <-]. apply HQ. by left.
  - split; [split; simpl; (lia || done)|]. intros a [= <-]. apply HQ. right. by exists (statements s).
Qed.

(** A row the queries of this reader may return. *)
Record eligible (o : read_owner) (f : Filters) (db : ReadDb) (m : Memory) : Prop := {
  el_row : m ∈ rows (rd_memories db);
  el_owner : exists id, owner_uuid o = inr id /\ owns o id m = true;
  el_legacy : legacy_memory_predicate m = true;
  el_filters : exists agent, agent_uuid f = inr agent /\ passes_filters f agent m = true;
}.

Definition live (m : Memory) : Prop := m_is_archived m = false /\ _memory_is_current m now = true.

Record shows (r : MemoryResult) (m : Memory) : Prop := {
  sh_id : mr_id r = uuid_str (m_id m);
  sh_content : mr_content r = m_content m;
  sh_category : mr_category r = MemoryCategory.value (m_category m);
}.

(** The result shows a memory the database held for this reader. *)
Definition confirmed (o : read_owner) (f : Filters) (r : MemoryResult) : Prop :=
  exists db m, seen db /\ eligible o f db m /\ live m /\ shows r m.

Lemma runs_select o f chosen :
  runs lo (select_memories e o f chosen) (fun ms => exists db, seen db /\
    forall m, m ∈ ms -> eligible o f db m /\ chosen db m = true).
Proof.
  unfold select_memories. eapply runs_bind; [apply runs_lift; intros id Hid; exact Hid|].
  intros id Hid. eapply runs_bind; [apply runs_lift; intros a Ha; exact Ha|]. intros agent Hagent.
  apply runs_sql. intros db Hdb. exists db. split; [done|].
  intros m [Hm Hrow]%list_elem_of_filter. rewrite !andb_true_iff in Hm. destruct Hm as [[[? ?] ?] ?].
  split; [|done]. split; [done|by exists id|done|by exists agent].
Qed.

Definition by_id_spec (o : read_owner) (f : Filters) (archived_too : bool) (memories : gmap string Memory) : Prop :=
  exists db, seen db /\ forall k m, memories !! k = Some m ->
    eligible o f db m /\ (archived_too = false -> m_is_archived m = false) /\ k = uuid_str (m_id m).

Lemma by_id_lookup ms k m : by_id ms !! k = Some m -> m ∈ ms /\ k = uuid_str (m_id m).
Proof.
  intros Hk%elem_of_list_to_map_2. apply list_elem_of_fmap in Hk as (m' & [= -> ->] & ?). done.
Qed.

Lemma seen_snapshot : seen (e_snapshot e).
Proof. by left. Qed.

Lemma runs_fetch o ids f tenant :
  runs lo (fetch_by_ids e o ids f tenant) (by_id_spec o f false).
Proof.
  assert (forall o (ids' : list uuid) t, runs lo (memories ← select_memories e o f (among ids' t); mret (by_id memories))
    (by_id_spec o f false)) as Hsel.
  { intros o' ids' t. eapply runs_bind; [apply runs_select|]. intros ms (db & Hdb & Hms).
    apply runs_ret. exists db. split; [done|]. intros k m [Hm ->]%by_id_lookup.
    destruct (Hms m Hm) as [? Ham]. split; [done|]. split; [|done]. intros _.
    unfold among in Ham. rewrite !andb_true_iff, negb_true_iff in Ham. tauto. }
  assert (by_id_spec o f false ∅) as Hempty by (exists (e_snapshot e); split; [by left|done]).
  destruct o as [p|u]; unfold fetch_by_ids, _fetch_memories_by_ids, _fetch_memories_by_ids_for_user;
    destruct (_bounded_memory_ids ids) as [|i ids']; try by apply runs_ret.
  - apply runs_seq; [|apply Hsel]. apply runs_modify; [|done].
    intros s. destruct (_preference_discovery_active s); [by split|done].
  - apply Hsel.
Qed.

Lemma memory_to_result_shows m score r : _memory_to_result m score now = Some r -> shows r m.
Proof.
  unfold _memory_to_result. intros Hr. apply bind_Some in Hr as (p & _ & [= <-]). by split.
Qed.

Lemma result_of_shows m provenance score : shows (result_of m provenance score now) m.
Proof. by split. Qed.

Lemma runs_to_result m score : runs lo (to_result e m score) (fun r => shows r m).
Proof.
  apply runs_lift. intros r Hr. unfold raises in Hr.
  destruct (_memory_to_result m score now) as [r'|] eqn:E; simplify_eq. by eapply memory_to_result_shows.
Qed.

(** Results made of live eligible memories. *)
Lemma runs_collect_results {A} o f (memory : A -> Memory) (score : A -> Q) (l : list A) :
  (forall a, a ∈ l -> exists db, seen db /\ eligible o f db (memory a) /\ live (memory a)) ->
  runs lo (collect (fun a => to_result e (memory a) (score a)) l) (Forall (confirmed o f)).
Proof.
  intros Hl. apply runs_collect. intros a Ha. eapply runs_mono; [apply runs_to_result|].
  intros r Hr. destruct (Hl a Ha) as (db & ? & ? & ?). by exists db, (memory a).
Qed.

Lemma runs_hydrate candidates o f tenant :
  runs lo (_hydrate_current_results e candidates o f tenant) (Forall (confirmed o f)).
Proof.
  unfold _hydrate_current_results. destruct candidates as [|c cs]; [by apply runs_ret|].
  eapply runs_bind; [apply runs_fetch|]. intros memories (db & Hdb & Hmem).
  eapply runs_bind; [|intros rs Hrs; apply runs_ret, Forall_dedup, Hrs].
  apply (runs_collect_results o f snd (fun rm => mr_semantic_score rm.1)).
  intros [row m] Hin. apply list_elem_of_omap in Hin as (x & Hx & Heq).
  destruct (memories !! mr_id x) as [m'|] eqn:Hm; simpl in Heq; [|done].
  destruct (_memory_is_current m' now) eqn:Hcur; simplify_eq.
  destruct (Hmem _ _ Hm) as (? & ? & ?). exists db. split; [done|]. split; [done|]. split; auto.
Qed.

Lemma cold_confirmed o f db ms :
  seen db -> (forall m, m ∈ ms -> eligible o f db m /\ unarchived db m = true) ->
  Forall (confirmed o f) (as_cold_result e <$> filter (fun m => _memory_is_current m now = true) ms).
Proof.
  intros Hdb Hms. apply Forall_fmap, Forall_forall. intros m [Hcur Hm]%list_elem_of_filter.
  destruct (Hms m Hm) as [? Har]. exists db, m. split; [done|]. split; [done|].
  split; [|apply result_of_shows]. split; [|done]. by apply negb_true_iff.
Qed.

Lemma runs_cold_start o limit f :
  runs lo (_retrieve_cold_start_memories e o limit f) (Forall (confirmed o f)).
Proof.
  eapply runs_bind; [apply runs_select|]. intros ms (db & Hdb & Hms).
  apply runs_ret, Forall_slice, Forall_dedup. by eapply cold_confirmed.
Qed.

Lemma runs_fallback o limit f : runs lo (_retrieve_postgres_fallback e o limit f) (Forall (confirmed o f)).
Proof.
  unfold _retrieve_postgres_fallback. destruct (_ <=? _)%Z; [by apply runs_ret|].
  eapply runs_bind; [apply runs_select|]. intros ms (db & Hdb & Hms).
  apply (runs_collect_results o f (fun m => m) (fun _ => 0%Q)).
  intros m [Hcur Hm]%list_elem_of_filter. apply py_slice_elem in Hm. rewrite sort_by_perm in Hm.
  destruct (Hms m Hm) as [? Har]. exists db. split; [done|]. split; [done|].
  split; [by apply negb_true_iff|done].
Qed.

(** *** Caches, counters and the index answer anything *)

Lemma runs_l1 key results : runs lo (_set_l1_cache e key results) (fun _ => True).
Proof. attr. Qed.

Lemma runs_cached user context : runs lo (_get_cached_results e user context) (fun _ => True).
Proof.
  unfold _get_cached_results. eapply runs_bind; [by apply (runs_get lo (fun _ => True))|]. intros s _.
  destruct (if _preference_discovery_active s then None else _); [by apply runs_ret|].
  apply runs_seq; [destruct (_preference_discovery_active s); [by apply runs_ret|attr]|].
  assert (forall key page, runs lo (results_of_page e key page) (fun _ => True)) as Hpage.
  { intros key page. unfold results_of_page. destruct (mapM _ _); [|by apply runs_ret].
    apply runs_seq; [apply runs_l1|by apply runs_ret]. }
  destruct (e_retrieval_page e user context) as [[|x page]|]; [by apply runs_ret| |by apply runs_ret].
  destruct (_preference_discovery_active s); [|apply Hpage].
  destruct (page_nominations (x :: page)) as [[ids cold]|]; [|by apply runs_ret].
  apply runs_seq; [attr|apply Hpage].
Qed.

Lemma runs_cache_results user results context : runs lo (_cache_results e user results context) (fun _ => True).
Proof.
  unfold _cache_results. eapply runs_bind; [by apply (runs_get lo (fun _ => True))|]. intros s _.
  apply runs_seq; [apply runs_l1|attr].
Qed.

Lemma runs_hot_tier o f : runs lo (_get_hot_tier_results e o f) (fun _ => True).
Proof.
  unfold _get_hot_tier_results. destruct o as [p|u]; [|by apply runs_ret].
  eapply runs_bind; [by apply (runs_get lo (fun _ => True))|]. intros s _.
  destruct (live_entry _ _ _); [by apply runs_ret|]. apply runs_seq; [attr|].
  destruct (e_hot_tier e p); [|by apply runs_ret]. apply runs_seq; [attr|by apply runs_ret].
Qed.

Lemma runs_count o : runs lo (count_memories e o) (fun _ => True).
Proof.
  unfold count_memories. eapply runs_bind; [by apply (runs_get lo (fun _ => True))|]. intros s _.
  destruct (live_entry _ _ _); [by apply runs_ret|]. apply runs_seq; [attr|].
  eapply runs_bind; [by apply (runs_lift lo _ (fun _ => True))|]. intros id _.
  eapply runs_bind; [by apply (runs_sql _ (fun _ => True))|]. intros n _.
  apply runs_seq; [attr|by apply runs_ret].
Qed.

Lemma runs_model_ids o : runs lo (_candidate_embedding_model_ids e o) (fun _ => True).
Proof.
  unfold _candidate_embedding_model_ids. eapply runs_bind; [by apply (runs_get lo (fun _ => True))|]. intros s _.
  destruct (live_entry _ _ _); [by apply runs_ret|]. apply runs_seq; [attr|].
  eapply runs_bind; [by apply (runs_lift lo _ (fun _ => True))|]. intros id _.
  eapply runs_bind; [by apply (runs_sql _ (fun _ => True))|]. intros found _.
  eapply runs_bind.
  { destruct (filter _ found); [|by apply (runs_ret lo _ (fun _ => True))].
    eapply runs_bind; [by apply (runs_lift lo _ (fun _ => True))|]. intros. by apply runs_ret. }
  intros ids _. apply runs_seq; [attr|by apply runs_ret].
Qed.

Lemma runs_search o f tenant limit archived embedding :
  runs lo (_search_qdrant e o f tenant limit archived embedding) (fun _ => True).
Proof.
  assert (forall args, runs lo (_search_memories e args) (fun _ => True)) as Hs by (intros; by apply runs_lift).
  unfold _search_qdrant. destruct (fi_categories f) as [|c [|c' cs]]; [apply Hs..|].
  eapply runs_bind; [apply (runs_collect lo _ _ (fun _ => True)); intros; apply Hs|].
  intros. by apply runs_ret.
Qed.

Lemma runs_embed query model_id : runs lo (_embed_query e query model_id) (fun _ => True).
Proof.
  unfold _embed_query, _finish_read_transaction. apply runs_seq.
  - destruct (e_session_clean e); [by apply runs_ret|apply runs_raise].
  - eapply runs_bind; [by apply (runs_lift lo _ (fun _ => True))|]. intros. by apply runs_ret.
Qed.

Lemma runs_embed_all query ids : runs lo (embed_all e query ids) (fun _ => True).
Proof.
  apply runs_catching; [|intros; apply runs_raise].
  eapply runs_mono; [apply (runs_collect lo _ _ (fun _ => True)); intros; apply runs_embed|done].
Qed.

Lemma runs_pending owner tenant : runs lo (_source_index_pending e owner tenant) (fun _ => True).
Proof. by apply runs_sql. Qed.
End Served.
#[export] Hint Resolve runs_cached runs_cache_results runs_hot_tier runs_count runs_model_ids runs_search
  runs_embed_all runs_hydrate runs_cold_start runs_fallback runs_pending : retrieval.

(** ** The candidate tiers *)

Section Candidates.
Context `{PyLib} `{Hashing}.
Variable e : Env.
Variable lo : nat.
Abbreviation now := (e_now e).
Abbreviation confirmed := (confirmed e lo).

Lemma runs_answer identity context results (Q : list MemoryResult -> Prop) :
  Q results -> runs lo (answer_and_cache e identity context results) Q.
Proof.
  intros HQ. unfold answer_and_cache.
  apply runs_seq; [apply runs_queue|]. apply runs_seq; [apply runs_cache_results|]. by apply runs_ret.
Qed.

Lemma runs_degraded_answer o limit f identity context hot :
  Forall (confirmed o f) hot ->
  runs lo (degraded_answer e o limit f identity context hot) (Forall (confirmed o f)).
Proof.
  intros Hhot. apply runs_seq; [apply runs_set_degraded|].
  eapply runs_bind; [apply runs_fallback|]. intros fallback Hf. by apply runs_answer, Forall_merge.
Qed.

Lemma runs_hot_answer o f limit hot :
  Forall (confirmed o f) hot ->
  runs lo (_queue_access_update (ids_of hot);; mret (py_slice limit hot)) (Forall (confirmed o f)).
Proof. intros Hhot. apply runs_seq; [apply runs_queue|]. by apply runs_ret, Forall_slice. Qed.

Lemma matched_elem memories points p m :
  (p, m) ∈ matched memories points -> exists k, memories !! k = Some m.
Proof.
  intros (x & _ & Hx)%list_elem_of_omap. apply bind_Some in Hx as (i & _ & Hx).
  apply bind_Some in Hx as (m' & Hm & [= _ <-]). by exists i.
Qed.

Lemma runs_semantic rq o f identity context hot :
  Forall (confirmed o f) hot ->
  runs lo (semantic_answer e rq o f identity context hot) (Forall (confirmed o f)).
Proof.
  intros Hhot. unfold semantic_answer. eapply runs_bind; [apply runs_model_ids|]. intros ids _.
  eapply runs_bind; [apply runs_embed_all|]. intros embeddings _.
  eapply runs_bind; [eapply runs_mono; [apply (runs_collect lo _ _ (fun _ => True)); intros; apply runs_search|
                     intros; exact I]|].
  intros points _. eapply runs_bind; [by apply (runs_ret lo _ (fun _ => True))|]. intros now_open _.
  destruct (concat points) as [|p ps].
  { destruct now_open; [by apply runs_degraded_answer|by apply runs_hot_answer]. }
  destruct (filter _ (p :: ps)) as [|p' ps']; [by apply runs_hot_answer|].
  eapply runs_bind; [apply runs_fetch|]. intros memories (db & Hdb & Hmem).
  apply runs_answer, Forall_merge; [done|]. apply Forall_dedup, Forall_fmap, Forall_forall.
  intros [p2 m] [Hcur (k & Hk)%matched_elem]%list_elem_of_filter. destruct (Hmem k m Hk) as (? & Har & _).
  exists db, m. split; [done|]. split; [done|]. split; [|by split]. split; auto.
Qed.

Lemma runs_fresh rq mode proxy o f identity context :
  runs lo (fresh_candidates e rq mode proxy o f identity context) (Forall (confirmed o f)).
Proof.
  unfold fresh_candidates. eapply runs_bind; [apply runs_hot_tier|]. intros nominated _.
  eapply runs_bind; [apply runs_hydrate|]. intros hot Hhot.
  apply runs_if; intros _; [apply runs_seq; [apply runs_set_degraded|by apply runs_hot_answer]|].
  eapply runs_bind.
  { destruct proxy, (rq_tenant_id rq); try by apply (runs_ret lo _ (fun _ => True)). apply runs_pending. }
  intros pending _. apply runs_if; intros _.
  { apply runs_seq; [apply runs_degraded|]. eapply runs_bind; [apply runs_cold_start|]. intros cold Hcold.
    by apply runs_ret, Forall_merge. }
  eapply runs_bind; [apply runs_count|]. intros count _. apply runs_if; intros _.
  { apply runs_seq; [attr|]. eapply runs_bind; [apply runs_cold_start|]. intros cold Hcold.
    by apply runs_answer, Forall_merge. }
  apply runs_if; intros _; [by apply runs_answer, Forall_slice|].
  eapply runs_bind; [by apply (runs_ret lo _ (fun _ => True))|]. intros already_open _.
  apply runs_if; intros _; [by apply runs_degraded_answer|by apply runs_semantic].
Qed.

Lemma runs_verified_cache rq o f identity context :
  runs lo (verified_cache e rq o f identity context) (fun r => forall rs, r = Some rs -> Forall (confirmed o f) rs).
Proof.
  unfold verified_cache. destruct (rq_as_of rq); [by apply runs_ret|].
  eapply runs_bind; [apply runs_cached|]. intros [[|c cs]|] _; try by apply runs_ret.
  eapply runs_bind; [apply runs_hydrate|]. intros verified Hv. apply runs_ret.
  intros rs. destruct (same_page _ _); intros; by simplify_eq.
Qed.

(** *** Declared preferences *)

(** A declared preference that the user's own claim of the same proposition and
    value displays, that no choice holds back and that the agent and time
    filters pass. *)
Definition declared (tenant owner : uuid) (f : Filters) (agent : option string) (r : MemoryResult) : Prop :=
  exists db i c m d, seen e lo db /\ open_to db tenant owner = true
    /\ c ∈ rows (rd_claims db) /\ c_tenant_id c = tenant /\ c_proxy_user_id c = owner
    /\ c_status c = ClaimStatus.active
    /\ c_active_memory_id c = Some i /\ rd_memories db !! i = Some m
    /\ m_proxy_user_id m = owner /\ live e m /\ shows r m
    /\ preference_declaration (provenance_of m) = Some (Some d)
    /\ c_claim_fingerprint c = preference_fingerprint (pc_property_key d) (pc_applicability d)
    /\ held_choice m c = Some false /\ c_active_value c = Some (pc_value d)
    /\ (forall a, agent = Some a -> uuid_str <$> m_agent_id m = Some a)
    /\ (forall t, fi_created_after f = Some t -> (t <= m_created_at m)%Z).

Definition displayed_pair (tenant owner : uuid) (db : ReadDb) (cm : MemoryClaim * option Memory) : Prop :=
  open_to db tenant owner = true /\ cm.1 ∈ rows (rd_claims db)
  /\ c_tenant_id cm.1 = tenant /\ c_proxy_user_id cm.1 = owner
  /\ forall m, cm.2 = Some m -> exists i, c_active_memory_id cm.1 = Some i /\ rd_memories db !! i = Some m.

Lemma preference_rows_displayed db tenant owner fl cm :
  cm ∈ preference_rows db tenant owner fl -> displayed_pair tenant owner db cm.
Proof.
  unfold preference_rows. destruct (open_to _ _ _) eqn:Hopen; [|by intros ?%elem_of_nil].
  intros (c & -> & Hc)%list_elem_of_fmap. split; [done|].
  assert (c ∈ filter (fun c => (bool_decide (c_tenant_id c = tenant) && bool_decide (c_proxy_user_id c = owner)
                                && selects fl c) = true) (rows (rd_claims db))) as Hin.
  { destruct fl; [done|]. by apply elem_of_take in Hc as (? & ? & _); eapply list_elem_of_lookup_2. }
  apply list_elem_of_filter in Hin as [Hsel Hin]. rewrite !andb_true_iff, !bool_decide_eq_true in Hsel.
  destruct Hsel as [[Ht Ho] _]. do 3 (split; [done|]).
  intros m Hm. simpl in Hm. apply bind_Some in Hm as (i & Hi & Hm). by exists i.
Qed.

(** What [read_scope] has checked of the memory it selects. *)
Lemma read_scope_selected f agent owner key scope pair m :
  read_scope e f agent owner key scope pair = inr (Selected m) ->
  exists c d, pair = Some (c, Some m) /\ m_proxy_user_id m = owner /\ live e m
    /\ c_status c = ClaimStatus.active
    /\ preference_declaration (provenance_of m) = Some (Some d) /\ held_choice m c = Some false
    /\ c_active_value c = Some (pc_value d) /\ pc_property_key d = key /\ pc_applicability d = scope
    /\ (forall a, agent = Some a -> uuid_str <$> m_agent_id m = Some a)
    /\ (forall t, fi_created_after f = Some t -> (t <= m_created_at m)%Z).
Proof.
  unfold read_scope. destruct pair as [[c [m'|]]|]; [|by destruct (c_active_memory_id c)|done].
  destruct (c_active_memory_id c); [|done].
  destruct (held_choice m' c) as [[|]|] eqn:Hheld; cbn; [done| |done].
  destruct (bool_decide_reflect (m_proxy_user_id m' = owner)); cbn; [|done].
  destruct (bool_decide_reflect (c_status c ∈ [ClaimStatus.active; ClaimStatus.archived])) as [Hst|]; cbn; [|done].
  destruct (preference_declaration _) as [[d|]|] eqn:Hd; cbn; [|done..].
  destruct (bool_decide_reflect (pc_property_key d = key)); cbn; [|done].
  destruct (bool_decide_reflect (pc_applicability d = scope)); cbn; [|done].
  destruct (bool_decide_reflect (c_active_value c = Some (pc_value d))); cbn; [|done].
  destruct (_ && _) eqn:Harch; [done|].
  destruct (m_is_archived m') eqn:Har; cbn; [done|].
  destruct (_memory_is_current m' now) eqn:Hcur; cbn; [|done].
  destruct (_ || _) eqn:Hfil; [done|]. intros [= <-]. exists c, d.
  apply orb_false_iff in Hfil as [Hagent Htime].
  split_and!; try done.
  - apply andb_false_iff in Harch as [Harch|?]; [|done]. apply bool_decide_eq_false in Harch.
    by apply elem_of_cons in Hst as [?|?%list_elem_of_singleton].
  - intros a ->. by apply negb_false_iff, bool_decide_eq_true in Hagent.
  - intros t Ht. rewrite Ht in Htime. lia.
Qed.

Lemma read_property_selected f agent owner key found scopes m ds :
  read_property e f agent owner key found scopes = inr (Some m, ds) ->
  exists scope, scope ∈ scopes
    /\ read_scope e f agent owner key scope (found !! preference_fingerprint key scope) = inr (Selected m).
Proof.
  induction scopes as [|scope scopes IH]; simpl; [done|].
  destruct (read_scope _ _ _ _ _ _ _) as [exc|[| | |m']] eqn:Hr; cbn; intros Heq; simplify_eq.
  - destruct (IH Heq) as (sc & ? & ?). exists sc. split; [by right|done].
  - exists scope. split; [by left|done].
Qed.

Definition selected_by (found : gmap string (MemoryClaim * option Memory)) (f : Filters) (agent : option string)
    (owner : uuid) (context : PreferenceReadContext) (withheld : gset string) (m : Memory) : Prop :=
  exists key scope, scope ∈ scopes_of context
    /\ (forall sc, sc ∈ scopes_of context -> preference_fingerprint key sc ∉ withheld)
    /\ read_scope e f agent owner key scope (found !! preference_fingerprint key scope) = inr (Selected m).

Lemma read_properties_selected f agent owner context withheld found ks ms ds m :
  read_properties e f agent owner context withheld found ks = inr (ms, ds) -> m ∈ ms ->
  selected_by found f agent owner context withheld m.
Proof.
  revert ms ds. induction ks as [|key ks IH]; intros ms ds; cbn [read_properties].
  { intros [= <- _] ?%elem_of_nil. done. }
  destruct (read_properties _ _ _ _ _ _ _ ks) as [exc|[ms' ds']] eqn:Hrest; cbn [mbind res_bind]; [done|].
  destruct (existsb _ _) eqn:Hheld; [intros [= <- <-]; by eapply IH|].
  destruct (read_property _ _ _ _ _ _ _) as [exc|[one od]] eqn:Hone; cbn [mbind res_bind]; [done|].
  intros [= <- _] [Hm|Hm]%elem_of_app; [|by eapply IH].
  destruct one as [m'|]; cbn in Hm; [|by apply elem_of_nil in Hm]. apply list_elem_of_singleton in Hm as ->.
  apply read_property_selected in Hone as (scope & Hsc & Hread). exists key, scope.
  split; [done|]. split; [|done]. intros sc Hin Hw.
  assert (existsb (fun scope => bool_decide (preference_fingerprint key scope ∈ withheld)) (scopes_of context)
          = true) as Ht; [|by rewrite Ht in Hheld].
  apply existsb_exists. exists sc. split; [by apply list_elem_of_In|by apply bool_decide_eq_true_2].
Qed.

Lemma by_fingerprint_elem found fp cm :
  by_fingerprint found !! fp = Some cm -> cm ∈ found /\ c_claim_fingerprint cm.1 = fp.
Proof.
  intros Hfp%elem_of_list_to_map_2. apply list_elem_of_fmap in Hfp as (cm' & [= -> ->] & Hin).
  split; [|done]. apply list_elem_of_In. apply list_elem_of_In in Hin. by apply in_rev.
Qed.

(** The results a reading of preferences shows, each with its memory. *)
Lemma runs_declared_read context owner tenant cats f agent withheld given :
  (forall l, given = Some l -> exists db, seen e lo db /\ forall cm, cm ∈ l -> displayed_pair tenant owner db cm) ->
  runs lo (declared_preferences_read e context owner tenant cats f agent withheld given)
    (fun read => Forall (fun r => declared tenant owner f agent r /\ exists found m, shows r m
                                  /\ selected_by found f agent owner context withheld m) read.1).
Proof.
  intros Hgiven. unfold declared_preferences_read. apply runs_if; intros _; [|by apply runs_ret].
  eapply (runs_bind lo _ _ (fun found => exists db, seen e lo db
                                         /\ forall cm, cm ∈ found -> displayed_pair tenant owner db cm)).
  { destruct given as [l|]; [by apply runs_ret, Hgiven|].
    apply runs_sql. intros db Hdb. exists db. split; [done|]. intros cm. apply preference_rows_displayed. }
  intros found (db & Hdb & Hfound).
  eapply runs_bind; [apply runs_lift; intros a Ha; exact Ha|]. intros [ms ds] Hsel.
  eapply runs_bind; [|intros rs Hrs; apply runs_ret; exact Hrs].
  apply runs_collect. intros m Hm. eapply runs_mono; [apply runs_to_result|]. intros r Hr.
  pose proof (read_properties_selected _ _ _ _ _ _ _ _ _ _ Hsel Hm) as Hby. split; [|by eexists _, m].
  destruct Hby as (key & scope & _ & _ & Hread).
  apply read_scope_selected in Hread as (c & d & Hpair & ? & ? & ? & ? & ? & ? & <- & <- & ? & ?).
  apply by_fingerprint_elem in Hpair as [Hpair Hfp].
  destruct (Hfound _ Hpair) as (Ho & Hc & Ht & Hu & Hmem). destruct (Hmem m eq_refl) as (i & Hi & Hmi).
  exists db, i, c, m, d. by split_and!.
Qed.
End Candidates.

(** ** The candidates of a request *)

Lemma lower_ascii_idem c : lower_ascii (lower_ascii c) = lower_ascii c.
Proof. by destruct c as [[] [] [] [] [] [] [] []]. Qed.
Lemma py_lower_idem s : py_lower (py_lower s) = py_lower s.
Proof. induction s as [|c s IH]; simpl; [done|]. by rewrite lower_ascii_idem, IH. Qed.

Section Requests.
Context `{PyLib} `{Hashing}.
Variable e : Env.
Variable lo : nat.
Abbreviation confirmed := (confirmed e lo).
Abbreviation declared := (declared e lo).

Lemma runs_preflight rq p : runs lo (preflight e rq p) (fun r => forall rs, r = Some rs -> rs = []).
Proof.
  unfold preflight. destruct (rq_as_of rq), (rq_tenant_id rq), p; try by apply runs_ret.
  eapply runs_bind; [by apply (runs_sql e lo _ (fun _ => True))|]. intros [row|] _.
  - apply runs_if; intros _; [|by apply runs_ret].
    eapply runs_bind; [by apply (runs_sql e lo _ (fun _ => True))|]. intros hold _.
    apply runs_if; intros _; [|by apply runs_ret].
    apply runs_seq; [apply runs_set_hit|]. apply runs_seq; [apply runs_degraded|].
    apply runs_ret. by intros rs [= <-].
  - apply runs_seq; [apply runs_set_hit|]. apply runs_ret. by intros rs [= <-].
Qed.

Lemma runs_candidates_of reader rq identity p ci cc :
  rq_as_of rq = None -> rq_preference_context rq = None ->
  runs lo (candidates_of e reader rq identity p ci cc)
    (Forall (confirmed (owner_of p identity) (filters_of e rq))).
Proof.
  intros Has Hctx. unfold candidates_of. eapply runs_bind; [apply runs_preflight|]. intros [rs|] Hearly.
  { apply runs_ret. by rewrite (Hearly rs eq_refl). }
  apply runs_if; intros _; [by apply runs_ret|]. rewrite Hctx.
  eapply runs_bind; [apply runs_verified_cache|]. intros [rs|] Hcached.
  - apply runs_seq; [apply runs_set_hit|]. apply runs_seq; [apply runs_queue|].
    by apply runs_ret, Forall_slice, Hcached.
  - apply runs_seq; [apply runs_set_hit|]. rewrite Has. apply runs_fresh.
Qed.

Lemma resolve_state rq identity s s2 r : resolve_proxy_user e rq identity s = (s2, r) -> s2 = s.
Proof.
  unfold resolve_proxy_user. destruct (rq_tenant_id rq); [|by intros [= <- _]].
  destruct (e_proxy_service e) as [resolved|]; [|by intros [= <- _]].
  destruct (text_given _); [destruct (_as_uuid _)|destruct resolved]; by intros [= <- _].
Qed.

(** What [_retrieve_candidates_with] has done when it reaches its tiers. *)
Lemma candidates_inv reader rq s s' rs :
  _retrieve_candidates_with e reader rq s = (s', inr rs) ->
  exists identity resolved cc s1, statements s1 = statements s /\ in_snapshot s1 = in_snapshot s
    /\ _resolved_read_proxy_id s1 = resolved.1 /\ last_quota_mode s1 = quota_mode_of e rq
    /\ (exists s2, resolve_proxy_user e rq identity s2 = (s2, inr resolved))
    /\ candidates_of e reader rq identity resolved.1 resolved.2 cc s1 = (s', inr rs).
Proof.
  intros (s1 & [] & [= <-] & Hrun)%M_bind_inv.
  destruct (str_or _ _) as [[|c name]|]; [done| |done].
  apply M_bind_inv in Hrun as (s2 & sa & [= <- <-] & Hrun).
  apply M_bind_inv in Hrun as (s3 & [] & [= <-] & Hrun).
  apply M_bind_inv in Hrun as (s4 & resolved & Hres & Hrun).
  pose proof (resolve_state _ _ _ _ _ Hres) as ->.
  apply M_bind_inv in Hrun as (s5 & [] & [= <-] & Hrun).
  eexists (String c name), resolved, _, _. split; [|split; [|split; [|split; [|split]]]]; cycle 5;
    [exact Hrun|done..|by eexists].
Qed.

Lemma resolve_service rq identity s s2 tenant p ci :
  rq_tenant_id rq = Some tenant -> resolve_proxy_user e rq identity s = (s2, inr (Some p, ci)) ->
  exists r, e_proxy_service e = Some r.
Proof. intros Ht. unfold resolve_proxy_user. rewrite Ht. destruct (e_proxy_service e); [by eexists|done]. Qed.

Lemma resolve_given rq identity s s2 tenant r p resolved :
  uuid_law -> rq_tenant_id rq = Some tenant -> e_proxy_service e = Some r ->
  rq_proxy_user_id rq = Some (uuid_str p) -> resolve_proxy_user e rq identity s = (s2, inr resolved) ->
  resolved.1 = Some p.
Proof.
  intros Hlaw Ht Hr Hp. unfold resolve_proxy_user. rewrite Ht, Hr, Hp. destruct (Hlaw p) as [Hne Hparse].
  destruct (uuid_str p) eqn:Hs; [done|]. cbn -[_as_uuid]. unfold _as_uuid. rewrite Hparse. cbn. by intros [= _ <-].
Qed.

(** Narrower categories confirm more. *)
Lemma confirmed_other rq identity p tenant mode others o r :
  (fi_categories (filters_of e rq) = [] \/ forall c, c ∈ others -> c ∈ fi_categories (filters_of e rq)) ->
  others <> [] ->
  confirmed o (filters_of e (other_request rq identity p tenant mode others)) r ->
  confirmed o (filters_of e rq) r.
Proof.
  intros Hsub Hne (db & m & ? & [? ? ? (agent & Ha & Hf)] & ? & ?).
  exists db, m. split; [done|]. split; [|done]. split; try done. exists agent. split; [exact Ha|].
  revert Hf. unfold passes_filters. rewrite !andb_true_iff. intros [[Hc Hag] Hcr]. split; [split|]; try done.
  cbn in Hc. destruct others as [|c0 others]; [done|]. cbn -[bool_decide] in Hc.
  change (bool_decide (MemoryCategory.value (m_category m) ∈ py_lower <$> c0 :: others) = true) in Hc.
  destruct (fi_categories (filters_of e rq)) as [|c1 cs] eqn:Hcs; [done|].
  destruct Hsub as [?|Hsub]; [done|].
  apply bool_decide_eq_true in Hc. apply bool_decide_eq_true_2.
  apply list_elem_of_fmap in Hc as (c & Hc & Hin). apply Hsub in Hin.
  assert (py_lower c = c) as Hlow; [|by rewrite Hc, Hlow].
  rewrite <- Hcs in Hin. cbn in Hin. apply list_elem_of_fmap in Hin as (c' & -> & _). apply py_lower_idem.
Qed.

(** A result a tenant's reader is shown. *)
Definition served (tenant owner : uuid) (rq : Request) (r : MemoryResult) : Prop :=
  confirmed (ByProxy owner) (filters_of e rq) r \/ declared tenant owner (filters_of e rq) (rq_agent_id rq) r.

Lemma mode_of_value mode : _coerce_quota_mode (QuotaMode.value mode) = mode.
Proof. by destruct mode. Qed.

(** A run started in [s] ended in [s'] with [a], keeping the frame. *)
Lemma runs_apply {A} (m : RM A) (Q : A -> Prop) s s' a :
  runs lo m Q -> (lo <= statements s)%nat -> m s = (s', inr a) -> frame s s' /\ Q a.
Proof. intros Hm Hs Heq. destruct (Hm s Hs) as [Hf Hr]. rewrite Heq in *. auto. Qed.

Lemma declared_candidates rq identity p tenant mode context s s' rs :
  uuid_law -> rq_as_of rq = None -> (exists r, e_proxy_service e = Some r) ->
  (lo <= statements s)%nat -> _resolved_read_proxy_id s = Some p -> last_quota_mode s = mode ->
  _retrieve_declared_preferences e rq identity p tenant mode context s = (s', inr rs) ->
  Forall (served tenant p rq) rs /\ frame s s'.
Proof.
  intros Hlaw Has [r Hservice] Hs Hres Hmode. unfold _retrieve_declared_preferences.
  intros (s1 & [prefs ds] & Hread & Hrun)%M_bind_inv.
  eapply runs_apply in Hread as [Hf1 Hprefs];
    [|apply (runs_declared_read e lo context p tenant); done|done].
  apply M_bind_inv in Hrun as (s2 & other & Hother & Hfin).
  assert (Forall (served tenant p rq) other /\ frame s1 s2) as [Ho Hf2].
  { set (others := filter _ _) in Hother. destruct others as [|c cs] eqn:Hothers; [by injection Hother as <- <-|].
    destruct Hf1 as [H1 H2 H3 H4].
    apply candidates_inv in Hother as (id & resolved & cc & s3 & Hs3 & Hsn & Hr3 & Hm3 & (sx & Hrs) & Hrun).
    eapply resolve_given in Hrs; [|done..]. rewrite Hrs in Hr3, Hrun.
    eapply runs_apply in Hrun as [Hf3 Hconf]; [|by apply runs_candidates_of|lia].
    split.
    - eapply Forall_impl; [exact Hconf|]. intros r' Hr'. left.
      eapply (confirmed_other _ _ _ _ _ (c :: cs)); [|done|exact Hr'].
      rewrite <- Hothers. unfold others. destruct (fi_categories (filters_of e rq)) as [|c1 cs1]; [by left|right].
      intros c' Hc'. by apply list_elem_of_filter in Hc' as [_ ?].
    - destruct Hf3 as [H5 H6 H7 H8]. split; [lia|congruence|congruence|].
      rewrite H8, Hm3. unfold quota_mode_of. cbn [rq_quota_mode other_request]. rewrite mode_of_value. congruence. }
  eapply (runs_apply _ (fun l => l = py_slice (rq_limit rq) (prefs ++ other))) in Hfin as [Hf3 ->].
  - split; [|by etransitivity; [|etransitivity]].
    apply Forall_slice, Forall_app. split; [|done]. eapply Forall_impl; [exact Hprefs|]. intros r' [? _]. by right.
  - unfold finish_declared. apply runs_seq; [attr|]. apply runs_seq; [apply runs_queue|]. by apply runs_ret.
  - destruct Hf1, Hf2. lia.
Qed.

Lemma tenant_candidates rq s s' rs tenant owner :
  (rq_preference_context rq = None \/ uuid_law) -> rq_as_of rq = None -> rq_tenant_id rq = Some tenant ->
  (lo <= statements s)%nat -> _retrieve_candidates e rq s = (s', inr rs) ->
  _resolved_read_proxy_id s' = Some owner ->
  Forall (served tenant owner rq) rs /\ (statements s <= statements s')%nat /\ in_snapshot s' = in_snapshot s
  /\ last_quota_mode s' = quota_mode_of e rq.
Proof.
  intros Hlaw Has Ht Hs Hrun Howner.
  apply candidates_inv in Hrun as (identity & [p ci] & cc & s1 & Hs1 & Hsn & Hr1 & Hm1 & (sx & Hres) & Hrun).
  cbn [fst snd] in *. assert (lo <= statements s1)%nat as Hlo1 by lia.
  destruct (rq_preference_context rq) as [context|] eqn:Hctx.
  - destruct Hlaw as [?|Hlaw]; [done|].
    unfold candidates_of in Hrun. apply M_bind_inv in Hrun as (s2 & early & Hpre & Hrun).
    eapply runs_apply in Hpre as [Hf1 Hearly]; [|apply runs_preflight|done]. destruct Hf1 as [H1 H2 H3 H4].
    destruct early as [rs'|].
    { injection Hrun as <- <-. rewrite (Hearly rs' eq_refl). split; [constructor|]. split; [lia|]. split; congruence. }
    destruct (bool_decide _).
    { injection Hrun as <- <-. split; [constructor|]. split; [lia|]. split; congruence. }
    rewrite Hctx, Ht, Has in Hrun. destruct p as [p|]; [|done].
    destruct (explicit_preference_claims_enabled _); [|done].
    eapply declared_candidates in Hrun as [Hserved Hf2]; [|done|done| |lia|congruence|congruence].
    + destruct Hf2 as [H5 H6 H7 H8]. rewrite H7, H3, Hr1 in Howner. injection Howner as ->.
      split; [done|]. split; [lia|]. split; congruence.
    + by eapply resolve_service.
  - eapply runs_apply in Hrun as [[H1 H2 H3 H4] Hconf]; [|by apply runs_candidates_of|done].
    rewrite H3, Hr1 in Howner. rewrite Howner in Hconf.
    split; [|split; [lia|]; split; congruence]. eapply Forall_impl; [exact Hconf|]. intros r Hr. by left.
Qed.

(** ** The final read *)

Section Final.
Variables (rq : Request) (owner tenant_id : uuid).
Abbreviation f := (filters_of e rq).

(** The result shows the memory that the claim of a source candidate displays. *)
Definition winner_of (candidate r : MemoryResult) : Prop :=
  has_writer candidate = true /\ exists db ids c i, seen e lo db
    /\ only_claim (claims_by_memory db tenant_id owner ids) (mr_id candidate) = Some c
    /\ c_active_memory_id c = Some i /\ mr_id r = uuid_str i.

(** Every winner that may take a candidate's place satisfies [P]. *)
Definition winners_ok (P : MemoryResult -> Prop) (found : list (uuid * MemoryClaim)) (winners : gmap string Memory)
    (candidates : list MemoryResult) : Prop :=
  forall candidate c i m r, candidate ∈ candidates -> has_writer candidate = true ->
    only_claim found (mr_id candidate) = Some c -> c_active_memory_id c = Some i ->
    winners !! uuid_str i = Some m -> _memory_is_current m (e_now e) = true -> shows r m -> P r.

Lemma runs_project_loop (P : MemoryResult -> Prop) found winners revisions candidates seen_ids :
  winners_ok P found winners candidates -> Forall P candidates ->
  runs lo (project_loop e found winners revisions candidates seen_ids) (fun rest => Forall P rest.1).
Proof.
  intros Hw Hc. revert seen_ids Hw. induction Hc as [|c cs Hc _ IH]; intros seen_ids Hw; simpl; [by apply runs_ret|].
  assert (winners_ok P found winners cs) as Hw'.
  { intros c0 cl i m r Hin. apply Hw. by right. }
  eapply runs_bind; [apply runs_lift; intros kept Hk; exact Hk|]. intros kept Hkept.
  destruct kept as [[r|m]|].
  - eapply runs_bind; [by apply IH|]. intros rest Hrest. apply runs_ret. constructor; [|done].
    unfold project_candidate in Hkept. destruct (has_writer c); simpl in Hkept; [|by injection Hkept as <-].
    destruct (raises _ _); [done|]. simpl in Hkept. injection Hkept as Hk.
    destruct (c0 ← _; i ← _; winners !! _); [|done]. by destruct (_ && _).
  - apply runs_if; intros _; [by apply IH|].
    eapply runs_bind; [apply runs_to_result|]. intros r Hr.
    eapply runs_bind; [by apply IH|]. intros rest Hrest. apply runs_ret. constructor; [|done].
    unfold project_candidate in Hkept. destruct (has_writer c) eqn:Hwr; simpl in Hkept; [|done].
    destruct (raises _ _) as [|b]; [done|]. simpl in Hkept. injection Hkept as Hk.
    destruct (c0 ← _; i ← _; winners !! _) as [m'|] eqn:Hm; [|done].
    destruct b; simpl in Hk; [|done]. destruct (_memory_is_current m' (e_now e)) eqn:Hcur; [|done].
    injection Hk as ->. apply bind_Some in Hm as (c1 & Hc1 & Hm). apply bind_Some in Hm as (i & Hi & Hm).
    eapply (Hw c c1 i m); [by left|done..].
  - eapply runs_bind; [by apply IH|]. intros rest Hrest. by apply runs_ret.
Qed.

Lemma runs_project (P : MemoryResult -> Prop) candidates :
  (forall candidate r, candidate ∈ candidates -> winner_of candidate r -> confirmed (ByProxy owner) f r -> P r) ->
  Forall P candidates ->
  runs lo (_project_source_claims e rq tenant_id owner candidates) (Forall P).
Proof.
  intros HP Hc. unfold _project_source_claims. destruct (filter _ candidates) as [|x source]; [by apply runs_ret|].
  eapply runs_bind; [by apply (runs_collect lo _ _ (fun _ => True)); intros; apply runs_lift|]. intros ids _.
  eapply (runs_bind lo _ _ (fun found => exists db, seen e lo db /\ found = claims_by_memory db tenant_id owner ids)).
  { apply runs_sql. intros db Hdb. by exists db. }
  intros found (cdb & Hcdb & Hfound).
  eapply (runs_bind lo _ _ (by_id_spec e lo (ByProxy owner) f false)).
  { destruct (omap winner_id _) as [|i is']; [apply runs_ret; exists (e_snapshot e); split; [by left|done]|].
    apply (runs_fetch e lo (ByProxy owner)). }
  intros winners (db & Hdb & Hwin).
  eapply runs_bind; [by apply (runs_sql e lo _ (fun _ => True))|]. intros revisions _.
  eapply runs_bind; [apply (runs_project_loop P); [|done]|].
  - intros candidate c i m r Hin Hwr Honly Hi Hm Hcur Hr. destruct (Hwin _ m Hm) as (? & Har & Hk).
    apply (HP candidate); [done| |].
    + split; [done|]. subst found. exists cdb, ids, c, i. split_and!; try done.
      destruct Hr as [-> _ _]. by rewrite Hk.
    + exists db, m. split; [done|]. split; [done|]. split; [|done]. split; auto.
  - intros [projected withheld] Hp. apply runs_seq; [apply runs_if; intros _; [apply runs_degraded|by apply runs_ret]|].
    apply runs_seq; [apply runs_set_hit|]. by apply runs_ret, Forall_slice.
Qed.

Lemma runs_withhold (P : MemoryResult -> Prop) candidates :
  Forall P candidates ->
  runs lo (_withhold_pending_source_corrections e rq tenant_id owner candidates) (Forall P).
Proof.
  intros Hc. unfold _withhold_pending_source_corrections.
  eapply runs_bind; [by apply (runs_sql e lo _ (fun _ => True))|]. intros pending _.
  apply runs_if; intros _; [by apply runs_ret|].
  apply runs_seq; [apply runs_modify; [|done]|].
  { intros s0. destruct (last_memory_visibility s0) as [[? []]|]; by split. }
  do 3 (apply runs_seq; [auto with retrieval|]).
  destruct candidates as [|c cs]; [by apply runs_ret|].
  eapply runs_bind; [by apply (runs_collect lo _ _ (fun _ => True)); intros; apply runs_lift|]. intros ids _.
  eapply runs_bind; [by apply (runs_sql e lo _ (fun _ => True))|]. intros blocked _.
  by apply runs_ret, Forall_filter_res.
Qed.

Lemma runs_project_current (P : MemoryResult -> Prop) candidates :
  (forall candidate r, candidate ∈ candidates -> winner_of candidate r -> confirmed (ByProxy owner) f r -> P r) ->
  Forall P candidates ->
  runs lo (_project_current_sources e rq tenant_id owner candidates) (Forall P).
Proof.
  intros HP Hc. eapply runs_bind; [by apply (runs_project P)|]. intros projected Hp. by apply runs_withhold.
Qed.

(** A result no pending update may be changing: either an ordinary memory the
    hold does not name, or a preference selected outside the withheld ones. *)
Definition unheld (hold : RuntimeHold) (r : MemoryResult) : Prop :=
  (held_result hold r = false /\ confirmed (ByProxy owner) f r)
  \/ (declared tenant_id owner f (rq_agent_id rq) r /\ exists found m context, shows r m
      /\ selected_by e found f (rq_agent_id rq) owner context (rh_preference_fingerprints hold) m).

Lemma unheld_served hold r : unheld hold r -> served tenant_id owner rq r.
Proof. intros [[_ ?]|[? _]]; [by left|by right]. Qed.

Definition fewer (h1 h2 : RuntimeHold) : Prop :=
  rh_fact_ids h1 = rh_fact_ids h2 /\ rh_preference_fingerprints h1 ⊆ rh_preference_fingerprints h2.

Lemma unheld_fewer h1 h2 r : fewer h1 h2 -> unheld h2 r -> unheld h1 r.
Proof.
  intros [Hids Hfps] [[Hheld Hc]|[Hd (found & m & ctx & Hr & key & scope & Hsc & Hout & Hread)]].
  - left. split; [|done]. revert Hheld. unfold held_result. rewrite Hids, !orb_false_iff, !andb_false_iff, !negb_false_iff.
    intros [[? ?] [Hemp|?]]; (split; [done|]); [left|by right].
    apply bool_decide_eq_true in Hemp. apply bool_decide_eq_true. set_solver.
  - right. split; [done|]. exists found, m, ctx. split; [done|]. exists key, scope. split; [done|].
    split; [|done]. intros sc Hsc' Hin. apply (Hout sc Hsc'). by apply Hfps.
Qed.

Definition displayed_rows (discovery : option PreferenceDiscovery) : Prop :=
  forall l, di_rows <$> discovery = Some l -> exists db, seen e lo db /\ forall cm, cm ∈ l -> displayed_pair tenant_id owner db cm.

Lemma discovered_rows db nominee_ids cold withheld d cm :
  discover_preferences tenant_id owner (fun m => _memory_is_current m (e_now e)) (fi_created_after f) db
    nominee_ids cold withheld = inr d -> cm ∈ di_rows d -> displayed_pair tenant_id owner db cm.
Proof.
  unfold discover_preferences. intros Hd Hcm.
  apply res_bind_inv in Hd as (catalog & _ & Hd). apply res_bind_inv in Hd as (ks & _ & Hd).
  destruct (bool_decide (ks = ∅)); [by injection Hd as <-; apply elem_of_nil in Hcm|].
  destruct (32 <? _)%nat; [done|].
  apply res_bind_inv in Hd as (examined & _ & Hd). apply res_bind_inv in Hd as (context & _ & Hd).
  apply res_bind_inv in Hd as (request & _ & Hd).
  injection Hd as <-. cbn in Hcm. by eapply preference_rows_displayed.
Qed.

Lemma runs_discovery hold candidates :
  runs lo (run_discovery e rq owner tenant_id hold candidates)
    (fun found => forall d, found = Some d -> displayed_rows d).
Proof.
  assert (displayed_rows None) as Hnone by done.
  unfold run_discovery. eapply runs_bind; [by apply (runs_get lo (fun _ => True))|]. intros s0 _.
  apply runs_if; intros _; [|apply runs_ret; by intros d [= <-]].
  eapply runs_bind; [apply (runs_sql e lo _ (fun r => forall d, r = inr d -> displayed_rows (Some d)))|].
  - intros db Hdb d Hd l [= <-]. exists db. split; [done|]. intros cm. by eapply discovered_rows.
  - intros [exc|d] Hd.
    + destruct exc; try apply runs_raise. by apply runs_ret.
    + apply runs_seq; [attr|]. apply runs_ret. intros d' [= <-]. by apply Hd.
Qed.

Lemma runs_governed hold discovery candidates :
  displayed_rows discovery ->
  runs lo (governed_results e rq owner tenant_id hold discovery candidates) (Forall (unheld hold)).
Proof.
  intros Hrows. unfold governed_results. eapply runs_bind; [apply runs_hydrate|]. intros fresh Hfresh.
  assert (Forall (unheld hold) (filter (fun r => held_result hold r = false) fresh)) as Hunheld.
  { apply Forall_forall. intros r [Hr Hin]%list_elem_of_filter. left. split; [done|].
    by eapply Forall_forall in Hfresh. }
  destruct (match rq_preference_context rq with Some _ => _ | None => _ end) as [context|]; [|by apply runs_ret].
  apply runs_if; intros _; [|by apply runs_ret].
  eapply runs_bind; [by apply (runs_declared_read e lo context owner tenant_id)|]. intros [prefs ds] Hprefs.
  eapply (runs_bind lo _ _ (fun l => l = py_slice (rq_limit rq) (prefs ++ []))).
  { unfold finish_declared. apply runs_seq; [attr|]. apply runs_seq; [apply runs_queue|]. by apply runs_ret. }
  intros l ->. apply runs_ret, Forall_app. split; [|done]. apply Forall_slice. rewrite app_nil_r.
  eapply Forall_impl; [exact Hprefs|]. intros r [? (found & m & ? & ?)]. right. split; [done|].
  by exists found, m, context.
Qed.

Lemma runs_add_confirmations hold held :
  runs lo (add_confirmations hold held) (fun hold' => fewer hold hold').
Proof.
  unfold add_confirmations. apply runs_if; intros _; [by apply runs_ret|].
  apply runs_seq; [apply runs_degraded|]. apply runs_ret. split; cbn; [done|set_solver].
Qed.

(** Shown by itself, or as the winner of the claim of something shown. *)
Definition released_or_projected (hold : RuntimeHold) (r : MemoryResult) : Prop :=
  unheld hold r \/ exists candidate, unheld hold candidate /\ winner_of candidate r.

Lemma runs_rest row hold candidates :
  Forall (served tenant_id owner rq) candidates ->
  runs lo (final_rest e rq owner tenant_id row hold candidates)
    (Forall (fun r => served tenant_id owner rq r
                      /\ (vr_routed row = true -> released_or_projected hold r))).
Proof.
  intros Hc. unfold final_rest. eapply runs_bind; [apply runs_pending|]. intros lagging _.
  eapply (runs_bind lo _ _ (Forall (served tenant_id owner rq))).
  { apply runs_if; intros _; [|by apply runs_ret]. eapply runs_bind; [apply runs_cold_start|]. intros cold Hcold.
    apply runs_seq; [apply runs_degraded|]. apply runs_seq; [apply runs_set_hit|]. apply runs_ret.
    eapply Forall_impl; [exact Hcold|]. intros r ?. by left. }
  clear candidates Hc. intros candidates Hc.
  eapply runs_bind; [by apply (runs_sql e lo _ (fun _ => True))|]. intros confirmations _.
  eapply runs_bind; [by apply (runs_lift lo _ (fun _ => True))|]. intros [held|] _.
  2:{ unfold closed_answer. do 2 (apply runs_seq; [auto with retrieval|]). by apply runs_ret. }
  eapply runs_bind; [apply runs_add_confirmations|]. intros hold' Hfewer.
  eapply runs_bind; [apply runs_discovery|]. intros [discovery|] Hdisc.
  2:{ unfold closed_answer. do 3 (apply runs_seq; [auto with retrieval|]). by apply runs_ret. }
  apply runs_if.
  - rewrite andb_true_iff, negb_true_iff. intros [Hrouted _].
    eapply runs_mono; [apply (runs_project_current (served tenant_id owner rq)); [by left|done]|].
    intros rs Hrs. eapply Forall_impl; [exact Hrs|]. intros r ?. split; [done|]. by rewrite Hrouted.
  - intros _. eapply runs_bind; [by apply runs_governed, Hdisc|]. intros fresh Hfresh.
    apply runs_seq; [apply runs_if; intros _; [|by apply runs_ret]; apply runs_seq; auto with retrieval|].
    apply runs_seq; [apply runs_set_hit|].
    assert (Forall (unheld hold) (py_slice (rq_limit rq) fresh)) as Hunheld.
    { apply Forall_slice. eapply Forall_impl; [exact Hfresh|]. intros r Hr. by eapply unheld_fewer. }
    apply (runs_project_current (fun r => served tenant_id owner rq r
                      /\ (vr_routed row = true -> released_or_projected hold r))).
    + intros candidate r Hin Hw Hr. split; [by left|]. intros _. right. exists candidate. split; [|done].
      by eapply Forall_forall in Hunheld.
    + eapply Forall_impl; [exact Hunheld|]. intros r Hr. split; [by eapply unheld_served|]. by left.
Qed.
End Final.

End Requests.

Section Retrieval.
Context `{PyLib} `{Hashing}.
Variable e : Env.

Lemma candidates_blocked reader rq identity p ci cc s s' rs :
  quota_mode_of e rq ∈ [QuotaMode.blocked; QuotaMode.passthrough] ->
  candidates_of e reader rq identity p ci cc s = (s', inr rs) -> rs = [].
Proof.
  intros Hmode Hrun. unfold candidates_of in Hrun. apply M_bind_inv in Hrun as (s2 & early & Hpre & Hrun).
  destruct early as [rs'|].
  - injection Hrun as <- <-. pose proof (runs_preflight e 0 rq p) as Hp.
    eapply runs_apply in Hpre as [_ Hearly]; [|exact Hp|lia]. by apply Hearly.
  - rewrite bool_decide_eq_true_2 in Hrun by done. by injection Hrun as _ <-.
Qed.

(** The hold a snapshot's pending jobs put on the reader. *)
Definition snapshot_runtime_hold (owner tenant : uuid) (row : VisibilityRow) : RuntimeHold :=
  read_runtime_hold (e_settings e) owner tenant (vr_unavailable row) (hold_tables (e_snapshot e)).

Lemma runs_snapshot_hold lo owner tenant row : runs lo (snapshot_hold e owner tenant row) (fun _ => True).
Proof.
  unfold snapshot_hold. apply runs_if; intros _.
  - eapply runs_bind; [by apply (runs_sql e lo _ (fun _ => True))|]. intros hold _.
    do 3 (apply runs_seq; [auto with retrieval|]). by apply runs_ret.
  - apply runs_seq; [auto with retrieval|]. by apply runs_ret.
Qed.

Lemma snapshot_hold_value owner tenant row s s' hold :
  in_snapshot s = true -> vr_pending row = true ->
  snapshot_hold e owner tenant row s = (s', inr hold) -> hold = snapshot_runtime_hold owner tenant row.
Proof.
  intros Hsn Hpending. unfold snapshot_hold. rewrite Hpending.
  intros (s1 & h & Hh & Hrun)%M_bind_inv. unfold runtime_hold, sql in Hh. rewrite Hsn in Hh.
  injection Hh as <- <-. do 3 (apply M_bind_inv in Hrun as (? & [] & _ & Hrun)). by injection Hrun as _ <-.
Qed.

(** The final read, from its visibility row on. *)
Lemma final_body_inv rq owner tenant candidates s s' rs :
  in_snapshot s = true -> final_body e rq owner tenant candidates s = (s', inr rs) ->
  rs = [] \/ exists row hold s1, visibility_row e owner tenant (e_snapshot e) = Some row
    /\ frame s s1 /\ rh_broad hold = false
    /\ (vr_pending row = true -> hold = snapshot_runtime_hold owner tenant row)
    /\ final_rest e rq owner tenant row hold candidates s1 = (s', inr rs).
Proof.
  intros Hsn (s1 & row & Hrow & Hrun)%M_bind_inv.
  unfold _runtime_visibility_row, sql in Hrow. rewrite Hsn in Hrow. injection Hrow as <- <-.
  destruct (visibility_row e owner tenant (e_snapshot e)) as [row|] eqn:Hrow.
  - apply M_bind_inv in Hrun as (s2 & hold & Hhold & Hrun).
    destruct (rh_broad hold) eqn:Hbroad; [injection Hrun as _ <-; by left|]. right.
    exists row, hold, s2. split; [done|]. split; [|split; [done|split; [|done]]].
    + eapply runs_apply in Hhold as [? _]; [done|apply (runs_snapshot_hold 0)|lia].
    + intros Hp. by eapply snapshot_hold_value.
  - do 2 (apply M_bind_inv in Hrun as (? & [] & _ & Hrun)). injection Hrun as _ <-. by left.
Qed.

Lemma runs_final_body lo rq owner tenant candidates :
  Forall (served e lo tenant owner rq) candidates ->
  runs lo (final_body e rq owner tenant candidates) (fun _ => True).
Proof.
  intros Hc. unfold final_body. eapply runs_bind; [by apply (runs_sql e lo _ (fun _ => True))|]. intros [row|] _.
  - eapply runs_bind; [apply runs_snapshot_hold|]. intros hold _.
    apply runs_if; intros _; [by apply runs_ret|]. eapply runs_mono; [by apply runs_rest|done].
  - do 2 (apply runs_seq; [auto with retrieval|]). by apply runs_ret.
Qed.

(** The phases of a tenant's current read. *)
Lemma retrieve_phases rq s s' rs tenant owner :
  (rq_preference_context rq = None \/ uuid_law) -> rq_as_of rq = None -> rq_tenant_id rq = Some tenant ->
  retrieve e rq s = (s', inr rs) -> _resolved_read_proxy_id s' = Some owner ->
  rs = [] \/ exists s1 s2 candidates, (statements s <= statements s1)%nat /\ in_snapshot s1 = true
    /\ Forall (served e (statements s) tenant owner rq) candidates
    /\ final_body e rq owner tenant candidates s1 = (s2, inr rs).
Proof.
  intros Hlaw Has Ht Hrun Howner. unfold retrieve in Hrun.
  apply M_bind_inv in Hrun as (s0 & [] & [= <-] & Hrun).
  apply M_bind_inv in Hrun as (s1 & candidates & Hcand & Hrun).
  apply M_bind_inv in Hrun as (s1' & st & [= <- <-] & Hrun).
  assert (rs = [] \/ match rq_as_of rq, rq_tenant_id rq, _resolved_read_proxy_id s1 with
      | None, Some tenant_id, Some owner =>
          if bool_decide (last_quota_mode s1 ∈ [QuotaMode.blocked; QuotaMode.passthrough]) then mret candidates
          else _final_current_read e rq owner tenant_id candidates
      | _, _, _ => mret candidates
      end s1 = (s', inr rs)) as [?|Hfin]; [|by left|].
  { destruct (last_memory_visibility s1) as [[? []]|]; [injection Hrun as _ <-; by left|by right..]. }
  clear Hrun. rewrite Has, Ht in Hfin.
  destruct (_resolved_read_proxy_id s1) as [owner1|] eqn:Hr1; [|injection Hfin as <- <-; congruence].
  eapply (tenant_candidates e (statements s)) in Hcand as Hc; [|done..].
  destruct Hc as (Hserved & Hmono & _ & Hmode). cbn in Hmono.
  case_bool_decide as Hblocked.
  { injection Hfin as <- <-. left.
    apply candidates_inv in Hcand as (id & resolved & cc & s3 & _ & _ & _ & Hm3 & _ & Hc).
    eapply candidates_blocked; [|exact Hc]. congruence. }
  unfold _final_current_read in Hfin. apply M_bind_inv in Hfin as (s3 & [] & Hfinish & Hfin).
  assert (s3 = s1) as ->.
  { unfold _finish_read_transaction in Hfinish. destruct (e_session_clean e); by injection Hfinish. }
  unfold with_snapshot in Hfin.
  destruct (final_body e rq owner1 tenant candidates (s1 <| in_snapshot := true |>)) as [s4 [exc|rs4]] eqn:Hbody;
    cbn in Hfin; [done|]. injection Hfin as <- <-.
  eapply runs_apply in Hbody as Hf; [|by apply (runs_final_body (statements s))|done].
  destruct Hf as [[_ _ Hres _] _]. cbn in Hres, Howner. assert (owner1 = owner) as -> by congruence.
  right. by exists (s1 <| in_snapshot := true |>), s4, candidates.
Qed.

(** C14: Whatever Redis pages, process caches, the vector index and the embedder
    answer, and whatever other transactions commit meanwhile: a current read
    for a tenant's user shows only memories that the database, as one of the
    request's own statements or its final snapshot saw it, held as that user's
    live and currently valid memories and that pass the category, agent and
    time filters of the request — or, when a preference context was given or
    discovered, declared preferences: live memories of the user that pass the
    agent and time filters and that the user's own active claim in that very
    tenant displays, a claim of the declared proposition whose value is the
    declared one and that no unresolved choice holds back.  Each is shown with
    its stored id, content and category.  And nothing at all is shown unless
    the final snapshot has the user as an unblocked user of that tenant. *)
Theorem reads_show_only_the_readers_memories rq s s' rs tenant owner :
  (rq_preference_context rq = None \/ uuid_law) -> rq_as_of rq = None -> rq_tenant_id rq = Some tenant ->
  retrieve e rq s = (s', inr rs) -> _resolved_read_proxy_id s' = Some owner ->
  (forall r, r ∈ rs -> served e (statements s) tenant owner rq r) /\
  (rs = [] \/ open_to (e_snapshot e) tenant owner = true).
Proof.
  intros Hlaw Has Ht Hrun Howner.
  destruct (retrieve_phases rq s s' rs tenant owner) as [->|(s1 & s2 & cands & Hlo & Hsn & Hc & Hbody)]; [done..| |].
  { split; [by intros r ?%elem_of_nil|by left]. }
  apply final_body_inv in Hbody as [->|(row & hold & s3 & Hrow & Hf & _ & _ & Hrest)]; [| |done].
  { split; [by intros r ?%elem_of_nil|by left]. }
  split.
  - eapply runs_apply in Hrest as [_ Hall]; [|by apply runs_rest|destruct Hf; lia].
    intros r Hr. by eapply Forall_forall in Hall as [? _].
  - right. revert Hrow. unfold visibility_row. by destruct (open_to _ _ _).
Qed.

Lemma pending_is_routed owner tenant row :
  visibility_row e owner tenant (e_snapshot e) = Some row -> vr_pending row = true -> vr_routed row = true.
Proof.
  unfold visibility_row. destruct (open_to _ _ _); [|done]. intros [= <-]. cbn.
  rewrite !existsb_exists. intros (j & Hj & Hp). exists j. split; [done|].
  revert Hp. unfold pending_job, routed_job. rewrite !andb_true_iff. tauto.
Qed.

(** C15: While a guarded job of the user is unresolved in the final snapshot, a
    current read shows nothing when the hold is on everything; otherwise each
    result is one the hold does not name — neither its memory nor the version
    it replaced is a withheld fact, and while any preference is withheld no
    ordinary preference is shown — or a declared preference none of whose
    scopes is withheld, or it is the memory displayed by the source claim of
    such a result. *)
Theorem pending_updates_are_withheld rq s s' rs tenant owner row :
  (rq_preference_context rq = None \/ uuid_law) -> rq_as_of rq = None -> rq_tenant_id rq = Some tenant ->
  retrieve e rq s = (s', inr rs) -> _resolved_read_proxy_id s' = Some owner ->
  visibility_row e owner tenant (e_snapshot e) = Some row -> vr_pending row = true ->
  let hold := snapshot_runtime_hold owner tenant row in
  (rh_broad hold = true -> rs = []) /\
  (forall r, r ∈ rs -> released_or_projected e (statements s) rq owner tenant hold r).
Proof.
  intros Hlaw Has Ht Hrun Howner Hrow Hpending.
  destruct (retrieve_phases rq s s' rs tenant owner) as [->|(s1 & s2 & cands & Hlo & Hsn & Hc & Hbody)]; [done..| |].
  { split; [done|]. by intros r ?%elem_of_nil. }
  apply final_body_inv in Hbody as [->|(row' & hold & s3 & Hrow' & Hf & Hbroad & Hhold & Hrest)]; [| |done].
  { split; [done|]. by intros r ?%elem_of_nil. }
  rewrite Hrow in Hrow'. injection Hrow' as <-. specialize (Hhold Hpending). subst hold.
  split; [congruence|].
  eapply runs_apply in Hrest as [_ Hall]; [|by apply runs_rest|destruct Hf; lia].
  intros r Hr. eapply Forall_forall in Hall as [_ Hheld]; [|exact Hr].
  by eapply Hheld, pending_is_routed.
Qed.
End Retrieval.

(** ** Witnesses *)

(** A user with a preference a pending job withholds, and one more fact. *)
Definition ex_fact_memory : Memory :=
  ex_pref_memory <| m_id := 8%Z |> <| m_category := MemoryCategory.fact |> <| m_content := "works in Oslo" |>
    <| m_metadata_json := [] |>.
Definition ex_reader : ProxyUser :=
  {| pu_id := 2; pu_tenant_id := 1; pu_is_blocked := false; pu_external_user_id_hash := EmptyString |}.
Definition ex_read_db : ReadDb :=
  {| rd_memories := {[7%Z := ex_pref_memory; 8%Z := ex_fact_memory]};
     rd_proxy_users := {[2%Z := ex_reader]}; rd_tenants := ∅; rd_claims := ∅; rd_revisions := ∅;
     rd_outbox := ∅; rd_pending := ∅; rd_source_events := ∅; rd_jobs := [ex_runtime_job];
     rd_reconciliations := ∅ |}.
Definition ex_env : Env :=
  {| e_settings := ex_settings; e_now := 10; e_db _ := ex_read_db; e_snapshot := ex_read_db;
     e_session_clean := true; e_proxy_service := Some (inr 2%Z); e_quota_mode := Some QuotaMode.full;
     e_retrieval_page _ _ := None; e_hot_tier _ := None; e_breaker_open _ := false;
     e_active_model := Some "m"; e_embed _ _ := None; e_search _ := None |}.
Definition ex_svc : Svc :=
  {| _l1_cache := ∅; _model_id_cache := ∅; _memory_count_cache := ∅; _hot_tier_cache := ∅;
     statements := 0; in_snapshot := false; last_cache_hit := false; last_is_degraded := false;
     last_quota_mode := QuotaMode.full; last_memory_visibility := None; last_preference_decisions := [];
     last_preference_scope_request := None; last_discovered_preference_context := None;
     _preference_discovery_active := false; _preference_nominee_ids := []; _preference_cold_start := false;
     _resolved_read_proxy_id := None; access_updates := []; cache_writes := [] |}.
Definition ex_request : Request :=
  {| rq_query := "where"; rq_external_user_id := Some "ada"; rq_proxy_user_id := None; rq_user_id := None;
     rq_limit := 5; rq_categories := []; rq_agent_id := None; rq_tenant_id := Some 1%Z;
     rq_time_filter_days := None; rq_as_of := None; rq_quota_mode := None; rq_preference_context := None |}.

#[local] Existing Instance hold_pylib.
#[local] Existing Instance hold_hashing.
Definition ex_shown : MemoryResult := result_of ex_fact_memory JNull 1 10.
Lemma ex_read_shows :
  retrieve ex_env ex_request ex_svc = ((retrieve ex_env ex_request ex_svc).1, inr [ex_shown]).
Proof. rewrite (surjective_pairing (retrieve _ _ _)) at 1. by f_equal. Qed.
Lemma ex_read_owner : _resolved_read_proxy_id (retrieve ex_env ex_request ex_svc).1 = Some 2%Z.
Proof. vm_compute. reflexivity. Qed.

(** A read of the user's declared preferences. *)
Definition ex_context : PreferenceReadContext :=
  {| px_applicability := ex_scope; px_property_keys := ["editor"] |}.
Definition ex_declared_db : ReadDb :=
  ex_read_db <| rd_jobs := [] |> <| rd_claims := {[3%Z := ex_pref_claim]} |>.
Definition ex_declared_env : Env :=
  ex_env <| e_db := fun _ => ex_declared_db |> <| e_snapshot := ex_declared_db |>.
Definition ex_declared_request : Request := ex_request <| rq_preference_context := Some ex_context |>.
Definition ex_declared_read : Svc * res (list MemoryResult) :=
  @retrieve unary_uuids hold_hashing ex_declared_env ex_declared_request ex_svc.
Definition ex_declared_shown : list MemoryResult :=
  default [] (match ex_declared_read.2 with inr rs => Some rs | inl _ => None end).
Lemma ex_declared_shows :
  @retrieve unary_uuids hold_hashing ex_declared_env ex_declared_request ex_svc
    = (ex_declared_read.1, inr ex_declared_shown) /\ length ex_declared_shown = 2%nat
  /\ _resolved_read_proxy_id ex_declared_read.1 = Some 2%Z.
Proof. vm_compute. by repeat split. Qed.

Lemma reads_show_only_the_readers_memories_witness :
  (forall r, r ∈ ex_declared_shown -> @served unary_uuids ex_declared_env 0 1 2 ex_declared_request r)
  /\ length ex_declared_shown = 2%nat.
Proof.
  destruct ex_declared_shows as (Hread & Hlen & Howner). split; [|exact Hlen].
  destruct (@reads_show_only_the_readers_memories unary_uuids hold_hashing ex_declared_env ex_declared_request
              ex_svc ex_declared_read.1 ex_declared_shown 1%Z 2%Z) as [Hserved _];
    [right; exact unary_uuid_law|reflexivity|reflexivity|exact Hread|exact Howner|].
  exact Hserved.
Defined.

Lemma pending_updates_are_withheld_witness :
  released_or_projected ex_env 0 ex_request 2 1
    (snapshot_runtime_hold ex_env 2 1 {| vr_pending := true; vr_unavailable := false; vr_routed := true |})
    ex_shown.
Proof.
  destruct (pending_updates_are_withheld ex_env ex_request ex_svc
              (retrieve ex_env ex_request ex_svc).1 [ex_shown] 1%Z 2%Z
              {| vr_pending := true; vr_unavailable := false; vr_routed := true |}) as [_ Hheld];
    [left; reflexivity|reflexivity|reflexivity|exact ex_read_shows|exact ex_read_owner
    |vm_compute; reflexivity|reflexivity|].
  apply Hheld, list_elem_of_here.
Defined.
