(* ===== verification/ExtractionJobs.v ===== *)
(** * Extraction jobs

    The life of an extraction job: its acceptance and dispatch
    ([api/services/memory_service.py]), the worker's claim, completion, failure
    and retry ([api/tasks/extraction_tasks.py]), the watchdog and the durable
    dispatch recovery ([api/tasks/watchdog_tasks.py]) and the operator's retry
    of a dead job ([api/routers/internal.py]).  The system is a transition
    system: the broker may deliver any published message at any time and any
    number of times, workers may be lost, and transactions of different
    processes interleave.  A worker claims a job under a row lock; it records
    completion and failure without one, so that the row it has loaded may be
    written by others before its changed columns are.  What a worker's pipeline
    returns or raises is an input of its last step. *)

From S2P Require Export QueueRouter.

(** ** Rows *)

Record ExtractionJob := {
  j_id : uuid;
  j_tenant_id : uuid;
  j_proxy_user_id : uuid;
  j_status : ExtractionJobStatus.t;
  j_queue_name : option string;
  j_celery_task_id : option string;
  j_request_key_sha256 : option string;
  j_payload : obj;
  j_result : obj;
  j_attempts : Z;
  j_max_attempts : Z;
  j_memories_created : Z;
  j_error : option string;
  j_error_type : option string;
  j_queued_at : datetime;
  j_processing_started_at : option datetime;
  j_stale_after : option datetime;
  j_completed_at : option datetime;
  j_dead_lettered_at : option datetime;
  j_updated_at : datetime;
}.

Record DeadLetterJob := {
  d_job_id : uuid;
  d_tenant_id : uuid;
  d_proxy_user_id : uuid;
  d_celery_task_id : option string;
  d_attempts : Z;
  d_payload : obj;
  d_error : option string;
  d_error_type : option string;
  d_last_retried_at : option datetime;
}.

(** A published task: its id and the compact payload's references. *)
Record Message := {
  msg_task_id : string;
  msg_job_id : uuid;
  msg_tenant_id : uuid;
  msg_queue_name : option string;
}.
#[export] Instance message_eq_dec : EqDecision Message.
Proof. solve_decision. Defined.

(** A row a watchdog cycle has loaded, with the cycle's clock reading. *)
Record Candidate := { cd_row : ExtractionJob; cd_now : datetime }.

(** What happened to a job, as the services log it. *)
Inductive log_entry :=
  | Started (job : uuid)              (* a worker claimed it *)
  | DispatchFailed (job : uuid)       (* the request marked it failed *)
  | Requeued (job : uuid)             (* the watchdog requeued a stale run *)
  | GivenUp (job : uuid)              (* the watchdog dead-lettered it *)
  | Retried (job : uuid).             (* an operator retried a dead job *)
#[export] Instance log_entry_eq_dec : EqDecision log_entry.
Proof. solve_decision. Defined.

Record System := {
  sy_jobs : gmap uuid ExtractionJob;
  sy_dead_letters : gmap uuid DeadLetterJob;
  sy_accepting : gset uuid;           (* requests between acceptance and dispatch *)
  sy_published : list Message;
  sy_workers : gmap nat Message;      (* the runs in progress *)
  sy_candidates : list Candidate;
  sy_redis : Redis;
  sy_clock : datetime;
  sy_log : list log_entry;
}.

Definition log (e : log_entry) (s : System) : System := s <| sy_log ::= cons e |>.
Definition put_job (job : ExtractionJob) (s : System) : System := s <| sy_jobs ::= insert (j_id job) job |>.
Definition publish (m : Message) (s : System) : System := s <| sy_published ::= cons m |>.

Definition JOB_STALE_TIMEOUT : Z := 600000000.
Definition QUEUED_DISPATCH_GRACE : Z := 60000000.
Definition DEFAULT_MAX_EXTRACTION_ATTEMPTS : Z := 3.

(** [int(job.max_attempts or 3)] *)
Definition max_attempts (job : ExtractionJob) : Z := int_or (Some (j_max_attempts job)) 3.

(** ** Errors *)

(** An exception as the classifier inspects it. *)
Record Raised := {
  ex_type : string;
  ex_message : string;
  ex_is_timeout : bool;
  ex_is_json : bool;                  (* JSONDecodeError or ExtractionError *)
  ex_sqlstate : option string;
  ex_constraint : option string;
}.

Inductive failure :=
  | Direct (e : Raised)
  | ExtractionPipelineError (stage : string) (cause : Raised).

Definition root_cause (f : failure) : Raised :=
  match f with Direct e => e | ExtractionPipelineError _ e => e end.

Definition classify_message (message : string) (timeout json : bool) : string :=
  let normalized := py_lower message in
  let mem needle := py_contains needle message in
  let low needle := py_contains needle normalized in
  if mem "503" || mem "Service Unavailable" then "llm_provider_unavailable_503"
  else if mem "429" || low "rate limit" || low "quota" then "llm_rate_limited_429"
  else if mem "401" || mem "403" || low "invalid api key" then "llm_auth_failed"
  else if low "timeout" || timeout then "timeout"
  else if low "connection" then "connection_error"
  else if low "json" || json then "llm_invalid_response"
  else if low "extraction_spec" then "missing_extraction_spec"
  else "unknown_error".

(** [classify_error] of an exception. *)
Definition classify_error (f : failure) : string :=
  let e := root_cause f in
  if bool_decide (ex_sqlstate e = Some "40001") then "database_serialization_retry"
  else classify_message (ex_message e)
         match f with Direct e => ex_is_timeout e | ExtractionPipelineError _ _ => false end (ex_is_json e).

Definition _sanitize_job_error (error_type message : string) : string :=
  let normalized := py_lower (py_strip message) in
  if py_contains "proxy user" normalized && py_contains "not found" normalized then "proxy_user_not_found"
  else if py_contains "dispatch" normalized && py_contains "failed" normalized then "dispatch_failed"
  else if py_contains "timed out" normalized || py_contains "timeout" normalized then "dependency_timeout"
  else py_lower error_type.

Definition text_given (o : option string) : option string :=
  match o with Some (String _ _ as s) => Some s | _ => None end.

Definition _safe_failure_detail (f : failure) : string :=
  match f with
  | ExtractionPipelineError stage e =>
      "extraction_pipeline_failed stage=" +:+ stage +:+ " cause=" +:+ ex_type e
      +:+ match text_given (ex_sqlstate e) with Some s => " sqlstate=" +:+ s | None => "" end
      +:+ match text_given (ex_constraint e) with Some c => " constraint=" +:+ c | None => "" end
  | Direct e => _sanitize_job_error (ex_type e) (ex_message e)
  end.

Definition _normalize_stored_error (error : string) : string :=
  if py_contains "Traceback (most recent call last):" error then error
  else if py_startswith error "extraction_pipeline_failed stage=" then error
  else _sanitize_job_error "Error" error.

(** ** The worker's transactions *)

(** [str(x or "").strip()] *)
Definition task_text (o : option string) : string := py_strip (default EmptyString o).

(** The columns [_set_db_job_processing] writes. *)
Definition processing_job (now : datetime) (celery_task_id : option string) (job : ExtractionJob)
    : ExtractionJob :=
  job <| j_status := ExtractionJobStatus.processing |> <| j_celery_task_id := celery_task_id |>
      <| j_processing_started_at := Some now |>
      <| j_stale_after := Some (now + JOB_STALE_TIMEOUT)%Z |> <| j_completed_at := None |>
      <| j_updated_at := now |> <| j_error := None |> <| j_error_type := None |>.

(** [None]: the delivery is a duplicate. *)
Definition _set_db_job_processing (now : datetime) (job_id : uuid) (celery_task_id : option string)
    (s : System) : System * option Z :=
  match sy_jobs s !! job_id with
  | None => (s, None)
  | Some job =>
      let stored_task_id := task_text (j_celery_task_id job) in
      if negb (bool_decide (j_status job = ExtractionJobStatus.queued)
               || bool_decide (j_status job = ExtractionJobStatus.failed)) then (s, None)
      else if negb (bool_decide (stored_task_id = EmptyString))
              && negb (bool_decide (stored_task_id = task_text celery_task_id)) then (s, None)
      else (log (Started job_id) (put_job (processing_job now celery_task_id job) s), Some (j_attempts job))
  end.

(** *** Transactions without a lock *)

(** A session writes the columns that differ from the row it has loaded. *)
Definition column {A} `{EqDecision A} (f : ExtractionJob -> A) (read changed current : ExtractionJob) : A :=
  if decide (f changed = f read) then f current else f changed.

Definition flushed_row (read changed current : ExtractionJob) : ExtractionJob :=
  {| j_id := j_id current;
     j_tenant_id := j_tenant_id current;
     j_proxy_user_id := j_proxy_user_id current;
     j_status := column j_status read changed current;
     j_queue_name := j_queue_name current;
     j_celery_task_id := column j_celery_task_id read changed current;
     j_request_key_sha256 := j_request_key_sha256 current;
     j_payload := j_payload current;
     j_result := column j_result read changed current;
     j_attempts := column j_attempts read changed current;
     j_max_attempts := j_max_attempts current;
     j_memories_created := column j_memories_created read changed current;
     j_error := column j_error read changed current;
     j_error_type := column j_error_type read changed current;
     j_queued_at := j_queued_at current;
     j_processing_started_at := j_processing_started_at current;
     j_stale_after := column j_stale_after read changed current;
     j_completed_at := column j_completed_at read changed current;
     j_dead_lettered_at := column j_dead_lettered_at read changed current;
     j_updated_at := column j_updated_at read changed current |}.

Lemma column_same {A} `{EqDecision A} (f : ExtractionJob -> A) job changed : column f job changed job = f changed.
Proof. unfold column. by case_decide. Qed.

Definition completed_job (now : datetime) (payload : obj) (created : Z) (job : ExtractionJob)
    : ExtractionJob :=
  job <| j_status := ExtractionJobStatus.completed |> <| j_memories_created := created |>
      <| j_result := payload |> <| j_completed_at := Some now |> <| j_stale_after := None |>
      <| j_updated_at := now |> <| j_error := None |> <| j_error_type := None |>.

(** [created] is [int(payload.get("memories_created", 0) or 0)]; [read]: the row
    as it was loaded, when it is written later ([None]: nothing came between). *)
Definition _set_db_job_completed (now : datetime) (job_id : uuid) (read : option ExtractionJob) (payload : obj)
    (created : Z) (s : System) : System :=
  match sy_jobs s !! job_id with
  | None => s
  | Some current =>
      let job := default current read in
      put_job (flushed_row job (completed_job now payload created job) current) s
  end.

Definition dead_letter_of (job : ExtractionJob) (attempts : Z) (error : string)
    (error_type : option string) (old : option DeadLetterJob) : DeadLetterJob :=
  {| d_job_id := j_id job; d_tenant_id := j_tenant_id job; d_proxy_user_id := j_proxy_user_id job;
     d_celery_task_id := j_celery_task_id job; d_attempts := attempts; d_payload := j_payload job;
     d_error := Some error; d_error_type := error_type;
     d_last_retried_at := old ≫= d_last_retried_at |}.

Definition _upsert_dead_letter_job (job : ExtractionJob) (error error_type : string) (s : System) : System :=
  s <| sy_dead_letters ::= insert (j_id job)
         (dead_letter_of job (j_attempts job) error (Some error_type) (sy_dead_letters s !! j_id job)) |>.

(** [error_type or classify_error(error)] *)
Definition stored_error_type (error error_type : string) : string :=
  if bool_decide (error_type = EmptyString) then classify_message error false false else error_type.

Definition failed_job (now : datetime) (status : ExtractionJobStatus.t) (attempts : Z)
    (error error_type : string) (job : ExtractionJob) : ExtractionJob :=
  job <| j_status := status |> <| j_attempts := attempts |>
      <| j_error := Some (_normalize_stored_error error) |>
      <| j_error_type := Some (stored_error_type error error_type) |> <| j_stale_after := None |>
      <| j_celery_task_id := None |> <| j_updated_at := now |>.

Definition finished_dead (now : datetime) (job : ExtractionJob) : ExtractionJob :=
  job <| j_completed_at := Some now |> <| j_dead_lettered_at := Some now |>.

(** Returns the new status and the attempts. *)
Definition _set_db_job_failure (now : datetime) (job_id : uuid) (read : option ExtractionJob)
    (error error_type : string) (s : System) : System * (ExtractionJobStatus.t * Z) :=
  match sy_jobs s !! job_id with
  | None => (s, (ExtractionJobStatus.failed, 1%Z))
  | Some current =>
      let job := default current read in
      let next_attempts := (j_attempts job + 1)%Z in
      if (max_attempts job <=? next_attempts)%Z then
        let job' := finished_dead now
                      (failed_job now ExtractionJobStatus.dead next_attempts error error_type job) in
        (put_job (flushed_row job job' current)
           (_upsert_dead_letter_job job' (_normalize_stored_error error) (stored_error_type error error_type) s),
         (ExtractionJobStatus.dead, next_attempts))
      else (put_job (flushed_row job
                       (failed_job now ExtractionJobStatus.failed next_attempts error error_type job) current) s,
            (ExtractionJobStatus.failed, next_attempts))
  end.

Definition _force_dead_letter_job (now : datetime) (job_id : uuid) (read : option ExtractionJob)
    (error error_type : string) (s : System) : System :=
  match sy_jobs s !! job_id with
  | None => s
  | Some current =>
      let job := default current read in
      let job' := finished_dead now
                    (failed_job now ExtractionJobStatus.dead (j_attempts job) error error_type job) in
      put_job (flushed_row job job' current) (_upsert_dead_letter_job job' (_normalize_stored_error error)
                      (stored_error_type error error_type) s)
  end.

(** ** Steps *)

Section Steps.
Context `{PyLib}.

Definition seconds (now : datetime) : Z := (now / 1000000)%Z.

Definition release_slot (up : Calls) (now : datetime) (tenant_id : uuid) (queue_name : option string)
    (job_id : uuid) (s : System) : System :=
  s <| sy_redis ::= release_extraction_slot_sync up (seconds now) (Some (uuid_str tenant_id)) queue_name
                      (Some (uuid_str job_id)) |>.

(** [release_queue_slot_after_extraction] for a task that did not ask to retain
    its slot. *)
Definition postrun (up : Calls) (now : datetime) (m : Message) (s : System) : System :=
  release_slot up now (msg_tenant_id m) (msg_queue_name m) (msg_job_id m) s.

(** What a request asks to be accepted. *)
Record Acceptance := {
  ac_job_id : uuid; ac_tenant_id : uuid; ac_proxy_user_id : uuid;
  ac_request_key_sha256 : option string;         (* [Some] makes it durable *)
  ac_payload : obj;
}.

Definition new_job (now : datetime) (a : Acceptance) (queue_name : string) : ExtractionJob :=
  {| j_id := ac_job_id a; j_tenant_id := ac_tenant_id a; j_proxy_user_id := ac_proxy_user_id a;
     j_status := ExtractionJobStatus.queued; j_queue_name := Some queue_name;
     j_celery_task_id := match ac_request_key_sha256 a with
                         | Some _ => Some (uuid_str (ac_job_id a)) | None => None end;
     j_request_key_sha256 := ac_request_key_sha256 a;
     j_payload := jset "queue_name" (JStr queue_name) (ac_payload a); j_result := [];
     j_attempts := 0; j_max_attempts := DEFAULT_MAX_EXTRACTION_ATTEMPTS; j_memories_created := 0;
     j_error := None; j_error_type := None; j_queued_at := now; j_processing_started_at := None;
     j_stale_after := None; j_completed_at := None; j_dead_lettered_at := None; j_updated_at := now |}.

(** The reservation of [queue_memory_add] and the insertion of
    [_create_extraction_job] for a new id. *)
Definition accept (up : Calls) (plans : Plans) (now : datetime) (a : Acceptance) (s : System) : System :=
  match sy_jobs s !! ac_job_id a with
  | Some _ => s
  | None =>
      let (r, reservation) := reserve_extraction_slot up plans (seconds now)
        (uuid_str (ac_tenant_id a)) (uuid_str (ac_job_id a)) (sy_redis s) in
      let s := s <| sy_redis := r |> in
      match reservation with
      | None => s
      | Some res => put_job (new_job now a (qr_queue_name res)) s
                      <| sy_accepting ::= union {[ac_job_id a]} |>
      end
  end.

Definition message_of (task_id : string) (job : ExtractionJob) : Message :=
  {| msg_task_id := task_id; msg_job_id := j_id job; msg_tenant_id := j_tenant_id job;
     msg_queue_name := j_queue_name job |}.

(** A durable job is sent under its stored id, any other under a fresh one. *)
Definition dispatch_task_id (job : ExtractionJob) (fresh : string) : string :=
  match j_request_key_sha256 job with
  | Some _ => default fresh (j_celery_task_id job)
  | None => fresh
  end.

Definition recorded_task (now : datetime) (task_id : string) (job : ExtractionJob) : ExtractionJob :=
  job <| j_celery_task_id := Some task_id |> <| j_updated_at := now |>.

(** [_mark_extraction_job_failed(status=failed)] *)
Definition _mark_extraction_job_failed (error error_type : string) (job : ExtractionJob) : ExtractionJob :=
  job <| j_status := ExtractionJobStatus.failed |> <| j_error := Some error |>
      <| j_error_type := Some error_type |>.

(** [_dispatch_extraction_job] and what the request does after it; [sent]: the
    message reached the broker, [acknowledged]: the call returned. *)
Definition dispatch_job (up : Calls) (now : datetime) (job_id : uuid) (fresh : string)
    (sent acknowledged : bool) (s : System) : System :=
  match sy_jobs s !! job_id with
  | Some job =>
      if bool_decide (job_id ∈ sy_accepting s) then
        let task_id := dispatch_task_id job fresh in
        let s := s <| sy_accepting ::= (fun x => x ∖ {[job_id]}) |> in
        let s := if sent then publish (message_of task_id job) s else s in
        if acknowledged then
          if bool_decide (j_status job = ExtractionJobStatus.queued)
             && bool_decide (j_celery_task_id job = None)
          then put_job (recorded_task now task_id job) s else s
        else match j_request_key_sha256 job with
             | Some _ => s
             | None =>
                 release_slot up now (j_tenant_id job) (j_queue_name job) job_id
                   (log (DispatchFailed job_id)
                      (put_job (_mark_extraction_job_failed "dispatch_failed"
                                  (classify_message "dispatch_failed" false false) job) s))
             end
      else s
  | None => s
  end.

(** The broker hands a published message to worker [w]: a duplicate is ignored,
    and its slot released by the postrun handler. *)
Definition deliver (up : Calls) (now : datetime) (w : nat) (m : Message) (s : System) : System :=
  if bool_decide (m ∈ sy_published s) && bool_decide (sy_workers s !! w = None) then
    match _set_db_job_processing now (msg_job_id m) (Some (msg_task_id m)) s with
    | (s', None) => postrun up now m s'
    | (s', Some _) => s' <| sy_workers ::= insert w m |> <| sy_clock := now |>
    end
  else s.

(** What the task's body does. *)
Inductive outcome :=
  | Returns (payload : obj) (created : Z)
  | Raises (f : failure).

(** The rows the worker's two last transactions have loaded before others wrote
    them; [None]: written as loaded. *)
Record Reads := { rd_end : option ExtractionJob; rd_force : option ExtractionJob }.
Definition fresh_reads : Reads := {| rd_end := None; rd_force := None |}.

(** The end of [_process_extraction_job]; [retry]: the task id of the retry, or
    the exception publishing it raised with its traceback text. *)
Definition finish (up : Calls) (now : datetime) (w : nat) (o : outcome) (retry : string + Raised * string)
    (reads : Reads) (s : System) : System :=
  match sy_workers s !! w with
  | None => s
  | Some m =>
      let job_id := msg_job_id m in
      let s := s <| sy_workers ::= delete w |> in
      match o with
      | Returns payload created => postrun up now m (_set_db_job_completed now job_id (rd_end reads) payload created s)
      | Raises f =>
          match _set_db_job_failure now job_id (rd_end reads) (_safe_failure_detail f) (classify_error f) s with
          | (s, (ExtractionJobStatus.dead, _)) => postrun up now m s
          | (s, _) =>
              match retry with
              | inl task_id => publish (m <| msg_task_id := task_id |>) s
              | inr (e, traceback) =>
                  postrun up now m
                    (_force_dead_letter_job now job_id (rd_force reads) traceback (classify_error (Direct e)) s)
              end
          end
      end
  end.

(** The process is lost; the message is still with the broker. *)
Definition lose (w : nat) (s : System) : System := s <| sy_workers ::= delete w |>.

(** ** The watchdog *)

Definition stale (now : datetime) (job : ExtractionJob) : bool :=
  bool_decide (j_status job = ExtractionJobStatus.processing)
  && match j_stale_after job with Some t => (t <? now)%Z | None => false end.

Definition undispatched (now : datetime) (job : ExtractionJob) : bool :=
  bool_decide (j_status job = ExtractionJobStatus.queued) && bool_decide (j_celery_task_id job = None)
  && bool_decide (j_processing_started_at job = None)
  && (j_queued_at job <? now - QUEUED_DISPATCH_GRACE)%Z.

Definition queued_le (a b : ExtractionJob) : bool := (j_queued_at a <=? j_queued_at b)%Z.

(** The rows of a cycle: [ORDER BY queued_at ASC LIMIT 100]. *)
Definition candidate_rows (now : datetime) (s : System) : list ExtractionJob :=
  take 100 (sort_by queued_le
    (filter (fun job => stale now job || undispatched now job = true) (snd <$> map_to_list (sy_jobs s)))).

Definition select_candidates (now : datetime) (s : System) : System :=
  s <| sy_candidates ::= fun l => l ++ ((fun row => {| cd_row := row; cd_now := now |}) <$> candidate_rows now s) |>.

Definition STALE_ERROR : string := "stale_processing_max_attempts_exceeded".

Definition stale_dead_job (now : datetime) (attempts : Z) (job : ExtractionJob) : ExtractionJob :=
  job <| j_status := ExtractionJobStatus.dead |> <| j_attempts := attempts |>
      <| j_error := Some STALE_ERROR |> <| j_dead_lettered_at := Some now |>
      <| j_celery_task_id := None |> <| j_stale_after := None |> <| j_updated_at := now |>.

Definition requeued_job (now : datetime) (attempts : Z) (job : ExtractionJob) : ExtractionJob :=
  job <| j_status := ExtractionJobStatus.queued |> <| j_attempts := attempts |>
      <| j_celery_task_id := None |> <| j_stale_after := None |>
      <| j_error := Some "stale_processing_requeued" |> <| j_updated_at := now |>.

(** [_mark_dead_without_requeue]: the row is written without a guard. *)
Definition _mark_dead_without_requeue (up : Calls) (now : datetime) (row : ExtractionJob) (attempts : Z)
    (s : System) : System :=
  match sy_jobs s !! j_id row with
  | None => s
  | Some job =>
      let old := sy_dead_letters s !! j_id row in
      let s := s <| sy_dead_letters ::=
        insert (j_id row) (dead_letter_of row attempts STALE_ERROR (old ≫= d_error_type) old) |> in
      let s := put_job (stale_dead_job now attempts job) s in
      release_slot up now (j_tenant_id row) (j_queue_name row) (j_id row) (log (GivenUp (j_id row)) s)
  end.

(** The queue of a redispatched job. *)
Definition redispatch_queue (up : Calls) (plans : Plans) (now : datetime) (tenant_id : uuid) (s : System)
    : System * string :=
  let (r, q) := get_extraction_queue up plans (seconds now) (uuid_str tenant_id) (sy_redis s) in
  (s <| sy_redis := r |>, q).

(** A queued row that was never dispatched: lease it, then publish it. *)
Definition recover_queued (up : Calls) (plans : Plans) (c : Candidate) (now : datetime) (task_id : string)
    (published : bool) (s : System) : System :=
  let row := cd_row c in
  match sy_jobs s !! j_id row with
  | None => s
  | Some job =>
      if undispatched (cd_now c) job then
        let s1 := put_job (job <| j_celery_task_id := Some task_id |>
                               <| j_error := Some "queued_dispatch_recovered" |>
                               <| j_updated_at := cd_now c |>) s in
        let stored := py_strip (default EmptyString (j_queue_name row)) in
        let (s2, queue_name) := if bool_decide (stored = EmptyString)
                                then redispatch_queue up plans now (j_tenant_id row) s1
                                else (s1, stored) in
        if published
        then publish {| msg_task_id := task_id; msg_job_id := j_id row;
                        msg_tenant_id := j_tenant_id row; msg_queue_name := Some queue_name |} s2
        else match sy_jobs s2 !! j_id row with
             | Some job' =>
                 if bool_decide (j_status job' = ExtractionJobStatus.queued)
                    && bool_decide (j_celery_task_id job' = Some task_id)
                 then put_job (job' <| j_celery_task_id := None |> <| j_updated_at := now |>) s2 else s2
             | None => s2
             end
      else s
  end.

(** A stale run: requeue it under compare-and-set, then publish it; [false]: the
    publication raised, which ends the cycle. *)
Definition requeue_stale (up : Calls) (plans : Plans) (c : Candidate) (now : datetime) (task_id : string)
    (published : bool) (s : System) : System * bool :=
  let row := cd_row c in
  let current_attempts := (j_attempts row + 1)%Z in
  if (max_attempts row <? current_attempts)%Z
  then (_mark_dead_without_requeue up now row current_attempts s, true)
  else
    match sy_jobs s !! j_id row with
    | None => (s, true)
    | Some job =>
        if bool_decide (j_status job = ExtractionJobStatus.processing)
           && bool_decide (j_stale_after job = j_stale_after row) && bool_decide (is_Some (j_stale_after row))
        then
          let s1 := log (Requeued (j_id row))
            (put_job (requeued_job now current_attempts job) s) in
          let (s2, queue_name) := redispatch_queue up plans now (j_tenant_id row) s1 in
          (if published
           then publish {| msg_task_id := task_id; msg_job_id := j_id row;
                           msg_tenant_id := j_tenant_id row; msg_queue_name := Some queue_name |} s2
           else s2, published)
        else (s, true)
    end.

(** One row of a cycle. *)
Definition handle_row (up : Calls) (plans : Plans) (c : Candidate) (now : datetime) (task_id : string)
    (published : bool) (s : System) : System * bool :=
  if bool_decide (j_status (cd_row c) = ExtractionJobStatus.queued)
  then (recover_queued up plans c now task_id published s, true)
  else requeue_stale up plans c now task_id published s.

(** [run_watchdog_cycle] with nothing else running; [task_id] and [published]
    give each row's fresh task id and its publication's outcome. *)
Fixpoint handle_rows (up : Calls) (plans : Plans) (task_id : uuid -> string) (published : uuid -> bool)
    (now : datetime) (rows : list ExtractionJob) (s : System) : System * bool :=
  match rows with
  | [] => (s, true)
  | row :: rows =>
      match handle_row up plans {| cd_row := row; cd_now := now |} now (task_id (j_id row))
              (published (j_id row)) s with
      | (s', false) => (s', false)
      | (s', true) => handle_rows up plans task_id published now rows s'
      end
  end.

Definition run_watchdog_cycle (up : Calls) (plans : Plans) (task_id : uuid -> string)
    (published : uuid -> bool) (now : datetime) (s : System) : System * bool :=
  handle_rows up plans task_id published now (candidate_rows now s) s.

(** ** Durable dispatch recovery *)

(** The rows the recovery re-checks before it publishes. *)
Record Authority := {
  au_tenant_active : option bool;                 (* the tenant's row, if any *)
  au_owner : option (bool * uuid * string);       (* is_blocked, tenant_id, external_user_id_hash *)
  au_binding_owner_hash : option string;          (* hash of the binding's owner_id; [None]: no binding *)
  au_key : option (option (bool * uuid * list string));  (* the payload's API key: is_active, tenant, permissions *)
}.

Definition recovery_authorized (tenant_id : uuid) (a : Authority) : bool :=
  bool_decide (au_tenant_active a = Some true)
  && match au_owner a, au_binding_owner_hash a with
     | Some (blocked, owner_tenant, hash), Some expected =>
         negb blocked && bool_decide (owner_tenant = tenant_id) && bool_decide (hash = expected)
     | _, _ => false
     end
  && match au_key a with
     | None => true
     | Some None => false
     | Some (Some (active, key_tenant, permissions)) =>
         let lowered := (fun p => py_lower (py_strip p)) <$> permissions in
         active && bool_decide (key_tenant = tenant_id)
         && (bool_decide ("write" ∈ lowered) || bool_decide ("admin" ∈ lowered))
     end.

Inductive recovery_result := NotEligible | Skipped | Leased | Published | PublishFailed.

(** One row of [run_durable_dispatch_recovery]. *)
Definition recover_durable (now : datetime) (job_id : uuid) (a : Authority) (published : bool) (s : System)
    : System * recovery_result :=
  match sy_jobs s !! job_id with
  | Some job =>
      if bool_decide (j_status job = ExtractionJobStatus.queued)
         && bool_decide (j_processing_started_at job = None)
         && bool_decide (is_Some (j_request_key_sha256 job))
      then
        if negb (recovery_authorized (j_tenant_id job) a)
        then (put_job (job <| j_updated_at := now |>) s, Skipped)
        else match text_given (j_celery_task_id job) with
             | None => (put_job (job <| j_celery_task_id := Some (uuid_str job_id) |>) s, Leased)
             | Some task_id =>
                 if published
                 then (put_job (job <| j_updated_at := now |>) (publish (message_of task_id job) s), Published)
                 else (s, PublishFailed)
             end
      else (s, NotEligible)
  | None => (s, NotEligible)
  end.

(** ** An operator's retry of a dead job (without a runtime guard) *)

Definition retried_job (now : datetime) (res : QueueReservation) (job : ExtractionJob) : ExtractionJob :=
  job <| j_status := ExtractionJobStatus.queued |> <| j_queue_name := Some (qr_queue_name res) |>
      <| j_payload := jset "job_id" (JStr (uuid_str (j_id job))) (jset "plan_tier" (JStr (qr_plan_tier res))
                        (jset "queue_name" (JStr (qr_queue_name res)) (j_payload job))) |>
      <| j_celery_task_id := None |> <| j_attempts := 0%Z |> <| j_memories_created := 0%Z |>
      <| j_error := None |> <| j_error_type := None |> <| j_stale_after := None |>
      <| j_processing_started_at := None |> <| j_completed_at := None |>
      <| j_dead_lettered_at := None |> <| j_updated_at := now |>.

Definition retry_dead_letter_job (up : Calls) (plans : Plans) (now : datetime) (job_id : uuid)
    (task_id : string) (s : System) : System :=
  match sy_jobs s !! job_id with
  | Some job =>
      if bool_decide (j_status job = ExtractionJobStatus.dead) then
        let (r, reservation) := reserve_extraction_slot up plans (seconds now)
          (uuid_str (j_tenant_id job)) (uuid_str job_id) (sy_redis s) in
        let s := s <| sy_redis := r |> in
        match reservation with
        | None => s
        | Some res =>
            let job' := retried_job now res job in
            publish (message_of task_id job')
              (log (Retried job_id)
                 (put_job job' (s <| sy_dead_letters ::=
                    alter (fun d => d <| d_last_retried_at := Some now |>) job_id |>)))
        end
      else s
  | None => s
  end.

(** ** The transition system *)

Inductive event :=
  | Accept (up : Calls) (plans : Plans) (now : datetime) (a : Acceptance)
  | Dispatch (up : Calls) (now : datetime) (job_id : uuid) (fresh : string) (sent acknowledged : bool)
  | Deliver (up : Calls) (now : datetime) (w : nat) (m : Message)
  | Finish (up : Calls) (now : datetime) (w : nat) (o : outcome) (retry : string + Raised * string)
      (reads : Reads)
  | Lose (w : nat)
  | WatchdogSelect (now : datetime)
  | WatchdogRow (up : Calls) (plans : Plans) (now : datetime) (i : nat) (task_id : string) (published : bool)
  | RecoverDurable (now : datetime) (job_id : uuid) (a : Authority) (published : bool)
  | RetryDead (up : Calls) (plans : Plans) (now : datetime) (job_id : uuid) (task_id : string).

Definition step (s : System) (e : event) : System :=
  match e with
  | Accept up plans now a => accept up plans now a s
  | Dispatch up now j fresh sent acknowledged => dispatch_job up now j fresh sent acknowledged s
  | Deliver up now w m => deliver up now w m s
  | Finish up now w o retry reads => finish up now w o retry reads s
  | Lose w => lose w s
  | WatchdogSelect now => select_candidates now s
  | WatchdogRow up plans now i task_id published =>
      match sy_candidates s !! i with
      | Some c => (handle_row up plans c now task_id published (s <| sy_candidates ::= delete i |>)).1
      | None => s
      end
  | RecoverDurable now j a published => (recover_durable now j a published s).1
  | RetryDead up plans now j task_id => retry_dead_letter_job up plans now j task_id s
  end.

Definition initial : System :=
  {| sy_jobs := ∅; sy_dead_letters := ∅; sy_accepting := ∅; sy_published := []; sy_workers := ∅;
     sy_candidates := []; sy_redis := empty_redis; sy_clock := 0; sy_log := [] |}.

Definition run (events : list event) : System := fold_left step events initial.

(** Runs in which deliveries happen at later and later times, and no other
    transaction writes a row between a worker's loading and writing it. *)
Definition regular_event (s : System) (e : event) : bool :=
  match e with
  | Deliver _ now _ _ => (sy_clock s <? now)%Z
  | Finish _ _ _ _ _ reads => bool_decide (rd_end reads = None) && bool_decide (rd_force reads = None)
  | _ => true
  end.
Fixpoint regular (s : System) (events : list event) : bool :=
  match events with
  | [] => true
  | e :: events => regular_event s e && regular (step s e) events
  end.

(** ** Counting *)

Definition count (e : log_entry) (s : System) : Z := Z.of_nat (length (filter (eq e) (sy_log s))).

(** The runs of a job in progress. *)
Definition running (job_id : uuid) (s : System) : nat :=
  size (filter (fun wm : nat * Message => msg_job_id wm.2 = job_id) (sy_workers s)).
End Steps.

(** ** The invariant *)

#[local] Opaque _normalize_stored_error stored_error_type classify_message _safe_failure_detail
  release_extraction_slot_sync get_extraction_queue reserve_extraction_slot.

Definition waiting (status : ExtractionJobStatus.t) : Z :=
  match status with ExtractionJobStatus.queued | ExtractionJobStatus.failed => 1 | _ => 0 end.
Definition in_process (status : ExtractionJobStatus.t) : Z :=
  match status with ExtractionJobStatus.processing => 1 | _ => 0 end.

Definition start_bound (j : uuid) (s : System) : Z :=
  (4 * (1 + count (Retried j) s) + count (DispatchFailed j) s)%Z.

(** Times the watchdog or a failed dispatch took the job from a run. *)
Definition interventions (j : uuid) (s : System) : Z :=
  (count (Requeued j) s + count (GivenUp j) s + count (DispatchFailed j) s)%Z.

Record job_ok (s : System) (j : uuid) (job : ExtractionJob) : Prop := {
  jo_id : j_id job = j;
  jo_max : j_max_attempts job = DEFAULT_MAX_EXTRACTION_ATTEMPTS;
  (** every start is paid by an attempt, a failed dispatch or a retry *)
  jo_paid : (count (Started j) s + waiting (j_status job)
             <= j_attempts job + 1 + count (DispatchFailed j) s + 4 * count (Retried j) s)%Z;
  jo_bound : (count (Started j) s + waiting (j_status job) <= start_bound j s)%Z;
  jo_running : (Z.of_nat (running j s) <= in_process (j_status job) + interventions j s)%Z;
  jo_dead : j_status job = ExtractionJobStatus.dead ->
            exists d, sy_dead_letters s !! j = Some d /\ d_error d = j_error job;
  jo_once : (count (DispatchFailed j) s <= if decide (j ∈ sy_accepting s) then 0 else 1)%Z;
  jo_stale t : j_stale_after job = Some t -> (t <= sy_clock s + JOB_STALE_TIMEOUT)%Z;
  (** a loaded row with the run's deadline has the run's attempts *)
  jo_candidate c : c ∈ sy_candidates s -> j_id (cd_row c) = j ->
    j_status job = ExtractionJobStatus.processing -> is_Some (j_stale_after job) ->
    j_stale_after job = j_stale_after (cd_row c) -> j_attempts job = j_attempts (cd_row c);
}.

Record absent_ok (s : System) (j : uuid) : Prop := {
  ab_started : count (Started j) s = 0%Z;
  ab_failed : count (DispatchFailed j) s = 0%Z;
  ab_running : running j s = 0%nat;
}.

Record candidate_ok (s : System) (c : Candidate) : Prop := {
  cn_known : is_Some (sy_jobs s !! j_id (cd_row c));
  cn_max : j_max_attempts (cd_row c) = DEFAULT_MAX_EXTRACTION_ATTEMPTS;
  cn_stale t : j_stale_after (cd_row c) = Some t -> (t <= sy_clock s + JOB_STALE_TIMEOUT)%Z;
}.

Definition slot_ok (s : System) (j : uuid) : Prop :=
  match sy_jobs s !! j with Some job => job_ok s j job | None => absent_ok s j end.

Record sys_ok (s : System) : Prop := {
  sk_jobs j : slot_ok s j;
  sk_candidates c : c ∈ sy_candidates s -> candidate_ok s c;
}.

(** A step that concerns job [j] only. *)
Record others (j : uuid) (s s' : System) : Prop := {
  ot_jobs i : i <> j -> sy_jobs s' !! i = sy_jobs s !! i;
  ot_dead i : i <> j -> sy_dead_letters s' !! i = sy_dead_letters s !! i;
  ot_accepting i : i <> j -> i ∈ sy_accepting s' <-> i ∈ sy_accepting s;
  ot_started i : i <> j -> count (Started i) s' = count (Started i) s;
  ot_failed i : i <> j -> count (DispatchFailed i) s' = count (DispatchFailed i) s;
  ot_requeued i : i <> j -> count (Requeued i) s' = count (Requeued i) s;
  ot_given_up i : i <> j -> count (GivenUp i) s' = count (GivenUp i) s;
  ot_retried i : i <> j -> count (Retried i) s' = count (Retried i) s;
  ot_running i : i <> j -> running i s' = running i s;
  ot_candidates c : c ∈ sy_candidates s' -> c ∈ sy_candidates s;
  ot_clock : (sy_clock s <= sy_clock s')%Z;
}.

Lemma count_nonneg e s : (0 <= count e s)%Z.
Proof. unfold count. lia. Qed.

Lemma sys_ok_step s s' j :
  sys_ok s -> others j s s' -> slot_ok s' j -> (is_Some (sy_jobs s !! j) -> is_Some (sy_jobs s' !! j)) ->
  sys_ok s'.
Proof.
  intros [Hj Hc] [O1 O2 O3 O4 O5 O6 O7 O8 O9 O10 O11] Hslot Hsome. constructor.
  - intros i. destruct (decide (i = j)) as [->|Hi]; [done|]. specialize (Hj i). unfold slot_ok in *.
    rewrite O1 by done. destruct (sy_jobs s !! i) as [job|].
    + destruct Hj as [A1 A2 A3 A4 A5 A6 A7 A8 A9]. constructor; unfold start_bound, interventions in *;
        rewrite ?O2, ?O4, ?O5, ?O6, ?O7, ?O8, ?O9 by done; try done.
      * pose proof (O3 i Hi). destruct (decide (i ∈ sy_accepting s)), (decide (i ∈ sy_accepting s')); tauto || done.
      * intros t Ht. specialize (A8 t Ht). lia.
      * intros c Hc'. by apply A9, O10.
    + destruct Hj. constructor; rewrite ?O4, ?O5, ?O9 by done; done.
  - intros c Hin. destruct (Hc c (O10 c Hin)) as [Hk ? Hs]. constructor; [|done|].
    + destruct (decide (j_id (cd_row c) = j)) as [Heq|Hne]; [rewrite Heq in *; by apply Hsome|by rewrite O1].
    + intros t Ht. specialize (Hs t Ht). lia.
Qed.

Lemma count_log e e' s : count e (log e' s) = (count e s + if decide (e = e') then 1 else 0)%Z.
Proof. unfold count, log. simpl. rewrite filter_cons. case_decide; simpl; lia. Qed.

Lemma running_insert i w m s :
  sy_workers s !! w = None ->
  running i (s <| sy_workers ::= insert w m |>)
    = if decide (msg_job_id m = i) then S (running i s) else running i s.
Proof.
  intros Hw. unfold running. simpl. case_decide as Hm.
  - rewrite map_filter_insert_True by done. rewrite map_size_insert_None; [done|].
    apply map_lookup_filter_None. by left.
  - by rewrite map_filter_insert_not' by (simpl; intros; congruence).
Qed.

Lemma running_delete i w m s :
  sy_workers s !! w = Some m ->
  running i s = if decide (msg_job_id m = i) then S (running i (s <| sy_workers ::= delete w |>))
                else running i (s <| sy_workers ::= delete w |>).
Proof.
  intros Hw. rewrite <- (running_insert i w m) by (simpl; apply lookup_delete_eq).
  unfold running. simpl. by rewrite insert_delete_id.
Qed.

(** Replacing the row of a known job. *)
Lemma known_job_ok s s' j job job' :
  sys_ok s -> sy_jobs s !! j = Some job -> others j s s' -> sy_jobs s' !! j = Some job' ->
  job_ok s' j job' -> sys_ok s'.
Proof.
  intros Hs Hj Ho Hj' Hok. apply (sys_ok_step s s' j); [done..| |by eexists].
  unfold slot_ok. by rewrite Hj'.
Qed.

Lemma sys_ok_job s j job : sys_ok s -> sy_jobs s !! j = Some job -> job_ok s j job.
Proof. intros [Hj _] Hjob. specialize (Hj j). unfold slot_ok in Hj. by rewrite Hjob in Hj. Qed.

(** The fields of a known job, named. *)
Ltac known Hs Hjob :=
  destruct (sys_ok_job _ _ _ Hs Hjob) as
    [Kid Kmax Kpaid Kbound Krunning Kdead Konce Kstale Kcand].

Ltac others_step :=
  constructor; intros; simpl; unfold put_job, log; simpl;
  rewrite ?lookup_insert_ne by congruence; rewrite ?count_log; rewrite ?decide_False by congruence;
  try done; try lia.

Lemma others_put j job s : j_id job = j -> others j s (put_job job s).
Proof. intros <-. others_step. Qed.

Lemma others_log_put j job e s :
  j_id job = j -> e ∈ [Started j; DispatchFailed j; Requeued j; GivenUp j; Retried j] ->
  others j s (log e (put_job job s)).
Proof.
  intros <- He. constructor; intros; simpl; rewrite ?lookup_insert_ne by congruence; try done; try lia;
    (rewrite count_log, decide_False; [change (count ?x (put_job job s)) with (count x s); lia|]);
    intros <-; set_solver.
Qed.

Lemma set_processing_ok now j task s s' n :
  sys_ok s -> (sy_clock s < now)%Z -> _set_db_job_processing now j task s = (s', Some n) ->
  forall w m, msg_job_id m = j -> sy_workers s !! w = None ->
  sys_ok (s' <| sy_workers ::= insert w m |> <| sy_clock := now |>).
Proof.
  intros Hs Hnow Hset w m Hm Hw. unfold _set_db_job_processing in Hset.
  destruct (sy_jobs s !! j) as [job|] eqn:Hjob; [|done].
  destruct (negb (_ || _)) eqn:Hwait; [done|]. destruct (negb _ && _); [done|].
  injection Hset as <- <-. known Hs Hjob.
  assert (waiting (j_status job) = 1%Z /\ in_process (j_status job) = 0%Z) as [Hw1 Hp0].
  { apply negb_false_iff, orb_true_iff in Hwait.
    by destruct Hwait as [E|E]; apply bool_decide_eq_true in E; rewrite E. }
  set (s1 := log (Started j) (put_job (processing_job now task job) s)).
  apply (known_job_ok s _ j job (processing_job now task job)); [done..| | |].
  - assert (others j s s1) as [? ? ? ? ? ? ? ? O ? ?]
      by (apply others_log_put; [done|set_solver]).
    constructor; try done; try (simpl; lia). intros i Hi. specialize (O i Hi).
    change (running i (_ <| sy_clock := now |>)) with (running i (s1 <| sy_workers ::= insert w m |>)).
    rewrite running_insert by done. rewrite decide_False by congruence. done.
  - simpl. rewrite Kid. apply lookup_insert_eq.
  - assert (forall e, count e (s1 <| sy_workers ::= insert w m |> <| sy_clock := now |>)
                      = (count e s + if decide (e = Started j) then 1 else 0)%Z) as Hc.
    { intros e. apply (count_log e (Started j) (put_job (processing_job now task job) s)). }
    assert (running j (s1 <| sy_workers ::= insert w m |> <| sy_clock := now |>) = S (running j s)) as Hr.
    { change (running j (_ <| sy_clock := now |>)) with (running j (s1 <| sy_workers ::= insert w m |>)).
      by rewrite running_insert, decide_True. }
    constructor; try done; unfold start_bound, interventions in *; rewrite ?Hc, ?Hr;
      rewrite ?(decide_False (P := DispatchFailed j = Started j)),
        ?(decide_False (P := Retried j = Started j)), ?(decide_False (P := Requeued j = Started j)),
        ?(decide_False (P := GivenUp j = Started j)) by congruence;
      rewrite ?decide_True by done; simpl; try lia.
    + intros t [= <-]. lia.
    + intros c Hc' Hcj _ _ E. destruct (sk_candidates s Hs c Hc') as [_ _ Hst].
      specialize (Hst _ (eq_sym E)). exfalso. lia.
Qed.

(** Losing a run leaves room for the status to leave processing. *)
Lemma lose_ok w m s :
  sys_ok s -> sy_workers s !! w = Some m ->
  sys_ok (lose w s) /\
  (forall job, sy_jobs s !! msg_job_id m = Some job ->
     (Z.of_nat (running (msg_job_id m) (lose w s)) + 1
      <= in_process (j_status job) + interventions (msg_job_id m) s)%Z).
Proof.
  intros Hs Hw. pose proof (fun i => running_delete i w m s Hw) as Hr. fold (lose w s) in Hr.
  split.
  - apply (sys_ok_step s (lose w s) (msg_job_id m)); [done| | |done].
    + constructor; try done. intros i Hi. rewrite (Hr i). by rewrite decide_False by congruence.
    + pose proof (sk_jobs s Hs (msg_job_id m)) as Hslot. unfold slot_ok in *. simpl.
      specialize (Hr (msg_job_id m)). rewrite decide_True in Hr by done.
      destruct (sy_jobs s !! msg_job_id m) as [job|].
      * destruct Hslot as [A1 A2 A3 A4 A5 A6 A7 A8 A9]. constructor; try done.
        change (interventions _ (lose w s)) with (interventions (msg_job_id m) s). lia.
      * destruct Hslot as [? ? Hz]. rewrite Hr in Hz. done.
  - intros job Hjob. specialize (Hr (msg_job_id m)). rewrite decide_True in Hr by done.
    pose proof (jo_running s _ job (sys_ok_job s _ job Hs Hjob)). lia.
Qed.

(** A transaction that ends a job's run. *)
Lemma settled_ok s j job job' dl :
  sys_ok s -> sy_jobs s !! j = Some job ->
  j_id job' = j_id job -> j_max_attempts job' = j_max_attempts job -> j_stale_after job' = None ->
  in_process (j_status job') = 0%Z -> (Z.of_nat (running j s) <= interventions j s)%Z ->
  (j_attempts job + waiting (j_status job') <= j_attempts job')%Z ->
  (waiting (j_status job') = 1%Z -> (j_attempts job' <= 3)%Z) ->
  (forall i, i <> j -> dl !! i = sy_dead_letters s !! i) ->
  (j_status job' = ExtractionJobStatus.dead -> exists d, dl !! j = Some d /\ d_error d = j_error job') ->
  sys_ok (put_job job' (s <| sy_dead_letters := dl |>)).
Proof.
  intros Hs Hjob Eid Emax Est Eproc Hslack Hatt Hroom Hdl Hdead. known Hs Hjob.
  apply (known_job_ok s _ j job job'); [done..| | |].
  - constructor; try done. intros i Hi. simpl. by rewrite lookup_insert_ne by congruence.
  - simpl. rewrite Eid, Kid. apply lookup_insert_eq.
  - constructor; simpl; try congruence; try done.
    + change (count ?x (put_job _ _)) with (count x s).
      assert (0 <= waiting (j_status job))%Z by (destruct (j_status job); simpl; lia). lia.
    + unfold start_bound. change (count ?x (put_job _ _)) with (count x s). unfold start_bound in Kbound.
      assert (0 <= waiting (j_status job))%Z by (destruct (j_status job); simpl; lia).
      destruct (j_status job'); simpl in *; try specialize (Hroom eq_refl); lia.
    + rewrite Eproc. done.
    + intros c _ _ Hp. rewrite Hp in Eproc. done.
Qed.

(** A row written as it was loaded. *)
Lemma flushed_row_same job changed :
  (j_id changed, j_tenant_id changed, j_proxy_user_id changed, j_queue_name changed, j_request_key_sha256 changed, j_payload changed, j_max_attempts changed, j_queued_at changed, j_processing_started_at changed) = (j_id job, j_tenant_id job, j_proxy_user_id job, j_queue_name job, j_request_key_sha256 job, j_payload job, j_max_attempts job, j_queued_at job, j_processing_started_at job) ->
  flushed_row job changed job = changed.
Proof. unfold flushed_row. rewrite !column_same. destruct changed; cbn. by intros [= <- <- <- <- <- <- <- <- <-]. Qed.

Lemma completed_ok now j payload created s :
  sys_ok s -> (Z.of_nat (running j s) <= interventions j s)%Z ->
  sys_ok (_set_db_job_completed now j None payload created s).
Proof.
  intros Hs Hslack. unfold _set_db_job_completed. destruct (sy_jobs s !! j) as [job|] eqn:Hjob; [|done].
  cbn [default]. unfold Datatypes.id. rewrite flushed_row_same by reflexivity.
  apply (settled_ok s j job (completed_job now payload created job) (sy_dead_letters s)); try done.
  simpl. lia.
Qed.

(** The dead letter written with the row has the row's error. *)
Lemma dead_lettered_ok s j job job' error error_type :
  sys_ok s -> sy_jobs s !! j = Some job ->
  j_id job' = j_id job -> j_max_attempts job' = j_max_attempts job -> j_stale_after job' = None ->
  j_status job' = ExtractionJobStatus.dead -> (Z.of_nat (running j s) <= interventions j s)%Z ->
  (j_attempts job <= j_attempts job')%Z -> j_error job' = Some error ->
  sys_ok (put_job job' (_upsert_dead_letter_job job' error error_type s)).
Proof.
  intros Hs Hjob Eid Emax Est Edead Hslack Hatt Eerr.
  set (d := dead_letter_of job' (j_attempts job') error (Some error_type) (sy_dead_letters s !! j_id job')).
  change (sys_ok (put_job job' (s <| sy_dead_letters := <[j_id job' := d]> (sy_dead_letters s) |>))).
  pose proof (jo_id s j job (sys_ok_job s j job Hs Hjob)) as Kid.
  apply (settled_ok s j job); try done.
  - by rewrite Edead.
  - rewrite Edead. simpl. lia.
  - by rewrite Edead.
  - intros i Hi. by rewrite lookup_insert_ne by congruence.
  - intros _. exists d. split; [|by rewrite Eerr]. rewrite Eid, Kid. apply lookup_insert_eq.
Qed.

Lemma forced_ok now j error error_type s :
  sys_ok s -> (Z.of_nat (running j s) <= interventions j s)%Z ->
  sys_ok (_force_dead_letter_job now j None error error_type s).
Proof.
  intros Hs Hslack. unfold _force_dead_letter_job. destruct (sy_jobs s !! j) as [job|] eqn:Hjob; [|done].
  cbn [default]. unfold Datatypes.id. rewrite flushed_row_same by reflexivity. apply (dead_lettered_ok s j job); done.
Qed.

Lemma job_failure_ok now j error error_type s s' st :
  sys_ok s -> (Z.of_nat (running j s) <= interventions j s)%Z ->
  _set_db_job_failure now j None error error_type s = (s', st) ->
  sys_ok s' /\ (Z.of_nat (running j s') <= interventions j s')%Z.
Proof.
  intros Hs Hslack. unfold _set_db_job_failure. destruct (sy_jobs s !! j) as [job|] eqn:Hjob;
    [|by intros [= <- _]].
  cbn [default]. unfold Datatypes.id.
  destruct (Z.leb_spec (max_attempts job) (j_attempts job + 1)) as [Hmax|Hmax];
    intros [= <- _]; (split; [|done]); rewrite flushed_row_same by reflexivity.
  - apply (dead_lettered_ok s j job); try done. simpl. lia.
  - assert (max_attempts job = 3%Z) as E.
    { unfold max_attempts. by rewrite (jo_max s j job (sys_ok_job s j job Hs Hjob)). }
    apply (settled_ok s j job _ (sy_dead_letters s)); try done; simpl; lia.
Qed.

(** Messages, slots and dropped candidates do not matter to the invariant. *)
Lemma sys_ok_same s s' :
  sy_jobs s' = sy_jobs s -> sy_dead_letters s' = sy_dead_letters s -> sy_accepting s' = sy_accepting s ->
  sy_workers s' = sy_workers s -> (forall c, c ∈ sy_candidates s' -> c ∈ sy_candidates s) ->
  sy_clock s' = sy_clock s -> sy_log s' = sy_log s -> sys_ok s -> sys_ok s'.
Proof.
  intros E1 E2 E3 E4 E5 E6 E7 [Hj Hc].
  assert (forall e, count e s' = count e s) as Ec by (intros e; unfold count; by rewrite E7).
  assert (forall i, running i s' = running i s) as Er by (intros i; unfold running; by rewrite E4).
  constructor.
  - intros j. specialize (Hj j). unfold slot_ok in *. rewrite E1.
    destruct (sy_jobs s !! j) as [job|]; destruct Hj; constructor;
      unfold start_bound, interventions in *; rewrite ?Ec, ?Er, ?E2, ?E3, ?E6; auto.
  - intros c Hin. destruct (Hc c (E5 c Hin)). constructor; rewrite ?E1, ?E6; done.
Qed.

Lemma sys_ok_redis f s : sys_ok s -> sys_ok (s <| sy_redis ::= f |>).
Proof. by apply sys_ok_same. Qed.

Lemma sys_ok_publish m s : sys_ok s -> sys_ok (publish m s).
Proof. by apply sys_ok_same. Qed.

Section Preservation.
Context `{PyLib}.

Lemma postrun_ok up now m s : sys_ok s -> sys_ok (postrun up now m s).
Proof. apply sys_ok_redis. Qed.

Lemma finish_ok up now w o retry s : sys_ok s -> sys_ok (finish up now w o retry fresh_reads s).
Proof.
  intros Hs. unfold finish. destruct (sy_workers s !! w) as [m|] eqn:Hw; [|done].
  destruct (lose_ok w m s Hs Hw) as [Hs1 Hslack]. fold (lose w s). set (s1 := lose w s) in *.
  assert (Z.of_nat (running (msg_job_id m) s1) <= interventions (msg_job_id m) s1)%Z as Hroom.
  { change (interventions (msg_job_id m) s1) with (interventions (msg_job_id m) s).
    pose proof (sk_jobs s Hs (msg_job_id m)) as Hslot. unfold slot_ok in Hslot.
    destruct (sy_jobs s !! msg_job_id m) as [job|].
    - specialize (Hslack job eq_refl). destruct (j_status job); simpl in Hslack; lia.
    - destruct Hslot as [_ _ Hz]. pose proof (running_delete (msg_job_id m) w m s Hw) as Hr.
      rewrite decide_True in Hr by done. congruence. }
  destruct o as [payload created|f].
  - by apply postrun_ok, completed_ok.
  - destruct (_set_db_job_failure now (msg_job_id m) _ _ _ s1) as [s2 [st n]] eqn:Hf.
    destruct (job_failure_ok _ _ _ _ _ _ _ Hs1 Hroom Hf) as [Hs2 Hroom2].
    assert (sys_ok match retry with
      | inl task_id => publish (m <| msg_task_id := task_id |>) s2
      | inr (e, traceback) => postrun up now m (_force_dead_letter_job now (msg_job_id m) None traceback
                                                  (classify_error (Direct e)) s2)
      end) as Hretry.
    { destruct retry as [task_id|[e traceback]]; [by apply sys_ok_publish|by apply postrun_ok, forced_ok]. }
    destruct st; try exact Hretry. by apply postrun_ok.
Qed.

Lemma deliver_ok up now w m s : sys_ok s -> (sy_clock s < now)%Z -> sys_ok (deliver up now w m s).
Proof.
  intros Hs Hnow. unfold deliver. destruct (_ && _)%bool eqn:Hc; [|done].
  apply andb_true_iff in Hc as [_ Hw]. apply bool_decide_eq_true in Hw.
  destruct (_set_db_job_processing now (msg_job_id m) (Some (msg_task_id m)) s) as [s' [n|]] eqn:Hset.
  - by eapply set_processing_ok.
  - assert (s' = s) as ->; [|by apply postrun_ok]. unfold _set_db_job_processing in Hset.
    repeat case_match; by simplify_eq.
Qed.

Lemma put_new_job_ok now a q (s : System) :
  sys_ok s -> sy_jobs s !! ac_job_id a = None ->
  sys_ok (put_job (new_job now a q) s <| sy_accepting ::= union {[ac_job_id a]} |>).
Proof.
  intros Hs Hnew. set (j := ac_job_id a).
  pose proof (sk_jobs s Hs j) as Hslot. unfold slot_ok in Hslot. subst j. rewrite Hnew in Hslot.
  set (j := ac_job_id a) in *. destruct Hslot as [Z1 Z2 Z3].
  apply (sys_ok_step s _ j); [done| | |by intros [? ?]; simplify_eq].
  - constructor; try done; intros i Hi; simpl; [by rewrite lookup_insert_ne|set_solver].
  - unfold slot_ok. set (s' := put_job _ _).
    assert (sy_jobs s' !! j = Some (new_job now a q)) as -> by apply lookup_insert_eq.
    assert (forall e, count e s' = count e s) as Ec by done.
    assert (running j s' = running j s) as Er by done.
    pose proof (count_nonneg (Retried j) s). pose proof (count_nonneg (Requeued j) s).
    pose proof (count_nonneg (GivenUp j) s).
    constructor; try done; unfold start_bound, interventions; rewrite ?Ec, ?Er, ?Z1, ?Z2, ?Z3; simpl; try lia.
    case_decide; lia.
Qed.

Lemma accept_ok up plans now a s : sys_ok s -> sys_ok (accept up plans now a s).
Proof.
  intros Hs. unfold accept. destruct (sy_jobs s !! ac_job_id a) eqn:Hj; [done|].
  destruct (reserve_extraction_slot up plans (seconds now) _ _ (sy_redis s)) as [r [res|]]; [|by apply (sys_ok_redis (fun _ => r))].
  apply (put_new_job_ok now a _ (s <| sy_redis := r |>)); [by apply (sys_ok_redis (fun _ => r))|done].
Qed.

(** Replacing a row without touching what the invariant speaks of. *)
Lemma quiet_ok s j job job' :
  sys_ok s -> sy_jobs s !! j = Some job ->
  j_id job' = j_id job -> j_max_attempts job' = j_max_attempts job -> j_status job' = j_status job ->
  j_attempts job' = j_attempts job -> j_stale_after job' = j_stale_after job ->
  (j_status job = ExtractionJobStatus.dead -> j_error job' = j_error job) ->
  sys_ok (put_job job' s).
Proof.
  intros Hs Hjob E1 E2 E3 E4 E5 E6. known Hs Hjob.
  apply (known_job_ok s _ j job job'); [done..|by apply others_put; congruence| |].
  - simpl. rewrite E1, Kid. apply lookup_insert_eq.
  - constructor; rewrite ?E1, ?E2, ?E3, ?E4, ?E5; try done.
    intros Hd. rewrite (E6 Hd). by apply Kdead.
Qed.

Lemma unaccept_ok s j : sys_ok s -> sys_ok (s <| sy_accepting ::= (fun x => x ∖ {[j]}) |>).
Proof.
  intros Hs. apply (sys_ok_step s _ j); [done| | |done].
  - constructor; try done. intros i Hi. simpl. set_solver.
  - pose proof (sk_jobs s Hs j) as Hslot. unfold slot_ok in *. simpl.
    destruct (sy_jobs s !! j) as [job|]; destruct Hslot; constructor; try done.
    simpl. rewrite decide_False by set_solver.
    change (count ?x {| sy_jobs := _ |}) with (count x s). case_decide; lia.
Qed.

Lemma dispatch_failed_ok s j job e t :
  sys_ok s -> sy_jobs s !! j = Some job -> j ∉ sy_accepting s -> count (DispatchFailed j) s = 0%Z ->
  sys_ok (log (DispatchFailed j) (put_job (_mark_extraction_job_failed e t job) s)).
Proof.
  intros Hs Hjob Hacc Hzero. known Hs Hjob.
  set (s' := log _ _). set (job' := _mark_extraction_job_failed e t job) in *.
  assert (forall x, count x s' = (count x s + if decide (x = DispatchFailed j) then 1 else 0)%Z) as Ec
    by apply (fun x => count_log x _ (put_job job' s)).
  assert (running j s' = running j s) as Er by done.
  assert (0 <= waiting (j_status job) /\ in_process (j_status job) <= 1)%Z by (destruct (j_status job); simpl; lia).
  apply (known_job_ok s _ j job job'); [done..|apply others_log_put; [done|set_solver]| |].
  - simpl. rewrite Kid. apply lookup_insert_eq.
  - constructor; try done; unfold start_bound, interventions in *; rewrite ?Ec, ?Er, ?Hzero in *;
      repeat (rewrite decide_False by congruence); rewrite ?decide_True by done; simpl; try lia.
    simpl in Hacc. rewrite decide_False by done. lia.
Qed.

Lemma dispatch_ok up now j fresh sent acknowledged s :
  sys_ok s -> sys_ok (dispatch_job up now j fresh sent acknowledged s).
Proof.
  intros Hs. unfold dispatch_job. destruct (sy_jobs s !! j) as [job|] eqn:Hjob; [|done].
  destruct (decide (j ∈ sy_accepting s)) as [Hacc|Hacc];
    [rewrite bool_decide_true by done|by rewrite bool_decide_false].
  pose proof (jo_once s j job (sys_ok_job s j job Hs Hjob)) as Hzero. rewrite decide_True in Hzero by done.
  pose proof (count_nonneg (DispatchFailed j) s).
  set (s0 := s <| sy_accepting ::= _ |>).
  assert (exists s1, (if sent then publish (message_of (dispatch_task_id job fresh) job) s0 else s0) = s1 /\
    sys_ok s1 /\ sy_jobs s1 !! j = Some job /\ j ∉ sy_accepting s1 /\ count (DispatchFailed j) s1 = 0%Z)
    as (s1 & -> & Hs1 & Hjob1 & Hacc1 & Hzero1).
  { assert (sys_ok s0) as Hs0 by by apply unaccept_ok.
    assert (j ∉ sy_accepting s0) by (simpl; set_solver).
    assert (count (DispatchFailed j) s0 = 0%Z) by (change (count ?x s0) with (count x s); lia).
    destruct sent; eexists; (split; [reflexivity|]); split_and!; try done. by apply sys_ok_publish. }
  destruct acknowledged.
  - destruct (_ && _); [|done]. by apply (quiet_ok s1 j job).
  - destruct (j_request_key_sha256 job); [done|]. apply sys_ok_redis. by apply dispatch_failed_ok.
Qed.

(** What a step needs to know of the row it handles. *)
Definition candidate_current (s : System) (c : Candidate) : Prop :=
  candidate_ok s c /\
  forall job, sy_jobs s !! j_id (cd_row c) = Some job -> j_status job = ExtractionJobStatus.processing ->
    is_Some (j_stale_after job) -> j_stale_after job = j_stale_after (cd_row c) ->
    j_attempts job = j_attempts (cd_row c).

Lemma mark_dead_ok up now c s :
  sys_ok s -> candidate_current s c ->
  (max_attempts (cd_row c) <? j_attempts (cd_row c) + 1)%Z = true ->
  sys_ok (_mark_dead_without_requeue up now (cd_row c) (j_attempts (cd_row c) + 1) s).
Proof.
  intros Hs [[Hknown Hmax _] _] Hlt. apply Z.ltb_lt in Hlt. unfold max_attempts in Hlt. rewrite Hmax in Hlt.
  change (int_or (Some DEFAULT_MAX_EXTRACTION_ATTEMPTS) 3) with 3%Z in Hlt.
  unfold _mark_dead_without_requeue. set (j := j_id (cd_row c)) in *.
  destruct Hknown as [job Hjob]. rewrite Hjob. apply sys_ok_redis. known Hs Hjob.
  set (dl := insert j _). set (s0 := s <| sy_dead_letters ::= dl |>).
  set (job' := stale_dead_job now _ job).
  set (s' := log _ _).
  assert (forall x, count x s' = (count x s + if decide (x = GivenUp j) then 1 else 0)%Z) as Ec
    by apply (fun x => count_log x _ (put_job job' s0)).
  assert (running j s' = running j s) as Er by done.
  assert (in_process (j_status job) <= 1 /\ 0 <= waiting (j_status job))%Z by (destruct (j_status job); simpl; lia).
  apply (known_job_ok s _ j job job'); [done..| | |].
  - destruct (others_log_put j job' (GivenUp j) s0) as [? ? ? ? ? ? ? ? ? ? ?]; [done|set_solver|].
    constructor; try done. intros i Hi. subst dl. simpl. by rewrite lookup_insert_ne.
  - simpl. rewrite Kid. apply lookup_insert_eq.
  - constructor; try done; unfold start_bound, interventions in *; rewrite ?Ec, ?Er in *;
      repeat (rewrite decide_False by congruence); rewrite ?decide_True by done; simpl; try lia; try done.
    intros _. subst dl. simpl. rewrite lookup_insert_eq. by eexists.
Qed.

Lemma requeued_ok c now s job :
  sys_ok s -> candidate_current s c -> sy_jobs s !! j_id (cd_row c) = Some job ->
  (max_attempts (cd_row c) <? j_attempts (cd_row c) + 1)%Z = false ->
  j_status job = ExtractionJobStatus.processing -> j_stale_after job = j_stale_after (cd_row c) ->
  is_Some (j_stale_after (cd_row c)) ->
  sys_ok (log (Requeued (j_id (cd_row c)))
    (put_job (requeued_job now (j_attempts (cd_row c) + 1) job) s)).
Proof.
  intros Hs [[_ Hmax _] Hcur] Hjob Hlt Hproc Hstale Hsome.
  apply Z.ltb_ge in Hlt. unfold max_attempts in Hlt. rewrite Hmax in Hlt.
  change (int_or (Some DEFAULT_MAX_EXTRACTION_ATTEMPTS) 3) with 3%Z in Hlt.
  assert (j_attempts job = j_attempts (cd_row c)) as Hatt by (apply Hcur; congruence || done).
  set (j := j_id (cd_row c)) in *. known Hs Hjob. rewrite Hproc in *. simpl in *.
  set (job' := requeued_job now _ job).
  set (s' := log _ _).
  assert (forall x, count x s' = (count x s + if decide (x = Requeued j) then 1 else 0)%Z) as Ec
    by apply (fun x => count_log x _ (put_job job' s)).
  assert (running j s' = running j s) as Er by done.
  apply (known_job_ok s _ j job job'); [done..|apply others_log_put; [done|set_solver]| |].
  - simpl. rewrite Kid. apply lookup_insert_eq.
  - constructor; try done; unfold start_bound, interventions in *; rewrite ?Ec, ?Er in *;
      repeat (rewrite decide_False by congruence); rewrite ?decide_True by done; simpl; try lia; done.
Qed.

Lemma redispatch_ok up plans now t s : sys_ok s -> sys_ok (redispatch_queue up plans now t s).1.
Proof.
  intros Hs. unfold redispatch_queue. destruct (get_extraction_queue _ _ _ _ _) as [r q].
  by apply (sys_ok_redis (fun _ => r)).
Qed.

Lemma redispatch_jobs up plans now t s : sy_jobs (redispatch_queue up plans now t s).1 = sy_jobs s.
Proof. unfold redispatch_queue. by destruct (get_extraction_queue _ _ _ _ _). Qed.

Lemma recover_queued_ok up plans c now task_id published s :
  sys_ok s -> sys_ok (recover_queued up plans c now task_id published s).
Proof.
  intros Hs. unfold recover_queued. destruct (sy_jobs s !! j_id (cd_row c)) as [job|] eqn:Hjob; [|done].
  destruct (undispatched (cd_now c) job) eqn:Hu; [|done].
  assert (j_status job = ExtractionJobStatus.queued) as Hq.
  { unfold undispatched in Hu. repeat (apply andb_true_iff in Hu as [Hu ?]). by apply bool_decide_eq_true in Hu. }
  set (s1 := put_job _ s). assert (sys_ok s1) as Hs1.
  { apply (quiet_ok s (j_id (cd_row c)) job); try done. by rewrite Hq. }
  set (p := if bool_decide _ then _ else _).
  assert (sys_ok p.1) as Hs2 by (subst p; case_bool_decide; [by apply redispatch_ok|done]).
  destruct p as [s2 queue_name]. simpl in Hs2.
  destruct published; [by apply sys_ok_publish|].
  destruct (sy_jobs s2 !! _) as [job'|] eqn:Hjob'; [|done].
  destruct (_ && _) eqn:Hc; [|done]. by apply (quiet_ok s2 (j_id (cd_row c)) job').
Qed.

Lemma requeue_stale_ok up plans c now task_id published s :
  sys_ok s -> candidate_current s c -> sys_ok (requeue_stale up plans c now task_id published s).1.
Proof.
  intros Hs Hc. unfold requeue_stale.
  destruct (max_attempts (cd_row c) <? j_attempts (cd_row c) + 1)%Z eqn:Hlt; [by apply mark_dead_ok|].
  destruct (sy_jobs s !! j_id (cd_row c)) as [job|] eqn:Hjob; [|done].
  destruct (_ && _) eqn:Hcas; [|done].
  apply andb_true_iff in Hcas as [Hcas Hsome]. apply andb_true_iff in Hcas as [Hproc Hstale].
  apply bool_decide_eq_true in Hproc, Hstale, Hsome.
  pose proof (requeued_ok c now s job Hs Hc Hjob Hlt Hproc Hstale Hsome) as Hs1. set (s1 := log _ _) in *.
  pose proof (redispatch_ok up plans now (j_tenant_id (cd_row c)) s1 Hs1) as Hs2.
  destruct (redispatch_queue up plans now (j_tenant_id (cd_row c)) s1) as [s2 q]. simpl in *.
  destruct published; [by apply sys_ok_publish|done].
Qed.

Lemma handle_row_ok up plans c now task_id published s :
  sys_ok s -> candidate_current s c -> sys_ok (handle_row up plans c now task_id published s).1.
Proof.
  intros. unfold handle_row. case_bool_decide; [by apply recover_queued_ok|by apply requeue_stale_ok].
Qed.

Lemma candidate_rows_known now s row :
  sys_ok s -> row ∈ candidate_rows now s ->
  sy_jobs s !! j_id row = Some row /\ (stale now row = true \/ undispatched now row = true).
Proof.
  intros Hs Hrow. unfold candidate_rows in Hrow.
  apply (subseteq_take 100) in Hrow. rewrite sort_by_perm in Hrow.
  apply list_elem_of_filter in Hrow as [Hsel Hrow]. apply orb_true_iff in Hsel.
  apply elem_of_rows in Hrow as [j Hj]. split; [|done].
  by rewrite (jo_id s j row (sys_ok_job s j row Hs Hj)).
Qed.

Lemma candidate_current_row now s row :
  sys_ok s -> sy_jobs s !! j_id row = Some row -> candidate_current s {| cd_row := row; cd_now := now |}.
Proof.
  intros Hs Hrow. pose proof (sys_ok_job s _ row Hs Hrow) as [_ ? _ _ _ _ _ ? _]. split.
  - by constructor; [eexists| |].
  - simpl. intros job Hjob. congruence.
Qed.

Lemma select_ok now s : sys_ok s -> sys_ok (select_candidates now s).
Proof.
  intros Hs. unfold select_candidates. set (s' := s <| sy_candidates ::= _ |>).
  assert (forall c, c ∈ sy_candidates s' -> c ∈ sy_candidates s \/
            sy_jobs s !! j_id (cd_row c) = Some (cd_row c)) as Hcs.
  { intros c Hc. simpl in Hc. apply elem_of_app in Hc as [Hc|Hc]; [by left|right].
    apply list_elem_of_fmap in Hc as (row & -> & Hrow). by apply candidate_rows_known in Hrow as [? _]. }
  destruct Hs as [Hj Hc]. constructor.
  - intros j. specialize (Hj j). unfold slot_ok in *. change (sy_jobs s') with (sy_jobs s).
    destruct (sy_jobs s !! j) as [job|] eqn:Hjob; destruct Hj as []; constructor; try done.
    intros c Hin Hid. destruct (Hcs c Hin) as [|Hrow]; [auto|]. rewrite Hid, Hjob in Hrow. congruence.
  - intros c Hin. destruct (Hcs c Hin) as [Hold|Hrow]; [by destruct (Hc c Hold)|].
    specialize (Hj (j_id (cd_row c))). unfold slot_ok in Hj. rewrite Hrow in Hj.
    destruct Hj as [_ ? _ _ _ _ _ ? _]. by constructor; [eexists| |].
Qed.

Lemma recover_durable_ok now j a published s : sys_ok s -> sys_ok (recover_durable now j a published s).1.
Proof.
  intros Hs. unfold recover_durable. destruct (sy_jobs s !! j) as [job|] eqn:Hjob; [|done].
  destruct (_ && _ && _); [|done]. destruct (negb _); [by apply (quiet_ok s j job)|].
  destruct (text_given _); [|by apply (quiet_ok s j job)].
  destruct published; [|done]. by apply (quiet_ok _ j job); [apply sys_ok_publish|..].
Qed.

Lemma retried_ok now res s j job :
  sys_ok s -> sy_jobs s !! j = Some job -> j_status job = ExtractionJobStatus.dead ->
  sys_ok (log (Retried j) (put_job (retried_job now res job)
    (s <| sy_dead_letters ::= alter (fun d => d <| d_last_retried_at := Some now |>) j |>))).
Proof.
  intros Hs Hjob Hd. known Hs Hjob. rewrite Hd in *. simpl in * |-.
  set (s0 := s <| sy_dead_letters ::= _ |>). set (job' := retried_job now res job). set (s' := log _ _).
  assert (forall x, count x s' = (count x s + if decide (x = Retried j) then 1 else 0)%Z) as Ec
    by apply (fun x => count_log x _ (put_job job' s0)).
  assert (running j s' = running j s) as Er by done.
  apply (known_job_ok s _ j job job'); [done..| | |].
  - destruct (others_log_put j job' (Retried j) s0) as [? ? ? ? ? ? ? ? ? ? ?]; [done|set_solver|].
    constructor; try done. intros i Hi. simpl. by rewrite lookup_alter_ne.
  - simpl. rewrite Kid. apply lookup_insert_eq.
  - constructor; try done; unfold start_bound, interventions in *; rewrite ?Ec, ?Er in *;
      repeat (rewrite decide_False by congruence); rewrite ?decide_True by done; simpl; try lia; done.
Qed.

Lemma retry_ok up plans now j task_id s : sys_ok s -> sys_ok (retry_dead_letter_job up plans now j task_id s).
Proof.
  intros Hs. unfold retry_dead_letter_job. destruct (sy_jobs s !! j) as [job|] eqn:Hjob; [|done].
  case_bool_decide as Hd; [|done].
  destruct (reserve_extraction_slot _ _ _ _ _ _) as [r [res|]]; [|by apply (sys_ok_redis (fun _ => r))].
  apply sys_ok_publish. apply (retried_ok now res (s <| sy_redis := r |>)); [|done..].
  by apply (sys_ok_redis (fun _ => r)).
Qed.

Lemma system_step_ok s e : regular_event s e = true -> sys_ok s -> sys_ok (step s e).
Proof.
  intros Hreg Hs. destruct e as [up plans now a|up now j fresh sent ack|up now w m|up now w o retry [re rf]|w|now
                           |up plans now i task_id published|now j a published|up plans now j task_id]; simpl.
  - by apply accept_ok.
  - by apply dispatch_ok.
  - by apply deliver_ok, Z.ltb_lt.
  - cbn in Hreg. apply andb_true_iff in Hreg as [->%bool_decide_eq_true ->%bool_decide_eq_true]. by apply finish_ok.
  - destruct (sy_workers s !! w) as [m|] eqn:Hw; [by apply (lose_ok w m)|].
    unfold lose. apply sys_ok_same with s; try done. simpl. by rewrite delete_id.
  - by apply select_ok.
  - destruct (sy_candidates s !! i) as [c|] eqn:Hi; [|done].
    pose proof (list_elem_of_lookup_2 _ _ _ Hi) as Hc.
    assert (sys_ok (s <| sy_candidates ::= delete i |>)) as Hs'.
    { apply sys_ok_same with s; try done. intros c' Hc'. simpl in Hc'. eapply elem_of_sublist; [done|apply sublist_delete]. }
    apply handle_row_ok; [done|]. split; [apply (sk_candidates s Hs) in Hc as []; by constructor|].
    intros job Hjob. by apply (jo_candidate s _ job (sys_ok_job s _ job Hs Hjob)).
  - by apply recover_durable_ok.
  - by apply retry_ok.
Qed.

Lemma initial_ok : sys_ok initial.
Proof.
  constructor; [|by intros c Hc; apply elem_of_nil in Hc]. intros j. unfold slot_ok. simpl. by rewrite lookup_empty.
Qed.

Lemma run_ok events : regular initial events = true -> sys_ok (run events).
Proof.
  unfold run. pose proof initial_ok as Hinit. revert Hinit. generalize initial.
  induction events as [|e events IH]; intros s Hs; [done|]. cbn [regular]. intros [He Hes]%andb_true_iff.
  apply IH; [by apply system_step_ok|done].
Qed.
End Preservation.
