(* ===== verification/ExtractionJobTheorems.v ===== *)
(** * What holds of extraction jobs

    Theorems about every run of the transition system of ExtractionJobs.v: how
    often a job is started, how many runs of it overlap, dead letters, the
    watchdog's cycle, and three races the code leaves open. *)

From S2P Require Export ExtractionJobs.

#[local] Opaque _normalize_stored_error stored_error_type classify_message _safe_failure_detail
  release_extraction_slot_sync get_extraction_queue reserve_extraction_slot.

Section Runs.
Context `{PyLib}.

(** C6: In a regular run, where deliveries happen at later and later times and no
    other transaction writes a job's row between a worker's loading and writing it
    (the worker records its result without a row lock), a job is started at most
    four times for every life an operator gives it, plus once when the request
    that submitted it reported a failed dispatch (which happens at most once):
    whatever the broker duplicates, workers lose and the watchdog requeues. *)
Theorem job_starts_are_bounded (events : list event) (j : uuid) (Hreg : regular initial events = true) :
  let s := run events in
  (count (Started j) s <= 4 * (1 + count (Retried j) s) + count (DispatchFailed j) s)%Z /\
  (count (DispatchFailed j) s <= 1)%Z.
Proof.
  intros s. pose proof (sk_jobs s (run_ok events Hreg) j) as Hslot. unfold slot_ok in Hslot.
  pose proof (count_nonneg (Retried j) s). pose proof (count_nonneg (DispatchFailed j) s).
  destruct (sy_jobs s !! j) as [job|].
  - destruct Hslot as [_ _ _ Hb _ _ Ho _ _]. unfold start_bound in Hb.
    assert (0 <= waiting (j_status job))%Z by (destruct (j_status job); simpl; lia).
    split; [lia|]. destruct (decide _); lia.
  - destruct Hslot. lia.
Qed.

(** Runs of one job overlap only after an intervention: in a regular run a job
    has at most one run in progress, and none unless it is processing, plus one
    for each time the watchdog requeued or gave it up or its dispatch was
    reported failed. *)
Theorem runs_overlap_only_after_interventions (events : list event) (j : uuid) (Hreg : regular initial events = true) :
  let s := run events in
  (Z.of_nat (running j s)
   <= from_option (fun job => in_process (j_status job)) 0 (sy_jobs s !! j)
      + count (Requeued j) s + count (GivenUp j) s + count (DispatchFailed j) s)%Z.
Proof.
  intros s. pose proof (sk_jobs s (run_ok events Hreg) j) as Hslot. unfold slot_ok in Hslot.
  pose proof (count_nonneg (Requeued j) s). pose proof (count_nonneg (GivenUp j) s).
  destruct (sy_jobs s !! j) as [job|]; simpl.
  - destruct Hslot as [_ _ _ _ Hr _ _ _ _]. unfold interventions in Hr. lia.
  - destruct Hslot as [_ Hf Hr]. rewrite Hr, Hf. lia.
Qed.

(** In a regular run every dead job is dead-lettered with its error, however it died: by its
    last attempt, by a retry that could not be published, or by the watchdog. *)
Theorem dead_jobs_are_dead_lettered (events : list event) (j : uuid) (job : ExtractionJob)
    (Hreg : regular initial events = true)
    (Hjob : sy_jobs (run events) !! j = Some job) (Hdead : j_status job = ExtractionJobStatus.dead) :
  exists d, sy_dead_letters (run events) !! j = Some d /\ d_error d = j_error job.
Proof. by apply (jo_dead _ j job (sys_ok_job _ j job (run_ok events Hreg) Hjob)). Qed.

(** ** The watchdog's cycle *)

(** The outcome of a row, [sent] being the messages the cycle has published: a
    stale run is queued again under one more attempt, or dead when its attempts
    are used up; a queued job holds the id of the message published for it. *)
Definition row_handled (row : ExtractionJob) (sent : list Message) (s : System) : Prop :=
  exists job, sy_jobs s !! j_id row = Some job /\
    ((j_status row = ExtractionJobStatus.processing /\ j_status job = ExtractionJobStatus.dead /\
      (max_attempts row <= j_attempts row)%Z) \/
     (j_status job = ExtractionJobStatus.queued /\
      exists m, m ∈ sent /\ msg_job_id m = j_id row /\ msg_tenant_id m = j_tenant_id row /\
        ((j_status row = ExtractionJobStatus.processing /\ (j_attempts row < max_attempts row)%Z /\
          j_attempts job = (j_attempts row + 1)%Z) \/
         (j_status row = ExtractionJobStatus.queued /\ j_attempts job = j_attempts row /\
          j_celery_task_id job = Some (msg_task_id m))))).

Lemma release_slot_jobs up now t q j s :
  sy_jobs (release_slot up now t q j s) = sy_jobs s /\
  sy_published (release_slot up now t q j s) = sy_published s.
Proof. done. Qed.

Lemma redispatch_published up plans now t s :
  sy_published (redispatch_queue up plans now t s).1 = sy_published s.
Proof. unfold redispatch_queue. by destruct (get_extraction_queue _ _ _ _ _). Qed.

Definition handled_step (row : ExtractionJob) (s s' : System) : Prop :=
  (forall i, i <> j_id row -> sy_jobs s' !! i = sy_jobs s !! i) /\
  exists sent, sy_published s' = sent ++ sy_published s /\ row_handled row sent s'.

(** A step that rewrites the row and publishes a message for it. *)
Lemma published_step row job m s s' :
  sy_jobs s' = <[j_id row := job]> (sy_jobs s) -> sy_published s' = m :: sy_published s ->
  j_status job = ExtractionJobStatus.queued -> msg_job_id m = j_id row -> msg_tenant_id m = j_tenant_id row ->
  (j_status row = ExtractionJobStatus.processing /\ (j_attempts row < max_attempts row)%Z /\
   j_attempts job = (j_attempts row + 1)%Z) \/
  (j_status row = ExtractionJobStatus.queued /\ j_attempts job = j_attempts row /\
   j_celery_task_id job = Some (msg_task_id m)) ->
  handled_step row s s'.
Proof.
  intros Ej Ep Hq Hm Ht Hcase. split.
  - intros i Hi. by rewrite Ej, lookup_insert_ne.
  - exists [m]. split; [done|]. exists job. rewrite Ej, lookup_insert_eq. split; [done|]. right. split; [done|].
    exists m. split; [apply list_elem_of_here|done].
Qed.

Lemma recover_queued_handled up plans now task_id row s :
  sy_jobs s !! j_id row = Some row -> undispatched now row = true ->
  j_status row = ExtractionJobStatus.queued ->
  handled_step row s (recover_queued up plans {| cd_row := row; cd_now := now |} now task_id true s).
Proof.
  intros Hrow Hun Hq. unfold recover_queued. cbn [cd_row cd_now]. rewrite Hrow, Hun. set (job := row <| j_celery_task_id := _ |> <| _ := _ |> <| _ := _ |>).
  set (p := if bool_decide _ then _ else _).
  assert (sy_jobs p.1 = <[j_id row := job]> (sy_jobs s) /\ sy_published p.1 = sy_published s) as [Ej Ep].
  { subst p. case_bool_decide; [|done]. by rewrite redispatch_jobs, redispatch_published. }
  destruct p as [s2 q]. cbn [fst] in Ej, Ep.
  eapply (published_step row job); [exact Ej|cbn; by rewrite Ep|done..|by right].
Qed.

Lemma requeue_stale_handled up plans now task_id row s :
  sy_jobs s !! j_id row = Some row -> j_status row = ExtractionJobStatus.processing ->
  is_Some (j_stale_after row) ->
  let (s', ok) := requeue_stale up plans {| cd_row := row; cd_now := now |} now task_id true s in
  ok = true /\ handled_step row s s'.
Proof.
  intros Hrow Hp Hsome. unfold requeue_stale. cbn [cd_row cd_now].
  destruct (Z.ltb_spec (max_attempts row) (j_attempts row + 1)).
  - split; [done|]. unfold _mark_dead_without_requeue. rewrite Hrow. split; [intros i Hi; by apply lookup_insert_ne|].
    exists []. split; [done|]. eexists. split; [apply lookup_insert_eq|]. left. split_and!; [done|done|lia].
  - rewrite Hrow, Hp, !bool_decide_true by done. cbn [andb]. set (s1 := log _ _).
    pose proof (redispatch_jobs up plans now (j_tenant_id row) s1) as Ej.
    pose proof (redispatch_published up plans now (j_tenant_id row) s1) as Ep.
    destruct (redispatch_queue up plans now (j_tenant_id row) s1) as [s2 q]. cbn [fst] in Ej, Ep.
    split; [done|]. cbv beta iota.
    apply (published_step row (requeued_job now (j_attempts row + 1) row)
             {| msg_task_id := task_id; msg_job_id := j_id row; msg_tenant_id := j_tenant_id row;
                msg_queue_name := Some q |}).
    + transitivity (sy_jobs s2); [reflexivity|]. rewrite Ej. subst s1.
      transitivity (<[j_id (requeued_job now (j_attempts row + 1) row) := requeued_job now (j_attempts row + 1) row]> (sy_jobs s)).
      * reflexivity.
      * reflexivity.
    + cbn. by rewrite Ep.
    + done.
    + done.
    + done.
    + left. split_and!; [done|lia|done].
Qed.

(** A row that is still current is handled, and no other job is touched. *)
Lemma handle_row_handled up plans now task_id row s :
  sy_jobs s !! j_id row = Some row -> stale now row = true \/ undispatched now row = true ->
  let (s', ok) := handle_row up plans {| cd_row := row; cd_now := now |} now task_id true s in
  ok = true /\ handled_step row s s'.
Proof.
  intros Hrow Hsel. unfold handle_row. cbn [cd_row].
  destruct (decide (j_status row = ExtractionJobStatus.queued)) as [Hq|Hq].
  - rewrite bool_decide_true by done. split; [done|].
    destruct Hsel as [Hst|Hun]; [unfold stale in Hst; rewrite Hq in Hst; done|].
    by apply recover_queued_handled.
  - rewrite bool_decide_false by done.
    destruct Hsel as [Hst|Hun].
    2:{ unfold undispatched in Hun. by rewrite (bool_decide_false _ Hq) in Hun. }
    unfold stale in Hst. apply andb_true_iff in Hst as [Hp Hlt]. apply bool_decide_eq_true in Hp.
    apply requeue_stale_handled; [done..|]. destruct (j_stale_after row); [by eexists|done].
Qed.

Lemma row_handled_later row sent sent' s s' :
  row_handled row sent s -> sy_jobs s' !! j_id row = sy_jobs s !! j_id row -> sent ⊆ sent' ->
  row_handled row sent' s'.
Proof.
  intros (job & Hjob & Hcase) E Hsub. exists job. rewrite E. split; [done|].
  destruct Hcase as [?|(? & m & Hm & ?)]; [by left|right]. split; [done|]. exists m. split; [by apply Hsub|done].
Qed.

Lemma handle_rows_handled up plans task_id now rows s :
  NoDup (j_id <$> rows) ->
  Forall (fun row => sy_jobs s !! j_id row = Some row /\
                     (stale now row = true \/ undispatched now row = true)) rows ->
  let (s', ok) := handle_rows up plans task_id (fun _ => true) now rows s in
  ok = true /\ (forall i, i ∉ j_id <$> rows -> sy_jobs s' !! i = sy_jobs s !! i) /\
  exists sent, sy_published s' = sent ++ sy_published s /\ Forall (fun row => row_handled row sent s') rows.
Proof.
  revert s. induction rows as [|row rows IH]; intros s Hnd Hrows; simpl; [split_and!; [done|done|by exists []]|].
  apply NoDup_cons in Hnd as [Hni Hnd]. apply Forall_cons_1 in Hrows as [[Hrow Hsel] Hrows].
  pose proof (handle_row_handled up plans now (task_id (j_id row)) row s Hrow Hsel) as Hh.
  destruct (handle_row up plans _ now _ true s) as [s1 ok]. destruct Hh as (-> & Hother & sent & Ep & Hdone).
  specialize (IH s1 Hnd). destruct (handle_rows _ _ _ _ _ rows s1) as [s2 ok].
  destruct IH as (-> & Hother' & sent' & Ep' & Hall).
  { rewrite Forall_forall in Hrows |- *. intros r Hin. destruct (Hrows r Hin) as [Hr Hs]. split; [|done].
    rewrite Hother; [done|]. intros E. apply Hni. rewrite <- E. by apply list_elem_of_fmap_2. }
  split_and!; [done| |].
  - intros i Hi. apply not_elem_of_cons in Hi as [Hi1 Hi2]. by rewrite Hother', Hother.
  - exists (sent' ++ sent). rewrite Ep', Ep, app_assoc. split; [done|]. constructor.
    + eapply row_handled_later; [done|by apply Hother'|set_solver].
    + eapply Forall_impl; [exact Hall|]. cbv beta. intros r Hr. eapply row_handled_later; [exact Hr|done|set_solver].
Qed.

Lemma candidate_rows_NoDup now s : sys_ok s -> NoDup (j_id <$> candidate_rows now s).
Proof.
  intros Hs. unfold candidate_rows. rewrite <- firstn_map.
  eapply sublist_NoDup; [|apply sublist_take]. change (@List.map) with (fun A B => @fmap list _ A B).
  cbv beta. rewrite sort_by_perm. apply (NoDup_fmap_rows _ j_id).
  - intros i job Hi. apply (jo_id s i job (sys_ok_job s i job Hs Hi)).
  - intros i i' a b Ha Hb _ _ E.
    by rewrite <- (jo_id s i a (sys_ok_job s i a Hs Ha)), <- (jo_id s i' b (sys_ok_job s i' b Hs Hb)).
Qed.

(** All rows a cycle should handle. *)
Definition due (now : datetime) (s : System) : list ExtractionJob :=
  filter (fun job => stale now job || undispatched now job = true) (snd <$> map_to_list (sy_jobs s)).

(** C30: A watchdog cycle after a regular run recovers every due job: when nothing
    else runs, the publications succeed and no more than a cycle's 100 rows are
    due, the cycle completes.  Every stale run is queued again under one more
    attempt, and every undispatched job under the id of its message, with a
    message for its tenant that this cycle has published; a stale run whose
    attempts are used up is dead.  No other job changes. *)
Theorem watchdog_recovers_every_due_job (events : list event) (up : Calls) (plans : Plans)
    (task_id : uuid -> string) (now : datetime) (Hreg : regular initial events = true)
    (Hdue : length (due now (run events)) <= 100) :
  let s := run events in
  let (s', completed) := run_watchdog_cycle up plans task_id (fun _ => true) now s in
  completed = true /\
  (exists sent, sy_published s' = sent ++ sy_published s /\ forall row, row ∈ due now s -> row_handled row sent s') /\
  (forall i, (forall row, row ∈ due now s -> j_id row <> i) -> sy_jobs s' !! i = sy_jobs s !! i).
Proof.
  intros s. unfold run_watchdog_cycle.
  assert (forall row, row ∈ candidate_rows now s <-> row ∈ due now s) as Hrows.
  { intros row. unfold candidate_rows. fold (due now s).
    rewrite take_ge by (rewrite (Permutation_length (sort_by_perm _ _)); done). by rewrite sort_by_perm. }
  pose proof (handle_rows_handled up plans task_id now (candidate_rows now s) s
                (candidate_rows_NoDup now s (run_ok events Hreg))) as Hh.
  destruct (handle_rows _ _ _ _ _ (candidate_rows now s) s) as [s' completed].
  destruct Hh as (-> & Hother & sent & Ep & Hall).
  { apply Forall_forall. intros row Hrow. by apply candidate_rows_known, Hrow; apply run_ok. }
  split_and!; [done| |].
  - exists sent. split; [done|]. intros row Hrow. rewrite Forall_forall in Hall. by apply Hall, Hrows.
  - intros i Hi. apply Hother. intros Hin. apply list_elem_of_fmap in Hin as (row & -> & Hrow).
    by apply (Hi row (proj1 (Hrows row) Hrow)).
Qed.

(** ** Races *)

#[local] Transparent release_extraction_slot_sync.

(** The scripts leave no member behind. *)
Lemma release_removes up now t q j r :
  up_eval up = true -> jobs_of now q (release_extraction_slot up now t q j r) !! (t, j) = None.
Proof.
  intros Hup. unfold release_extraction_slot. rewrite Hup. unfold release_script.
  case_bool_decide as Hin; [done|]. simpl. unfold jobs_of at 1, rget. simpl.
  case_bool_decide; simpl; [by rewrite lookup_delete_eq|].
  unfold rset. rewrite lookup_insert_eq. simpl. case_match; simpl; [apply lookup_delete_eq|done].
Qed.

(** A duplicate delivery frees the slot of a running job: delivering a
    published message again while its job is processed leaves the job and its
    worker as they are, but the slot is released, so the tenant can exceed its
    limit. *)
Theorem duplicate_delivery_frees_running_slot (s : System) (up : Calls) (now : datetime) (w : nat)
    (m : Message) (job : ExtractionJob) (q : string)
    (Hjob : sy_jobs s !! msg_job_id m = Some job) (Hrunning : j_status job = ExtractionJobStatus.processing)
    (Hpublished : m ∈ sy_published s) (Hfree : sy_workers s !! w = None)
    (Hup : up_eval up = true) (Hq : msg_queue_name m = Some q)
    (Hnames : q <> EmptyString /\ uuid_str (msg_tenant_id m) <> EmptyString /\
              uuid_str (msg_job_id m) <> EmptyString) :
  let s' := step s (Deliver up now w m) in
  sy_jobs s' = sy_jobs s /\ sy_workers s' = sy_workers s /\
  jobs_of (seconds now) q (sy_redis s') !! (uuid_str (msg_tenant_id m), uuid_str (msg_job_id m)) = None.
Proof.
  simpl. unfold deliver. rewrite !bool_decide_true by done. simpl.
  unfold _set_db_job_processing. rewrite Hjob, Hrunning. simpl.
  split_and!; [done..|]. unfold postrun, release_slot, release_extraction_slot_sync. simpl. rewrite Hq.
  destruct Hnames as (Hq' & Ht & Hj).
  destruct (uuid_str (msg_tenant_id m)) as [|c t]; [done|]. destruct q as [|c' q]; [done|].
  destruct (uuid_str (msg_job_id m)) as [|c'' j]; [done|]. by apply release_removes.
Qed.

#[local] Opaque _normalize_stored_error stored_error_type classify_message _safe_failure_detail
  release_extraction_slot_sync get_extraction_queue reserve_extraction_slot.

(** A delivery that starts a waiting job. *)
Lemma deliver_starts up now w m s job :
  sy_jobs s !! msg_job_id m = Some job -> j_id job = msg_job_id m ->
  waiting (j_status job) = 1%Z -> j_celery_task_id job = None ->
  m ∈ sy_published s -> sy_workers s !! w = None ->
  (j_status <$> sy_jobs (deliver up now w m s) !! msg_job_id m) = Some ExtractionJobStatus.processing /\
  count (Started (msg_job_id m)) (deliver up now w m s) = (count (Started (msg_job_id m)) s + 1)%Z.
Proof.
  intros Hjob Hid Hwait Htask Hpub Hfree. unfold deliver.
  rewrite !bool_decide_true by done. cbn [andb].
  unfold _set_db_job_processing. rewrite Hjob, Htask.
  assert (bool_decide (j_status job = ExtractionJobStatus.queued)
          || bool_decide (j_status job = ExtractionJobStatus.failed) = true) as ->
    by (by destruct (j_status job)).
  cbn [negb]. rewrite bool_decide_true by done. cbn [negb andb].
  set (s' := log _ _). set (s2 := _ <| sy_clock := now |>).
  assert (sy_jobs s2 = <[j_id job := processing_job now (Some (msg_task_id m)) job]> (sy_jobs s)) as -> by done.
  assert (count (Started (msg_job_id m)) s2 = count (Started (msg_job_id m)) (log (Started (msg_job_id m)) s))
    as -> by done.
  rewrite Hid, lookup_insert_eq, count_log, decide_True by done. done.
Qed.

(** A late failure reruns a completed job: when a run the watchdog had
    taken over fails after another run completed the job, the completed job
    becomes failed, its retry is published, and delivering it starts the
    extraction again. *)
Theorem late_failure_reruns_completed_job (s : System) (up : Calls) (t1 t2 : datetime) (w w' : nat)
    (m : Message) (job : ExtractionJob) (f : failure) (task_id : string)
    (Hok : sys_ok s) (Hworker : sy_workers s !! w = Some m)
    (Hjob : sy_jobs s !! msg_job_id m = Some job)
    (Hcompleted : j_status job = ExtractionJobStatus.completed)
    (Hattempts : (j_attempts job + 1 < max_attempts job)%Z)
    (Hfree : sy_workers s !! w' = None) :
  let s1 := step s (Finish up t1 w (Raises f) (inl task_id) fresh_reads) in
  let s2 := step s1 (Deliver up t2 w' (m <| msg_task_id := task_id |>)) in
  (j_status <$> sy_jobs s1 !! msg_job_id m) = Some ExtractionJobStatus.failed /\
  (j_status <$> sy_jobs s2 !! msg_job_id m) = Some ExtractionJobStatus.processing /\
  count (Started (msg_job_id m)) s2 = (count (Started (msg_job_id m)) s + 1)%Z.
Proof.
  pose proof (jo_id s _ job (sys_ok_job s _ job Hok Hjob)) as Hid. intros s1.
  set (failed := failed_job t1 ExtractionJobStatus.failed (j_attempts job + 1)
                   (_safe_failure_detail f) (classify_error f) job).
  assert (s1 = publish (m <| msg_task_id := task_id |>) (put_job failed (s <| sy_workers ::= delete w |>))) as E.
  { subst s1. cbn [step]. unfold finish. rewrite Hworker. unfold _set_db_job_failure. cbn [sy_jobs].
    simpl (sy_jobs _). rewrite Hjob.
    cbn [default fresh_reads rd_end]. unfold Datatypes.id.
    assert ((max_attempts job <=? j_attempts job + 1)%Z = false) as -> by (apply Z.leb_gt; lia).
    by rewrite flushed_row_same by reflexivity. }
  assert (sy_jobs s1 !! msg_job_id m = Some failed) as Hj1.
  { rewrite E. simpl. rewrite Hid. apply lookup_insert_eq. }
  split; [by rewrite Hj1|]. change (count (Started _) s) with (count (Started (msg_job_id m)) s).
  assert (count (Started (msg_job_id m)) s1 = count (Started (msg_job_id m)) s) as <- by by rewrite E.
  cbn [step]. set (m' := m <| msg_task_id := task_id |>) in *.
  change (msg_job_id m) with (msg_job_id m') in *.
  apply (deliver_starts up t2 w' m' s1 failed); try done.
  - rewrite E. apply list_elem_of_here.
  - rewrite E. simpl. rewrite lookup_delete. by case_decide.
Qed.

(** The watchdog kills a completed job: a stale run that was loaded as a
    candidate with its attempts used up and completes before its row is handled
    is marked dead and dead-lettered all the same, because that write has no
    guard. *)
Theorem watchdog_kills_completed_job (s : System) (up : Calls) (plans : Plans) (now : datetime) (i : nat)
    (c : Candidate) (task_id : string) (published : bool) (job : ExtractionJob)
    (Hc : sy_candidates s !! i = Some c) (Hjob : sy_jobs s !! j_id (cd_row c) = Some job)
    (Hid : j_id job = j_id (cd_row c))
    (Hstale : j_status (cd_row c) = ExtractionJobStatus.processing)
    (Hused : (max_attempts (cd_row c) <= j_attempts (cd_row c))%Z)
    (Hcompleted : j_status job = ExtractionJobStatus.completed) :
  let s' := step s (WatchdogRow up plans now i task_id published) in
  (exists job', sy_jobs s' !! j_id (cd_row c) = Some job' /\ j_status job' = ExtractionJobStatus.dead /\
                j_result job' = j_result job) /\
  (exists d, sy_dead_letters s' !! j_id (cd_row c) = Some d /\ d_error d = Some STALE_ERROR).
Proof.
  cbn [step]. rewrite Hc. unfold handle_row. rewrite Hstale, bool_decide_false by done.
  unfold requeue_stale. assert ((max_attempts (cd_row c) <? j_attempts (cd_row c) + 1)%Z = true) as ->
    by (apply Z.ltb_lt; lia).
  cbn [fst]. unfold _mark_dead_without_requeue. simpl (sy_jobs _). rewrite Hjob. simpl. split.
  - eexists. rewrite Hid, lookup_insert_eq. by split_and!.
  - eexists. by rewrite lookup_insert_eq.
Qed.
End Runs.

(** ** Witnesses *)

Section JobExamples.
#[local] Existing Instance example_pylib.
#[local] Transparent _normalize_stored_error stored_error_type classify_message _safe_failure_detail
  release_extraction_slot_sync get_extraction_queue reserve_extraction_slot.

Definition example_acceptance : Acceptance :=
  {| ac_job_id := 7; ac_tenant_id := 1; ac_proxy_user_id := 2; ac_request_key_sha256 := None;
     ac_payload := [("messages", JArr [])] |}.
Definition example_message (task_id : string) : Message :=
  {| msg_task_id := task_id; msg_job_id := 7; msg_tenant_id := 1; msg_queue_name := Some STARTER_QUEUE |}.
Definition timeout_failure : failure :=
  Direct {| ex_type := "TimeoutError"; ex_message := "timed out"; ex_is_timeout := true;
            ex_is_json := false; ex_sqlstate := None; ex_constraint := None |}.

(** Accepted, dispatched and claimed by worker 0. *)
Definition claimed : list event :=
  [Accept all_up no_plans 10 example_acceptance; Dispatch all_up 11 7 "t0" true true;
   Deliver all_up 20 0 (example_message "t0")].
Definition fails (t : Z) (w : nat) (retry : string) : list event :=
  [Finish all_up t w (Raises timeout_failure) (inl retry) fresh_reads].
Definition goes_stale (t : Z) (task_id : string) : list event :=
  [WatchdogSelect t; WatchdogRow all_up no_plans t 0 task_id true].

Lemma job_starts_are_bounded_witness :
  let s := run (claimed ++ fails 30 0 "t1" ++ [Deliver all_up 40 0 (example_message "t1")]) in
  count (Started 7) s = 2%Z /\ (count (Started 7) s <= 4 * (1 + count (Retried 7) s) + count (DispatchFailed 7) s)%Z.
Proof.
  intros s. split; [vm_compute; reflexivity|]. refine (proj1 (job_starts_are_bounded _ 7 _)). vm_compute. reflexivity.
Defined.

Lemma dead_jobs_are_dead_lettered_witness :
  let s := run (claimed ++ fails 30 0 "t1" ++ [Deliver all_up 40 0 (example_message "t1")]
                ++ fails 50 0 "t2" ++ [Deliver all_up 60 0 (example_message "t2")] ++ fails 70 0 "t3") in
  exists d, sy_dead_letters s !! 7%Z = Some d /\ d_error d = Some "dependency_timeout".
Proof.
  intros s. destruct (sy_jobs s !! 7%Z) as [job|] eqn:Hjob; [|vm_compute in Hjob; discriminate Hjob].
  assert (j_status job = ExtractionJobStatus.dead /\ j_error job = Some "dependency_timeout") as [Hd He]
    by (vm_compute in Hjob; injection Hjob as <-; split; reflexivity).
  rewrite <- He. refine (dead_jobs_are_dead_lettered _ 7%Z job _ Hjob Hd). vm_compute. reflexivity.
Defined.

Lemma watchdog_recovers_every_due_job_witness :
  let s := run claimed in
  length (due 700000000 s) = 1%nat /\
  (run_watchdog_cycle all_up no_plans py_str_Z (fun _ => true) 700000000 s).2 = true.
Proof.
  intros s. split; [vm_compute; reflexivity|].
  assert (length (due 700000000 (run claimed)) <= 100) as Hdue.
  { assert (length (due 700000000 (run claimed)) = 1%nat) as -> by (vm_compute; reflexivity). lia. }
  pose proof (watchdog_recovers_every_due_job claimed all_up no_plans py_str_Z 700000000 eq_refl Hdue) as Hw.
  cbv zeta in Hw. subst s.
  destruct (run_watchdog_cycle all_up no_plans py_str_Z (fun _ => true) 700000000 (run claimed)) as [s' ok].
  exact (proj1 Hw).
Defined.

Lemma duplicate_delivery_frees_running_slot_witness :
  let s := run claimed in
  is_Some (jobs_of 0 STARTER_QUEUE (sy_redis s) !! ("1", "7")) /\
  jobs_of 0 STARTER_QUEUE (sy_redis (step s (Deliver all_up 30 1 (example_message "t0")))) !! ("1", "7") = None.
Proof.
  intros s. split; [vm_compute; eexists; reflexivity|].
  destruct (sy_jobs s !! 7%Z) as [job|] eqn:Hjob; [|vm_compute in Hjob; discriminate Hjob].
  assert (j_status job = ExtractionJobStatus.processing) as Hp
    by (vm_compute in Hjob; injection Hjob as <-; reflexivity).
  refine (proj2 (proj2 (duplicate_delivery_frees_running_slot s all_up 30 1 (example_message "t0") job
            STARTER_QUEUE Hjob Hp _ _ _ _ _))); try (vm_compute; reflexivity).
  - vm_compute. apply list_elem_of_here.
  - split; [discriminate|split; discriminate].
Defined.

Definition taken_over : list event :=
  claimed ++ goes_stale 700000000 "t1"
  ++ [Deliver all_up 700000010 1 (example_message "t1"); Finish all_up 700000020 1 (Returns [] 1) (inl "t2") fresh_reads].

Lemma late_failure_reruns_completed_job_witness :
  let s := run taken_over in
  (j_status <$> sy_jobs s !! 7%Z) = Some ExtractionJobStatus.completed /\
  let s1 := step s (Finish all_up 700000030 0 (Raises timeout_failure) (inl "t3") fresh_reads) in
  let s2 := step s1 (Deliver all_up 700000040 1 (example_message "t3")) in
  (j_status <$> sy_jobs s2 !! 7%Z) = Some ExtractionJobStatus.processing.
Proof.
  intros s. split; [vm_compute; reflexivity|].
  destruct (sy_jobs s !! 7%Z) as [job|] eqn:Hjob; [|vm_compute in Hjob; discriminate Hjob].
  assert (j_status job = ExtractionJobStatus.completed /\ (j_attempts job + 1 < max_attempts job)%Z) as [Hc Ha]
    by (vm_compute in Hjob; injection Hjob as <-; split; reflexivity).
  refine (proj1 (proj2 (late_failure_reruns_completed_job s all_up 700000030 700000040 0 1
            (example_message "t0") job timeout_failure "t3" (run_ok _ _) _ Hjob Hc Ha _)));
    vm_compute; reflexivity.
Defined.

(** Two failures, a requeue and a third stale run, which completes just after
    the watchdog loaded its row. *)
Definition completed_too_late : list event :=
  claimed ++ fails 30 0 "t1" ++ [Deliver all_up 40 0 (example_message "t1")]
  ++ fails 50 0 "t2" ++ [Deliver all_up 60 0 (example_message "t2")]
  ++ goes_stale 700000000 "t3" ++ [Deliver all_up 700000010 1 (example_message "t3");
     WatchdogSelect 1400000000; Finish all_up 1400000010 1 (Returns [] 1) (inl "t4") fresh_reads].

Lemma watchdog_kills_completed_job_witness :
  let s := run completed_too_late in
  (j_status <$> sy_jobs s !! 7%Z) = Some ExtractionJobStatus.completed /\
  exists job', sy_jobs (step s (WatchdogRow all_up no_plans 1400000020 0 "t5" true)) !! 7%Z = Some job' /\
               j_status job' = ExtractionJobStatus.dead.
Proof.
  intros s. split; [vm_compute; reflexivity|].
  destruct (sy_candidates s !! 0%nat) as [c|] eqn:Hc; [|vm_compute in Hc; discriminate Hc].
  destruct (sy_jobs s !! 7%Z) as [job|] eqn:Hjob; [|vm_compute in Hjob; discriminate Hjob].
  assert (j_id (cd_row c) = 7%Z /\ j_status (cd_row c) = ExtractionJobStatus.processing /\
          (max_attempts (cd_row c) <= j_attempts (cd_row c))%Z) as (Hid & Hp & Ha)
    by (vm_compute in Hc; injection Hc as <-; split; [reflexivity|split; [reflexivity|discriminate]]).
  assert (j_id job = 7%Z /\ j_status job = ExtractionJobStatus.completed) as [Hj Hdone]
    by (vm_compute in Hjob; injection Hjob as <-; split; reflexivity).
  pose proof (watchdog_kills_completed_job s all_up no_plans 1400000020 0 c "t5" true job Hc) as Hk.
  rewrite Hid in Hk. destruct (proj1 (Hk Hjob Hj Hp Ha Hdone)) as (job' & H1 & H2 & _).
  exists job'. split; [exact H1|exact H2].
Defined.

(** The row of the first run, as its worker loads it before the watchdog takes
    the run away. *)
Definition first_run : option ExtractionJob := sy_jobs (run claimed) !! 7%Z.

(** Its failure is written last: of three attempts one is left on record, so the
    job may be started more often than it should. *)
Example overlapping_failure_loses_attempts :
  let before := claimed ++ goes_stale 700000000 "t1" ++ [Deliver all_up 700000010 1 (example_message "t1")]
                ++ fails 700000020 1 "t2" in
  let late reads := run (before ++ [Finish all_up 700000030 0 (Raises timeout_failure) (inl "t3") reads]) in
  (j_attempts <$> sy_jobs (late fresh_reads) !! 7%Z) = Some 3%Z /\
  (j_attempts <$> sy_jobs (late {| rd_end := first_run; rd_force := None |}) !! 7%Z) = Some 1%Z.
Proof. vm_compute. done. Qed.
End JobExamples.
