(* ===== verification/CircuitBreaker.v ===== *)
(** * Circuit breakers

    [api/infra/circuit_breaker.py], [circuit_config.py] and
    [circuit_breaker_registry.py]: the three-state breaker every dependency of
    the service is called through, its optional shared state store, the async
    and sync call wrappers with their fallbacks, and the registry's health
    summary.

    A method runs at one instant [io_now]; the outcomes of the external state
    store ([state_client.get] and [.set]) and of the TCP probe are inputs of
    the step.  Telemetry ([emit_benchmark_timing]) is not modelled: it is
    disabled unless the benchmark flag is set and it never changes state. *)

From S2P Require Export Prelude.

(** ** State *)

Record CircuitState := {
  state : string;
  failure_count : Z;
  window_started_at : Q;
  opened_at : Q;
}.

(** The dataclass defaults. *)
Definition default_state : CircuitState :=
  {| state := "CLOSED"; failure_count := 0; window_started_at := 0; opened_at := 0 |}.

(** The JSON object kept in the shared store: every key may be missing. *)
Record payload := {
  p_state : option string;
  p_failure_count : option Z;
  p_window_started_at : option Q;
  p_opened_at : option Q;
}.

Inductive raw_value :=
  | RawMissing                 (* no value, or an empty string *)
  | RawMalformed               (* not JSON, or fields of a wrong type *)
  | RawPayload (p : payload).

Record CircuitBreaker := {
  name : string;
  failure_threshold : Z;
  window_seconds : Z;
  recovery_timeout_seconds : Z;
  has_state_client : bool;
  _local_state : CircuitState;
  _state_store_disabled_until : Q;
  _next_refresh_at : Q;
  _redis_endpoint : option (string * Z);
  _last_probe_ok : bool;
  _last_probe_checked_at : Q;
}.

Definition _refresh_interval_seconds : Q := 1 # 10.
Definition _probe_cache_seconds : Q := 1 # 4.

(** The breaker together with the value the shared store holds under its key. *)
Record world := { cb : CircuitBreaker; shared : raw_value }.

(** What the outside world answers during one method call. *)
Record IO := {
  io_now : Q;
  io_get_ok : bool;            (* state_client.get does not raise *)
  io_set_ok : bool;            (* state_client.set does not raise *)
  io_probe_ok : bool;          (* the TCP probe connects within its deadline *)
  io_probe_bypassed : bool;    (* benchmark_redis_tcp_preflight_bypassed() *)
}.

Definition set_local (s : CircuitState) (b : CircuitBreaker) : CircuitBreaker :=
  {| name := name b; failure_threshold := failure_threshold b;
     window_seconds := window_seconds b;
     recovery_timeout_seconds := recovery_timeout_seconds b;
     has_state_client := has_state_client b; _local_state := s;
     _state_store_disabled_until := _state_store_disabled_until b;
     _next_refresh_at := _next_refresh_at b; _redis_endpoint := _redis_endpoint b;
     _last_probe_ok := _last_probe_ok b; _last_probe_checked_at := _last_probe_checked_at b |}.

Definition set_disabled_until (q : Q) (b : CircuitBreaker) : CircuitBreaker :=
  {| name := name b; failure_threshold := failure_threshold b;
     window_seconds := window_seconds b;
     recovery_timeout_seconds := recovery_timeout_seconds b;
     has_state_client := has_state_client b; _local_state := _local_state b;
     _state_store_disabled_until := q;
     _next_refresh_at := _next_refresh_at b; _redis_endpoint := _redis_endpoint b;
     _last_probe_ok := _last_probe_ok b; _last_probe_checked_at := _last_probe_checked_at b |}.

Definition set_next_refresh (q : Q) (b : CircuitBreaker) : CircuitBreaker :=
  {| name := name b; failure_threshold := failure_threshold b;
     window_seconds := window_seconds b;
     recovery_timeout_seconds := recovery_timeout_seconds b;
     has_state_client := has_state_client b; _local_state := _local_state b;
     _state_store_disabled_until := _state_store_disabled_until b;
     _next_refresh_at := q; _redis_endpoint := _redis_endpoint b;
     _last_probe_ok := _last_probe_ok b; _last_probe_checked_at := _last_probe_checked_at b |}.

Definition set_probe (ok : bool) (at_ : Q) (b : CircuitBreaker) : CircuitBreaker :=
  {| name := name b; failure_threshold := failure_threshold b;
     window_seconds := window_seconds b;
     recovery_timeout_seconds := recovery_timeout_seconds b;
     has_state_client := has_state_client b; _local_state := _local_state b;
     _state_store_disabled_until := _state_store_disabled_until b;
     _next_refresh_at := _next_refresh_at b; _redis_endpoint := _redis_endpoint b;
     _last_probe_ok := ok; _last_probe_checked_at := at_ |}.

Definition with_cb (f : CircuitBreaker -> CircuitBreaker) (w : world) : world :=
  {| cb := f (cb w); shared := shared w |}.

(** [CircuitBreaker.__init__] *)
Definition new_breaker (nm : string) (threshold window recovery : Z) (client : bool)
    (endpoint : option (string * Z)) : CircuitBreaker :=
  {| name := nm; failure_threshold := threshold; window_seconds := window;
     recovery_timeout_seconds := recovery; has_state_client := client;
     _local_state := default_state; _state_store_disabled_until := 0;
     _next_refresh_at := 0;
     _redis_endpoint := if bool_decide (nm = "redis") then endpoint else None;
     _last_probe_ok := true; _last_probe_checked_at := 0 |}.

Definition is_redis (b : CircuitBreaker) : bool := bool_decide (name b = "redis").

(** ** The shared store *)

Definition encode_state (s : CircuitState) : payload :=
  {| p_state := Some (state s); p_failure_count := Some (failure_count s);
     p_window_started_at := Some (window_started_at s); p_opened_at := Some (opened_at s) |}.

Definition decode_state (p : payload) : CircuitState :=
  {| state := default "CLOSED" (p_state p);
     failure_count := default 0%Z (p_failure_count p);
     window_started_at := default 0%Q (p_window_started_at p);
     opened_at := default 0%Q (p_opened_at p) |}.

Definition is_state_store_disabled (io : IO) (b : CircuitBreaker) : bool :=
  io_now io <?q _state_store_disabled_until b.

Definition opened_by_threshold (io : IO) (b : CircuitBreaker) : CircuitState :=
  {| state := "OPEN"; failure_count := failure_threshold b;
     window_started_at := io_now io; opened_at := io_now io |}.

(** [_load_state]: the except branch of the store read. *)
Definition load_failed (io : IO) (w : world) : world :=
  let w := with_cb (set_disabled_until (io_now io + 30)) w in
  if is_redis (cb w) then with_cb (set_local (opened_by_threshold io (cb w))) w else w.

Definition _load_state (io : IO) (force_refresh : bool) (w : world) : world * CircuitState :=
  let b := cb w in
  if is_redis b then (w, _local_state b)
  else if negb (has_state_client b) || is_state_store_disabled io b then (w, _local_state b)
  else if negb force_refresh && (io_now io <?q _next_refresh_at b) then (w, _local_state b)
  else
    let w' :=
      if io_get_ok io then
        let refreshed := set_next_refresh (io_now io + _refresh_interval_seconds) in
        match shared w with
        | RawMissing => with_cb refreshed w
        | RawMalformed => load_failed io w
        | RawPayload p => with_cb (fun b => refreshed (set_local (decode_state p) b)) w
        end
      else load_failed io w in
    (w', _local_state (cb w')).

Definition _save_state (io : IO) (s : CircuitState) (w : world) : world :=
  let w := with_cb (fun b => set_next_refresh (io_now io + _refresh_interval_seconds)
                               (set_local s b)) w in
  let b := cb w in
  if is_redis b then w
  else if negb (has_state_client b) || is_state_store_disabled io b then w
  else if io_set_ok io then {| cb := b; shared := RawPayload (encode_state s) |}
  else with_cb (set_disabled_until (io_now io + 30)) w.

(** ** Transitions *)

Definition _coerce_recovery_state (io : IO) (s : CircuitState) (w : world)
    : world * CircuitState :=
  if negb (bool_decide (state s = "OPEN")) then (w, s)
  else if io_now io - opened_at s <?q inject_Z (recovery_timeout_seconds (cb w)) then (w, s)
  else
    let half_open :=
      {| state := "HALF_OPEN"; failure_count := failure_count s;
         window_started_at :=
           if Qeq_bool (window_started_at s) 0 then io_now io else window_started_at s;
         opened_at := opened_at s |} in
    (_save_state io half_open w, half_open).

(** [_before_call]; [true] when it raises [CircuitOpenError]. *)
Definition _before_call (io : IO) (w : world) : world * bool :=
  let '(w, s) := _load_state io false w in
  let '(w, s) := _coerce_recovery_state io s w in
  if is_redis (cb w) && is_state_store_disabled io (cb w) then (w, true)
  else (w, bool_decide (state s = "OPEN")).

Definition closed_state : CircuitState := default_state.

Definition _record_success (io : IO) (w : world) : world :=
  let s := _local_state (cb w) in
  if bool_decide (state s = "CLOSED") && (failure_count s =? 0)%Z then w
  else _save_state io closed_state w.

(** The counting branch of [_record_failure]. *)
Definition bump_failure (now : Q) (threshold window : Z) (s : CircuitState) : CircuitState :=
  let expired := Qeq_bool (window_started_at s) 0
                 || (inject_Z window <?q now - window_started_at s) in
  let count := ((if expired then 0 else failure_count s) + 1)%Z in
  let started := if expired then now else window_started_at s in
  if (threshold <=? count)%Z
  then {| state := "OPEN"; failure_count := count;
          window_started_at := started; opened_at := now |}
  else {| state := "CLOSED"; failure_count := count;
          window_started_at := started; opened_at := opened_at s |}.

Definition _record_failure (io : IO) (w : world) : world :=
  let '(w, s) := _load_state io false w in
  if bool_decide (state s = "HALF_OPEN")
  then _save_state io (opened_by_threshold io (cb w)) w
  else _save_state io
         (bump_failure (io_now io) (failure_threshold (cb w)) (window_seconds (cb w)) s) w.

Definition record_external_failure (io : IO) (w : world) : world :=
  if bool_decide (state (_local_state (cb w)) = "OPEN") then w else _record_failure io w.

Definition force_open (io : IO) (w : world) : world :=
  let '(w, _) := _load_state io false w in
  _save_state io (opened_by_threshold io (cb w)) w.

(** ** Observers *)

Definition reported_state (io : IO) (b : CircuitBreaker) (st : string) : string :=
  if is_redis b && is_state_store_disabled io b && bool_decide (st = "CLOSED")
  then "OPEN" else st.

Definition current_state (io : IO) (w : world) : world * string :=
  let '(w, s) := _load_state io false w in
  let '(w, s) := _coerce_recovery_state io s w in
  (w, reported_state io (cb w) (state s)).

Definition snapshot (io : IO) (w : world) : world * CircuitState :=
  let '(w, s) := _load_state io false w in
  let '(w, s) := _coerce_recovery_state io s w in
  (w, {| state := reported_state io (cb w) (state s);
         failure_count := failure_count s;
         window_started_at := window_started_at s; opened_at := opened_at s |}).

Definition local_state (io : IO) (b : CircuitBreaker) : string :=
  if is_redis b && (io_now io <?q _state_store_disabled_until b) then "OPEN"
  else state (_local_state b).

(** ** Guarded calls *)

Definition _redis_connectivity_preflight (io : IO) (w : world) : world * (bool * bool) :=
  if io_probe_bypassed io then (w, (true, false))
  else match _redis_endpoint (cb w) with
       | None => (w, (true, false))
       | Some _ =>
           if io_now io - _last_probe_checked_at (cb w) <=?q _probe_cache_seconds
           then (w, (_last_probe_ok (cb w), false))
           else (with_cb (set_probe (io_probe_ok io) (io_now io)) w, (io_probe_ok io, true))
       end.

Section Call.
(** [X] is the state outside the breaker that the guarded function and the
    fallback may change; [E] is the type of the exceptions they raise. *)
Context {X E A : Type}.

Inductive call_error := CircuitOpenError (name : string) | CalleeError (e : E).

Definition body : Type := X -> X * (E + A).

Definition lift_result (r : E + A) : call_error + A :=
  match r with inl e => inl (CalleeError e) | inr a => inr a end.

Definition run_fallback (w : world) (fallback : option body) (x : X)
    : world * X * (call_error + A) :=
  match fallback with
  | None => (w, x, inl (CircuitOpenError (name (cb w))))
  | Some f => let '(x', r) := f x in (w, x', lift_result r)
  end.

(** Run the guarded function and record its outcome. *)
Definition run_guarded (io : IO) (fn : body) (w : world) (x : X)
    : world * X * (call_error + A) :=
  match fn x with
  | (x', inl e) => (_record_failure io w, x', inl (CalleeError e))
  | (x', inr a) => (_record_success io w, x', inr a)
  end.

Definition call_sync (io : IO) (fn : body) (fallback : option body) (w : world) (x : X)
    : world * X * (call_error + A) :=
  let '(w, open) := _before_call io w in
  if open then run_fallback w fallback x else run_guarded io fn w x.

(** [call]: the coroutine variant, with the TCP preflight of the redis
    breaker.  The outcome of [await]ing the function, a deadline expiry
    included, is the outcome of [fn]. *)
Definition call (io : IO) (fn : body) (fallback : option body) (w : world) (x : X)
    : world * X * (call_error + A) :=
  let '(w, open) := _before_call io w in
  if open then run_fallback w fallback x
  else if is_redis (cb w) then
    let '(w, (preflight_ok, fresh)) := _redis_connectivity_preflight io w in
    if preflight_ok then run_guarded io fn w x
    else run_fallback (if fresh then _record_failure io w else w) fallback x
  else run_guarded io fn w x.
End Call.

Arguments call_error : clear implicits.
Arguments body : clear implicits.

(** ** Registry *)

Record CircuitConfig := {
  cfg_failure_threshold : Z;
  cfg_window_seconds : Z;
  cfg_recovery_timeout_seconds : Z;
}.

Definition CIRCUIT_CONFIGS : list (string * CircuitConfig) :=
  [("redis", Build_CircuitConfig 5 10 30);
   ("gemini_embed", Build_CircuitConfig 10 60 120);
   ("gemini_extract", Build_CircuitConfig 10 60 300);
   ("qdrant", Build_CircuitConfig 3 5 60);
   ("postgres", Build_CircuitConfig 5 10 20)].

Definition _build_breaker (client : bool) (endpoint : option (string * Z))
    (c : string * CircuitConfig) : CircuitBreaker :=
  new_breaker c.1 (cfg_failure_threshold c.2) (cfg_window_seconds c.2)
    (cfg_recovery_timeout_seconds c.2) client endpoint.

(** The registry's [_breakers] dictionary, in insertion order. *)
Definition registry : Type := list (string * world).

Definition new_registry (client : bool) (endpoint : option (string * Z)) : registry :=
  map (fun c => (c.1, {| cb := _build_breaker client endpoint c; shared := RawMissing |}))
      CIRCUIT_CONFIGS.

(** [get_health]: once a breaker reports its state store as disabled the
    remaining ones are read locally. *)
Fixpoint get_health_from (io : IO) (use_local_only : bool) (r : registry)
    : registry * list (string * string) :=
  match r with
  | [] => ([], [])
  | (nm, w) :: rest =>
      if use_local_only then
        let '(rest', h) := get_health_from io true rest in
        ((nm, w) :: rest', (nm, local_state io (cb w)) :: h)
      else
        let '(w', st) := current_state io w in
        let '(rest', h) := get_health_from io (is_state_store_disabled io (cb w')) rest in
        ((nm, w') :: rest', (nm, st) :: h)
  end.

Definition get_health (io : IO) (r : registry) := get_health_from io false r.

Definition get_local_health (io : IO) (r : registry) : list (string * string) :=
  map (fun nw => (nw.1, local_state io (cb nw.2))) r.

Definition open_breakers (health : list (string * string)) : list string :=
  map fst (filter (fun ns => ns.2 = "OPEN") health).

Definition _overall_status_from_health (health : list (string * string)) : string :=
  let opened := open_breakers health in
  if bool_decide ("postgres" ∈ opened) || (3 <=? length opened)%nat then "CRITICAL"
  else if (1 <=? length opened)%nat then "DEGRADED"
  else "HEALTHY".

Definition overall_status (io : IO) (r : registry) : registry * string :=
  let '(r', h) := get_health io r in (r', _overall_status_from_health h).

Definition overall_status_local (io : IO) (r : registry) : string :=
  _overall_status_from_health (get_local_health io r).

(** ** Lemmas *)

Lemma decode_encode (s : CircuitState) : decode_state (encode_state s) = s.
Proof. by destruct s. Qed.

Lemma Qltb_tick (a : Q) : (a <?q a + _refresh_interval_seconds) = true.
Proof. apply Qltb_lt. unfold _refresh_interval_seconds. lra. Qed.

Create HintDb breaker.
Create Rewrite HintDb breaker_rw.
#[export] Hint Rewrite decode_encode Qltb_tick : breaker_rw.

Ltac breaker_cases :=
  repeat (case_match; simplify_eq/=; q_reflect; try done).

(** A state just saved is the state the next read at the same instant sees. *)
Lemma local_of_save (io : IO) (s : CircuitState) (w : world) :
  _local_state (cb (_save_state io s w)) = s.
Proof. unfold _save_state. by breaker_cases. Qed.

Lemma next_refresh_of_save (io : IO) (s : CircuitState) (w : world) :
  _next_refresh_at (cb (_save_state io s w)) = (io_now io + _refresh_interval_seconds)%Q.
Proof. unfold _save_state. by breaker_cases. Qed.

Lemma load_after_save (io : IO) (s : CircuitState) (w : world) :
  _load_state io false (_save_state io s w) = (_save_state io s w, s).
Proof.
  unfold _load_state. rewrite next_refresh_of_save, local_of_save.
  rewrite Qltb_tick. simpl. by breaker_cases.
Qed.

(** Immutable configuration survives every update. *)
Definition same_config (b b' : CircuitBreaker) : Prop :=
  name b' = name b /\ failure_threshold b' = failure_threshold b /\
  window_seconds b' = window_seconds b /\
  recovery_timeout_seconds b' = recovery_timeout_seconds b /\
  has_state_client b' = has_state_client b.

Lemma save_config io s w : same_config (cb w) (cb (_save_state io s w)).
Proof. unfold _save_state, same_config. by breaker_cases. Qed.

Lemma load_config io f w : same_config (cb w) (cb (_load_state io f w).1).
Proof. unfold _load_state, load_failed, same_config. by breaker_cases. Qed.

Lemma coerce_config io s w : same_config (cb w) (cb (_coerce_recovery_state io s w).1).
Proof.
  unfold _coerce_recovery_state. case_match; [done|]. case_match; [done|]. apply save_config.
Qed.

Lemma is_redis_config b b' : same_config b b' -> is_redis b' = is_redis b.
Proof. intros [Hn _]. unfold is_redis. by rewrite Hn. Qed.

Lemma load_returns_local io f w :
  (_load_state io f w).2 = _local_state (cb (_load_state io f w).1).
Proof. unfold _load_state. by breaker_cases. Qed.

(** ** The circuit invariant *)

Definition valid_name (s : string) : Prop := s = "CLOSED" \/ s = "OPEN" \/ s = "HALF_OPEN".

Definition state_ok (threshold : Z) (s : CircuitState) : Prop :=
  valid_name (state s) /\ (0 <= failure_count s)%Z /\
  (state s = "CLOSED" -> (failure_count s < threshold)%Z) /\
  (state s <> "CLOSED" -> (threshold <= failure_count s)%Z).

Definition shared_ok (threshold : Z) (v : raw_value) : Prop :=
  match v with RawPayload p => state_ok threshold (decode_state p) | _ => True end.

Definition world_ok (w : world) : Prop :=
  (1 <= failure_threshold (cb w))%Z /\
  state_ok (failure_threshold (cb w)) (_local_state (cb w)) /\
  shared_ok (failure_threshold (cb w)) (shared w).

Lemma default_ok t : (1 <= t)%Z -> state_ok t default_state.
Proof. intros. repeat split; simpl; try lia; [by left|done]. Qed.

Lemma opened_ok io b :
  (1 <= failure_threshold b)%Z -> state_ok (failure_threshold b) (opened_by_threshold io b).
Proof. intros. repeat split; simpl; try lia; [by right; left|done]. Qed.

Lemma bump_ok now t win s : (1 <= t)%Z -> state_ok t s -> state_ok t (bump_failure now t win s).
Proof.
  intros Ht (Hn & Hc & _). unfold bump_failure.
  set (expired := _ || _).
  assert (0 <= if expired then 0 else failure_count s)%Z by (destruct expired; lia).
  destruct (Z.leb_spec t ((if expired then 0 else failure_count s) + 1)%Z);
    repeat split; simpl; try lia; try done; [by right; left|by left].
Qed.

Lemma save_ok io s w :
  world_ok w -> state_ok (failure_threshold (cb w)) s -> world_ok (_save_state io s w).
Proof.
  intros (Ht & Hl & Hs) Hok. unfold world_ok, _save_state.
  breaker_cases; repeat split; simpl; try done; try apply Hok.
Qed.

Lemma load_ok io f w :
  world_ok w -> world_ok (_load_state io f w).1 /\
  state_ok (failure_threshold (cb (_load_state io f w).1)) (_load_state io f w).2.
Proof.
  intros (Ht & Hl & Hs). unfold _load_state, load_failed.
  destruct (is_redis (cb w)) eqn:Hr; [done|].
  destruct (negb _ || _); [done|]. destruct (negb f && _); [done|].
  destruct (io_get_ok io); [destruct (shared w) eqn:E|]; simpl;
    unfold is_redis in *; simpl in *; rewrite ?Hr; unfold world_ok; simpl; rewrite ?E; naive_solver.
Qed.

Lemma coerce_ok io s w :
  world_ok w -> state_ok (failure_threshold (cb w)) s ->
  world_ok (_coerce_recovery_state io s w).1 /\
  state_ok (failure_threshold (cb w)) (_coerce_recovery_state io s w).2.
Proof.
  intros Hw Hs. unfold _coerce_recovery_state. destruct (negb _) eqn:Hopen; [done|].
  apply negb_false_iff, bool_decide_eq_true in Hopen.
  case_match; [done|]. simpl.
  assert (state_ok (failure_threshold (cb w))
    {| state := "HALF_OPEN"; failure_count := failure_count s;
       window_started_at := if Qeq_bool (window_started_at s) 0 then io_now io else window_started_at s;
       opened_at := opened_at s |}) as Hh.
  { destruct Hs as (? & ? & ? & Hc). repeat split; simpl; try done; [by right; right|].
    intros _. apply Hc. by rewrite Hopen. }
  split; [by apply save_ok|done].
Qed.

Lemma failure_ok io w : world_ok w -> world_ok (_record_failure io w).
Proof.
  intros Hw. unfold _record_failure.
  destruct (_load_state io false w) as [w' s] eqn:E.
  destruct (load_ok io false w Hw) as [Hw' Hs]. rewrite E in Hw', Hs. simpl in *.
  case_match; apply save_ok; try done; [by apply opened_ok, Hw'|apply bump_ok; [apply Hw'|done]].
Qed.

Lemma success_ok io w : world_ok w -> world_ok (_record_success io w).
Proof.
  intros Hw. unfold _record_success. case_match; [done|].
  apply save_ok; [done|]. apply default_ok, Hw.
Qed.

Lemma force_open_ok io w : world_ok w -> world_ok (force_open io w).
Proof.
  intros Hw. unfold force_open. destruct (_load_state io false w) as [w' s] eqn:E.
  destruct (load_ok io false w Hw) as [Hw' _]. rewrite E in Hw'. simpl in *.
  apply save_ok; [done|]. apply opened_ok, Hw'.
Qed.

Lemma external_ok io w : world_ok w -> world_ok (record_external_failure io w).
Proof. intros. unfold record_external_failure. case_match; [done|]. by apply failure_ok. Qed.

Lemma before_call_ok io w : world_ok w -> world_ok (_before_call io w).1.
Proof.
  intros Hw. unfold _before_call. destruct (_load_state io false w) as [w1 s1] eqn:E1.
  destruct (load_ok io false w Hw) as [Hw1 Hs1]. rewrite E1 in Hw1, Hs1. simpl in *.
  destruct (_coerce_recovery_state io s1 w1) as [w2 s2] eqn:E2.
  destruct (coerce_ok io s1 w1 Hw1 Hs1) as [Hw2 _]. rewrite E2 in Hw2. simpl in *.
  by case_match.
Qed.

#[export] Hint Resolve failure_ok success_ok force_open_ok external_ok before_call_ok : breaker.

(** ** Runs: this process's calls interleaved with its peers' writes *)

Section Runs.
Context {X E A : Type}.

(** One step of the world of a breaker: a call of either flavour, a failure
    reported from outside, a forced opening, or another process saving its
    own well-formed state in the shared store. *)
Inductive breaker_step : world * X -> world * X -> Prop :=
  | StepCallSync io (fn : body X E A) fallback w x :
      breaker_step (w, x) (call_sync io fn fallback w x).1
  | StepCall io (fn : body X E A) fallback w x :
      breaker_step (w, x) (call io fn fallback w x).1
  | StepExternal io w x : breaker_step (w, x) (record_external_failure io w, x)
  | StepForce io w x : breaker_step (w, x) (force_open io w, x)
  | StepPeer v w x :
      shared_ok (failure_threshold (cb w)) v ->
      breaker_step (w, x) ({| cb := cb w; shared := v |}, x).

Lemma run_guarded_ok io (fn : body X E A) w x :
  world_ok w -> world_ok (run_guarded io fn w x).1.1.
Proof. intros. unfold run_guarded. destruct (fn x) as [? [?|?]]; simpl; auto with breaker. Qed.

Lemma run_fallback_world w (f : option (body X E A)) x : (run_fallback w f x).1.1 = w.
Proof. unfold run_fallback. destruct f as [f|]; [by destruct (f x)|done]. Qed.

Lemma step_ok a b : breaker_step a b -> world_ok a.1 -> world_ok b.1.
Proof.
  intros Hstep Hw. destruct Hstep as [io fn fb w x|io fn fb w x| | |v w x Hv]; simpl in *;
    eauto with breaker.
  - pose proof (before_call_ok io w Hw). unfold call_sync.
    destruct (_before_call io w) as [w' [|]]; simpl in *.
    + by rewrite run_fallback_world.
    + by apply run_guarded_ok.
  - pose proof (before_call_ok io w Hw) as Hb. unfold call.
    destruct (_before_call io w) as [w' [|]]; simpl in *; [by rewrite run_fallback_world|].
    destruct (is_redis _); [|by apply run_guarded_ok].
    destruct (_redis_connectivity_preflight io w') as [w2 [ok fresh]] eqn:Ep.
    assert (world_ok w2) as Hw2.
    { revert Ep. unfold _redis_connectivity_preflight. intros. by breaker_cases. }
    destruct ok; [by apply run_guarded_ok|]. rewrite run_fallback_world.
    destruct fresh; auto with breaker.
  - destruct Hw as (? & ? & ?). by split_and!.
Qed.
End Runs.

(** ** Counting a burst of failures *)

Fixpoint failures (ios : list IO) (w : world) : world :=
  match ios with [] => w | io :: ios => failures ios (_record_failure io w) end.

(** No store to read: the local state is the state. *)
Definition local_only (b : CircuitBreaker) : Prop := is_redis b = true \/ has_state_client b = false.

Lemma load_local_only io f w : local_only (cb w) -> _load_state io f w = (w, _local_state (cb w)).
Proof. unfold _load_state. intros [->| ->]; [done|]. by case_match. Qed.

Lemma save_local_only io s w : local_only (cb w) -> local_only (cb (_save_state io s w)).
Proof.
  destruct (save_config io s w) as (Hn & _ & _ & _ & Hc). unfold local_only, is_redis.
  by rewrite Hn, Hc.
Qed.

Lemma failure_local_only io w :
  local_only (cb w) -> state (_local_state (cb w)) <> "HALF_OPEN" ->
  _record_failure io w =
  _save_state io (bump_failure (io_now io) (failure_threshold (cb w)) (window_seconds (cb w))
                    (_local_state (cb w))) w.
Proof.
  intros Hl Hs. unfold _record_failure. rewrite load_local_only by done.
  by rewrite bool_decide_false.
Qed.

(** Once a window is running, [k] further failures inside it add [k]. *)
Lemma failures_in_window (ios : list IO) (w : world) :
  let s := _local_state (cb w) in
  local_only (cb w) -> state s <> "HALF_OPEN" -> ~ (window_started_at s == 0)%Q ->
  Forall (fun io => (io_now io - window_started_at s <= inject_Z (window_seconds (cb w)))%Q) ios ->
  ios <> [] ->
  let s' := _local_state (cb (failures ios w)) in
  failure_count s' = (failure_count s + Z.of_nat (length ios))%Z /\
  state s' = (if (failure_threshold (cb w) <=? failure_count s + Z.of_nat (length ios))%Z
              then "OPEN" else "CLOSED").
Proof.
  revert w. induction ios as [|io ios IH]; intros w s Hl Hs Hwin Hall Hne; [done|].
  apply Forall_cons_1 in Hall as [Hio Hall]. simpl. rewrite failure_local_only by done.
  set (b := bump_failure _ _ _ _). set (w1 := _save_state io b w).
  assert (_local_state (cb w1) = b) as Hb by apply local_of_save.
  assert (Qeq_bool (window_started_at s) 0 = false) as E0.
  { destruct (Qeq_bool _ _) eqn:E; [|done]. by apply Qeq_bool_eq in E. }
  assert ((inject_Z (window_seconds (cb w)) <?q io_now io - window_started_at s) = false) as E1
    by (by apply Qltb_ge).
  assert (failure_count b = (failure_count s + 1)%Z /\
          window_started_at b = window_started_at s /\
          state b = (if (failure_threshold (cb w) <=? failure_count s + 1)%Z
                     then "OPEN" else "CLOSED")) as (Hc & Hst & Hname).
  { unfold b, bump_failure. fold s. rewrite E0, E1. simpl. by case_match. }
  destruct (decide (ios = [])) as [->|Hios].
  { simpl. rewrite Hb. split; [lia|]. by rewrite Hname. }
  destruct (save_config io b w) as (_ & Hthr & Hws & _ & _). fold w1 in Hthr, Hws.
  destruct (IH w1) as [IHc IHs]; rewrite ?Hb, ?Hthr, ?Hws, ?Hst; try done.
  - by apply save_local_only.
  - rewrite Hname. by destruct (_ <=? _)%Z.
  - rewrite Hb, Hc in IHc. rewrite Hb, Hthr, Hc in IHs.
    rewrite IHc, IHs. cbn [length]. split; [lia|].
    replace (failure_count s + 1 + Z.of_nat (length ios))%Z
      with (failure_count s + Z.of_nat (S (length ios)))%Z by lia. done.
Qed.

(** ** Properties *)

(** C7: every state of a configured breaker reachable by calls, external
    failures, forced openings and its peers' writes to the shared store is
    well formed: its name is one of the three, its failure count is
    non-negative, and it is below the threshold exactly when CLOSED. *)
Theorem reachable_breakers_well_formed {X E A : Type} (c : string * CircuitConfig)
    (client : bool) (endpoint : option (string * Z)) (x x' : X) (w' : world) :
  c ∈ CIRCUIT_CONFIGS ->
  rtc (@breaker_step X E A) ({| cb := _build_breaker client endpoint c; shared := RawMissing |}, x)
      (w', x') ->
  world_ok w'.
Proof.
  intros Hc Hrtc.
  assert (world_ok {| cb := _build_breaker client endpoint c; shared := RawMissing |}) as Hinit.
  { assert (1 <= cfg_failure_threshold c.2)%Z as Ht.
    { apply list_elem_of_In in Hc. simpl in Hc.
      repeat (destruct Hc as [<-|Hc]; [simpl; lia|]). done. }
    split_and!; simpl; [done|by apply default_ok|done]. }
  remember (_, x) as a eqn:Ea. remember (w', x') as b eqn:Eb.
  assert (world_ok a.1) as Ha by (by subst a). clear Ea Hinit. revert Eb.
  induction Hrtc as [a|a m b Hstep _ IH]; intros ->; [done|].
  by apply IH; [eapply step_ok|].
Qed.

Definition io_at (t : Q) : IO :=
  {| io_now := t; io_get_ok := true; io_set_ok := true; io_probe_ok := true;
     io_probe_bypassed := false |}.

Lemma reachable_breakers_well_formed_witness :
  let w0 := {| cb := _build_breaker true None ("qdrant", Build_CircuitConfig 3 5 60);
               shared := RawMissing |} in
  world_ok (force_open (io_at 100) w0).
Proof.
  intros w0.
  apply (@reachable_breakers_well_formed unit unit unit
           ("qdrant", Build_CircuitConfig 3 5 60) true None tt tt).
  - apply list_elem_of_In. do 3 right. by left.
  - apply rtc_once. constructor.
Defined.

(** while the circuit is OPEN and its recovery timeout has not elapsed,
    neither call wrapper runs the guarded function: the outcome is that of the
    fallback (or [CircuitOpenError]) and the breaker keeps the loaded state. *)
Theorem open_circuit_shields {X E A : Type} (io : IO) (fn : body X E A)
    (fallback : option (body X E A)) (w w1 : world) (s : CircuitState) (x : X) :
  _load_state io false w = (w1, s) ->
  state s = "OPEN" ->
  (io_now io - opened_at s < inject_Z (recovery_timeout_seconds (cb w)))%Q ->
  call_sync io fn fallback w x = run_fallback w1 fallback x /\
  call io fn fallback w x = run_fallback w1 fallback x.
Proof.
  intros Hload Hopen Hrec.
  assert (_before_call io w = (w1, true)) as Hb.
  { unfold _before_call. rewrite Hload. unfold _coerce_recovery_state.
    rewrite bool_decide_true by done. simpl.
    destruct (load_config io false w) as (_ & _ & _ & Hr & _). rewrite Hload in Hr. simpl in Hr.
    rewrite Hr. apply Qltb_lt in Hrec. rewrite Hrec. rewrite bool_decide_true by done.
    by destruct (_ && _). }
  unfold call_sync, call. by rewrite Hb.
Qed.

Lemma open_circuit_shields_witness :
  let w := force_open (io_at 100) {| cb := new_breaker "qdrant" 3 5 60 true None;
                                     shared := RawMissing |} in
  @call_sync nat unit nat (io_at 130) (fun x => (S x, inr x)) None w 7
    = run_fallback (_load_state (io_at 130) false w).1 None 7 /\
  @call nat unit nat (io_at 130) (fun x => (S x, inr x)) None w 7
    = run_fallback (_load_state (io_at 130) false w).1 None 7.
Proof.
  intros w. eapply (open_circuit_shields (io_at 130) (fun x => (S x, inr x)) None w);
    [vm_compute; reflexivity|vm_compute; reflexivity|vm_compute; reflexivity].
Defined.

(** a CLOSED breaker trips exactly when the number of failures recorded
    inside one window reaches its threshold. *)
Theorem burst_trips_at_threshold (io : IO) (ios : list IO) (w : world) :
  local_only (cb w) -> _local_state (cb w) = default_state ->
  ~ (io_now io == 0)%Q ->
  Forall (fun i => (io_now i - io_now io <= inject_Z (window_seconds (cb w)))%Q) ios ->
  let s := _local_state (cb (failures (io :: ios) w)) in
  failure_count s = Z.of_nat (length (io :: ios)) /\
  state s = (if (failure_threshold (cb w) <=? Z.of_nat (length (io :: ios)))%Z
             then "OPEN" else "CLOSED").
Proof.
  intros Hl Hd Hnow Hall. cbn [failures]. rewrite failure_local_only by (by rewrite ?Hd).
  rewrite Hd. set (b := bump_failure _ _ _ _). set (w1 := _save_state io b w).
  assert (_local_state (cb w1) = b) as Hb by apply local_of_save.
  destruct (save_config io b w) as (_ & Hthr & Hws & _ & _). fold w1 in Hthr, Hws.
  assert (failure_count b = 1%Z /\ window_started_at b = io_now io /\
          state b = (if (failure_threshold (cb w) <=? 1)%Z then "OPEN" else "CLOSED"))
    as (Hc & Hst & Hname) by (unfold b, bump_failure; simpl; by destruct (_ <=? _)%Z).
  destruct (decide (ios = [])) as [->|Hne]; [simpl; by rewrite Hb, Hc, Hname|].
  destruct (failures_in_window ios w1) as [IHc IHs]; rewrite ?Hb, ?Hws, ?Hst; try done.
  { by apply save_local_only. }
  { rewrite Hname. by destruct (_ <=? _)%Z. }
  rewrite Hb, Hc in IHc. rewrite Hb, Hthr, Hc in IHs. cbn [length].
  rewrite IHc, IHs. split; [lia|].
  by replace (Z.of_nat (S (length ios))) with (1 + Z.of_nat (length ios))%Z by lia.
Qed.

Lemma burst_trips_at_threshold_witness :
  let w := {| cb := new_breaker "postgres" 5 10 20 false None; shared := RawMissing |} in
  let s := _local_state (cb (failures (map io_at [1; 2; 3; 4; 5]%Q) w)) in
  failure_count s = 5%Z /\ state s = "OPEN".
Proof.
  apply (burst_trips_at_threshold (io_at 1) (map io_at [2; 3; 4; 5]%Q)
           {| cb := new_breaker "postgres" 5 10 20 false None; shared := RawMissing |}).
  - by right.
  - done.
  - vm_compute. discriminate.
  - repeat constructor; vm_compute; discriminate.
Defined.

(** once the recovery timeout has elapsed the next call runs the guarded
    function once as a probe; its success closes the circuit with a zero count
    and its failure opens it again for a full recovery timeout. *)
Theorem recovery_probe_decides {X E A : Type} (io : IO) (fn : body X E A)
    (fallback : option (body X E A)) (w w1 : world) (s : CircuitState) (x : X) :
  _load_state io false w = (w1, s) ->
  state s = "OPEN" ->
  (inject_Z (recovery_timeout_seconds (cb w)) <= io_now io - opened_at s)%Q ->
  is_redis (cb w) = false ->
  let '(w', x', r) := call_sync io fn fallback w x in
  x' = (fn x).1 /\ r = lift_result (fn x).2 /\
  _local_state (cb w') = (match (fn x).2 with
                          | inl _ => opened_by_threshold io (cb w)
                          | inr _ => closed_state
                          end) /\
  call io fn fallback w x = (w', x', r).
Proof.
  intros Hload Hopen Hrec Hredis.
  destruct (load_config io false w) as (Hn & Ht & _ & Hr & _).
  rewrite Hload in Hn, Ht, Hr. simpl in *.
  assert (is_redis (cb w1) = false) as Hredis1 by (unfold is_redis in *; by rewrite Hn).
  set (h := {| state := "HALF_OPEN"; failure_count := failure_count s;
       window_started_at := if Qeq_bool (window_started_at s) 0 then io_now io else window_started_at s;
       opened_at := opened_at s |}).
  assert (_before_call io w = (_save_state io h w1, false)) as Hb.
  { unfold _before_call. rewrite Hload. unfold _coerce_recovery_state.
    rewrite bool_decide_true by done. simpl. rewrite Hr.
    apply Qltb_ge in Hrec. rewrite Hrec. fold h.
    rewrite (is_redis_config (cb w1)) by apply save_config. by rewrite Hredis1. }
  assert (is_redis (cb (_save_state io h w1)) = false) as Hredis2.
  { rewrite (is_redis_config (cb w1)) by apply save_config. done. }
  unfold call_sync, call. rewrite Hb, Hredis2. unfold run_guarded.
  destruct (fn x) as [x' [e|a]]; simpl; split_and!; try done.
  - unfold _record_failure. rewrite load_after_save. simpl. rewrite local_of_save.
    unfold opened_by_threshold.
    destruct (save_config io h w1) as (_ & Ht2 & _). by rewrite Ht2, Ht.
  - unfold _record_success. rewrite local_of_save. simpl. apply local_of_save.
Qed.

Lemma recovery_probe_decides_witness :
  let w := force_open (io_at 100) {| cb := new_breaker "qdrant" 3 5 60 true None;
                                     shared := RawMissing |} in
  let '(w', x', r) := @call_sync nat unit nat (io_at 161) (fun x => (S x, inl tt)) None w 7 in
  x' = 8 /\ r = inl (CalleeError tt) /\
  _local_state (cb w') = opened_by_threshold (io_at 161) (cb w) /\
  @call nat unit nat (io_at 161) (fun x => (S x, inl tt)) None w 7 = (w', x', r).
Proof.
  intros w.
  refine (recovery_probe_decides (io_at 161) (fun x : nat => (S x, inl tt)) None w
            (_load_state (io_at 161) false w).1 (_load_state (io_at 161) false w).2 7 _ _ _ _).
  - by destruct (_load_state _ _ _).
  - vm_compute. reflexivity.
  - vm_compute. discriminate.
  - vm_compute. reflexivity.
Defined.

(** a state one process saves is the state every other process sharing the
    key reads at its next refresh. *)
Theorem peers_observe_saved_state (io io' : IO) (s : CircuitState) (w : world)
    (peer : CircuitBreaker) :
  is_redis (cb w) = false -> has_state_client (cb w) = true ->
  (_state_store_disabled_until (cb w) <= io_now io)%Q -> io_set_ok io = true ->
  is_redis peer = false -> has_state_client peer = true ->
  (_state_store_disabled_until peer <= io_now io')%Q ->
  (_next_refresh_at peer <= io_now io')%Q -> io_get_ok io' = true ->
  (_load_state io' false {| cb := peer; shared := shared (_save_state io s w) |}).2 = s.
Proof.
  intros Hr Hc Hd Hset Hr' Hc' Hd' Hn Hget.
  assert (shared (_save_state io s w) = RawPayload (encode_state s)) as ->.
  { unfold _save_state, is_state_store_disabled, is_redis in *. simpl. rewrite Hr, Hc, Hset.
    simpl. apply Qltb_ge in Hd. by rewrite Hd. }
  unfold _load_state, is_state_store_disabled. simpl. rewrite Hr', Hc', Hget. simpl.
  apply Qltb_ge in Hd', Hn. rewrite Hd', Hn. simpl. apply decode_encode.
Qed.

Lemma peers_observe_saved_state_witness :
  let b := new_breaker "gemini_extract" 10 60 300 true None in
  let s := opened_by_threshold (io_at 50) b in
  (_load_state (io_at 51) false
     {| cb := b; shared := shared (_save_state (io_at 50) s {| cb := b; shared := RawMissing |}) |}).2
  = s.
Proof.
  intros b s.
  apply (peers_observe_saved_state (io_at 50) (io_at 51) s {| cb := b; shared := RawMissing |} b);
    vm_compute; try reflexivity; discriminate.
Defined.

(** a failure recorded on a breaker that is already OPEN, after its
    counting window expired, moves it back to CLOSED with a count of one, long
    before the recovery timeout: the next call is let through. *)
Theorem late_failure_closes_open_circuit {X E A : Type} (io : IO) (w : world)
    (fn : body X E A) (fallback : option (body X E A)) (x : X) :
  local_only (cb w) -> is_redis (cb w) = false -> (1 < failure_threshold (cb w))%Z ->
  state (_local_state (cb w)) = "OPEN" ->
  (inject_Z (window_seconds (cb w)) < io_now io - window_started_at (_local_state (cb w)))%Q ->
  let w' := _record_failure io w in
  state (_local_state (cb w')) = "CLOSED" /\ failure_count (_local_state (cb w')) = 1%Z /\
  call_sync io fn fallback w' x = run_guarded io fn w' x.
Proof.
  intros Hl Hredis Ht Hopen Hwin w'. unfold w'. rewrite failure_local_only by (by rewrite ?Hopen).
  set (b := bump_failure _ _ _ _).
  assert (state b = "CLOSED" /\ failure_count b = 1%Z) as [Hs Hc].
  { unfold b, bump_failure. apply Qltb_lt in Hwin. rewrite Hwin, orb_true_r.
    destruct (Z.leb_spec (failure_threshold (cb w)) (0 + 1)%Z); [lia|done]. }
  rewrite local_of_save. split_and!; [done..|].
  assert (is_redis (cb (_save_state io b w)) = false) as Hredis2.
  { rewrite (is_redis_config (cb w)) by apply save_config. done. }
  unfold call_sync, _before_call. rewrite load_after_save. unfold _coerce_recovery_state.
  rewrite Hs. simpl. by rewrite Hredis2, Hs.
Qed.

Lemma late_failure_closes_open_circuit_witness :
  let w := failures (map io_at [1; 2; 3]%Q)
             {| cb := new_breaker "qdrant" 3 5 60 false None; shared := RawMissing |} in
  let w' := _record_failure (io_at 7) w in
  state (_local_state (cb w')) = "CLOSED" /\ failure_count (_local_state (cb w')) = 1%Z /\
  @call_sync nat unit nat (io_at 7) (fun x => (S x, inr x)) None w' 3
    = run_guarded (io_at 7) (fun x => (S x, inr x)) w' 3.
Proof.
  intros w w'.
  apply (late_failure_closes_open_circuit (io_at 7) w (fun x => (S x, inr x)) None 3).
  - by right.
  - vm_compute. reflexivity.
  - vm_compute. reflexivity.
  - vm_compute. reflexivity.
  - vm_compute. reflexivity.
Defined.
