(* ===== verification/UniversalLedger.v ===== *)
(** * The ledger of universal memories

    A Memory Passport is a person's identity across tenants: agents to which
    its holder granted access write universal memories about the holder.  Here
    are the passport's rows of [api/db/models.py] and
    [UniversalClaimLedgerService] of
    [api/services/universal_claim_ledger_service.py], which decides for every
    proposition which universal memory displays it.

    The advisory lock that serialises the writers of one claim is the atomicity
    of an operation; the async and sync twins are one definition. *)

From S2P Require Export Versions.
Export Universal.

(** ** Rows *)

Record UniversalUser := {
  uu_id : uuid;
  uu_uui_token : string;
  uu_email : option string;
  uu_display_name : option string;
  uu_otp_code : option string;
  uu_otp_expires_at : option datetime;
  uu_is_active : bool;
  uu_memory_count : Z;
}.

Record GlobalAgent := {
  ga_id : uuid;
  ga_owner_tenant_id : uuid;
  ga_name : string;
  ga_description : option string;
  ga_logo_url : option string;
  ga_website_url : option string;
  ga_default_categories_requested : list string;
  ga_redirect_uri : string;
  ga_is_verified : bool;
  ga_is_public : bool;
  ga_is_active : bool;
}.

Record PermissionGrant := {
  pg_id : uuid;
  pg_user_uui_id : uuid;
  pg_agent_id : uuid;
  pg_categories_allowed : list string;
  pg_access_type : string;
  pg_granted_at : datetime;
  pg_expires_at : option datetime;
  pg_is_active : bool;
  pg_revoked_at : option datetime;
}.

Record UniversalMemoryClaim := {
  uc_id : uuid;
  uc_user_uui_id : uuid;
  uc_category : string;
  uc_claim_fingerprint : string;
  uc_subject_key : string;
  uc_predicate_key : string;
  uc_active_value : option string;
  uc_status : ClaimStatus.t;
  uc_active_memory_id : option uuid;
  uc_winning_revision_id : option uuid;
  uc_confidence_score : Q;
  uc_created_at : datetime;
  uc_updated_at : datetime;
}.

Record UniversalMemoryClaimRevision := {
  ur_id : uuid;
  ur_claim_id : uuid;
  ur_universal_memory_id : option uuid;
  ur_source_tenant_id : option uuid;
  ur_source_agent_id : option uuid;
  ur_source_org_connection_id : option uuid;
  ur_permission_grant_id : option uuid;
  ur_source_type : string;
  ur_asserted_value : string;
  ur_status : RevisionStatus.t;
  ur_confidence_score : Q;
  ur_resolution_reason : option string;
  ur_schema_version : Z;
  ur_processor_version : string;
  ur_created_at : datetime;
}.

Record UserMemoryFlag := {
  fl_id : uuid;
  fl_memory_id : uuid;
  fl_user_uui_id : uuid;
  fl_reason : string;
  fl_correction : option string;
  fl_flagged_at : datetime;
  fl_status : string;
  fl_resolved_at : option datetime;
}.

Record UUIProxyLink := {
  lk_id : uuid;
  lk_tenant_id : uuid;
  lk_proxy_user_id : uuid;
  lk_user_uui_id : uuid;
  lk_linked_at : datetime;
}.

Record OrganisationDirectory := {
  od_id : uuid;
  od_tenant_id : uuid;
  od_display_name : string;
  od_logo_url : option string;
  od_website_url : option string;
  od_category : string;
  od_oauth_enabled : bool;
  od_oauth_client_id : option string;
  od_oauth_client_secret_ciphertext : option string;
  od_oauth_authorization_url : option string;
  od_oauth_token_url : option string;
  od_oauth_userinfo_url : option string;
  od_oauth_scopes : list string;
  od_link_token_enabled : bool;
  od_is_verified : bool;
  od_is_public : bool;
}.

Record VerifiedOrgConnection := {
  oc_id : uuid;
  oc_user_uui_id : uuid;
  oc_tenant_id : uuid;
  oc_org_directory_id : uuid;
  oc_proxy_user_id : option uuid;
  oc_connection_method : string;
  oc_external_account_ref : option string;
  oc_verified_at : datetime;
  oc_last_verified_at : datetime;
  oc_is_active : bool;
  oc_revoked_at : option datetime;
  oc_revoked_by : option string;
}.

(** The tables of a session. *)
Record Passport := {
  pp_users : gmap uuid UniversalUser;
  pp_agents : gmap uuid GlobalAgent;
  pp_grants : gmap uuid PermissionGrant;
  pp_db : UniversalDb;
  pp_claims : gmap uuid UniversalMemoryClaim;
  pp_revisions : gmap uuid UniversalMemoryClaimRevision;
  pp_flags : gmap uuid UserMemoryFlag;
  pp_tenants : gmap uuid string;                  (* company names *)
  pp_proxy_users : gmap uuid ProxyUser;
  pp_links : gmap uuid UUIProxyLink;
  pp_directories : gmap uuid OrganisationDirectory;
  pp_connections : gmap uuid VerifiedOrgConnection;
  pp_outbox : Outbox;
}.

Inductive passport_exn :=
  | JobError (what : string)                      (* ValueError *)
  | APIError (status_code : Z) (code error : string)
  | MultipleRows                                  (* sqlalchemy MultipleResultsFound *)
  | VersionError (e : version_exn).

Abbreviation PM := (M Passport passport_exn).

Definition memories (P : Passport) : gmap uuid UniversalMemory := ud_memories (pp_db P).
Definition put_memory (m : UniversalMemory) (P : Passport) : Passport :=
  P <| pp_db ::= fun d => d <| ud_memories ::= insert (um_id m) m |> |>.
Definition update_memory (id : uuid) (f : UniversalMemory -> UniversalMemory) : PM unit :=
  modify_st (fun P => P <| pp_db ::= fun d => d <| ud_memories ::= alter f id |> |>).
Definition put_uclaim (c : UniversalMemoryClaim) (P : Passport) : Passport :=
  P <| pp_claims ::= insert (uc_id c) c |>.
Definition put_urevision (r : UniversalMemoryClaimRevision) (P : Passport) : Passport :=
  P <| pp_revisions ::= insert (ur_id r) r |>.

(** A call of [VersionService] on the same session. *)
Definition in_versions {A} (m : M UniversalDb version_exn A) : PM A :=
  fun P => match m (pp_db P) with
           | (d, inr a) => (P <| pp_db := d |>, inr a)
           | (d, inl e) => (P <| pp_db := d |>, inl (VersionError e))
           end.

(** [scalar_one_or_none] of a query *)
Definition scalar_one {A} (rows : list A) : PM (option A) :=
  match rows with
  | [] => mret None
  | [a] => mret (Some a)
  | _ => raise_st MultipleRows
  end.

(** [str(memory.source_type or "passport_agent")] *)
Definition source_type_or (s : string) : string := if bool_decide (s = EmptyString) then "passport_agent" else s.
(** [float(confidence or 1.0)] *)
Definition one_if_zero (q : Q) : Q := if Qeq_bool q 0 then 1 else q.

Definition status_value (s : ClaimStatus.t) : string :=
  match s with
  | ClaimStatus.active => "active" | ClaimStatus.superseded => "superseded"
  | ClaimStatus.disputed => "disputed" | ClaimStatus.archived => "archived"
  end.

(** ** The service *)

Record UniversalClaimDecision := {
  cd_claim_id : uuid;
  cd_status : ClaimStatus.t;
  cd_memory_is_active : bool;
}.

Section Ledger.
Context `{PyLib}.

Definition _identity (memory : UniversalMemory) : ClaimIdentity :=
  build_claim_identity (um_content memory) (um_category memory) [].

Definition claims_of (user : uuid) (fingerprint : string) (P : Passport) : list UniversalMemoryClaim :=
  rows_where (fun c => bool_decide (uc_user_uui_id c = user)
                       && bool_decide (uc_claim_fingerprint c = fingerprint)) (pp_claims P).

Definition new_uclaim (id : uuid) (now : datetime) (memory : UniversalMemory) (identity : ClaimIdentity)
    : UniversalMemoryClaim :=
  let memory_is_active := negb (um_is_archived memory) in
  {| uc_id := id; uc_user_uui_id := um_user_uui_id memory; uc_category := um_category memory;
     uc_claim_fingerprint := ci_fingerprint identity; uc_subject_key := ci_subject_key identity;
     uc_predicate_key := ci_predicate_key identity;
     uc_active_value := if memory_is_active then Some (ci_value identity) else None;
     uc_status := if memory_is_active then ClaimStatus.active else ClaimStatus.archived;
     uc_active_memory_id := if memory_is_active then Some (um_id memory) else None;
     uc_winning_revision_id := None; uc_confidence_score := um_confidence memory;
     uc_created_at := now; uc_updated_at := now |}.

(** [normalize_text(claim.active_value or "") == normalize_text(identity.value)] *)
Definition same_value (claim : UniversalMemoryClaim) (identity : ClaimIdentity) : bool :=
  bool_decide (normalize_text (default EmptyString (uc_active_value claim))
               = normalize_text (ci_value identity)).

(** The claim takes over the memory's value. *)
Definition display (now : datetime) (confidence : Q) (memory : UniversalMemory) (identity : ClaimIdentity)
    (claim : UniversalMemoryClaim) : UniversalMemoryClaim :=
  claim <| uc_active_value := Some (ci_value identity) |> <| uc_active_memory_id := Some (um_id memory) |>
        <| uc_status := ClaimStatus.active |> <| uc_confidence_score := confidence |>
        <| uc_updated_at := now |>.

(** What an assertion of an existing claim does: the claim, whether the memory
    is still active, and the status of its revision. *)
Definition assert_claim (now : datetime) (memory : UniversalMemory) (identity : ClaimIdentity)
    (claim : UniversalMemoryClaim) : UniversalMemoryClaim * bool * RevisionStatus.t :=
  let memory_is_active := negb (um_is_archived memory) in
  if bool_decide (uc_active_memory_id claim = Some (um_id memory)) && memory_is_active
  then (display now (um_confidence memory) memory identity claim, true, RevisionStatus.activated)
  else if bool_decide (source_type_or (um_source_type memory) = "user_correction") && memory_is_active
  then (display now (one_if_zero (um_confidence memory)) memory identity claim, true, RevisionStatus.activated)
  else if negb memory_is_active then (claim, false, RevisionStatus.archived)
  else if same_value claim identity then (claim, false, RevisionStatus.asserted)
  else (claim <| uc_status := ClaimStatus.disputed |> <| uc_updated_at := now |>, false,
        RevisionStatus.disputed).

Definition universal_revision (id : uuid) (now : datetime) (claim_id : uuid) (memory : UniversalMemory)
    (identity : ClaimIdentity) (status : RevisionStatus.t) (grant : option PermissionGrant)
    (source_tenant_id : option uuid) (resolution_reason : string) : UniversalMemoryClaimRevision :=
  {| ur_id := id; ur_claim_id := claim_id; ur_universal_memory_id := Some (um_id memory);
     ur_source_tenant_id := source_tenant_id; ur_source_agent_id := um_source_agent_id memory;
     ur_source_org_connection_id := um_source_org_connection_id memory;
     ur_permission_grant_id := pg_id <$> grant;
     ur_source_type := source_type_or (um_source_type memory);
     ur_asserted_value := ci_value identity; ur_status := status;
     ur_confidence_score := um_confidence memory; ur_resolution_reason := Some resolution_reason;
     ur_schema_version := CLAIM_SCHEMA_VERSION;
     ur_processor_version := processor_version_for_resolution (Some resolution_reason) true;
     ur_created_at := now |}.

Definition set_uwinner (r : UniversalMemoryClaimRevision) (c : UniversalMemoryClaim) : UniversalMemoryClaim :=
  if bool_decide (ur_status r = RevisionStatus.activated)
  then c <| uc_winning_revision_id := Some (ur_id r) |> else c.

(** The ids and the clock of one recording. *)
Record Stamp := { st_claim_id : uuid; st_revision_id : uuid; st_now : datetime }.

Definition _record (e : Stamp) (memory : UniversalMemory) (claim : option UniversalMemoryClaim)
    (identity : ClaimIdentity) (grant : option PermissionGrant) (source_tenant_id : option uuid)
    (resolution_reason : string) : PM UniversalClaimDecision :=
  let now := st_now e in
  let '(claim, memory_is_active, revision_status) :=
    match claim with
    | None => (new_uclaim (st_claim_id e) now memory identity, negb (um_is_archived memory),
               RevisionStatus.activated)
    | Some claim => assert_claim now memory identity claim
    end in
  let revision := universal_revision (st_revision_id e) now (uc_id claim) memory identity revision_status
                    grant source_tenant_id resolution_reason in
  let claim := set_uwinner revision claim in
  modify_st (fun P => put_urevision revision
                        (put_uclaim claim
                           (put_memory (memory <| um_is_archived := negb memory_is_active |>) P)));;
  mret {| cd_claim_id := uc_id claim; cd_status := uc_status claim;
          cd_memory_is_active := memory_is_active |}.

(** [record_sync] and [record_async] *)
Definition record_universal (e : Stamp) (memory : UniversalMemory) (grant : option PermissionGrant)
    (source_tenant_id : option uuid) (resolution_reason : string) : PM UniversalClaimDecision :=
  let identity := _identity memory in
  P ← get_st;
  claim ← scalar_one (claims_of (um_user_uui_id memory) (ci_fingerprint identity) P);
  _record e memory claim identity grant source_tenant_id resolution_reason.

(** The revisions of a memory with their claims, newest first. *)
Definition newest_first {A} (a b : UniversalMemoryClaimRevision * A) : bool :=
  (ur_created_at b.1 <=? ur_created_at a.1)%Z.

Definition revisions_with_claim (user : uuid) (wanted : uuid -> bool) (P : Passport)
    : list (UniversalMemoryClaimRevision * UniversalMemoryClaim) :=
  sort_by newest_first
    (omap (fun r => m ← ur_universal_memory_id r; c ← pp_claims P !! ur_claim_id r;
                    if wanted m && bool_decide (uc_user_uui_id c = user) then Some (r, c) else None)
       (snd <$> map_to_list (pp_revisions P))).

Definition archive_memory (now : datetime) (memory : UniversalMemory) (reason : string) : PM unit :=
  P ← get_st;
  match revisions_with_claim (um_user_uui_id memory) (fun m => bool_decide (m = um_id memory)) P with
  | [] => mret tt
  | (revision, claim) :: _ =>
      modify_st (put_urevision (revision <| ur_status := RevisionStatus.archived |>
                                         <| ur_resolution_reason := Some reason |>));;
      if bool_decide (uc_active_memory_id claim = Some (um_id memory))
      then modify_st (put_uclaim (claim <| uc_status := ClaimStatus.archived |>
                                        <| uc_active_memory_id := None |> <| uc_active_value := None |>
                                        <| uc_winning_revision_id := None |> <| uc_updated_at := now |>))
      else mret tt
  end.

(** ** Provenance *)

Record UniversalClaimProvenance := {
  cv_claim_status : ClaimStatus.t;
  cv_revision_status : RevisionStatus.t;
  cv_source_type : string;
  cv_grant_status : string;
  cv_recorded_at : datetime;
  cv_resolution_reason : option string;
  cv_schema_version : Z;
  cv_processor_version : string;
}.

Definition grant_status (now : datetime) (grant : option PermissionGrant) (source_type : string) : string :=
  match grant with
  | None => "not_required"
  | Some g =>
      if bool_decide (source_type ∈ ["user_correction"; "system"]) then "not_required"
      else if negb (pg_is_active g) || bool_decide (is_Some (pg_revoked_at g)) then "revoked"
      else if negb (ends_after (pg_expires_at g) now) then "expired"
      else "active"
  end.

Definition provenance_of_revision (now : datetime) (P : Passport)
    (rc : UniversalMemoryClaimRevision * UniversalMemoryClaim) : UniversalClaimProvenance :=
  let (r, c) := rc in
  let grant := g ← ur_permission_grant_id r; pp_grants P !! g in
  {| cv_claim_status := uc_status c; cv_revision_status := ur_status r; cv_source_type := ur_source_type r;
     cv_grant_status := grant_status now grant (ur_source_type r); cv_recorded_at := ur_created_at r;
     cv_resolution_reason := ur_resolution_reason r;
     cv_schema_version := if bool_decide (ur_schema_version r = 0%Z) then 1 else ur_schema_version r;
     cv_processor_version := if bool_decide (ur_processor_version r = EmptyString) then "legacy"
                             else ur_processor_version r |}.

Definition provenance_for_memories (now : datetime) (user_uui_id : uuid) (memory_ids : list uuid) (P : Passport)
    : list (uuid * UniversalClaimProvenance) :=
  foldl (fun result rc =>
           match ur_universal_memory_id rc.1 with
           | None => result
           | Some memory_id =>
               if bool_decide (memory_id ∈ result.*1) then result
               else result ++ [(memory_id, provenance_of_revision now P rc)]
           end) []
    (revisions_with_claim user_uui_id (fun m => bool_decide (m ∈ memory_ids)) P).

(** ** Backfill *)

(** [backfill_revision_sync]: the claim a legacy memory gets, and the status of
    its revision. *)
Definition can_advance (claim : UniversalMemoryClaim) (current : option UniversalMemoryClaimRevision)
    (managed memory_is_active : bool) (source_type : string) (recorded_at : datetime) : bool :=
  let current_recorded_at := match current with Some r => ur_created_at r | None => uc_updated_at claim end in
  managed && memory_is_active
  && (bool_decide (source_type = "user_correction")
      || ((current_recorded_at <? recorded_at)%Z
          && match current with
             | Some r => negb (bool_decide (ur_source_type r = "user_correction"))
             | None => true
             end)).

Definition backfill_claim (memory : UniversalMemory) (identity : ClaimIdentity) (claim : UniversalMemoryClaim)
    (current : option UniversalMemoryClaimRevision) (managed : bool)
    : UniversalMemoryClaim * option UniversalMemoryClaimRevision * RevisionStatus.t :=
  let recorded_at := um_created_at memory in
  let memory_is_active := negb (um_is_archived memory) in
  let source_type := source_type_or (um_source_type memory) in
  let same := same_value claim identity in
  let correction := bool_decide (source_type = "user_correction") in
  if can_advance claim current managed memory_is_active source_type recorded_at
  then (claim <| uc_active_value := Some (ci_value identity) |>
              <| uc_active_memory_id := Some (um_id memory) |>
              <| uc_status := if correction || same then ClaimStatus.active else ClaimStatus.disputed |>
              <| uc_confidence_score := um_confidence memory |> <| uc_updated_at := recorded_at |>,
        (fun r => if bool_decide (ur_status r = RevisionStatus.activated)
                  then r <| ur_status := RevisionStatus.superseded |> else r) <$> current,
        RevisionStatus.activated)
  else if negb memory_is_active then (claim, current, RevisionStatus.archived)
  else if same then (claim, current, RevisionStatus.asserted)
  else (if managed && negb correction then claim <| uc_status := ClaimStatus.disputed |> else claim,
        current, RevisionStatus.disputed).

Definition backfill_revision (e : Stamp) (memory : UniversalMemory) (claim : option UniversalMemoryClaim)
    (current_revision : option UniversalMemoryClaimRevision) (claim_is_backfill_managed : bool)
    (grant : option PermissionGrant) (source_tenant_id : option uuid) (resolution_reason : string)
    : PM (UniversalClaimDecision * UniversalMemoryClaim * UniversalMemoryClaimRevision) :=
  let identity := _identity memory in
  let recorded_at := um_created_at memory in
  let memory_is_active := negb (um_is_archived memory) in
  let '(claim, current, status) :=
    match claim with
    | None => (new_uclaim (st_claim_id e) recorded_at memory identity, current_revision,
               if memory_is_active then RevisionStatus.activated else RevisionStatus.archived)
    | Some claim => backfill_claim memory identity claim current_revision claim_is_backfill_managed
    end in
  let revision := universal_revision (st_revision_id e) recorded_at (uc_id claim) memory identity status
                    grant source_tenant_id resolution_reason in
  let claim := set_uwinner revision claim in
  modify_st (fun P => put_urevision revision
                        (put_uclaim claim
                           (match current with Some r => put_urevision r P | None => P end)));;
  mret ({| cd_claim_id := uc_id claim; cd_status := uc_status claim;
           cd_memory_is_active := memory_is_active |}, claim, revision).
End Ledger.
