(* ===== verification/PassportMemories.v ===== *)
(** * Writing and editing universal memories

    [run_universal_extraction_pipeline] of
    [api/tasks/universal_extraction_tasks.py], by which an agent writes
    memories about a passport holder, and the handlers of
    [api/routers/uui.py] by which the holder corrects, deletes and flags them.

    The pipeline's session stages every write; [rollback] drops them all.
    Meanwhile other transactions may change the grants: the table as the last
    statement sees it is part of the delivery.  [now()] of a PostgreSQL
    transaction is the instant it began, so one [dl_now] serves both readings
    of the grants.  The extraction, the embedder and the encryption are section
    variables; [None] is an exception. *)

From S2P Require Export UniversalLedger Importance.

Definition UNIVERSAL_COLLECTION_NAME : string := "universal_memories".
Definition ALLOWED_MEMORY_CATEGORIES : list string :=
  ["preference"; "fact"; "goal"; "procedure"; "relationship"; "expertise"].

(** [list(value)] *)
Definition py_list (v : json) : option (list json) :=
  match v with
  | JArr l => Some l
  | JObj o => Some ((fun kx => JStr kx.1) <$> o)
  | JStr s => Some ((fun c => JStr (String c EmptyString)) <$> String.list_ascii_of_string s)
  | _ => None
  end.

(** [{**o, **kvs}] *)
Definition extend (kvs : obj) (o : obj) : obj := foldl (fun o kv => jset kv.1 kv.2 o) o kvs.

(** The ids and the clock of one stored memory. *)
Record Draw := {
  dr_memory_id : uuid;
  dr_version_id : uuid;
  dr_stamp : Stamp;
  dr_outbox_id : uuid;
  dr_created_at : datetime;
}.

Record Delivery := {
  dl_now : datetime;                                   (* now() of the transaction *)
  dl_commit_grants : gmap uuid PermissionGrant;        (* the grants at the last check *)
  dl_draws : nat -> Draw;
  dl_shadow : option json;                             (* the report of the shadow observer *)
}.

Section Pipeline.
Context `{PyLib}.
Variable extract : list json -> string -> option (list ExtractedMemory).
Variable embed : string -> option (list Q * Z).
Variable encrypt_universal_text_for_dual_write : string -> string -> string -> string -> option json.

Definition writes_now (now : datetime) (user agent : uuid) (g : PermissionGrant) : bool :=
  bool_decide (pg_user_uui_id g = user) && bool_decide (pg_agent_id g = agent) && pg_is_active g
  && bool_decide (pg_access_type g = "read_write") && ends_after (pg_expires_at g) now.

Definition _active_write_grant (now : datetime) (user agent : uuid) : PM (option PermissionGrant) :=
  P ← get_st; scalar_one (rows_where (writes_now now user agent) (pp_grants P)).

Definition _event_identity (job_payload : obj) : string :=
  let get k := jget_or_null k job_payload in
  py_strip (str_or_empty
    (json_or (get "source_event_id") (json_or (get "event_id")
      (json_or (get "idempotency_key") (get "job_id"))))).

(** The writers store the event as a string. *)
Definition of_event (user agent : uuid) (event_id : string) (m : UniversalMemory) : bool :=
  bool_decide (um_user_uui_id m = user) && bool_decide (um_source_agent_id m = Some agent)
  && match jget "source_event_id" (um_metadata_json m) with
     | Some (JStr s) => bool_decide (s = event_id)
     | _ => false
     end.

Definition _existing_event_memory_count (user agent : uuid) (event_id : string) (P : Passport) : nat :=
  if bool_decide (event_id = EmptyString) then 0
  else length (rows_where (of_event user agent event_id) (memories P)).

Definition blocked (job_payload : obj) : obj :=
  extend [("status", JStr "blocked"); ("blocked_reason", JStr "write_not_permitted");
          ("memories_created", JInt 0)] job_payload.

Definition uuid_of (s : string) : PM uuid :=
  lift_opt (JobError "badly formed hexadecimal UUID string") (parse_uuid_str s).

Definition extracted_memory_row (d : Draw) (user : uuid) (agent_id : string) (agent : uuid) (event_id : string)
    (source_metadata : obj) (importance : Q) (x : ExtractedMemory) : UniversalMemory :=
  {| um_id := dr_memory_id d; um_user_uui_id := user; um_source_agent_id := Some agent;
     um_source_org_connection_id := None; um_source_type := "passport_agent";
     um_content := x_content x;
     um_content_envelope := encrypt_universal_text_for_dual_write (uuid_str user) "universal_memory"
                              (uuid_str (dr_memory_id d)) (x_content x);
     um_category := x_category x; um_importance_score := importance; um_confidence := x_confidence x;
     um_embedding_id := Some (uuid_str (dr_memory_id d));
     um_created_at := dr_created_at d; um_last_accessed_at := dr_created_at d;
     um_is_archived := false; um_is_flagged := false;
     um_metadata_json := [("reasoning", JStr (x_reasoning x)); ("expiry", JStr (x_expiry x));
                          ("source_metadata", JObj source_metadata);
                          ("source_event_id", JStr event_id); ("source_agent_id", JStr agent_id)] |}.

Definition with_decision (d : UniversalClaimDecision) (m : UniversalMemory) : UniversalMemory :=
  m <| um_metadata_json ::= extend [("claim_id", JStr (uuid_str (cd_claim_id d)));
                                    ("claim_status", JStr (status_value (cd_status d)))] |>.

Definition extracted_payload (d : Draw) (user : uuid) (agent_id event_id : string) (importance : Q)
    (status : ClaimStatus.t) (x : ExtractedMemory) : obj :=
  [("memory_id", JStr (uuid_str (dr_memory_id d))); ("user_uui_id", JStr (uuid_str user));
   ("source_agent_id", JStr agent_id); ("source_event_id", JStr event_id);
   ("category", JStr (x_category x)); ("importance_score", JFloat importance);
   ("claim_status", JStr (status_value status)); ("is_archived", JBool false);
   ("created_at", JStr (isoformat (dr_created_at d)));
   ("qdrant_collection", JStr UNIVERSAL_COLLECTION_NAME)].

(** One turn of the loop over the extracted memories; the number it stored. *)
Definition store_extracted (now : datetime) (user : UniversalUser) (agent_id : string) (agent : uuid)
    (event_id : string) (job_payload : obj) (grant : PermissionGrant) (d : Draw) (x : ExtractedMemory)
    : PM Z :=
  importance ← lift_opt (JobError "score")
    (score default_scorer (x_importance_score x) (x_category x)
       [("similar_access_count", JInt (uu_memory_count user))]);
  embedding ← lift_opt (JobError "embedding") (embed (x_content x));
  source_metadata ← lift_opt (JobError "metadata") (dict_or_empty (jget_or_null "metadata" job_payload));
  let memory := extracted_memory_row d (uu_id user) agent_id agent event_id source_metadata importance x in
  modify_st (put_memory memory);;
  in_versions (record_universal_version (dr_version_id d) memory "created"
                 (Some "Extracted from conversation") "agent" (Some agent));;
  P ← get_st;
  claim_decision ← record_universal (dr_stamp d) memory (Some grant)
    (ga_owner_tenant_id <$> pp_agents P !! agent) "Extracted from an active Passport write grant";
  update_memory (um_id memory) (with_decision claim_decision);;
  if cd_memory_is_active claim_decision : bool
  then modify_st (fun P => P <| pp_outbox ::=
         enqueue_vector_upsert (dr_outbox_id d) now (um_id memory) embedding.1
           (extracted_payload d (uu_id user) agent_id event_id importance (cd_status claim_decision) x) |>);;
       mret 1%Z
  else mret 0%Z.

(** The loop, its [i]-th turn with the [i]-th draw. *)
Fixpoint store_all (now : datetime) (user : UniversalUser) (agent_id : string) (agent : uuid)
    (event_id : string) (job_payload : obj) (grant : PermissionGrant) (draws : nat -> Draw)
    (i : nat) (xs : list ExtractedMemory) : PM Z :=
  match xs with
  | [] => mret 0%Z
  | x :: xs =>
      n ← store_extracted now user agent_id agent event_id job_payload grant (draws i) x;
      rest ← store_all now user agent_id agent event_id job_payload grant draws (S i) xs;
      mret (n + rest)%Z
  end.

(** [extracted_memory.category in allowed_categories] *)
Definition allowed_category (grant : PermissionGrant) (x : ExtractedMemory) : bool :=
  bool_decide (x_category x ∈ pg_categories_allowed grant)
  && bool_decide (x_category x ∈ ALLOWED_MEMORY_CATEGORIES).

(** The body of the transaction: whether it commits, and the job's result. *)
Definition extraction_body (job_payload : obj) (dl : Delivery) (user_uui_id agent_id : string)
    (messages : list json) : PM (bool * obj) :=
  user_id ← uuid_of user_uui_id;
  P ← get_st;
  user ← lift_opt (JobError "Universal user not found.")
    (u ← pp_users P !! user_id; if uu_is_active u then Some u else None);
  agent ← uuid_of agent_id;
  grant ← _active_write_grant (dl_now dl) user_id agent;
  match grant with
  | None => mret (false, blocked job_payload)
  | Some grant =>
      let event_id := _event_identity job_payload in
      P ← get_st;
      let existing_count := _existing_event_memory_count user_id agent event_id P in
      if bool_decide (existing_count <> 0)
      then mret (false, extend [("status", JStr "processed");
                                ("memories_created", JInt (Z.of_nat existing_count));
                                ("idempotent_replay", JBool true)] job_payload)
      else
        extracted_memories ← lift_opt (JobError "extraction") (extract messages user_uui_id);
        stored_count ← store_all (dl_now dl) user agent_id agent event_id job_payload grant (dl_draws dl) 0
                         (filter (fun x => allowed_category grant x = true) extracted_memories);
        modify_st (fun P => P <| pp_grants := dl_commit_grants dl |>);;
        final_grant ← _active_write_grant (dl_now dl) user_id agent;
        match final_grant with
        | None => mret (false, blocked job_payload)
        | Some _ =>
            modify_st (fun P => P <| pp_users ::=
              insert user_id (user <| uu_memory_count := (uu_memory_count user + stored_count)%Z |>) |>);;
            mret (true, extend ([("status", JStr "processed"); ("memories_created", JInt stored_count)]
                                ++ match dl_shadow dl with
                                   | Some report => [("modern_extraction_shadow", report)]
                                   | None => []
                                   end) job_payload)
        end
  end.

Definition run_universal_extraction_pipeline (job_payload : obj) (dl : Delivery) (P : Passport)
    : Passport * (passport_exn + obj) :=
  let user_uui_id := py_strip (str_or_empty (jget_or_null "user_uui_id" job_payload)) in
  let agent_id := py_strip (str_or_empty (jget_or_null "agent_id" job_payload)) in
  let dropped := P <| pp_grants := dl_commit_grants dl |> in
  match py_list (default (JArr []) (jget "messages" job_payload)) with
  | None => (dropped, inl (JobError "messages"))
  | Some messages =>
      if bool_decide (user_uui_id = EmptyString) || bool_decide (agent_id = EmptyString)
      then (dropped, inl (JobError "Universal extraction job requires user_uui_id and agent_id."))
      else match extraction_body job_payload dl user_uui_id agent_id messages P with
           | (P', inr (true, result)) => (P' <| pp_grants := dl_commit_grants dl |>, inr result)
           | (_, inr (false, result)) => (dropped, inr result)
           | (_, inl e) => (dropped, inl e)
           end
  end.

(** The celery task around it. *)
Inductive task_outcome := Returned (result : obj) | Retried (countdown : Z).

Definition extract_universal_memory (retries max_retries : Z) (error_detail : string) (job_payload : obj)
    (dl : Delivery) (P : Passport) : Passport * task_outcome :=
  match run_universal_extraction_pipeline job_payload dl P with
  | (P', inr result) => (P', Returned result)
  | (P', inl _) =>
      (P', if (int_or (Some max_retries) 3 - 1 <=? retries)%Z
           then Returned (extend [("status", JStr "dead"); ("error", JStr error_detail);
                                  ("memories_created", JInt 0)] job_payload)
           else Retried (60 * (retries + 1)))
  end.
End Pipeline.

(** ** The holder's edits *)

Section Holder.
Context `{PyLib}.
Variable embed : string -> option (list Q * Z).
Variable encrypt_universal_text_for_dual_write : string -> string -> string -> string -> option json.

Definition memory_not_found : passport_exn := APIError 404 "MEM_404" "memory_not_found".

Definition _get_user_universal_memory (memory_id : string) (user_uui_id : uuid) (include_archived : bool)
    : PM UniversalMemory :=
  parsed_id ← lift_opt memory_not_found (parse_uuid_str memory_id);
  P ← get_st;
  lift_opt memory_not_found
    (m ← memories P !! parsed_id;
     if bool_decide (um_user_uui_id m = user_uui_id) && (include_archived || negb (um_is_archived m))
     then Some m else None).

(** [update(UserMemoryFlag).where(... pending).values(status, resolved_at)] *)
Definition pending_flag (memory user : uuid) (f : UserMemoryFlag) : bool :=
  bool_decide (fl_memory_id f = memory) && bool_decide (fl_user_uui_id f = user)
  && bool_decide (fl_status f = "pending").

Definition settle_flags (memory user : uuid) (status : string) (now : datetime) : PM unit :=
  modify_st (fun P => P <| pp_flags ::=
    fmap (fun f => if pending_flag memory user f
                   then f <| fl_status := status |> <| fl_resolved_at := Some now |> else f) |>).

Definition flag_my_memory (flag_id : uuid) (now : datetime) (memory_id : string) (user : UniversalUser)
    (reason : string) (correction : option string) : PM uuid :=
  memory ← _get_user_universal_memory memory_id (uu_id user) false;
  P ← get_st;
  existing_flag ← scalar_one (rows_where (pending_flag (um_id memory) (uu_id user)) (pp_flags P));
  let flag := match existing_flag with
              | None => {| fl_id := flag_id; fl_memory_id := um_id memory; fl_user_uui_id := uu_id user;
                           fl_reason := reason; fl_correction := correction; fl_flagged_at := now;
                           fl_status := "pending"; fl_resolved_at := None |}
              | Some f => f <| fl_reason := reason |> <| fl_correction := correction |>
                            <| fl_flagged_at := now |>
              end in
  modify_st (fun P => P <| pp_flags ::= insert (fl_id flag) flag |>);;
  update_memory (um_id memory) (fun m => m <| um_is_flagged := true |>);;
  mret (um_id memory).

Definition unflag_my_memory (now : datetime) (memory_id : string) (user : UniversalUser) : PM uuid :=
  memory ← _get_user_universal_memory memory_id (uu_id user) false;
  settle_flags (um_id memory) (uu_id user) "dismissed" now;;
  update_memory (um_id memory) (fun m => m <| um_is_flagged := false |>);;
  mret (um_id memory).

Definition _universal_memory_payload (memory : UniversalMemory) (vector_size : option Z) : obj :=
  [("memory_id", JStr (uuid_str (um_id memory))); ("user_uui_id", JStr (uuid_str (um_user_uui_id memory)));
   ("source_agent_id", opt_str (um_source_agent_id memory));
   ("source_org_connection_id", opt_str (um_source_org_connection_id memory));
   ("source_type", JStr (source_type_or (um_source_type memory)));
   ("category", JStr (um_category memory)); ("importance_score", JFloat (um_importance_score memory));
   ("claim_status", default (JStr "active") (jget "claim_status" (um_metadata_json memory)));
   ("is_archived", JBool (um_is_archived memory)); ("created_at", JStr (isoformat (um_created_at memory)))]
  ++ match vector_size with
     | Some n => if bool_decide (n = 0%Z) then [] else [("vector_size", JInt n)]
     | None => []
     end.

(** The ids and the clock of a correction. *)
Record CorrectionDraw := {
  cr_now : datetime;
  cr_new_memory_id : uuid;
  cr_archived_at : datetime;
  cr_stamp : Stamp;
  cr_version_id : uuid;
  cr_new_version_id : uuid;
  cr_delete_id : uuid;
  cr_upsert_id : uuid;
}.

Definition corrected_row (d : CorrectionDraw) (user : UniversalUser) (memory : UniversalMemory)
    (corrected_content : string) : UniversalMemory :=
  {| um_id := cr_new_memory_id d; um_user_uui_id := uu_id user;
     um_source_agent_id := um_source_agent_id memory;
     um_source_org_connection_id := um_source_org_connection_id memory;
     um_source_type := "user_correction"; um_content := corrected_content;
     um_content_envelope := encrypt_universal_text_for_dual_write (uuid_str (uu_id user)) "universal_memory"
                              (uuid_str (cr_new_memory_id d)) corrected_content;
     um_category := um_category memory; um_importance_score := one_if_zero (um_importance_score memory);
     um_confidence := one_if_zero (um_confidence memory);
     um_embedding_id := Some (uuid_str (cr_new_memory_id d));
     um_created_at := cr_now d; um_last_accessed_at := cr_now d;
     um_is_archived := false; um_is_flagged := false;
     um_metadata_json :=
       [("source", JStr "user_correction"); ("corrected_from_memory_id", JStr (uuid_str (um_id memory)));
        ("original_importance_score",
          default (JFloat (one_if_zero (um_importance_score memory)))
            (jget "original_importance_score" (um_metadata_json memory)))] |}.

Definition superseded_by_correction (d : CorrectionDraw) (memory : UniversalMemory) : UniversalMemory :=
  memory <| um_is_archived := true |> <| um_is_flagged := false |>
         <| um_metadata_json ::=
              extend [("archived_reason", JStr "user_correction");
                      ("user_corrected_at", JStr (isoformat (cr_now d)));
                      ("corrected_to_memory_id", JStr (uuid_str (cr_new_memory_id d)))] |>.

Definition source_tenant (memory : UniversalMemory) (P : Passport) : option uuid :=
  a ← um_source_agent_id memory; ga_owner_tenant_id <$> pp_agents P !! a.

Definition enqueue_passport_delete (id : uuid) (now : datetime) (memory_id : uuid) : PM unit :=
  modify_st (fun P => P <| pp_outbox ::=
    enqueue_vector_delete id now memory_id
      (Some [("qdrant_collection", JStr UNIVERSAL_COLLECTION_NAME); ("privacy_delete", JBool true)]) |>).

Definition correct_my_memory (d : CorrectionDraw) (memory_id : string) (corrected : string) (user : UniversalUser)
    : PM uuid :=
  memory ← _get_user_universal_memory memory_id (uu_id user) false;
  let corrected_content := py_strip corrected in
  embedding ← lift_opt (JobError "embedding") (embed corrected_content);
  let now := cr_now d in
  let old_memory := superseded_by_correction d memory in
  let new_memory := corrected_row d user memory corrected_content in
  modify_st (fun P => put_memory new_memory (put_memory old_memory P));;
  archive_memory (cr_archived_at d) old_memory "Superseded by a direct user correction";;
  P ← get_st;
  claim_decision ← record_universal (cr_stamp d) new_memory None (source_tenant memory P)
    "User corrected this memory in the Permission Center";
  update_memory (um_id new_memory) (with_decision claim_decision);;
  in_versions (record_universal_version (cr_version_id d) old_memory "user_corrected"
    (Some ("User corrected to: " +:+ py_take 100 corrected_content)) "user" None);;
  in_versions (record_universal_version (cr_new_version_id d) new_memory "created"
    (Some "Created as user correction") "user" None);;
  settle_flags (um_id memory) (uu_id user) "resolved" now;;
  enqueue_passport_delete (cr_delete_id d) now (um_id memory);;
  modify_st (fun P => P <| pp_outbox ::=
    enqueue_vector_upsert (cr_upsert_id d) now (um_id new_memory) embedding.1
      (jset "qdrant_collection" (JStr UNIVERSAL_COLLECTION_NAME)
         (_universal_memory_payload (with_decision claim_decision new_memory) (Some embedding.2))) |>);;
  mret (um_id new_memory).

Record DeletionDraw := { dd_now : datetime; dd_version_id : uuid; dd_outbox_id : uuid }.

Definition delete_my_memory (d : DeletionDraw) (memory_id : string) (user : UniversalUser) : PM uuid :=
  memory ← _get_user_universal_memory memory_id (uu_id user) false;
  in_versions (record_universal_version (dd_version_id d) memory "user_removed" (Some "Removed by user")
                 "user" None);;
  let removed := memory <| um_is_archived := true |> <| um_is_flagged := false |>
    <| um_metadata_json ::= extend [("archived_reason", JStr "deleted_by_user");
                                    ("user_deleted_at", JStr (isoformat (dd_now d)))] |> in
  modify_st (put_memory removed);;
  settle_flags (um_id memory) (uu_id user) "dismissed" (dd_now d);;
  archive_memory (dd_now d) removed "Removed by the Passport owner";;
  modify_st (fun P => P <| pp_users ::=
    insert (uu_id user) (user <| uu_memory_count := Z.max 0 (uu_memory_count user - 1) |>) |>);;
  enqueue_passport_delete (dd_outbox_id d) (dd_now d) (um_id memory);;
  mret (um_id memory).

(** A request commits its session only when it does not raise. *)
Definition committed {A} (m : PM A) (P : Passport) : Passport * (passport_exn + A) :=
  match m P with
  | (P', inr a) => (P', inr a)
  | (_, inl e) => (P, inl e)
  end.

(** Errors of the version service are answered with 404. *)
Definition or_not_found {A} (m : M UniversalDb version_exn A) : PM A :=
  fun P => match m (pp_db P) with
           | (d, inr a) => (P <| pp_db := d |>, inr a)
           | (d, inl _) => (P <| pp_db := d |>, inl memory_not_found)
           end.

Definition get_my_memory_history (memory_id : string) (user : UniversalUser)
    : PM (list UniversalMemoryVersion) :=
  parsed_id ← lift_opt memory_not_found (parse_uuid_str memory_id);
  or_not_found (get_universal_history parsed_id (uu_id user)).
End Holder.
