(* ===== verification/PassportInvariant.v ===== *)
(** * Universal memories: the invariant

    [ledger_ok] ties the three tables of the passport's ledger together:
    whatever a claim displays is a live memory of the claim's holder that
    asserts it.  Here is what recording, archiving, a delivery, a correction
    and a deletion do to it and to the number of live memories. *)

From S2P Require Export PassportMemories.

(** ** Live memories *)

Definition live_of (u : uuid) (im : uuid * UniversalMemory) : Prop :=
  um_user_uui_id im.2 = u /\ um_is_archived im.2 = false.
#[export] Instance live_of_dec u im : Decision (live_of u im).
Proof. unfold live_of. apply _. Defined.

Definition live_count (u : uuid) (ms : gmap uuid UniversalMemory) : nat := size (filter (live_of u) ms).

Definition counts (u : uuid) (m : UniversalMemory) : nat := if decide (live_of u (um_id m, m)) then 1 else 0.
Definition counts_opt (u : uuid) (m : option UniversalMemory) : nat :=
  match m with Some m => counts u m | None => 0 end.

Lemma counts_spec u m : counts u m = if bool_decide (um_user_uui_id m = u) && negb (um_is_archived m) then 1 else 0.
Proof.
  unfold counts. case_decide as Hd; unfold live_of in Hd; cbn in Hd; case_bool_decide;
    destruct (um_is_archived m); simpl; naive_solver.
Qed.

Lemma live_count_insert u ms i m :
  live_count u (<[i := m]> ms) + counts_opt u (ms !! i) = live_count u ms + counts u m.
Proof.
  unfold live_count, counts_opt, counts.
  rewrite map_filter_insert. case_decide as Hm.
  - rewrite map_size_insert, map_lookup_filter.
    destruct (ms !! i) as [m0|]; simpl; [|rewrite decide_True by done; lia].
    unfold live_of in *. simpl in *. case_guard; [rewrite !decide_True by done; simpl; lia|].
    rewrite (decide_True _ _ Hm), decide_False by done. simpl. lia.
  - rewrite map_filter_delete, map_size_delete, map_lookup_filter.
    destruct (ms !! i) as [m0|] eqn:Hi; simpl; [|rewrite decide_False by done; lia].
    unfold live_of in *. simpl in *.
    case_guard as Hm0; [|rewrite !decide_False by done; simpl; lia].
    rewrite (decide_True _ _ Hm0), (decide_False _ _ Hm). simpl.
    enough (filter (live_of u) ms !! i = Some m0) as Hl.
    { assert (size (filter (live_of u) ms) <> 0); [|unfold live_of in *; lia].
      apply map_size_ne_0_lookup. by exists i, m0. }
    by apply map_lookup_filter_Some.
Qed.

(** ** Consistent ledgers *)

Section Ledger.
Context `{PyLib}.

Definition fingerprint (m : UniversalMemory) : string := ci_fingerprint (_identity m).

(** The claim is about what the memory asserts. *)
Definition about (c : UniversalMemoryClaim) (m : UniversalMemory) : Prop :=
  uc_user_uui_id c = um_user_uui_id m /\ uc_claim_fingerprint c = fingerprint m.

Definition displays_live (ms : gmap uuid UniversalMemory) (rs : gmap uuid UniversalMemoryClaimRevision)
    (c : UniversalMemoryClaim) : Prop :=
  match uc_active_memory_id c with
  | Some i =>
      uc_status c <> ClaimStatus.archived /\
      (exists m, ms !! i = Some m /\ um_is_archived m = false /\ about c m /\
                 uc_active_value c = Some (ci_value (_identity m))) /\
      (exists w r, uc_winning_revision_id c = Some w /\ rs !! w = Some r /\
                   ur_status r = RevisionStatus.activated /\ ur_claim_id r = uc_id c /\
                   ur_universal_memory_id r = Some i)
  | None => uc_status c <> ClaimStatus.active /\ uc_active_value c = None /\ uc_winning_revision_id c = None
  end.

(** [X] holds the memories that are stored but not yet recorded. *)
Record ledger_ok (X : gset uuid) (ms : gmap uuid UniversalMemory) (cs : gmap uuid UniversalMemoryClaim)
    (rs : gmap uuid UniversalMemoryClaimRevision) : Prop := {
  ok_memory_key i m : ms !! i = Some m -> um_id m = i;
  ok_claim_key i c : cs !! i = Some c -> uc_id c = i;
  ok_revision_key i r : rs !! i = Some r -> ur_id r = i;
  ok_claim_unique i j c c' : cs !! i = Some c -> cs !! j = Some c' ->
    uc_user_uui_id c = uc_user_uui_id c' -> uc_claim_fingerprint c = uc_claim_fingerprint c' -> i = j;
  ok_display i c : cs !! i = Some c -> displays_live ms rs c;
  ok_revision_about k r : rs !! k = Some r ->
    exists c i m, cs !! ur_claim_id r = Some c /\ ur_universal_memory_id r = Some i /\
                  ms !! i = Some m /\ about c m;
  ok_recorded i m : ms !! i = Some m -> i ∉ X -> exists k r, rs !! k = Some r /\ ur_universal_memory_id r = Some i;
}.

Definition passport_ledger (X : gset uuid) (P : Passport) : Prop :=
  ledger_ok X (memories P) (pp_claims P) (pp_revisions P).

(** The counter of every holder. *)
Definition counted (P : Passport) : Prop :=
  forall i u, pp_users P !! i = Some u ->
              uu_id u = i /\ uu_memory_count u = Z.of_nat (live_count i (memories P)).

Definition passport_ok (P : Passport) : Prop := passport_ledger ∅ P /\ counted P.

(** ** Recording *)

Lemma claims_of_elem X P u f c :
  passport_ledger X P ->
  c ∈ claims_of u f P <-> pp_claims P !! uc_id c = Some c /\ uc_user_uui_id c = u /\ uc_claim_fingerprint c = f.
Proof.
  intros HP. unfold claims_of. rewrite elem_of_rows_where, andb_true_iff, !bool_decide_eq_true. split.
  - intros [[Hu Hf] [i Hi]]. by rewrite (ok_claim_key _ _ _ _ HP i c Hi).
  - intros (Hc & Hu & Hf). eauto.
Qed.

(** The query for a claim finds the one there is. *)
Lemma claims_of_spec X P u f :
  passport_ledger X P ->
  (claims_of u f P = [] /\
     forall i c, pp_claims P !! i = Some c -> ~ (uc_user_uui_id c = u /\ uc_claim_fingerprint c = f)) \/
  (exists c, claims_of u f P = [c] /\ pp_claims P !! uc_id c = Some c /\ uc_user_uui_id c = u /\
             uc_claim_fingerprint c = f).
Proof.
  intros HP. destruct (claims_of u f P) as [|c l] eqn:Hl; [left|right].
  - split; [done|]. intros i c Hi [Hu Hf].
    assert (c ∈ claims_of u f P) as Hin.
    { apply (claims_of_elem X); [done|]. by rewrite (ok_claim_key _ _ _ _ HP i c Hi). }
    rewrite Hl in Hin. by apply elem_of_nil in Hin.
  - exists c. assert (c ∈ claims_of u f P) as Hin by (rewrite Hl; apply list_elem_of_here).
    pose proof (proj1 (claims_of_elem X P u f c HP) Hin) as (Hc & Hu & Hf).
    split; [|done]. rewrite <- Hl. apply singleton_of_NoDup.
    + unfold claims_of, rows_where. apply NoDup_filter, (NoDup_rows _ uc_id). apply HP.
    + intros b. split; [|by intros ->]. intros (Hb & Hbu & Hbf)%(claims_of_elem X); [|done].
      assert (uc_id b = uc_id c) as He by (eapply (ok_claim_unique _ _ _ _ HP); eauto; congruence).
      rewrite He in Hb. congruence.
Qed.

(** Rows that assert the same proposition of the same holder. *)
Record same_assertion (m m' : UniversalMemory) : Prop := {
  sa_id : um_id m' = um_id m;
  sa_user : um_user_uui_id m' = um_user_uui_id m;
  sa_identity : _identity m' = _identity m;
}.

Lemma same_assertion_refl m : same_assertion m m.
Proof. done. Qed.

Lemma same_assertion_about m m' c : same_assertion m m' -> about c m' <-> about c m.
Proof. intros [_ Hu Hi]. unfold about, fingerprint. by rewrite Hu, Hi. Qed.

(** A claim stays good when the memory it displays stays live and its winner
    stays where it is. *)
Lemma displays_live_mono ms ms' rs rs' c :
  (forall i m, uc_active_memory_id c = Some i -> ms !! i = Some m -> um_is_archived m = false ->
     exists m', ms' !! i = Some m' /\ same_assertion m m' /\ um_is_archived m' = false) ->
  (forall i w r, uc_active_memory_id c = Some i -> rs !! w = Some r -> ur_universal_memory_id r = Some i ->
     rs' !! w = Some r) ->
  displays_live ms rs c -> displays_live ms' rs' c.
Proof.
  intros Hms Hrs. unfold displays_live. destruct (uc_active_memory_id c) as [i|] eqn:Hc; [|done].
  intros (Hst & (m & Hm & Hl & Hab & Hv) & (w & r & Hw & Hr & Ha & Hrc & Hri)).
  destruct (Hms i m eq_refl Hm Hl) as (m' & Hm' & Hsa & Hl').
  split; [done|split].
  - exists m'. rewrite (same_assertion_about m m' c Hsa), (sa_identity _ _ Hsa). done.
  - exists w, r. rewrite (Hrs i w r) by done. done.
Qed.

Lemma ledger_update_memory X ms cs rs m m' :
  ledger_ok X ms cs rs -> ms !! um_id m = Some m -> same_assertion m m' ->
  um_is_archived m' = um_is_archived m -> ledger_ok X (<[um_id m := m']> ms) cs rs.
Proof.
  intros HL Hm Hsa Ha. split; try by apply HL.
  - intros i m0 [[<- <-]|[Hi Hm0]]%lookup_insert_Some; [apply Hsa|by apply (ok_memory_key _ _ _ _ HL)].
  - intros i c Hc. eapply displays_live_mono; [| |by apply (ok_display _ _ _ _ HL i)]; [|done].
    intros j m0 _ Hj Hl. rewrite lookup_insert. case_decide as He; [|by exists m0].
    subst. rewrite Hm in Hj. simplify_eq. exists m'. by rewrite Ha.
  - intros k r Hr. destruct (ok_revision_about _ _ _ _ HL k r Hr) as (c & i & m0 & Hc & Hi & Hm0 & Hab).
    destruct (decide (i = um_id m)) as [->|Hne].
    + exists c, (um_id m), m'. rewrite lookup_insert_eq. assert (m0 = m) as -> by congruence.
      by rewrite (same_assertion_about m m').
    + exists c, i, m0. by rewrite lookup_insert_ne by done.
  - intros i m0 [[<- <-]|[Hi Hm0]]%lookup_insert_Some HX; by eapply (ok_recorded _ _ _ _ HL).
Qed.

Lemma ledger_add_memory X ms cs rs m :
  ledger_ok X ms cs rs -> ms !! um_id m = None -> ledger_ok ({[um_id m]} ∪ X) (<[um_id m := m]> ms) cs rs.
Proof.
  intros HL Hm. split; try by apply HL.
  - intros i m0 [[<- <-]|[Hi Hm0]]%lookup_insert_Some; [done|by apply (ok_memory_key _ _ _ _ HL)].
  - intros i c Hc. eapply displays_live_mono; [| |by apply (ok_display _ _ _ _ HL i)]; [|done].
    intros j m0 _ Hj Hl. exists m0. rewrite lookup_insert_ne by congruence. done.
  - intros k r Hr. destruct (ok_revision_about _ _ _ _ HL k r Hr) as (c & i & m0 & Hc & Hi & Hm0 & Hab).
    exists c, i, m0. by rewrite lookup_insert_ne by congruence.
  - intros i m0 [[<- <-]|[Hi Hm0]]%lookup_insert_Some HX; [set_solver|].
    eapply (ok_recorded _ _ _ _ HL); [done|set_solver].
Qed.

Lemma about_unique X ms cs rs m i j c c' :
  ledger_ok X ms cs rs -> cs !! i = Some c -> cs !! j = Some c' -> about c m -> about c' m -> i = j.
Proof. intros HL Hi Hj [] []. eapply (ok_claim_unique _ _ _ _ HL); [done|done|congruence|congruence]. Qed.

(** What a recording writes. *)
Lemma ledger_record X ms cs rs m m' c r :
  ledger_ok X ms cs rs -> ms !! um_id m = Some m -> same_assertion m m' -> about c m ->
  (forall i c', cs !! i = Some c' -> about c' m -> i = uc_id c) ->
  (forall c0, cs !! uc_id c = Some c0 -> about c0 m) ->
  rs !! ur_id r = None -> ur_claim_id r = uc_id c -> ur_universal_memory_id r = Some (um_id m) ->
  displays_live (<[um_id m := m']> ms) (<[ur_id r := r]> rs) c ->
  ledger_ok (X ∖ {[um_id m]}) (<[um_id m := m']> ms) (<[uc_id c := c]> cs) (<[ur_id r := r]> rs).
Proof.
  intros HL Hm Hsa Hab Hothers Hold Hr Hrc Hrm Hdisp. split.
  - intros i m0 [[<- <-]|[Hi Hm0]]%lookup_insert_Some; [apply Hsa|by apply (ok_memory_key _ _ _ _ HL)].
  - intros i c0 [[<- <-]|[Hi Hc0]]%lookup_insert_Some; [done|by apply (ok_claim_key _ _ _ _ HL)].
  - intros i r0 [[<- <-]|[Hi Hr0]]%lookup_insert_Some; [done|by apply (ok_revision_key _ _ _ _ HL)].
  - assert (forall j c1, j <> uc_id c -> cs !! j = Some c1 -> uc_user_uui_id c = uc_user_uui_id c1 ->
              uc_claim_fingerprint c = uc_claim_fingerprint c1 -> False) as Hdiff.
    { intros j c1 Hj Hc1 Hu Hf. apply Hj, (Hothers j c1 Hc1). unfold about. rewrite <- Hu, <- Hf. apply Hab. }
    intros i j c1 c2 [[<- <-]|[Hi Hc1]]%lookup_insert_Some [[<- <-]|[Hj Hc2]]%lookup_insert_Some Hu Hf;
      [done|exfalso; by eapply Hdiff|exfalso; by eapply Hdiff|by eapply (ok_claim_unique _ _ _ _ HL)].
  - intros i c0 [[<- <-]|[Hi Hc0]]%lookup_insert_Some; [done|].
    eapply displays_live_mono; [| |by apply (ok_display _ _ _ _ HL i)].
    + intros j m0 Hcj Hj Hl. destruct (decide (j = um_id m)) as [->|Hne].
      * exfalso. apply Hi. symmetry. apply (Hothers i c0 Hc0).
        pose proof (ok_display _ _ _ _ HL i c0 Hc0) as Hd. unfold displays_live in Hd. rewrite Hcj in Hd.
        destruct Hd as (_ & (m1 & Hm1 & _ & Hab1 & _) & _). congruence.
      * exists m0. by rewrite lookup_insert_ne by done.
    + intros j w r0 _ Hw _. by rewrite lookup_insert_ne by congruence.
  - assert (forall c0 j, cs !! j = Some c0 -> exists c1, <[uc_id c := c]> cs !! j = Some c1 /\
              (forall m0, about c0 m0 -> about c1 m0)) as Hkeep.
    { intros c0 j Hc0. destruct (decide (j = uc_id c)) as [->|Hne].
      - exists c. rewrite lookup_insert_eq. split; [done|]. intros m0. pose proof (Hold c0 Hc0) as Ho.
        unfold about in *. intros [??]. destruct Hab, Ho. split; congruence.
      - exists c0. by rewrite lookup_insert_ne by done. }
    intros k r0 [[<- <-]|[Hk Hr0]]%lookup_insert_Some.
    + exists c, (um_id m), m'. rewrite Hrc, !lookup_insert_eq. by rewrite (same_assertion_about m m').
    + destruct (ok_revision_about _ _ _ _ HL k r0 Hr0) as (c0 & i & m0 & Hc0 & Hi & Hm0 & Hab0).
      destruct (Hkeep c0 _ Hc0) as (c1 & Hc1 & Hab1). exists c1, i.
      destruct (decide (i = um_id m)) as [->|Hne].
      * exists m'. rewrite lookup_insert_eq. rewrite (same_assertion_about m m') by done.
        assert (m0 = m) as -> by congruence. auto.
      * exists m0. rewrite (lookup_insert_ne ms) by done. auto.
  - intros i m0 Hi HX. destruct (decide (i = um_id m)) as [->|Hne].
    + exists (ur_id r), r. by rewrite lookup_insert_eq.
    + rewrite lookup_insert_ne in Hi by done.
      destruct (ok_recorded _ _ _ _ HL i m0 Hi) as (k & r0 & Hk & Hkm); [set_solver|].
      exists k, r0. rewrite lookup_insert_ne by congruence. done.
Qed.
End Ledger.

Section Recording.
Context `{PyLib}.

Definition decision (c : UniversalMemoryClaim) (active : bool) : UniversalClaimDecision :=
  {| cd_claim_id := uc_id c; cd_status := uc_status c; cd_memory_is_active := active |}.

(** What a revision says about its source. *)
Record revision_of (m : UniversalMemory) (grant : option PermissionGrant) (r : UniversalMemoryClaimRevision)
    : Prop := {
  ro_memory : ur_universal_memory_id r = Some (um_id m);
  ro_agent : ur_source_agent_id r = um_source_agent_id m;
  ro_grant : ur_permission_grant_id r = pg_id <$> grant;
  ro_source : ur_source_type r = source_type_or (um_source_type m);
  ro_value : ur_asserted_value r = ci_value (_identity m);
}.

Record recorded (X : gset uuid) (e : Stamp) (m : UniversalMemory) (grant : option PermissionGrant)
    (P : Passport) (c : UniversalMemoryClaim) (r : UniversalMemoryClaimRevision) (active : bool) : Prop := {
  rc_ledger : passport_ledger (X ∖ {[um_id m]})
                (put_urevision r (put_uclaim c (put_memory (m <| um_is_archived := negb active |>) P)));
  rc_id : ur_id r = st_revision_id e;
  rc_claim : uc_id c = st_claim_id e \/ is_Some (pp_claims P !! uc_id c);
  rc_revision : revision_of m grant r;
  rc_active : active = true -> uc_active_memory_id c = Some (um_id m);
  rc_value : active = true -> uc_active_value c = Some (ci_value (_identity m));
  rc_status : active = true -> uc_status c = ClaimStatus.active;
  rc_about : about c m;
  rc_correction : source_type_or (um_source_type m) = "user_correction" -> active = true;
}.

Lemma passport_ledger_put X r c m P :
  passport_ledger X (put_urevision r (put_uclaim c (put_memory m P))) =
  ledger_ok X (<[um_id m := m]> (memories P)) (<[uc_id c := c]> (pp_claims P)) (<[ur_id r := r]> (pp_revisions P)).
Proof. reflexivity. Qed.

Lemma archived_same_assertion m b : same_assertion m (m <| um_is_archived := b |>).
Proof. done. Qed.

Lemma set_uwinner_id r c : uc_id (set_uwinner r c) = uc_id c.
Proof. unfold set_uwinner. by case_bool_decide. Qed.

Lemma set_uwinner_activated r c :
  ur_status r = RevisionStatus.activated -> set_uwinner r c = c <| uc_winning_revision_id := Some (ur_id r) |>.
Proof. intros Hr. unfold set_uwinner. by rewrite bool_decide_eq_true_2. Qed.

(** A claim that takes the memory over displays it. *)
Lemma displays_taken ms rs m c r :
  uc_active_memory_id c = Some (um_id m) -> uc_active_value c = Some (ci_value (_identity m)) ->
  uc_status c = ClaimStatus.active -> about c m -> ur_status r = RevisionStatus.activated ->
  ur_claim_id r = uc_id c -> ur_universal_memory_id r = Some (um_id m) ->
  displays_live (<[um_id m := m <| um_is_archived := false |>]> ms) (<[ur_id r := r]> rs) (set_uwinner r c).
Proof.
  intros Hc Hv Hs Hab Hr Hrc Hrm. unfold set_uwinner. rewrite bool_decide_eq_true_2 by done.
  unfold displays_live. cbn. rewrite Hc, Hs. split; [done|split].
  - exists (m <| um_is_archived := false |>). rewrite lookup_insert_eq. done.
  - exists (ur_id r), r. rewrite lookup_insert_eq. done.
Qed.

(** A claim that keeps what it displays. *)
Lemma displays_kept X P m c (m' : UniversalMemory) r :
  passport_ledger X P -> pp_claims P !! uc_id c = Some c -> uc_active_memory_id c <> Some (um_id m) ->
  pp_revisions P !! ur_id r = None ->
  displays_live (<[um_id m := m']> (memories P)) (<[ur_id r := r]> (pp_revisions P)) c.
Proof.
  intros HP Hc Hne Hr. eapply displays_live_mono; [| |by apply (ok_display _ _ _ _ HP _ c Hc)].
  - intros i m0 Hi Hm0 Hl. exists m0. rewrite lookup_insert_ne by congruence. done.
  - intros i w r0 _ Hw _. by rewrite lookup_insert_ne by congruence.
Qed.

Lemma record_universal_ok X P e m grant tenant reason :
  passport_ledger X P -> memories P !! um_id m = Some m -> um_is_archived m = false ->
  pp_claims P !! st_claim_id e = None -> pp_revisions P !! st_revision_id e = None ->
  exists c r active,
    record_universal e m grant tenant reason P =
      (put_urevision r (put_uclaim c (put_memory (m <| um_is_archived := negb active |>) P)),
       inr (decision c active)) /\
    recorded X e m grant P c r active.
Proof.
  intros HP Hm Hlive Hcid Hrid. unfold record_universal.
  destruct (claims_of_spec X P (um_user_uui_id m) (ci_fingerprint (_identity m)) HP)
    as [[Hnone Hothers]|(c0 & Hone & Hc0 & Hu & Hf)].
  - set (c := new_uclaim (st_claim_id e) (st_now e) m (_identity m)).
    set (r := universal_revision (st_revision_id e) (st_now e) (uc_id c) m (_identity m)
                RevisionStatus.activated grant tenant reason).
    assert (about c m) as Hab by done.
    exists (set_uwinner r c), r, true. split.
    { unfold mbind, M_bind, get_st. rewrite Hnone. cbn [scalar_one]. unfold mret, M_ret, _record.
      rewrite Hlive. reflexivity. }
    split; try done; [|by left|..]; try (intros _; subst c; unfold new_uclaim; cbn; by rewrite Hlive).
    rewrite passport_ledger_put.
    apply (ledger_record X _ _ _ m _ _ _ HP Hm); try done.
    + intros i c' Hi Hab'. exfalso. by apply (Hothers i c').
    + intros c1 Hc1. rewrite set_uwinner_id in Hc1. change (uc_id c) with (st_claim_id e) in Hc1. congruence.
    + apply displays_taken; try done; unfold c, new_uclaim; cbn; by rewrite Hlive.
  - set (taken q := display (st_now e) q m (_identity m) c0).
    assert (about c0 m) as Hab0 by done.
    assert (forall i c', pp_claims P !! i = Some c' -> about c' m -> i = uc_id c0) as Hunique.
    { intros i c' Hi Hab'. by eapply (about_unique _ _ _ _ _ _ _ _ _ HP). }
    assert (forall q r, ur_id r = st_revision_id e -> ur_claim_id r = uc_id c0 ->
              ur_status r = RevisionStatus.activated -> revision_of m grant r ->
              recorded X e m grant P (set_uwinner r (taken q)) r true) as Htake.
    { intros q r Hrid' Hrc Hrs Hro.
      pose proof (displays_taken (memories P) (pp_revisions P) m (taken q) r eq_refl eq_refl eq_refl
                    Hab0 Hrs Hrc (ro_memory _ _ _ Hro)) as Hd.
      rewrite set_uwinner_activated in * by done.
      split; try done; [|right; by eexists].
      rewrite passport_ledger_put.
      apply (ledger_record X _ _ _ m _ _ r HP Hm);
        [apply archived_same_assertion|exact Hab0| | |by rewrite Hrid'|exact Hrc|apply Hro|exact Hd].
      - intros i c' Hi Hab'. exact (Hunique i c' Hi Hab').
      - change (uc_id _) with (uc_id c0). intros c1 Hc1. rewrite Hc0 in Hc1. by apply Some_inj in Hc1 as <-. }
    assert (forall c r, uc_id c = uc_id c0 -> uc_active_memory_id c = uc_active_memory_id c0 ->
              about c m -> ur_id r = st_revision_id e -> ur_claim_id r = uc_id c0 -> revision_of m grant r ->
              uc_active_memory_id c0 <> Some (um_id m) ->
              (forall ms rs, displays_live ms rs c0 -> displays_live ms rs c) ->
              source_type_or (um_source_type m) <> "user_correction" ->
              recorded X e m grant P c r false) as Hkeep.
    { intros c r Hid Hact Hab Hrid' Hrc Hro Hne Hdisp Hsrc.
      split; try done; [|right; rewrite Hid; by eexists].
      rewrite passport_ledger_put.
      apply (ledger_record X _ _ _ m _ c r HP Hm);
        [apply archived_same_assertion|exact Hab| | |by rewrite Hrid'|by rewrite Hid|apply Hro|].
      - intros i c' Hi Hab'. rewrite Hid. exact (Hunique i c' Hi Hab').
      - rewrite Hid. intros c1 Hc1. rewrite Hc0 in Hc1. by apply Some_inj in Hc1 as <-.
      - apply Hdisp, (displays_kept X); done || congruence. }
    unfold mbind, M_bind, get_st. rewrite Hone. cbn [scalar_one]. unfold mret, M_ret, _record.
    unfold assert_claim. rewrite Hlive. cbn [negb]. rewrite !andb_true_r.
    case_bool_decide as Hdisp; [|case_bool_decide as Hcorr; [|destruct (same_value c0 (_identity m))]].
    + eexists _, _, true. split; [reflexivity|]. by apply Htake.
    + eexists _, _, true. split; [reflexivity|]. by apply Htake.
    + eexists _, _, false. split; [reflexivity|]. by apply Hkeep.
    + eexists _, _, false. split; [reflexivity|]. apply Hkeep; try done.
      unfold set_uwinner, displays_live. cbn. intros ms rs. destruct (uc_active_memory_id c0); naive_solver.
Qed.
End Recording.

(** ** Archiving *)

Section Archiving.
Context `{PyLib}.

Lemma revisions_with_claim_elem u wanted P r c :
  (r, c) ∈ revisions_with_claim u wanted P <->
  (exists k, pp_revisions P !! k = Some r) /\
  exists i, ur_universal_memory_id r = Some i /\ pp_claims P !! ur_claim_id r = Some c /\
            wanted i = true /\ uc_user_uui_id c = u.
Proof.
  unfold revisions_with_claim. rewrite sort_by_perm, list_elem_of_omap. setoid_rewrite elem_of_rows. split.
  - intros (r0 & Hk & Hr0). apply bind_Some in Hr0 as (i & Hi & Hr0). apply bind_Some in Hr0 as (c0 & Hc0 & Hr0).
    destruct (wanted i) eqn:Hw; [|done]. case_bool_decide; [|done]. simplify_eq/=. eauto 10.
  - intros ([k Hk] & i & Hi & Hc & Hw & Hu). exists r. split; [by exists k|].
    rewrite Hi. cbn. rewrite Hc. cbn. by rewrite Hw, bool_decide_eq_true_2.
Qed.

(** The claim [c] no longer displays a memory. *)
Definition cleared (now : datetime) (c : UniversalMemoryClaim) : UniversalMemoryClaim :=
  c <| uc_status := ClaimStatus.archived |> <| uc_active_memory_id := None |> <| uc_active_value := None |>
    <| uc_winning_revision_id := None |> <| uc_updated_at := now |>.

(** The claims after the memory [id] of the claim [c] was archived. *)
Definition archived_claims (now : datetime) (id : uuid) (c : UniversalMemoryClaim)
    (cs : gmap uuid UniversalMemoryClaim) : gmap uuid UniversalMemoryClaim :=
  if bool_decide (uc_active_memory_id c = Some id) then <[uc_id c := cleared now c]> cs else cs.

Lemma archived_claims_lookup X ms cs rs now m c i c' :
  ledger_ok X ms cs rs -> cs !! uc_id c = Some c -> about c m -> ms !! um_id m = Some m ->
  archived_claims now (um_id m) c cs !! i = Some c' ->
  uc_active_memory_id c' <> Some (um_id m) /\
  ((exists c0, cs !! i = Some c0 /\ c' = cleared now c0) \/ cs !! i = Some c').
Proof.
  intros HL Hc Hab Hm. unfold archived_claims.
  assert (forall j c1, cs !! j = Some c1 -> uc_active_memory_id c1 = Some (um_id m) -> j = uc_id c) as Hone.
  { intros j c1 Hj Hact. pose proof (ok_display _ _ _ _ HL j c1 Hj) as Hd. unfold displays_live in Hd.
    rewrite Hact in Hd. destruct Hd as (_ & (m1 & Hm1 & _ & Hab1 & _) & _).
    assert (m1 = m) as -> by congruence. by eapply about_unique. }
  case_bool_decide as Hact.
  - intros [[<- <-]|[Hi Hc']]%lookup_insert_Some; [split; [done|left; by exists c]|].
    split; [|by right]. intros Hact'. apply Hi. symmetry. by eapply Hone.
  - intros Hc'. split; [|by right]. intros Hact'. assert (i = uc_id c) as -> by by eapply Hone.
    congruence.
Qed.

(** A memory leaves the ledger: its revision is archived, and a claim that
    displayed it displays nothing. *)
Lemma ledger_archive X ms cs rs now m m' r r' c :
  ledger_ok X ms cs rs -> ms !! um_id m = Some m -> same_assertion m m' ->
  rs !! ur_id r = Some r -> ur_universal_memory_id r = Some (um_id m) -> cs !! ur_claim_id r = Some c ->
  about c m -> ur_id r' = ur_id r -> ur_claim_id r' = ur_claim_id r ->
  ur_universal_memory_id r' = ur_universal_memory_id r ->
  ledger_ok X (<[um_id m := m']> ms) (archived_claims now (um_id m) c cs) (<[ur_id r := r']> rs).
Proof.
  intros HL Hm Hsa Hr Hrm Hc Hab Hid Hrc Hrm'.
  assert (cs !! uc_id c = Some c) as Hcc by by rewrite (ok_claim_key _ _ _ _ HL _ _ Hc).
  assert (forall i c', archived_claims now (um_id m) c cs !! i = Some c' ->
            exists c0, cs !! i = Some c0 /\ uc_id c' = uc_id c0 /\
                       uc_user_uui_id c' = uc_user_uui_id c0 /\
                       uc_claim_fingerprint c' = uc_claim_fingerprint c0) as Hback.
  { intros i c' Hi. eapply archived_claims_lookup in Hi as [_ [(c0 & Hc0 & ->)|Hi]]; eauto. }
  assert (forall i c0, cs !! i = Some c0 ->
            exists c', archived_claims now (um_id m) c cs !! i = Some c' /\
                       forall m0, about c0 m0 -> about c' m0) as Hkeep.
  { intros i c0 Hc0. unfold archived_claims. case_bool_decide; [|by exists c0].
    rewrite lookup_insert. case_decide as He; [|by exists c0]. subst.
    exists (cleared now c). split; [done|]. assert (c0 = c) as -> by congruence. done. }
  split.
  - intros i m0 [[<- <-]|[Hi Hm0]]%lookup_insert_Some; [apply Hsa|by apply (ok_memory_key _ _ _ _ HL)].
  - intros i c' (c0 & Hc0 & -> & _)%Hback. by apply (ok_claim_key _ _ _ _ HL).
  - intros i r0 [[<- <-]|[Hi Hr0]]%lookup_insert_Some; [done|by apply (ok_revision_key _ _ _ _ HL)].
  - intros i j c1 c2 (c1' & H1 & _ & Hu1 & Hf1)%Hback (c2' & H2 & _ & Hu2 & Hf2)%Hback Hu Hf.
    eapply (ok_claim_unique _ _ _ _ HL); [done|done|congruence|congruence].
  - intros i c' Hi. eapply archived_claims_lookup in Hi as [Hne [(c0 & Hc0 & ->)|Hi]]; [done| |done..].
    eapply displays_live_mono; [| |by apply (ok_display _ _ _ _ HL i)].
    + intros j m0 Hj Hm0 Hl. exists m0. rewrite lookup_insert_ne by congruence. done.
    + intros j w r0 Hj Hw Hr0. rewrite lookup_insert_ne; [done|]. intros <-. congruence.
  - intros k r0 [[<- <-]|[Hk Hr0]]%lookup_insert_Some.
    + destruct (Hkeep _ _ Hc) as (c' & Hc' & Hab'). exists c', (um_id m), m'.
      rewrite lookup_insert_eq, Hrc, Hrm', (same_assertion_about m m') by done. auto.
    + destruct (ok_revision_about _ _ _ _ HL k r0 Hr0) as (c0 & i & m0 & Hc0 & Hi & Hm0 & Hab0).
      destruct (Hkeep _ _ Hc0) as (c' & Hc' & Hab'). exists c', i.
      destruct (decide (i = um_id m)) as [->|Hne].
      * exists m'. rewrite lookup_insert_eq, (same_assertion_about m m') by done.
        assert (m0 = m) as -> by congruence. auto.
      * exists m0. rewrite (lookup_insert_ne ms) by done. auto.
  - intros i m0 Hi HX.
    assert (exists m1, ms !! i = Some m1) as [m1 Hm1].
    { apply lookup_insert_Some in Hi as [[<- _]|[_ Hi]]; eauto. }
    destruct (ok_recorded _ _ _ _ HL i m1 Hm1 HX) as (k & r0 & Hk & Hkm).
    destruct (decide (k = ur_id r)) as [->|Hne].
    + exists (ur_id r), r'. rewrite lookup_insert_eq. split; [done|congruence].
    + exists k, r0. by rewrite lookup_insert_ne by done.
Qed.

(** [archive_memory] of a memory that was just marked archived. *)
Record archived_from (X : gset uuid) (m m' : UniversalMemory) (P P' : Passport) : Prop := {
  af_ledger : passport_ledger X P';
  af_rest : P' = put_memory m' P <| pp_claims := pp_claims P' |> <| pp_revisions := pp_revisions P' |>;
  af_hidden i c : pp_claims P' !! i = Some c -> uc_active_memory_id c <> Some (um_id m);
  af_claim_ids i : pp_claims P' !! i = None <-> pp_claims P !! i = None;
  af_revision_ids i : pp_revisions P' !! i = None <-> pp_revisions P !! i = None;
}.

Lemma archive_universal_ok X now m m' reason P :
  passport_ledger X P -> memories P !! um_id m = Some m -> um_id m ∉ X -> same_assertion m m' ->
  exists P', archive_memory now m' reason (put_memory m' P) = (P', inr tt) /\ archived_from X m m' P P'.
Proof.
  intros HP Hm HX Hsa. unfold archive_memory, mbind, M_bind, get_st.
  rewrite (sa_id _ _ Hsa), (sa_user _ _ Hsa).
  destruct (revisions_with_claim _ _ _) as [|[r c] l] eqn:Hl.
  { exfalso. destruct (ok_recorded _ _ _ _ HP _ m Hm HX) as (k & r & Hk & Hkm).
    destruct (ok_revision_about _ _ _ _ HP k r Hk) as (c & i & m0 & Hc & Hi & Hm0 & Hab).
    assert (m0 = m) as -> by congruence.
    assert ((r, c) ∈ []) as Hin; [|by apply elem_of_nil in Hin].
    rewrite <- Hl. apply revisions_with_claim_elem. split; [by exists k|].
    exists (um_id m). rewrite bool_decide_eq_true_2 by done. destruct Hab. done. }
  assert ((r, c) ∈ (r, c) :: l) as Hin by apply list_elem_of_here. rewrite <- Hl in Hin.
  apply revisions_with_claim_elem in Hin as ([k Hk] & i & Hi & Hc & Hw & Hu).
  apply bool_decide_eq_true in Hw as ->. cbn in Hk, Hc.
  pose proof (ok_revision_key _ _ _ _ HP k r Hk) as <-.
  destruct (ok_revision_about _ _ _ _ HP _ r Hk) as (c0 & i & m0 & Hc0 & Hi0 & Hm0 & Hab).
  assert (c0 = c) as -> by congruence. assert (m0 = m) as -> by congruence.
  assert (pp_claims P !! uc_id c = Some c) as Hcc by by rewrite (ok_claim_key _ _ _ _ HP _ _ Hc).
  set (r' := r <| ur_status := RevisionStatus.archived |> <| ur_resolution_reason := Some reason |>).
  exists (put_memory m' P <| pp_claims := archived_claims now (um_id m) c (pp_claims P) |>
                          <| pp_revisions := <[ur_id r := r']> (pp_revisions P) |>).
  split.
  { unfold archived_claims. case_bool_decide; reflexivity. }
  split; [|done|..].
  - unfold passport_ledger, memories. cbn. rewrite (sa_id _ _ Hsa).
    by apply (ledger_archive X _ _ _ now m m' r r' c HP).
  - cbn. intros i0 c' Hi0'. by eapply (archived_claims_lookup X _ _ _ now m c i0 c' HP).
  - intros i0. cbn. unfold archived_claims. case_bool_decide; [|done].
    rewrite lookup_insert_None. split; [by intros [? _]|]. intros Hn. split; [done|]. congruence.
  - intros i0. cbn. rewrite lookup_insert_None. split; [by intros [? _]|]. intros Hn. split; [done|]. congruence.
Qed.
End Archiving.

(** ** Storing extracted memories *)

Definition with_versions (vs : gmap uuid UniversalMemoryVersion) (P : Passport) : Passport :=
  P <| pp_db ::= fun d => d <| ud_versions := vs |> |>.

Lemma in_versions_ok (id : uuid) (m : UniversalMemory) (t : string) (reason : option string) (by_ : string)
    (agent : option uuid) P :
  t ∈ ALLOWED_UNIVERSAL_CHANGE_TYPES -> by_ ∈ ALLOWED_UNIVERSAL_CHANGED_BY ->
  exists vs v, in_versions (record_universal_version id m t reason by_ agent) P =
               (with_versions vs P, inr v).
Proof.
  intros Ht Hb. unfold in_versions, record_universal_version.
  rewrite (proj2 (valid_change_none _ _ t by_)) by done. do 2 eexists. reflexivity.
Qed.

Definition alter_memory (id : uuid) (f : UniversalMemory -> UniversalMemory) (P : Passport) : Passport :=
  P <| pp_db ::= fun d => d <| ud_memories ::= alter f id |> |>.

Definition with_outbox (b : Outbox) (P : Passport) : Passport := P <| pp_outbox := b |>.

Ltac change_listed := refine (bool_decide_unpack _ _); reflexivity.

Lemma jget_extend k kvs o : jget k (extend kvs o) = match dict_get k (rev kvs) with
                                                   | Some v => Some v | None => jget k o end.
Proof.
  revert o. induction kvs as [|[k' v] kvs IH] using rev_ind; intros o; [done|].
  unfold extend. rewrite foldl_app, rev_app_distr. cbn. case_decide as Hk.
  - subst. apply jget_jset_eq.
  - rewrite jget_jset_ne by congruence. apply IH.
Qed.

Section Storing.
Context `{PyLib}.
Variable embed : string -> option (list Q * Z).
Variable encrypt : string -> string -> string -> string -> option json.

(** The ids of a draw are new, and no other draw of the delivery has them. *)
Record fresh_draws (draws : nat -> Draw) (i : nat) (P : Passport) : Prop := {
  fd_memories j : i <= j -> memories P !! dr_memory_id (draws j) = None;
  fd_claims j : i <= j -> pp_claims P !! st_claim_id (dr_stamp (draws j)) = None;
  fd_revisions j : i <= j -> pp_revisions P !! st_revision_id (dr_stamp (draws j)) = None;
  fd_memories_inj j k : dr_memory_id (draws j) = dr_memory_id (draws k) -> j = k;
  fd_claims_inj j k : st_claim_id (dr_stamp (draws j)) = st_claim_id (dr_stamp (draws k)) -> j = k;
  fd_revisions_inj j k : st_revision_id (dr_stamp (draws j)) = st_revision_id (dr_stamp (draws k)) -> j = k;
}.

(** What the loop may write about [user] for [agent] under [grant]. *)
Record written_memory (user agent : uuid) (event_id : string) (grant : PermissionGrant) (m : UniversalMemory)
    : Prop := {
  wm_user : um_user_uui_id m = user;
  wm_agent : um_source_agent_id m = Some agent;
  wm_category : um_category m ∈ pg_categories_allowed grant /\ um_category m ∈ ALLOWED_MEMORY_CATEGORIES;
  wm_event : of_event user agent event_id m = true;
}.

Definition written_revision (agent : uuid) (grant : PermissionGrant) (r : UniversalMemoryClaimRevision) : Prop :=
  ur_permission_grant_id r = Some (pg_id grant) /\ ur_source_agent_id r = Some agent.

Record stored (user agent : uuid) (event_id : string) (grant : PermissionGrant) (n : Z) (P P' : Passport)
    : Prop := {
  sd_ledger : passport_ledger ∅ P';
  sd_users : pp_users P' = pp_users P;
  sd_grants : pp_grants P' = pp_grants P;
  sd_count u : Z.of_nat (live_count u (memories P')) =
               (Z.of_nat (live_count u (memories P)) + (if decide (u = user) then n else 0))%Z;
  sd_kept i m : memories P !! i = Some m -> memories P' !! i = Some m;
  sd_new i m : memories P' !! i = Some m -> memories P !! i = Some m \/ written_memory user agent event_id grant m;
  sd_revisions k r : pp_revisions P' !! k = Some r ->
                     pp_revisions P !! k = Some r \/ written_revision agent grant r;
}.

Lemma stored_nothing user agent event_id grant P :
  passport_ledger ∅ P -> stored user agent event_id grant 0 P P.
Proof. split; try done; [|tauto..]. intros u. case_decide; lia. Qed.

Lemma stored_app user agent event_id grant n n' P P' P'' :
  stored user agent event_id grant n P P' -> stored user agent event_id grant n' P' P'' ->
  stored user agent event_id grant (n + n') P P''.
Proof.
  intros H1 H2. split; try apply H2.
  - rewrite (sd_users _ _ _ _ _ _ _ H2). apply H1.
  - rewrite (sd_grants _ _ _ _ _ _ _ H2). apply H1.
  - intros u. rewrite (sd_count _ _ _ _ _ _ _ H2), (sd_count _ _ _ _ _ _ _ H1). case_decide; lia.
  - intros i m Hi. by apply (sd_kept _ _ _ _ _ _ _ H2), (sd_kept _ _ _ _ _ _ _ H1).
  - intros i m [Hi|Hw]%(sd_new _ _ _ _ _ _ _ H2); [|by right]. by apply (sd_new _ _ _ _ _ _ _ H1) in Hi.
  - intros i m [Hi|Hw]%(sd_revisions _ _ _ _ _ _ _ H2); [|by right]. by apply (sd_revisions _ _ _ _ _ _ _ H1) in Hi.
Qed.

(** The identifiers one turn uses up. *)
Definition uses (d : Draw) (P P' : Passport) : Prop :=
  (exists m, memories P' = <[dr_memory_id d := m]> (memories P)) /\
  (forall i, i <> st_claim_id (dr_stamp d) -> pp_claims P !! i = None -> pp_claims P' !! i = None) /\
  (exists r, pp_revisions P' = <[st_revision_id (dr_stamp d) := r]> (pp_revisions P)).

Lemma fresh_draws_next draws i P P' :
  fresh_draws draws i P -> uses (draws i) P P' -> fresh_draws draws (S i) P'.
Proof.
  intros HF ([m Hm] & Hc & [r Hr]). split; try apply HF; intros j Hj.
  - rewrite Hm, lookup_insert_ne; [apply HF; lia|]. intros He.
    apply (fd_memories_inj _ _ _ HF) in He. lia.
  - apply Hc; [|apply HF; lia]. intros He.
    apply (fd_claims_inj _ _ _ HF) in He. lia.
  - rewrite Hr, lookup_insert_ne; [apply HF; lia|]. intros He.
    apply (fd_revisions_inj _ _ _ HF) in He. lia.
Qed.

Lemma of_event_with_decision user agent event_id m d b :
  of_event user agent event_id m = true ->
  of_event user agent event_id (with_decision d (m <| um_is_archived := b |>)) = true.
Proof.
  intros Hm. rewrite <- Hm. unfold of_event.
  replace (jget "source_event_id" (um_metadata_json (with_decision d (m <| um_is_archived := b |>))))
    with (jget "source_event_id" (um_metadata_json m)); [done|].
  unfold with_decision. cbn [um_metadata_json]. symmetry. apply jget_extend.
Qed.

Lemma store_extracted_ok now user agent_id agent event_id job_payload grant d x P P' n :
  passport_ledger ∅ P -> memories P !! dr_memory_id d = None -> pp_claims P !! st_claim_id (dr_stamp d) = None ->
  pp_revisions P !! st_revision_id (dr_stamp d) = None -> allowed_category grant x = true ->
  store_extracted embed encrypt now user agent_id agent event_id job_payload grant d x P = (P', inr n) ->
  stored (uu_id user) agent event_id grant n P P' /\ uses d P P' /\
  exists m, memories P' !! dr_memory_id d = Some m /\ of_event (uu_id user) agent event_id m = true.
Proof.
  intros HP Hmid Hcid Hrid Hcat. unfold store_extracted. intros Hrun.
  apply M_bind_inv in Hrun as (P1 & importance & [-> _]%lift_opt_inv & Hrun).
  apply M_bind_inv in Hrun as (P1 & embedding & [-> _]%lift_opt_inv & Hrun).
  apply M_bind_inv in Hrun as (P1 & meta & [-> _]%lift_opt_inv & Hrun).
  set (m := extracted_memory_row encrypt d (uu_id user) agent_id agent event_id meta importance x) in *.
  destruct (in_versions_ok (dr_version_id d) m "created" (Some "Extracted from conversation") "agent"
              (Some agent) (put_memory m P)) as (vs & v & Hv); [change_listed..|].
  unfold mbind at 1, M_bind at 1, modify_st at 1 in Hrun. unfold mbind at 1, M_bind at 1 in Hrun.
  rewrite Hv in Hrun. clear Hv. set (P1 := with_versions vs (put_memory m P)) in *.
  assert (passport_ledger ({[um_id m]} ∪ ∅) P1) as HP1 by (by apply ledger_add_memory).
  destruct (record_universal_ok ({[um_id m]} ∪ ∅) P1 (dr_stamp d) m (Some grant)
              (ga_owner_tenant_id <$> pp_agents P1 !! agent)
              "Extracted from an active Passport write grant" HP1)
    as (c & r & active & Hrec & HR); [by apply lookup_insert_eq|done..|].
  unfold mbind at 1, M_bind at 1, get_st in Hrun. unfold mbind at 1, M_bind at 1 in Hrun.
  rewrite Hrec in Hrun. clear Hrec. set (dec := decision c active) in *.
  set (ma := m <| um_is_archived := negb active |>) in *.
  set (P2 := put_urevision r (put_uclaim c (put_memory ma P1))) in *.
  set (m' := with_decision dec ma).
  change (update_memory (um_id m) (with_decision dec)) with
    (modify_st (S := Passport) (E := passport_exn) (alter_memory (um_id m) (with_decision dec))) in Hrun.
  unfold mbind at 1, M_bind at 1, modify_st at 1 in Hrun.
  set (P3 := alter_memory (um_id m) (with_decision dec) P2) in *.
  assert (memories P3 = <[dr_memory_id d := m']> (memories P)) as Hms.
  { transitivity (alter (with_decision dec) (um_id m) (<[um_id m := ma]> (<[um_id m := m]> (memories P)))); [done|].
    rewrite <- (insert_as_alter _ _ _ ma) by apply lookup_insert_eq. by rewrite !insert_insert_eq. }
  assert (exists b, P' = with_outbox b P3 /\ n = (if active then 1 else 0)%Z) as (b & -> & ->).
  { cbn [cd_memory_is_active dec decision] in Hrun. destruct active; injection Hrun as <- <-; by eexists. }
  clear Hrun. change (memories P3) with (memories (with_outbox b P3)) in Hms.
  assert (um_is_archived m' = negb active) as Ha by done.
  assert (of_event (uu_id user) agent event_id m' = true) as Hev.
  { apply of_event_with_decision. unfold of_event.
    change (jget "source_event_id" (um_metadata_json m)) with (Some (JStr event_id)).
    by rewrite !bool_decide_eq_true_2. }
  split; [|split].
  - split; try done.
    + assert (∅ = ({[um_id m]} ∪ ∅) ∖ {[um_id m]}) as -> by set_solver.
      pose proof (rc_ledger _ _ _ _ _ _ _ _ HR) as HL2.
      unfold passport_ledger. rewrite Hms.
      assert (<[dr_memory_id d := m']> (memories P) = <[um_id ma := m']> (memories P2)) as ->.
      { transitivity (<[um_id m := m']> (<[um_id m := ma]> (<[um_id m := m]> (memories P)))); [|done].
        by rewrite !insert_insert_eq. }
      apply ledger_update_memory; [exact HL2|by apply lookup_insert_eq|done|done].
    + intros u. rewrite Hms.
      pose proof (live_count_insert u (memories P) (dr_memory_id d) m') as Hc. rewrite Hmid in Hc. simpl in Hc.
      rewrite counts_spec, Ha in Hc. change (um_user_uui_id m') with (uu_id user) in Hc.
      destruct active; simpl in Hc; case_bool_decide; case_decide; simpl in Hc; congruence || lia.
    + intros i m0 Hi. rewrite Hms, lookup_insert_ne by congruence. done.
    + intros i m0. rewrite Hms.
      intros [[<- <-]|[_ Hi]]%lookup_insert_Some; [right|by left].
      apply andb_prop in Hcat as [Hc1%bool_decide_eq_true Hc2%bool_decide_eq_true]. done.
    + intros k r0 Hk. change (<[ur_id r := r]> (pp_revisions P) !! k = Some r0) in Hk.
      apply lookup_insert_Some in Hk as [[<- <-]|[_ Hk]]; [right|by left].
      split; [by rewrite (ro_grant _ _ _ (rc_revision _ _ _ _ _ _ _ _ HR))|
              by rewrite (ro_agent _ _ _ (rc_revision _ _ _ _ _ _ _ _ HR))].
  - split; [|split]; [by exists m'| |].
    + intros i Hi Hn. change (<[uc_id c := c]> (pp_claims P) !! i = None). rewrite lookup_insert_ne; [done|].
      intros He. destruct (rc_claim _ _ _ _ _ _ _ _ HR) as [Hc|[c0 Hc0]]; [congruence|].
      change (pp_claims P !! uc_id c = Some c0) in Hc0. congruence.
    + exists r. change (<[ur_id r := r]> (pp_revisions P) = <[st_revision_id (dr_stamp d) := r]> (pp_revisions P)).
      by rewrite (rc_id _ _ _ _ _ _ _ _ HR).
  - exists m'. rewrite Hms. by rewrite lookup_insert_eq.
Qed.
End Storing.

(** ** Deliveries *)

Section Deliveries.
Context `{PyLib}.
Variable extract : list json -> string -> option (list ExtractedMemory).
Variable embed : string -> option (list Q * Z).
Variable encrypt : string -> string -> string -> string -> option json.

Definition event_recorded (user agent : uuid) (event_id : string) (P : Passport) : Prop :=
  exists i m, memories P !! i = Some m /\ of_event user agent event_id m = true.

Lemma store_all_ok now user agent_id agent event_id job_payload grant draws xs i P P' n :
  passport_ledger ∅ P -> fresh_draws draws i P -> Forall (fun x => allowed_category grant x = true) xs ->
  store_all embed encrypt now user agent_id agent event_id job_payload grant draws i xs P = (P', inr n) ->
  stored (uu_id user) agent event_id grant n P P' /\
  (xs <> [] -> event_recorded (uu_id user) agent event_id P').
Proof.
  revert i P n. induction xs as [|x xs IH]; intros i P n HP HF Hxs.
  - intros [= <- <-]. split; [by apply stored_nothing|done].
  - apply Forall_cons in Hxs as [Hx Hxs]. cbn [store_all]. intros Hrun.
    apply M_bind_inv in Hrun as (P1 & n1 & H1 & Hrun). apply M_bind_inv in Hrun as (P2 & n2 & H2 & Hrun).
    injection Hrun as -> <-.
    pose proof HF as HF'. destruct HF' as [HF1 HF2 HF3 _ _ _].
    apply store_extracted_ok in H1 as (Hs1 & Hu & m & Hm & Hev); [|done|apply HF1|apply HF2|apply HF3|done]; try lia.
    apply (IH (S i)) in H2 as [Hs2 _]; [|apply Hs1|by eapply fresh_draws_next|done].
    split; [by eapply stored_app|]. intros _. eexists _, m. split; [|done].
    by eapply (sd_kept _ _ _ _ _ _ _ Hs2).
Qed.

(** An active grant of [user] that lets [agent] write at [now]. *)
Record write_grant (now : datetime) (user agent : uuid) (g : PermissionGrant) : Prop := {
  wg_user : pg_user_uui_id g = user;
  wg_agent : pg_agent_id g = agent;
  wg_active : pg_is_active g = true;
  wg_writes : pg_access_type g = "read_write";
  wg_expiry : match pg_expires_at g with Some t => (now < t)%Z | None => True end;
}.

Lemma writes_now_grant now user agent g : writes_now now user agent g = true <-> write_grant now user agent g.
Proof.
  unfold writes_now, ends_after. rewrite !andb_true_iff, !bool_decide_eq_true.
  split; [intros ((((? & ?) & ?) & ?) & Ht)|intros [? ? ? ? Ht]]; (split_and!; [done..|] || split; try done);
    destruct (pg_expires_at g); [lia|done|lia|done].
Qed.

(** A delivery that commits. *)
Record delivered (job_payload : obj) (dl : Delivery) (P P' : Passport) (user : UniversalUser) (agent : uuid)
    (grant : PermissionGrant) (n : Z) : Prop := {
  de_user : pp_users P !! uu_id user = Some user /\ uu_is_active user = true;
  de_job : parse_uuid_str (py_strip (str_or_empty (jget_or_null "user_uui_id" job_payload))) = Some (uu_id user) /\
           parse_uuid_str (py_strip (str_or_empty (jget_or_null "agent_id" job_payload))) = Some agent;
  de_grant : (exists i, pp_grants P !! i = Some grant) /\ write_grant (dl_now dl) (uu_id user) agent grant;
  de_commit : exists i g, dl_commit_grants dl !! i = Some g /\ write_grant (dl_now dl) (uu_id user) agent g;
  de_first : _existing_event_memory_count (uu_id user) agent (_event_identity job_payload) P = 0;
  de_writes : exists P1, stored (uu_id user) agent (_event_identity job_payload) grant n P P1 /\
    P' = P1 <| pp_users ::= insert (uu_id user) (user <| uu_memory_count := (uu_memory_count user + n)%Z |>) |>
            <| pp_grants := dl_commit_grants dl |>;
}.

Lemma scalar_one_inv {A} (rows : list A) P P' o :
  scalar_one rows P = (P', inr o) -> P' = P /\ match o with Some a => rows = [a] | None => rows = [] end.
Proof. destruct rows as [|a [|b l]]; intros [= <- <-]; done. Qed.

Lemma active_write_grant_inv now user agent P P' o :
  _active_write_grant now user agent P = (P', inr o) ->
  P' = P /\ match o with
            | Some g => (exists i, pp_grants P !! i = Some g) /\ write_grant now user agent g
            | None => True
            end.
Proof.
  unfold _active_write_grant, mbind, M_bind, get_st. intros [-> Ho]%scalar_one_inv. split; [done|].
  destruct o as [g|]; [|done].
  assert (g ∈ rows_where (writes_now now user agent) (pp_grants P)) as Hg by (rewrite Ho; apply list_elem_of_here).
  by apply elem_of_rows_where in Hg as [?%writes_now_grant ?].
Qed.

Lemma run_pipeline_spec job_payload dl P P' result :
  passport_ok P -> fresh_draws (dl_draws dl) 0 P ->
  run_universal_extraction_pipeline extract embed encrypt job_payload dl P = (P', result) ->
  P' = P <| pp_grants := dl_commit_grants dl |> \/
  exists user agent grant n, delivered job_payload dl P P' user agent grant n.
Proof.
  intros [HP Hcount] HF. unfold run_universal_extraction_pipeline.
  set (us := py_strip (str_or_empty (jget_or_null "user_uui_id" job_payload))).
  set (ag := py_strip (str_or_empty (jget_or_null "agent_id" job_payload))).
  destruct (py_list _) as [messages|]; [|intros [= <- <-]; by left].
  destruct (_ || _); [intros [= <- <-]; by left|].
  destruct (extraction_body _ _ _ _ _ _ _ _ P) as [P1 [e|[[] res]]] eqn:Hbody;
    intros [= <- <-]; [by left| |by left]. right.
  unfold extraction_body in Hbody.
  apply M_bind_inv in Hbody as (P2 & user_id & [-> Hu]%lift_opt_inv & Hbody).
  apply M_bind_inv in Hbody as (P2 & P3 & [= <- <-] & Hbody).
  apply M_bind_inv in Hbody as (P2 & user & [-> Huser]%lift_opt_inv & Hbody).
  apply bind_Some in Huser as (user0 & Huser & Hact). destruct (uu_is_active user0) eqn:Hactive; [|done].
  apply Some_inj in Hact as ->.
  apply M_bind_inv in Hbody as (P2 & agent & [-> Ha]%lift_opt_inv & Hbody).
  apply M_bind_inv in Hbody as (P2 & [grant|] & [-> Hg]%active_write_grant_inv & Hbody); [|done].
  apply M_bind_inv in Hbody as (P2 & P3 & [= <- <-] & Hbody).
  case_bool_decide as Hex; [done|].
  apply M_bind_inv in Hbody as (P2 & xs & [-> _]%lift_opt_inv & Hbody).
  apply M_bind_inv in Hbody as (P2 & n & Hstore & Hbody).
  apply M_bind_inv in Hbody as (P3 & [] & [= <-] & Hbody).
  apply M_bind_inv in Hbody as (P3 & [g|] & [-> Hg']%active_write_grant_inv & Hbody); [|done].
  apply M_bind_inv in Hbody as (P3 & [] & [= <-] & Hbody). injection Hbody as <- <-.
  destruct (Hcount _ _ Huser) as [<- _]. 
  apply store_all_ok in Hstore as [Hs _]; [|done|done|].
  2: { apply Forall_forall. intros x Hx. by apply list_elem_of_filter in Hx as [? _]. }
  exists user, agent, grant, n. split; try done.
  - destruct Hg' as [[i Hi] Hw]. by exists i, g.
  - exists P2. done.
Qed.
End Deliveries.

(** ** The holder's edits *)

Section Edits.
Context `{PyLib}.
Variable embed : string -> option (list Q * Z).
Variable encrypt : string -> string -> string -> string -> option json.

Lemma get_memory_inv memory_id user P P' m :
  _get_user_universal_memory memory_id user false P = (P', inr m) ->
  P' = P /\ um_user_uui_id m = user /\ um_is_archived m = false /\ exists i, memories P !! i = Some m.
Proof.
  unfold _get_user_universal_memory. intros Hrun.
  apply M_bind_inv in Hrun as (P1 & i & [-> _]%lift_opt_inv & Hrun).
  apply M_bind_inv in Hrun as (P1 & P2 & [= <- <-] & Hrun).
  apply lift_opt_inv in Hrun as [-> Hm]. apply bind_Some in Hm as (m0 & Hi & Hm). cbn [orb] in Hm.
  case_bool_decide; [|done]. destruct (um_is_archived m0) eqn:Ha; [done|]. simplify_eq/=. eauto.
Qed.

Lemma put_memory_comm a b P :
  um_id a <> um_id b -> put_memory a (put_memory b P) = put_memory b (put_memory a P).
Proof.
  intros Hne. unfold put_memory. cbn. f_equal. f_equal. by apply insert_insert_ne.
Qed.

Record fresh_correction (d : CorrectionDraw) (P : Passport) : Prop := {
  fc_memory : memories P !! cr_new_memory_id d = None;
  fc_claim : pp_claims P !! st_claim_id (cr_stamp d) = None;
  fc_revision : pp_revisions P !! st_revision_id (cr_stamp d) = None;
}.

(** What is stored of a corrected memory and of its correction. *)
Record corrected (d : CorrectionDraw) (user : UniversalUser) (text : string) (m : UniversalMemory)
    (P P' : Passport) : Prop := {
  co_ledger : passport_ledger ∅ P';
  co_users : pp_users P' = pp_users P;
  co_memories : exists new', memories P' = <[cr_new_memory_id d := new']>
      (<[um_id m := superseded_by_correction d m]> (memories P)) /\
    same_assertion (corrected_row encrypt d user m (py_strip text)) new' /\ um_is_archived new' = false;
  co_displayed : exists c, pp_claims P' !! uc_id c = Some c /\
    about c (corrected_row encrypt d user m (py_strip text)) /\
    uc_active_memory_id c = Some (cr_new_memory_id d) /\ uc_status c = ClaimStatus.active /\
    uc_active_value c = Some (py_strip (py_strip text));
  co_hidden i c : pp_claims P' !! i = Some c -> uc_active_memory_id c <> Some (um_id m);
  co_flags i f : pp_flags P' !! i = Some f -> pending_flag (um_id m) (uu_id user) f = false;
  co_outbox : exists vector payload,
    fst <$> embed (py_strip text) = Some vector /\
    pp_outbox P' = enqueue_vector_upsert (cr_upsert_id d) (cr_now d) (cr_new_memory_id d) vector payload
      (enqueue_vector_delete (cr_delete_id d) (cr_now d) (um_id m)
         (Some [("qdrant_collection", JStr UNIVERSAL_COLLECTION_NAME); ("privacy_delete", JBool true)])
         (pp_outbox P));
}.

Lemma settled_flags memory user status now (fs : gmap uuid UserMemoryFlag) i f :
  status <> "pending" ->
  ((fun f => if pending_flag memory user f
             then f <| fl_status := status |> <| fl_resolved_at := Some now |> else f) <$> fs) !! i = Some f ->
  pending_flag memory user f = false.
Proof.
  intros Hs. rewrite lookup_fmap. destruct (fs !! i) as [f0|]; [|done]. intros [= <-].
  destruct (pending_flag memory user f0) eqn:Hf; [|done].
  unfold pending_flag. cbn. by rewrite (bool_decide_eq_false_2 (status = "pending")), andb_false_r.
Qed.

Lemma correct_my_memory_ok d memory_id text user P P' new_id :
  passport_ok P -> pp_users P !! uu_id user = Some user -> fresh_correction d P ->
  correct_my_memory embed encrypt d memory_id text user P = (P', inr new_id) ->
  exists m i, memories P !! i = Some m /\ um_user_uui_id m = uu_id user /\ um_is_archived m = false /\
              new_id = cr_new_memory_id d /\ corrected d user text m P P'.
Proof.
  intros [HP Hcount] Huser [Hfm Hfc Hfr]. unfold correct_my_memory. intros Hrun.
  apply M_bind_inv in Hrun as (P1 & m & (-> & Hmu & Hml & i & Hi)%get_memory_inv & Hrun).
  apply M_bind_inv in Hrun as (P1 & emb & [-> Hemb]%lift_opt_inv & Hrun).
  pose proof (ok_memory_key _ _ _ _ HP i m Hi) as <-.
  set (old := superseded_by_correction d m) in *. set (new := corrected_row encrypt d user m (py_strip text)) in *.
  assert (cr_new_memory_id d <> um_id m) as Hne by congruence.
  unfold mbind at 1, M_bind at 1, modify_st at 1 in Hrun.
  rewrite put_memory_comm in Hrun by done.
  assert (passport_ledger ({[um_id new]} ∪ ∅) (put_memory new P)) as HPn by (by apply ledger_add_memory).
  destruct (archive_universal_ok _ (cr_archived_at d) m old "Superseded by a direct user correction" _ HPn)
    as (P2 & Harch & [HL2 Hrest Hhid Hcid Hrid]); [by apply lookup_insert_Some; right|set_solver|done|].
  unfold mbind at 1, M_bind at 1 in Hrun. rewrite Harch in Hrun. clear Harch.
  assert (memories P2 = <[um_id m := old]> (<[um_id new := new]> (memories P))) as Hms2 by (by rewrite Hrest).
  destruct (record_universal_ok _ P2 (cr_stamp d) new None (source_tenant m P2)
              "User corrected this memory in the Permission Center" HL2) as (c & r & active & Hrec & HR).
  { rewrite Hms2, lookup_insert_ne by done. by apply lookup_insert_eq. }
  { done. } { by apply Hcid. } { by apply Hrid. }
  assert (active = true) as -> by (by apply (rc_correction _ _ _ _ _ _ _ _ HR)).
  unfold mbind at 1, M_bind at 1, get_st in Hrun. unfold mbind at 1, M_bind at 1 in Hrun.
  rewrite Hrec in Hrun. clear Hrec. set (dec := decision c true) in *.
  set (P3 := put_urevision r (put_uclaim c (put_memory (new <| um_is_archived := negb true |>) P2))) in *.
  change (update_memory (um_id new) (with_decision dec)) with
    (modify_st (S := Passport) (E := passport_exn) (alter_memory (um_id new) (with_decision dec))) in Hrun.
  unfold mbind at 1, M_bind at 1, modify_st at 1 in Hrun.
  set (P4 := alter_memory (um_id new) (with_decision dec) P3) in *.
  destruct (in_versions_ok (cr_version_id d) old "user_corrected"
              (Some ("User corrected to: " +:+ py_take 100 (py_strip text))) "user" None P4)
    as (vs & v & Hv); [change_listed..|].
  unfold mbind at 1, M_bind at 1 in Hrun. rewrite Hv in Hrun. clear Hv.
  destruct (in_versions_ok (cr_new_version_id d) new "created" (Some "Created as user correction") "user" None
              (with_versions vs P4)) as (vs' & v' & Hv); [change_listed..|].
  unfold mbind at 1, M_bind at 1 in Hrun. rewrite Hv in Hrun. clear Hv.
  set (new' := with_decision dec (new <| um_is_archived := negb true |>)).
  assert (memories P4 = <[cr_new_memory_id d := new']> (<[um_id m := old]> (memories P))) as Hms.
  { transitivity (alter (with_decision dec) (um_id new) (<[um_id new := new <| um_is_archived := negb true |>]> (memories P2)));
      [done|].
    rewrite <- (insert_as_alter _ _ _ (new <| um_is_archived := negb true |>)) by apply lookup_insert_eq.
    rewrite insert_insert_eq, Hms2, (insert_insert_ne _ (um_id m)) by done.
    by rewrite insert_insert_eq. }
  unfold settle_flags, enqueue_passport_delete in Hrun.
  injection Hrun as <- <-.
  exists m, (um_id m). split; [done|]. split; [done|]. split; [done|]. split; [done|].
  assert (pp_users P4 = pp_users P /\ pp_flags P4 = pp_flags P /\ pp_outbox P4 = pp_outbox P) as (Hu & Hf & Hb).
  { unfold P4, P3, alter_memory, put_urevision, put_uclaim, put_memory. cbn. by rewrite Hrest. }
  split.
  - change (ledger_ok ∅ (memories P4) (pp_claims P3) (pp_revisions P3)). rewrite Hms.
    pose proof (rc_ledger _ _ _ _ _ _ _ _ HR) as HL3. change (passport_ledger (({[um_id new]} ∪ ∅) ∖ {[um_id new]}) P3) in HL3.
    assert (({[um_id new]} ∪ ∅) ∖ {[um_id new]} =@{gset uuid} ∅) as Hx by set_solver. rewrite Hx in HL3.
    assert (<[cr_new_memory_id d := new']> (<[um_id m := old]> (memories P)) =
            <[um_id (new <| um_is_archived := negb true |>) := new']> (memories P3)) as ->.
    { rewrite <- Hms. transitivity (alter (with_decision dec) (um_id new) (memories P3)); [done|].
      symmetry. apply insert_as_alter. apply lookup_insert_eq. }
    apply ledger_update_memory; [exact HL3|by apply lookup_insert_eq|done|done].
  - exact Hu.
  - exists new'. split; [exact Hms|]. done.
  - exists c. split; [by apply lookup_insert_eq|].
    split; [apply (rc_about _ _ _ _ _ _ _ _ HR)|].
    split; [by apply (rc_active _ _ _ _ _ _ _ _ HR)|]. split; [by apply (rc_status _ _ _ _ _ _ _ _ HR)|].
    by apply (rc_value _ _ _ _ _ _ _ _ HR).
  - intros j c' Hj. change (<[uc_id c := c]> (pp_claims P2) !! j = Some c') in Hj.
    apply lookup_insert_Some in Hj as [[<- <-]|[_ Hj]]; [|by eapply Hhid].
    rewrite (rc_active _ _ _ _ _ _ _ _ HR) by done. intros [= He]. by apply Hne.
  - intros j f Hj. by eapply settled_flags in Hj.
  - change (pp_outbox P4) with (pp_outbox P3) in Hb. cbn. change (pp_outbox P2) with (pp_outbox P3). rewrite Hb.
    rewrite Hemb. by do 2 eexists.
Qed.

(** What is left of a deleted memory. *)
Record deleted (d : DeletionDraw) (user : UniversalUser) (m : UniversalMemory) (P P' : Passport) : Prop := {
  dl_ledger : passport_ledger ∅ P';
  dl_users : pp_users P' = <[uu_id user := user <| uu_memory_count := Z.max 0 (uu_memory_count user - 1) |>]>
                             (pp_users P);
  dl_memories : exists m', memories P' = <[um_id m := m']> (memories P) /\ um_is_archived m' = true;
  dl_hidden i c : pp_claims P' !! i = Some c -> uc_active_memory_id c <> Some (um_id m);
  dl_flags i f : pp_flags P' !! i = Some f -> pending_flag (um_id m) (uu_id user) f = false;
  dl_outbox : pp_outbox P' = enqueue_vector_delete (dd_outbox_id d) (dd_now d) (um_id m)
      (Some [("qdrant_collection", JStr UNIVERSAL_COLLECTION_NAME); ("privacy_delete", JBool true)])
      (pp_outbox P);
}.

Definition settled_view (memory user : uuid) (status : string) (now : datetime) (P : Passport) : Passport :=
  P <| pp_flags ::= fmap (fun f => if pending_flag memory user f
                                   then f <| fl_status := status |> <| fl_resolved_at := Some now |> else f) |>.

Lemma put_memory_settled m memory user status now P :
  settled_view memory user status now (put_memory m P) = put_memory m (settled_view memory user status now P).
Proof. done. Qed.

Lemma delete_my_memory_ok d memory_id user P P' id :
  passport_ok P -> pp_users P !! uu_id user = Some user ->
  delete_my_memory d memory_id user P = (P', inr id) ->
  exists m i, memories P !! i = Some m /\ um_user_uui_id m = uu_id user /\ um_is_archived m = false /\
              id = um_id m /\ deleted d user m P P'.
Proof.
  intros [HP Hcount] Huser. unfold delete_my_memory. intros Hrun.
  apply M_bind_inv in Hrun as (P1 & m & (-> & Hmu & Hml & i & Hi)%get_memory_inv & Hrun).
  pose proof (ok_memory_key _ _ _ _ HP i m Hi) as <-.
  destruct (in_versions_ok (dd_version_id d) m "user_removed" (Some "Removed by user") "user" None P)
    as (vs & v & Hv); [change_listed..|].
  unfold mbind at 1, M_bind at 1 in Hrun. rewrite Hv in Hrun. clear Hv.
  set (removed := m <| um_is_archived := true |> <| um_is_flagged := false |> <| um_metadata_json ::= _ |>) in Hrun.
  unfold mbind at 1, M_bind at 1, modify_st at 1 in Hrun.
  change (settle_flags (um_id m) (uu_id user) "dismissed" (dd_now d)) with
    (modify_st (S := Passport) (E := passport_exn) (settled_view (um_id m) (uu_id user) "dismissed" (dd_now d))) in Hrun.
  unfold mbind at 1, M_bind at 1, modify_st at 1 in Hrun. rewrite put_memory_settled in Hrun.
  set (P1 := settled_view _ _ _ _ _) in Hrun.
  destruct (archive_universal_ok ∅ (dd_now d) m removed "Removed by the Passport owner" P1)
    as (P2 & Harch & [HL2 Hrest Hhid _ _]); [done|done|set_solver|done|].
  unfold mbind at 1, M_bind at 1 in Hrun. rewrite Harch in Hrun. clear Harch.
  injection Hrun as <- <-. exists m, (um_id m). split; [done|]. split; [done|]. split; [done|]. split; [done|].
  assert (pp_users P2 = pp_users P /\ memories P2 = <[um_id m := removed]> (memories P) /\
          pp_flags P2 = pp_flags P1 /\ pp_outbox P2 = pp_outbox P) as (Hu & Hms & Hf & Hb) by by rewrite Hrest.
  split.
  - exact HL2.
  - change (<[uu_id user := user <| uu_memory_count := Z.max 0 (uu_memory_count user - 1) |>]> (pp_users P2) =
            <[uu_id user := user <| uu_memory_count := Z.max 0 (uu_memory_count user - 1) |>]> (pp_users P)).
    by rewrite Hu.
  - exists removed. split; [exact Hms|done].
  - exact Hhid.
  - intros j f Hj. change (pp_flags P2 !! j = Some f) in Hj. rewrite Hf in Hj. by eapply settled_flags in Hj.
  - cbn. by rewrite Hb.
Qed.
End Edits.
