(* ===== verification/PassportTheorems.v ===== *)
(** * Universal memories: theorems

    Runs of deliveries, corrections, deletions and flags keep the invariant of
    [PassportInvariant]; deliveries write only under a grant and once per event;
    corrections and deletions take effect.  A concrete passport shows each. *)

From S2P Require Export PassportInvariant.

(** ** Runs *)

Section Runs.
Context `{PyLib}.
Variable extract : list json -> string -> option (list ExtractedMemory).
Variable embed : string -> option (list Q * Z).
Variable encrypt : string -> string -> string -> string -> option json.

Lemma flagged_ok b (P P' : Passport) m i :
  passport_ok P -> memories P !! i = Some m ->
  memories P' = alter (fun m => m <| um_is_flagged := b |>) (um_id m) (memories P) ->
  pp_claims P' = pp_claims P -> pp_revisions P' = pp_revisions P -> pp_users P' = pp_users P -> passport_ok P'.
Proof.
  intros [HP Hcount] Hm Hms Hc Hr Hu. pose proof (ok_memory_key _ _ _ _ HP i m Hm) as <-.
  rewrite <- (insert_as_alter _ _ _ m) in Hms by done.
  split.
  - unfold passport_ledger. rewrite Hms, Hc, Hr. by apply ledger_update_memory.
  - intros i u Hi. rewrite Hu in Hi. destruct (Hcount i u Hi) as [? ->]. split; [done|]. f_equal. rewrite Hms.
    pose proof (live_count_insert i (memories P) (um_id m) (m <| um_is_flagged := b |>)) as Hl.
    assert (counts i (m <| um_is_flagged := b |>) = counts i m) as Hc' by by rewrite !counts_spec.
    rewrite Hm, Hc' in Hl. apply (Nat.add_cancel_r _ _ (counts i m)). symmetry. exact Hl.
Qed.

(** One committed operation on the passports' tables.  Grants may change in any
    way: they are no part of what is kept. *)
Inductive passport_step (P : Passport) : Passport -> Prop :=
  | step_deliver job_payload dl :
      fresh_draws (dl_draws dl) 0 P ->
      passport_step P (run_universal_extraction_pipeline extract embed encrypt job_payload dl P).1
  | step_correct d memory_id text user :
      pp_users P !! uu_id user = Some user -> fresh_correction d P ->
      passport_step P (committed (correct_my_memory embed encrypt d memory_id text user) P).1
  | step_delete d memory_id user :
      pp_users P !! uu_id user = Some user ->
      passport_step P (committed (delete_my_memory d memory_id user) P).1
  | step_flag flag_id now memory_id user reason correction :
      passport_step P (committed (flag_my_memory flag_id now memory_id user reason correction) P).1
  | step_unflag now memory_id user :
      passport_step P (committed (unflag_my_memory now memory_id user) P).1
  | step_grants g : passport_step P (P <| pp_grants := g |>).

Lemma counted_insert P P' user n :
  counted P -> pp_users P !! uu_id user = Some user ->
  pp_users P' = <[uu_id user := user <| uu_memory_count := n |>]> (pp_users P) ->
  (forall u, u <> uu_id user -> live_count u (memories P') = live_count u (memories P)) ->
  n = Z.of_nat (live_count (uu_id user) (memories P')) -> counted P'.
Proof.
  intros HC Hu Hus Hother -> i u. rewrite Hus.
  intros [[<- <-]|[Hi Hi']]%lookup_insert_Some; [done|].
  destruct (HC i u Hi') as [? ->]. by rewrite Hother.
Qed.

Lemma passport_step_ok P P' : passport_step P P' -> passport_ok P -> passport_ok P'.
Proof.
  intros Hstep HP. pose proof HP as [HL HC].
  destruct Hstep as [job dl HF|d mid text user Hu Hd|d mid user Hu|fid now mid user reason corr|now mid user|g].
  - destruct (run_universal_extraction_pipeline _ _ _ job dl P) as [P' res] eqn:Hrun.
    apply run_pipeline_spec in Hrun as [->|(user & agent & grant & n & [[Hu _] _ _ _ _ (P1 & Hs & ->)])]; [done| |done..].
    split; [apply Hs|].
    eapply (counted_insert P _ user); [done|done|..].
    + cbn. by rewrite (sd_users _ _ _ _ _ _ _ Hs).
    + intros u Hne. apply Nat2Z.inj. change (memories _) with (memories P1) at 1.
      rewrite (sd_count _ _ _ _ _ _ _ Hs). rewrite decide_False by done. lia.
    + destruct (HC _ _ Hu) as [_ ->]. symmetry. change (memories (fst _)) with (memories P1).
      rewrite (sd_count _ _ _ _ _ _ _ Hs). by rewrite decide_True.
  - unfold committed. destruct (correct_my_memory _ _ _ _ _ _ P) as [P' [e|id]] eqn:Hrun; [done|].
    apply correct_my_memory_ok in Hrun as (m & i & Hm & Hmu & Hml & -> & HD); [|done..].
    destruct HD as [HL' Hus (new' & Hms & Hsa & Hlive) _ _ _ _]. split; [done|]. cbn [fst].
    intros j u. rewrite Hus. intros Hj. destruct (HC j u Hj) as [? ->]. split; [done|]. f_equal. rewrite Hms.
    pose proof (ok_memory_key _ _ _ _ HL i m Hm) as <-.
    pose proof (live_count_insert j (memories P) (um_id m) (superseded_by_correction d m)) as H1.
    pose proof (live_count_insert j (<[um_id m := superseded_by_correction d m]> (memories P))
                  (cr_new_memory_id d) new') as H2.
    rewrite Hm in H1. rewrite lookup_insert_ne in H2 by (destruct Hd; congruence).
    rewrite (fc_memory _ _ Hd) in H2. simpl in H1, H2. rewrite !counts_spec in *.
    rewrite Hlive, (sa_user _ _ Hsa) in H2. rewrite Hml in H1. cbn in H1, H2. rewrite Hmu in H1.
    case_bool_decide; simpl in *; lia.
  - unfold committed. destruct (delete_my_memory _ _ _ P) as [P' [e|id]] eqn:Hrun; [done|].
    apply delete_my_memory_ok in Hrun as (m & i & Hm & Hmu & Hml & -> & [HL' Hus (m' & Hms & Ha) _ _ _]); [|done..].
    pose proof (ok_memory_key _ _ _ _ HL i m Hm) as <-.
    assert (forall u, live_count u (memories P') + (if bool_decide (uu_id user = u) then 1 else 0)
                      = live_count u (memories P)) as Hcnt.
    { intros u. pose proof (live_count_insert u (memories P) (um_id m) m') as H1. rewrite <- Hms, Hm in H1.
      simpl in H1. rewrite !counts_spec, Ha, Hml, Hmu in H1. simpl in H1.
      rewrite andb_false_r, andb_true_r in H1. case_bool_decide; lia. }
    split; [done|]. cbn [fst].
    eapply (counted_insert P _ user); [done|done|done|..].
    + intros u Hne. rewrite <- (Hcnt u). case_bool_decide; [by subst|lia].
    + destruct (HC _ _ Hu) as [_ ->]. rewrite <- (Hcnt (uu_id user)).
      rewrite bool_decide_eq_true_2 by done. lia.
  - unfold committed. destruct (flag_my_memory _ _ _ _ _ _ P) as [P' [e|id]] eqn:Hrun; [done|].
    unfold flag_my_memory in Hrun.
    apply M_bind_inv in Hrun as (P1 & m & (-> & Hmu & Hml & i & Hi)%get_memory_inv & Hrun).
    apply M_bind_inv in Hrun as (P1 & P2 & [= <- <-] & Hrun).
    apply M_bind_inv in Hrun as (P1 & fl & [-> _]%scalar_one_inv & Hrun).
    injection Hrun as <- <-. by eapply (flagged_ok true P _ m i).
  - unfold committed. destruct (unflag_my_memory _ _ _ P) as [P' [e|id]] eqn:Hrun; [done|].
    unfold unflag_my_memory in Hrun.
    apply M_bind_inv in Hrun as (P1 & m & (-> & Hmu & Hml & i & Hi)%get_memory_inv & Hrun).
    injection Hrun as <- <-. by eapply (flagged_ok false P _ m i).
  - split; [exact HL|exact HC].
Qed.

(** C10: Whatever agents deliver and holders correct, delete, flag and unflag, in
    any order and under any changing grants, a consistent passport stays
    consistent: every claim that displays a memory displays a live memory of its
    holder that asserts the claim, with an activated winning revision; a claim
    that displays nothing is not active; claims are unique per proposition; and
    every holder's [memory_count] is the number of the holder's live memories. *)
Theorem passport_stays_consistent P P' : rtc passport_step P P' -> passport_ok P -> passport_ok P'.
Proof. induction 1 as [|P1 P2 P3 Hstep _ IH]; [done|]. intros HP. eauto using passport_step_ok. Qed.

(** The id a job names under [key]. *)
Definition named_id (key : string) (job_payload : obj) : option uuid :=
  parse_uuid_str (py_strip (str_or_empty (jget_or_null key job_payload))).

(** C9: Either a delivery changes no memory, claim or revision, or every memory
    it stores is about the user and by the agent whose ids the job's
    [user_uui_id] and [agent_id] spell, the user is active, its category is one
    the holder allowed the agent, every revision written names the grant it was
    written under, and no stored memory is touched.  Both looks at the grants,
    the one before the first write and the one after the last, found an active
    read-write grant of that holder to that agent.  An expiry is compared with
    the instant the transaction began, PostgreSQL's [now()], at both: revocation
    during the extraction drops the writes, expiry during it does not
    ([expiry_during_extraction_is_missed]). *)
Theorem writes_need_a_grant job_payload dl P P' result :
  passport_ok P -> fresh_draws (dl_draws dl) 0 P ->
  run_universal_extraction_pipeline extract embed encrypt job_payload dl P = (P', result) ->
  (memories P' = memories P /\ pp_claims P' = pp_claims P /\ pp_revisions P' = pp_revisions P) \/
  exists user agent grant final,
    named_id "user_uui_id" job_payload = Some (uu_id user) /\ named_id "agent_id" job_payload = Some agent /\
    pp_users P !! uu_id user = Some user /\ uu_is_active user = true /\
    (exists i, pp_grants P !! i = Some grant) /\ write_grant (dl_now dl) (uu_id user) agent grant /\
    (exists i, dl_commit_grants dl !! i = Some final) /\ write_grant (dl_now dl) (uu_id user) agent final /\
    (forall i m, memories P !! i = Some m -> memories P' !! i = Some m) /\
    (forall i m, memories P' !! i = Some m -> memories P !! i = Some m \/
       um_user_uui_id m = uu_id user /\ um_source_agent_id m = Some agent /\
       um_category m ∈ pg_categories_allowed grant) /\
    (forall k r, pp_revisions P' !! k = Some r -> pp_revisions P !! k = Some r \/
       ur_permission_grant_id r = Some (pg_id grant) /\ ur_source_agent_id r = Some agent).
Proof.
  intros HP HF Hrun. eapply run_pipeline_spec in Hrun as [->|(user & agent & grant & n & HD)]; [by left| |done..].
  right. destruct HD as [[Hu Ha] [Hju Hja] [Hg Hw] (i & g & Hi & Hwg) _ (P1 & Hs & ->)].
  exists user, agent, grant, g. do 6 (split; [done|]). split; [by exists i|]. split; [done|].
  split_and!.
  - intros j m Hj. exact (sd_kept _ _ _ _ _ _ _ Hs j m Hj).
  - intros j m [Hj|[? ? [? _] _]]%(sd_new _ _ _ _ _ _ _ Hs); [by left|right; done].
  - intros k r [Hk|Hk]%(sd_revisions _ _ _ _ _ _ _ Hs); [by left|by right].
Qed.

Lemma existing_count_zero user agent event_id P :
  event_id <> EmptyString -> _existing_event_memory_count user agent event_id P = 0 ->
  forall i m, memories P !! i = Some m -> of_event user agent event_id m = true -> False.
Proof.
  intros Hne Hc i m Hi Hm. unfold _existing_event_memory_count in Hc.
  rewrite bool_decide_eq_false_2 in Hc by done. apply nil_length_inv in Hc.
  assert (m ∈ rows_where (of_event user agent event_id) (memories P)) as Hin by (apply elem_of_rows_where; eauto).
  rewrite Hc in Hin. by apply elem_of_nil in Hin.
Qed.

(** A delivery of an event whose memories an earlier delivery stored
    changes no memory, claim or revision: jobs may be delivered any number of
    times. *)
Theorem redelivered_events_store_nothing job_payload dl dl' P P1 P2 result result' :
  passport_ok P -> fresh_draws (dl_draws dl) 0 P -> _event_identity job_payload <> EmptyString ->
  run_universal_extraction_pipeline extract embed encrypt job_payload dl P = (P1, result) ->
  memories P1 <> memories P ->
  fresh_draws (dl_draws dl') 0 P1 ->
  run_universal_extraction_pipeline extract embed encrypt job_payload dl' P1 = (P2, result') ->
  P2 = P1 <| pp_grants := dl_commit_grants dl' |>.
Proof.
  intros HP HF Hev Hrun Hstored HF' Hrun'.
  assert (passport_ok P1) as HP1.
  { apply (passport_step_ok P); [|done].
    pose proof (step_deliver P job_payload dl HF) as Hs. by rewrite Hrun in Hs. }
  eapply run_pipeline_spec in Hrun as [->|(user & agent & grant & n & HD)]; [done| |done..].
  eapply run_pipeline_spec in Hrun' as [->|(user' & agent' & grant' & n' & HD')]; [done| |done..].
  exfalso. destruct HD as [_ [Hu Ha] _ _ _ (P0 & Hs & ->)]. destruct HD' as [_ [Hu' Ha'] _ _ Hfirst _].
  assert (uu_id user' = uu_id user) as Heu by congruence. assert (agent' = agent) as -> by congruence.
  rewrite Heu in Hfirst. apply Hstored, map_eq. intros i.
  change (memories P0 !! i = memories P !! i).
  destruct (memories P0 !! i) as [m|] eqn:Hi.
  - destruct (sd_new _ _ _ _ _ _ _ Hs i m Hi) as [->|Hw]; [done|]. exfalso.
    eapply (existing_count_zero _ _ _ _ Hev Hfirst i m Hi). apply Hw.
  - destruct (memories P !! i) as [m|] eqn:Hi'; [|done].
    apply (sd_kept _ _ _ _ _ _ _ Hs) in Hi'. congruence.
Qed.

(** A correction replaces the memory: the corrected memory is archived,
    displayed by no claim, has no pending flag and its vector is queued for
    deletion, while the new memory is live, displayed by the claim of its
    proposition with the corrected text, and its vector is queued. *)
Theorem correction_replaces_the_memory d memory_id text user P P' new_id :
  passport_ok P -> pp_users P !! uu_id user = Some user -> fresh_correction d P ->
  committed (correct_my_memory embed encrypt d memory_id text user) P = (P', inr new_id) ->
  exists m new', um_user_uui_id m = uu_id user /\ memories P !! um_id m = Some m /\
    memories P' = <[new_id := new']> (<[um_id m := superseded_by_correction d m]> (memories P)) /\
    um_is_archived new' = false /\ um_user_uui_id new' = uu_id user /\
    (exists c, pp_claims P' !! uc_id c = Some c /\ about c new' /\ uc_active_memory_id c = Some new_id /\
               uc_status c = ClaimStatus.active /\ uc_active_value c = Some (py_strip (py_strip text))) /\
    (forall i c, pp_claims P' !! i = Some c -> uc_active_memory_id c <> Some (um_id m)) /\
    (forall i f, pp_flags P' !! i = Some f -> pending_flag (um_id m) (uu_id user) f = false) /\
    (exists vector payload,
       fst <$> embed (py_strip text) = Some vector /\
       pp_outbox P' = enqueue_vector_upsert (cr_upsert_id d) (cr_now d) new_id vector payload
         (enqueue_vector_delete (cr_delete_id d) (cr_now d) (um_id m)
            (Some [("qdrant_collection", JStr UNIVERSAL_COLLECTION_NAME); ("privacy_delete", JBool true)])
            (pp_outbox P))).
Proof.
  intros HP Hu Hd. unfold committed.
  destruct (correct_my_memory _ _ _ _ _ _ P) as [P1 [e|id]] eqn:Hrun; [done|]. intros [= <- <-].
  apply correct_my_memory_ok in Hrun as (m & i & Hm & Hmu & Hml & -> & HD); [|done..].
  pose proof (ok_memory_key _ _ _ _ (proj1 HP) i m Hm) as <-.
  destruct HD as [HL _ (new' & Hms & Hsa & Hlive) (c & Hc & Hcu & Hca & Hcs & Hcv) Hhid Hfl Hob].
  exists m, new'. do 4 (split; [done|]). split; [apply (sa_user _ _ Hsa)|]. split; [|done].
  exists c. split; [done|]. split; [|done]. by rewrite (same_assertion_about _ _ c Hsa).
Qed.

(** A deletion hides the memory: it is archived, displayed by no claim, has
    no pending flag, and its vector is queued for a privacy delete; no other
    memory changes. *)
Theorem deletion_hides_the_memory d memory_id user P P' id :
  passport_ok P -> pp_users P !! uu_id user = Some user ->
  committed (delete_my_memory d memory_id user) P = (P', inr id) ->
  exists m m', memories P !! id = Some m /\ um_user_uui_id m = uu_id user /\
    memories P' = <[id := m']> (memories P) /\ um_is_archived m' = true /\
    (forall i c, pp_claims P' !! i = Some c -> uc_active_memory_id c <> Some id) /\
    (forall i f, pp_flags P' !! i = Some f -> pending_flag id (uu_id user) f = false) /\
    pp_outbox P' = enqueue_vector_delete (dd_outbox_id d) (dd_now d) id
      (Some [("qdrant_collection", JStr UNIVERSAL_COLLECTION_NAME); ("privacy_delete", JBool true)])
      (pp_outbox P).
Proof.
  intros HP Hu. unfold committed.
  destruct (delete_my_memory _ _ _ P) as [P1 [e|i]] eqn:Hrun; [done|]. intros [= <- <-].
  apply delete_my_memory_ok in Hrun as (m & i' & Hm & Hmu & Hml & -> & HD); [|done..].
  pose proof (ok_memory_key _ _ _ _ (proj1 HP) i' m Hm) as <-.
  destruct HD as [HL _ (m' & Hms & Ha) Hhid Hfl Hob]. by exists m, m'.
Qed.
End Runs.

(** ** A concrete passport *)

Section Examples.
#[local] Existing Instance unary_uuids.

Definition holder : UniversalUser :=
  {| uu_id := 1; uu_uui_token := "uui_1"; uu_email := None; uu_display_name := None; uu_otp_code := None;
     uu_otp_expires_at := None; uu_is_active := true; uu_memory_count := 0 |}.

(** Agent 2 may write preferences until instant 50. *)
Definition example_grant : PermissionGrant :=
  {| pg_id := 4; pg_user_uui_id := 1; pg_agent_id := 2; pg_categories_allowed := ["preference"];
     pg_access_type := "read_write"; pg_granted_at := 0; pg_expires_at := Some 50%Z; pg_is_active := true;
     pg_revoked_at := None |}.

Definition example_passport : Passport :=
  {| pp_users := {[1%Z := holder]};
     pp_agents := {[2%Z := {| ga_id := 2; ga_owner_tenant_id := 3; ga_name := "agent"; ga_description := None;
                              ga_logo_url := None; ga_website_url := None; ga_default_categories_requested := [];
                              ga_redirect_uri := EmptyString; ga_is_verified := false; ga_is_public := true;
                              ga_is_active := true |}]};
     pp_grants := {[4%Z := example_grant]}; pp_db := {| ud_memories := ∅; ud_versions := ∅ |};
     pp_claims := ∅; pp_revisions := ∅; pp_flags := ∅; pp_tenants := ∅; pp_proxy_users := ∅; pp_links := ∅;
     pp_directories := ∅; pp_connections := ∅; pp_outbox := ∅ |}.

Definition example_memory (content category : string) : ExtractedMemory :=
  {| x_content := content; x_category := category; x_importance_score := 5; x_confidence := 9 # 10;
     x_expiry := "permanent"; x_reasoning := "said so"; x_validated_evidence := [] |}.

Definition example_extract (messages : list json) (user : string) : option (list ExtractedMemory) :=
  Some [example_memory "Prefers tea" "preference"; example_memory "Run a marathon" "goal"].
Definition example_vector (text : string) : option (list Q * Z) := Some ([1%Q], 1%Z).
Definition no_envelope (user kind id text : string) : option json := None.

(** Ids of the [k]-th delivery: they start at [1000 * k]. *)
Definition example_draw (k : Z) (j : nat) : Draw :=
  let id := (1000 * k + 10 * Z.of_nat j)%Z in
  {| dr_memory_id := id; dr_version_id := id; dr_outbox_id := id; dr_created_at := 60;
     dr_stamp := {| st_claim_id := id; st_revision_id := id; st_now := 60 |} |}.

Definition example_job : obj :=
  [("user_uui_id", JStr "11"); ("agent_id", JStr "111"); ("job_id", JStr "job-1")].

Definition example_delivery (k : Z) : Delivery :=
  {| dl_now := 10; dl_commit_grants := {[4%Z := example_grant]}; dl_draws := example_draw k; dl_shadow := None |}.

Definition deliver (k : Z) (P : Passport) : Passport * (passport_exn + obj) :=
  run_universal_extraction_pipeline example_extract example_vector no_envelope example_job (example_delivery k) P.

Lemma empty_passport_ok P :
  memories P = ∅ -> pp_claims P = ∅ -> pp_revisions P = ∅ -> pp_users P = {[1%Z := holder]} -> passport_ok P.
Proof.
  intros Hm Hc Hr Hu. split.
  - unfold passport_ledger. rewrite Hm, Hc, Hr. split; intros *; rewrite ?lookup_empty; done.
  - intros i u. rewrite Hu, Hm. intros [<- <-]%lookup_singleton_Some. done.
Qed.

Lemma example_passport_ok : passport_ok example_passport.
Proof. by apply empty_passport_ok. Qed.

Lemma example_draws_fresh k P :
  memories P = ∅ -> pp_claims P = ∅ -> pp_revisions P = ∅ -> fresh_draws (example_draw k) 0 P.
Proof.
  intros Hm Hc Hr. split; rewrite ?Hm, ?Hc, ?Hr; try done; cbn; intros j j' ?; lia.
Qed.

(** The first delivery stores the preference and not the goal. *)
Definition first_delivery : Passport := (deliver 1 example_passport).1.

Lemma first_delivery_rows :
  map_to_list (um_content <$> memories first_delivery) = [(1000%Z, "Prefers tea")] /\
  (uu_memory_count <$> pp_users first_delivery !! 1%Z) = Some 1%Z.
Proof. vm_compute. done. Qed.

Lemma first_delivery_ok : passport_ok first_delivery.
Proof.
  apply (passport_step_ok example_extract example_vector no_envelope example_passport);
    [|exact example_passport_ok].
  apply step_deliver. by apply example_draws_fresh.
Qed.

Definition example_correction : CorrectionDraw :=
  {| cr_now := 70; cr_new_memory_id := 5000; cr_archived_at := 71;
     cr_stamp := {| st_claim_id := 5000; st_revision_id := 5000; st_now := 72 |};
     cr_version_id := 5000; cr_new_version_id := 5001; cr_delete_id := 5000; cr_upsert_id := 5001 |}.

(** The holder's row after the first delivery. *)
Definition holder_1 : UniversalUser := holder <| uu_memory_count := 1%Z |>.

(** The id of the stored memory, as the request spells it. *)
Definition stored_id : string := unary_str 1000.

Definition after_correction : Passport :=
  (committed (correct_my_memory example_vector no_envelope example_correction stored_id
                "  Prefers green tea " holder_1) first_delivery).1.
Definition after_deletion : Passport :=
  (committed (delete_my_memory {| dd_now := 80; dd_version_id := 6000; dd_outbox_id := 6000 |} stored_id holder_1)
     first_delivery).1.

Lemma correction_returns :
  (committed (correct_my_memory example_vector no_envelope example_correction stored_id
                "  Prefers green tea " holder_1) first_delivery).2 = inr 5000%Z.
Proof. vm_compute. reflexivity. Qed.

Lemma deletion_returns :
  (committed (delete_my_memory {| dd_now := 80; dd_version_id := 6000; dd_outbox_id := 6000 |} stored_id holder_1)
     first_delivery).2 = inr 1000%Z.
Proof. vm_compute. reflexivity. Qed.

Lemma first_delivery_holder : pp_users first_delivery !! 1%Z = Some holder_1.
Proof. vm_compute. reflexivity. Qed.

Lemma example_correction_fresh : fresh_correction example_correction first_delivery.
Proof. split; vm_compute; reflexivity. Qed.

Lemma passport_stays_consistent_witness :
  rtc (passport_step example_extract example_vector no_envelope) example_passport after_correction /\
  passport_ok after_correction.
Proof.
  assert (rtc (passport_step example_extract example_vector no_envelope) example_passport after_correction) as Hr.
  { eapply rtc_l; [apply (step_deliver _ _ _ _ example_job (example_delivery 1)); by apply example_draws_fresh|].
    eapply rtc_l; [|apply rtc_refl].
    apply (step_correct _ _ _ first_delivery example_correction stored_id "  Prefers green tea " holder_1);
      [exact first_delivery_holder|exact example_correction_fresh]. }
  split; [exact Hr|]. exact (passport_stays_consistent _ _ _ _ _ Hr example_passport_ok).
Defined.

Lemma writes_need_a_grant_witness :
  passport_ok example_passport /\ fresh_draws (dl_draws (example_delivery 1)) 0 example_passport /\
  ((memories first_delivery = memories example_passport /\ pp_claims first_delivery = pp_claims example_passport /\
    pp_revisions first_delivery = pp_revisions example_passport) \/
   exists user agent grant final,
     named_id "user_uui_id" example_job = Some (uu_id user) /\ named_id "agent_id" example_job = Some agent /\
     pp_users example_passport !! uu_id user = Some user /\ uu_is_active user = true /\
     (exists i, pp_grants example_passport !! i = Some grant) /\ write_grant 10 (uu_id user) agent grant /\
     (exists i, dl_commit_grants (example_delivery 1) !! i = Some final) /\
     write_grant 10 (uu_id user) agent final /\
     (forall i m, memories example_passport !! i = Some m -> memories first_delivery !! i = Some m) /\
     (forall i m, memories first_delivery !! i = Some m -> memories example_passport !! i = Some m \/
        um_user_uui_id m = uu_id user /\ um_source_agent_id m = Some agent /\
        um_category m ∈ pg_categories_allowed grant) /\
     (forall k r, pp_revisions first_delivery !! k = Some r -> pp_revisions example_passport !! k = Some r \/
        ur_permission_grant_id r = Some (pg_id grant) /\ ur_source_agent_id r = Some agent)).
Proof.
  split; [exact example_passport_ok|]. split; [by apply example_draws_fresh|].
  apply (writes_need_a_grant example_extract example_vector no_envelope example_job (example_delivery 1)
           example_passport first_delivery (deliver 1 example_passport).2);
    [exact example_passport_ok|by apply example_draws_fresh|]. unfold first_delivery, deliver. apply surjective_pairing.
Defined.

Lemma stored_something : memories first_delivery <> memories example_passport.
Proof.
  intros He. assert (map_to_list (um_content <$> memories first_delivery) = []) as Hl by by rewrite He.
  rewrite (proj1 first_delivery_rows) in Hl. done.
Qed.

Lemma only_key {A} (t : gmap uuid A) i j : dom t = {[i]} -> j <> i -> t !! j = None.
Proof. intros Hd Hj. apply not_elem_of_dom. rewrite Hd. by rewrite elem_of_singleton. Qed.

Lemma second_draws_fresh : fresh_draws (dl_draws (example_delivery 2)) 0 first_delivery.
Proof.
  split; cbn; try (intros j j' ?; lia); intros j _; apply (only_key _ 1000%Z); (lia || (vm_compute; reflexivity)).
Qed.

Lemma redelivered_events_store_nothing_witness :
  memories first_delivery <> memories example_passport /\
  (deliver 2 first_delivery).1 = first_delivery <| pp_grants := {[4%Z := example_grant]} |>.
Proof.
  split; [exact stored_something|].
  apply (redelivered_events_store_nothing example_extract example_vector no_envelope example_job
           (example_delivery 1) (example_delivery 2) example_passport first_delivery _
           (deliver 1 example_passport).2 (deliver 2 first_delivery).2);
    [exact example_passport_ok|by apply example_draws_fresh|done|apply surjective_pairing|
     exact stored_something|exact second_draws_fresh|apply surjective_pairing].
Defined.

Lemma correction_replaces_the_memory_witness :
  fresh_correction example_correction first_delivery /\
  exists m new', um_user_uui_id m = 1%Z /\ memories first_delivery !! um_id m = Some m /\
    memories after_correction = <[5000%Z := new']> (<[um_id m := superseded_by_correction example_correction m]> (memories first_delivery)) /\
    um_is_archived new' = false /\ um_user_uui_id new' = 1%Z /\
    (exists c, pp_claims after_correction !! uc_id c = Some c /\ about c new' /\ uc_active_memory_id c = Some 5000%Z /\
               uc_status c = ClaimStatus.active /\
               uc_active_value c = Some (py_strip (py_strip "  Prefers green tea "))) /\
    (forall i c, pp_claims after_correction !! i = Some c -> uc_active_memory_id c <> Some (um_id m)) /\
    (forall i f, pp_flags after_correction !! i = Some f -> pending_flag (um_id m) 1 f = false) /\
    (exists vector payload,
       fst <$> example_vector (py_strip "  Prefers green tea ") = Some vector /\
       pp_outbox after_correction = enqueue_vector_upsert 5001 70 5000 vector payload
         (enqueue_vector_delete 5000 70 (um_id m)
            (Some [("qdrant_collection", JStr UNIVERSAL_COLLECTION_NAME); ("privacy_delete", JBool true)])
            (pp_outbox first_delivery))).
Proof.
  split; [exact example_correction_fresh|].
  apply (correction_replaces_the_memory example_vector no_envelope example_correction stored_id
           "  Prefers green tea " holder_1 first_delivery after_correction 5000);
    [exact first_delivery_ok|exact first_delivery_holder|exact example_correction_fresh|].
  unfold after_correction. rewrite <- correction_returns. apply surjective_pairing.
Defined.

Lemma deletion_hides_the_memory_witness :
  passport_ok first_delivery /\
  exists m m', memories first_delivery !! 1000%Z = Some m /\ um_user_uui_id m = 1%Z /\
    memories after_deletion = <[1000%Z := m']> (memories first_delivery) /\ um_is_archived m' = true /\
    (forall i c, pp_claims after_deletion !! i = Some c -> uc_active_memory_id c <> Some 1000%Z) /\
    (forall i f, pp_flags after_deletion !! i = Some f -> pending_flag 1000 1 f = false) /\
    pp_outbox after_deletion = enqueue_vector_delete 6000 80 1000
      (Some [("qdrant_collection", JStr UNIVERSAL_COLLECTION_NAME); ("privacy_delete", JBool true)])
      (pp_outbox first_delivery).
Proof.
  split; [exact first_delivery_ok|].
  apply (deletion_hides_the_memory {| dd_now := 80; dd_version_id := 6000; dd_outbox_id := 6000 |} stored_id
           holder_1 first_delivery after_deletion 1000);
    [exact first_delivery_ok|exact first_delivery_holder|].
  unfold after_deletion. rewrite <- deletion_returns. apply surjective_pairing.
Defined.

(** The grants are read with the instant the transaction began: a grant that
    expires while the extraction runs still covers what is stored after its
    expiry. *)
Theorem expiry_during_extraction_is_missed :
  exists m t, memories first_delivery !! 1000%Z = Some m /\ pg_expires_at example_grant = Some t /\
              (t < um_created_at m)%Z /\ map_to_list (pp_grants first_delivery) = [(4%Z, example_grant)].
Proof. vm_compute. do 2 eexists. repeat split. Qed.

(** A correction is stripped after its length was checked: ten spaces replace
    the memory by an empty one. *)
Theorem blank_correction_stores_nothing_to_read :
  let spaces := "          " in
  (10 <= String.length spaces)%nat /\
  (um_content <$> memories (committed (correct_my_memory example_vector no_envelope example_correction stored_id
                                         spaces holder_1) first_delivery).1 !! 5000%Z) = Some EmptyString.
Proof. vm_compute. split; [lia|done]. Qed.
End Examples.
