(* ===== verification/DomainProjection.v ===== *)
(** * Projecting domain facts into universal memories

    [DomainProjectionService] of [api/services/domain_projection_service.py]:
    a tenant's domain schema (the education vocabulary) copies portable facts
    about a linked user into the user's passport, one universal memory per
    projection key. *)

From S2P Require Export PassportTheorems.

(** [api/services/domain_projection_types.py] *)
Record DomainMemoryProjection := {
  dp_projection_key : string;
  dp_content : string;
  dp_category : string;
  dp_importance_score : Q;
  dp_confidence : Q;
  dp_source_domain : string;
  dp_source_domain_record_id : string;
  dp_source_field : string;
  dp_portability : string;
  dp_sensitivity : string;
}.

Record DomainProjectionResult := {
  pr_created : Z;
  pr_updated : Z;
  pr_unchanged : Z;
  pr_skipped : Z;
  pr_skipped_reason : option string;
}.

(** The counters of the loop: created, updated, unchanged, skipped. *)
Record Counters := { ct_created : Z; ct_updated : Z; ct_unchanged : Z; ct_skipped : Z }.
Definition no_counters : Counters := {| ct_created := 0; ct_updated := 0; ct_unchanged := 0; ct_skipped := 0 |}.

(** The ids and the clock of one projection. *)
Record ProjectionDraw := {
  pj_memory_id : uuid;
  pj_now : datetime;
  pj_version_id : uuid;
  pj_stamp : Stamp;
  pj_outbox_id : uuid;
}.

Section Projection.
Context `{PyLib}.
Variable embed : string -> option (list Q * Z).
Variable encrypt_universal_text_for_dual_write : string -> string -> string -> string -> option json.

Definition ALLOWED_UNIVERSAL_CATEGORIES : list string :=
  ["preference"; "fact"; "goal"; "procedure"; "relationship"; "expertise"].

(** [str(value or default)] of a string *)
Definition text_or (d s : string) : string := if bool_decide (s = EmptyString) then d else s.

Definition _normalize_projection (p : DomainMemoryProjection) : option DomainMemoryProjection :=
  let content := py_join " " (py_split (dp_content p)) in
  let category := py_lower (py_strip (dp_category p)) in
  let projection_key := py_strip (dp_projection_key p) in
  if bool_decide (projection_key = EmptyString) || (String.length content <? 10)%nat
     || negb (bool_decide (category ∈ ALLOWED_UNIVERSAL_CATEGORIES))
  then None
  else Some {| dp_projection_key := projection_key; dp_content := py_take 500 content;
               dp_category := category; dp_importance_score := qclamp 1 10 (dp_importance_score p);
               dp_confidence := qclamp 0 1 (dp_confidence p);
               dp_source_domain := py_strip (dp_source_domain p);
               dp_source_domain_record_id := py_strip (dp_source_domain_record_id p);
               dp_source_field := py_strip (dp_source_field p);
               dp_portability := text_or "cross_agent" (dp_portability p);
               dp_sensitivity := text_or "normal" (dp_sensitivity p) |}.

Definition _uui_link (tenant proxy : uuid) : PM (option UUIProxyLink) :=
  P ← get_st;
  scalar_one (rows_where (fun l => bool_decide (lk_tenant_id l = tenant)
                                   && bool_decide (lk_proxy_user_id l = proxy)) (pp_links P)).

Definition _active_org_connection (tenant user proxy : uuid) : PM (option VerifiedOrgConnection) :=
  P ← get_st;
  scalar_one (rows_where (fun c => bool_decide (oc_tenant_id c = tenant) && bool_decide (oc_user_uui_id c = user)
                                   && bool_decide (oc_proxy_user_id c = Some proxy) && oc_is_active c)
                (pp_connections P)).

(** The first live memory of the agent that carries the key; the query has no
    order. *)
Definition _find_existing_projection (user agent : uuid) (projection_key : string) (P : Passport)
    : option UniversalMemory :=
  head (filter (fun m => jget "projection_key" (um_metadata_json m) = Some (JStr projection_key))
          (rows_where (fun m => bool_decide (um_user_uui_id m = user)
                                && bool_decide (um_source_agent_id m = Some agent)
                                && negb (um_is_archived m)) (memories P))).

Definition _metadata (now : datetime) (p : DomainMemoryProjection) (previous : obj) : obj :=
  extend [("derived_from_domain", JBool true); ("source_domain", JStr (dp_source_domain p));
          ("source_domain_record_id", JStr (dp_source_domain_record_id p));
          ("source_field", JStr (dp_source_field p)); ("projection_key", JStr (dp_projection_key p));
          ("portability", JStr (dp_portability p)); ("sensitivity", JStr (dp_sensitivity p));
          ("projected_at", JStr (isoformat now))] previous.

Definition _create_universal_memory (d : ProjectionDraw) (user agent : uuid) (connection : option uuid)
    (p : DomainMemoryProjection) : UniversalMemory :=
  {| um_id := pj_memory_id d; um_user_uui_id := user; um_source_agent_id := Some agent;
     um_source_org_connection_id := connection;
     um_source_type := match connection with Some _ => "org_connection" | None => "passport_agent" end;
     um_content := dp_content p;
     um_content_envelope := encrypt_universal_text_for_dual_write (uuid_str user) "universal_memory"
                              (uuid_str (pj_memory_id d)) (dp_content p);
     um_category := dp_category p; um_importance_score := dp_importance_score p;
     um_confidence := dp_confidence p; um_embedding_id := Some (uuid_str (pj_memory_id d));
     um_created_at := pj_now d; um_last_accessed_at := pj_now d; um_is_archived := false;
     um_is_flagged := false; um_metadata_json := _metadata (pj_now d) p [] |}.

Definition _projection_matches (m : UniversalMemory) (p : DomainMemoryProjection) : bool :=
  bool_decide (um_content m = dp_content p) && bool_decide (um_category m = dp_category p)
  && Qltb (Qabs (um_importance_score m - dp_importance_score p)) (1 # 100)
  && Qltb (Qabs (um_confidence m - dp_confidence p)) (1 # 100).

Definition updated_memory (now : datetime) (connection : option uuid) (p : DomainMemoryProjection)
    (m : UniversalMemory) : UniversalMemory :=
  let m := m <| um_content := dp_content p |>
             <| um_content_envelope := encrypt_universal_text_for_dual_write (uuid_str (um_user_uui_id m))
                  "universal_memory" (uuid_str (um_id m)) (dp_content p) |>
             <| um_category := dp_category p |> <| um_importance_score := dp_importance_score p |>
             <| um_confidence := dp_confidence p |> <| um_metadata_json ::= _metadata now p |> in
  match connection with
  | Some c => m <| um_source_type := "org_connection" |> <| um_source_org_connection_id := Some c |>
  | None => m
  end.

Definition _enqueue_vector (id : uuid) (now : datetime) (memory : UniversalMemory) (p : DomainMemoryProjection)
    : PM unit :=
  embedding ← lift_opt (JobError "embedding") (embed (dp_content p));
  modify_st (fun P => P <| pp_outbox ::= enqueue_vector_upsert id now (um_id memory) embedding.1
    [("memory_id", JStr (uuid_str (um_id memory))); ("user_uui_id", JStr (uuid_str (um_user_uui_id memory)));
     ("source_agent_id", opt_str (um_source_agent_id memory));
     ("source_org_connection_id", opt_str (um_source_org_connection_id memory));
     ("source_type", JStr (um_source_type memory)); ("category", JStr (dp_category p));
     ("importance_score", JFloat (dp_importance_score p));
     ("claim_status", default (JStr "active") (jget "claim_status" (um_metadata_json memory)));
     ("is_archived", JBool false); ("created_at", JStr (isoformat (um_created_at memory)));
     ("source_domain", JStr (dp_source_domain p)); ("projection_key", JStr (dp_projection_key p));
     ("qdrant_collection", JStr UNIVERSAL_COLLECTION_NAME)] |>).

(** Version, claim and vector of a projected memory; whether it is live. *)
Definition record_projection (d : ProjectionDraw) (now : datetime) (memory : UniversalMemory)
    (grant : PermissionGrant) (tenant agent : uuid) (p : DomainMemoryProjection) (change_type reason : string)
    : PM bool :=
  modify_st (put_memory memory);;
  in_versions (record_universal_version (pj_version_id d) memory change_type (Some reason) "agent" (Some agent));;
  claim_decision ← record_universal (pj_stamp d) memory (Some grant) (Some tenant) reason;
  update_memory (um_id memory) (with_decision claim_decision);;
  if cd_memory_is_active claim_decision : bool
  then _enqueue_vector (pj_outbox_id d) now (with_decision claim_decision memory) p;; mret true
  else mret false.

Definition project_one (d : ProjectionDraw) (now : datetime) (user tenant agent : uuid) (grant : PermissionGrant)
    (connection : option uuid) (projection : DomainMemoryProjection) (k : Counters) : PM Counters :=
  let skip := k <| ct_skipped ::= Z.succ |> in
  match _normalize_projection projection with
  | None => mret skip
  | Some p =>
      P ← get_st;
      match _find_existing_projection user agent (dp_projection_key p) P with
      | None =>
          active ← record_projection d now (_create_universal_memory d user agent connection p) grant tenant
                     agent p "created" ("Projected from " +:+ dp_source_domain p +:+ " schema");
          mret (if active : bool then k <| ct_created ::= Z.succ |> else skip)
      | Some existing =>
          if _projection_matches existing p then mret (k <| ct_unchanged ::= Z.succ |>)
          else
            active ← record_projection d now (updated_memory (pj_now d) connection p existing) grant tenant
                       agent p "agent_updated"
                       ("Updated from " +:+ dp_source_domain p +:+ " schema projection");
            mret (if active : bool then k <| ct_updated ::= Z.succ |> else skip)
      end
  end.

Fixpoint project_all (draws : nat -> ProjectionDraw) (i : nat) (now : datetime) (user tenant agent : uuid)
    (grant : PermissionGrant) (connection : option uuid) (projections : list DomainMemoryProjection)
    (k : Counters) : PM Counters :=
  match projections with
  | [] => mret k
  | p :: projections =>
      k ← project_one (draws i) now user tenant agent grant connection p k;
      project_all draws (S i) now user tenant agent grant connection projections k
  end.

Definition skipped_all (projections : list DomainMemoryProjection) (reason : string) : DomainProjectionResult :=
  {| pr_created := 0; pr_updated := 0; pr_unchanged := 0; pr_skipped := Z.of_nat (length projections);
     pr_skipped_reason := Some reason |}.

(** [now] is the instant the transaction began. *)
Definition project_to_universal_sync (draws : nat -> ProjectionDraw) (now : datetime)
    (tenant_id proxy_user_id : string) (agent_id : option string) (projections : list DomainMemoryProjection)
    : PM DomainProjectionResult :=
  match projections with
  | [] => mret {| pr_created := 0; pr_updated := 0; pr_unchanged := 0; pr_skipped := 0; pr_skipped_reason := None |}
  | _ =>
      if negb (text_given agent_id) then mret (skipped_all projections "missing_agent_id") else
      match parse_uuid_str tenant_id, parse_uuid_str proxy_user_id, agent_id ≫= parse_uuid_str with
      | Some tenant, Some proxy, Some agent =>
          link ← _uui_link tenant proxy;
          match link with
          | None => mret (skipped_all projections "no_uui_link")
          | Some link =>
              let user := lk_user_uui_id link in
              grant ← _active_write_grant now user agent;
              match grant with
              | None => mret (skipped_all projections "write_not_permitted")
              | Some grant =>
                  connection ← _active_org_connection tenant user proxy;
                  k ← project_all draws 0 now user tenant agent grant (oc_id <$> connection) projections
                        no_counters;
                  modify_st (fun P =>
                    match pp_users P !! user with
                    | Some u =>
                        if bool_decide (ct_created k = 0%Z) then P
                        else P <| pp_users ::= insert user (u <| uu_memory_count ::= Z.add (ct_created k) |>) |>
                    | None => P
                    end);;
                  mret {| pr_created := ct_created k; pr_updated := ct_updated k; pr_unchanged := ct_unchanged k;
                          pr_skipped := ct_skipped k;
                          pr_skipped_reason :=
                            if bool_decide (ct_skipped k = Z.of_nat (length projections))
                            then Some "invalid_projection" else None |}
              end
          end
      | _, _, _ => mret (skipped_all projections "invalid_identity")
      end
  end.
End Projection.
