(* ===== verification/UniversalRows.v ===== *)
(** * The rows of universal memories are well typed

    The database checks every universal memory's category, importance,
    confidence and source.  No operation writes a row those checks refuse, so
    none of the modelled operations can fail at them. *)

From S2P Require Export DomainProjection.

(** The [CHECK] constraints of [universal_memories]. *)
Record typed_row (m : UniversalMemory) : Prop := {
  ty_category : um_category m ∈ ALLOWED_MEMORY_CATEGORIES;
  ty_importance : (0 < um_importance_score m <= 10)%Q;
  ty_confidence : (0 <= um_confidence m <= 1)%Q;
  ty_source : um_source_type m ∈ ["passport_agent"; "org_connection"; "user_correction"; "system"];
}.

Definition typed (P : Passport) : Prop := forall i m, memories P !! i = Some m -> typed_row m.

(** [m] keeps the invariant [I] and what it returns satisfies [Q]. *)
Definition yields {S E A} (I : S -> Prop) (Q : A -> Prop) (m : M S E A) : Prop :=
  forall s, I s -> I (m s).1 /\ forall a, (m s).2 = inr a -> Q a.

Section Yields.
Context {S E : Type} (I : S -> Prop).

Lemma yields_bind {A B} (Q : A -> Prop) (R : B -> Prop) (m : M S E A) (f : A -> M S E B) :
  yields I Q m -> (forall a, Q a -> yields I R (f a)) -> yields I R (m ≫= f).
Proof.
  intros Hm Hf s Hs. destruct (Hm s Hs) as [Hs1 Ha]. unfold mbind, M_bind.
  destruct (m s) as [s1 [e|a]]; [by split|]. by apply Hf; [apply Ha|].
Qed.

Lemma yields_ret {A} (Q : A -> Prop) (a : A) : Q a -> yields I Q (mret a : M S E A).
Proof. intros Ha s Hs. split; [done|]. by intros ? [= <-]. Qed.

Lemma yields_raise {A} (Q : A -> Prop) (e : E) : yields I Q (raise_st e : M S E A).
Proof. by intros s Hs. Qed.

Lemma yields_get : yields I I (get_st : M S E S).
Proof. intros s Hs. split; [done|]. by intros ? [= <-]. Qed.

Lemma yields_modify (f : S -> S) : (forall s, I s -> I (f s)) -> yields I (fun _ => True) (modify_st f : M S E unit).
Proof. intros Hf s Hs. split; [by apply Hf|done]. Qed.

Lemma yields_lift {A} (Q : A -> Prop) (e : E) (o : option A) :
  (forall a, o = Some a -> Q a) -> yields I Q (lift_opt e o : M S E A).
Proof. intros Ho. destruct o as [a|]; [by apply yields_ret, Ho|apply yields_raise]. Qed.

Lemma yields_weaken {A} (Q R : A -> Prop) (m : M S E A) :
  (forall a, Q a -> R a) -> yields I Q m -> yields I R m.
Proof. intros HQ Hm s Hs. destruct (Hm s Hs). eauto. Qed.
End Yields.

Ltac yields_step :=
  first [apply yields_raise | apply yields_get
        | eapply yields_bind; [|let a := fresh "a" in let H := fresh "H" in intros a H]].

Section Typing.
Context `{PyLib}.
Variable extract : list json -> string -> option (list ExtractedMemory).
Variable embed : string -> option (list Q * Z).
Variable encrypt : string -> string -> string -> string -> option json.

(** [ExtractedMemory] declares its confidence as [Field(ge=0, le=1)]. *)
Definition schema_valid : Prop :=
  forall messages user xs x, extract messages user = Some xs -> x ∈ xs -> (0 <= x_confidence x <= 1)%Q.

Definition keeps {A} (m : PM A) : Prop := yields typed (fun _ => True) m.

Lemma typed_put m P : typed_row m -> typed P -> typed (put_memory m P).
Proof.
  intros Hm HP i m0 Hi. change (<[um_id m := m]> (memories P) !! i = Some m0) in Hi.
  apply lookup_insert_Some in Hi as [[_ <-]|[_ Hi]]; [done|by apply (HP i)].
Qed.

Lemma typed_same P P' : memories P' = memories P -> typed P -> typed P'.
Proof. unfold typed. by intros ->. Qed.

Lemma typed_alter f i P : (forall m, typed_row m -> typed_row (f m)) -> typed P -> typed (alter_memory i f P).
Proof.
  intros Hf HP j m Hj. change (alter f i (memories P) !! j = Some m) in Hj.
  apply lookup_alter_Some in Hj as [(_ & m0 & Hm0 & ->)|[_ Hj]]; [apply Hf|]; by eapply HP.
Qed.

Lemma keeps_update i f : (forall m, typed_row m -> typed_row (f m)) -> keeps (update_memory i f).
Proof. intros Hf. apply yields_modify. intros P. by apply typed_alter. Qed.

Lemma keeps_other (f : Passport -> Passport) : (forall P, memories (f P) = memories P) -> keeps (modify_st f).
Proof. intros Hf. apply yields_modify. intros P. apply typed_same, Hf. Qed.

Lemma keeps_put m : typed_row m -> keeps (modify_st (put_memory m)).
Proof. intros Hm. apply yields_modify. intros P. by apply typed_put. Qed.

Lemma keeps_version id m t reason b agent : keeps (in_versions (record_universal_version id m t reason b agent)).
Proof.
  intros P HP. unfold in_versions, record_universal_version.
  destruct (valid_change _ _ _ _); (split; [by eapply typed_same|done]).
Qed.

Lemma keeps_scalar {A} (rows : list A) : keeps (scalar_one rows : PM (option A)).
Proof. destruct rows as [|a [|b l]]; [by apply yields_ret|by apply yields_ret|apply yields_raise]. Qed.

Lemma keeps_record e m grant tenant reason : typed_row m -> keeps (record_universal e m grant tenant reason).
Proof.
  intros Hm. unfold record_universal. yields_step; [apply yields_get|]. yields_step; [apply keeps_scalar|].
  unfold _record. destruct (match _ with Some _ => _ | None => _ end) as [[c active] status].
  yields_step; [|by apply yields_ret]. apply yields_modify. intros P HP.
  apply (typed_same (put_memory (m <| um_is_archived := negb active |>) P)); [done|].
  apply typed_put; [|done]. destruct Hm. by split.
Qed.

Lemma keeps_archive now m reason : keeps (archive_memory now m reason).
Proof.
  unfold archive_memory. yields_step; [apply yields_get|].
  destruct (revisions_with_claim _ _ _) as [|[r c] l]; [by apply yields_ret|].
  yields_step; [by apply keeps_other|]. case_bool_decide; [by apply keeps_other|by apply yields_ret].
Qed.

Lemma keeps_grant now user agent : keeps (_active_write_grant now user agent).
Proof. unfold _active_write_grant. yields_step; [apply yields_get|apply keeps_scalar]. Qed.

Lemma typed_decision d m : typed_row m -> typed_row (with_decision d m).
Proof. intros []. by split. Qed.

Lemma keeps_store_extracted now user agent_id agent event_id job_payload grant d x :
  (0 <= x_confidence x <= 1)%Q -> allowed_category grant x = true ->
  keeps (store_extracted embed encrypt now user agent_id agent event_id job_payload grant d x).
Proof.
  intros Hx [_ Hcat%bool_decide_eq_true]%andb_prop. unfold store_extracted.
  eapply (yields_bind _ (fun q => 1 <= q <= 10)%Q).
  { apply yields_lift. intros q Hq. unfold score in Hq. apply bind_Some in Hq as (b & _ & Hq).
    apply Some_inj in Hq as <-. apply normalize_score_bounds. }
  intros q Hq. yields_step; [by apply (yields_lift _ (fun _ => True))|].
  yields_step; [by apply (yields_lift _ (fun _ => True))|].
  assert (typed_row (extracted_memory_row encrypt d (uu_id user) agent_id agent event_id a0 q x)) as Hrow.
  { split; cbn; [done| |done|set_solver]. split; [|apply Hq]. apply Qlt_le_trans with 1%Q; [done|apply Hq]. }
  yields_step; [by apply keeps_put|]. yields_step; [apply keeps_version|].
  yields_step; [apply yields_get|]. yields_step; [by apply keeps_record|].
  yields_step; [apply keeps_update, typed_decision|].
  destruct (cd_memory_is_active _); [|by apply yields_ret].
  yields_step; [by apply keeps_other|by apply yields_ret].
Qed.

Lemma keeps_store_all now user agent_id agent event_id job_payload grant draws xs i :
  Forall (fun x => (0 <= x_confidence x <= 1)%Q /\ allowed_category grant x = true) xs ->
  keeps (store_all embed encrypt now user agent_id agent event_id job_payload grant draws i xs).
Proof.
  intros Hxs. revert i. induction Hxs as [|x xs [Hx Hc] _ IH]; intros i; [by apply yields_ret|].
  cbn [store_all]. yields_step; [by apply keeps_store_extracted|]. yields_step; [apply IH|by apply yields_ret].
Qed.

Lemma typed_delivery job_payload dl P :
  schema_valid -> typed P -> typed (run_universal_extraction_pipeline extract embed encrypt job_payload dl P).1.
Proof.
  intros Hschema HP. unfold run_universal_extraction_pipeline.
  assert (typed (P <| pp_grants := dl_commit_grants dl |>)) as Hdropped by by eapply typed_same.
  destruct (py_list _) as [messages|]; [|done]. destruct (_ || _); [done|].
  set (us := py_strip _). set (ag := py_strip _).
  assert (keeps (extraction_body extract embed encrypt job_payload dl us ag messages)) as Hbody.
  { unfold extraction_body.
    yields_step; [by apply (yields_lift _ (fun _ => True))|]. yields_step; [apply yields_get|].
    yields_step; [by apply (yields_lift _ (fun _ => True))|].
    yields_step; [by apply (yields_lift _ (fun _ => True))|].
    yields_step; [apply keeps_grant|]. destruct a3 as [grant|]; [|by apply yields_ret].
    yields_step; [apply yields_get|]. case_bool_decide; [by apply yields_ret|].
    eapply (yields_bind _ (fun xs => forall x, x ∈ xs -> (0 <= x_confidence x <= 1)%Q)).
    { apply yields_lift. intros xs Hxs x Hx. by eapply Hschema. }
    intros xs Hxs. yields_step.
    { apply keeps_store_all. apply Forall_forall. intros x Hx. apply list_elem_of_filter in Hx as [? Hx]. auto. }
    yields_step; [by apply keeps_other|]. yields_step; [apply keeps_grant|].
    destruct a6 as [g|]; [|by apply yields_ret]. yields_step; [by apply keeps_other|by apply yields_ret]. }
  destruct (Hbody P HP) as [HP' _].
  destruct (extraction_body _ _ _ _ _ _ _ _ P) as [P' [e|[[] res]]]; [done| |done]. by eapply typed_same.
Qed.

Lemma yields_memory memory_id user : yields typed typed_row (_get_user_universal_memory memory_id user false).
Proof.
  unfold _get_user_universal_memory. yields_step; [by apply (yields_lift _ (fun _ => True))|].
  eapply yields_bind; [apply yields_get|]. intros P HP. apply yields_lift. intros m Hm.
  apply bind_Some in Hm as (m0 & Hi & Hm). case_match; [|done]. simplify_eq. by eapply HP.
Qed.

Lemma typed_one_if_zero q hi : (0 <= q <= hi)%Q -> (1 <= hi)%Q -> (0 < one_if_zero q <= hi)%Q.
Proof.
  intros [H1 H2] Hhi. unfold one_if_zero. destruct (Qeq_bool q 0) eqn:Hq; [split; [done|exact Hhi]|].
  split; [|done]. apply Qeq_bool_neq in Hq. apply Qle_lteq in H1 as [H1|H1]; [done|]. by symmetry in H1.
Qed.

Lemma keeps_settle m u s now : keeps (settle_flags m u s now).
Proof. by apply keeps_other. Qed.
Lemma keeps_enqueue_delete id now m : keeps (enqueue_passport_delete id now m).
Proof. by apply keeps_other. Qed.

Lemma keeps_correct d memory_id text user : keeps (correct_my_memory embed encrypt d memory_id text user).
Proof.
  unfold correct_my_memory. eapply yields_bind; [apply yields_memory|]. intros m Hm.
  yields_step; [by apply (yields_lift _ (fun _ => True))|].
  assert (typed_row (superseded_by_correction d m)) as Hold by (destruct Hm; by split).
  assert (typed_row (corrected_row encrypt d user m (py_strip text))) as Hnew.
  { destruct Hm as [H1 [H2 H3] [H4 H5] H6]. split; cbn; [done|..|set_solver].
    - apply typed_one_if_zero; [|done]. split; [by apply Qlt_le_weak|done].
    - destruct (typed_one_if_zero (um_confidence m) 1) as [H7 H8]; [done|done|].
      split; [by apply Qlt_le_weak|done]. }
  yields_step; [apply yields_modify; intros P HP; apply typed_put; [exact Hnew|by apply typed_put]|].
  yields_step; [apply keeps_archive|]. yields_step; [apply yields_get|].
  yields_step; [by apply keeps_record|]. yields_step; [apply keeps_update, typed_decision|].
  yields_step; [apply keeps_version|]. yields_step; [apply keeps_version|].
  yields_step; [apply keeps_settle|]. yields_step; [apply keeps_enqueue_delete|].
  yields_step; [by apply keeps_other|by apply yields_ret].
Qed.

Lemma keeps_delete d memory_id user : keeps (delete_my_memory d memory_id user).
Proof.
  unfold delete_my_memory. eapply yields_bind; [apply yields_memory|]. intros m Hm.
  yields_step; [apply keeps_version|]. yields_step; [apply keeps_put; destruct Hm; by split|].
  yields_step; [apply keeps_settle|]. yields_step; [apply keeps_archive|].
  yields_step; [by apply keeps_other|]. yields_step; [apply keeps_enqueue_delete|by apply yields_ret].
Qed.

Lemma typed_flagged b m : typed_row m -> typed_row (m <| um_is_flagged := b |>).
Proof. intros []. by split. Qed.

Lemma keeps_flag flag_id now memory_id user reason correction :
  keeps (flag_my_memory flag_id now memory_id user reason correction).
Proof.
  unfold flag_my_memory. yields_step; [eapply yields_weaken; [|apply yields_memory]; done|].
  yields_step; [apply yields_get|]. yields_step; [apply keeps_scalar|].
  yields_step; [by apply keeps_other|]. yields_step; [apply keeps_update, typed_flagged|by apply yields_ret].
Qed.

Lemma keeps_unflag now memory_id user : keeps (unflag_my_memory now memory_id user).
Proof.
  unfold unflag_my_memory. yields_step; [eapply yields_weaken; [|apply yields_memory]; done|].
  yields_step; [apply keeps_settle|]. yields_step; [apply keeps_update, typed_flagged|by apply yields_ret].
Qed.

(** What the normalisation of a projection guarantees. *)
Record normal_projection (p : DomainMemoryProjection) : Prop := {
  np_category : dp_category p ∈ ALLOWED_MEMORY_CATEGORIES;
  np_importance : (1 <= dp_importance_score p <= 10)%Q;
  np_confidence : (0 <= dp_confidence p <= 1)%Q;
  np_key : dp_projection_key p <> EmptyString;
}.

Lemma normalize_projection_normal p q : _normalize_projection p = Some q -> normal_projection q.
Proof.
  unfold _normalize_projection. destruct (_ || _ || _) eqn:Hc; [done|]. intros [= <-].
  apply orb_false_elim in Hc as [Hc Hcat]. apply orb_false_elim in Hc as [Hkey _].
  apply negb_false_iff, bool_decide_eq_true in Hcat. apply bool_decide_eq_false in Hkey.
  split; cbn [dp_category dp_importance_score dp_confidence dp_projection_key]; [done|..|done]; by apply qclamp_bounds.
Qed.

Lemma keeps_record_projection d now m grant tenant agent p t reason :
  typed_row m -> keeps (record_projection embed d now m grant tenant agent p t reason).
Proof.
  intros Hm. unfold record_projection. yields_step; [by apply keeps_put|]. yields_step; [apply keeps_version|].
  yields_step; [by apply keeps_record|]. yields_step; [apply keeps_update, typed_decision|].
  destruct (cd_memory_is_active _); [|by apply yields_ret].
  yields_step; [|by apply yields_ret]. unfold _enqueue_vector.
  yields_step; [by apply (yields_lift _ (fun _ => True))|by apply keeps_other].
Qed.

Lemma normal_row_bounds p : normal_projection p -> (0 < dp_importance_score p <= 10)%Q.
Proof. intros [_ [H1 H2] _ _]. split; [|done]. apply Qlt_le_trans with 1%Q; [done|exact H1]. Qed.

Lemma keeps_project_one d now user tenant agent grant connection p k :
  keeps (project_one embed encrypt d now user tenant agent grant connection p k).
Proof.
  unfold project_one. destruct (_normalize_projection p) as [q|] eqn:Hq; [|by apply yields_ret].
  apply normalize_projection_normal in Hq. pose proof (normal_row_bounds q Hq) as Hb. destruct Hq as [Hc _ Hf _].
  eapply yields_bind; [apply yields_get|]. intros P HP.
  destruct (_find_existing_projection _ _ _ P) as [m|] eqn:Hm.
  - assert (typed_row m) as Hmt.
    { unfold _find_existing_projection in Hm. apply head_Some_elem_of in Hm.
      apply list_elem_of_filter in Hm as [_ Hm]. apply elem_of_rows_where in Hm as (_ & i & Hi). by eapply HP. }
    destruct (_projection_matches m q); [by apply yields_ret|].
    yields_step; [apply keeps_record_projection|by apply yields_ret].
    destruct Hmt. destruct connection; split; try done; set_solver.
  - yields_step; [apply keeps_record_projection|by apply yields_ret].
    split; try done. cbn. destruct connection; set_solver.
Qed.

Lemma keeps_project_all draws i now user tenant agent grant connection ps k :
  keeps (project_all embed encrypt draws i now user tenant agent grant connection ps k).
Proof.
  revert i k. induction ps as [|p ps IH]; intros i k; [by apply yields_ret|].
  cbn [project_all]. yields_step; [apply keeps_project_one|apply IH].
Qed.

Lemma keeps_projection draws now tenant_id proxy_user_id agent_id ps :
  keeps (project_to_universal_sync embed encrypt draws now tenant_id proxy_user_id agent_id ps).
Proof.
  unfold project_to_universal_sync. destruct ps as [|p ps]; [by apply yields_ret|].
  destruct (negb _); [by apply yields_ret|].
  destruct (parse_uuid_str tenant_id) as [t|]; [|by apply yields_ret].
  destruct (parse_uuid_str proxy_user_id) as [pr|]; [|by apply yields_ret].
  destruct (agent_id ≫= parse_uuid_str) as [a|]; [|by apply yields_ret].
  yields_step; [unfold _uui_link; yields_step; [apply yields_get|apply keeps_scalar]|].
  destruct a0 as [link|]; [|by apply yields_ret].
  yields_step; [apply keeps_grant|]. destruct a0 as [grant|]; [|by apply yields_ret].
  yields_step; [unfold _active_org_connection; yields_step; [apply yields_get|apply keeps_scalar]|].
  yields_step; [apply keeps_project_all|].
  yields_step; [|by apply yields_ret]. apply yields_modify. intros P. apply typed_same.
  destruct (pp_users P !! _); [|done]. by case_bool_decide.
Qed.

(** One operation that writes universal memories. *)
Inductive row_step (P : Passport) : Passport -> Prop :=
  | row_passport P' : passport_step extract embed encrypt P P' -> row_step P P'
  | row_project draws now tenant_id proxy_user_id agent_id ps :
      row_step P (committed (project_to_universal_sync embed encrypt draws now tenant_id proxy_user_id agent_id ps) P).1.

Lemma committed_keeps {A} (m : PM A) P : keeps m -> typed P -> typed (committed m P).1.
Proof. intros Hm HP. destruct (Hm P HP) as [HP' _]. unfold committed. by destruct (m P) as [P' [e|a]]. Qed.

(** C11: If the extraction answers with schema-valid confidences, every row of
    [universal_memories] that deliveries, corrections, deletions, flags and
    domain projections ever write satisfies the table's [CHECK] constraints: a
    known category and source, an importance in (0, 10], a confidence in
    [0, 1]. *)
Theorem universal_rows_are_well_typed P P' : schema_valid -> rtc row_step P P' -> typed P -> typed P'.
Proof.
  intros Hschema. induction 1 as [|P1 P2 P3 Hstep _ IH]; [done|]. intros HP. apply IH.
  destruct Hstep as [P2 Hstep|]; [|by apply committed_keeps, HP; apply keeps_projection].
  destruct Hstep; [by apply typed_delivery|..|by eapply typed_same]; apply committed_keeps; try done.
  - apply keeps_correct.
  - apply keeps_delete.
  - apply keeps_flag.
  - apply keeps_unflag.
Qed.
End Typing.

Section Examples.
#[local] Existing Instance unary_uuids.

Lemma universal_rows_are_well_typed_witness :
  schema_valid example_extract /\
  rtc (row_step example_extract example_vector no_envelope) example_passport first_delivery /\
  typed first_delivery.
Proof.
  assert (schema_valid example_extract) as Hv.
  { intros messages user xs x Hxs Hx. apply Some_inj in Hxs as <-.
    apply elem_of_cons in Hx as [->|[->|[]%elem_of_nil]%elem_of_cons]; done. }
  assert (rtc (row_step example_extract example_vector no_envelope) example_passport first_delivery) as Hr.
  { apply rtc_once, row_passport.
    apply (step_deliver _ _ _ _ example_job (example_delivery 1)). by apply example_draws_fresh. }
  split; [exact Hv|]. split; [exact Hr|].
  apply (universal_rows_are_well_typed example_extract example_vector no_envelope example_passport first_delivery
           Hv Hr). intros i m Hi. done.
Defined.
End Examples.
