(* ===== verification/DomainProjectionTheorems.v ===== *)
(** * Domain projections: theorems

    Projections write only into the passport the user is linked to, under a
    write grant, and every projection of a call is accounted for.  Two
    shortfalls are shown on concrete passports. *)

From S2P Require Export UniversalRows.

Section Theorems.
Context `{PyLib}.
Variable embed : string -> option (list Q * Z).
Variable encrypt : string -> string -> string -> string -> option json.

(** Rows that differ in their archived flag and metadata only. *)
Record same_source (m m' : UniversalMemory) : Prop := {
  ss_user : um_user_uui_id m' = um_user_uui_id m;
  ss_agent : um_source_agent_id m' = um_source_agent_id m;
  ss_category : um_category m' = um_category m;
  ss_content : um_content m' = um_content m;
}.

Lemma record_universal_rows e m grant tenant reason P P' d :
  record_universal e m grant tenant reason P = (P', inr d) ->
  exists b, memories P' = <[um_id m := m <| um_is_archived := b |>]> (memories P).
Proof.
  unfold record_universal. intros Hrun.
  apply M_bind_inv in Hrun as (P1 & P2 & [= <- <-] & Hrun).
  apply M_bind_inv in Hrun as (P1 & claim & [-> _]%scalar_one_inv & Hrun).
  unfold _record in Hrun. destruct (match claim with Some _ => _ | None => _ end) as [[c active] status].
  injection Hrun as <- _. by exists (negb active).
Qed.

Lemma record_projection_rows d now m grant tenant agent p t reason P P' active :
  record_projection embed d now m grant tenant agent p t reason P = (P', inr active) ->
  exists m', memories P' = <[um_id m := m']> (memories P) /\ same_source m m'.
Proof.
  unfold record_projection. intros Hrun.
  apply M_bind_inv in Hrun as (P1 & [] & [= <-] & Hrun).
  apply M_bind_inv in Hrun as (P2 & v & Hv & Hrun).
  assert (memories P2 = <[um_id m := m]> (memories P)) as H2.
  { unfold in_versions, record_universal_version in Hv. destruct (valid_change _ _ _ _); [done|].
    by injection Hv as <- _. }
  apply M_bind_inv in Hrun as (P3 & dec & [b H3]%record_universal_rows & Hrun).
  rewrite H2, insert_insert_eq in H3.
  apply M_bind_inv in Hrun as (P4 & [] & H4 & Hrun).
  change (update_memory (um_id m) (with_decision dec) P3) with
    (alter_memory (um_id m) (with_decision dec) P3, @inr passport_exn unit tt) in H4.
  injection H4 as <-. set (m' := with_decision dec (m <| um_is_archived := b |>)).
  assert (memories (alter_memory (um_id m) (with_decision dec) P3) = <[um_id m := m']> (memories P)) as H4.
  { change (alter (with_decision dec) (um_id m) (memories P3) = <[um_id m := m']> (memories P)). rewrite H3.
    rewrite <- (insert_as_alter _ _ _ (m <| um_is_archived := b |>)) by apply lookup_insert_eq.
    by rewrite insert_insert_eq. }
  exists m'. split; [|done]. destruct (cd_memory_is_active dec); [|by injection Hrun as <- _].
  apply M_bind_inv in Hrun as (P5 & [] & H5 & Hrun). injection Hrun as <- _.
  unfold _enqueue_vector in H5. apply M_bind_inv in H5 as (P6 & emb & [-> _]%lift_opt_inv & H5).
  by injection H5 as <-.
Qed.

(** A row a projection may write about [user] for [agent]. *)
Record projected_row (user agent : uuid) (m : UniversalMemory) : Prop := {
  pw_user : um_user_uui_id m = user;
  pw_agent : um_source_agent_id m = Some agent;
  pw_category : um_category m ∈ ALLOWED_MEMORY_CATEGORIES;
}.

Definition within (user agent : uuid) (P P' : Passport) : Prop :=
  forall i m, memories P' !! i = Some m -> memories P !! i = Some m \/ projected_row user agent m.

Definition accounted (k : Counters) : Z := (ct_created k + ct_updated k + ct_unchanged k + ct_skipped k)%Z.

Lemma within_insert user agent P P' i m m' :
  memories P' = <[i := m']> (memories P) -> same_source m m' -> projected_row user agent m -> within user agent P P'.
Proof.
  intros Hms [Hu Ha Hc _] [] j m0. rewrite Hms. intros [[<- <-]|[_ Hj]]%lookup_insert_Some; [right|by left].
  split; congruence.
Qed.

Lemma project_one_within d now user tenant agent grant connection p k P P' k' :
  project_one embed encrypt d now user tenant agent grant connection p k P = (P', inr k') ->
  within user agent P P' /\ accounted k' = (accounted k + 1)%Z.
Proof.
  unfold project_one, accounted.
  destruct (_normalize_projection p) as [q|] eqn:Hq; [|intros [= <- <-]; cbn; split; [by left|lia]].
  apply normalize_projection_normal in Hq as [Hcat _ _ _]. intros Hrun.
  apply M_bind_inv in Hrun as (P1 & P2 & [= <- <-] & Hrun).
  destruct (_find_existing_projection _ _ _ P) as [m|] eqn:Hm.
  - unfold _find_existing_projection in Hm. apply head_Some_elem_of in Hm.
    apply list_elem_of_filter in Hm as [_ Hm]. apply elem_of_rows_where in Hm as (Hq & _).
    apply andb_prop in Hq as [Hq _]. apply andb_prop in Hq as [Hu%bool_decide_eq_true Ha%bool_decide_eq_true].
    destruct (_projection_matches m q); [injection Hrun as <- <-; cbn; split; [by left|lia]|].
    apply M_bind_inv in Hrun as (P1 & active & (m' & Hms & Hss)%record_projection_rows & Hrun).
    injection Hrun as <- <-. split; [|destruct active; cbn; lia].
    eapply within_insert; [exact Hms|exact Hss|]. destruct connection; by split.
  - apply M_bind_inv in Hrun as (P1 & active & (m' & Hms & Hss)%record_projection_rows & Hrun).
    injection Hrun as <- <-. split; [|destruct active; cbn; lia].
    by eapply within_insert; [exact Hms|exact Hss|].
Qed.

Lemma project_all_within draws i now user tenant agent grant connection ps k P P' k' :
  project_all embed encrypt draws i now user tenant agent grant connection ps k P = (P', inr k') ->
  within user agent P P' /\ accounted k' = (accounted k + Z.of_nat (length ps))%Z.
Proof.
  revert i k P. induction ps as [|p ps IH]; intros i k P.
  - intros [= <- <-]. split; [by left|simpl; lia].
  - cbn [project_all]. intros Hrun.
    apply M_bind_inv in Hrun as (P1 & k1 & [H1 Hk1]%project_one_within & Hrun).
    apply IH in Hrun as [H2 Hk2]. split; [|simpl; lia].
    intros j m [Hj|?]%H2; [|by right]. by apply H1.
Qed.

(** C12: A call that returns has written only rows of the passport holder the
    tenant's user is linked to, for the calling agent, under an active
    read-write grant and in a known category; and its counters account for
    every projection it was given. *)
Theorem projections_stay_within_the_link draws now tenant_id proxy_user_id agent_id ps P P' result :
  project_to_universal_sync embed encrypt draws now tenant_id proxy_user_id agent_id ps P = (P', inr result) ->
  (pr_created result + pr_updated result + pr_unchanged result + pr_skipped result)%Z = Z.of_nat (length ps) /\
  forall i m, memories P' !! i = Some m -> memories P !! i = Some m \/
    exists link grant tenant proxy,
      parse_uuid_str tenant_id = Some tenant /\ parse_uuid_str proxy_user_id = Some proxy /\
      (exists j, pp_links P !! j = Some link) /\ lk_tenant_id link = tenant /\ lk_proxy_user_id link = proxy /\
      um_user_uui_id m = lk_user_uui_id link /\ um_source_agent_id m = (agent_id ≫= parse_uuid_str) /\
      (exists j, pp_grants P !! j = Some grant) /\
      (exists agent, um_source_agent_id m = Some agent /\ write_grant now (um_user_uui_id m) agent grant) /\
      um_category m ∈ ALLOWED_MEMORY_CATEGORIES.
Proof.
  unfold project_to_universal_sync. destruct ps as [|p ps]; [intros [= <- <-]; split; [done|by left]|].
  set (all := p :: ps). destruct (negb _); [intros [= <- <-]; split; [done|by left]|].
  destruct (parse_uuid_str tenant_id) as [t|]; [|intros [= <- <-]; split; [done|by left]].
  destruct (parse_uuid_str proxy_user_id) as [pr|]; [|intros [= <- <-]; split; [done|by left]].
  destruct (agent_id ≫= parse_uuid_str) as [a|]; [|intros [= <- <-]; split; [done|by left]].
  intros Hrun. apply M_bind_inv in Hrun as (P1 & link & Hlink & Hrun).
  unfold _uui_link in Hlink. apply M_bind_inv in Hlink as (P2 & P3 & [= <- <-] & [-> Hlink]%scalar_one_inv).
  destruct link as [link|]; [|injection Hrun as <- <-; split; [done|by left]].
  assert (link ∈ rows_where (fun l => bool_decide (lk_tenant_id l = t) && bool_decide (lk_proxy_user_id l = pr))
                   (pp_links P)) as Hl by (rewrite Hlink; apply list_elem_of_here).
  apply elem_of_rows_where in Hl as ([Ht%bool_decide_eq_true Hp%bool_decide_eq_true]%andb_prop & Hl).
  apply M_bind_inv in Hrun as (P1 & [grant|] & [-> Hg]%active_write_grant_inv & Hrun);
    [|injection Hrun as <- <-; split; [done|by left]].
  apply M_bind_inv in Hrun as (P1 & conn & Hconn & Hrun).
  unfold _active_org_connection in Hconn.
  apply M_bind_inv in Hconn as (P2 & P3 & [= <- <-] & [-> _]%scalar_one_inv).
  apply M_bind_inv in Hrun as (P1 & k & [Hw Hk]%project_all_within & Hrun).
  injection Hrun as <- <-. split; [unfold accounted in Hk; simpl in *; lia|].
  intros i m Hi. assert (memories P1 !! i = Some m) as Hi1.
  { destruct (pp_users P1 !! _); [|done]. by case_bool_decide. }
  apply Hw in Hi1 as [Hi1|[Hu Ha Hc]]; [by left|right].
  destruct Hg as [Hg Hwn]. exists link, grant, t, pr. do 7 (split; [done|]). split; [done|].
  split; [|done]. exists a. by rewrite Hu.
Qed.
End Theorems.

(** ** Shortfalls *)

Section Examples.
#[local] Existing Instance unary_uuids.

(** User 1's passport, linked to user 7 of tenant 3; agent 2 may write
    preferences. *)
Definition linked_passport : Passport :=
  example_passport
    <| pp_links := {[8%Z := {| lk_id := 8; lk_tenant_id := 3; lk_proxy_user_id := 7; lk_user_uui_id := 1;
                               lk_linked_at := 0 |}]} |>.

Definition example_projection (key content category : string) : DomainMemoryProjection :=
  {| dp_projection_key := key; dp_content := content; dp_category := category; dp_importance_score := 5;
     dp_confidence := 1; dp_source_domain := "edtech"; dp_source_domain_record_id := "r"; dp_source_field := key;
     dp_portability := "cross_agent"; dp_sensitivity := "normal" |}.

Definition projection_draw (k : Z) (j : nat) : ProjectionDraw :=
  let id := (1000 * k + 10 * Z.of_nat j)%Z in
  {| pj_memory_id := id; pj_now := 20; pj_version_id := id;
     pj_stamp := {| st_claim_id := id; st_revision_id := id; st_now := 20 |}; pj_outbox_id := id |}.

Definition project (k : Z) (ps : list DomainMemoryProjection) (P : Passport)
    : Passport * (passport_exn + DomainProjectionResult) :=
  committed (project_to_universal_sync example_vector no_envelope (projection_draw k) 10
               (unary_str 3) (unary_str 7) (Some (unary_str 2)) ps) P.

Definition learner : list DomainMemoryProjection :=
  [example_projection "target_exam" "Prepares for the JEE exam" "preference";
   example_projection "goal" "Wants to study physics" "preference"].

Definition projected : Passport := (project 1 learner linked_passport).1.

Lemma projected_rows :
  (project 1 learner linked_passport).2 =
    inr {| pr_created := 2; pr_updated := 0; pr_unchanged := 0; pr_skipped := 0; pr_skipped_reason := None |} /\
  map_to_list (um_content <$> memories projected) =
    [(1010%Z, "Wants to study physics"); (1000%Z, "Prepares for the JEE exam")].
Proof. vm_compute. done. Qed.

Lemma projections_stay_within_the_link_witness :
  (exists i m, memories projected !! i = Some m) /\
  forall i m, memories projected !! i = Some m -> memories linked_passport !! i = Some m \/
    exists link grant tenant proxy,
      parse_uuid_str (unary_str 3) = Some tenant /\ parse_uuid_str (unary_str 7) = Some proxy /\
      (exists j, pp_links linked_passport !! j = Some link) /\ lk_tenant_id link = tenant /\
      lk_proxy_user_id link = proxy /\
      um_user_uui_id m = lk_user_uui_id link /\ um_source_agent_id m = (Some (unary_str 2) ≫= parse_uuid_str) /\
      (exists j, pp_grants linked_passport !! j = Some grant) /\
      (exists agent, um_source_agent_id m = Some agent /\ write_grant 10 (um_user_uui_id m) agent grant) /\
      um_category m ∈ ALLOWED_MEMORY_CATEGORIES.
Proof.
  split; [exists 1000%Z; vm_compute; by eexists|].
  apply (projections_stay_within_the_link example_vector no_envelope (projection_draw 1) 10 (unary_str 3)
           (unary_str 7) (Some (unary_str 2)) learner linked_passport projected
           {| pr_created := 2; pr_updated := 0; pr_unchanged := 0; pr_skipped := 0; pr_skipped_reason := None |}).
  vm_compute. reflexivity.
Defined.

(** The grant allows preferences only, yet a goal is projected: the categories
    the holder allowed are not consulted. *)
Theorem projection_ignores_the_allowed_categories :
  exists m, memories (project 1 [example_projection "goal" "Wants to study physics" "goal"] linked_passport).1
              !! 1000%Z = Some m /\
            um_is_archived m = false /\ ~ um_category m ∈ pg_categories_allowed example_grant.
Proof.
  eexists. split; [vm_compute; reflexivity|]. split; [reflexivity|]. intros Hin.
  apply elem_of_cons in Hin as [Hin|[]%elem_of_nil]. discriminate Hin.
Qed.

(** The goal is changed to the text of the other memory: its memory is archived
    without its count being taken back or its vector deleted, and the claim of
    its old text still displays it. *)
Definition collided : Passport :=
  (project 2 [example_projection "goal" "Prepares for the JEE exam" "preference"] projected).1.

Theorem projection_collision_leaves_the_passport_inconsistent :
  (um_is_archived <$> memories collided !! 1010%Z) = Some true /\
  (uu_memory_count <$> pp_users collided !! 1%Z) = Some 2%Z /\ live_count 1 (memories collided) = 1 /\
  (uc_active_memory_id <$> pp_claims collided !! 1010%Z) = Some (Some 1010%Z) /\
  (uc_active_value <$> pp_claims collided !! 1010%Z) = Some (Some "Wants to study physics") /\
  filter (fun r => o_memory_id r.2 = 1010%Z /\ o_operation r.2 = VectorSyncOperation.delete)
    (map_to_list (pp_outbox collided)) = [].
Proof. vm_compute. repeat split. Qed.
End Examples.
