(* ===== verification/PassportAccess.v ===== *)
(** * Access to a passport

    [UUIService] of [api/services/uui_service.py]: registration, one-time
    passwords, tokens, grants and the removal of a passport, with the grant
    handlers and the token regeneration of [api/routers/uui.py].

    A call runs at a [Moment]: the clock, the start of its transaction and
    whether Redis answers (the service treats a missing cache, an open breaker
    and a connection error alike).  The generator of tokens and passwords and
    the mail service are inputs. *)

From S2P Require Export PassportMemories RedisKeys.

Record PassportCache := {
  ck_tokens : gmap string (Expiring string);                       (* uui:{token}:id *)
  ck_permissions : gmap (string * string) (Expiring (list string)); (* uui_perm:{user}:{agent} *)
  ck_otp_requests : gmap string (Expiring Z);                      (* uui_otp_req:{email} *)
  ck_otp_failures : gmap string (Expiring Z);                      (* uui_otp_fail:{email} *)
  ck_otp_locks : gmap string (Expiring string);                    (* uui_otp_lock:{email} *)
  ck_regenerations : gmap uuid (Expiring string);                  (* uui_token_regen:{user} *)
  ck_links : gmap string (Expiring json);                          (* passport_link:{digest} *)
  ck_oauth_states : gmap string (Expiring json);                   (* passport_oauth_state:{state} *)
}.

Record Access := { ac_db : Passport; ac_cache : PassportCache }.
Record Moment := { mo_now : datetime; mo_tx : datetime; mo_up : bool }.

Abbreviation AM := (M Access passport_exn).

Definition UUI_CACHE_TTL_SECONDS : Z := 3600.
Definition PERMISSION_CACHE_TTL_SECONDS : Z := 300.
Definition OTP_EXPIRY_MINUTES : Z := 10.
Definition OTP_REQUEST_LIMIT : Z := 3.
Definition OTP_REQUEST_WINDOW_SECONDS : Z := 3600.
Definition OTP_FAILED_LIMIT : Z := 5.
Definition OTP_LOCK_WINDOW_SECONDS : Z := 1800.
Definition TOKEN_REGEN_TTL_SECONDS : Z := 86400.

(** Instants are microseconds. *)
Definition seconds (n : Z) : Z := (n * 1000000)%Z.

(** A query or a write of the session. *)
Definition in_db {A} (m : PM A) : AM A :=
  fun a => let (P, r) := m (ac_db a) in (a <| ac_db := P |>, r).

Definition get_db : AM Passport := a ← get_st; mret (ac_db a).

(** [except Exception]: the session rolls back, [d] is returned. *)
Definition or_else {A} (d : A) (m : AM A) : AM A :=
  fun a => match m a with
           | (a', inl _) => (a' <| ac_db := ac_db a |>, inr d)
           | (a', inr r) => (a', inr r)
           end.

(** ** Redis *)

Definition redis_get {K A} `{Countable K} (mo : Moment) (table : PassportCache -> gmap K (Expiring A)) (k : K)
    : AM (option A) :=
  a ← get_st; mret (if mo_up mo then rget (mo_now mo) k (table (ac_cache a)) else None).

Definition redis_write (mo : Moment) (f : PassportCache -> PassportCache) : AM unit :=
  if mo_up mo then modify_st (fun a => a <| ac_cache ::= f |>) else mret tt.

Definition expires_in (mo : Moment) (ttl : Z) : option Z := Some (mo_now mo + seconds ttl)%Z.

(** [_redis_incr]: a key keeps its expiry; 0 when Redis does not answer. *)
Definition incremented {K} `{Countable K} (now : Z) (k : K) (t : gmap K (Expiring Z)) : gmap K (Expiring Z) :=
  rset k (default 0 (rget now k t) + 1)%Z (kept_ttl now k t) t.

(** [_redis_incr] then [_redis_expire] when the key was new *)
Definition counted_in (mo : Moment) (ttl : Z) (k : string) (t : gmap string (Expiring Z))
    : gmap string (Expiring Z) :=
  let t' := incremented (mo_now mo) k t in
  if bool_decide (rget (mo_now mo) k t' = Some 1%Z) then rset k 1%Z (expires_in mo ttl) t' else t'.

Section Service.
Context `{PyLib}.

Definition none_if_empty (s : string) : option string := if bool_decide (s = EmptyString) then None else Some s.
Definition _normalize_email (email : option string) : option string :=
  none_if_empty (py_lower (py_strip (default EmptyString email))).
Definition _normalize_display_name (name : option string) : option string :=
  none_if_empty (py_strip (default EmptyString name)).

Definition _cache_uui_token (mo : Moment) (token user_id : string) : AM unit :=
  redis_write mo (fun c => c <| ck_tokens ::= rset token user_id (expires_in mo UUI_CACHE_TTL_SECONDS) |>).
Definition _get_cached_uui_id (mo : Moment) (token : string) : AM (option string) :=
  cached ← redis_get mo ck_tokens token; mret (cached ≫= none_if_empty).

Definition put_user (u : UniversalUser) : AM unit :=
  modify_st (fun a => a <| ac_db ::= fun P => P <| pp_users ::= insert (uu_id u) u |> |>).

(** ** One-time passwords *)

Definition resolve_by_email (email : string) : AM (option UniversalUser) :=
  match _normalize_email (Some email) with
  | None => mret None
  | Some e =>
      or_else None (in_db (P ← get_st;
        scalar_one (rows_where (fun u => bool_decide (uu_email u = Some e) && uu_is_active u) (pp_users P))))
  end.

Definition _is_otp_rate_limited (mo : Moment) (email : string) : AM bool :=
  count ← redis_get mo ck_otp_requests email; mret (OTP_REQUEST_LIMIT <=? default 0 count)%Z.

Definition is_otp_rate_limited (mo : Moment) (email : string) : AM bool :=
  match _normalize_email (Some email) with None => mret false | Some e => _is_otp_rate_limited mo e end.

Definition _increment_otp_request_counter (mo : Moment) (email : string) : AM unit :=
  redis_write mo (fun c => c <| ck_otp_requests ::= counted_in mo OTP_REQUEST_WINDOW_SECONDS email |>).

(** A failure counted; the fifth within the window locks the account. *)
Definition failure_counted (mo : Moment) (email : string) (c : PassportCache) : PassportCache :=
  let c := c <| ck_otp_failures ::= counted_in mo OTP_LOCK_WINDOW_SECONDS email |> in
  if (OTP_FAILED_LIMIT <=? default 0 (rget (mo_now mo) email (ck_otp_failures c)))%Z
  then c <| ck_otp_locks ::= rset email "1" (expires_in mo OTP_LOCK_WINDOW_SECONDS) |> else c.

Definition _record_failed_otp_attempt (mo : Moment) (email : string) : AM unit :=
  redis_write mo (failure_counted mo email).

Definition _clear_failed_otp_state (mo : Moment) (email : string) : AM unit :=
  redis_write mo (fun c => c <| ck_otp_failures ::= delete email |> <| ck_otp_locks ::= delete email |>).

Definition _is_otp_locked (mo : Moment) (email : string) : AM bool :=
  lock ← redis_get mo ck_otp_locks email; mret (text_given lock).

(** [otp] is the drawn password; [sent] what the mail service answers. *)
Definition send_otp (mo : Moment) (otp : string) (sent : bool) (email : string) : AM bool :=
  match _normalize_email (Some email) with
  | None => mret false
  | Some e =>
      limited ← _is_otp_rate_limited mo e;
      if limited : bool then mret false else
      user ← resolve_by_email e;
      match user with
      | None => mret false
      | Some u =>
          put_user (u <| uu_otp_code := Some otp |>
                      <| uu_otp_expires_at := Some (mo_now mo + seconds (60 * OTP_EXPIRY_MINUTES))%Z |>);;
          if sent then _increment_otp_request_counter mo e;; mret true else mret false
      end
  end.

Definition otp_matches (now : datetime) (otp : string) (u : UniversalUser) : bool :=
  match uu_otp_code u, uu_otp_expires_at u with
  | Some code, Some expires_at => negb (bool_decide (code = EmptyString)) && bool_decide (code = otp)
                                  && (now <? expires_at)%Z
  | _, _ => false
  end.

Definition verify_otp (mo : Moment) (email otp : option string) : AM (option UniversalUser) :=
  match _normalize_email email, none_if_empty (py_strip (default EmptyString otp)) with
  | Some e, Some o =>
      locked ← _is_otp_locked mo e;
      if locked : bool then mret None else
      user ← resolve_by_email e;
      match user with
      | None => _record_failed_otp_attempt mo e;; mret None
      | Some u =>
          if otp_matches (mo_now mo) o u
          then
            let u := u <| uu_otp_code := None |> <| uu_otp_expires_at := None |> in
            put_user u;;
            _clear_failed_otp_state mo e;;
            _cache_uui_token mo (uu_uui_token u) (uuid_str (uu_id u));;
            mret (Some u)
          else _record_failed_otp_attempt mo e;; mret None
      end
  | _, _ => mret None
  end.

Definition passport_exists : passport_exn := APIError 409 "UUI_409" "memory_passport_exists".

(** The unique indexes on the token and on the email, which cover inactive users
    too. *)
Definition collides (token : string) (email : option string) (u : UniversalUser) : bool :=
  bool_decide (uu_uui_token u = token)
  || match email with Some e => bool_decide (uu_email u = Some e) | None => false end.

(** [id], [token] and the password are drawn; [error_text] is what PostgreSQL
    says of a collision, which names the index it found first. *)
Definition register (mo : Moment) (id : uuid) (token otp : string) (sent : bool) (error_text : string)
    (email display_name : option string) : AM UniversalUser :=
  let normalized_email := _normalize_email email in
  existing ← match normalized_email with Some e => resolve_by_email e | None => mret None end;
  match existing with
  | Some _ => raise_st passport_exists
  | None =>
      P ← get_db;
      if negb (bool_decide (length (rows_where (collides token normalized_email) (pp_users P)) = 0))
      then raise_st (if negb (bool_decide (normalized_email = None)) && py_contains "universal_users_email_key" (py_lower error_text)
                     then passport_exists else JobError "IntegrityError")
      else
      let user := {| uu_id := id; uu_uui_token := token; uu_email := normalized_email;
                     uu_display_name := _normalize_display_name display_name; uu_otp_code := None;
                     uu_otp_expires_at := None; uu_is_active := true; uu_memory_count := 0 |} in
      put_user user;;
      _cache_uui_token mo token (uuid_str id);;
      match normalized_email with Some e => send_otp mo otp sent e | None => mret false end;;
      mret user
  end.

(** ** Tokens *)

Definition resolve_by_token (mo : Moment) (uui_token : string) : AM (option UniversalUser) :=
  match none_if_empty (py_strip uui_token) with
  | None => mret None
  | Some token =>
      or_else None (
        user_id ← _get_cached_uui_id mo token;
        P ← get_db;
        cached_user ← match user_id with
                      | Some i => u ← lift_opt (JobError "uuid") (parse_uuid_str i); mret (pp_users P !! u)
                      | None => mret None
                      end;
        user ← match cached_user with
               | Some u => mret (Some u)
               | None =>
                   found ← in_db (P ← get_st;
                     scalar_one (rows_where (fun u => bool_decide (uu_uui_token u = token) && uu_is_active u)
                                   (pp_users P)));
                   match found with
                   | Some u => _cache_uui_token mo token (uuid_str (uu_id u));; mret (Some u)
                   | None => mret None
                   end
               end;
        mret (u ← user; if uu_is_active u then Some u else None))
  end.

(** [regenerate_my_uui_token] up to its commit: the rate limit, and the old
    token's key is deleted ... *)
Definition regenerate_prepare (mo : Moment) (user : UniversalUser) : AM unit :=
  limited ← redis_get mo ck_regenerations (uu_id user);
  match limited with
  | Some _ => raise_st (APIError 429 "UUI_TOKEN_429" "token_regeneration_rate_limited")
  | None => redis_write mo (fun c => c <| ck_tokens ::= delete (uu_uui_token user) |>)
  end.

(** ... and from its commit on. *)
Definition regenerate_commit (mo : Moment) (new_token : string) (user : UniversalUser) : AM string :=
  put_user (user <| uu_uui_token := new_token |>);;
  _cache_uui_token mo new_token (uuid_str (uu_id user));;
  redis_write mo (fun c => c <| ck_regenerations ::=
                             rset (uu_id user) "1" (expires_in mo TOKEN_REGEN_TTL_SECONDS) |>);;
  mret new_token.

(** ** Grants *)

Definition granted_before (a b : PermissionGrant) : bool :=
  if (pg_granted_at a =? pg_granted_at b)%Z then (pg_id b <=? pg_id a)%Z
  else (pg_granted_at b <? pg_granted_at a)%Z.

Definition granted_now (now : datetime) (user : uuid) (P : Passport) (g : PermissionGrant) : bool :=
  bool_decide (pg_user_uui_id g = user) && pg_is_active g && ends_after (pg_expires_at g) now
  && match pp_agents P !! pg_agent_id g with Some a => ga_is_active a | None => false end.

Definition get_grants (mo : Moment) (user : uuid) : AM (list PermissionGrant) :=
  P ← get_db; mret (sort_by granted_before (rows_where (granted_now (mo_tx mo) user P) (pp_grants P))).

Definition _invalidate_permission_cache (mo : Moment) (user agent : string) : AM unit :=
  redis_write mo (fun c => c <| ck_permissions ::= delete (user, agent) |>).

Definition validation_error : passport_exn := APIError 422 "REQ_422" "validation_error".
Definition grant_not_found : passport_exn := APIError 404 "GNT_404" "permission_grant_not_found".

Definition _validate_categories (categories : list string) : AM unit :=
  if forallb (fun c => bool_decide (c ∈ ALLOWED_MEMORY_CATEGORIES)) categories
  then mret tt else raise_st validation_error.

Definition grant_of (user agent : uuid) (P : Passport) : option PermissionGrant :=
  head (rows_where (fun g => bool_decide (pg_user_uui_id g = user) && bool_decide (pg_agent_id g = agent))
          (pp_grants P)).

(** The upsert on [uq_permission_grants_user_agent]; [id] is drawn. *)
Definition create_grant (mo : Moment) (id : uuid) (user agent : uuid) (categories : list string)
    (access_type : string) (expires_at : option datetime) : AM PermissionGrant :=
  _validate_categories categories;;
  if negb (bool_decide (access_type ∈ ["read_only"; "read_write"])) then raise_st validation_error else
  P ← get_db;
  if negb (match pp_agents P !! agent with Some a => ga_is_active a | None => false end)
  then raise_st (APIError 404 "AGN_404" "global_agent_not_found") else
  let grant := {| pg_id := match grant_of user agent P with Some g => pg_id g | None => id end;
                  pg_user_uui_id := user; pg_agent_id := agent; pg_categories_allowed := categories;
                  pg_access_type := access_type; pg_granted_at := mo_tx mo; pg_expires_at := expires_at;
                  pg_is_active := true; pg_revoked_at := None |} in
  modify_st (fun a => a <| ac_db ::= fun P => P <| pp_grants ::= insert (pg_id grant) grant |> |>);;
  _invalidate_permission_cache mo (uuid_str user) (uuid_str agent);;
  mret grant.

Definition revoke_grant (mo : Moment) (user grant_id : uuid) : AM bool :=
  P ← get_db;
  match pp_grants P !! grant_id with
  | Some g =>
      if negb (bool_decide (pg_user_uui_id g = user)) then mret false else
      modify_st (fun a => a <| ac_db ::= fun P => P <| pp_grants ::=
        insert grant_id (g <| pg_is_active := false |> <| pg_revoked_at := Some (mo_now mo) |>) |> |>);;
      _invalidate_permission_cache mo (uuid_str user) (uuid_str (pg_agent_id g));;
      mret true
  | None => mret false
  end.

Definition update_my_grant (mo : Moment) (user : UniversalUser) (grant_id : uuid) (categories : list string)
    : AM PermissionGrant :=
  if negb (forallb (fun c => bool_decide (c ∈ ALLOWED_MEMORY_CATEGORIES)) categories)
     || bool_decide (length categories = 0)
  then raise_st validation_error else
  P ← get_db;
  grant ← lift_opt grant_not_found
    (g ← pp_grants P !! grant_id;
     if bool_decide (pg_user_uui_id g = uu_id user) && pg_is_active g then Some g else None);
  let grant := grant <| pg_categories_allowed := categories |> in
  modify_st (fun a => a <| ac_db ::= fun P => P <| pp_grants ::= insert grant_id grant |> |>);;
  _invalidate_permission_cache mo (uuid_str (uu_id user)) (uuid_str (pg_agent_id grant));;
  mret grant.

Definition covers_now (now : datetime) (user agent : uuid) (g : PermissionGrant) : bool :=
  bool_decide (pg_user_uui_id g = user) && bool_decide (pg_agent_id g = agent) && pg_is_active g
  && ends_after (pg_expires_at g) now.

(** [user_uui_id] is a token or the text of an id. *)
Definition check_permission (mo : Moment) (user_uui_id agent_id category : string) : AM bool :=
  if negb (bool_decide (category ∈ ALLOWED_MEMORY_CATEGORIES)) then mret false else
  or_else false (
    resolved ← (if py_startswith user_uui_id "uui_"
                then user ← resolve_by_token mo user_uui_id; mret (uuid_str ∘ uu_id <$> user)
                else mret (Some user_uui_id));
    match resolved with
    | None => mret false
    | Some resolved_user_id =>
        cached ← redis_get mo ck_permissions (resolved_user_id, agent_id);
        match cached with
        | Some categories => mret (bool_decide (category ∈ categories))
        | None =>
            user ← lift_opt (JobError "uuid") (parse_uuid_str resolved_user_id);
            agent ← lift_opt (JobError "uuid") (parse_uuid_str agent_id);
            grant ← in_db (P ← get_st; scalar_one (rows_where (covers_now (mo_tx mo) user agent) (pp_grants P)));
            match grant with
            | None => mret false
            | Some g =>
                redis_write mo (fun c => c <| ck_permissions ::=
                  rset (resolved_user_id, agent_id) (pg_categories_allowed g)
                    (expires_in mo PERMISSION_CACHE_TTL_SECONDS) |>);;
                mret (bool_decide (category ∈ pg_categories_allowed g))
            end
        end
    end).

(** ** Removing a passport *)

Definition rows_kept {A} (p : A -> bool) (t : gmap uuid A) : gmap uuid A := filter (fun ia => p ia.2 = true) t.

(** [session.delete(user)] with the cascades of the schema. *)
Definition cascade_delete_user (user : uuid) (P : Passport) : Passport :=
  let other (u : uuid) := negb (bool_decide (u = user)) in
  let ms := rows_kept (fun m => other (um_user_uui_id m)) (memories P) in
  let cs := rows_kept (fun c => other (uc_user_uui_id c)) (pp_claims P) in
  P <| pp_users ::= delete user |>
    <| pp_grants ::= rows_kept (fun g => other (pg_user_uui_id g)) |>
    <| pp_db := {| ud_memories := ms;
                   ud_versions := rows_kept (fun v => bool_decide (is_Some (ms !! uv_universal_memory_id v)))
                                    (ud_versions (pp_db P)) |} |>
    <| pp_claims := cs |>
    <| pp_revisions ::= rows_kept (fun r => bool_decide (is_Some (cs !! ur_claim_id r))) |>
    <| pp_flags ::= rows_kept (fun f => other (fl_user_uui_id f)) |>
    <| pp_links ::= rows_kept (fun l => other (lk_user_uui_id l)) |>
    <| pp_connections ::= rows_kept (fun c => other (oc_user_uui_id c)) |>.

(** A delete row for every memory, with ids drawn in order. *)
Fixpoint enqueue_deletes (draws : nat -> uuid) (i : nat) (now : datetime) (ids : list uuid) (b : Outbox) : Outbox :=
  match ids with
  | [] => b
  | id :: ids =>
      enqueue_deletes draws (S i) now ids
        (enqueue_vector_delete (draws i) now id
           (Some [("qdrant_collection", JStr UNIVERSAL_COLLECTION_NAME); ("privacy_delete", JBool true)]) b)
  end.

Definition delete_user_data (mo : Moment) (draws : nat -> uuid) (uui_token : string) : AM (bool * nat) :=
  user ← resolve_by_token mo uui_token;
  match user with
  | None => mret (false, 0%nat)
  | Some u =>
      P ← get_db;
      let memory_ids := um_id <$> rows_where (fun m => bool_decide (um_user_uui_id m = uu_id u)) (memories P) in
      let agents := pg_agent_id <$> rows_where (fun g => bool_decide (pg_user_uui_id g = uu_id u)) (pp_grants P) in
      modify_st (fun a => a <| ac_db ::= fun P =>
        cascade_delete_user (uu_id u) (P <| pp_outbox ::= enqueue_deletes draws 0 (mo_tx mo) memory_ids |>) |>);;
      redis_write mo (fun c => c <| ck_tokens ::= delete (uu_uui_token u) |>);;
      redis_write mo (fun c => c <| ck_permissions ::=
        fun t => foldr (fun agent => delete (uuid_str (uu_id u), uuid_str agent)) t agents |>);;
      mret (true, length memory_ids)
  end.
End Service.
