(* ===== verification/PassportAccessTheorems.v ===== *)
(** * Access to a passport: theorems

    Guessing a one-time password is bounded, a revoked grant denies at once, a
    removed passport is forgotten; and a regenerated token may live on in the
    cache. *)

From S2P Require Export PassportTheorems PassportAccess.

Section Guessing.
Context `{PyLib}.

(** The account [resolve_by_email] finds. *)
Definition account (email : string) (P : Passport) : option UniversalUser :=
  match _normalize_email (Some email) with
  | None => None
  | Some e =>
      match rows_where (fun u => bool_decide (uu_email u = Some e) && uu_is_active u) (pp_users P) with
      | [u] => Some u
      | _ => None
      end
  end.

Lemma resolve_by_email_run email a : resolve_by_email email a = (a, inr (account email (ac_db a))).
Proof.
  unfold resolve_by_email, account. destruct (_normalize_email (Some email)) as [e|]; [|done].
  unfold or_else, in_db, mbind, M_bind, get_st. destruct a as [P c]. cbn.
  by destruct (rows_where _ (pp_users P)) as [|u [|v l]].
Qed.

(** Attempts one after the other, with their moments. *)
Fixpoint attempts (email : option string) (guesses : list (Moment * string)) (a : Access)
    : Access * list (passport_exn + option UniversalUser) :=
  match guesses with
  | [] => (a, [])
  | (mo, guess) :: guesses =>
      let (a', r) := verify_otp mo email (Some guess) a in
      let (a'', rs) := attempts email guesses a' in (a'', r :: rs)
  end.

(** [n] failures were counted since [t0]; from the fifth on the account is
    locked. *)
Definition failed_since (t0 : Z) (e : string) (n : nat) (c : PassportCache) : Prop :=
  (match n with
   | O => ck_otp_failures c !! e = None
   | S _ => exists t, ck_otp_failures c !! e = Some {| ex_value := Z.of_nat n; ex_at := Some t |} /\
                      (t0 + seconds OTP_LOCK_WINDOW_SECONDS <= t)%Z
   end) /\
  (if (n <? 5)%nat then ck_otp_locks c !! e = None
   else exists t, ck_otp_locks c !! e = Some {| ex_value := "1"; ex_at := Some t |} /\
                  (t0 + seconds OTP_LOCK_WINDOW_SECONDS <= t)%Z).

Definition in_window (t0 : Z) (mo : Moment) : Prop :=
  mo_up mo = true /\ (t0 <= mo_now mo < t0 + seconds OTP_LOCK_WINDOW_SECONDS)%Z.

Lemma failed_once_more t0 e n mo c :
  in_window t0 mo -> (n < 5)%nat -> failed_since t0 e n c ->
  failed_since t0 e (S n)
    (failure_counted mo e c).
Proof.
  intros Hw Hn [Hf Hl]. pose proof Hw as [_ [Ht1 Ht2]].
  rewrite (proj2 (Nat.ltb_lt n 5)) in Hl by done.
  assert (exists t, counted_in mo OTP_LOCK_WINDOW_SECONDS e (ck_otp_failures c) !! e =
                    Some {| ex_value := Z.of_nat (S n); ex_at := Some t |} /\
                    (t0 + seconds OTP_LOCK_WINDOW_SECONDS <= t)%Z) as (t & Hc & Ht).
  { unfold counted_in, incremented. destruct n as [|n].
    - assert (rget (mo_now mo) e (ck_otp_failures c) = None) as -> by (unfold rget; by rewrite Hf).
      rewrite bool_decide_eq_true_2; [eexists; split; [apply lookup_insert_eq|lia]|].
      unfold rget, rset, kept_ttl. by rewrite Hf, lookup_insert_eq.
    - destruct Hf as (t & Hf & Ht).
      assert (rget (mo_now mo) e (ck_otp_failures c) = Some (Z.of_nat (S n)) /\
              kept_ttl (mo_now mo) e (ck_otp_failures c) = Some t) as [-> ->].
      { unfold rget, kept_ttl. rewrite Hf. cbn. by rewrite (proj2 (Z.ltb_lt (mo_now mo) t)) by lia. }
      assert (bool_decide (rget (mo_now mo) e
        (rset e (default 0 (Some (Z.of_nat (S n))) + 1)%Z (Some t) (ck_otp_failures c)) = Some 1%Z) = false) as ->.
      { apply bool_decide_eq_false_2. unfold rget, rset. rewrite lookup_insert_eq. cbn.
        rewrite (proj2 (Z.ltb_lt (mo_now mo) t)) by lia. intros [= Hz]. lia. }
      exists t. split; [|done]. unfold rset. rewrite lookup_insert_eq. do 2 f_equal. cbn. lia. }
  assert (rget (mo_now mo) e (counted_in mo OTP_LOCK_WINDOW_SECONDS e (ck_otp_failures c)) =
          Some (Z.of_nat (S n))) as Hg.
  { unfold rget. rewrite Hc. cbn. by rewrite (proj2 (Z.ltb_lt (mo_now mo) t)) by lia. }
  unfold failure_counted. cbv zeta.
  change (ck_otp_failures (c <| ck_otp_failures ::= counted_in mo OTP_LOCK_WINDOW_SECONDS e |>))
    with (counted_in mo OTP_LOCK_WINDOW_SECONDS e (ck_otp_failures c)).
  rewrite Hg. change (default 0%Z (Some (Z.of_nat (S n)))) with (Z.of_nat (S n)).
  unfold OTP_FAILED_LIMIT. destruct (Z.leb_spec 5 (Z.of_nat (S n))); (split; [by exists t|]).
  - rewrite (proj2 (Nat.ltb_ge (S n) 5)) by lia. eexists. split; [apply lookup_insert_eq|].
    destruct Hw. lia.
  - rewrite (proj2 (Nat.ltb_lt (S n) 5)) by lia. exact Hl.
Qed.

Lemma one_attempt t0 e email mo guess o a n :
  in_window t0 mo -> _normalize_email email = Some e ->
  none_if_empty (py_strip guess) = Some o -> failed_since t0 e n (ac_cache a) ->
  ((n < 5)%nat -> forall u, account e (ac_db a) = Some u -> otp_matches (mo_now mo) o u = false) ->
  exists c, verify_otp mo email (Some guess) a = ({| ac_db := ac_db a; ac_cache := c |}, inr None) /\
            failed_since t0 e (if (n <? 5)%nat then S n else n) c.
Proof.
  intros Hw He Ho Hf Hwrong. pose proof Hw as [Hup Ht]. unfold verify_otp.
  change (default EmptyString (Some guess)) with guess. rewrite He, Ho.
  unfold _is_otp_locked, redis_get, mbind, M_bind, get_st, mret, M_ret. rewrite Hup.
  destruct (Nat.ltb_spec n 5) as [Hn|Hn].
  - pose proof Hf as [_ Hl]. rewrite (proj2 (Nat.ltb_lt n 5)) in Hl by done.
    unfold rget. rewrite Hl. cbn [text_given mbind option_bind].
    rewrite resolve_by_email_run.
    exists (failure_counted mo e (ac_cache a)).
    split; [|apply failed_once_more; done].
    destruct (account e (ac_db a)) as [u|] eqn:Hu; [rewrite (Hwrong Hn u eq_refl)|];
      unfold _record_failed_otp_attempt, redis_write; rewrite Hup; reflexivity.
  - pose proof Hf as [_ Hl]. rewrite (proj2 (Nat.ltb_ge n 5)) in Hl by done.
    destruct Hl as (t & Hl & Htl). unfold rget. rewrite Hl. cbn.
    rewrite (proj2 (Z.ltb_lt (mo_now mo) t)) by lia. cbn. exists (ac_cache a).
    split; [by destruct a|exact Hf].
Qed.

Lemma more_attempts t0 email e guesses a n :
  _normalize_email email = Some e -> failed_since t0 e n (ac_cache a) ->
  Forall (fun mg => in_window t0 mg.1 /\ none_if_empty (py_strip mg.2) <> None) guesses ->
  Forall (fun mg => forall u, account e (ac_db a) = Some u -> otp_matches (mo_now mg.1) (py_strip mg.2) u = false)
    (take (5 - n) guesses) ->
  ac_db (attempts email guesses a).1 = ac_db a /\
  (attempts email guesses a).2 = replicate (length guesses) (inr None).
Proof.
  intros He. revert a n. induction guesses as [|[mo guess] guesses IH]; intros a n Hs Hall Hwrong; [done|].
  apply Forall_cons in Hall as [[Hw Hg] Hall]. cbn [fst snd] in *.
  destruct (none_if_empty (py_strip guess)) as [o|] eqn:Ho; [|done].
  assert (py_strip guess = o) as Heq by (unfold none_if_empty in Ho; case_bool_decide; [done|by simplify_eq]).
  destruct (one_attempt t0 e email mo guess o a n Hw He Ho Hs) as (c & Hv & Hs').
  { intros Hn u Hu. destruct (5 - n)%nat as [|k] eqn:Hk; [lia|]. cbn [take] in Hwrong.
    apply Forall_cons in Hwrong as [Hwrong _]. rewrite <- Heq. by apply Hwrong. }
  cbn [attempts]. rewrite Hv.
  specialize (IH {| ac_db := ac_db a; ac_cache := c |} _ Hs' Hall).
  destruct (attempts email guesses _) as [a' rs]. cbn [ac_db fst snd] in *.
  destruct IH as [-> ->]; [|done].
  destruct (Nat.ltb_spec n 5).
  - replace (5 - n)%nat with (S (5 - S n))%nat in Hwrong by lia. cbn [take] in Hwrong.
    by apply Forall_cons in Hwrong as [_ Hwrong].
  - by replace (5 - n)%nat with 0%nat by lia.
Qed.

(** C35: While Redis answers, whoever attempts a passport's password within half
    an hour from a moment at which no failure is counted and no lock is set for
    the address gets five tries: if none of the first five non-blank guesses is the
    account's valid code, every attempt of the half hour fails, however many
    follow and even if one is right, and the database does not change. *)
Theorem five_guesses_per_half_hour t0 email e guesses a :
  _normalize_email email = Some e ->
  ck_otp_failures (ac_cache a) !! e = None -> ck_otp_locks (ac_cache a) !! e = None ->
  Forall (fun mg => in_window t0 mg.1 /\ none_if_empty (py_strip mg.2) <> None) guesses ->
  Forall (fun mg => forall u, account e (ac_db a) = Some u -> otp_matches (mo_now mg.1) (py_strip mg.2) u = false)
    (take 5 guesses) ->
  ac_db (attempts email guesses a).1 = ac_db a /\
  (attempts email guesses a).2 = replicate (length guesses) (inr None).
Proof. intros He Hf Hl. by apply (more_attempts t0 email e guesses a 0 He). Qed.
End Guessing.

(** ** Tokens and grants *)

Section Revocation.
Context `{PyLib}.

(** The caches of permissions and the database are left alone. *)
Definition same_access (a a' : Access) : Prop :=
  ac_db a' = ac_db a /\ ck_permissions (ac_cache a') = ck_permissions (ac_cache a).

(** A reading of passport [P]: it may only change the other keys of the cache,
    and returns a value with [Q]. *)
Definition reads {A} (P : Passport) (Q : A -> Prop) (m : AM A) : Prop :=
  forall a a' r, ac_db a = P -> m a = (a', r) ->
    same_access a a' /\ match r with inr x => Q x | inl _ => True end.

Lemma reads_bind {A B} P (Q : A -> Prop) (Q' : B -> Prop) (m : AM A) (f : A -> AM B) :
  reads P Q m -> (forall x, Q x -> reads P Q' (f x)) -> reads P Q' (m ≫= f).
Proof.
  intros Hm Hf a a' r HP. unfold mbind, M_bind. destruct (m a) as [a1 [e|x]] eqn:Hma.
  - intros [= <- <-]. by apply Hm in Hma as [? _].
  - apply Hm in Hma as [[Hd Hc] Hx]; [|done]. intros Hfx. unfold same_access in *.
    apply Hf in Hfx as [[-> ->] ?]; [done|done|by rewrite Hd].
Qed.

Lemma reads_ret {A} P (Q : A -> Prop) (x : A) : Q x -> reads P Q (mret x).
Proof. by intros Hx a a' r _ [= <- <-]. Qed.

Lemma reads_or_else {A} P (Q : A -> Prop) d (m : AM A) : Q d -> reads P Q m -> reads P Q (or_else d m).
Proof.
  intros Hd Hm a a' r HP. unfold or_else. destruct (m a) as [a1 [e|x]] eqn:Hma; intros [= <- <-].
  - apply Hm in Hma as [[? ?] _]; [|done]. by destruct a1.
  - by apply Hm in Hma.
Qed.

Lemma reads_get_db P : reads P (fun P' => P' = P) get_db.
Proof. by intros a a' r HP [= <- <-]. Qed.

Lemma reads_redis_get {K A} `{Countable K} P mo (t : PassportCache -> gmap K (Expiring A)) k :
  reads P (fun _ => True) (redis_get mo t k).
Proof. by intros a a' r HP [= <- <-]. Qed.

Lemma reads_lift_opt {A} P (e : passport_exn) (o : option A) : reads P (fun x => o = Some x) (lift_opt e o).
Proof. intros a a' r _. by destruct o; intros [= <- <-]. Qed.

Lemma reads_scalar {A} P (rows : Passport -> list A) :
  reads P (fun o => match o with Some x => x ∈ rows P | None => True end)
    (in_db (P ← get_st; scalar_one (rows P))).
Proof.
  intros a a' r <-. unfold in_db, get_st, mbind, M_bind. destruct a as [P c]. cbn.
  destruct (rows P) as [|x [|y l]]; intros [= <- <-]; (split; [done|]); [done|by left|done].
Qed.

Lemma reads_cache_token P mo token id : reads P (fun _ => True) (_cache_uui_token mo token id).
Proof.
  intros a a' r _. unfold _cache_uui_token, redis_write. by destruct (mo_up mo); intros [= <- <-].
Qed.

(** Whom a token names. *)
Lemma resolve_by_token_reads P mo token :
  reads P (fun o => match o with
                    | Some u => uu_is_active u = true /\ exists i, pp_users P !! i = Some u
                    | None => True end) (resolve_by_token mo token).
Proof.
  unfold resolve_by_token. destruct (none_if_empty _) as [t|]; [|by apply reads_ret].
  apply reads_or_else; [done|].
  eapply reads_bind; [eapply reads_bind; [apply reads_redis_get|by intros; apply (reads_ret _ (fun _ => True))]|].
  intros user_id _. eapply reads_bind; [apply reads_get_db|]. intros ? ->.
  eapply (reads_bind _ (fun o => match o with Some u => exists i, pp_users P !! i = Some u | None => True end)).
  { destruct user_id as [i|]; [|by apply reads_ret].
    eapply reads_bind; [apply reads_lift_opt|]. intros j _. apply reads_ret.
    destruct (pp_users P !! j) eqn:Hj; [by exists j|done]. }
  intros cached Hcached.
  eapply (reads_bind _ (fun o => match o with Some u => exists i, pp_users P !! i = Some u | None => True end)).
  { destruct cached as [u|]; [by apply reads_ret|].
    eapply reads_bind; [apply reads_scalar|]. intros [u|] Hu; [|by apply reads_ret].
    eapply reads_bind; [apply reads_cache_token|]. intros _ _. apply reads_ret.
    by apply elem_of_rows_where in Hu as [_ ?]. }
  intros user Hu. apply reads_ret. destruct user as [u|]; [|done]. cbn.
  by destruct (uu_is_active u) eqn:Ha.
Qed.

(** The token is the user's own, or was cached for the user and still lives. *)
Definition token_names (mo : Moment) (a : Access) (token : string) (u : UniversalUser) : Prop :=
  uu_uui_token u = py_strip token \/
  exists id i, mo_up mo = true /\ rget (mo_now mo) (py_strip token) (ck_tokens (ac_cache a)) = Some id /\
               parse_uuid_str id = Some i /\ pp_users (ac_db a) !! i = Some u.

Lemma none_if_empty_inv s t : none_if_empty s = Some t -> t = s.
Proof. unfold none_if_empty. case_bool_decide; [done|]. by intros [= ->]. Qed.

Lemma token_found t a a' u :
  in_db (P ← get_st; scalar_one (rows_where (fun u => bool_decide (uu_uui_token u = t) && uu_is_active u) (pp_users P))) a
    = (a', inr (Some u)) -> uu_uui_token u = t.
Proof.
  unfold in_db, get_st, mbind, M_bind. destruct a as [P c]. cbn.
  destruct (rows_where _ (pp_users P)) as [|v [|w l]] eqn:Hrows; intros [= _ ->].
  assert (u ∈ rows_where (fun u => bool_decide (uu_uui_token u = t) && uu_is_active u) (pp_users P)) as Hin
    by (rewrite Hrows; apply list_elem_of_here).
  by apply elem_of_rows_where in Hin as [[Htok%bool_decide_eq_true _]%andb_prop _].
Qed.

Lemma resolve_by_token_names mo token a a' u :
  resolve_by_token mo token a = (a', inr (Some u)) -> token_names mo a token u.
Proof.
  unfold resolve_by_token. destruct (none_if_empty (py_strip token)) as [t|] eqn:Ht; [|done].
  apply none_if_empty_inv in Ht as ->. unfold or_else.
  match goal with |- context [match ?m a with _ => _ end] => destruct (m a) as [a1 [e|x]] eqn:Hrun end;
    intros [= <- ->]; [].
  unfold _get_cached_uui_id in Hrun.
  apply M_bind_inv in Hrun as (a2 & user_id & Hcached & Hrun).
  apply M_bind_inv in Hcached as (a3 & cached & [= <- <-] & [= <- <-]).
  apply M_bind_inv in Hrun as (a3 & P & [= <- <-] & Hrun).
  apply M_bind_inv in Hrun as (a4 & cached_user & Hcu & Hrun).
  apply M_bind_inv in Hrun as (a5 & user & Huser & Hend).
  assert (user = Some u) as ->.
  { injection Hend as _ Hend. destruct user as [v|]; [|done]. cbn in Hend.
    destruct (uu_is_active v); [by injection Hend as ->|done]. }
  destruct ((if mo_up mo then rget (mo_now mo) (py_strip token) (ck_tokens (ac_cache a)) else None) ≫= none_if_empty)
    as [id|] eqn:Hid.
  - apply M_bind_inv in Hcu as (a6 & i & [-> Hi]%lift_opt_inv & [= <- <-]).
    destruct (pp_users (ac_db a) !! i) as [v|] eqn:Hv.
    + injection Huser as _ ->. right. apply bind_Some in Hid as (id' & Hget & ->%none_if_empty_inv).
      destruct (mo_up mo) eqn:Hup; [|done]. by exists id', i.
    + left. apply M_bind_inv in Huser as (a7 & [v|] & Hfound & Huser); [|done].
      apply M_bind_inv in Huser as (a8 & [] & _ & [= _ <-]).
      by apply (token_found (py_strip token)) in Hfound.
  - injection Hcu as <- <-. left. apply M_bind_inv in Huser as (a7 & [v|] & Hfound & Huser); [|done].
    apply M_bind_inv in Huser as (a8 & [] & _ & [= _ <-]).
    by apply (token_found (py_strip token)) in Hfound.
Qed.

(** No grant and no cached permission of the agent for the user. *)
Definition denied (user agent : uuid) (a : Access) : Prop :=
  (forall i g, pp_grants (ac_db a) !! i = Some g -> pg_user_uui_id g = user -> pg_agent_id g = agent ->
    pg_is_active g = false) /\
  ck_permissions (ac_cache a) !! (uuid_str user, uuid_str agent) = None.

(** [who] names the user: by id, or by a token that resolves to it. *)
Definition names (mo : Moment) (a : Access) (who : string) (user : uuid) : Prop :=
  if py_startswith who "uui_"
  then exists a' u, resolve_by_token mo who a = (a', inr (Some u)) /\ uu_id u = user
  else who = uuid_str user.

Lemma denied_same user agent a a' : same_access a a' -> denied user agent a -> denied user agent a'.
Proof. unfold denied. by intros [-> ->]. Qed.

Lemma denied_grant now user agent a rows g :
  denied user agent a -> rows = rows_where (covers_now now user agent) (pp_grants (ac_db a)) -> g ∉ rows.
Proof.
  intros [Hg _] ->. rewrite elem_of_rows_where. unfold covers_now. intros [Hc [i Hi]].
  repeat (apply andb_prop in Hc as [Hc ?]). apply bool_decide_eq_true in Hc, H2.
  by rewrite (Hg i g Hi) in H1.
Qed.

(** The end of [check_permission], from the user's id on. *)
Lemma check_resolved mo (who agid category : string) user agent a a' r :
  uuid_law -> denied user agent a ->
  (cached ← redis_get mo ck_permissions (who, agid);
   match cached with
   | Some categories => mret (bool_decide (category ∈ categories))
   | None =>
       u ← lift_opt (JobError "uuid") (parse_uuid_str who);
       ag ← lift_opt (JobError "uuid") (parse_uuid_str agid);
       grant ← in_db (P ← get_st; scalar_one (rows_where (covers_now (mo_tx mo) u ag) (pp_grants P)));
       match grant with
       | None => mret false
       | Some g =>
           redis_write mo (fun c => c <| ck_permissions ::=
             rset (who, agid) (pg_categories_allowed g)
               (expires_in mo PERMISSION_CACHE_TTL_SECONDS) |>);;
           mret (bool_decide (category ∈ pg_categories_allowed g))
       end
   end) a = (a', r) ->
  denied user agent a' /\ (who = uuid_str user -> agid = uuid_str agent -> r = inr false \/ exists e, r = inl e).
Proof.
  intros Hlaw Hden. destruct a as [P c]. unfold redis_get, get_st, in_db, mbind, M_bind. cbn [ac_cache ac_db].
  destruct (if mo_up mo then rget (mo_now mo) (who, agid) (ck_permissions c) else None) as [cats|] eqn:Hcached.
  { intros [= <- <-]. split; [done|]. intros -> ->. destruct (mo_up mo); [|done].
    unfold rget in Hcached. pose proof (proj2 Hden) as Hn. cbn in Hn. by rewrite Hn in Hcached. }
  cbn. destruct (parse_uuid_str who) as [u|] eqn:Hu; [|intros [= <- <-]; eauto].
  cbn. destruct (parse_uuid_str agid) as [ag|] eqn:Hag; [|intros [= <- <-]; eauto].
  cbn. destruct (rows_where (covers_now (mo_tx mo) u ag) (pp_grants P)) as [|g [|g' l]] eqn:Hrows; cbn;
    [intros [= <- <-]; eauto| |intros [= <- <-]; eauto].
  assert (who = uuid_str user -> agid = uuid_str agent -> False) as Hno.
  { intros -> ->. rewrite (proj2 (Hlaw user)) in Hu. rewrite (proj2 (Hlaw agent)) in Hag. simplify_eq.
    eapply (denied_grant _ _ _ {| ac_db := P; ac_cache := c |} _ g Hden (eq_sym Hrows)). by left. }
  unfold redis_write. destruct (mo_up mo); cbn; intros [= <- <-].
  - split; [|intros; by destruct Hno]. split; [apply Hden|]. cbn.
    unfold rset. rewrite lookup_insert_ne; [apply Hden|]. intros [= ??]. by apply Hno.
  - split; [done|intros; by destruct Hno].
Qed.

Lemma check_denied mo (who agid category : string) user agent a a' r :
  uuid_law -> denied user agent a -> check_permission mo who agid category a = (a', r) ->
  denied user agent a' /\ (names mo a who user -> agid = uuid_str agent -> r = inr false).
Proof.
  intros Hlaw Hden. unfold check_permission. case_bool_decide; cbn [negb]; [|by intros [= <- <-]].
  unfold or_else, names. unfold mbind at 1, M_bind at 1.
  destruct (py_startswith who "uui_").
  - unfold mbind at 1, M_bind at 1.
    destruct (resolve_by_token mo who a) as [a1 r1] eqn:Hr.
    pose proof (resolve_by_token_reads (ac_db a) mo who a a1 r1 eq_refl Hr) as [Hsame _].
    pose proof (denied_same user agent a a1 Hsame Hden) as Hden1.
    destruct r1 as [e|[u|]]; [|cbn|by intros [= <- <-]].
    + intros [= <- <-]. split; [|by intros (? & ? & ? & _)]. apply (denied_same user agent a1); [|done].
      unfold same_access. cbn. by rewrite (proj1 Hsame).
    + match goal with |- context [?m a1] => destruct (m a1) as [a2 r2] eqn:Hm end.
      apply (check_resolved mo _ _ _ user agent) in Hm as [Hden2 Hres]; [|done..].
      destruct r2 as [e|b]; intros [= <- <-].
      * split; [|done]. destruct Hden2 as [Hg Hc]. split; [|exact Hc]. cbn. apply Hden.
      * split; [done|]. intros (a3 & u' & [= <- <-] & <-) ->.
        destruct (Hres eq_refl eq_refl) as [?|[? ?]]; congruence.
  - cbn. match goal with |- context [?m a] => destruct (m a) as [a2 r2] eqn:Hm end.
    apply (check_resolved mo _ _ _ user agent) in Hm as [Hden2 Hres]; [|done..].
    destruct r2 as [e|b]; intros [= <- <-].
    + split; [|done]. destruct Hden2 as [Hg Hc]. split; [|exact Hc]. cbn. apply Hden.
    + split; [done|]. intros -> ->. destruct (Hres eq_refl eq_refl) as [?|[? ?]]; congruence.
Qed.

(** Checks one after the other, each with its moment. *)
Fixpoint checks (asked : list (Moment * (string * (string * string)))) (a : Access) : Access :=
  match asked with
  | [] => a
  | (mo, (who, (agid, category))) :: asked => checks asked (check_permission mo who agid category a).1
  end.

Lemma checks_denied user agent asked a : uuid_law -> denied user agent a -> denied user agent (checks asked a).
Proof.
  intros Hlaw. revert a. induction asked as [|[mo [who [agid category]]] asked IH]; intros a Hden; [done|].
  cbn. destruct (check_permission mo who agid category a) as [a1 r] eqn:Hc. cbn.
  apply IH. by apply (check_denied mo who agid category user agent) in Hc as [? _].
Qed.

(** C13: Revoking a grant while Redis answers denies the agent at once: the
    revocation leaves no grant and no cached permission behind, so whatever
    checks follow, by whomever and whenever, the agent has no category of the
    holder's passport, whether it names the holder by id or by token.  The calls
    run one after the other. *)
Theorem revocation_denies_at_once mo user grant_id g a a' asked mo' who category :
  uuid_law -> mo_up mo = true ->
  pp_grants (ac_db a) !! grant_id = Some g ->
  (forall i h, pp_grants (ac_db a) !! i = Some h -> pg_user_uui_id h = user -> pg_agent_id h = pg_agent_id g ->
    i = grant_id) ->
  revoke_grant mo user grant_id a = (a', inr true) ->
  names mo' (checks asked a') who user ->
  (check_permission mo' who (uuid_str (pg_agent_id g)) category (checks asked a')).2 = inr false.
Proof.
  intros Hlaw Hup Hg Huniq Hrun Hnames.
  assert (denied user (pg_agent_id g) a') as Hden.
  { revert Hrun. unfold revoke_grant, get_db, get_st, mbind, M_bind, mret, M_ret. rewrite Hg.
    case_bool_decide; cbn [negb]; [|done].
    unfold _invalidate_permission_cache, redis_write, modify_st. rewrite Hup. cbn. intros [= <-]. split; cbn.
    - intros i h [[<- <-]|[Hne Hi]]%lookup_insert_Some Hu Ha; [done|]. by rewrite (Huniq i h Hi Hu Ha) in Hne.
    - apply lookup_delete_eq. }
  apply (checks_denied _ _ asked _ Hlaw) in Hden.
  destruct (check_permission mo' who _ category (checks asked a')) as [a2 r] eqn:Hc.
  by apply (check_denied _ _ _ _ user (pg_agent_id g)) in Hc as [_ ->].
Qed.
End Revocation.

(** ** Removal *)

Section Removal.
Context `{PyLib}.

Definition deletes_point (memory_id : uuid) (r : VectorSyncOutbox) : Prop :=
  o_operation r = VectorSyncOperation.delete /\ o_memory_id r = memory_id /\ o_status r = VectorSyncStatus.pending.

Lemma enqueue_deletes_before draws i now ids b j :
  (forall j k, draws j = draws k -> j = k) -> (j < i)%nat ->
  enqueue_deletes draws i now ids b !! draws j = b !! draws j.
Proof.
  intros Hinj. revert i b. induction ids as [|id ids IH]; intros i b Hj; [done|]. cbn.
  rewrite IH by lia. unfold enqueue_vector_delete. apply lookup_insert_ne. intros ?%Hinj. lia.
Qed.

Lemma enqueue_deletes_all draws i now ids b id :
  (forall j k, draws j = draws k -> j = k) -> id ∈ ids ->
  exists j r, enqueue_deletes draws i now ids b !! j = Some r /\ deletes_point id r.
Proof.
  intros Hinj. revert i b. induction ids as [|id' ids IH]; intros i b Hin; [by apply elem_of_nil in Hin|].
  apply elem_of_cons in Hin as [<-|Hin]; [|by apply IH]. cbn. eexists (draws i), _. split.
  - rewrite enqueue_deletes_before by (done || lia). unfold enqueue_vector_delete. apply lookup_insert_eq.
  - done.
Qed.

Lemma rows_kept_Some {A} (p : A -> bool) (t : gmap uuid A) i x :
  rows_kept p t !! i = Some x <-> t !! i = Some x /\ p x = true.
Proof. unfold rows_kept. by rewrite map_lookup_filter_Some. Qed.

(** No row of the user's is left, and no version without its memory. *)
Record forgotten (user : uuid) (P : Passport) : Prop := {
  fg_user : pp_users P !! user = None;
  fg_grants i g : pp_grants P !! i = Some g -> pg_user_uui_id g <> user;
  fg_memories i m : memories P !! i = Some m -> um_user_uui_id m <> user;
  fg_versions i v : ud_versions (pp_db P) !! i = Some v -> is_Some (memories P !! uv_universal_memory_id v);
  fg_claims i c : pp_claims P !! i = Some c -> uc_user_uui_id c <> user;
  fg_revisions i r : pp_revisions P !! i = Some r -> is_Some (pp_claims P !! ur_claim_id r);
  fg_flags i f : pp_flags P !! i = Some f -> fl_user_uui_id f <> user;
  fg_links i l : pp_links P !! i = Some l -> lk_user_uui_id l <> user;
  fg_connections i c : pp_connections P !! i = Some c -> oc_user_uui_id c <> user;
}.

Lemma cascade_forgets user P : forgotten user (cascade_delete_user user P).
Proof.
  split; intros *; cbn; rewrite ?lookup_delete_eq, ?rows_kept_Some; try done;
    try (by intros [_ Hne%negb_true_iff%bool_decide_eq_false]).
  all: by intros [_ Hin%bool_decide_eq_true].
Qed.

(** C32: A holder who removes the passport is forgotten.  The passport removed is
    the one the presented token names: it carries that token, or a cache entry
    that still lives says so.  No row of that user's is left (nor a version or
    a revision of what is gone), in the state left behind no token resolves to
    the user whatever the clock says, even one still cached, the memories
    counted in the answer are the user's, each queued for deletion from the
    vector store, and every other holder's row, grants and memories are still
    there. *)
Theorem deleted_passport_is_forgotten mo draws token a a' n :
  (forall i u, pp_users (ac_db a) !! i = Some u -> uu_id u = i) -> (forall j k, draws j = draws k -> j = k) ->
  delete_user_data mo draws token a = (a', inr (true, n)) ->
  exists user u,
    pp_users (ac_db a) !! user = Some u /\ uu_is_active u = true /\ token_names mo a token u /\
    forgotten user (ac_db a') /\
    (forall mo' token' a'' u, resolve_by_token mo' token' a' = (a'', inr (Some u)) -> uu_id u <> user) /\
    n = length (rows_where (fun m => bool_decide (um_user_uui_id m = user)) (memories (ac_db a))) /\
    (forall i m, memories (ac_db a) !! i = Some m -> um_user_uui_id m = user ->
       exists j r, pp_outbox (ac_db a') !! j = Some r /\ deletes_point (um_id m) r) /\
    (forall i v, pp_users (ac_db a) !! i = Some v -> i <> user -> pp_users (ac_db a') !! i = Some v) /\
    (forall i g, pp_grants (ac_db a) !! i = Some g -> pg_user_uui_id g <> user ->
       pp_grants (ac_db a') !! i = Some g) /\
    (forall i m, memories (ac_db a) !! i = Some m -> um_user_uui_id m <> user ->
       memories (ac_db a') !! i = Some m).
Proof.
  intros Hkeys Hinj. unfold delete_user_data. unfold mbind at 1, M_bind at 1.
  destruct (resolve_by_token mo token a) as [a1 [e|[u|]]] eqn:Hr; [done| |done].
  pose proof (resolve_by_token_names _ _ _ _ _ Hr) as Hnames.
  apply (resolve_by_token_reads (ac_db a)) in Hr as [[Hdb _] [Hactive [i Hi]]]; [|done].
  pose proof (Hkeys i u Hi) as <-. unfold get_db, get_st, mbind, M_bind, mret, M_ret, modify_st, redis_write.
  unfold token_names in *. rewrite <- Hdb in *. destruct a1 as [P c]. cbn [ac_db] in *.
  intros Hrun. assert (ac_db a' = cascade_delete_user (uu_id u) (P <| pp_outbox ::= enqueue_deletes draws 0 (mo_tx mo)
    (um_id <$> rows_where (fun m => bool_decide (um_user_uui_id m = uu_id u)) (memories P)) |>) /\
    n = length (um_id <$> rows_where (fun m => bool_decide (um_user_uui_id m = uu_id u)) (memories P))) as [Ha' ->].
  { destruct (mo_up mo); cbn in Hrun; by injection Hrun as <- <-. }
  clear Hrun. exists (uu_id u), u. rewrite length_fmap. rewrite Ha'. split_and!.
  - done.
  - done.
  - done.
  - apply cascade_forgets.
  - intros mo' token' a'' u' Hr' Heq.
    apply (resolve_by_token_reads (ac_db a')) in Hr' as [_ [_ [j Hj]]]; [|done].
    rewrite Ha' in Hj. cbn in Hj. apply lookup_delete_Some in Hj as [Hne Hj]. by apply Hkeys in Hj; congruence.
  - done.
  - intros j m Hj Hm. cbn. apply enqueue_deletes_all; [done|]. apply list_elem_of_fmap. exists m. split; [done|].
    apply elem_of_rows_where. split; [by apply bool_decide_eq_true|by exists j].
  - intros j v Hj Hne. cbn. by rewrite lookup_delete_ne.
  - intros j g Hj Hg. cbn. apply rows_kept_Some. split; [done|]. by apply negb_true_iff, bool_decide_eq_false.
  - intros j m Hj Hm. cbn. apply rows_kept_Some. split; [done|]. by apply negb_true_iff, bool_decide_eq_false.
Qed.
End Removal.

(** ** Examples and shortfalls *)

Section Examples.
#[local] Existing Instance unary_uuids.

Definition at_second (t : Z) : Moment := {| mo_now := seconds t; mo_tx := seconds t; mo_up := true |}.

Definition empty_cache : PassportCache :=
  {| ck_tokens := ∅; ck_permissions := ∅; ck_otp_requests := ∅; ck_otp_failures := ∅; ck_otp_locks := ∅;
     ck_regenerations := ∅; ck_links := ∅; ck_oauth_states := ∅ |}.

(** The holder, with the password 123456 in force until second 600. *)
Definition awaiting : Access :=
  {| ac_db := example_passport <| pp_users := {[1%Z := holder <| uu_email := Some "a@b.c" |>
                <| uu_otp_code := Some "123456" |> <| uu_otp_expires_at := Some (seconds 600) |>]} |>;
     ac_cache := empty_cache |}.

Definition guess (t : Z) (code : string) : Moment * string := (at_second t, code).
Definition six_guesses : list (Moment * string) :=
  [guess 1 "000000"; guess 2 "000001"; guess 3 "000002"; guess 4 "000003"; guess 5 " 000004"; guess 6 "123456"].

(** The code would have been accepted at first. *)
Lemma code_is_valid : (verify_otp (at_second 6) (Some " A@b.c ") (Some "123456") awaiting).2 <> inr None.
Proof. vm_compute. done. Qed.

Lemma five_guesses_per_half_hour_witness :
  ac_db (attempts (Some " A@b.c ") six_guesses awaiting).1 = ac_db awaiting /\
  (attempts (Some " A@b.c ") six_guesses awaiting).2 = replicate 6 (inr None).
Proof.
  apply (five_guesses_per_half_hour 0 (Some " A@b.c ") "a@b.c" six_guesses awaiting).
  - vm_compute. reflexivity.
  - reflexivity.
  - reflexivity.
  - repeat constructor; vm_compute; discriminate.
  - repeat constructor; intros u; vm_compute; intros [= <-]; reflexivity.
Defined.

(** Agent 2 may write preferences until second 50. *)
Definition ending_grant : PermissionGrant := example_grant <| pg_expires_at := Some (seconds 50) |>.
Definition granted : Access :=
  {| ac_db := example_passport <| pp_grants := {[4%Z := ending_grant]} |>;
     ac_cache := empty_cache |}.

Definition asked (t : Z) : Moment * (string * (string * string)) :=
  (at_second t, (unary_str 1, (unary_str 2, "preference"))).

(** A check at second 1 is granted, and cached. *)
Definition checked : Access := checks [asked 1] granted.
Definition revoked : Access := (revoke_grant (at_second 2) 1 4 checked).1.

Lemma revocation_denies_at_once_witness :
  (check_permission (at_second 1) (unary_str 1) (unary_str 2) "preference" granted).2 = inr true /\
  (check_permission (at_second 2) (unary_str 1) (unary_str 2) "preference" checked).2 = inr true /\
  (check_permission (at_second 4) "uui_1" (unary_str 2) "preference" (checks [asked 3] revoked)).2 = inr false.
Proof.
  split; [vm_compute; reflexivity|]. split; [vm_compute; reflexivity|].
  pose proof (revocation_denies_at_once (at_second 2) 1 4 ending_grant checked revoked [asked 3] (at_second 4)
                "uui_1" "preference") as Hdenied.
  change (uuid_str (pg_agent_id ending_grant)) with (unary_str 2) in Hdenied. apply Hdenied; clear Hdenied.
  - exact unary_uuid_law.
  - reflexivity.
  - vm_compute. reflexivity.
  - intros i h Hi _ _. assert (pp_grants (ac_db checked) = {[4%Z := ending_grant]}) as Hg by (vm_compute; reflexivity).
    rewrite Hg in Hi. apply lookup_singleton_Some in Hi as [<- _]. reflexivity.
  - vm_compute. reflexivity.
  - unfold names. vm_compute. eexists _, _. split; reflexivity.
Defined.

Definition stored : Access := {| ac_db := first_delivery; ac_cache := empty_cache |}.
Definition removed : Access := (delete_user_data (at_second 3) Z.of_nat "uui_1" stored).1.

Lemma deleted_passport_is_forgotten_witness :
  exists user u,
    pp_users (ac_db stored) !! user = Some u /\ uu_is_active u = true /\
    token_names (at_second 3) stored "uui_1" u /\ forgotten user (ac_db removed) /\
    (forall mo' token' a'' u, resolve_by_token mo' token' removed = (a'', inr (Some u)) -> uu_id u <> user) /\
    1%nat = length (rows_where (fun m => bool_decide (um_user_uui_id m = user)) (memories (ac_db stored))) /\
    (forall i m, memories (ac_db stored) !! i = Some m -> um_user_uui_id m = user ->
       exists j r, pp_outbox (ac_db removed) !! j = Some r /\ deletes_point (um_id m) r) /\
    (forall i v, pp_users (ac_db stored) !! i = Some v -> i <> user -> pp_users (ac_db removed) !! i = Some v) /\
    (forall i g, pp_grants (ac_db stored) !! i = Some g -> pg_user_uui_id g <> user ->
       pp_grants (ac_db removed) !! i = Some g) /\
    (forall i m, memories (ac_db stored) !! i = Some m -> um_user_uui_id m <> user ->
       memories (ac_db removed) !! i = Some m).
Proof.
  apply (deleted_passport_is_forgotten (at_second 3) Z.of_nat "uui_1" stored removed 1).
  - assert (pp_users (ac_db stored) = {[1%Z := holder <| uu_memory_count := 1%Z |>]}) as Hu by (vm_compute; reflexivity).
    rewrite Hu. intros i u [<- <-]%lookup_singleton_Some. reflexivity.
  - intros j k Hjk. lia.
  - vm_compute. reflexivity.
Defined.

(** A new passport under the email of a passport that was closed: the collision
    is a 409 when PostgreSQL names the constraint of the column, and unhandled
    when it names the other unique index of the migrations. *)
Example collision_is_known_by_one_name :
  let closed := stored <| ac_db ::= fun P => P <| pp_users := {[1%Z := holder <| uu_email := Some "a@b.c" |>
                                                                  <| uu_is_active := false |>]} |> |> in
  let again index := (register (at_second 1) 9 "uui_9" "123456" true index (Some "A@b.c") None closed).2 in
  again "unique constraint universal_users_email_key" = inl passport_exists /\
  again "unique constraint ix_universal_users_email" = inl (JobError "IntegrityError").
Proof. vm_compute. done. Qed.

(** The regeneration drops the old token's key before its commit and the new
    token does not name the old key: a request that presents the old token in
    between caches it again, and it goes on resolving to the holder. *)
Example regenerated_token_survives_in_the_cache :
  let a := stored in
  let u := holder <| uu_memory_count := 1%Z |> in
  let a := (regenerate_prepare (at_second 1) u a).1 in
  let a := (resolve_by_token (at_second 1) "uui_1" a).1 in
  let a := (regenerate_commit (at_second 2) "uui_2" u a).1 in
  (resolve_by_token (at_second 3000) "uui_1" a).2 = inr (Some (u <| uu_uui_token := "uui_2" |>)) /\
  (resolve_by_token (at_second 4000) "uui_1" a).2 = inr None.
Proof. vm_compute. done. Qed.

(** A cached permission outlives the grant: this one ended at second 50. *)
Example expired_grant_is_honoured_from_the_cache :
  (check_permission (at_second 300) (unary_str 1) (unary_str 2) "preference" checked).2 = inr true /\
  (check_permission (at_second 300) (unary_str 1) (unary_str 2) "preference" granted).2 = inr false.
Proof. vm_compute. done. Qed.
End Examples.
