(* ===== verification/PassportLinks.v ===== *)
(** * Linking organisations to a passport

    [PassportLinkService] of [api/services/passport_link_service.py] and
    [OrganisationConnectionService] of
    [api/services/organisation_connection_service.py], with the handlers of
    [api/routers/uui.py] and [api/routers/tenant.py] that call them.  A tenant's
    user is linked to a passport by a one-time token the tenant hands out, or
    by a login at the organisation.

    The digest, the cipher of the organisations' secrets, the encoding of
    queries and the organisation's HTTP answers are parameters.  Unlike the
    passport service, these calls let a failure of Redis escape. *)

From S2P Require Export PassportAccess.

Definition PASSPORT_LINK_TTL_SECONDS : Z := 900.
Definition OAUTH_STATE_TTL_SECONDS : Z := 600.

(** The ids a request draws. *)
Record LinkDraws := {
  ln_link_id : uuid; ln_directory_id : uuid; ln_connection_id : uuid; ln_grant_id : uuid }.

(** The session of a request that raises is dropped. *)
Definition request {A} (m : AM A) : AM A :=
  fun a => match m a with
           | (a', inl e) => (a' <| ac_db := ac_db a |>, inl e)
           | (a', inr r) => (a', inr r)
           end.

Definition redis_down : passport_exn := JobError "redis".

(** [SET key value EX ttl NX] and [GETDEL key] *)
Definition redis_set_nx (get : PassportCache -> gmap string (Expiring json))
    (upd : (gmap string (Expiring json) -> gmap string (Expiring json)) -> PassportCache -> PassportCache)
    (mo : Moment) (key : string) (value : json) (ttl : Z) : AM bool :=
  if negb (mo_up mo) then raise_st redis_down else
  a ← get_st;
  match rget (mo_now mo) key (get (ac_cache a)) with
  | Some _ => mret false
  | None => modify_st (fun a => a <| ac_cache ::= upd (rset key value (expires_in mo ttl)) |>);; mret true
  end.

Definition redis_getdel (get : PassportCache -> gmap string (Expiring json))
    (upd : (gmap string (Expiring json) -> gmap string (Expiring json)) -> PassportCache -> PassportCache)
    (mo : Moment) (key : string) : AM (option json) :=
  if negb (mo_up mo) then raise_st redis_down else
  a ← get_st;
  modify_st (fun a => a <| ac_cache ::= upd (delete key) |>);;
  mret (rget (mo_now mo) key (get (ac_cache a))).

Definition on_links (f : gmap string (Expiring json) -> gmap string (Expiring json)) (c : PassportCache)
    : PassportCache := c <| ck_links ::= f |>.
Definition on_oauth_states (f : gmap string (Expiring json) -> gmap string (Expiring json)) (c : PassportCache)
    : PassportCache := c <| ck_oauth_states ::= f |>.

Section Links.
Context `{PyLib}.
Variable sha256 : string -> string.

(** [ProxyUserService.hash_external_user_id] *)
Definition hash_external_user_id (tenant_id external_user_id : string) : string :=
  sha256 (tenant_id +:+ ":" +:+ external_user_id).

Definition uuid_arg (s : string) : AM uuid := lift_opt (JobError "uuid") (parse_uuid_str s).

(** ** Organisations *)

Definition directory_of (tenant : uuid) : AM (option OrganisationDirectory) :=
  in_db (P ← get_st; scalar_one (rows_where (fun o => bool_decide (od_tenant_id o = tenant)) (pp_directories P))).

Definition put_directory (o : OrganisationDirectory) : AM unit :=
  modify_st (fun a => a <| ac_db ::= fun P => P <| pp_directories ::= insert (od_id o) o |> |>).

Definition private_directory (id tenant_id : uuid) (company_name : string) : OrganisationDirectory :=
  {| od_id := id; od_tenant_id := tenant_id;
     od_display_name := if bool_decide (company_name = EmptyString) then "Organisation" else company_name;
     od_logo_url := None; od_website_url := None; od_category := "other"; od_oauth_enabled := false;
     od_oauth_client_id := None; od_oauth_client_secret_ciphertext := None;
     od_oauth_authorization_url := None; od_oauth_token_url := None; od_oauth_userinfo_url := None;
     od_oauth_scopes := []; od_link_token_enabled := true; od_is_verified := false; od_is_public := false |}.

Definition ensure_private_directory (id tenant_id : uuid) : AM OrganisationDirectory :=
  existing ← directory_of tenant_id;
  match existing with
  | Some o => mret o
  | None =>
      P ← get_db;
      company_name ← lift_opt (APIError 404 "TEN_404" "tenant_not_found") (pp_tenants P !! tenant_id);
      let directory := private_directory id tenant_id company_name in
      put_directory directory;;
      mret directory
  end.

(** [x or y] of optional values *)
Definition or_old {A} (x y : option A) : option A := match x with Some _ => x | None => y end.

Definition put_connection (c : VerifiedOrgConnection) : AM unit :=
  modify_st (fun a => a <| ac_db ::= fun P => P <| pp_connections ::= insert (oc_id c) c |> |>).

Definition upsert_connection (mo : Moment) (id universal_user_id : uuid) (organisation : OrganisationDirectory)
    (method : string) (external_account_id : option string) (proxy_user_id : option uuid)
    : AM VerifiedOrgConnection :=
  connection ← in_db (P ← get_st;
    scalar_one (rows_where (fun c => bool_decide (oc_user_uui_id c = universal_user_id)
                                     && bool_decide (oc_org_directory_id c = od_id organisation))
                  (pp_connections P)));
  let external_ref := if text_given external_account_id
                      then Some (sha256 (uuid_str (od_id organisation) +:+ ":"
                                         +:+ default EmptyString external_account_id))
                      else None in
  let connection := match connection with
    | None =>
        {| oc_id := id; oc_user_uui_id := universal_user_id; oc_tenant_id := od_tenant_id organisation;
           oc_org_directory_id := od_id organisation; oc_proxy_user_id := proxy_user_id;
           oc_connection_method := method; oc_external_account_ref := external_ref;
           oc_verified_at := mo_now mo; oc_last_verified_at := mo_now mo; oc_is_active := true;
           oc_revoked_at := None; oc_revoked_by := None |}
    | Some c =>
        c <| oc_proxy_user_id ::= or_old proxy_user_id |> <| oc_connection_method := method |>
          <| oc_external_account_ref ::= or_old external_ref |> <| oc_last_verified_at := mo_now mo |>
          <| oc_is_active := true |> <| oc_revoked_at := None |> <| oc_revoked_by := None |>
    end in
  put_connection connection;;
  mret connection.

(** ** Links *)

Definition link_of_proxy (proxy_user_id : uuid) : AM (option UUIProxyLink) :=
  in_db (P ← get_st;
    scalar_one (rows_where (fun l => bool_decide (lk_proxy_user_id l = proxy_user_id)) (pp_links P))).

Definition put_link (l : UUIProxyLink) : AM unit :=
  modify_st (fun a => a <| ac_db ::= fun P => P <| pp_links ::= insert (lk_id l) l |> |>).

Definition connect_proxy_user (mo : Moment) (d : LinkDraws) (universal_user_id tenant_id proxy_user_id : uuid)
    (method : string) : AM UUIProxyLink :=
  organisation ← ensure_private_directory (ln_directory_id d) tenant_id;
  link ← link_of_proxy proxy_user_id;
  link ← match link with
         | Some l => if bool_decide (lk_user_uui_id l = universal_user_id) then mret l
                     else raise_st (APIError 409 "PLINK_409" "proxy_user_already_linked")
         | None =>
             let l := {| lk_id := ln_link_id d; lk_tenant_id := tenant_id; lk_proxy_user_id := proxy_user_id;
                         lk_user_uui_id := universal_user_id; lk_linked_at := mo_tx mo |} in
             put_link l;; mret l
         end;
  upsert_connection mo (ln_connection_id d) universal_user_id organisation method None (Some proxy_user_id);;
  mret link.

(** ** Link tokens *)

Definition link_payload (tenant agent proxy : uuid) : json :=
  JObj [("tenant_id", JStr (uuid_str tenant)); ("agent_id", JStr (uuid_str agent));
        ("proxy_user_id", JStr (uuid_str proxy))].

Definition proxy_by_hash (tenant : uuid) (hash : string) : AM (option ProxyUser) :=
  in_db (P ← get_st;
    scalar_one (rows_where (fun u => bool_decide (pu_tenant_id u = tenant)
                                     && bool_decide (pu_external_user_id_hash u = hash)) (pp_proxy_users P))).

Definition issue (mo : Moment) (raw_token tenant_id agent_id external_user_id : string) : AM string :=
  tenant_uuid ← uuid_arg tenant_id;
  agent_uuid ← uuid_arg agent_id;
  P ← get_db;
  agent ← lift_opt (APIError 404 "AGN_404" "global_agent_not_found")
    (g ← pp_agents P !! agent_uuid;
     if bool_decide (ga_owner_tenant_id g = tenant_uuid) && ga_is_active g then Some g else None);
  proxy_user ← proxy_by_hash tenant_uuid (hash_external_user_id tenant_id external_user_id);
  match proxy_user with
  | None => raise_st (APIError 404 "USR_404" "proxy_user_not_found")
  | Some u =>
      stored ← redis_set_nx ck_links on_links mo (sha256 raw_token)
                 (link_payload tenant_uuid (ga_id agent) (pu_id u)) PASSPORT_LINK_TTL_SECONDS;
      if stored : bool then mret raw_token
      else raise_st (APIError 503 "PLINK_503" "link_token_unavailable")
  end.

(** [uuid.UUID(str(payload[k]))] *)
Definition payload_uuid (k : string) (payload : json) : option uuid :=
  match payload with
  | JObj o => v ← jget k o; parse_uuid_str (py_str str_other v)
  | _ => None
  end.

Definition consume (mo : Moment) (d : LinkDraws) (token agent_id user_uui_id : string) : AM UUIProxyLink :=
  raw_payload ← redis_getdel ck_links on_links mo (sha256 token);
  match raw_payload with
  | None => raise_st (APIError 410 "PLINK_410" "passport_link_expired_or_used")
  | Some payload =>
      match payload_uuid "agent_id" payload, payload_uuid "tenant_id" payload,
            payload_uuid "proxy_user_id" payload with
      | Some token_agent_id, Some tenant_id, Some proxy_user_id =>
          agent ← uuid_arg agent_id;
          if negb (bool_decide (token_agent_id = agent))
          then raise_st (APIError 403 "PLINK_403" "passport_link_agent_mismatch") else
          user_uuid ← uuid_arg user_uui_id;
          connect_proxy_user mo d user_uuid tenant_id proxy_user_id "link_token"
      | _, _, _ => raise_st (APIError 422 "PLINK_422" "invalid_passport_link")
      end
  end.

(** [create_my_grant]; the notification by mail is left out. *)
Definition create_my_grant (mo : Moment) (d : LinkDraws) (user : UniversalUser) (agent_id : uuid)
    (link_token : option string) (categories : list string) (access_type : string)
    (expires_at : option datetime) (duration_days : option Z) : AM PermissionGrant :=
  let expires_at := match expires_at, duration_days with
                    | None, Some days => Some (mo_now mo + seconds (86400 * days))%Z
                    | _, _ => expires_at
                    end in
  request (
    (if text_given link_token
     then consume mo d (default EmptyString link_token) (uuid_str agent_id) (uuid_str (uu_id user));; mret tt
     else mret tt);;
    create_grant mo (ln_grant_id d) (uu_id user) agent_id categories access_type expires_at).

Definition disconnect_my_organisation (mo : Moment) (user : UniversalUser) (connection_id : string) : AM unit :=
  let not_found := APIError 404 "ORG_CONN_404" "connection_not_found" in
  connection_uuid ← lift_opt not_found (parse_uuid_str connection_id);
  P ← get_db;
  connection ← lift_opt not_found
    (c ← pp_connections P !! connection_uuid;
     if bool_decide (oc_user_uui_id c = uu_id user) && oc_is_active c then Some c else None);
  put_connection (connection <| oc_is_active := false |> <| oc_revoked_at := Some (mo_now mo) |>
                             <| oc_revoked_by := Some "user" |>).
End Links.

(** ** Logins *)

Section OAuth.
Context `{PyLib}.
Variable sha256 : string -> string.
(** [base64.urlsafe_b64encode(sha256(..)).rstrip("=")], [urlencode] *)
Variable code_challenge : string -> string.
Variable urlencode : list (string * string) -> string.
(** The setting, [Fernet(key)] if it is a key, and its two directions. *)
Variable oauth_credential_encryption_key : string.
Variable fernet : string -> option ((string -> string) * (string -> option string)).
(** The answer's JSON; [None] where the request or its status fails or the
    answer is not JSON. *)
Variable post_token : string -> list (string * string) -> option json.
Variable get_userinfo : string -> string -> option json.

Definition oauth_503 (error : string) : passport_exn := APIError 503 "ORG_OAUTH_503" error.

Definition _fernet : AM ((string -> string) * (string -> option string)) :=
  let key := py_strip oauth_credential_encryption_key in
  if bool_decide (key = EmptyString) then raise_st (oauth_503 "oauth_credential_encryption_not_configured")
  else lift_opt (oauth_503 "oauth_credential_encryption_invalid") (fernet key).

Definition encrypt_credential (value : string) : AM string := f ← _fernet; mret (f.1 value).
Definition decrypt_credential (value : string) : AM string :=
  f ← _fernet; lift_opt (oauth_503 "oauth_credential_decryption_failed") (f.2 value).

Definition not_available : passport_exn := APIError 409 "ORG_OAUTH_409" "organisation_oauth_not_available".
Definition organisation_not_found : passport_exn := APIError 404 "ORG_404" "organisation_not_found".

Definition initiate_oauth (mo : Moment) (state verifier : string) (universal_user_id organisation_id : uuid)
    (redirect_uri : string) : AM string :=
  P ← get_db;
  organisation ← lift_opt organisation_not_found
    (o ← pp_directories P !! organisation_id; if od_is_public o then Some o else None);
  if negb (od_oauth_enabled organisation && text_given (od_oauth_client_id organisation)
           && text_given (od_oauth_client_secret_ciphertext organisation)
           && text_given (od_oauth_authorization_url organisation)
           && text_given (od_oauth_token_url organisation) && text_given (od_oauth_userinfo_url organisation))
  then raise_st not_available else
  stored ← redis_set_nx ck_oauth_states on_oauth_states mo state
    (JObj [("user_uui_id", JStr (uuid_str universal_user_id));
           ("organisation_id", JStr (uuid_str (od_id organisation))); ("redirect_uri", JStr redirect_uri);
           ("code_verifier", JStr verifier); ("initiated_at", JStr (isoformat (mo_now mo)))])
    OAUTH_STATE_TTL_SECONDS;
  if negb stored then raise_st (oauth_503 "oauth_state_unavailable") else
  mret (default EmptyString (od_oauth_authorization_url organisation) +:+ "?" +:+ urlencode
    [("client_id", default EmptyString (od_oauth_client_id organisation)); ("redirect_uri", redirect_uri);
     ("scope", py_join " " (od_oauth_scopes organisation)); ("state", state); ("response_type", "code");
     ("code_challenge", code_challenge verifier); ("code_challenge_method", "S256")]).

Definition payload_text (k : string) (payload : json) : option string :=
  match payload with JObj o => py_str str_other <$> jget k o | _ => None end.

(** [next((str(userinfo[key]) for key in .. if userinfo.get(key) is not None), "")] *)
Definition first_identity (userinfo : obj) : string :=
  match filter (fun v => v <> JNull)
          ((fun k => jget_or_null k userinfo) <$> ["sub"; "id"; "user_id"; "email"]) with
  | v :: _ => py_str str_other v
  | [] => EmptyString
  end.

Definition provider_failed : passport_exn := APIError 502 "ORG_OAUTH_502" "oauth_provider_failed".

(** The account the provider names for the code. *)
Definition provider_account (organisation : OrganisationDirectory) (code secret redirect_uri verifier : string)
    : AM string :=
  token_payload ← lift_opt provider_failed
    (post_token (default EmptyString (od_oauth_token_url organisation))
       [("client_id", default EmptyString (od_oauth_client_id organisation)); ("client_secret", secret);
        ("code", code); ("redirect_uri", redirect_uri); ("grant_type", "authorization_code");
        ("code_verifier", verifier)]);
  token_payload ← lift_opt (JobError "attribute") (match token_payload with JObj o => Some o | _ => None end);
  let access_token := str_or_empty (jget_or_null "access_token" token_payload) in
  if bool_decide (access_token = EmptyString) then raise_st provider_failed else
  userinfo ← lift_opt provider_failed
    (get_userinfo (default EmptyString (od_oauth_userinfo_url organisation)) access_token);
  userinfo ← lift_opt (JobError "attribute") (match userinfo with JObj o => Some o | _ => None end);
  mret (first_identity userinfo).

Definition complete_oauth (mo : Moment) (d : LinkDraws) (code state : string) : AM OrganisationDirectory :=
  raw_state ← redis_getdel ck_oauth_states on_oauth_states mo state;
  payload ← lift_opt (APIError 410 "ORG_OAUTH_410" "oauth_state_expired") raw_state;
  match payload_uuid "user_uui_id" payload, payload_uuid "organisation_id" payload,
        payload_text "redirect_uri" payload, payload_text "code_verifier" payload with
  | Some user_uui_id, Some organisation_id, Some redirect_uri, Some code_verifier =>
      P ← get_db;
      organisation ← lift_opt organisation_not_found
        (o ← pp_directories P !! organisation_id; if od_oauth_enabled o then Some o else None);
      if negb (text_given (od_oauth_client_id organisation)
               && text_given (od_oauth_client_secret_ciphertext organisation)
               && text_given (od_oauth_token_url organisation) && text_given (od_oauth_userinfo_url organisation))
      then raise_st not_available else
      secret ← decrypt_credential (default EmptyString (od_oauth_client_secret_ciphertext organisation));
      external_account_id ← provider_account organisation code secret redirect_uri code_verifier;
      if bool_decide (external_account_id = EmptyString)
      then raise_st (APIError 422 "ORG_OAUTH_422" "oauth_identity_missing") else
      proxy_user ← proxy_by_hash (od_tenant_id organisation)
        (hash_external_user_id sha256 (uuid_str (od_tenant_id organisation)) external_account_id);
      match proxy_user with
      | None => mret tt
      | Some u =>
          link ← link_of_proxy (pu_id u);
          match link with
          | Some l => if bool_decide (lk_user_uui_id l = user_uui_id) then mret tt
                      else raise_st (APIError 409 "ORG_CONN_409" "organisation_account_already_connected")
          | None => put_link {| lk_id := ln_link_id d; lk_tenant_id := od_tenant_id organisation;
                                lk_proxy_user_id := pu_id u; lk_user_uui_id := user_uui_id;
                                lk_linked_at := mo_tx mo |}
          end
      end;;
      upsert_connection sha256 mo (ln_connection_id d) user_uui_id organisation "oauth"
        (Some external_account_id) (pu_id <$> proxy_user);;
      mret organisation
  | _, _, _, _ => raise_st (APIError 422 "ORG_OAUTH_422" "invalid_oauth_state")
  end.

(** ** Registering an organisation *)

Record OrganisationDirectoryRegisterRequest := {
  rr_display_name : string; rr_logo_url : option string; rr_website_url : option string; rr_category : string;
  rr_oauth_client_id : option string; rr_oauth_client_secret : option string;
  rr_oauth_authorization_url : option string; rr_oauth_token_url : option string;
  rr_oauth_userinfo_url : option string; rr_oauth_scopes : list string; rr_link_token_enabled : bool;
  rr_is_public : bool }.

(** [list(dict.fromkeys(scopes))] *)
Definition first_of_each (scopes : list string) : list string :=
  foldl (fun kept s => if bool_decide (s ∈ kept) then kept else kept ++ [s]) [] scopes.

Definition register_tenant_organisation_directory (id tenant_uuid : uuid)
    (payload : OrganisationDirectoryRegisterRequest) : AM uuid :=
  existing ← directory_of tenant_uuid;
  encrypted_secret ← (if text_given (rr_oauth_client_secret payload)
                      then s ← encrypt_credential (default EmptyString (rr_oauth_client_secret payload));
                           mret (Some s)
                      else mret None);
  let directory :=
    {| od_id := match existing with Some o => od_id o | None => id end;
       od_tenant_id := tenant_uuid; od_display_name := py_strip (rr_display_name payload);
       od_logo_url := rr_logo_url payload; od_website_url := rr_website_url payload;
       od_category := rr_category payload; od_oauth_enabled := text_given (rr_oauth_client_id payload);
       od_oauth_client_id := rr_oauth_client_id payload;
       od_oauth_client_secret_ciphertext :=
         or_old encrypted_secret (existing ≫= od_oauth_client_secret_ciphertext);
       od_oauth_authorization_url := rr_oauth_authorization_url payload;
       od_oauth_token_url := rr_oauth_token_url payload; od_oauth_userinfo_url := rr_oauth_userinfo_url payload;
       od_oauth_scopes := first_of_each (rr_oauth_scopes payload);
       od_link_token_enabled := rr_link_token_enabled payload; od_is_verified := false;
       od_is_public := rr_is_public payload |} in
  put_directory directory;;
  mret (od_id directory).
End OAuth.
