(* ===== verification/PassportLinkTheorems.v ===== *)
(** * Linking organisations to a passport: theorems

    Links stay within the tenant that issued them and name one passport each;
    a link token serves the holder who consents to the agent it was issued for,
    once. *)

From S2P Require Export UniversalRows PassportAccessTheorems PassportLinks.

Definition keyed {A} (id : A -> uuid) (t : gmap uuid A) : Prop := forall i x, t !! i = Some x -> id x = i.

Lemma keyed_insert {A} (id : A -> uuid) t x : keyed id t -> keyed id (<[id x := x]> t).
Proof. intros Ht i y [[<- <-]|[_ Hy]]%lookup_insert_Some; [done|by apply Ht]. Qed.

Lemma scalar_one_db {A} (rows : Passport -> list A) a a' r :
  in_db (P ← get_st; scalar_one (rows P)) a = (a', r) ->
  a' = a /\ match r with
            | inr None => rows (ac_db a) = []
            | inr (Some x) => rows (ac_db a) = [x]
            | inl _ => True
            end.
Proof.
  unfold in_db, get_st, mbind, M_bind. destruct a as [P c]. cbn.
  destruct (rows P) as [|x [|y l]]; by intros [= <- <-].
Qed.

(** Steps that only read. *)
Lemma get_db_bind {A} (f : Passport -> AM A) a : (get_db ≫= f) a = f (ac_db a) a.
Proof. done. Qed.
Lemma some_bind {A B} (e : passport_exn) (x : A) (f : A -> AM B) a : (lift_opt e (Some x) ≫= f) a = f x a.
Proof. done. Qed.
Lemma none_bind {A B} (e : passport_exn) (f : A -> AM B) a : (lift_opt e None ≫= f) a = (a, inl e).
Proof. done. Qed.

Section Links.
Context `{PyLib}.
Variable sha256 : string -> string.

(** User [p] of the tenant. *)
Definition proxy_in (tenant p : uuid) (P : Passport) : Prop :=
  exists u, pp_proxy_users P !! p = Some u /\ pu_tenant_id u = tenant.

(** What a link token was stored for: an agent and a user of one tenant. *)
Definition token_ok (P : Passport) (payload : json) : Prop :=
  exists tenant agent proxy g,
    payload = link_payload tenant agent proxy /\ pp_agents P !! agent = Some g /\
    ga_owner_tenant_id g = tenant /\ proxy_in tenant proxy P.

Record links_ok (a : Access) : Prop := {
  lo_keys : keyed lk_id (pp_links (ac_db a)) /\ keyed od_id (pp_directories (ac_db a)) /\
            keyed oc_id (pp_connections (ac_db a)) /\ keyed pu_id (pp_proxy_users (ac_db a)) /\
            keyed ga_id (pp_agents (ac_db a));
  (* one link per proxy user *)
  lo_once i j l l' : pp_links (ac_db a) !! i = Some l -> pp_links (ac_db a) !! j = Some l' ->
    lk_proxy_user_id l = lk_proxy_user_id l' -> i = j;
  (* a link is of the tenant of its user *)
  lo_tenant i l : pp_links (ac_db a) !! i = Some l -> proxy_in (lk_tenant_id l) (lk_proxy_user_id l) (ac_db a);
  (* one directory row per tenant *)
  lo_directory i j o o' : pp_directories (ac_db a) !! i = Some o -> pp_directories (ac_db a) !! j = Some o' ->
    od_tenant_id o = od_tenant_id o' -> i = j;
  (* one connection per holder and organisation, of the organisation's tenant *)
  lo_connected i j c c' : pp_connections (ac_db a) !! i = Some c -> pp_connections (ac_db a) !! j = Some c' ->
    oc_user_uui_id c = oc_user_uui_id c' -> oc_org_directory_id c = oc_org_directory_id c' -> i = j;
  lo_connection i c : pp_connections (ac_db a) !! i = Some c ->
    (exists o, pp_directories (ac_db a) !! oc_org_directory_id c = Some o /\ od_tenant_id o = oc_tenant_id c) /\
    (forall p, oc_proxy_user_id c = Some p -> proxy_in (oc_tenant_id c) p (ac_db a));
  lo_token k e : ck_links (ac_cache a) !! k = Some e -> token_ok (ac_db a) (ex_value e);
}.

(** ** Operations *)

Lemma links_ok_same a a' :
  pp_links (ac_db a') = pp_links (ac_db a) -> pp_directories (ac_db a') = pp_directories (ac_db a) ->
  pp_connections (ac_db a') = pp_connections (ac_db a) -> pp_proxy_users (ac_db a') = pp_proxy_users (ac_db a) ->
  pp_agents (ac_db a') = pp_agents (ac_db a) ->
  (forall k e, ck_links (ac_cache a') !! k = Some e -> ck_links (ac_cache a) !! k = Some e) ->
  links_ok a -> links_ok a'.
Proof.
  intros Hl Hd Hc Hp Hg Ht [].
  assert (forall t p, proxy_in t p (ac_db a) -> proxy_in t p (ac_db a')) as Hin by (unfold proxy_in; by rewrite Hp).
  split; rewrite ?Hl, ?Hd, ?Hc, ?Hp, ?Hg; try done.
  - eauto.
  - intros i c Hi. destruct (lo_connection0 i c Hi). eauto.
  - intros k e (t & ag & p & g & He & Hag & Hot & Hpr)%Ht%lo_token0. exists t, ag, p, g. rewrite Hg. eauto.
Qed.

Lemma put_directory_ok o a :
  links_ok a ->
  (forall i o', pp_directories (ac_db a) !! i = Some o' -> od_tenant_id o' = od_tenant_id o -> i = od_id o) ->
  (forall o', pp_directories (ac_db a) !! od_id o = Some o' -> od_tenant_id o' = od_tenant_id o) ->
  links_ok (put_directory o a).1.
Proof.
  intros [(Hkl & Hkd & Hkc & Hkp & Hkg) ? ? ? ? ? ?] Hone Hsame. split; cbn; try done.
  - split_and!; [done|by apply keyed_insert|done..].
  - intros i j o1 o2 [[<- <-]|[Hi H1]]%lookup_insert_Some [[<- <-]|[Hj H2]]%lookup_insert_Some Ht; [done|..].
    + symmetry. by apply (Hone j o2).
    + by apply (Hone i o1).
    + by eapply lo_directory0.
  - intros i c Hc. destruct (lo_connection0 i c Hc) as [(o' & Ho' & Ht) Hp]. split; [|done].
    destruct (decide (od_id o = oc_org_directory_id c)) as [He|He].
    + rewrite <- He in *. exists o. rewrite lookup_insert_eq. split; [done|]. by rewrite <- (Hsame o' Ho').
    + exists o'. by rewrite lookup_insert_ne.
Qed.

Lemma directory_of_inv tenant a a' r :
  directory_of tenant a = (a', r) ->
  a' = a /\ match r with
            | inr None => forall i o, pp_directories (ac_db a) !! i = Some o -> od_tenant_id o <> tenant
            | inr (Some o) => od_tenant_id o = tenant /\ exists i, pp_directories (ac_db a) !! i = Some o
            | inl _ => True
            end.
Proof.
  intros [-> Hr]%scalar_one_db. split; [done|]. destruct r as [e|[o|]]; [done| |].
  - apply one_row in Hr as [?%bool_decide_eq_true ?]. done.
  - intros i o Ho. apply (no_row _ _ i o) in Hr; [|done]. by apply bool_decide_eq_false in Hr.
Qed.

(** What the links and tokens are, for comparing states. *)
Definition same_links (a a' : Access) : Prop :=
  pp_links (ac_db a') = pp_links (ac_db a) /\ pp_proxy_users (ac_db a') = pp_proxy_users (ac_db a) /\
  pp_agents (ac_db a') = pp_agents (ac_db a) /\ ck_links (ac_cache a') = ck_links (ac_cache a).

Lemma same_links_trans a b c : same_links a b -> same_links b c -> same_links a c.
Proof. unfold same_links. intros (-> & -> & -> & ->). done. Qed.

Lemma ensure_directory_ok id tenant a a' r :
  links_ok a -> pp_directories (ac_db a) !! id = None ->
  ensure_private_directory id tenant a = (a', r) ->
  links_ok a' /\ same_links a a' /\
  match r with inr o => od_tenant_id o = tenant /\ pp_directories (ac_db a') !! od_id o = Some o | inl _ => True end.
Proof.
  intros Hok Hid. unfold ensure_private_directory. unfold mbind at 1, M_bind at 1.
  destruct (directory_of tenant a) as [a1 [e|[o|]]] eqn:Hd; apply directory_of_inv in Hd as [-> Hd].
  - by intros [= <- <-].
  - intros [= <- <-]. split; [done|]. split; [done|]. destruct Hd as [Ht [i Hi]]. split; [done|].
    by rewrite (proj1 (proj2 (lo_keys _ Hok)) i o Hi).
  - unfold get_db, get_st, mbind, M_bind, mret, M_ret, lift_opt.
    destruct (pp_tenants (ac_db a) !! tenant) as [name|]; [|by intros [= <- <-]].
    change (((put_directory (private_directory id tenant name) a).1, inr (private_directory id tenant name)) = (a', r) ->
            links_ok a' /\ same_links a a' /\
            match r with inr o => od_tenant_id o = tenant /\ pp_directories (ac_db a') !! od_id o = Some o
                       | inl _ => True end).
    intros [= <- <-]. split_and!; [|done..|apply lookup_insert_eq].
    apply (put_directory_ok (private_directory id tenant name)); [done| |].
    + intros i o' Hi Ht. by apply Hd in Hi.
    + intros o' Ho'. cbn in Ho'. by rewrite Hid in Ho'.
Qed.

Lemma put_connection_ok c a :
  links_ok a ->
  (forall i c', pp_connections (ac_db a) !! i = Some c' -> oc_user_uui_id c' = oc_user_uui_id c ->
     oc_org_directory_id c' = oc_org_directory_id c -> i = oc_id c) ->
  (exists o, pp_directories (ac_db a) !! oc_org_directory_id c = Some o /\ od_tenant_id o = oc_tenant_id c) ->
  (forall p, oc_proxy_user_id c = Some p -> proxy_in (oc_tenant_id c) p (ac_db a)) ->
  links_ok (put_connection c a).1.
Proof.
  intros [(Hkl & Hkd & Hkc & Hkp & Hkg) ? ? ? ? ? ?] Hone Horg Hproxy. split; cbn; try done.
  - split_and!; [done..|by apply keyed_insert|done|done].
  - intros i j c1 c2 [[<- <-]|[Hi H1]]%lookup_insert_Some [[<- <-]|[Hj H2]]%lookup_insert_Some Hu Ho; [done|..].
    + symmetry. by apply (Hone j c2).
    + by apply (Hone i c1).
    + by eapply lo_connected0.
  - intros i c' [[_ <-]|[_ Hc]]%lookup_insert_Some; [done|by apply (lo_connection0 i)].
Qed.

Lemma upsert_connection_ok mo id user o method ext proxy a a' r :
  links_ok a -> pp_directories (ac_db a) !! od_id o = Some o ->
  (forall p, proxy = Some p -> proxy_in (od_tenant_id o) p (ac_db a)) ->
  upsert_connection sha256 mo id user o method ext proxy a = (a', r) -> links_ok a' /\ same_links a a'.
Proof.
  intros Hok Ho Hproxy. unfold upsert_connection. unfold mbind at 1, M_bind at 1.
  destruct (in_db _ a) as [a1 [e|found]] eqn:Hc; apply scalar_one_db in Hc as [-> Hc]; [by intros [= <- <-]|].
  cbv zeta. set (c' := match found with Some c => _ | None => _ end).
  intros [= <- _]. split; [|done]. apply (put_connection_ok c'); [done|..].
  - intros i c1 Hi Hu Hd. destruct found as [c|].
    + apply one_row in Hc as [[Hcu%bool_decide_eq_true Hco%bool_decide_eq_true]%andb_prop [j Hj]].
      cbn in Hu, Hd |- *. pose proof (proj1 (proj2 (proj2 (lo_keys _ Hok))) j c Hj) as ->.
      by apply (lo_connected _ Hok i j c1 c).
    + apply (no_row _ _ i c1) in Hc; [|done]. cbn in Hu, Hd. subst.
      rewrite !bool_decide_eq_true_2 in Hc by done. done.
  - destruct found as [c|]; [|by exists o].
    apply one_row in Hc as [[Hcu%bool_decide_eq_true Hco%bool_decide_eq_true]%andb_prop [j Hj]].
    by apply (lo_connection _ Hok j c).
  - intros p. destruct found as [c|]; [|cbn; intros Hp; by apply Hproxy].
    apply one_row in Hc as [[Hcu%bool_decide_eq_true Hco%bool_decide_eq_true]%andb_prop [j Hj]].
    destruct (lo_connection _ Hok j c Hj) as [(o' & Ho' & Ht) Hp]. rewrite Hco, Ho in Ho'. simplify_eq.
    cbn. unfold or_old. destruct proxy as [q|]; [intros [= <-]|apply Hp]. rewrite <- Ht. by apply Hproxy.
Qed.

(** A user's new link. *)
Lemma put_link_ok l a :
  links_ok a -> proxy_in (lk_tenant_id l) (lk_proxy_user_id l) (ac_db a) ->
  (forall i l', pp_links (ac_db a) !! i = Some l' -> lk_proxy_user_id l' <> lk_proxy_user_id l) ->
  links_ok (put_link l a).1.
Proof.
  intros [(Hkl & Hkd & Hkc & Hkp & Hkg) ? ? ? ? ? ?] Hin Hnew. split; cbn; try done.
  - split_and!; [by apply keyed_insert|done..].
  - intros i j l1 l2 [[<- <-]|[Hi H1]]%lookup_insert_Some [[<- <-]|[Hj H2]]%lookup_insert_Some Hp; [done|..].
    + by destruct (Hnew j l2).
    + by destruct (Hnew i l1).
    + by eapply lo_once0.
  - intros i l' [[_ <-]|[_ Hi]]%lookup_insert_Some; [done|by apply (lo_tenant0 i)].
Qed.

Lemma link_of_proxy_inv p a a' r :
  link_of_proxy p a = (a', r) ->
  a' = a /\ match r with
            | inr None => forall i l, pp_links (ac_db a) !! i = Some l -> lk_proxy_user_id l <> p
            | inr (Some l) => lk_proxy_user_id l = p /\ exists i, pp_links (ac_db a) !! i = Some l
            | inl _ => True
            end.
Proof.
  intros [-> Hr]%scalar_one_db. split; [done|]. destruct r as [e|[l|]]; [done| |].
  - apply one_row in Hr as [?%bool_decide_eq_true ?]. done.
  - intros i l Hl. apply (no_row _ _ i l) in Hr; [|done]. by apply bool_decide_eq_false in Hr.
Qed.

(** The links a call may leave: the ones there were, or also one of [p], who
    had none, to the holder. *)
Inductive linked (user tenant p : uuid) (a a' : Access) : Prop :=
  | linked_already l i : pp_links (ac_db a) !! i = Some l -> lk_proxy_user_id l = p -> lk_user_uui_id l = user ->
      pp_links (ac_db a') = pp_links (ac_db a) -> linked user tenant p a a'
  | linked_now l : lk_proxy_user_id l = p -> lk_user_uui_id l = user -> lk_tenant_id l = tenant ->
      (forall i l', pp_links (ac_db a) !! i = Some l' -> lk_proxy_user_id l' <> p) ->
      pp_links (ac_db a') = <[lk_id l := l]> (pp_links (ac_db a)) -> linked user tenant p a a'.

(** The rest of the state a link does not change. *)
Definition same_others (a a' : Access) : Prop :=
  pp_proxy_users (ac_db a') = pp_proxy_users (ac_db a) /\ pp_agents (ac_db a') = pp_agents (ac_db a) /\
  ck_links (ac_cache a') = ck_links (ac_cache a).

Lemma same_links_others a a' : same_links a a' -> same_others a a'.
Proof. by intros (_ & ? & ? & ?). Qed.

Lemma connect_proxy_user_ok mo d user tenant p method a a' r :
  links_ok a -> pp_directories (ac_db a) !! ln_directory_id d = None -> proxy_in tenant p (ac_db a) ->
  connect_proxy_user sha256 mo d user tenant p method a = (a', r) ->
  links_ok a' /\ same_others a a' /\ match r with inr _ => linked user tenant p a a' | inl _ => True end.
Proof.
  intros Hok Hd Hin. unfold connect_proxy_user. unfold mbind at 1, M_bind at 1.
  destruct (ensure_private_directory _ _ a) as [a1 [e|o]] eqn:He;
    (apply ensure_directory_ok in He as (Hok1 & Hs1 & Ho); [|done..]);
    [intros [= <- <-]; by eauto using same_links_others|].
  destruct Ho as [Hot Ho]. pose proof Hs1 as (Hl1 & Hp1 & Hg1 & Hk1).
  assert (proxy_in tenant p (ac_db a1)) as Hin1 by (unfold proxy_in; by rewrite Hp1).
  unfold mbind at 1, M_bind at 1.
  destruct (link_of_proxy p a1) as [a2 [e|[l|]]] eqn:Hl; apply link_of_proxy_inv in Hl as [-> Hl].
  - intros [= <- <-]; eauto using same_links_others.
  - unfold mbind at 1, M_bind at 1. case_bool_decide as Hu; [|by intros [= <- <-]; eauto using same_links_others].
    cbn. unfold mbind, M_bind.
    destruct (upsert_connection _ _ _ _ _ _ _ _ a1) as [a3 [e|c]] eqn:Hc; intros [= <- <-];
      apply upsert_connection_ok in Hc as [Hok3 Hs3]; try done;
      try (intros q [= <-]; by rewrite Hot); pose proof (same_links_trans _ _ _ Hs1 Hs3) as Hs;
      (split; [done|]; split; [by apply same_links_others|]); [done|].
    destruct Hl as [Hlp [i Hi]]. rewrite Hl1 in Hi. apply (linked_already _ _ _ _ _ l i); [done..|apply Hs].
  - set (l := {| lk_id := _ |}).
    assert (links_ok (put_link l a1).1) as Hok2 by (by apply put_link_ok).
    rewrite (M_bind_inr _ _ a1 (put_link l a1).1 l eq_refl). unfold mbind, M_bind.
    destruct (upsert_connection _ _ _ _ _ _ _ _ (put_link l a1).1) as [a3 [e|c]] eqn:Hc; intros [= <- <-];
      apply upsert_connection_ok in Hc as [Hok3 Hs3]; try done;
      try (intros q [= <-]; by rewrite Hot);
      (split; [done|]; split; [by unfold same_others; destruct Hs3 as (_ & -> & -> & ->)|]); [done|].
    apply (linked_now _ _ _ _ _ l); try done.
    + intros i l' Hi. rewrite <- Hl1 in Hi. by apply Hl in Hi.
    + rewrite (proj1 Hs3). cbn. by rewrite Hl1.
Qed.

(** The keys left by the consumption of a token. *)
Definition spent (mo : Moment) (key : string) (a : Access) : gmap string (Expiring json) :=
  if mo_up mo then delete key (ck_links (ac_cache a)) else ck_links (ac_cache a).

Lemma links_ok_spent mo key a a' :
  links_ok a -> ac_db a' = ac_db a -> ck_links (ac_cache a') = spent mo key a -> links_ok a'.
Proof.
  intros Hok Hd Hc. apply (links_ok_same a); rewrite ?Hd, ?Hc; try done.
  intros k e. unfold spent. destruct (mo_up mo); [|done]. by intros [_ ?]%lookup_delete_Some.
Qed.

Lemma redis_getdel_inv get upd mo key a a' r :
  redis_getdel get upd mo key a = (a', r) ->
  if mo_up mo then a' = a <| ac_cache ::= upd (delete key) |> /\ r = inr (rget (mo_now mo) key (get (ac_cache a)))
  else a' = a /\ r = inl redis_down.
Proof. unfold redis_getdel. destruct (mo_up mo); by intros [= <- <-]. Qed.

Lemma link_payload_fields tenant agent p : uuid_law ->
  payload_uuid "agent_id" (link_payload tenant agent p) = Some agent /\
  payload_uuid "tenant_id" (link_payload tenant agent p) = Some tenant /\
  payload_uuid "proxy_user_id" (link_payload tenant agent p) = Some p.
Proof. intros Hlaw. split_and!; exact (proj2 (Hlaw _)). Qed.

Lemma consume_ok mo d token agent_id user_id a a' r :
  uuid_law -> links_ok a -> pp_directories (ac_db a) !! ln_directory_id d = None ->
  consume sha256 mo d token agent_id user_id a = (a', r) ->
  links_ok a' /\ ck_links (ac_cache a') = spent mo (sha256 token) a /\
  pp_agents (ac_db a') = pp_agents (ac_db a) /\
  match r with
  | inr _ => exists tenant agent p g user,
      rget (mo_now mo) (sha256 token) (ck_links (ac_cache a)) = Some (link_payload tenant agent p) /\
      parse_uuid_str agent_id = Some agent /\ parse_uuid_str user_id = Some user /\
      pp_agents (ac_db a) !! agent = Some g /\ ga_owner_tenant_id g = tenant /\ linked user tenant p a a'
  | inl _ => True
  end.
Proof.
  intros Hlaw Hok Hd. unfold consume. unfold mbind at 1, M_bind at 1.
  destruct (redis_getdel _ _ _ _ a) as [a1 r1] eqn:Hget. apply redis_getdel_inv in Hget.
  unfold spent. destruct (mo_up mo) eqn:Hup; destruct Hget as [Ha1 ->]; [|rewrite Ha1; by intros [= <- <-]].
  assert (ck_links (ac_cache a1) = delete (sha256 token) (ck_links (ac_cache a)) /\ ac_db a1 = ac_db a) as [Hk1 Hd1]
    by by rewrite Ha1.
  assert (links_ok a1) as Hok1 by (apply (links_ok_spent mo (sha256 token) a); [done..|by unfold spent; rewrite Hup]).
  clear Ha1.
  destruct (rget (mo_now mo) (sha256 token) (ck_links (ac_cache a))) as [payload|] eqn:Hr;
    [|intros [= <- <-]; by rewrite Hd1].
  assert (token_ok (ac_db a) payload) as (tenant & agent & p & g & -> & Hg & Hgt & Hin).
  { unfold rget in Hr. apply bind_Some in Hr as (e & He & Hr). destruct (alive _ _); [|done]. simplify_eq.
    exact (lo_token _ Hok _ _ He). }
  destruct (link_payload_fields tenant agent p Hlaw) as (-> & -> & ->).
  unfold uuid_arg, lift_opt.
  destruct (parse_uuid_str agent_id) as [agent'|] eqn:Ha; [|intros [= <- <-]; by rewrite Hd1].
  unfold mbind at 1, M_bind at 1. cbn [mret M_ret].
  case_bool_decide as Hag; cbn [negb]; [subst agent'|intros [= <- <-]; by rewrite Hd1].
  destruct (parse_uuid_str user_id) as [user|] eqn:Hu; [|intros [= <- <-]; by rewrite Hd1].
  unfold mbind at 1, M_bind at 1. cbn [mret M_ret].
  intros Hrun. apply connect_proxy_user_ok in Hrun as (Hok' & (Hp' & Hg' & Hk') & Hl); [|rewrite ?Hd1; done..].
  split; [done|]. split; [by rewrite Hk'|]. split; [by rewrite Hg', Hd1|].
  destruct r as [e|l]; [done|]. exists tenant, agent, p, g, user. do 5 (split; [done|]).
  destruct Hl as [l0 i Hi Hlp Hlu Hsame|l0 Hlp Hlu Hlt Hno Hnew]; rewrite Hd1 in *;
    [by eapply linked_already|by eapply linked_now].
Qed.

Lemma create_grant_ok mo id user agent categories access_type expires_at a a' r :
  create_grant mo id user agent categories access_type expires_at a = (a', r) ->
  (links_ok a -> links_ok a') /\ same_links a a' /\
  match r with inr g => pg_user_uui_id g = user /\ pg_agent_id g = agent | inl _ => True end.
Proof.
  unfold create_grant, _validate_categories. unfold mbind at 1, M_bind at 1.
  destruct (forallb _ _); [|by intros [= <- <-]]. cbn [mret M_ret].
  destruct (negb _); [by intros [= <- <-]|].
  unfold get_db, get_st, mbind, M_bind, mret, M_ret. destruct (negb _); [by intros [= <- <-]|].
  unfold _invalidate_permission_cache, redis_write, modify_st. destruct (mo_up mo); cbn; intros [= <- <-].
  all: split; [|done]; intros Hok; by apply (links_ok_same a).
Qed.

Lemma request_inv {A} (m : AM A) a a' r :
  request m a = (a', r) ->
  exists a1, m a = (a1, r) /\ match r with
                              | inl _ => ac_db a' = ac_db a /\ ac_cache a' = ac_cache a1
                              | inr _ => a' = a1
                              end.
Proof.
  unfold request. destruct (m a) as [a1 [e|x]] eqn:Hm; intros [= <- <-]; by exists a1.
Qed.

(** What a request for a grant does to the links: they stay, or the caller is
    linked to the user its token was issued for. *)
Lemma create_my_grant_ok mo d user agent token categories access_type expires_at days a a' r :
  uuid_law -> links_ok a -> pp_directories (ac_db a) !! ln_directory_id d = None ->
  create_my_grant sha256 mo d user agent token categories access_type expires_at days a = (a', r) ->
  links_ok a' /\
  ck_links (ac_cache a') = (if text_given token then spent mo (sha256 (default EmptyString token)) a
                            else ck_links (ac_cache a)) /\
  match r with
  | inl _ => pp_links (ac_db a') = pp_links (ac_db a)
  | inr grant => pg_user_uui_id grant = uu_id user /\ pg_agent_id grant = agent /\
      if text_given token
      then exists tenant p g,
        rget (mo_now mo) (sha256 (default EmptyString token)) (ck_links (ac_cache a)) =
          Some (link_payload tenant agent p) /\
        pp_agents (ac_db a) !! agent = Some g /\ ga_owner_tenant_id g = tenant /\
        linked (uu_id user) tenant p a a'
      else pp_links (ac_db a') = pp_links (ac_db a)
  end.
Proof.
  intros Hlaw Hok Hd. unfold create_my_grant. cbv zeta. intros (a1 & Hrun & Ha')%request_inv. revert Hrun.
  unfold mbind at 1, M_bind at 1. destruct (text_given token).
  - unfold mbind at 1, M_bind at 1.
    destruct (consume _ _ _ _ _ _ a) as [a2 [e|l]] eqn:Hc;
      (apply consume_ok in Hc as (Hok2 & Hk2 & Hg2 & Hl2); [|done..]).
    + intros [= <- <-]. destruct Ha' as [Hdb Hca]. split; [|split; [by rewrite Hca|by rewrite Hdb]].
      apply (links_ok_spent mo (sha256 (default EmptyString token)) a _ Hok Hdb). by rewrite Hca.
    + intros Hg. apply create_grant_ok in Hg as (Hok1 & Hs & Hres). destruct r as [e|grant].
      * destruct Ha' as [Hdb Hca]. split; [|split; [by rewrite Hca, (proj2 (proj2 (proj2 Hs)))|by rewrite Hdb]].
        apply (links_ok_spent mo (sha256 (default EmptyString token)) a _ Hok Hdb).
        by rewrite Hca, (proj2 (proj2 (proj2 Hs))).
      * subst a'. split; [by apply Hok1|]. split; [by rewrite (proj2 (proj2 (proj2 Hs)))|].
        destruct Hres as [? ?]. split; [done|]. split; [done|].
        destruct Hl2 as (tenant & ag & p & g & u & Hr & Hag & Hu & Hgag & Hown & Hl).
        rewrite (proj2 (Hlaw _)) in Hag. simplify_eq. rewrite (proj2 (Hlaw _)) in Hu. simplify_eq.
        exists (ga_owner_tenant_id g), p, g. do 3 (split; [done|]).
        destruct Hl as [l0 i Hi Hlp Hlu Hsame|l0 Hlp Hlu Hlt Hno Hnew];
          [eapply linked_already|eapply linked_now]; try done; by rewrite (proj1 Hs).
  - cbn. intros Hg. apply create_grant_ok in Hg as (Hok1 & Hs & Hres). destruct r as [e|grant].
    + destruct Ha' as [Hdb Hca]. split; [|split; [by rewrite Hca, (proj2 (proj2 (proj2 Hs)))|by rewrite Hdb]].
      apply (links_ok_same a); rewrite ?Hdb; try done. by rewrite Hca, (proj2 (proj2 (proj2 Hs))).
    + subst a'. split; [by apply Hok1|]. split; [by rewrite (proj2 (proj2 (proj2 Hs)))|].
      destruct Hres. split_and!; [done..|]. by rewrite (proj1 Hs).
Qed.

(** *** What a successful request connects *)

Definition same_tables (a a' : Access) : Prop :=
  pp_links (ac_db a') = pp_links (ac_db a) /\ pp_connections (ac_db a') = pp_connections (ac_db a).

(** The holder is linked to the user, and a connection that says so was
    written. *)
Definition connects (user p : uuid) (a a' : Access) : Prop :=
  (exists i l, pp_links (ac_db a') !! i = Some l /\ lk_proxy_user_id l = p /\ lk_user_uui_id l = user) /\
  exists c, pp_connections (ac_db a') = <[oc_id c := c]> (pp_connections (ac_db a)) /\
            oc_user_uui_id c = user /\ oc_proxy_user_id c = Some p /\ oc_is_active c = true.

Lemma ensure_directory_tables id tenant a a' o :
  ensure_private_directory id tenant a = (a', inr o) -> same_tables a a'.
Proof.
  unfold ensure_private_directory. intros (a1 & [o1|] & [-> _]%directory_of_inv & Hrun)%M_bind_inv;
    [by injection Hrun as <- _|].
  apply M_bind_inv in Hrun as (a2 & P & [= <- <-] & Hrun).
  apply M_bind_inv in Hrun as (a3 & name & [-> _]%lift_opt_inv & Hrun). by injection Hrun as <- _.
Qed.

Lemma upsert_connects mo id user o method ext p a a' c :
  upsert_connection sha256 mo id user o method ext (Some p) a = (a', inr c) ->
  pp_links (ac_db a') = pp_links (ac_db a) /\
  pp_connections (ac_db a') = <[oc_id c := c]> (pp_connections (ac_db a)) /\
  oc_user_uui_id c = user /\ oc_proxy_user_id c = Some p /\ oc_is_active c = true.
Proof.
  unfold upsert_connection. intros (a1 & found & [-> Hfound]%scalar_one_db & Hrun)%M_bind_inv.
  cbv zeta in Hrun. injection Hrun as <- <-. destruct found as [c'|]; [|done].
  apply one_row in Hfound as [[Hu%bool_decide_eq_true _]%andb_prop _]. done.
Qed.

Lemma connect_connects mo d user tenant p method a a' l :
  connect_proxy_user sha256 mo d user tenant p method a = (a', inr l) -> connects user p a a'.
Proof.
  unfold connect_proxy_user. intros (a1 & o & [Hl1 Hc1]%ensure_directory_tables & Hrun)%M_bind_inv.
  apply M_bind_inv in Hrun as (a2 & found & [-> Hfound]%link_of_proxy_inv & Hrun).
  apply M_bind_inv in Hrun as (a3 & l' & Hlink & Hrun).
  apply M_bind_inv in Hrun as (a4 & c & (Hl4 & Hc4 & Hcu & Hcp & Hca)%upsert_connects & [= <- <-]).
  assert ((exists i, pp_links (ac_db a3) !! i = Some l') /\ lk_proxy_user_id l' = p /\ lk_user_uui_id l' = user /\
          pp_connections (ac_db a3) = pp_connections (ac_db a1)) as ([i Hi] & Hp & Hu & Hc3).
  { destruct found as [l0|].
    - case_bool_decide; [|done]. injection Hlink as <- <-. by destruct Hfound.
    - injection Hlink as <- <-. split; [|done]. eexists. apply lookup_insert_eq. }
  split; [exists i, l'; by rewrite Hl4|]. exists c. by rewrite Hc4, Hc3, Hc1.
Qed.

Lemma consume_connects mo d token agent_id user_id a a' l :
  consume sha256 mo d token agent_id user_id a = (a', inr l) ->
  exists payload p user, rget (mo_now mo) (sha256 token) (ck_links (ac_cache a)) = Some payload /\
    payload_uuid "proxy_user_id" payload = Some p /\ parse_uuid_str user_id = Some user /\ connects user p a a'.
Proof.
  unfold consume. intros (a1 & raw & Hget & Hrun)%M_bind_inv. apply redis_getdel_inv in Hget.
  destruct (mo_up mo); destruct Hget as [Ha1 Hraw]; [|done]. injection Hraw as ->.
  destruct (rget _ _ _) as [payload|]; [|done].
  destruct (payload_uuid "agent_id" payload) as [ag|]; [|done].
  destruct (payload_uuid "tenant_id" payload) as [t|]; [|done].
  destruct (payload_uuid "proxy_user_id" payload) as [p|] eqn:Hp; [|done].
  apply M_bind_inv in Hrun as (a2 & agent & [-> _]%lift_opt_inv & Hrun).
  case_bool_decide; cbn [negb] in Hrun; [|done].
  apply M_bind_inv in Hrun as (a2 & user & [-> Hu]%lift_opt_inv & Hrun).
  apply connect_connects in Hrun. exists payload, p, user. split_and!; [done..|]. by rewrite Ha1 in Hrun.
Qed.

Lemma create_grant_tables mo id user agent categories access_type expires_at a a' r :
  create_grant mo id user agent categories access_type expires_at a = (a', r) -> same_tables a a'.
Proof.
  unfold create_grant, _validate_categories. unfold mbind at 1, M_bind at 1.
  destruct (forallb _ _); [|by intros [= <- <-]]. cbn [mret M_ret].
  destruct (negb _); [by intros [= <- <-]|].
  unfold get_db, get_st, mbind, M_bind, mret, M_ret. destruct (negb _); [by intros [= <- <-]|].
  unfold _invalidate_permission_cache, redis_write, modify_st. by destruct (mo_up mo); intros [= <- <-].
Qed.

Lemma create_my_grant_connects mo d user agent token categories access_type expires_at days a a' grant :
  uuid_law ->
  create_my_grant sha256 mo d user agent token categories access_type expires_at days a = (a', inr grant) ->
  if text_given token
  then exists payload p,
    rget (mo_now mo) (sha256 (default EmptyString token)) (ck_links (ac_cache a)) = Some payload /\
    payload_uuid "proxy_user_id" payload = Some p /\ connects (uu_id user) p a a'
  else same_tables a a'.
Proof.
  intros Hlaw. unfold create_my_grant. cbv zeta. intros (a1 & Hrun & ->)%request_inv.
  apply M_bind_inv in Hrun as (a2 & [] & Hlink & Hgrant). apply create_grant_tables in Hgrant as [Hl Hc].
  destruct (text_given token).
  - apply M_bind_inv in Hlink as (a3 & l & (payload & p & u & Hget & Hp & Hu & Hcon)%consume_connects & [= <-]).
    rewrite (proj2 (Hlaw _)) in Hu. injection Hu as <-. exists payload, p. split_and!; [done..|].
    destruct Hcon as [(i & l' & Hi & Hlp) (c & Hc3 & Hcp)]. split; [exists i, l'; by rewrite Hl|].
    exists c. by rewrite Hc, Hc3.
  - injection Hlink as <-. done.
Qed.

Lemma link_payload_inj tenant agent p tenant' agent' p' :
  uuid_law -> link_payload tenant agent p = link_payload tenant' agent' p' ->
  tenant = tenant' /\ agent = agent' /\ p = p'.
Proof.
  intros Hlaw Heq. destruct (link_payload_fields tenant agent p Hlaw) as (Ha & Ht & Hp).
  destruct (link_payload_fields tenant' agent' p' Hlaw) as (Ha' & Ht' & Hp').
  rewrite Heq in Ha, Ht, Hp. split_and!; congruence.
Qed.

(** The user a token in force names is the token's tenant's. *)
Lemma token_proxy mo key tenant agent p a :
  uuid_law -> links_ok a -> rget (mo_now mo) key (ck_links (ac_cache a)) = Some (link_payload tenant agent p) ->
  proxy_in tenant p (ac_db a).
Proof.
  intros Hlaw Hok Hget. unfold rget in Hget. apply bind_Some in Hget as (e & He & Hget).
  destruct (alive _ _); [|done]. injection Hget as Hval.
  destruct (lo_token _ Hok _ _ He) as (t & ag & q & g & Hpay & _ & _ & Hin).
  rewrite Hval in Hpay. by apply link_payload_inj in Hpay as (-> & _ & ->).
Qed.

Lemma proxy_in_one t t' p P : proxy_in t p P -> proxy_in t' p P -> t = t'.
Proof. intros (u & Hu & <-) (v & Hv & <-). congruence. Qed.

Lemma redis_set_nx_inv get upd mo key v ttl a a' r :
  redis_set_nx get upd mo key v ttl a = (a', r) ->
  a' = a \/ a' = a <| ac_cache ::= upd (rset key v (expires_in mo ttl)) |>.
Proof.
  unfold redis_set_nx. destruct (mo_up mo); cbn [negb]; [|intros [= <- <-]; by left].
  unfold mbind at 1, M_bind at 1, get_st. destruct (rget _ _ _); intros [= <- <-]; [by left|by right].
Qed.

Lemma proxy_by_hash_inv tenant hash a a' r :
  links_ok a -> proxy_by_hash tenant hash a = (a', r) ->
  a' = a /\ match r with inr (Some u) => proxy_in tenant (pu_id u) (ac_db a) | _ => True end.
Proof.
  intros Hok [-> Hr]%scalar_one_db. split; [done|]. destruct r as [e|[u|]]; [done| |done].
  apply one_row in Hr as [[Ht%bool_decide_eq_true _]%andb_prop [i Hi]].
  destruct (lo_keys _ Hok) as (_ & _ & _ & Hkp & _). exists u. by rewrite (Hkp i u Hi).
Qed.

Lemma issue_ok mo token tenant_id agent_id external a a' r :
  links_ok a -> issue sha256 mo token tenant_id agent_id external a = (a', r) -> links_ok a'.
Proof.
  intros Hok. unfold issue, uuid_arg.
  destruct (parse_uuid_str tenant_id) as [tenant|]; [rewrite some_bind|by intros [= <- <-]].
  destruct (parse_uuid_str agent_id) as [agent|]; [rewrite some_bind|by intros [= <- <-]].
  rewrite get_db_bind.
  destruct (pp_agents (ac_db a) !! agent) as [g|] eqn:Hg; [|by intros [= <- <-]]. cbn [mbind option_bind].
  destruct (bool_decide (ga_owner_tenant_id g = tenant) && ga_is_active g) eqn:Hown;
    [rewrite some_bind|by intros [= <- <-]].
  apply andb_prop in Hown as [Hown%bool_decide_eq_true _]. unfold mbind at 1, M_bind at 1.
  destruct (proxy_by_hash _ _ a) as [a1 [e|[u|]]] eqn:Hp; apply proxy_by_hash_inv in Hp as [-> Hp]; try done;
    [by intros [= <- <-]| |by intros [= <- <-]].
  unfold mbind at 1, M_bind at 1. destruct (redis_set_nx _ _ _ _ _ _ a) as [a1 stored] eqn:Hset.
  assert (links_ok a1) as Hok1.
  { apply redis_set_nx_inv in Hset as [-> | ->]; [done|]. destruct Hok. split; try done.
    intros k e. cbn. unfold rset. intros [[<- <-]|[_ He]]%lookup_insert_Some; [|by apply (lo_token0 k)].
    destruct lo_keys0 as (_ & _ & _ & _ & Hkg). exists tenant, (ga_id g), (pu_id u), g. rewrite (Hkg agent g Hg). done. }
  destruct stored as [e|[]]; by intros [= <- <-].
Qed.

Lemma disconnect_ok mo user connection_id a a' r :
  links_ok a -> disconnect_my_organisation mo user connection_id a = (a', r) -> links_ok a'.
Proof.
  intros Hok. unfold disconnect_my_organisation. cbv zeta.
  destruct (parse_uuid_str connection_id) as [i|]; [rewrite some_bind, get_db_bind|by intros [= <- <-]].
  destruct (pp_connections (ac_db a) !! i) as [c|] eqn:Hc; [|by intros [= <- <-]]. cbn [mbind option_bind].
  destruct (bool_decide _ && _); [rewrite some_bind|by intros [= <- <-]].
  match goal with |- put_connection ?c' a = _ -> _ => set (c1 := c') end.
  intros Hrun. assert (a' = (put_connection c1 a).1) as -> by by rewrite Hrun.
  destruct (lo_connection _ Hok i c Hc) as [Ho Hp]. apply (put_connection_ok c1); [done|..|exact Ho|exact Hp].
  intros j c' Hj Hu Hd. pose proof (proj1 (proj2 (proj2 (lo_keys _ Hok))) i c Hc) as Hi. cbn. rewrite Hi.
  by apply (lo_connected _ Hok j i c' c).
Qed.
End Links.

Create HintDb stable.

Section Logins.
Context `{PyLib}.
Variable sha256 code_challenge : string -> string.
Variable urlencode : list (string * string) -> string.
Variable key : string.
Variable fernet : string -> option ((string -> string) * (string -> option string)).
Variable post_token : string -> list (string * string) -> option json.
Variable get_userinfo : string -> string -> option json.

(** A call that leaves the state alone. *)
Definition quiet {A} (m : AM A) : Prop := forall a, (m a).1 = a.

Lemma quiet_bind {A B} (m : AM A) (f : A -> AM B) : quiet m -> (forall x, quiet (f x)) -> quiet (m ≫= f).
Proof.
  intros Hm Hf a. unfold mbind, M_bind. specialize (Hm a). destruct (m a) as [a1 [e|x]]; cbn in *; [done|].
  rewrite Hf. done.
Qed.

Lemma quiet_lift {A} e (o : option A) : quiet (lift_opt e o).
Proof. by destruct o. Qed.

Lemma quiet_fernet : quiet (_fernet key fernet).
Proof. unfold _fernet. cbv zeta. case_bool_decide; [done|apply quiet_lift]. Qed.

Lemma quiet_provider o code secret uri verifier :
  quiet (provider_account post_token get_userinfo o code secret uri verifier).
Proof.
  unfold provider_account. apply quiet_bind; [apply quiet_lift|intros tp]. apply quiet_bind; [apply quiet_lift|].
  intros tp'. cbv zeta. case_bool_decide; [done|]. apply quiet_bind; [apply quiet_lift|intros ui].
  apply quiet_bind; [apply quiet_lift|]. done.
Qed.

Lemma quiet_decrypt v : quiet (decrypt_credential key fernet v).
Proof. unfold decrypt_credential. apply quiet_bind; [apply quiet_fernet|]. intros f. apply quiet_lift. Qed.

Lemma quiet_encrypt v : quiet (encrypt_credential key fernet v).
Proof. unfold encrypt_credential. apply quiet_bind; [apply quiet_fernet|]. done. Qed.

(** Only the pending logins of the cache changed. *)
Lemma links_ok_states a f : links_ok a -> links_ok (a <| ac_cache ::= on_oauth_states f |>).
Proof. intros Hok. by apply (links_ok_same a). Qed.

Lemma initiate_ok mo state verifier user organisation uri a a' r :
  links_ok a -> initiate_oauth code_challenge urlencode mo state verifier user organisation uri a = (a', r) ->
  links_ok a'.
Proof.
  intros Hok. unfold initiate_oauth. rewrite get_db_bind.
  destruct (o ← pp_directories (ac_db a) !! organisation; if od_is_public o then Some o else None) as [o|];
    [rewrite some_bind|by intros [= <- <-]].
  destruct (negb _); [by intros [= <- <-]|]. unfold mbind at 1, M_bind at 1.
  destruct (redis_set_nx _ _ _ _ _ _ a) as [a1 stored] eqn:Hset.
  assert (links_ok a1) as Hok1 by (apply redis_set_nx_inv in Hset as [-> | ->]; [done|by apply links_ok_states]).
  destruct stored as [e|[]]; by intros [= <- <-].
Qed.

Lemma register_ok id tenant payload a a' r :
  links_ok a -> pp_directories (ac_db a) !! id = None ->
  register_tenant_organisation_directory key fernet id tenant payload a = (a', r) -> links_ok a'.
Proof.
  intros Hok Hid. unfold register_tenant_organisation_directory. unfold mbind at 1, M_bind at 1.
  destruct (directory_of tenant a) as [a1 [e|existing]] eqn:Hd; apply directory_of_inv in Hd as [-> Hd];
    [by intros [= <- <-]|].
  unfold mbind at 1, M_bind at 1.
  match goal with |- context [(if text_given ?t then ?x else ?y) a] =>
    assert (quiet (if text_given t then x else y)) as Hq end.
  { destruct (text_given _); [|done]. apply quiet_bind; [apply quiet_encrypt|]. done. }
  specialize (Hq a). match type of Hq with ?m.1 = _ => destruct m as [a1 [e|secret]] end; cbn [fst] in Hq; subst a1;
    [by intros [= <- <-]|].
  cbv zeta. match goal with |- (put_directory ?o ;; _) a = _ -> _ => set (dir := o) end.
  intros Hrun. assert (a' = (put_directory dir a).1) as -> by (by injection Hrun as <- <-).
  pose proof (proj1 (proj2 (lo_keys _ Hok))) as Hkd. apply (put_directory_ok dir); [done|..].
  - intros i o' Hi Ht. destruct existing as [o|]; [|by apply Hd in Hi]. destruct Hd as [Hot [j Hj]].
    cbn in Ht |- *. rewrite (Hkd j o Hj). apply (lo_directory _ Hok i j o' o); [done|done|congruence].
  - intros o' Ho'. destruct existing as [o|]; cbn in Ho' |- *; [|by rewrite Hid in Ho'].
    destruct Hd as [Hot [j Hj]]. rewrite (Hkd j o Hj), Hj in Ho'. by simplify_eq.
Qed.

(** The link and the connection of a login. *)
Lemma login_ok mo d user o account u a a' r :
  links_ok a -> pp_directories (ac_db a) !! od_id o = Some o ->
  (forall p, u = Some p -> proxy_in (od_tenant_id o) (pu_id p) (ac_db a)) ->
  (match u with
   | None => mret tt
   | Some u =>
       link ← link_of_proxy (pu_id u);
       match link with
       | Some l => if bool_decide (lk_user_uui_id l = user) then mret tt
                   else raise_st (APIError 409 "ORG_CONN_409" "organisation_account_already_connected")
       | None => put_link {| lk_id := ln_link_id d; lk_tenant_id := od_tenant_id o;
                             lk_proxy_user_id := pu_id u; lk_user_uui_id := user; lk_linked_at := mo_tx mo |}
       end
   end;;
   upsert_connection sha256 mo (ln_connection_id d) user o "oauth" (Some account) (pu_id <$> u);;
   mret o) a = (a', r) ->
  links_ok a'.
Proof.
  intros Hok Ho Hu.
  assert (forall a1 a2 r2, links_ok a1 -> pp_directories (ac_db a1) !! od_id o = Some o ->
    pp_proxy_users (ac_db a1) = pp_proxy_users (ac_db a) ->
    (upsert_connection sha256 mo (ln_connection_id d) user o "oauth" (Some account) (pu_id <$> u);; mret o) a1
      = (a2, r2) -> links_ok a2) as Hend.
  { intros a1 a2 r2 Hok1 Ho1 Hp1. unfold mbind, M_bind.
    destruct (upsert_connection _ _ _ _ _ _ _ _ a1) as [a3 [e|c]] eqn:Hc; intros [= <- <-];
      apply upsert_connection_ok in Hc as [Hok3 _]; try done;
      intros p Hp; apply fmap_Some in Hp as (q & Hq & ->); unfold proxy_in; rewrite Hp1; by apply Hu. }
  destruct u as [u|]; [|intros Hrun; by eapply (Hend a)].
  unfold mbind at 1, M_bind at 1. unfold mbind at 1, M_bind at 1.
  destruct (link_of_proxy (pu_id u) a) as [a1 [e|[l|]]] eqn:Hl; apply link_of_proxy_inv in Hl as [-> Hl].
  - by intros [= <- <-].
  - case_bool_decide; [intros Hrun; by eapply (Hend a)|by intros [= <- <-]].
  - match goal with |- context [put_link ?x a] => set (l := x) end.
    intros Hrun. apply (Hend (put_link l a).1 a' r); [|done..|exact Hrun].
    apply put_link_ok; [done| |done]. by apply (Hu u).
Qed.

Lemma complete_ok mo d code state a a' r :
  links_ok a ->
  complete_oauth sha256 key fernet post_token get_userinfo mo d code state a = (a', r) -> links_ok a'.
Proof.
  intros Hok. unfold complete_oauth. unfold mbind at 1, M_bind at 1.
  destruct (redis_getdel _ _ _ _ a) as [a1 r1] eqn:Hget. apply redis_getdel_inv in Hget.
  assert (links_ok a1) as Hok1.
  { destruct (mo_up mo); destruct Hget as [-> _]; [by apply links_ok_states|done]. }
  clear Hget Hok. rename Hok1 into Hok. destruct r1 as [e|[payload|]]; [by intros [= <- <-]| |by intros [= <- <-]].
  rewrite some_bind. destruct (payload_uuid _ _) as [user|]; [|by intros [= <- <-]].
  destruct (payload_uuid _ _) as [organisation_id|]; [|by intros [= <- <-]].
  destruct (payload_text _ _) as [uri|]; [|by intros [= <- <-]].
  destruct (payload_text _ _) as [verifier|]; [|by intros [= <- <-]]. rewrite get_db_bind.
  destruct (pp_directories (ac_db a1) !! organisation_id) as [o|] eqn:Ho; [|by intros [= <- <-]].
  cbn [mbind option_bind]. destruct (od_oauth_enabled o); [rewrite some_bind|by intros [= <- <-]].
  rewrite <- (proj1 (proj2 (lo_keys _ Hok)) organisation_id o Ho) in Ho.
  destruct (negb _); [by intros [= <- <-]|]. unfold mbind at 1, M_bind at 1.
  pose proof (quiet_decrypt (default EmptyString (od_oauth_client_secret_ciphertext o)) a1) as Hq.
  destruct (decrypt_credential _ _ _ a1) as [a2 [e|secret]]; cbn [fst] in Hq; subst a2; [by intros [= <- <-]|].
  unfold mbind at 1, M_bind at 1. pose proof (quiet_provider o code secret uri verifier a1) as Hq.
  destruct (provider_account _ _ _ _ _ _ _ a1) as [a2 [e|account]]; cbn [fst] in Hq; subst a2;
    [by intros [= <- <-]|].
  case_bool_decide; [by intros [= <- <-]|]. unfold mbind at 1, M_bind at 1.
  destruct (proxy_by_hash _ _ a1) as [a2 [e|u]] eqn:Hp; apply proxy_by_hash_inv in Hp as [-> Hp]; try done;
    [by intros [= <- <-]|].
  intros Hrun. apply (login_ok mo d user o account u) in Hrun; [done..|]. by intros p ->.
Qed.

(** ** Requests in sequence *)

(** A call leaves a part of the state alone. *)
Definition stable {A B} (g : Access -> B) (m : AM A) : Prop :=
  forall v, yields (fun a => g a = v) (fun _ => True) m.
Abbreviation token_free := (stable (fun a => ck_links (ac_cache a))).

Lemma stable_bind {A B C} (g : Access -> C) (m : AM A) (f : A -> AM B) :
  stable g m -> (forall x, stable g (f x)) -> stable g (m ≫= f).
Proof. intros Hm Hf v. eapply yields_bind; [apply Hm|]. intros x _. apply Hf. Qed.

Lemma stable_ret {A B} (g : Access -> B) (x : A) : stable g (mret x).
Proof. intros v. by apply yields_ret. Qed.

Lemma stable_raise {A B} (g : Access -> B) e : stable g (raise_st e : AM A).
Proof. intros v. apply yields_raise. Qed.

Lemma stable_quiet {A B} (g : Access -> B) (m : AM A) : quiet m -> stable g m.
Proof. intros Hm v a Ha. by rewrite Hm. Qed.

Lemma stable_modify {B} (g : Access -> B) f : (forall a, g (f a) = g a) -> stable g (modify_st f).
Proof. intros Hf v. apply yields_modify. intros a Ha. by rewrite Hf. Qed.

Lemma stable_scalar {A B} (g : Access -> B) (rows : Passport -> list A) :
  stable g (in_db (P ← get_st; scalar_one (rows P))).
Proof.
  apply stable_quiet. intros a. destruct (in_db _ a) as [a1 r] eqn:Hr. by apply scalar_one_db in Hr as [-> _].
Qed.

Lemma stable_set {B} (g : Access -> B) get upd mo k v ttl :
  (forall a f, g (a <| ac_cache ::= upd f |>) = g a) -> stable g (redis_set_nx get upd mo k v ttl).
Proof.
  intros Hf w a <-. destruct (redis_set_nx _ _ _ _ _ _ a) as [a1 r] eqn:Hr.
  apply redis_set_nx_inv in Hr as [-> | ->]; (split; [|done]); [done|apply Hf].
Qed.

Lemma stable_get {B} (g : Access -> B) get upd mo k :
  (forall a f, g (a <| ac_cache ::= upd f |>) = g a) -> stable g (redis_getdel get upd mo k).
Proof.
  intros Hf w a <-. destruct (redis_getdel _ _ _ _ a) as [a1 r] eqn:Hr. apply redis_getdel_inv in Hr.
  destruct (mo_up mo); destruct Hr as [-> _]; (split; [|done]); [apply Hf|done].
Qed.

#[local] Hint Resolve stable_ret stable_raise stable_scalar : stable.
#[local] Hint Extern 1 (stable _ (modify_st _)) => by apply stable_modify : stable.
#[local] Hint Extern 1 (stable _ (redis_set_nx _ _ _ _ _ _)) => by apply stable_set : stable.
#[local] Hint Extern 1 (stable _ (redis_getdel _ _ _ _)) => by apply stable_get : stable.
#[local] Hint Extern 1 (stable _ (lift_opt _ _)) => apply stable_quiet, quiet_lift : stable.
#[local] Hint Extern 1 (stable _ get_db) => by apply stable_quiet : stable.
#[local] Hint Extern 1 (stable _ (decrypt_credential _ _ _)) => apply stable_quiet, quiet_decrypt : stable.
#[local] Hint Extern 1 (stable _ (encrypt_credential _ _ _)) => apply stable_quiet, quiet_encrypt : stable.
#[local] Hint Extern 1 (stable _ (provider_account _ _ _ _ _ _ _)) => apply stable_quiet, quiet_provider : stable.

Ltac stable :=
  repeat first
    [ solve [auto with stable]
    | apply stable_bind; [|intros ?]
    | match goal with |- stable _ (match ?x with _ => _ end) => destruct x end
    | progress cbv zeta ].

Lemma token_free_complete mo d code state :
  token_free (complete_oauth sha256 key fernet post_token get_userinfo mo d code state).
Proof. unfold complete_oauth, proxy_by_hash, link_of_proxy, put_link, upsert_connection, put_connection. stable. Qed.

Lemma token_free_initiate mo state verifier user organisation uri :
  token_free (initiate_oauth code_challenge urlencode mo state verifier user organisation uri).
Proof. unfold initiate_oauth. stable. Qed.

Lemma token_free_register id tenant payload :
  token_free (register_tenant_organisation_directory key fernet id tenant payload).
Proof. unfold register_tenant_organisation_directory, directory_of, put_directory. stable. Qed.

Lemma token_free_disconnect mo user connection_id : token_free (disconnect_my_organisation mo user connection_id).
Proof. unfold disconnect_my_organisation, put_connection. stable. Qed.

Lemma issue_stable mo token tenant_id agent_id external :
  stable ac_db (issue sha256 mo token tenant_id agent_id external).
Proof. unfold issue, uuid_arg, proxy_by_hash. stable. Qed.

(** Rows other parts add: users and agents come, tokens expire. *)
Definition others_step (a a' : Access) : Prop :=
  pp_links (ac_db a') = pp_links (ac_db a) /\ pp_directories (ac_db a') = pp_directories (ac_db a) /\
  pp_connections (ac_db a') = pp_connections (ac_db a) /\
  pp_proxy_users (ac_db a) ⊆ pp_proxy_users (ac_db a') /\ keyed pu_id (pp_proxy_users (ac_db a')) /\
  pp_agents (ac_db a) ⊆ pp_agents (ac_db a') /\ keyed ga_id (pp_agents (ac_db a')) /\
  ck_links (ac_cache a') ⊆ ck_links (ac_cache a).

Inductive link_step (a a' : Access) : Prop :=
  | step_issue mo token tenant_id agent_id external r :
      request (issue sha256 mo token tenant_id agent_id external) a = (a', r) -> link_step a a'
  | step_grant mo d user agent token categories access_type expires_at days r :
      pp_directories (ac_db a) !! ln_directory_id d = None ->
      create_my_grant sha256 mo d user agent token categories access_type expires_at days a = (a', r) ->
      link_step a a'
  | step_disconnect mo user connection_id r :
      request (disconnect_my_organisation mo user connection_id) a = (a', r) -> link_step a a'
  | step_initiate mo state verifier user organisation uri r :
      request (initiate_oauth code_challenge urlencode mo state verifier user organisation uri) a = (a', r) ->
      link_step a a'
  | step_complete mo d code state r :
      request (complete_oauth sha256 key fernet post_token get_userinfo mo d code state) a = (a', r) ->
      link_step a a'
  | step_register id tenant payload r :
      pp_directories (ac_db a) !! id = None ->
      request (register_tenant_organisation_directory key fernet id tenant payload) a = (a', r) -> link_step a a'
  | step_others : others_step a a' -> link_step a a'.

Lemma others_step_ok a a' : others_step a a' -> links_ok a -> links_ok a'.
Proof.
  intros (Hl & Hd & Hc & Hp & Hkp & Hg & Hkg & Ht) [(? & ? & ? & _ & _) ? ? ? ? ? ?].
  assert (forall t p, proxy_in t p (ac_db a) -> proxy_in t p (ac_db a')) as Hin.
  { intros t p (u & Hu & ?). exists u. split; [|done]. by eapply lookup_weaken. }
  split; rewrite ?Hl, ?Hd, ?Hc; try done.
  - eauto.
  - intros i c Hi. destruct (lo_connection0 i c Hi). eauto.
  - intros k e Hk. pose proof (lookup_weaken _ _ _ _ Hk Ht) as (t & ag & p & g & He & Hag & Hot & Hpr)%lo_token0.
    exists t, ag, p, g. split_and!; [done| |done|by apply Hin]. by eapply lookup_weaken.
Qed.

Lemma request_ok {A} (m : AM A) a a' r :
  links_ok a -> token_free m -> (forall a1 r1, m a = (a1, r1) -> links_ok a1) -> request m a = (a', r) -> links_ok a'.
Proof.
  intros Hok Hfree Hm (a1 & Hrun & Ha')%request_inv. destruct r as [e|x]; [|subst a'; by eapply Hm].
  destruct Ha' as [Hd Hc]. apply (links_ok_same a); rewrite ?Hd, ?Hc; try done.
  destruct (Hfree (ck_links (ac_cache a)) a eq_refl) as [Hk _]. rewrite Hrun in Hk. cbn in Hk. by rewrite Hk.
Qed.

Lemma link_step_ok a a' : uuid_law -> link_step a a' -> links_ok a -> links_ok a'.
Proof.
  intros Hlaw Hstep Hok. destruct Hstep.
  - apply request_inv in H0 as (a1 & Hrun & Ha').
    destruct (issue_stable mo token tenant_id agent_id external (ac_db a) a eq_refl) as [Hdb _].
    rewrite Hrun in Hdb. cbn in Hdb. apply issue_ok in Hrun; [|done]. destruct r; [|by subst].
    destruct Ha' as [Hd Hc]. destruct a', a1. cbn in *. by subst.
  - by apply create_my_grant_ok in H1 as [? _].
  - eapply request_ok; [done|apply token_free_disconnect| |done]. intros *. by apply disconnect_ok.
  - eapply request_ok; [done|apply token_free_initiate| |done]. intros *. by apply initiate_ok.
  - eapply request_ok; [done|apply token_free_complete| |done]. intros *. by apply complete_ok.
  - eapply request_ok; [done|apply token_free_register| |done]. intros *. by apply register_ok.
  - by eapply others_step_ok.
Qed.

(** C25: Whatever tokens tenants issue, holders redeem, logins they complete and
    organisations are registered and disconnected, in any order and whether or
    not a request fails: every user of a tenant is linked to at most one
    passport, by a link of its own tenant; every tenant has one directory row
    and every holder one connection to it, of that tenant and naming its users
    only; and every token in force was stored for an agent and a user of one
    tenant. *)
Theorem links_stay_within_their_tenant a a' : uuid_law -> rtc link_step a a' -> links_ok a -> links_ok a'.
Proof. intros Hlaw. induction 1 as [|a1 a2 a3 Hstep _ IH]; [done|]. intros Hok. by eauto using link_step_ok. Qed.

(** C26: A request for a grant that presents a link token links the holder only
    to the user the token was issued for, by a tenant that owns the agent the
    grant is for.  When it succeeds the token was in force, the user's link is
    to this holder, new or already there, the grant is this holder's for this
    agent, and the one connection written is this holder's, names this user and
    is of that tenant; in particular a user linked to another passport makes
    the request fail.  A request that fails leaves the database as it was, and
    one without a token touches no link and no connection.  If Redis answers,
    the token is spent whether or not the request succeeds. *)
Theorem link_tokens_bind_the_consenting_holder mo d user agent token categories access_type expires_at days a a' r :
  uuid_law -> links_ok a -> pp_directories (ac_db a) !! ln_directory_id d = None ->
  create_my_grant sha256 mo d user agent token categories access_type expires_at days a = (a', r) ->
  (text_given token = true -> mo_up mo = true ->
     ck_links (ac_cache a') !! sha256 (default EmptyString token) = None) /\
  match r with
  | inl _ => ac_db a' = ac_db a
  | inr grant => pg_user_uui_id grant = uu_id user /\ pg_agent_id grant = agent /\
      if text_given token
      then exists tenant p g i l c,
        rget (mo_now mo) (sha256 (default EmptyString token)) (ck_links (ac_cache a)) =
          Some (link_payload tenant agent p) /\
        pp_agents (ac_db a) !! agent = Some g /\ ga_owner_tenant_id g = tenant /\
        pp_links (ac_db a') !! i = Some l /\
        lk_proxy_user_id l = p /\ lk_user_uui_id l = uu_id user /\ lk_tenant_id l = tenant /\
        (pp_links (ac_db a') = pp_links (ac_db a) \/
         pp_links (ac_db a') = <[lk_id l := l]> (pp_links (ac_db a)) /\
         forall j l', pp_links (ac_db a) !! j = Some l' -> lk_proxy_user_id l' <> p) /\
        pp_connections (ac_db a') = <[oc_id c := c]> (pp_connections (ac_db a)) /\
        oc_user_uui_id c = uu_id user /\ oc_proxy_user_id c = Some p /\ oc_tenant_id c = tenant
      else same_tables a a'
  end.
Proof.
  intros Hlaw Hok Hd Hrun. pose proof (create_my_grant_ok _ _ _ _ _ _ _ _ _ _ _ _ _ Hlaw Hok Hd Hrun) as (Hok' & Hk & Hr).
  split; [intros Ht Hup; rewrite Hk, Ht; unfold spent; rewrite Hup; apply lookup_delete_eq|].
  destruct r as [e|grant]; [by apply request_inv in Hrun as (a1 & _ & [Hdb _])|].
  apply create_my_grant_connects in Hrun; [|done]. destruct Hr as (Hgu & Hga & Hr). do 2 (split; [done|]).
  destruct (text_given token); [|done]. destruct Hr as (tenant & p & g & Hget & Hg & Hown & Hlinks).
  destruct Hrun as (payload & q & Hget' & Hq & (i & l & Hi & Hlp & Hlu) & (c & Hc & Hcu & Hcp & Hca)).
  rewrite Hget in Hget'. injection Hget' as <-.
  rewrite (proj2 (proj2 (link_payload_fields tenant agent p Hlaw))) in Hq. injection Hq as <-.
  assert (proxy_in (lk_tenant_id l) p (ac_db a')) as Hpl by (rewrite <- Hlp; exact (lo_tenant _ Hok' i l Hi)).
  assert (proxy_in (oc_tenant_id c) p (ac_db a')) as Hpc.
  { apply (lo_connection _ Hok' (oc_id c) c); [by rewrite Hc, lookup_insert_eq|done]. }
  destruct Hlinks as [l0 j Hj Hlp0 Hlu0 Hsame|l0 Hlp0 Hlu0 Hlt0 Hno Hnew].
  - assert (lk_tenant_id l = tenant) as Ht.
    { apply (proxy_in_one _ _ p (ac_db a)); [|by eapply token_proxy].
      rewrite Hsame in Hi. rewrite <- Hlp. exact (lo_tenant _ Hok i l Hi). }
    exists tenant, p, g, i, l, c. split_and!; try done; [by left|].
    by rewrite <- Ht; eapply proxy_in_one.
  - assert (l = l0) as ->.
    { rewrite Hnew in Hi. apply lookup_insert_Some in Hi as [[_ ?]|[_ Hi]]; [done|]. by destruct (Hno i l Hi). }
    exists tenant, p, g, i, l0, c. split_and!; try done; [by right|]. rewrite <- Hlt0. by eapply proxy_in_one.
Qed.
End Logins.

(** ** Examples and shortfalls *)

Section Examples.
#[local] Existing Instance unary_uuids.

Definition example_digest (s : string) : string := "#" +:+ s.
Definition no_key (key : string) : option ((string -> string) * (string -> option string)) := None.
Definition no_answer (url : string) (form : list (string * string)) : option json := None.
Definition no_userinfo (url token : string) : option json := None.

(** Tenant 3 knows user 7 as ext. *)
Definition unlinked : Access :=
  {| ac_db := example_passport <| pp_tenants := {[3%Z := "Acme"]} |>
       <| pp_proxy_users := {[7%Z := {| pu_id := 7; pu_tenant_id := 3; pu_is_blocked := false;
             pu_external_user_id_hash := hash_external_user_id example_digest (unary_str 3) "ext" |}]} |>;
     ac_cache := empty_cache |}.

Definition issued : Access :=
  (request (issue example_digest (at_second 1) "plink_t" (unary_str 3) (unary_str 2) "ext") unlinked).1.

Definition link_draws : LinkDraws :=
  {| ln_link_id := 20; ln_directory_id := 21; ln_connection_id := 22; ln_grant_id := 23 |}.

Definition redeemed : Access * (passport_exn + PermissionGrant) :=
  create_my_grant example_digest (at_second 2) link_draws holder 2 (Some "plink_t") ["preference"] "read_write"
    None (Some 30%Z) issued.

Lemma redemption_links :
  pp_links (ac_db redeemed.1) =
    {[20%Z := {| lk_id := 20; lk_tenant_id := 3; lk_proxy_user_id := 7; lk_user_uui_id := 1;
                 lk_linked_at := seconds 2 |}]} /\
  (create_my_grant example_digest (at_second 3) link_draws holder 2 (Some "plink_t") ["preference"] "read_write"
     None None redeemed.1).2 = inl (APIError 410 "PLINK_410" "passport_link_expired_or_used").
Proof. vm_compute. done. Qed.

Lemma unlinked_ok : links_ok unlinked.
Proof.
  split; cbn; try (intros *; rewrite ?lookup_empty; done).
  split_and!; intros i x; rewrite ?lookup_empty; [done..| |]; by intros [<- <-]%lookup_singleton_Some.
Qed.

Lemma issued_ok : links_ok issued.
Proof.
  apply (link_step_ok example_digest (fun s => s) (fun _ => EmptyString) EmptyString no_key no_answer no_userinfo
           unlinked issued unary_uuid_law); [|exact unlinked_ok].
  apply (step_issue _ _ _ _ _ _ _ _ _ (at_second 1) "plink_t" (unary_str 3) (unary_str 2) "ext"
           (request (issue example_digest (at_second 1) "plink_t" (unary_str 3) (unary_str 2) "ext") unlinked).2).
  apply surjective_pairing.
Qed.

Lemma links_stay_within_their_tenant_witness :
  rtc (link_step example_digest (fun s => s) (fun _ => EmptyString) EmptyString no_key no_answer no_userinfo)
    issued redeemed.1 /\ links_ok redeemed.1.
Proof.
  assert (rtc (link_step example_digest (fun s => s) (fun _ => EmptyString) EmptyString no_key no_answer
                 no_userinfo) issued redeemed.1) as Hr.
  { apply rtc_once.
    apply (step_grant _ _ _ _ _ _ _ _ _ (at_second 2) link_draws holder 2 (Some "plink_t") ["preference"]
             "read_write" None (Some 30%Z) redeemed.2); [vm_compute; reflexivity|apply surjective_pairing]. }
  split; [exact Hr|]. exact (links_stay_within_their_tenant _ _ _ _ _ _ _ _ _ unary_uuid_law Hr issued_ok).
Defined.

Lemma link_tokens_bind_the_consenting_holder_witness :
  ck_links (ac_cache redeemed.1) !! example_digest "plink_t" = None /\
  exists grant tenant p i l c,
    redeemed.2 = inr grant /\ pg_user_uui_id grant = uu_id holder /\
    rget (mo_now (at_second 2)) (example_digest "plink_t") (ck_links (ac_cache issued)) =
      Some (link_payload tenant 2 p) /\
    pp_links (ac_db redeemed.1) !! i = Some l /\ lk_proxy_user_id l = p /\ lk_user_uui_id l = uu_id holder /\
    pp_connections (ac_db redeemed.1) = <[oc_id c := c]> (pp_connections (ac_db issued)) /\
    oc_proxy_user_id c = Some p.
Proof.
  pose proof (link_tokens_bind_the_consenting_holder example_digest (at_second 2) link_draws holder 2
    (Some "plink_t") ["preference"] "read_write" None (Some 30%Z) issued redeemed.1 redeemed.2
    unary_uuid_law issued_ok) as Hbind.
  change (default EmptyString (Some "plink_t")) with "plink_t" in Hbind.
  destruct Hbind as [Hspent Hlink]; [vm_compute; reflexivity|apply surjective_pairing|].
  split; [apply Hspent; reflexivity|].
  assert (exists grant, redeemed.2 = inr grant) as [grant Hgrant] by (vm_compute; eexists; reflexivity).
  rewrite Hgrant in Hlink. destruct Hlink as (Hu & _ & tenant & p & g & i & l & c & Hlink).
  destruct Hlink as (Hget & _ & _ & Hi & Hlp & Hlu & _ & _ & Hc & _ & Hcp & _).
  exists grant, tenant, p, i, l, c. exact (conj Hgrant (conj Hu (conj Hget (conj Hi (conj Hlp (conj Hlu (conj Hc Hcp))))))).
Defined.

(** The directory row of an organisation says whether it takes link tokens;
    neither issuing nor redeeming one reads it. *)
Example disabled_link_tokens_still_link :
  let closed := unlinked <| ac_db ::= fun P => P <| pp_directories :=
    {[21%Z := (private_directory 21 3 "Acme") <| od_link_token_enabled := false |>]} |> |> in
  let issued := (request (issue example_digest (at_second 1) "plink_t" (unary_str 3) (unary_str 2) "ext") closed).1 in
  size (pp_links (ac_db (create_my_grant example_digest (at_second 2) link_draws holder 2 (Some "plink_t")
    ["preference"] "read_write" None None issued).1)) = 1.
Proof. vm_compute. done. Qed.
End Examples.
