(* ===== verification/QualityGate.v ===== *)
(** * The quality gate

    [QualityGateService] of [api/services/quality_gate.py]: whether a
    conversation is admitted to extraction.  Four layers in order: a user's
    calls per minute, the quality of the text, its similarity to the user's
    recent conversations, and the tenant's budget.

    Redis is a flag of the call: a missing answer, an error and an open breaker
    read alike.  The embedder and [math.sqrt] are parameters. *)

From S2P Require Export PyRegex RedisKeys Quota.

#[local] Open Scope Q_scope.

Definition QUALITY_SCORE_THRESHOLD : Q := 35 # 100.
Definition SEMANTIC_DUPLICATE_THRESHOLD : Q := 92 # 100.
Definition MIN_LEXICAL_OVERLAP_FOR_SEMANTIC_DUPLICATE : Q := 2 # 10.
Definition RATE_LIMIT_TTL_SECONDS : Z := 120.
Definition RECENT_QUERY_TTL_SECONDS : Z := 3600.
Definition RECENT_QUERY_LIST_SIZE : nat := 5.
Definition STOP_WORDS : list string := [
  "a"; "about"; "am"; "an"; "and"; "are"; "around"; "be"; "for"; "have"; "help"; "i"; "in"; "is"; "it"; "me"; "my";
  "of"; "on"; "out"; "should"; "the"; "this"; "to"; "user"; "want"; "what"; "with"].

Record GateResult := {
  gr_passed : bool;
  gr_blocked_layer : option CallQualityBlockedLayer.t;
  gr_reason : option string;
  gr_retry_after_seconds : option Z;
  gr_budget_remaining_pct : option Q;
  gr_estimated_tokens : Z;
}.

Record CallQualityLog := {
  cl_tenant_id : uuid;
  cl_external_user_id : string;
  cl_layer_blocked_at : CallQualityBlockedLayer.t;
  cl_quality_score : Q;
  cl_reason : option string;
  cl_semantic_similarity : option Q;
}.

(** An item of the list of recent conversations. *)
Record RecentQuery := { rq_query : string; rq_embedding : list Q }.

Inductive gate_task :=
  | IncrementBudget (tenant_id : string) (estimated_tokens : Z)
  | AlertBudget (tenant_id : string) (usage : Q) (estimated_tokens : Z).

Record GateState := {
  gs_budgets : gmap uuid TenantBudget;
  gs_rates : gmap string (Expiring Z);                        (* rate:{tenant}:{user}:{minute} *)
  gs_recent : gmap string (Expiring (list RecentQuery));      (* user_recent_queries:{tenant}:{user} *)
  gs_log : list CallQualityLog;
  gs_tasks : list gate_task;
}.

(** Instants are microseconds. *)
Definition second : Z := 1000000.
Definition minute_of (now : datetime) : Z := (now / second / 60)%Z.

Section Gate.
Context `{PyLib}.
Variable math_sqrt : Q -> Q.
Variable embed : string -> option (list Q).

(** ** Texts *)

Definition WORD_REGEX : regex :=
  seqs [Bound; many1 (Ch (fun c => is_word c || bool_decide (c = "'"%char) || bool_decide (c = "-"%char))); Bound].
Definition ACRONYM_REGEX : regex := seqs [Bound; Ch is_upper; many1 (Ch is_upper); Bound].
Definition NUMBER_REGEX : regex :=
  seqs [Bound; many1 (Ch is_digit); opt (Seq (chr ".") (many1 (Ch is_digit))); Bound].
Definition SUBJECT_REGEX : regex :=
  let tail := Ch (fun c => is_lower c || is_digit c || bool_decide (c ∈ ["_"%char; "+"%char; "-"%char])) in
  seqs [Bound; Ch is_lower; tail; many1 tail; Bound].

(** [str(message.get(key, default))] *)
Definition message_text (key d : string) (message : obj) : string :=
  py_str str_other (default (JStr d) (jget key message)).

Definition content_of (message : obj) : string := py_strip (message_text "content" EmptyString message).

Definition given_contents (messages : list obj) : list string :=
  filter (fun s => s <> EmptyString) (content_of <$> messages).

Definition newline_text : string := String "010" EmptyString.

Definition _conversation_text (messages : list obj) : string :=
  match given_contents (filter (fun m => py_lower (message_text "role" "user" m) = "user") messages) with
  | [] => py_join newline_text (given_contents messages)
  | user_contents => py_join newline_text user_contents
  end.

Definition rounded_clamp (q : Q) : Q := py_round (Qmin (Qmax q 0) 1) 6.

Definition Qlen {A} (l : list A) : Q := inject_Z (Z.of_nat (length l)).

Definition _conversation_quality_score (messages : list obj) : Q :=
  match messages with
  | [] => 0
  | _ =>
      match given_contents messages with
      | [] => 0
      | normalized_messages =>
          let words := findall WORD_REGEX (py_lower (py_join " " normalized_messages)) in
          let avg_chars := inject_Z (fold_right (fun s n => Z.of_nat (String.length s) + n)%Z 0%Z normalized_messages)
                           / Qlen normalized_messages in
          if bool_decide (length normalized_messages = 1%nat) && (length words <=? 2)%nat && (avg_chars <?q 10)
          then 1 # 10
          else
            let message_count_score := Qmin (Qlen messages / 3) 1 in
            let avg_length_score := Qmin (avg_chars / 50) 1 in
            let lexical_diversity :=
              match words with
              | [] => 0
              | _ => inject_Z (Z.of_nat (size (list_to_set words : gset string))) / Qlen words
              end in
            let question_signal := if existsb (py_contains "?") normalized_messages then 1 else 1 # 2 in
            rounded_clamp (message_count_score * (25 # 100) + avg_length_score * (30 # 100)
                           + lexical_diversity * (25 # 100) + question_signal * (20 # 100))
      end
  end.

(** ** Similarity *)

Definition dot (a b : list Q) : Q := fold_right Qplus 0 (zip_with Qmult a b).

Definition _cosine_similarity (vector_a vector_b : list Q) : Q :=
  if bool_decide (vector_a = []) || bool_decide (vector_b = [])
     || negb (bool_decide (length vector_a = length vector_b))
  then 0
  else
    let magnitude_a := math_sqrt (dot vector_a vector_a) in
    let magnitude_b := math_sqrt (dot vector_b vector_b) in
    if Qeq_bool magnitude_a 0 || Qeq_bool magnitude_b 0 then 0
    else dot vector_a vector_b / (magnitude_a * magnitude_b).

(** Runs of whitespace become one blank. *)
Fixpoint collapse (in_space : bool) (s : string) : string :=
  match s with
  | EmptyString => EmptyString
  | String c s =>
      if is_space c then (if in_space then collapse true s else String " " (collapse true s))
      else String c (collapse false s)
  end.
Definition _normalize_query (value : string) : string := collapse false (py_lower (py_strip value)).

Definition _strong_identifiers (value : string) : gset string :=
  list_to_set (findall ACRONYM_REGEX value) ∪ list_to_set (findall NUMBER_REGEX value).

Definition _salient_entities (value : string) : gset string :=
  _strong_identifiers value
  ∪ list_to_set (filter (fun t => t ∉ STOP_WORDS) (findall SUBJECT_REGEX (py_lower value))).

Definition is_empty (s : gset string) : bool := bool_decide (s = ∅).

Definition _has_conflicting_salient_entities (previous_query query_text : string) : bool :=
  let previous_entities := _salient_entities previous_query in
  let current_entities := _salient_entities query_text in
  if is_empty previous_entities || is_empty current_entities then false else
  let previous_strong := _strong_identifiers previous_query in
  let current_strong := _strong_identifiers query_text in
  if negb (is_empty previous_strong) || negb (is_empty current_strong)
  then negb (is_empty previous_strong) && negb (is_empty current_strong)
       && is_empty (previous_strong ∩ current_strong)
  else
    let shared := previous_entities ∩ current_entities in
    negb (is_empty (previous_entities ∖ shared)) && negb (is_empty (current_entities ∖ shared)).

Definition _content_tokens (value : string) : gset string :=
  list_to_set (filter (fun t => (2 < String.length t)%nat /\ t ∉ STOP_WORDS) (findall WORD_REGEX (py_lower value))).

Definition Qsize (s : gset string) : Q := inject_Z (Z.of_nat (size s)).

Definition _token_overlap (previous_query query_text : string) : Q :=
  let previous_tokens := _content_tokens previous_query in
  let current_tokens := _content_tokens query_text in
  if is_empty previous_tokens || is_empty current_tokens then 0
  else Qsize (previous_tokens ∩ current_tokens) / Qmin (Qsize previous_tokens) (Qsize current_tokens).

(** How alike a recent conversation is; [None]: nothing to compare. *)
Definition item_similarity (query_text : string) (embedding : list Q) (item : RecentQuery) : option Q :=
  let previous_query := py_strip (rq_query item) in
  let given := negb (bool_decide (previous_query = EmptyString)) in
  if given && bool_decide (_normalize_query previous_query = _normalize_query query_text) then Some 1
  else if bool_decide (rq_embedding item = []) then None
  else if given && _has_conflicting_salient_entities previous_query query_text then Some 0
  else
    let semantic_similarity := _cosine_similarity embedding (rq_embedding item) in
    if given && (semantic_similarity <?q SEMANTIC_DUPLICATE_THRESHOLD)
       && (_token_overlap previous_query query_text <?q MIN_LEXICAL_OVERLAP_FOR_SEMANTIC_DUPLICATE)
    then Some 0 else Some semantic_similarity.

(** Python's [max] of a list that is not empty. *)
Definition max_or_zero (scores : list Q) : Q :=
  match scores with [] => 0 | q :: scores => fold_left Qmax scores q end.

(** ** Redis *)

Definition _rate_limit_key (tenant_id external_user_id : string) (window_minute : Z) : string :=
  "rate:" +:+ tenant_id +:+ ":" +:+ external_user_id +:+ ":" +:+ py_str_Z window_minute.
Definition _recent_queries_key (tenant_id external_user_id : string) : string :=
  "user_recent_queries:" +:+ tenant_id +:+ ":" +:+ external_user_id.

Definition _get_redis_count (now : datetime) (up : bool) (rate_key : string) (s : GateState) : Z :=
  if up then default 0%Z (rget now rate_key (gs_rates s)) else 0%Z.

(** [INCR] and [EXPIRE] *)
Definition _increment_rate_counter (now : datetime) (up : bool) (rate_key : string) (s : GateState) : GateState :=
  if up
  then s <| gs_rates ::= rset rate_key (default 0 (rget now rate_key (gs_rates s)) + 1)%Z
                           (Some (now + RATE_LIMIT_TTL_SECONDS * second)%Z) |>
  else s.

(** [LPUSH], [LTRIM] and [EXPIRE] *)
Definition _store_recent_query (now : datetime) (up : bool) (redis_key query_text : string) (embedding : list Q)
    (s : GateState) : GateState :=
  if up
  then s <| gs_recent ::= rset redis_key
         (take RECENT_QUERY_LIST_SIZE ({| rq_query := query_text; rq_embedding := embedding |}
                                       :: default [] (rget now redis_key (gs_recent s))))
         (Some (now + RECENT_QUERY_TTL_SECONDS * second)%Z) |>
  else s.

Definition _semantic_deduplication (now : datetime) (up : bool) (messages : list obj)
    (tenant_id external_user_id : string) (s : GateState) : GateState * option Q :=
  let redis_key := _recent_queries_key tenant_id external_user_id in
  let recent_items := if up then default [] (rget now redis_key (gs_recent s)) else [] in
  let query_text := _conversation_text messages in
  match recent_items with
  | [] => (_store_recent_query now up redis_key query_text [] s, None)
  | _ =>
      match embed query_text with
      | None => (_store_recent_query now up redis_key query_text [] s, None)
      | Some embedding =>
          (_store_recent_query now up redis_key query_text embedding s,
           Some (max_or_zero (omap (item_similarity query_text embedding) recent_items)))
      end
  end.

(** ** The gate *)

Definition _retry_after_seconds (now : datetime) : Z :=
  let current_second := ((now / second) mod 60)%Z in
  if (current_second =? 0)%Z then 60%Z else (60 - current_second)%Z.

(** The row is dropped when the tenant's id does not parse. *)
Definition _log_quality_result (tenant_id external_user_id : string) (layer : CallQualityBlockedLayer.t)
    (reason : option string) (quality_score : Q) (semantic_similarity : option Q) (s : GateState) : GateState :=
  match parse_uuid_str tenant_id with
  | Some t => s <| gs_log ::= fun l => l ++ [
      {| cl_tenant_id := t; cl_external_user_id := external_user_id; cl_layer_blocked_at := layer;
         cl_quality_score := py_round quality_score 6; cl_reason := reason;
         cl_semantic_similarity := (fun q => py_round q 6) <$> semantic_similarity |}] |>
  | None => s
  end.

Definition blocked (layer : CallQualityBlockedLayer.t) (reason : option string) (retry : option Z) (remaining : Q)
    : GateResult :=
  {| gr_passed := false; gr_blocked_layer := Some layer; gr_reason := reason; gr_retry_after_seconds := retry;
     gr_budget_remaining_pct := Some remaining; gr_estimated_tokens := 0 |}.

Definition dispatch (task : gate_task) (s : GateState) : GateState := s <| gs_tasks ::= fun l => l ++ [task] |>.

(** [usage_pct] of the alert task *)
Definition alert_usage (messages : list obj) (budget : option TenantBudget) : Q :=
  match budget with Some b => usage_pct b (estimate_tokens messages) | None => 0 end.

Definition check (now : datetime) (up : bool) (messages : list obj) (tenant_id external_user_id : string)
    (semantic_deduplication turn_admission : bool) (s : GateState) : GateState * GateResult :=
  let log := _log_quality_result tenant_id external_user_id in
  match parse_uuid_str tenant_id with
  | None =>
      (log CallQualityBlockedLayer.none (Some "internal_error") 0 None s,
       {| gr_passed := false; gr_blocked_layer := None; gr_reason := Some "internal_error";
          gr_retry_after_seconds := None; gr_budget_remaining_pct := None; gr_estimated_tokens := 0 |})
  | Some t =>
      let tenant_budget := gs_budgets s !! t in
      let remaining := budget_remaining_pct messages tenant_budget in
      let rate_key := _rate_limit_key tenant_id external_user_id (minute_of now) in
      if (rate_limit_per_user tenant_budget <=? _get_redis_count now up rate_key s)%Z
      then (log CallQualityBlockedLayer.l1 (Some "rate_limit_exceeded") 0 None s,
            blocked CallQualityBlockedLayer.l1 (Some "rate_limit_exceeded") (Some (_retry_after_seconds now)) remaining)
      else
      let quality_score := if turn_admission then 0 else _conversation_quality_score messages in
      if negb turn_admission && (quality_score <?q QUALITY_SCORE_THRESHOLD)
      then (log CallQualityBlockedLayer.l2 (Some "low_quality") quality_score None s,
            blocked CallQualityBlockedLayer.l2 (Some "low_quality") None remaining)
      else
      let '(s, similarity) :=
        if semantic_deduplication && negb turn_admission
        then _semantic_deduplication now up messages tenant_id external_user_id s else (s, None) in
      if match similarity with Some q => SEMANTIC_DUPLICATE_THRESHOLD <?q q | None => false end
      then (log CallQualityBlockedLayer.l3 (Some "duplicate_query") quality_score similarity s,
            blocked CallQualityBlockedLayer.l3 (Some "duplicate_query") None remaining)
      else
      let budget_decision := evaluate messages tenant_budget in
      let s := if bd_should_alert budget_decision && negb turn_admission
               then dispatch (AlertBudget tenant_id (alert_usage messages tenant_budget)
                                (bd_estimated_tokens budget_decision)) s
               else s in
      if negb (bd_passed budget_decision)
      then (log CallQualityBlockedLayer.l4 (bd_reason budget_decision) quality_score similarity s,
            blocked CallQualityBlockedLayer.l4 (bd_reason budget_decision) None
              (bd_budget_remaining_pct budget_decision))
      else
      let s := _increment_rate_counter now up rate_key s in
      let s := if turn_admission then s
               else dispatch (IncrementBudget tenant_id (bd_estimated_tokens budget_decision)) s in
      (log CallQualityBlockedLayer.none None quality_score similarity s,
       {| gr_passed := true; gr_blocked_layer := None; gr_reason := None; gr_retry_after_seconds := None;
          gr_budget_remaining_pct := Some (bd_budget_remaining_pct budget_decision);
          gr_estimated_tokens := bd_estimated_tokens budget_decision |})
  end.
End Gate.
