(* ===== verification/QualityGateTheorems.v ===== *)
(** * The quality gate: theorems

    A user passes at most as often in a minute as the tenant's plan says, a
    repeated conversation is refused; and a conversation refused for the budget
    is refused as a duplicate of itself when it is sent again. *)

From S2P Require Export QualityGate.

#[local] Open Scope Q_scope.

Section Theorems.
Context `{PyLib}.
Variable math_sqrt : Q -> Q.
Variable embed : string -> option (list Q).
Variable tenant_id : string.

Abbreviation check := (check math_sqrt embed).

(** A call of the gate for the tenant while Redis answers. *)
Record Call := { ca_now : datetime; ca_messages : list obj; ca_user : string; ca_dedup : bool; ca_turn : bool }.

Definition call (c : Call) (s : GateState) : GateState * GateResult :=
  check (ca_now c) true (ca_messages c) tenant_id (ca_user c) (ca_dedup c) (ca_turn c) s.

Fixpoint calls (cs : list Call) (s : GateState) : GateState * list (string * bool) :=
  match cs with
  | [] => (s, [])
  | c :: cs =>
      let (s, r) := call c s in
      let (s, rs) := calls cs s in (s, (ca_user c, gr_passed r) :: rs)
  end.

(** How often the user passed. *)
Definition passes (user : string) (results : list (string * bool)) : nat :=
  length (filter (fun r => r = (user, true)) results).

(** The parts of the state the counters depend on. *)
Definition counted (s : GateState) : gmap uuid TenantBudget * gmap string (Expiring Z) := (gs_budgets s, gs_rates s).

Lemma log_counted user layer reason q sim s :
  counted (_log_quality_result tenant_id user layer reason q sim s) = counted s.
Proof. unfold _log_quality_result. by destruct (parse_uuid_str tenant_id). Qed.

Lemma log_recent user layer reason q sim s :
  gs_recent (_log_quality_result tenant_id user layer reason q sim s) = gs_recent s.
Proof. unfold _log_quality_result. by destruct (parse_uuid_str tenant_id). Qed.

Lemma dedup_counted now up messages user s :
  counted (_semantic_deduplication math_sqrt embed now up messages tenant_id user s).1 = counted s.
Proof.
  unfold _semantic_deduplication, _store_recent_query.
  destruct (if up then _ else _) as [|i l]; [by destruct up|]. destruct (embed _); by destruct up.
Qed.

(** What the layers before the counters leave: a refusal, or a state to go on
    from. *)
Inductive gate_run (now : datetime) (up : bool) (messages : list obj) (user : string) (dedup turn : bool)
    (s s' : GateState) (r : GateResult) : Prop :=
  | gate_refused : gr_passed r = false -> counted s' = counted s -> gate_run now up messages user dedup turn s s' r
  | gate_passed t s1 sim :
      parse_uuid_str tenant_id = Some t ->
      (_get_redis_count now up (_rate_limit_key tenant_id user (minute_of now)) s
       < rate_limit_per_user (gs_budgets s !! t))%Z ->
      (if dedup && negb turn then _semantic_deduplication math_sqrt embed now up messages tenant_id user s
       else (s, None)) = (s1, sim) ->
      match sim with Some q => q <= SEMANTIC_DUPLICATE_THRESHOLD | None => True end ->
      gr_passed r = true ->
      gs_budgets s' = gs_budgets s -> gs_recent s' = gs_recent s1 ->
      gs_rates s' = gs_rates (_increment_rate_counter now up (_rate_limit_key tenant_id user (minute_of now)) s1) ->
      gate_run now up messages user dedup turn s s' r.

Lemma check_run now up messages user dedup turn s s' r :
  check now up messages tenant_id user dedup turn s = (s', r) -> gate_run now up messages user dedup turn s s' r.
Proof.
  unfold QualityGate.check. cbv zeta. destruct (parse_uuid_str tenant_id) as [t|] eqn:Ht.
  2: { intros [= <- <-]. apply gate_refused; [done|apply log_counted]. }
  destruct (Z.leb_spec (rate_limit_per_user (gs_budgets s !! t))
    (_get_redis_count now up (_rate_limit_key tenant_id user (minute_of now)) s)) as [Hle|Hlt].
  { intros [= <- <-]. apply gate_refused; [done|apply log_counted]. }
  destruct (negb turn && _). { intros [= <- <-]. apply gate_refused; [done|apply log_counted]. }
  destruct (if dedup && negb turn then _ else _) as [s1 sim] eqn:Hs1.
  assert (counted s1 = counted s) as Hc.
  { destruct (dedup && negb turn); [|by simplify_eq].
    pose proof (dedup_counted now up messages user s) as Hd. by rewrite Hs1 in Hd. }
  destruct (match sim with Some q => _ | None => _ end) eqn:Hsim.
  { intros [= <- <-]. apply gate_refused; [done|]. by rewrite log_counted. }
  set (s2 := if bd_should_alert _ && negb turn then _ else s1).
  assert (counted s2 = counted s1 /\ gs_recent s2 = gs_recent s1) as [Hc2 Hr2] by (subst s2; by destruct (bd_should_alert _ && negb turn)).
  destruct (bd_passed _) eqn:Hpass; cbn [negb].
  2: { intros [= <- <-]. apply gate_refused; [done|]. by rewrite log_counted, Hc2. }
  set (s3 := _increment_rate_counter now up _ s2). set (s4 := if turn then s3 else _).
  assert (gs_budgets s4 = gs_budgets s3 /\ gs_rates s4 = gs_rates s3 /\ gs_recent s4 = gs_recent s3) as (Hb4 & Hr4 & Hq4)
    by (subst s4; by destruct turn).
  assert (gs_budgets s3 = gs_budgets s2 /\ gs_recent s3 = gs_recent s2) as [Hb3 Hq3]
    by (subst s3; unfold _increment_rate_counter; by destruct up).
  injection Hc as Hcb Hcr. injection Hc2 as Hc2b Hc2r.
  intros [= <- <-].
  match goal with |- gate_run _ _ _ _ _ _ _ (_log_quality_result _ _ ?l ?re ?q ?si ?x) _ =>
    pose proof (log_counted user l re q si x) as Hl; pose proof (log_recent user l re q si x) as Hlr end.
  injection Hl as Hlb Hlq. eapply gate_passed; [done|done|exact Hs1| |done|..].
  - destruct sim as [q|]; [|done]. apply Qltb_ge in Hsim. exact Hsim.
  - congruence.
  - congruence.
  - rewrite Hlq, Hr4. subst s3. unfold _increment_rate_counter. destruct up; cbn; [|congruence]. by rewrite Hc2r.
Qed.

(** ** The limit per minute *)

(** The user's counter stands at [n] or more until the minute is over. *)
Definition counted_at_least (key : string) (minute : Z) (n : nat) (s : GateState) : Prop :=
  n = 0%nat \/
  exists v e, gs_rates s !! key = Some {| ex_value := v; ex_at := Some e |} /\ (Z.of_nat n <= v)%Z /\
              forall now, minute_of now = minute -> (now < e)%Z.

Lemma same_minute a b : minute_of a = minute_of b -> (a < b + RATE_LIMIT_TTL_SECONDS * second)%Z.
Proof.
  unfold minute_of, RATE_LIMIT_TTL_SECONDS, second. intros H1.
  pose proof (Z.div_mod (a / 1000000) 60 ltac:(done)). pose proof (Z.mod_pos_bound (a / 1000000) 60 ltac:(done)).
  pose proof (Z.div_mod (b / 1000000) 60 ltac:(done)). pose proof (Z.mod_pos_bound (b / 1000000) 60 ltac:(done)).
  pose proof (Z.div_mod a 1000000 ltac:(done)). pose proof (Z.mod_pos_bound a 1000000 ltac:(done)).
  pose proof (Z.div_mod b 1000000 ltac:(done)). pose proof (Z.mod_pos_bound b 1000000 ltac:(done)). lia.
Qed.

Lemma counted_read key minute n s now :
  counted_at_least key minute n s -> minute_of now = minute ->
  (Z.of_nat n <= default 0 (rget now key (gs_rates s)))%Z \/ n = 0%nat.
Proof.
  intros [->|(v & e & Hk & Hn & He)] Hm; [by right|left]. unfold rget. rewrite Hk. cbn.
  rewrite (proj2 (Z.ltb_lt now e)) by by apply He. done.
Qed.

(** A pass through key [k] keeps what was counted at any key, and counts. *)
Lemma counted_more key k minute n s s1 s' now :
  minute_of now = minute -> gs_rates s1 = gs_rates s -> (0 <= default 0 (rget now k (gs_rates s)))%Z ->
  gs_rates s' = gs_rates (_increment_rate_counter now true k s1) ->
  counted_at_least key minute n s -> counted_at_least key minute (if bool_decide (k = key) then S n else n) s'.
Proof.
  intros Hm Hs1 Hpos Hs' Hn. cbn in Hs'. rewrite Hs1 in Hs'. unfold rset in Hs'.
  case_bool_decide as Hk; [subst k; right|].
  - eexists _, _. rewrite Hs', lookup_insert_eq. split; [done|]. split.
    + destruct (counted_read key minute n s now Hn Hm) as [?| ->]; lia.
    + intros t Ht. apply same_minute. congruence.
  - destruct Hn as [->|(v & e & Hv & ?)]; [by left|right]. exists v, e. by rewrite Hs', lookup_insert_ne.
Qed.

Definition counters_ok (s : GateState) : Prop := forall k e, gs_rates s !! k = Some e -> (0 <= ex_value e)%Z.

Lemma counters_read k now s : counters_ok s -> (0 <= default 0 (rget now k (gs_rates s)))%Z.
Proof.
  intros Hok. unfold rget. destruct (gs_rates s !! k) as [e|] eqn:He; [|done]. cbn.
  destruct (alive now e); [by apply (Hok k)|done].
Qed.

Lemma counters_ok_counted s s' : counted s' = counted s -> counters_ok s -> counters_ok s'.
Proof. intros Hc. injection Hc as _ Hr. unfold counters_ok. by rewrite Hr. Qed.

Definition limit_of (s : GateState) : Z :=
  match parse_uuid_str tenant_id with Some t => rate_limit_per_user (gs_budgets s !! t) | None => 0%Z end.

Lemma calls_bounded user minute cs s n :
  Forall (fun c => minute_of (ca_now c) = minute) cs -> counters_ok s ->
  counted_at_least (_rate_limit_key tenant_id user minute) minute n s ->
  (Z.of_nat (n + passes user (calls cs s).2) <= Z.max (Z.of_nat n) (limit_of s))%Z.
Proof.
  intros Hcs. revert s n. induction Hcs as [|c cs Hm Hcs IH]; intros s n Hok Hn; [cbn; lia|]. cbn [calls].
  destruct (call c s) as [s1 r] eqn:Hcall. destruct (calls cs s1) as [s2 rs] eqn:Hrest. cbn [snd].
  apply check_run in Hcall as [Hr Hc|t s0 sim Ht Hlt Hs0 _ Hr Hb _ Hrates].
  - injection Hc as Hcb Hcr. specialize (IH s1 n). rewrite Hrest in IH.
    assert (limit_of s1 = limit_of s) as Hlim by (unfold limit_of; by rewrite Hcb). rewrite Hlim in IH.
    rewrite Hr. unfold passes. rewrite filter_cons_False by congruence. apply IH.
    + intros k e. rewrite Hcr. apply Hok.
    + destruct Hn as [->|(v & e & Hv & ?)]; [by left|right]. exists v, e. by rewrite Hcr.
  - assert (gs_rates s0 = gs_rates s) as Hs0r.
    { destruct (ca_dedup c && negb (ca_turn c)); [|by simplify_eq].
      pose proof (dedup_counted (ca_now c) true (ca_messages c) (ca_user c) s) as Hd. rewrite Hs0 in Hd.
      by injection Hd as _ ?. }
    assert (limit_of s1 = limit_of s) as Hlim by (unfold limit_of; by rewrite Hb).
    assert (limit_of s = rate_limit_per_user (gs_budgets s !! t)) as Hlimt by (unfold limit_of; by rewrite Ht).
    rewrite Hr.
    pose proof (counters_read (_rate_limit_key tenant_id (ca_user c) (minute_of (ca_now c))) (ca_now c) s Hok) as Hpos.
    pose proof (counted_more (_rate_limit_key tenant_id user minute)
      (_rate_limit_key tenant_id (ca_user c) (minute_of (ca_now c))) minute n s s0 s1 (ca_now c) Hm Hs0r Hpos Hrates Hn)
      as Hn1.
    assert (counters_ok s1) as Hok1.
    { intros k e. rewrite Hrates. cbn. unfold rset. rewrite Hs0r.
      intros [[<- <-]|[_ He]]%lookup_insert_Some; [cbn; lia|by apply (Hok k)]. }
    specialize (IH s1 _ Hok1 Hn1). rewrite Hrest, Hlim in IH. cbn [snd] in IH.
    destruct (decide (ca_user c = user)) as [Hu|Hu].
    + unfold passes in *. rewrite filter_cons_True by congruence. cbn [length].
      rewrite bool_decide_eq_true_2 in IH by congruence.
      destruct (counted_read _ minute n s (ca_now c) Hn Hm) as [Hge| ->]; unfold _get_redis_count in Hlt;
        rewrite Hm, Hu in *; lia.
    + unfold passes in *. rewrite filter_cons_False by congruence.
      case_bool_decide; lia.
Qed.

(** C36: Redis answering, a user of a tenant passes the gate at most as often in
    a minute as the tenant's plan allows (ten times without a budget row),
    whatever else is sent in that minute, by whom and in which order; the calls
    come one after the other. *)
Theorem users_pass_at_most_the_limit user minute cs s :
  counters_ok s -> Forall (fun c => minute_of (ca_now c) = minute) cs ->
  (Z.of_nat (passes user (calls cs s).2) <= Z.max 0 (limit_of s))%Z.
Proof. intros Hok Hcs. by apply (calls_bounded user minute cs s 0 Hcs Hok (or_introl eq_refl)). Qed.

(** ** Repeated conversations *)

Lemma max_or_zero_one scores : 1 <= max_or_zero (1 :: scores).
Proof.
  cbn. assert (forall q, 1 <= q -> 1 <= fold_left Qmax scores q) as Hf; [|by apply Hf, Qle_refl].
  induction scores as [|x scores IH]; intros q Hq; [done|]. cbn. apply IH.
  apply Qle_trans with q; [done|apply Q.le_max_l].
Qed.

Lemma repeated_similarity q v item :
  py_strip (rq_query item) <> EmptyString -> _normalize_query (py_strip (rq_query item)) = _normalize_query q ->
  item_similarity math_sqrt q v item = Some 1.
Proof.
  intros Hne Heq. unfold item_similarity.
  by rewrite (bool_decide_eq_false_2 _ Hne), (bool_decide_eq_true_2 _ Heq).
Qed.

Lemma stored_query now messages user s s1 sim :
  _semantic_deduplication math_sqrt embed now true messages tenant_id user s = (s1, sim) ->
  exists v rest, gs_recent s1 !! _recent_queries_key tenant_id user =
    Some {| ex_value := {| rq_query := _conversation_text messages; rq_embedding := v |} :: rest;
            ex_at := Some (now + RECENT_QUERY_TTL_SECONDS * second)%Z |}.
Proof.
  unfold _semantic_deduplication. destruct (default [] _) as [|i l]; [|destruct (embed _) as [v|]];
    intros [= <- _]; cbn -[take]; unfold rset; rewrite lookup_insert_eq; eexists _, _; reflexivity.
Qed.

(** A conversation that passed is refused when its text comes again within
    the hour, whatever the case of its letters and the runs of blanks between
    its words, while the embedder and Redis answer. *)
Theorem repeated_conversations_are_refused now now' messages messages' user s s1 r :
  check now true messages tenant_id user true false s = (s1, r) -> gr_passed r = true ->
  (now' < now + RECENT_QUERY_TTL_SECONDS * second)%Z ->
  py_strip (_conversation_text messages) <> EmptyString ->
  _normalize_query (py_strip (_conversation_text messages)) = _normalize_query (_conversation_text messages') ->
  embed (_conversation_text messages') <> None ->
  gr_passed (check now' true messages' tenant_id user true false s1).2 = false.
Proof.
  intros Hrun Hr Hnow Hne Heq Hembed.
  apply check_run in Hrun as [?|t s0 sim _ _ Hs0 _ _ _ Hrecent _]; [congruence|]. cbn [andb negb] in Hs0.
  apply stored_query in Hs0 as (v & rest & Hkey). rewrite <- Hrecent in Hkey.
  destruct (check now' true messages' tenant_id user true false s1) as [s2 r2] eqn:Hcheck.
  apply check_run in Hcheck as [?|t' s3 sim' _ _ Hdup Hsim _ _ _ _]; [done|]. exfalso. cbn [andb negb] in Hdup.
  unfold _semantic_deduplication, rget in Hdup. rewrite Hkey in Hdup. cbn [mbind option_bind alive ex_at ex_value] in Hdup.
  rewrite (proj2 (Z.ltb_lt now' _) Hnow) in Hdup. cbn [default] in Hdup.
  destruct (embed _) as [e|]; [|done].
  unfold id in Hdup. cbn [omap list_omap] in Hdup. rewrite repeated_similarity in Hdup by done.
  injection Hdup as _ <-. pose proof (Qle_trans _ _ _ (max_or_zero_one _) Hsim) as Hfalse. by vm_compute in Hfalse.
Qed.
End Theorems.

(** ** Examples and shortfalls *)

Section Examples.
#[local] Existing Instance unary_uuids.

Definition unit_vector (text : string) : option (list Q) := Some [1].
Definition same_root (q : Q) : Q := q.

Definition said (text : string) : list obj := [[("role", JStr "user"); ("content", JStr text)]].
Definition japan : string := "I prefer short answers about my travel plans to Japan, can you note that?".
Definition japan_again : string := "  i prefer SHORT answers about  my travel plans to japan, can you note that?".

Lemma japan_is_good_enough : (35 # 100) <= _conversation_quality_score (said japan).
Proof. vm_compute. discriminate. Qed.

(** Two calls of the user pass in a minute. *)
Definition gate_budget : TenantBudget := example_budget <| b_rate_limit_per_user_per_minute := 2%Z |>.
Definition gate : GateState :=
  {| gs_budgets := {[1%Z := gate_budget]}; gs_rates := ∅; gs_recent := ∅; gs_log := []; gs_tasks := [] |}.

Definition call_at (t : Z) (user text : string) : Call :=
  {| ca_now := (t * second)%Z; ca_messages := said text; ca_user := user; ca_dedup := false; ca_turn := false |}.
Definition busy_minute : list Call :=
  [call_at 60 "u" japan; call_at 70 "v" japan; call_at 80 "u" japan; call_at 90 "u" japan; call_at 119 "v" japan].

Lemma busy_minute_results :
  (calls same_root unit_vector (unary_str 1) busy_minute gate).2 =
    [("u", true); ("v", true); ("u", true); ("u", false); ("v", true)].
Proof. vm_compute. done. Qed.

Lemma users_pass_at_most_the_limit_witness :
  limit_of (unary_str 1) gate = 2%Z /\
  (Z.of_nat (passes "u" (calls same_root unit_vector (unary_str 1) busy_minute gate).2)
   <= Z.max 0 (limit_of (unary_str 1) gate))%Z.
Proof.
  split; [reflexivity|].
  apply (users_pass_at_most_the_limit same_root unit_vector (unary_str 1) "u" 1).
  - intros k e He. cbn in He. rewrite lookup_empty in He. discriminate He.
  - repeat constructor.
Defined.

Definition first_call : GateState * GateResult :=
  QualityGate.check same_root unit_vector second true (said japan) (unary_str 1) "u" true false gate.

Lemma repeated_conversations_are_refused_witness :
  gr_passed first_call.2 = true /\
  gr_passed (QualityGate.check same_root unit_vector (600 * second) true (said japan_again) (unary_str 1) "u"
               true false first_call.1).2 = false.
Proof.
  split; [vm_compute; reflexivity|].
  apply (repeated_conversations_are_refused same_root unit_vector (unary_str 1) second (600 * second)
           (said japan) (said japan_again) "u" gate first_call.1 first_call.2).
  - apply surjective_pairing.
  - vm_compute. reflexivity.
  - reflexivity.
  - vm_compute. discriminate.
  - vm_compute. reflexivity.
  - discriminate.
Defined.

(** The list of recent conversations is written before the budget is looked at:
    a conversation the budget refuses is a duplicate of itself once the budget
    allows it, though it was never stored. *)
Example refused_for_budget_then_for_duplication :
  let spent := gate <| gs_budgets := {[1%Z := gate_budget <| b_monthly_call_limit := Some 0%Z |>
                                                <| b_overage_policy := OveragePolicy.block |>]} |> in
  let refused := QualityGate.check same_root unit_vector second true (said japan) (unary_str 1) "u" true false spent in
  let restored := refused.1 <| gs_budgets := {[1%Z := gate_budget]} |> in
  gr_reason refused.2 = Some "budget_exhausted" /\
  gr_reason (QualityGate.check same_root unit_vector (600 * second) true (said japan) (unary_str 1) "u" true false
               restored).2 = Some "duplicate_query".
Proof. vm_compute. done. Qed.
End Examples.
