(* ===== verification/PassportAgents.v ===== *)
(** * Agents at a passport

    What an agent does with a holder's passport: the keys of
    [GlobalAgentService] ([api/services/global_agent_service.py]), the
    capabilities of [api/services/mcp_universal_capability_service.py], the
    authentication of [api/middleware/universal_auth.py] and the handlers of
    [api/routers/universal.py].

    bcrypt, SHA-256, the JWT library, the embedder, the vector index, the task
    queue and the quality gate's verdict are inputs. *)

From S2P Require Export PassportAccess Ranking QualityGate.

#[local] Open Scope string_scope.

Definition UNIVERSAL_JOB_STATUS_TTL_SECONDS : Z := 604800.
Definition IDEMPOTENT_TTL_SECONDS : Z := 86400.
Definition FAILED_IDEMPOTENT_TTL_SECONDS : Z := 300.

Record AgentApiKey := {
  ak_id : uuid;
  ak_global_agent_id : uuid;
  ak_key_hash : string;
  ak_key_prefix : string;
  ak_name : string;
  ak_is_active : bool;
  ak_created_at : datetime;
  ak_last_used_at : option datetime;
}.

(** The passport with the agents' keys, the cached owners of jobs and replies
    to idempotent calls, and the tasks sent. *)
Record AgentWorld := {
  aw_access : Access;
  aw_keys : gmap uuid AgentApiKey;
  aw_jobs : gmap string (Expiring obj);                 (* the job's id *)
  aw_replies : gmap (string * string) (Expiring obj);   (* scope and idempotency key *)
  aw_sent : list obj;
}.

Abbreviation WM := (M AgentWorld passport_exn).

Definition on_access {A} (m : AM A) : WM A :=
  fun w => let (a, r) := m (aw_access w) in (w <| aw_access := a |>, r).

Section Agents.
Context `{PyLib}.
(** [bcrypt.hashpw] with the salt it draws, [bcrypt.checkpw], SHA-256 and
    [jwt.decode] with its checks of signature, issuer, audience and expiry. *)
Variable hash_api_key : string -> string -> string.
Variable verify_api_key : string -> string -> bool.
Variable fingerprint_api_key : string -> string.
Variable jwt_decode : string -> datetime -> option obj.

(** ** Keys *)

(** The ids, the secret and the salt of a registration. *)
Record AgentDraw := { ad_agent_id : uuid; ad_key_id : uuid; ad_hex : string; ad_salt : string }.

Definition register_agent (mo : Moment) (d : AgentDraw) (tenant : uuid) (name : string)
    (description logo_url website_url : option string) (default_categories_requested : option (list string))
    (redirect_uri : option string) : WM (GlobalAgent * string) :=
  let categories := default [] default_categories_requested in
  if negb (forallb (fun c => bool_decide (c ∈ ALLOWED_MEMORY_CATEGORIES)) categories)
  then raise_st validation_error else
  let agent := {| ga_id := ad_agent_id d; ga_owner_tenant_id := tenant; ga_name := name;
                  ga_description := description; ga_logo_url := logo_url; ga_website_url := website_url;
                  ga_default_categories_requested := categories;
                  ga_redirect_uri := py_strip (default EmptyString redirect_uri); ga_is_verified := false;
                  ga_is_public := true; ga_is_active := true |} in
  let raw_agent_api_key := "agent_sk_" +:+ ad_hex d in
  let key := {| ak_id := ad_key_id d; ak_global_agent_id := ad_agent_id d;
                ak_key_hash := hash_api_key (ad_salt d) (fingerprint_api_key raw_agent_api_key);
                ak_key_prefix := py_take 12 raw_agent_api_key; ak_name := name +:+ " Primary Key";
                ak_is_active := true; ak_created_at := mo_tx mo; ak_last_used_at := None |} in
  modify_st (fun w => w <| aw_access ::= fun a => a <| ac_db ::= fun P =>
                           P <| pp_agents ::= insert (ga_id agent) agent |> |> |>
                        <| aw_keys ::= insert (ak_id key) key |>);;
  mret (agent, raw_agent_api_key).

Definition key_before (a b : AgentApiKey) : bool :=
  if (ak_created_at a =? ak_created_at b)%Z then (ak_id b <=? ak_id a)%Z
  else (ak_created_at b <? ak_created_at a)%Z.

(** The key that the first 12 characters and the hash accept. *)
Definition accepted_key (raw_key : string) (keys : gmap uuid AgentApiKey) : option AgentApiKey :=
  head (filter (fun k => verify_api_key (fingerprint_api_key raw_key) (ak_key_hash k) = true)
    (sort_by key_before
       (rows_where (fun k => ak_is_active k && bool_decide (ak_key_prefix k = py_take 12 raw_key)) keys))).

Definition resolve_from_api_key (mo : Moment) (raw_key : string) : WM (option GlobalAgent) :=
  let raw_key := py_strip raw_key in
  if bool_decide (raw_key = EmptyString) then mret None else
  w ← get_st;
  match accepted_key raw_key (aw_keys w) with
  | None => mret None
  | Some k =>
      modify_st (fun w => w <| aw_keys ::= insert (ak_id k) (k <| ak_last_used_at := Some (mo_now mo) |>) |>);;
      mret (g ← pp_agents (ac_db (aw_access w)) !! ak_global_agent_id k; if ga_is_active g then Some g else None)
  end.

(** ** Capabilities *)

Record UniversalMcpCapability := { cp_user_uui_id : string; cp_agent_id : string; cp_grant_id : string }.

Definition verify_universal_mcp_capability (now : datetime) (token : string) : option UniversalMcpCapability :=
  payload ← jwt_decode token now;
  let text k := py_strip (str_or_empty (jget_or_null k payload)) in
  let c := {| cp_user_uui_id := text "sub"; cp_agent_id := text "agent_id"; cp_grant_id := text "grant_id" |} in
  if bool_decide (cp_user_uui_id c = EmptyString) || bool_decide (cp_agent_id c = EmptyString)
     || bool_decide (cp_grant_id c = EmptyString)
  then None
  else
    _ ← parse_uuid_str (cp_user_uui_id c);
    _ ← parse_uuid_str (cp_agent_id c);
    _ ← parse_uuid_str (cp_grant_id c);
    Some c.

(** ** Authentication *)

Inductive auth_outcome :=
  | PassedOn                                             (* not an authenticated path *)
  | Forbidden
  | Authenticated (agent : GlobalAgent) (user : UniversalUser) (method : string).

Record HttpRequest := { hr_path : string; hr_method : string; hr_authorization : string; hr_uui : string }.

(** [s.split(" ", 1)]; [None]: there is no blank. *)
Fixpoint split_blank (s : string) : option (string * string) :=
  match s with
  | EmptyString => None
  | String c s => if bool_decide (c = " "%char) then Some (EmptyString, s)
                  else '(a, b) ← split_blank s; Some (String c a, b)
  end.

Fixpoint py_drop (n : nat) (s : string) : string :=
  match n, s with S n, String _ s => py_drop n s | _, _ => s end.

Definition bearer_outcome (mo : Moment) (capability : UniversalMcpCapability) (P : Passport) : auth_outcome :=
  let row {A} (t : gmap uuid A) (id : string) : option A := u ← parse_uuid_str id; t !! u in
  match row (pp_agents P) (cp_agent_id capability), row (pp_users P) (cp_user_uui_id capability),
        row (pp_grants P) (cp_grant_id capability) with
  | Some agent, Some user, Some grant =>
      if ga_is_active agent && uu_is_active user && pg_is_active grant
         && bool_decide (uuid_str (pg_user_uui_id grant) = cp_user_uui_id capability)
         && bool_decide (uuid_str (pg_agent_id grant) = cp_agent_id capability)
         && ends_after (pg_expires_at grant) (mo_now mo)
      then Authenticated agent user "mcp_universal_capability"
      else Forbidden
  | _, _, _ => Forbidden
  end.

(** A lookup fault reads as not found. *)
Definition authenticate (mo : Moment) (r : HttpRequest) : WM auth_outcome :=
  if negb (py_startswith (hr_path r) "/v1/universal/") || bool_decide (py_upper (hr_method r) = "OPTIONS")
  then mret PassedOn else
  let auth_header := py_strip (hr_authorization r) in
  let uui_token := py_strip (hr_uui r) in
  if py_startswith (py_lower auth_header) "bearer "
  then
    match verify_universal_mcp_capability (mo_now mo) (py_strip (py_drop 7 auth_header)) with
    | None => mret Forbidden
    | Some capability => w ← get_st; mret (bearer_outcome mo capability (ac_db (aw_access w)))
    end
  else if bool_decide (auth_header = EmptyString) || bool_decide (uui_token = EmptyString) then mret Forbidden
  else
    match split_blank auth_header with
    | None => mret Forbidden
    | Some (scheme, raw_key) =>
        if negb (bool_decide (py_lower scheme = "apikey")) || bool_decide (py_strip raw_key = EmptyString)
        then mret Forbidden else
        agent ← resolve_from_api_key mo (py_strip raw_key);
        user ← on_access (resolve_by_token mo uui_token);
        mret (match agent, user with
              | Some agent, Some user => Authenticated agent user "cross_agent"
              | _, _ => Forbidden
              end)
    end.
End Agents.

(** ** Reading memories *)

Section Reading.
Context `{PyLib} `{Hashing} `{Tokenizer}.
Variable embed : string -> option (list Q * Z).
(** The index's points for a user and a category, at most so many. *)
Variable query_points : string -> list Q -> string -> Z -> option (list Ranking.Point).

(** [None] prints as None. *)
Definition printed_id (point : Ranking.Point) : string := default "None" (pt_id point).

Definition _merge_scored_points (points : list Ranking.Point) : list Ranking.Point :=
  let merged := fold_left (fun merged point =>
                  if bool_decide (printed_id point = EmptyString) then merged
                  else keep_best (printed_id point) point merged) points [] in
  sort_by (fun a b => pt_score b <=?q pt_score a) (snd <$> merged).

Record MemorySearchResult := {
  sr_id : string; sr_content : string; sr_category : string; sr_importance_score : Q;
  sr_last_accessed : option string; sr_relevance_score : Q; sr_context_snippet : string; sr_provenance : json }.

Definition universal_result (now : datetime) (point : Ranking.Point) (memory : UniversalMemory) : MemoryResult :=
  let recency_score := _recency_score (Some (um_last_accessed_at memory)) now in
  {| mr_id := uuid_str (um_id memory); mr_content := um_content memory; mr_category := um_category memory;
     mr_importance_score := um_importance_score memory; mr_confidence_score := um_confidence memory;
     mr_semantic_score := pt_score point; mr_recency_score := recency_score;
     mr_final_score := py_round (weighted_score (pt_score point) (um_importance_score memory) recency_score) 6;
     mr_agent_id := Some (match um_source_agent_id memory with Some a => uuid_str a | None => "None" end);
     mr_previous_version_id := None; mr_last_accessed_at := Some (isoformat now);
     mr_created_at := Some (isoformat (um_created_at memory)); mr_source_event_id := None;
     mr_provenance := jget_or_null "provenance" (um_metadata_json memory); mr_effective_from := None;
     mr_effective_until := None |}.

(** The rows the index's answer is checked against. *)
Definition live_rows (user : uuid) (ids : list uuid) (P : Passport) : list UniversalMemory :=
  rows_where (fun m => bool_decide (um_id m ∈ ids) && bool_decide (um_user_uui_id m = user)
                       && negb (um_is_archived m)) (memories P).

Definition found_memories (ranked_points : list Ranking.Point) (rows : list UniversalMemory)
    : list (Ranking.Point * UniversalMemory) :=
  omap (fun point => m ← head (filter (fun m => uuid_str (um_id m) = printed_id point) rows); Some (point, m))
    ranked_points.

Definition touch (now : datetime) (ms : list UniversalMemory) (P : Passport) : Passport :=
  foldr (fun m => put_memory (m <| um_last_accessed_at := now |>)) P ms.

Definition built {A} (r : build_error + A) : AM A :=
  match r with inl _ => raise_st (JobError "context") | inr a => mret a end.

Definition search_result (format : string) (item : MemoryResult) : AM MemorySearchResult :=
  snippet ← built (build_context [item] format 120);
  mret {| sr_id := mr_id item; sr_content := mr_content item; sr_category := mr_category item;
          sr_importance_score := mr_importance_score item; sr_last_accessed := mr_last_accessed_at item;
          sr_relevance_score := mr_final_score item; sr_context_snippet := snippet;
          sr_provenance := mr_provenance item |}.

Fixpoint search_results (format : string) (items : list MemoryResult) : AM (list MemorySearchResult) :=
  match items with
  | [] => mret []
  | item :: items => r ← search_result format item; rs ← search_results format items; mret (r :: rs)
  end.

Definition _search_universal_memories (mo : Moment) (query : string) (user : UniversalUser)
    (allowed_categories : list string) (limit : Z) (format : string) (context_max_tokens : Z)
    : AM (list MemorySearchResult * string * Z) :=
  if bool_decide (allowed_categories = []) then mret ([], EmptyString, 0%Z) else
  query_embedding ← lift_opt (JobError "embedding") (embed query);
  scored_points ← lift_opt (JobError "index")
    (mapM (fun category => query_points (uuid_str (uu_id user)) query_embedding.1 category
                             (Z.max (limit * 4) limit)) allowed_categories);
  let ranked_points := _merge_scored_points (concat scored_points) in
  if bool_decide (length ranked_points = 0) then mret ([], EmptyString, 0%Z) else
  memory_ids ← lift_opt (JobError "uuid")
    (mapM parse_uuid_str (filter (fun s => s <> EmptyString) (omap pt_id ranked_points)));
  P ← get_db;
  let found := found_memories ranked_points (live_rows (uu_id user) memory_ids P) in
  let scored_results := (fun pm => universal_result (mo_now mo) pm.1 pm.2) <$> found in
  let final_results := take (Z.to_nat limit) (ranked (_deduplicate_results scored_results)) in
  modify_st (fun a => a <| ac_db ::= touch (mo_now mo) (snd <$> found) |>);;
  data ← search_results format final_results;
  context ← built (build final_results format context_max_tokens);
  mret (data, cr_system_prompt_addition context, cr_token_count context).

Record RetrieveReply := {
  rr_data : list MemorySearchResult; rr_system_prompt_addition : string; rr_context_token_count : Z;
  rr_permission_error : option string; rr_categories_available : list string }.

(** The grant of the agent among the holder's grants. *)
Definition grant_of_agent (agent : uuid) (grants : list PermissionGrant) : option PermissionGrant :=
  head (filter (fun g => pg_agent_id g = agent) grants).

Definition retrieve_universal_memories (mo : Moment) (agent : GlobalAgent) (user : UniversalUser)
    (query : string) (limit : Z) (format : string) (context_max_tokens : Z) : AM RetrieveReply :=
  grants ← get_grants mo (uu_id user);
  match grant_of_agent (ga_id agent) grants with
  | None => mret {| rr_data := []; rr_system_prompt_addition := EmptyString; rr_context_token_count := 0;
                    rr_permission_error := Some "no_grant_for_user"; rr_categories_available := [] |}
  | Some grant =>
      r ← _search_universal_memories mo query user (pg_categories_allowed grant) limit format context_max_tokens;
      let '(data, system_prompt_addition, context_token_count) := r in
      mret {| rr_data := data; rr_system_prompt_addition := system_prompt_addition;
              rr_context_token_count := context_token_count; rr_permission_error := None;
              rr_categories_available := pg_categories_allowed grant |}
  end.
End Reading.

(** ** Submitting conversations *)

Section Submitting.
Context `{PyLib}.

Record AddRequest := {
  ar_messages : list obj; ar_is_memory_proposal : list bool; ar_metadata : obj; ar_idempotency_key : option string }.

(** A reply with its HTTP status. *)
Record AddReply := { rp_status_code : Z; rp_body : obj }.

Definition cached_now {K} `{Countable K} (mo : Moment) (k : K) (t : gmap K (Expiring obj)) : option obj :=
  if mo_up mo then rget (mo_now mo) k t else None.
Definition cache_for {K} `{Countable K} (mo : Moment) (k : K) (v : obj) (ttl : Z) (t : gmap K (Expiring obj))
    : gmap K (Expiring obj) :=
  if mo_up mo then rset k v (expires_in mo ttl) t else t.

(** [str(o.get(k) or d)] and [o.get(k) or d] *)
Definition or_text (d k : string) (o : obj) : string :=
  let s := str_or_empty (jget_or_null k o) in if bool_decide (s = EmptyString) then d else s.
Definition or_json (d k : string) (o : obj) : json :=
  let v := jget_or_null k o in if truthy v then v else JStr d.

(** [CallQualityBlockedLayer.value] *)
Definition layer_value (l : CallQualityBlockedLayer.t) : string :=
  match l with
  | CallQualityBlockedLayer.l1 => "L1" | CallQualityBlockedLayer.l2 => "L2" | CallQualityBlockedLayer.l3 => "L3"
  | CallQualityBlockedLayer.l4 => "L4" | CallQualityBlockedLayer.none => "NONE"
  end.

Definition idempotency_scope (agent : GlobalAgent) (user : UniversalUser) : string :=
  "universal:" +:+ uuid_str (ga_id agent) +:+ ":" +:+ uuid_str (uu_id user).

Definition job_of (now : datetime) (job_id : uuid) (agent : GlobalAgent) (user : UniversalUser) (r : AddRequest) : obj :=
  [("job_id", JStr (uuid_str job_id)); ("idempotency_key", opt_json JStr (ar_idempotency_key r));
   ("status", JStr "queued"); ("user_uui_id", JStr (uuid_str (uu_id user)));
   ("agent_id", JStr (uuid_str (ga_id agent))); ("owner_tenant_id", JStr (uuid_str (ga_owner_tenant_id agent)));
   ("messages", JArr (JObj <$> ar_messages r)); ("metadata", JObj (ar_metadata r));
   ("queued_at", JStr (isoformat now)); ("processing_status", JStr "normal")].

Definition job_owner (agent : GlobalAgent) (user : UniversalUser) : obj :=
  [("user_uui_id", JStr (uuid_str (uu_id user))); ("agent_id", JStr (uuid_str (ga_id agent)))].

Definition store_reply (mo : Moment) (scope : string) (key : option string) (reply : obj) (ttl : Z) : WM unit :=
  if text_given key
  then modify_st (fun w => w <| aw_replies ::= cache_for mo (scope, default EmptyString key) reply ttl |>)
  else mret tt.

(** [gate] is the gate's verdict on the conversation and [sent] whether the
    queue takes the task. *)
Definition add_universal_memories (mo : Moment) (job_id : uuid) (gate : GateResult) (sent : bool)
    (agent : GlobalAgent) (user : UniversalUser) (r : AddRequest) : WM AddReply :=
  grants ← on_access (get_grants mo (uu_id user));
  if negb match grant_of_agent (ga_id agent) grants with
          | Some g => bool_decide (pg_access_type g = "read_write") | None => false end
  then mret {| rp_status_code := 403; rp_body := [("error", JStr "write_not_permitted"); ("code", JStr "UAT_002")] |}
  else if existsb id (ar_is_memory_proposal r)
  then raise_st (APIError 400 "PROP_400" "proposal_tracking_not_supported_for_universal")
  else
  let scope := idempotency_scope agent user in
  w ← get_st;
  match (if text_given (ar_idempotency_key r)
         then cached_now mo (scope, default EmptyString (ar_idempotency_key r)) (aw_replies w) else None) with
  | Some cached_job =>
      mret {| rp_status_code := 200;
              rp_body := [("job_id", jget_or_null "job_id" cached_job);
                          ("status", JStr (or_text "queued" "status" cached_job));
                          ("blocked_reason", jget_or_null "blocked_reason" cached_job);
                          ("retry_after_seconds", jget_or_null "retry_after_seconds" cached_job);
                          ("budget_remaining_pct", jget_or_null "budget_remaining_pct" cached_job);
                          ("processing_eta_seconds", jget_or_null "processing_eta_seconds" cached_job);
                          ("processing_status", or_json "normal" "processing_status" cached_job)] |}
  | None =>
      if negb (gr_passed gate)
      then mret {| rp_status_code := 200;
                   rp_body := [("job_id", JNull);
                               ("status", JStr (match gr_blocked_layer gate with
                                                | Some l => layer_value l | None => "blocked" end));
                               ("blocked_reason", opt_json JStr (gr_reason gate));
                               ("retry_after_seconds", opt_json JInt (gr_retry_after_seconds gate));
                               ("budget_remaining_pct", opt_json JFloat (gr_budget_remaining_pct gate))] |}
      else
      let job_payload := job_of (mo_now mo) job_id agent user r in
      modify_st (fun w => w <| aw_jobs ::= cache_for mo (uuid_str job_id) (job_owner agent user)
                                             UNIVERSAL_JOB_STATUS_TTL_SECONDS |>);;
      store_reply mo scope (ar_idempotency_key r) job_payload IDEMPOTENT_TTL_SECONDS;;
      if sent
      then
        modify_st (fun w => w <| aw_sent ::= fun l => (l ++ [job_payload])%list |>);;
        mret {| rp_status_code := 200;
                rp_body := [("job_id", JStr (uuid_str job_id)); ("status", JStr "queued"); ("blocked_reason", JNull);
                            ("budget_remaining_pct", opt_json JFloat (gr_budget_remaining_pct gate));
                            ("processing_eta_seconds", JNull); ("processing_status", JStr "normal")] |}
      else
        store_reply mo scope (ar_idempotency_key r)
          (extend [("status", JStr "error"); ("blocked_reason", JStr "dispatch_failed")] job_payload)
          FAILED_IDEMPOTENT_TTL_SECONDS;;
        mret {| rp_status_code := 200;
                rp_body := [("job_id", JStr (uuid_str job_id)); ("status", JStr "error");
                            ("blocked_reason", JStr "dispatch_failed"); ("retry_after_seconds", JNull);
                            ("budget_remaining_pct", opt_json JFloat (gr_budget_remaining_pct gate))] |}
  end.

(** The authorization of [get_universal_memory_job_status]: the answer comes
    from the task's result, [None] is the 404. *)
Definition get_universal_memory_job_status (mo : Moment) (result : string -> obj) (agent : GlobalAgent)
    (user : UniversalUser) (job_id : string) (w : AgentWorld) : option obj :=
  ownership ← cached_now mo job_id (aw_jobs w);
  if bool_decide (str_or_empty (jget_or_null "user_uui_id" ownership) = uuid_str (uu_id user))
     && bool_decide (str_or_empty (jget_or_null "agent_id" ownership) = uuid_str (ga_id agent))
  then Some (result job_id) else None.
End Submitting.
