(* ===== verification/PassportAgentTheorems.v ===== *)
(** * Agents at a passport: theorems

    An agent is shown live memories of the holder under a grant in force, and
    requests act for active principals; the categories of a grant hold as far as
    the index follows the rows. *)

From S2P Require Export RetrieverTheorems PassportAgents PassportLinkTheorems.

(** ** Reading memories *)

Section Reading.
Context `{PyLib} `{Hashing} `{Tokenizer}.
Variable embed : string -> option (list Q * Z).
Variable query_points : string -> list Q -> string -> Z -> option (list Ranking.Point).

(** The index files every memory under the category of its row. *)
Definition index_follows (P : Passport) : Prop :=
  forall user vector category n points p i m,
    query_points user vector category n = Some points -> p ∈ points ->
    memories P !! i = Some m -> uuid_str (um_id m) = printed_id p -> um_category m = category.

Lemma keep_best_sub k point merged e : e ∈ keep_best k point merged -> e ∈ merged \/ e.2 = point.
Proof.
  induction merged as [|[k' p'] merged IH]; cbn [keep_best].
  - intros ->%list_elem_of_singleton. by right.
  - case_bool_decide.
    + intros [->|Hin]%elem_of_cons; [|left; by right].
      destruct (pt_score p' <?q pt_score point); [by right|left; left].
    + intros [->|Hin]%elem_of_cons; [left; by left|]. destruct (IH Hin); [left; by right|by right].
Qed.

Lemma merged_scored_sub points p : p ∈ _merge_scored_points points -> p ∈ points.
Proof.
  unfold _merge_scored_points. rewrite sort_by_perm. intros (e & -> & He)%list_elem_of_fmap.
  set (step := fun merged point => _) in He.
  assert (forall ps merged, e ∈ fold_left step ps merged -> e ∈ merged \/ e.2 ∈ ps) as Hfold.
  { induction ps as [|q ps IH]; intros merged; cbn [fold_left]; [by left|].
    intros [Hin|Hin]%IH; [|right; by right]. unfold step in Hin. case_bool_decide; [by left|].
    apply keep_best_sub in Hin as [Hin|Hin]; [by left|]. right. rewrite Hin. by left. }
  by destruct (Hfold points [] He) as [?%elem_of_nil|?].
Qed.

(** A live row of the user. *)
Definition live_row (user : uuid) (P : Passport) (m : UniversalMemory) : Prop :=
  (exists i, memories P !! i = Some m) /\ um_user_uui_id m = user /\ um_is_archived m = false.

Lemma found_inv user ids P ranked_points pm :
  pm ∈ found_memories ranked_points (live_rows user ids P) ->
  pm.1 ∈ ranked_points /\ live_row user P pm.2 /\ uuid_str (um_id pm.2) = printed_id pm.1.
Proof.
  unfold found_memories. intros (p & Hp & Hm)%list_elem_of_omap.
  destruct (head _) as [m|] eqn:Hh; [|done]. injection Hm as <-.
  apply head_Some_elem_of, list_elem_of_filter in Hh as [Hid Hin].
  apply elem_of_rows_where in Hin as [Hc Hi]. apply andb_prop in Hc as [Hc Ha].
  apply andb_prop in Hc as [_ Hu]. apply bool_decide_eq_true in Hu. apply negb_true_iff in Ha. done.
Qed.

(** What a result shows of its item. *)
Definition shows_item (s : MemorySearchResult) (r : MemoryResult) : Prop :=
  sr_id s = mr_id r /\ sr_content s = mr_content r /\ sr_category s = mr_category r.

Lemma built_inv {A} (r : build_error + A) a a' x : built r a = (a', inr x) -> a' = a /\ r = inr x.
Proof. destruct r; by intros [= <- <-]. Qed.

(** A result with its snippet, which is built from that item alone. *)
Definition shown_as (format : string) (s : MemorySearchResult) (r : MemoryResult) : Prop :=
  shows_item s r /\ build_context [r] format 120 = inr (sr_context_snippet s).

Lemma search_results_inv format items a a' data :
  search_results format items a = (a', inr data) -> a' = a /\ Forall2 (shown_as format) data items.
Proof.
  revert data. induction items as [|item items IH]; intros data; cbn [search_results]; [by intros [= <- <-]|].
  intros (a1 & s & Hs & Hrest)%M_bind_inv. apply M_bind_inv in Hs as (a2 & snippet & [-> Hsnippet]%built_inv & [= <- <-]).
  apply M_bind_inv in Hrest as (a3 & ss & Hss & [= <- <-]). apply IH in Hss as [-> Hss].
  split; [done|]. by constructor.
Qed.

(** The prompt addition and its length are those built from the items. *)
Definition context_from (format : string) (tokens : Z) (items : list MemoryResult) (addition : string) (count : Z)
    : Prop :=
  (items = [] /\ addition = EmptyString /\ count = 0%Z) \/
  exists context, build items format tokens = inr context /\ addition = cr_system_prompt_addition context /\
                  count = cr_token_count context.

(** An item is a row the search touched, in an allowed category if the index
    follows the rows. *)
Definition item_of (mo : Moment) (P : Passport) (allowed : list string) (touched : list UniversalMemory)
    (r : MemoryResult) : Prop :=
  exists point m, m ∈ touched /\ r = universal_result (mo_now mo) point m /\
                  (index_follows P -> um_category m ∈ allowed).

Lemma search_inv mo query user allowed limit format tokens a a' data context n :
  _search_universal_memories embed query_points mo query user allowed limit format tokens a =
    (a', inr (data, context, n)) ->
  exists touched items,
    ac_db a' = touch (mo_now mo) touched (ac_db a) /\ ac_cache a' = ac_cache a /\
    Forall (live_row (uu_id user) (ac_db a)) touched /\ (length items <= Z.to_nat limit)%nat /\
    Forall (item_of mo (ac_db a) allowed touched) items /\ Forall2 (shown_as format) data items /\
    context_from format tokens items context n.
Proof.
  assert (exists touched items,
    ac_db a = touch (mo_now mo) touched (ac_db a) /\ ac_cache a = ac_cache a /\
    Forall (live_row (uu_id user) (ac_db a)) touched /\ (length items <= Z.to_nat limit)%nat /\
    Forall (item_of mo (ac_db a) allowed touched) items /\ Forall2 (shown_as format) [] items /\
    context_from format tokens items EmptyString 0) as Hnone.
  { exists [], []. split_and!; [done|done|constructor|cbn; lia|constructor|constructor|by left]. }
  unfold _search_universal_memories. case_bool_decide; [by intros [= <- <- <- <-]|].
  intros (? & [vector dim] & [-> _]%lift_opt_inv & Hrun)%M_bind_inv.
  apply M_bind_inv in Hrun as (? & points & [-> Hpoints]%lift_opt_inv & Hrun).
  set (ranked_points := _merge_scored_points (concat points)) in *.
  case_bool_decide; [by injection Hrun as <- <- <- <-|].
  apply M_bind_inv in Hrun as (? & ids & [-> _]%lift_opt_inv & Hrun).
  apply M_bind_inv in Hrun as (? & P & [= <- <-] & Hrun).
  set (found := found_memories _ _) in *.
  apply M_bind_inv in Hrun as (a1 & [] & Htouch & Hrun). injection Htouch as <-.
  apply M_bind_inv in Hrun as (a2 & shown & [-> Hshown]%search_results_inv & Hrun).
  apply M_bind_inv in Hrun as (a3 & built_context & [-> Hcontext]%built_inv & [= <- <- <- <-]).
  assert (forall pm, pm ∈ found -> pm.1 ∈ concat points /\ live_row (uu_id user) (ac_db a) pm.2 /\
                     uuid_str (um_id pm.2) = printed_id pm.1) as Hfound.
  { intros pm (Hp & Hl & Hid)%found_inv. split_and!; [by apply merged_scored_sub|done|done]. }
  eexists found.*2, _. split_and!; [done|done| | | |exact Hshown|right; by eexists].
  - apply Forall_fmap, Forall_forall. intros pm Hpm. by apply Hfound.
  - rewrite length_take. lia.
  - apply Forall_forall. intros r (k & Hk & _)%elem_of_take.
    apply list_elem_of_lookup_2 in Hk. rewrite ranked_elem in Hk. unfold _deduplicate_results in Hk.
    apply deduplicate_elem in Hk as [Hk|?%elem_of_nil]; [|done]. rewrite ranked_elem in Hk.
    apply list_elem_of_fmap in Hk as (pm & -> & Hpm). exists pm.1, pm.2.
    split; [apply list_elem_of_fmap; by exists pm|]. split; [done|]. intros Hindex.
    destruct (Hfound pm Hpm) as (Hp & [[i Hi] _] & Hprint).
    apply list_elem_of_In, in_concat in Hp as (ps & Hps%list_elem_of_In & Hin%list_elem_of_In).
    apply list_elem_of_lookup in Hps as [c Hc].
    apply mapM_Some in Hpoints. destruct (Forall2_lookup_r _ _ _ _ _ Hpoints Hc) as (category & Hcategory & Hq).
    rewrite (Hindex _ _ _ _ _ _ _ _ Hq Hin Hi Hprint). by eapply list_elem_of_lookup_2.
Qed.

(** What an agent may be shown under a grant: items that are live rows of the
    holder, and within the grant's categories if the index follows the rows;
    every text of the reply is made from these items. *)
Definition read_under (mo : Moment) (agent : GlobalAgent) (user : UniversalUser) (limit : Z) (format : string)
    (tokens : Z) (a a' : Access) (reply : RetrieveReply) : Prop :=
  exists g i touched items,
    pp_grants (ac_db a) !! i = Some g /\ pg_agent_id g = ga_id agent /\ pg_user_uui_id g = uu_id user /\
    granted_now (mo_tx mo) (uu_id user) (ac_db a) g = true /\
    ac_db a' = touch (mo_now mo) touched (ac_db a) /\ Forall (live_row (uu_id user) (ac_db a)) touched /\
    (length items <= Z.to_nat limit)%nat /\
    Forall (item_of mo (ac_db a) (pg_categories_allowed g) touched) items /\
    Forall2 (shown_as format) (rr_data reply) items /\
    context_from format tokens items (rr_system_prompt_addition reply) (rr_context_token_count reply) /\
    rr_categories_available reply = pg_categories_allowed g.

(** C23: An agent that reads a passport is shown nothing — no results, no prompt
    addition and no categories — unless the holder has given it a grant that is
    active and unexpired and the agent is active.  What it is then shown is
    made of at most as many items as it asks for, all unarchived rows of this
    holder with their current content and category and, as far as the vector
    index files the rows under their categories, all in categories that the
    grant allows: each result shows one item, its snippet is the context built
    from that item alone, and the prompt addition is the context built from
    exactly these items.  The reading writes nothing but the access time of
    the holder's live memories. *)
Theorem agents_read_only_what_the_grant_covers mo agent user query limit format tokens a a' reply :
  retrieve_universal_memories embed query_points mo agent user query limit format tokens a = (a', inr reply) ->
  (rr_permission_error reply = Some "no_grant_for_user" /\ rr_data reply = [] /\
   rr_system_prompt_addition reply = EmptyString /\ rr_categories_available reply = [] /\ a' = a) \/
  read_under mo agent user limit format tokens a a' reply.
Proof.
  intros (? & grants & Hgrants & Hrun)%M_bind_inv.
  apply M_bind_inv in Hgrants as (? & P & [= <- <-] & [= <- <-]).
  destruct (grant_of_agent _ _) as [g|] eqn:Hg; [right|left; by injection Hrun as <- <-].
  apply head_Some_elem_of, list_elem_of_filter in Hg as [Hagent Hin]. rewrite sort_by_perm in Hin.
  apply elem_of_rows_where in Hin as [Hnow [i Hi]].
  apply M_bind_inv in Hrun as (a1 & [[data context] n] & Hsearch & [= <- <-]).
  apply search_inv in Hsearch as (touched & items & Hdb & _ & Hlive & Hlimit & Hitems & Hdata & Hcontext).
  exists g, i, touched, items. split_and!; [done|done| |done..].
  unfold granted_now in Hnow. do 3 (apply andb_prop in Hnow as [Hnow _]). by apply bool_decide_eq_true in Hnow.
Qed.
End Reading.

(** ** Requests *)

Section Requests.
Context `{PyLib}.
Variable verify_api_key : string -> string -> bool.
Variable fingerprint_api_key : string -> string.
Variable jwt_decode : string -> datetime -> option obj.

(** The secret of an [ApiKey] header. *)
Definition presents_key (r : HttpRequest) (secret : string) : Prop :=
  exists scheme raw, split_blank (py_strip (hr_authorization r)) = Some (scheme, raw) /\
                     py_lower scheme = "apikey" /\ secret = py_strip (py_strip raw).

(** The token of a [Bearer] header. *)
Definition presented_token (r : HttpRequest) : string := py_strip (py_drop 7 (py_strip (hr_authorization r))).

(** The id that a claim of the token spells. *)
Definition claimed_id (k : string) (payload : obj) : option uuid :=
  parse_uuid_str (py_strip (str_or_empty (jget_or_null k payload))).

(** A bearer token names the agent, the user and a grant between them that is in
    force at this moment. *)
Definition entitled_by_token (mo : Moment) (r : HttpRequest) (w : AgentWorld) (agent : GlobalAgent)
    (user : UniversalUser) : Prop :=
  exists payload i g, jwt_decode (presented_token r) (mo_now mo) = Some payload /\
    claimed_id "sub" payload = Some (uu_id user) /\ claimed_id "agent_id" payload = Some (ga_id agent) /\
    claimed_id "grant_id" payload = Some i /\ pp_grants (ac_db (aw_access w)) !! i = Some g /\
    covers_now (mo_now mo) (uu_id user) (ga_id agent) g = true.

(** A secret that an active key of the agent accepts, and a passport token that
    names the user. *)
Definition entitled_by_key (mo : Moment) (r : HttpRequest) (w : AgentWorld) (agent : GlobalAgent)
    (user : UniversalUser) : Prop :=
  (exists secret k, presents_key r secret /\ (exists i, aw_keys w !! i = Some k) /\ ak_is_active k = true /\
     ak_global_agent_id k = ga_id agent /\
     verify_api_key (fingerprint_api_key secret) (ak_key_hash k) = true) /\
  token_names mo (aw_access w) (py_strip (hr_uui r)) user.

(** What entitles a request to act for the agent and the user. *)
Definition entitled (mo : Moment) (r : HttpRequest) (w : AgentWorld) (agent : GlobalAgent) (user : UniversalUser)
    (method : string) : Prop :=
  (method = "mcp_universal_capability" /\ entitled_by_token mo r w agent user) \/
  (method = "cross_agent" /\ entitled_by_key mo r w agent user).

Lemma accepted_key_inv raw keys k :
  accepted_key verify_api_key fingerprint_api_key raw keys = Some k ->
  (exists i, keys !! i = Some k) /\ ak_is_active k = true /\
  verify_api_key (fingerprint_api_key raw) (ak_key_hash k) = true.
Proof.
  unfold accepted_key. intros [Hv Hin]%head_Some_elem_of%list_elem_of_filter. rewrite sort_by_perm in Hin.
  apply elem_of_rows_where in Hin as [[Ha _]%andb_prop Hi]. done.
Qed.

Lemma resolve_key_inv mo raw w w' r :
  resolve_from_api_key verify_api_key fingerprint_api_key mo raw w = (w', r) ->
  aw_access w' = aw_access w /\ exists o, r = inr o /\
  forall agent, o = Some agent ->
    exists k, accepted_key verify_api_key fingerprint_api_key (py_strip raw) (aw_keys w) = Some k /\
              pp_agents (ac_db (aw_access w)) !! ak_global_agent_id k = Some agent /\ ga_is_active agent = true.
Proof.
  unfold resolve_from_api_key. case_bool_decide; [intros [= <- <-]; split; [done|by eexists]|].
  unfold mbind, M_bind, get_st.
  destruct (accepted_key _ _ _ _) as [k|] eqn:Hk; [|intros [= <- <-]; split; [done|by eexists]].
  cbn [modify_st]. intros [= <- <-]. split; [done|]. eexists. split; [done|]. intros agent Ho. exists k. split; [done|].
  cbn in Ho. destruct (pp_agents _ !! _) as [g|]; [|done]. cbn in Ho.
  destruct (ga_is_active g) eqn:Hg; [|done]. by injection Ho as <-.
Qed.

(** The token's resolution never raises. *)
Lemma resolve_by_token_returns mo token a : exists a' o, resolve_by_token mo token a = (a', inr o).
Proof.
  unfold resolve_by_token. destruct (none_if_empty _); [|by do 2 eexists]. unfold or_else.
  match goal with |- context [match ?m a with _ => _ end] => destruct (m a) as [? [|]] end; by do 2 eexists.
Qed.

Lemma capability_signed now token c :
  verify_universal_mcp_capability jwt_decode now token = Some c ->
  exists payload, jwt_decode token now = Some payload /\
    claimed_id "sub" payload = parse_uuid_str (cp_user_uui_id c) /\
    claimed_id "agent_id" payload = parse_uuid_str (cp_agent_id c) /\
    claimed_id "grant_id" payload = parse_uuid_str (cp_grant_id c).
Proof.
  unfold verify_universal_mcp_capability. destruct (jwt_decode token now) as [payload|]; [|done].
  intros Hc. exists payload. split; [done|]. cbn in Hc.
  match type of Hc with context [if ?b then _ else _] => destruct b end; [done|].
  repeat (apply bind_Some in Hc as (? & _ & Hc)). by injection Hc as <-.
Qed.

Lemma bearer_inv mo c P agent user method :
  uuid_law -> keyed uu_id (pp_users P) -> keyed ga_id (pp_agents P) ->
  bearer_outcome mo c P = Authenticated agent user method ->
  (exists i, pp_agents P !! i = Some agent) /\ (exists i, pp_users P !! i = Some user) /\
  ga_is_active agent = true /\ uu_is_active user = true /\ method = "mcp_universal_capability" /\
  parse_uuid_str (cp_user_uui_id c) = Some (uu_id user) /\ parse_uuid_str (cp_agent_id c) = Some (ga_id agent) /\
  exists i g, parse_uuid_str (cp_grant_id c) = Some i /\ pp_grants P !! i = Some g /\
              covers_now (mo_now mo) (uu_id user) (ga_id agent) g = true.
Proof.
  intros Hlaw Hu Ha. unfold bearer_outcome, mbind, option_bind.
  destruct (parse_uuid_str (cp_agent_id c)) as [i|] eqn:Hi; [|done].
  destruct (pp_agents P !! i) as [g|] eqn:Hg; [|done].
  destruct (parse_uuid_str (cp_user_uui_id c)) as [j|] eqn:Hj; [|done].
  destruct (pp_users P !! j) as [u|] eqn:Hju; [|done].
  destruct (parse_uuid_str (cp_grant_id c)) as [k|]; [|done].
  destruct (pp_grants P !! k) as [gr|] eqn:Hgr; [|done].
  match goal with |- context [if ?b then _ else _] => destruct b eqn:Hb end; [|done]. intros [= -> -> <-].
  repeat (apply andb_prop in Hb as [Hb ?]). repeat match goal with H : bool_decide _ = true |- _ => apply bool_decide_eq_true in H end.
  pose proof (Ha _ _ Hg). pose proof (Hu _ _ Hju). subst i j.
  split_and!; eauto. exists k, gr. split; [done|]. split; [done|]. unfold covers_now.
  assert (pg_user_uui_id gr = uu_id user) as -> by (pose proof (proj2 (Hlaw (pg_user_uui_id gr))); congruence).
  assert (pg_agent_id gr = ga_id agent) as -> by (pose proof (proj2 (Hlaw (pg_agent_id gr))); congruence).
  rewrite !bool_decide_eq_true_2 by done. by rewrite H3, H0.
Qed.

(** Whom a request acts for, and that the request entitles it. *)
Definition acts_for (mo : Moment) (r : HttpRequest) (w : AgentWorld) (agent : GlobalAgent) (user : UniversalUser)
    (method : string) : Prop :=
  (exists i, pp_agents (ac_db (aw_access w)) !! i = Some agent) /\
  (exists i, pp_users (ac_db (aw_access w)) !! i = Some user) /\
  ga_is_active agent = true /\ uu_is_active user = true /\ entitled mo r w agent user method.

(** The middleware's answer: only requests off the universal paths, and OPTIONS
    requests, go on unauthenticated. *)
Definition answered (mo : Moment) (r : HttpRequest) (w : AgentWorld) (o : auth_outcome) : Prop :=
  match o with
  | PassedOn => py_startswith (hr_path r) "/v1/universal/" = false \/ py_upper (hr_method r) = "OPTIONS"
  | Forbidden => True
  | Authenticated agent user method => acts_for mo r w agent user method
  end.

Lemma key_answered mo r w w1 w2 o ou scheme raw :
  keyed ga_id (pp_agents (ac_db (aw_access w))) ->
  split_blank (py_strip (hr_authorization r)) = Some (scheme, raw) -> py_lower scheme = "apikey" ->
  resolve_from_api_key verify_api_key fingerprint_api_key mo (py_strip raw) w = (w1, inr o) ->
  on_access (resolve_by_token mo (py_strip (hr_uui r))) w1 = (w2, inr ou) ->
  ac_db (aw_access w2) = ac_db (aw_access w) /\
  forall agent user, o = Some agent -> ou = Some user -> acts_for mo r w agent user "cross_agent".
Proof.
  intros Ha Hsplit Hscheme [Hw1 (o' & [= <-] & Hkey)]%resolve_key_inv Huser.
  unfold on_access in Huser. destruct (resolve_by_token mo _ (aw_access w1)) as [a1 r1] eqn:Hr.
  injection Huser as <- ->.
  destruct (resolve_by_token_reads _ _ _ _ _ _ eq_refl Hr) as [[Hdb _] Hou]. rewrite Hw1 in *. split; [done|].
  intros agent user -> ->. destruct (Hkey agent eq_refl) as (k & Hk & Hagent & Hactive).
  apply accepted_key_inv in Hk as (Hin & Hka & Hv). destruct Hou as [Huact Huin].
  split_and!; [by eexists|done|done|done|]. right. split; [done|]. split; [|by eapply resolve_by_token_names].
  exists (py_strip (py_strip raw)), k. split_and!; [by exists scheme, raw|done|done| |done].
  symmetry. exact (Ha _ _ Hagent).
Qed.

(** C24: Every request on the universal paths other than an OPTIONS request is
    refused, or acts for an active agent and an active holder on one of two
    titles: a bearer token that the JWT library accepts, whose claims spell the
    ids of this holder, of this agent and of a grant of the one to the other
    that is active and unexpired at that moment; or a secret that an active key
    of this agent accepts, beside a passport token that names this holder (the
    holder's row carries it, or a cache entry that still lives says so).  The
    middleware always answers, and changes nothing of the passport. *)
Theorem universal_requests_act_for_active_principals mo r w w' res :
  uuid_law -> keyed uu_id (pp_users (ac_db (aw_access w))) -> keyed ga_id (pp_agents (ac_db (aw_access w))) ->
  authenticate verify_api_key fingerprint_api_key jwt_decode mo r w = (w', res) ->
  ac_db (aw_access w') = ac_db (aw_access w) /\ exists o, res = inr o /\ answered mo r w o.
Proof.
  intros Hlaw Hu Ha. unfold authenticate.
  assert (forall w2 res2, (mret Forbidden : WM auth_outcome) w = (w2, res2) ->
            ac_db (aw_access w2) = ac_db (aw_access w) /\ exists o, res2 = inr o /\ answered mo r w o) as Hno.
  { intros w2 res2 [= <- <-]. split; [done|]. by eexists. }
  destruct (py_startswith (hr_path r) "/v1/universal/") eqn:Hpath; cbn [negb orb];
    [|intros [= <- <-]; split; [done|]; eexists; split; [done|by left]].
  case_bool_decide; [intros [= <- <-]; split; [done|]; eexists; split; [done|by right]|].
  destruct (py_startswith _ "bearer ").
  - destruct (verify_universal_mcp_capability _ _ _) as [c|] eqn:Hc; [|apply Hno].
    intros [= <- <-]. split; [done|]. eexists. split; [done|].
    destruct (bearer_outcome mo c _) as [| |agent user method] eqn:Hb; [|done|].
    { revert Hb. unfold bearer_outcome. by repeat case_match. }
    apply capability_signed in Hc as (payload & Hp & Hpu & Hpa & Hpg).
    apply bearer_inv in Hb as (? & ? & ? & ? & -> & Hcu & Hca & i & g & Hcg & Hg & Hcov); [|done..].
    split_and!; [done..|]. left. split; [done|]. exists payload, i, g.
      split; [exact Hp|]. split_and!; [by rewrite Hpu|by rewrite Hpa|by rewrite Hpg|done|done].
  - match goal with |- context [if ?b then _ else _] => destruct b end; [apply Hno|].
    destruct (split_blank _) as [[scheme raw]|] eqn:Hsplit; [|apply Hno].
    destruct (bool_decide (py_lower scheme = "apikey")) eqn:Hscheme; cbn [negb orb]; [|apply Hno].
    apply bool_decide_eq_true in Hscheme. case_bool_decide; [apply Hno|].
    destruct (resolve_from_api_key verify_api_key fingerprint_api_key mo (py_strip raw) w) as [w1 r1] eqn:Hkey.
    pose proof (resolve_key_inv _ _ _ _ _ Hkey) as [_ (o & -> & _)].
    destruct (resolve_by_token_returns mo (py_strip (hr_uui r)) (aw_access w1)) as (a2 & ou & Htok).
    assert (on_access (resolve_by_token mo (py_strip (hr_uui r))) w1 = (w1 <| aw_access := a2 |>, inr ou)) as Huser
      by (unfold on_access; by rewrite Htok).
    rewrite (M_bind_inr _ _ _ _ _ Hkey), (M_bind_inr _ _ _ _ _ Huser). intros [= <- <-].
    destruct (key_answered mo r w w1 _ o ou scheme raw Ha Hsplit Hscheme Hkey Huser) as [Hdb Hacts].
    split; [done|]. eexists. split; [done|]. destruct o as [agent|], ou as [user|]; try done. by apply Hacts.
Qed.
End Requests.

(** ** Submissions *)

Section Submissions.
Context `{PyLib}.

(** The grants and the write access an addition asks for. *)
Definition may_write (mo : Moment) (agent : GlobalAgent) (user : UniversalUser) (P : Passport) : bool :=
  match grant_of_agent (ga_id agent) (sort_by granted_before (rows_where (granted_now (mo_tx mo) (uu_id user) P) (pp_grants P))) with
  | Some g => bool_decide (pg_access_type g = "read_write")
  | None => false
  end.

Lemma may_write_inv mo agent user P :
  may_write mo agent user P = true ->
  exists i g, pp_grants P !! i = Some g /\ granted_now (mo_tx mo) (uu_id user) P g = true /\
              pg_agent_id g = ga_id agent /\ pg_access_type g = "read_write".
Proof.
  unfold may_write. destruct (grant_of_agent _ _) as [g|] eqn:Hg; [|done]. intros Hw%bool_decide_eq_true.
  apply head_Some_elem_of, list_elem_of_filter in Hg as [Ha Hin]. rewrite sort_by_perm in Hin.
  apply elem_of_rows_where in Hin as [Hc [i Hi]]. by exists i, g.
Qed.

Definition remembered (mo : Moment) (agent : GlobalAgent) (user : UniversalUser) (r : AddRequest) (w : AgentWorld)
    : option obj :=
  if text_given (ar_idempotency_key r)
  then cached_now mo (idempotency_scope agent user, default EmptyString (ar_idempotency_key r)) (aw_replies w)
  else None.

Lemma on_grants mo user w :
  on_access (get_grants mo user) w =
  (w, inr (sort_by granted_before (rows_where (granted_now (mo_tx mo) user (ac_db (aw_access w)))
             (pp_grants (ac_db (aw_access w)))))).
Proof. by destruct w as [[P c] keys jobs replies sent]. Qed.

Lemma cached_reads {K} `{Countable K} mo mo' (k : K) v ttl t :
  mo_up mo = true -> mo_up mo' = true -> (mo_now mo' < mo_now mo + seconds ttl)%Z ->
  cached_now mo' k (cache_for mo k v ttl t) = Some v.
Proof.
  intros Hu Hu' Hlt. unfold cached_now, cache_for, rget, rset. rewrite Hu, Hu', lookup_insert_eq. cbn.
  by rewrite (proj2 (Z.ltb_lt _ _) Hlt).
Qed.

Lemma str_or_empty_text s : str_or_empty (JStr s) = s.
Proof. by destruct s. Qed.

(** How an addition ends: it sends nothing, or sends its job. *)
Lemma addition_inv mo job_id gate sent agent user r w w' res :
  add_universal_memories mo job_id gate sent agent user r w = (w', res) ->
  aw_sent w' = aw_sent w \/
  (may_write mo agent user (ac_db (aw_access w)) = true /\ gr_passed gate = true /\ sent = true /\
   forallb negb (ar_is_memory_proposal r) = true /\ remembered mo agent user r w = None /\
   aw_sent w' = (aw_sent w ++ [job_of (mo_now mo) job_id agent user r])%list /\
   aw_access w' = aw_access w /\
   aw_jobs w' = cache_for mo (uuid_str job_id) (job_owner agent user) UNIVERSAL_JOB_STATUS_TTL_SECONDS (aw_jobs w) /\
   (text_given (ar_idempotency_key r) = true ->
    aw_replies w' = cache_for mo (idempotency_scope agent user, default EmptyString (ar_idempotency_key r))
                      (job_of (mo_now mo) job_id agent user r) IDEMPOTENT_TTL_SECONDS (aw_replies w))).
Proof.
  unfold add_universal_memories. rewrite (M_bind_inr _ _ _ _ _ (on_grants mo (uu_id user) w)).
  fold (may_write mo agent user (ac_db (aw_access w))).
  destruct (may_write mo agent user (ac_db (aw_access w))) eqn:Hmay; cbn [negb]; [|intros [= <- _]; by left].
  destruct (existsb id (ar_is_memory_proposal r)) eqn:Hprop; [intros [= <- _]; by left|].
  unfold mbind, M_bind, get_st. fold (remembered mo agent user r w).
  destruct (remembered mo agent user r w) as [cached|] eqn:Hrem; [intros [= <- _]; by left|].
  destruct (gr_passed gate) eqn:Hgate; cbn [negb]; [|intros [= <- _]; by left].
  unfold store_reply. destruct (text_given (ar_idempotency_key r)) eqn:Hkey;
    destruct sent; intros [= <- _]; cbn [aw_sent]; try (by left); right; split_and!; try done.
  all: clear -Hprop; induction (ar_is_memory_proposal r) as [|[] l IH]; cbn in *; auto; discriminate.
Qed.

(** A call whose key is remembered is answered from the reply. *)
Lemma answered_again mo job_id gate sent agent user r w cached w' res :
  forallb negb (ar_is_memory_proposal r) = true -> remembered mo agent user r w = Some cached ->
  add_universal_memories mo job_id gate sent agent user r w = (w', res) ->
  w' = w /\ exists reply, res = inr reply /\
    (rp_status_code reply = 403%Z \/ jget "job_id" (rp_body reply) = Some (jget_or_null "job_id" cached)).
Proof.
  intros Hprop Hrem. unfold add_universal_memories. rewrite (M_bind_inr _ _ _ _ _ (on_grants mo (uu_id user) w)).
  fold (may_write mo agent user (ac_db (aw_access w))).
  destruct (may_write mo agent user (ac_db (aw_access w))); cbn [negb];
    [|intros [= <- <-]; split; [done|eexists; split; [done|by left]]].
  assert (existsb id (ar_is_memory_proposal r) = false) as ->.
  { clear -Hprop. induction (ar_is_memory_proposal r) as [|[] l IH]; cbn in *; auto; discriminate. }
  unfold mbind, M_bind, get_st. fold (remembered mo agent user r w). rewrite Hrem.
  intros [= <- <-]. split; [done|]. eexists. split; [done|]. by right.
Qed.

(** C31: A conversation goes to the extraction queue only under an active,
    unexpired read-write grant of the holder for this active agent, when the
    quality gate has passed it and no message asks for a proposal.  If Redis
    answers during that call, then in the state it leaves: only this agent,
    acting for this holder, may ask for the job's result, as long as the job's
    entry lives; and if Redis answers again, the same call repeated within a
    day under its idempotency key sends nothing more, changes nothing and is
    answered with the same job (or refused).  Without Redis the repeated call
    is a second job. *)
Theorem submissions_need_a_write_grant mo job_id gate sent agent user r w w' res :
  uuid_law ->
  add_universal_memories mo job_id gate sent agent user r w = (w', res) -> aw_sent w' <> aw_sent w ->
  gr_passed gate = true /\ forallb negb (ar_is_memory_proposal r) = true /\
  (exists i g, pp_grants (ac_db (aw_access w)) !! i = Some g /\
     granted_now (mo_tx mo) (uu_id user) (ac_db (aw_access w)) g = true /\
     pg_agent_id g = ga_id agent /\ pg_access_type g = "read_write") /\
  aw_sent w' = (aw_sent w ++ [job_of (mo_now mo) job_id agent user r])%list /\
  (mo_up mo = true -> forall mo' result agent' user',
     is_Some (get_universal_memory_job_status mo' result agent' user' (uuid_str job_id) w') ->
     ga_id agent' = ga_id agent /\ uu_id user' = uu_id user) /\
  (mo_up mo = true -> text_given (ar_idempotency_key r) = true ->
   forall mo' job_id' gate' sent' w'' res',
     mo_up mo' = true -> (mo_now mo' < mo_now mo + seconds IDEMPOTENT_TTL_SECONDS)%Z ->
     add_universal_memories mo' job_id' gate' sent' agent user r w' = (w'', res') ->
     w'' = w' /\ exists reply, res' = inr reply /\
       (rp_status_code reply = 403%Z \/ jget "job_id" (rp_body reply) = Some (JStr (uuid_str job_id)))).
Proof.
  intros Hlaw [Hsame|(Hmay & Hgate & _ & Hprop & _ & Hsent & _ & Hjobs & Hreplies)]%addition_inv Hchanged; [done|].
  split_and!; [done|done|by apply may_write_inv|done| |].
  - intros Hup mo' result agent' user'. unfold get_universal_memory_job_status, cached_now.
    destruct (mo_up mo'); [|by intros [? ?]]. rewrite Hjobs. unfold cache_for, rget, rset. rewrite Hup, lookup_insert_eq.
    cbn [mbind option_bind]. destruct (alive _ _); [|by intros [? ?]]. cbn [mbind option_bind ex_value].
    change (jget_or_null "user_uui_id" (job_owner agent user)) with (JStr (uuid_str (uu_id user))).
    change (jget_or_null "agent_id" (job_owner agent user)) with (JStr (uuid_str (ga_id agent))).
    rewrite !str_or_empty_text.
    repeat case_bool_decide; cbn; intros [? Hs]; try done.
    pose proof (proj2 (Hlaw (ga_id agent'))). pose proof (proj2 (Hlaw (ga_id agent))).
    pose proof (proj2 (Hlaw (uu_id user'))). pose proof (proj2 (Hlaw (uu_id user))).
    split; congruence.
  - intros Hup Hkey mo' job_id' gate' sent' w'' res' Hup' Hlt Hagain.
    eapply (answered_again _ _ _ _ _ _ _ _ (job_of (mo_now mo) job_id agent user r)) in Hagain
      as (-> & reply & -> & Hreply); [|exact Hprop|].
    + split; [done|]. exists reply. split; [done|exact Hreply].
    + unfold remembered. by rewrite Hkey, (Hreplies Hkey), cached_reads.
Qed.
End Submissions.

(** ** Examples and shortfalls *)

Section Examples.
#[local] Existing Instance unary_uuids.
#[local] Instance no_tiktoken : Tokenizer := {| encoded_length _ := None |}.
#[local] Instance no_hashing : Hashing := {| sha256_json _ _ := EmptyString |}.

Definition at_instant (t : Z) : Moment := {| mo_now := t; mo_tx := t; mo_up := true |}.

(** The agent of the passport, and the holder after the first delivery. *)
Definition example_agent : GlobalAgent :=
  {| ga_id := 2; ga_owner_tenant_id := 3; ga_name := "agent"; ga_description := None; ga_logo_url := None;
     ga_website_url := None; ga_default_categories_requested := []; ga_redirect_uri := EmptyString;
     ga_is_verified := false; ga_is_public := true; ga_is_active := true |}.
Definition reader : UniversalUser := holder <| uu_memory_count := 1%Z |>.

Definition hit (id : Z) : Ranking.Point := {| pt_id := Some (unary_str id); pt_score := 9 # 10; pt_payload := [] |}.
(** An index that files memory 1000 under [filed] and still lists a row that is
    gone. *)
Definition filed_under (filed : string) (user : string) (vector : list Q) (category : string) (n : Z)
    : option (list Ranking.Point) :=
  Some (if bool_decide (category = filed) then [hit 77; hit 1000; hit 1000] else []).

Definition read_stored (filed : string) (a : Access) : Access * (passport_exn + RetrieveReply) :=
  retrieve_universal_memories example_vector (filed_under filed) (at_instant 20) example_agent reader "tea?" 5
    "bullets" 500 a.

Lemma reading_shows_one :
  match (read_stored "preference" stored).2 with
  | inr reply => sr_content <$> rr_data reply = ["Prefers tea"]
  | inl _ => False
  end.
Proof. vm_compute. done. Qed.

Lemma agents_read_only_what_the_grant_covers_witness :
  match (read_stored "preference" stored).2 with
  | inr reply =>
      read_under (filed_under "preference") (at_instant 20) example_agent reader 5 "bullets" 500 stored
        (read_stored "preference" stored).1 reply
  | inl _ => False
  end.
Proof.
  destruct (read_stored "preference" stored) as [a' [e|reply]] eqn:Hrun.
  - pose proof reading_shows_one as Hone. by rewrite Hrun in Hone.
  - destruct (agents_read_only_what_the_grant_covers example_vector (filed_under "preference") (at_instant 20)
                example_agent reader "tea?" 5 "bullets" 500 stored a' reply Hrun) as [(Herr & _)|Hread];
      [|exact Hread].
    exfalso. assert ((fun r => rr_permission_error <$> match r with inr x => Some x | inl _ => None end)
                       (read_stored "preference" stored).2 = Some None) as Hnone by (vm_compute; reflexivity).
    rewrite Hrun in Hnone. cbn in Hnone. congruence.
Defined.

(** The rows are read back by id, owner and archiving, not by category: what the
    index files under another category is shown under a grant for that one. *)
Example categories_are_the_index_s_word :
  let goals := stored <| ac_db ::= fun P => P <| pp_grants :=
    {[4%Z := example_grant <| pg_categories_allowed := ["goal"] |>]} |> |> in
  match (read_stored "goal" goals).2 with
  | inr reply => sr_category <$> rr_data reply = ["preference"]
  | inl _ => False
  end.
Proof. vm_compute. done. Qed.

(** Agent 12 registers, and its key asks for the holder's passport. *)
Definition toy_hash (salt s : string) : string := salt +:+ s.
Definition toy_verify (s hash : string) : bool := bool_decide (hash = "salt" +:+ s).
Definition toy_fingerprint (s : string) : string := s.
Definition no_token (token : string) (now : datetime) : option obj := None.

Definition unregistered : AgentWorld :=
  {| aw_access := stored; aw_keys := ∅; aw_jobs := ∅; aw_replies := ∅; aw_sent := [] |}.
Definition agent_draw : AgentDraw :=
  {| ad_agent_id := 12; ad_key_id := 30; ad_hex := "beef"; ad_salt := "salt" |}.
Definition registered : AgentWorld :=
  (register_agent toy_hash toy_fingerprint (at_instant 18) agent_draw 3 "helper" None None None None None
     unregistered).1.
Definition key_request : HttpRequest :=
  {| hr_path := "/v1/universal/memories"; hr_method := "GET"; hr_authorization := "ApiKey  agent_sk_beef ";
     hr_uui := "uui_1" |}.
Definition helper : GlobalAgent :=
  {| ga_id := 12; ga_owner_tenant_id := 3; ga_name := "helper"; ga_description := None; ga_logo_url := None;
     ga_website_url := None; ga_default_categories_requested := []; ga_redirect_uri := EmptyString;
     ga_is_verified := false; ga_is_public := true; ga_is_active := true |}.
Definition key_outcome : AgentWorld * (passport_exn + auth_outcome) :=
  authenticate toy_verify toy_fingerprint no_token (at_instant 20) key_request registered.

Lemma registered_rows :
  pp_users (ac_db (aw_access registered)) = {[1%Z := reader]} /\
  pp_agents (ac_db (aw_access registered)) = <[12%Z := helper]> {[2%Z := example_agent]}.
Proof. vm_compute. done. Qed.

Lemma universal_requests_act_for_active_principals_witness :
  key_outcome.2 = inr (Authenticated helper reader "cross_agent") /\
  entitled toy_verify toy_fingerprint no_token (at_instant 20) key_request registered helper reader "cross_agent" /\
  ac_db (aw_access key_outcome.1) = ac_db (aw_access registered).
Proof.
  assert (key_outcome.2 = inr (Authenticated helper reader "cross_agent")) as Hout by (vm_compute; reflexivity).
  destruct registered_rows as [Hu Ha].
  pose proof (universal_requests_act_for_active_principals toy_verify toy_fingerprint no_token (at_instant 20)
                key_request registered key_outcome.1 key_outcome.2) as Hacts.
  rewrite Hu, Ha in Hacts.
  destruct Hacts as (Hdb & o & Ho & Hans).
  - exact unary_uuid_law.
  - by intros i u [<- <-]%lookup_singleton_Some.
  - intros i g [[<- <-]|[_ [<- <-]%lookup_singleton_Some]]%lookup_insert_Some; done.
  - apply surjective_pairing.
  - rewrite Hout in Ho. injection Ho as <-. destruct Hans as (_ & _ & _ & _ & Hent).
    exact (conj Hout (conj Hent Hdb)).
Defined.

(** The agent with the grant submits a conversation, and submits it again. *)
Definition passed_gate : GateResult :=
  {| gr_passed := true; gr_blocked_layer := None; gr_reason := None; gr_retry_after_seconds := None;
     gr_budget_remaining_pct := None; gr_estimated_tokens := 12 |}.
Definition conversation : AddRequest :=
  {| ar_messages := [[("role", JStr "user"); ("content", JStr "I prefer tea")]]; ar_is_memory_proposal := [false];
     ar_metadata := []; ar_idempotency_key := Some "k1" |}.
Definition submitted : AgentWorld * (passport_exn + AddReply) :=
  add_universal_memories (at_instant 20) 40 passed_gate true example_agent reader conversation unregistered.
Definition resubmitted : AgentWorld * (passport_exn + AddReply) :=
  add_universal_memories (at_instant 25) 41 passed_gate true example_agent reader conversation submitted.1.

Lemma submissions_need_a_write_grant_witness :
  length (aw_sent submitted.1) = 1 /\
  get_universal_memory_job_status (at_instant 30) (fun _ => []) example_agent reader (unary_str 40) submitted.1 =
    Some [] /\
  resubmitted.1 = submitted.1 /\
  exists reply, resubmitted.2 = inr reply /\
  (rp_status_code reply = 403%Z \/ jget "job_id" (rp_body reply) = Some (JStr (unary_str 40))).
Proof.
  split; [vm_compute; reflexivity|]. split; [vm_compute; reflexivity|].
  pose proof (submissions_need_a_write_grant (at_instant 20) 40 passed_gate true example_agent reader conversation
                unregistered submitted.1 submitted.2 unary_uuid_law) as Hneed.
  destruct Hneed as (_ & _ & _ & _ & _ & Hagain); [apply surjective_pairing|vm_compute; discriminate|].
  apply (Hagain eq_refl eq_refl (at_instant 25) 41%Z passed_gate true resubmitted.1 resubmitted.2 eq_refl);
    [vm_compute; reflexivity|apply surjective_pairing].
Defined.
End Examples.
