(* ===== verification/TenantAuth.v ===== *)
(** * Authentication of tenants

    [api/middleware/auth.py] (API keys, Clerk sessions, their caches),
    [api/middleware/admin_auth.py], [api/services/api_key_service.py] and
    [get_authenticated_tenant_id] of [api/dependencies.py].

    bcrypt, SHA-256, [python-jose] and the answers of Clerk's endpoints are
    inputs; the two deadlines around Redis read as Redis not answering. *)

From S2P Require Export Quota RedisKeys.

#[local] Open Scope string_scope.

Definition AUTH_CACHE_TTL_SECONDS : Z := 300.
Definition JWKS_CACHE_TTL_SECONDS : Z := 300.
Definition MCP_PUBLIC_CALLER_VALUE : string := "public-v1".
Definition micros (seconds : Z) : Z := (seconds * 1000000)%Z.

Record ApiKey := {
  ky_id : uuid;
  ky_tenant_id : option uuid;
  ky_user_id : option uuid;
  ky_key_hash : string;
  ky_key_prefix : option string;
  ky_name : string;
  ky_permissions : list string;
  ky_rate_limit_per_minute : Z;
  ky_created_at : datetime;
  ky_last_used_at : option datetime;
  ky_is_active : bool;
}.

Record Tenant := {
  tn_id : uuid;
  tn_company_name : string;
  tn_clerk_org_id : option string;
  tn_is_active : bool;
  tn_plan_tier : PlanTier.t;
}.

Record ApiKeyAuthResult := {
  ka_tenant_id : option string; ka_user_id : option string; ka_api_key_id : option string;
  ka_key_hash : string; ka_permissions : list string; ka_rate_limit_per_minute : Z }.

Record JwtAuthResult := {
  ja_user_id : option string; ja_tenant_id : option string; ja_email : option string; ja_email_verified : bool;
  ja_error : option string; ja_error_code : option string; ja_org_id : option string; ja_org_role : option string }.

(** Keys, tenants and budgets; the cached results of keys, the tenants of
    organisations and the failures of addresses; the cached key set. *)
Record AuthWorld := {
  au_keys : gmap uuid ApiKey;
  au_tenants : gmap uuid Tenant;
  au_quota : QuotaState;
  au_cached : gmap string (Expiring obj);
  au_orgs : gmap string (Expiring string);
  au_failures : gmap string (Expiring Z);
  au_jwks : option (json * datetime);
}.

(** [Rejected]: an exception that [_authenticate_jwt] catches. *)
Inductive auth_exn := Rejected | Unhandled.
Abbreviation TM := (M AuthWorld auth_exn).

(** What one request meets: the time, whether Redis answers its reads, writes
    and counts, Clerk's key set and verdict on a token ([None]: no answer), and
    what a new tenant draws. *)
Record AuthMoment := {
  at_now : datetime;
  at_get : bool;
  at_set : bool;
  at_count : bool;
  at_jwks : option json;
  at_token_info : option (Z * option json);
  at_tenant_id : uuid;
  at_next_month : datetime;
}.

Record AuthConfig := {
  cf_clerk_issuer : string;
  cf_clerk_jwks_url : string;
  cf_clerk_audiences : list string;
  cf_mcp_clerk_audience : string;
  cf_mcp_clerk_client_secret : string;
}.

Definition caught {A} (m : TM (option A)) : TM (option A) :=
  fun w => match m w with (w', inl Rejected) => (w', inr None) | r => r end.

Section Auth.
Context `{PyLib}.
Variable cf : AuthConfig.
Variable hash_api_key : string -> string -> string.
Variable verify_api_key : string -> string -> bool.
Variable fingerprint_api_key : string -> string.
(** [jwt.get_unverified_header], [jwt.get_unverified_claims], and the check of a
    signature by a key of the set; [None]: they raise what is caught. *)
Variable get_unverified_header : string -> option obj.
Variable get_unverified_claims : string -> option obj.
Variable verify_signature : json -> string -> string -> option bool.

Definition py_text (v : json) : string := py_str str_other v.
(** [str(o.get(k) or "").strip()] *)
Definition stripped (k : string) (o : obj) : string := py_strip (str_or_empty (jget_or_null k o)).
Definition text_opt (s : string) : option string := if bool_decide (s = EmptyString) then None else Some s.

(** ** API keys *)

Definition api_key_prefix (raw_api_key : string) : string := py_take 8 raw_api_key.
Definition _api_key_cache_key (raw_api_key : string) : string := py_take 16 (fingerprint_api_key raw_api_key).

Definition json_text (o : option string) : json := match o with Some s => JStr s | None => JNull end.
Definition given_text (v : json) : option string := if truthy v then Some (py_text v) else None.

Definition cached_payload (raw_api_key : string) (r : ApiKeyAuthResult) : obj :=
  [("tenant_id", json_text (ka_tenant_id r)); ("user_id", json_text (ka_user_id r));
   ("api_key_id", json_text (ka_api_key_id r));
   ("key_hash", JStr (ka_key_hash r)); ("permissions", JArr (JStr <$> ka_permissions r));
   ("rate_limit_per_minute", JInt (ka_rate_limit_per_minute r));
   ("api_key_fingerprint", JStr (fingerprint_api_key raw_api_key))].

(** [str(item) for item in (v or [])] *)
Definition texts_of (v : json) : option (list string) :=
  if truthy v
  then match v with
       | JArr l => Some (py_text <$> l)
       | JObj kv => Some kv.*1
       | JStr s => Some ((fun c => String c EmptyString) <$> String.list_ascii_of_string s)
       | _ => None
       end
  else Some [].

Definition int_or_default (v : json) (d : Z) : option Z := if truthy v then py_int v else Some d.

(** The result of a cached payload, read for the secret. *)
Definition read_cached (raw_api_key : string) (payload : obj) : TM (option ApiKeyAuthResult) :=
  match jget "permissions" payload, jget "rate_limit_per_minute" payload with
  | Some permissions, Some rate =>
      let key_hash := py_text (default (JStr EmptyString) (jget "key_hash" payload)) in
      let cached_fingerprint := py_text (default (JStr EmptyString) (jget "api_key_fingerprint" payload)) in
      if bool_decide (key_hash = EmptyString) || bool_decide (cached_fingerprint = EmptyString)
         || negb (bool_decide (fingerprint_api_key raw_api_key = cached_fingerprint))
      then mret None else
      let tenant_id := jget_or_null "tenant_id" payload in
      let user_id := jget_or_null "user_id" payload in
      if negb (truthy tenant_id) && negb (truthy user_id) then mret None else
      permissions ← lift_opt Unhandled (texts_of permissions);
      rate ← lift_opt Unhandled (int_or_default rate 60);
      mret (Some {| ka_tenant_id := given_text tenant_id; ka_user_id := given_text user_id;
                    ka_api_key_id := given_text (jget_or_null "api_key_id" payload); ka_key_hash := key_hash;
                    ka_permissions := permissions; ka_rate_limit_per_minute := Z.max 1 rate |})
  | _, _ => mret None
  end.

Definition _get_cached_api_key_auth (mo : AuthMoment) (raw_api_key : string) : TM (option ApiKeyAuthResult) :=
  w ← get_st;
  match (if at_get mo then rget (at_now mo) (_api_key_cache_key raw_api_key) (au_cached w) else None) with
  | None => mret None
  | Some payload => read_cached raw_api_key payload
  end.

Definition _cache_api_key_auth (mo : AuthMoment) (raw_api_key : string) (r : ApiKeyAuthResult) : TM unit :=
  if at_set mo
  then modify_st (fun w => w <| au_cached ::= rset (_api_key_cache_key raw_api_key) (cached_payload raw_api_key r)
                                                (Some (at_now mo + micros AUTH_CACHE_TTL_SECONDS)%Z) |>)
  else mret tt.

(** The keys with the secret's prefix, or every active key. *)
Definition candidate_keys (raw_api_key : string) (keys : gmap uuid ApiKey) : list ApiKey :=
  match rows_where (fun k => ky_is_active k && bool_decide (ky_key_prefix k = Some (api_key_prefix raw_api_key))) keys with
  | [] => rows_where ky_is_active keys
  | ks => ks
  end.

Definition auth_of_key (k : ApiKey) : ApiKeyAuthResult :=
  {| ka_tenant_id := uuid_str <$> ky_tenant_id k; ka_user_id := uuid_str <$> ky_user_id k;
     ka_api_key_id := Some (uuid_str (ky_id k)); ka_key_hash := ky_key_hash k;
     ka_permissions := ky_permissions k;
     ka_rate_limit_per_minute := Z.max 1 (int_or (Some (ky_rate_limit_per_minute k)) 1) |}.

Definition verified_key (raw_api_key : string) (keys : gmap uuid ApiKey) : option ApiKey :=
  find (fun k => verify_api_key raw_api_key (ky_key_hash k)) (candidate_keys raw_api_key keys).

Definition _authenticate_api_key (mo : AuthMoment) (raw_api_key : string) : TM (option ApiKeyAuthResult) :=
  cached_auth ← _get_cached_api_key_auth mo raw_api_key;
  match cached_auth with
  | Some r => mret (Some r)
  | None =>
      w ← get_st;
      match verified_key raw_api_key (au_keys w) with
      | None => mret None
      | Some k =>
          modify_st (fun w => w <| au_keys ::= insert (ky_id k) (k <| ky_last_used_at := Some (at_now mo) |>) |>);;
          _cache_api_key_auth mo raw_api_key (auth_of_key k);;
          mret (Some (auth_of_key k))
      end
  end.

(** ** Clerk sessions *)

Definition _get_jwks (mo : AuthMoment) : TM json :=
  w ← get_st;
  let fetch := payload ← lift_opt Rejected (at_jwks mo);
               modify_st (fun w => w <| au_jwks := Some (payload, at_now mo) |>);; mret payload in
  match au_jwks w with
  | Some (payload, cached_at) =>
      if truthy payload && (at_now mo - cached_at <? micros JWKS_CACHE_TTL_SECONDS)%Z then mret payload else fetch
  | None => fetch
  end.

(** The key with the token's [kid]; an entry that is no object raises. *)
Fixpoint key_with (kid : json) (keys : list json) : auth_exn + option json :=
  match keys with
  | [] => inr None
  | JObj key :: keys => if bool_decide (jget_or_null "kid" key = kid) then inr (Some (JObj key)) else key_with kid keys
  | _ :: _ => inl Unhandled
  end.

Definition find_key (kid : json) (jwks : json) : auth_exn + option json :=
  match jwks with
  | JObj o =>
      match default (JArr []) (jget "keys" o) with
      | JArr keys => key_with kid keys
      | JStr EmptyString | JObj [] => inr None
      | JStr _ | JObj _ => inl Unhandled
      | _ => inl Rejected
      end
  | _ => inl Unhandled
  end.

Definition lift_sum {A} (r : auth_exn + A) : TM A := match r with inl e => raise_st e | inr a => mret a end.

(** [token.rsplit(".", 1)] *)
Fixpoint rsplit_dot (s : string) : option (string * string) :=
  match s with
  | EmptyString => None
  | String c s =>
      match rsplit_dot s with
      | Some (a, b) => Some (String c a, b)
      | None => if bool_decide (c = "."%char) then Some (EmptyString, s) else None
      end
  end.

(** Whether the issuer is absent or ours; an unhashable one is a [TypeError]. *)
Definition issuer_ok (claims : obj) : bool :=
  bool_decide (cf_clerk_issuer cf = EmptyString)
  || match jget_or_null "iss" claims with
     | JNull => true | JStr s => bool_decide (s = cf_clerk_issuer cf) | _ => false end.

Definition audiences_of (claims : obj) : list string :=
  match jget_or_null "aud" claims with
  | JArr l => py_text <$> l
  | v => if truthy v then [py_text v] else []
  end.

Definition _validate_public_mcp_oauth_token (mo : AuthMoment) (claims : obj) : TM bool :=
  if bool_decide (cf_clerk_issuer cf = EmptyString) || bool_decide (cf_mcp_clerk_audience cf = EmptyString)
     || bool_decide (cf_mcp_clerk_client_secret cf = EmptyString)
  then mret false else
  response ← lift_opt Rejected (at_token_info mo);
  if negb (response.1 =? 200)%Z then mret false else
  body ← lift_opt Rejected response.2;
  match body with
  | JObj payload =>
      let client_id := py_strip (str_or_empty (json_or (jget_or_null "client_id" payload)
                                                       (jget_or_null "aud" payload))) in
      let introspected_org_id := stripped "org_id" payload in
      let jwt_org_id := stripped "org_id" claims in
      mret (bool_decide (jget_or_null "active" payload = JBool true)
            && bool_decide (client_id = cf_mcp_clerk_audience cf)
            && negb (bool_decide (introspected_org_id = EmptyString))
            && negb (bool_decide (jwt_org_id = EmptyString))
            && bool_decide (introspected_org_id = jwt_org_id))
  | _ => mret false
  end.

(** The exp claim, in seconds. *)
Definition expired (now : datetime) (claims : obj) : option bool :=
  match jget_or_null "exp" claims with
  | JNull => Some false
  | v => e ← py_float v; Some (Qle_bool (e * inject_Z 1000000) (inject_Z now))
  end.

Definition nested_tenant (k : string) (claims : obj) : option string :=
  match jget_or_null k claims with
  | JObj metadata => let v := jget_or_null "tenant_id" metadata in if truthy v then Some (py_text v) else None
  | _ => None
  end.

Definition _jwt_tenant_id (claims : obj) : option string :=
  let v := jget_or_null "tenant_id" claims in
  if truthy v then Some (py_text v)
  else match nested_tenant "metadata" claims with
       | Some t => Some t
       | None => nested_tenant "public_metadata" claims
       end.

(** The columns' defaults under the plan of the insert. *)
Definition new_budget (tenant_id : uuid) (tier : PlanTier.t) : TenantBudget :=
  {| b_tenant_id := tenant_id; b_plan_tier := tier; b_monthly_call_limit := None; b_monthly_token_limit := None;
     b_current_month_calls := 0; b_current_month_tokens := 0; b_write_calls := 0; b_write_call_limit := None;
     b_read_calls := 0; b_read_limit := None; b_rate_limit_per_user_per_minute := 10;
     b_overage_policy := OveragePolicy.warn; b_alert_threshold_pct := 4 # 5; b_last_notified_pct := None;
     b_last_notified_mode := None; b_reset_at := None |}.

Definition tenants_of_org (org_id : string) (ts : gmap uuid Tenant) : list Tenant :=
  rows_where (fun t => bool_decide (tn_clerk_org_id t = Some org_id)) ts.

(** The insert gives way to any row of the organisation, an inactive one too. *)
Definition _create_tenant_for_clerk_org (mo : AuthMoment) (org_id org_name : string) : TM (option uuid) :=
  w ← get_st;
  match tenants_of_org org_id (au_tenants w) with
  | _ :: _ => mret None
  | [] =>
      let tenant_id := at_tenant_id mo in
      let tenant := {| tn_id := tenant_id; tn_company_name := org_name; tn_clerk_org_id := Some org_id;
                       tn_is_active := true; tn_plan_tier := PlanTier.free |} in
      let budgeted (q : QuotaState) :=
        match qs_budgets q !! tenant_id with
        | Some _ => q
        | None => q <| qs_budgets ::= insert tenant_id (new_budget tenant_id PlanTier.free) |>
        end in
      modify_st (fun w => w <| au_tenants ::= insert tenant_id tenant |>
        <| au_quota ::= fun q => (apply_plan_limits tenant_id "free" (at_next_month mo) (budgeted q)).1 |>);;
      mret (Some tenant_id)
  end.

Definition _resolve_tenant_id_from_clerk_org (mo : AuthMoment) (org_id org_name : string) : TM (option string) :=
  w ← get_st;
  match (if at_get mo then rget (at_now mo) org_id (au_orgs w) else None) ≫= text_opt with
  | Some tenant_id => mret (Some tenant_id)
  | None =>
      tenant_id ← match filter (fun t => tn_is_active t = true) (tenants_of_org org_id (au_tenants w)) with
                  | [t] => mret (Some (tn_id t))
                  | [] => _create_tenant_for_clerk_org mo org_id org_name
                  | _ => raise_st Unhandled
                  end;
      match tenant_id with
      | None => mret None
      | Some t =>
          (if at_set mo
           then modify_st (fun w => w <| au_orgs ::= rset org_id (uuid_str t)
                                                       (Some (at_now mo + micros AUTH_CACHE_TTL_SECONDS)%Z) |>)
           else mret tt);;
          mret (Some (uuid_str t))
      end
  end.

(** The organisation and the role the claims name. *)
Definition organization_of (claims : obj) : obj := match jget_or_null "o" claims with JObj o => o | _ => [] end.
Definition org_of (claims : obj) : option string :=
  text_opt (py_strip (str_or_empty (json_or (jget_or_null "org_id" claims) (jget_or_null "id" (organization_of claims))))).
Definition org_name_of (org_id : string) (claims : obj) : string :=
  default org_id (text_opt (py_strip (py_text (json_or (json_or (jget_or_null "org_name" claims)
                                                                 (jget_or_null "org_slug" claims)) (JStr org_id))))).
Definition org_role_of (org_id : string) (claims : obj) : option string :=
  let role := str_or_empty (jget_or_null "org_role" claims) in
  if negb (bool_decide (role = EmptyString)) then Some role
  else let rol := jget_or_null "rol" (organization_of claims) in
       if bool_decide (jget_or_null "id" (organization_of claims) = JStr org_id) && truthy rol
       then Some ("org:" +:+ py_text rol) else None.

(** The claims of a token that proves to be ours: signed by a key of the set,
    for us, in time and with a subject. *)
Definition verified_claims (mo : AuthMoment) (token : string) (require_mcp_audience : bool) : TM (option obj) :=
  header ← lift_opt Rejected (get_unverified_header token);
  jwks ← _get_jwks mo;
  key_data ← lift_sum (find_key (jget_or_null "kid" header) jwks);
  match key_data with
  | None => mret None
  | Some key =>
      parts ← lift_opt Rejected (rsplit_dot token);
      signed ← lift_opt Rejected (verify_signature key parts.1 parts.2);
      if negb signed then mret None else
      claims ← lift_opt Rejected (get_unverified_claims token);
      if negb (issuer_ok claims) then mret None else
      for_us ← (if require_mcp_audience then _validate_public_mcp_oauth_token mo claims
                else mret (bool_decide (cf_clerk_audiences cf = [])
                           || existsb (fun a => bool_decide (a ∈ cf_clerk_audiences cf)) (audiences_of claims)));
      if negb for_us then mret None else
      late ← lift_opt Rejected (expired (at_now mo) claims);
      if late : bool then mret None else
      mret (if truthy (jget_or_null "sub" claims) then Some claims else None)
  end.

Definition jwt_result (claims : obj) (tenant_id org_id org_role : option string) (error : option (string * string))
    : JwtAuthResult :=
  {| ja_user_id := Some (py_text (jget_or_null "sub" claims)); ja_tenant_id := tenant_id;
     ja_email := text_opt (py_lower (stripped "email" claims));
     ja_email_verified := bool_decide (jget_or_null "email_verified" claims = JBool true);
     ja_error := fst <$> error; ja_error_code := snd <$> error; ja_org_id := org_id; ja_org_role := org_role |}.

Definition _authenticate_jwt (mo : AuthMoment) (token : string) (require_mcp_audience : bool)
    : TM (option JwtAuthResult) :=
  if bool_decide (cf_clerk_jwks_url cf = EmptyString) then mret None else
  caught (
    verified ← verified_claims mo token require_mcp_audience;
    match verified with
    | None => mret None
    | Some claims =>
        match org_of claims with
        | None =>
            mret (Some (match _jwt_tenant_id claims with
                        | Some t => jwt_result claims (Some t) None None None
                        | None => jwt_result claims None None None (Some ("org_required", "AUTH_003"))
                        end))
        | Some org_id =>
            tenant_id ← _resolve_tenant_id_from_clerk_org mo org_id (org_name_of org_id claims);
            mret (Some (match tenant_id with
                        | Some t => jwt_result claims (Some t) (Some org_id) (org_role_of org_id claims) None
                        | None => jwt_result claims None (Some org_id) None (Some ("tenant_not_found", "AUTH_002"))
                        end))
        end
    end).

(** ** Requests *)

Record HttpCall := {
  ht_method : string; ht_path : string; ht_authorization : string; ht_mcp_client : string;
  ht_client_host : option string }.

Inductive tenant_outcome :=
  | Open                                                  (* no authentication asked for *)
  | Unauthorized (code : string)
  | Session (auth : JwtAuthResult) (tenant_id : option string)
  | ByKey (auth : ApiKeyAuthResult).

Definition _is_public_endpoint (r : HttpCall) : bool :=
  (bool_decide (ht_method r = "GET") && bool_decide (ht_path r ∈ ["/health"; "/docs"; "/redoc"; "/openapi.json"]))
  || (bool_decide (ht_method r = "GET") && bool_decide (ht_path r = "/v1/billing/plans"))
  || py_startswith (ht_path r) "/v1/uui/"
  || (bool_decide (ht_method r = "GET") && py_startswith (ht_path r) "/v1/agents/global/")
  || (bool_decide (ht_method r = "POST") && py_startswith (ht_path r) "/v1/webhooks/").

(** The failures of an address are counted, and logged; nothing else reads them. *)
Definition attempt_counted (now : datetime) (ip : string) (t : gmap string (Expiring Z)) : gmap string (Expiring Z) :=
  let n := (default 0 (rget now ip t) + 1)%Z in
  rset ip n (Some (default (now + micros AUTH_CACHE_TTL_SECONDS)%Z (kept_ttl now ip t))) t.

Definition _record_auth_failure (mo : AuthMoment) (r : HttpCall) : TM unit :=
  if at_count mo
  then modify_st (fun w => w <| au_failures ::= attempt_counted (at_now mo) (default "unknown" (ht_client_host r)) |>)
  else mret tt.

Definition _unauthorized (mo : AuthMoment) (r : HttpCall) (code : string) : TM tenant_outcome :=
  _record_auth_failure mo r;; mret (Unauthorized code).

(** [s.split(" ", 1)]; [None]: there is no blank. *)
Fixpoint split_space (s : string) : option (string * string) :=
  match s with
  | EmptyString => None
  | String c s => if bool_decide (c = " "%char) then Some (EmptyString, s)
                  else '(a, b) ← split_space s; Some (String c a, b)
  end.

Definition dispatch (mo : AuthMoment) (r : HttpCall) : TM tenant_outcome :=
  if py_startswith (ht_path r) "/v1/internal/" || _is_public_endpoint r then mret Open else
  match split_space (py_strip (ht_authorization r)) with
  | None => _unauthorized mo r "AUTH_001"
  | Some (scheme, credentials) =>
      if bool_decide (py_lower scheme = "bearer")
      then
        let is_public_mcp_call := bool_decide (py_lower (py_strip (ht_mcp_client r)) = MCP_PUBLIC_CALLER_VALUE) in
        auth_result ← _authenticate_jwt mo (py_strip credentials) is_public_mcp_call;
        match auth_result with
        | None => _unauthorized mo r "AUTH_001"
        | Some auth =>
            match ja_error_code auth with
            | Some code =>
                if py_startswith (ht_path r) "/v1/tenant" || is_public_mcp_call
                then _unauthorized mo r code else mret (Session auth None)
            | None => mret (Session auth (ja_tenant_id auth))
            end
        end
      else if bool_decide (py_lower scheme = "apikey")
      then
        auth_result ← _authenticate_api_key mo (py_strip credentials);
        match auth_result with
        | None => _unauthorized mo r "AUTH_001"
        | Some auth => mret (ByKey auth)
        end
      else _unauthorized mo r "AUTH_001"
  end.

(** [get_authenticated_tenant_id] on the state [dispatch] leaves; [None] is the
    403. *)
Definition get_authenticated_tenant_id (o : tenant_outcome) : option string :=
  match o with
  | Session _ tenant_id => tenant_id ≫= text_opt
  | ByKey auth => ka_tenant_id auth ≫= text_opt
  | Open | Unauthorized _ => None
  end.

(** ** The internal surface *)

Definition MIN_ADMIN_SECRET_LENGTH : nat := 32.

(** The application does not start without a secret of that length. *)
Definition validate_admin_secret_config (admin_secret : string) : option string :=
  let secret_value := py_strip admin_secret in
  if (String.length secret_value <? MIN_ADMIN_SECRET_LENGTH)%nat then None else Some secret_value.

(** [AdminAuthMiddleware.dispatch] lets the request pass. *)
Definition admin_passes (admin_secret path provided_secret : string) : bool :=
  negb (py_startswith path "/v1/internal/")
  || (negb (bool_decide (provided_secret = EmptyString)) && bool_decide (provided_secret = admin_secret)).

(** ** Managing keys *)

Definition key_newer (a b : ApiKey) : bool :=
  if (ky_created_at a =? ky_created_at b)%Z then (ky_id b <=? ky_id a)%Z
  else (ky_created_at b <? ky_created_at a)%Z.

Definition tenant_keys (tenant_id : uuid) (keys : gmap uuid ApiKey) : list ApiKey :=
  sort_by key_newer (rows_where (fun k => bool_decide (ky_tenant_id k = Some tenant_id) && ky_is_active k) keys).

(** The items after the one the cursor names; an unknown cursor starts over. *)
Fixpoint after_cursor {A} (id_of : A -> string) (cursor : string) (items : list A) : option (list A) :=
  match items with
  | [] => None
  | item :: items => if bool_decide (id_of item = cursor) then Some items else after_cursor id_of cursor items
  end.

Definition _slice_with_cursor {A} (id_of : A -> string) (items : list A) (cursor : option string) (limit : nat)
    : list A :=
  match cursor ≫= text_opt with
  | None => take limit items
  | Some c => take limit (default items (after_cursor id_of c items))
  end.

Definition page {A} (id_of : A -> string) (items : list A) (cursor : option string) (limit : nat)
    : list A * option string :=
  let sliced := _slice_with_cursor id_of items cursor limit in
  (sliced, if (length sliced =? limit)%nat && (length sliced <? length items)%nat then id_of <$> last sliced else None).

Definition list_api_keys (tenant_id : uuid) (cursor : option string) (limit : nat) (w : AuthWorld)
    : list ApiKey * option string * nat :=
  let keys := tenant_keys tenant_id (au_keys w) in
  (page (fun k => uuid_str (ky_id k)) keys cursor limit, length keys).

(** [id], [token] and [salt] are drawn. *)
Definition create_api_key (now : datetime) (id : uuid) (token salt : string) (tenant_id : uuid) (name : string)
    (permissions : list string) (rate_limit_per_minute : Z) : TM (ApiKey * string) :=
  let raw_key := "mem_" +:+ token in
  let k := {| ky_id := id; ky_tenant_id := Some tenant_id; ky_user_id := None;
              ky_key_hash := hash_api_key salt raw_key; ky_key_prefix := Some (api_key_prefix raw_key);
              ky_name := name; ky_permissions := permissions; ky_rate_limit_per_minute := rate_limit_per_minute;
              ky_created_at := now; ky_last_used_at := None; ky_is_active := true |} in
  modify_st (fun w => w <| au_keys ::= insert id k |>);;
  mret (k, raw_key).

Definition revoke_api_key (tenant_id api_key_id : uuid) : TM bool :=
  w ← get_st;
  match au_keys w !! api_key_id with
  | Some k =>
      if negb (bool_decide (ky_tenant_id k = Some tenant_id)) then mret false else
      modify_st (fun w => w <| au_keys ::= insert api_key_id (k <| ky_is_active := false |>) |>);;
      mret true
  | None => mret false
  end.
End Auth.
