(* ===== verification/TenantAuthTheorems.v ===== *)
(** * Authentication of tenants: theorems

    A key's request acts for the key's tenant, a session for its organisation's;
    a revoked key stops within the lifetime of the cache; pages list every key
    once. *)

From S2P Require Export RateLimit TenantAuth.

#[local] Open Scope string_scope.

Section Theorems.
Context `{PyLib}.
Variable cf : AuthConfig.
Variable hash_api_key : string -> string -> string.
Variable verify_api_key : string -> string -> bool.
Variable fingerprint_api_key : string -> string.
Variable get_unverified_header : string -> option obj.
Variable get_unverified_claims : string -> option obj.
Variable verify_signature : json -> string -> string -> option bool.

Abbreviation payload_of := (cached_payload fingerprint_api_key).
Abbreviation cache_key := (_api_key_cache_key fingerprint_api_key).
Abbreviation handle :=
  (dispatch cf verify_api_key fingerprint_api_key get_unverified_header get_unverified_claims verify_signature).

(** No two secrets have one digest. *)
Definition collision_free : Prop := forall a b, fingerprint_api_key a = fingerprint_api_key b -> a = b.

(** ** What the caches hold *)

(** A cached result is that of a key that accepts the secret; a cached tenant is
    the organisation's. *)
Record auth_ok (w : AuthWorld) : Prop := {
  ao_keys : forall i k, au_keys w !! i = Some k -> ky_id k = i;
  ao_tenants : forall i t, au_tenants w !! i = Some t -> tn_id t = i;
  ao_orgs : forall i j t u o, au_tenants w !! i = Some t -> au_tenants w !! j = Some u ->
    tn_clerk_org_id t = Some o -> tn_clerk_org_id u = Some o -> i = j;
  ao_cached : forall c e, au_cached w !! c = Some e ->
    exists raw i k, c = cache_key raw /\ au_keys w !! i = Some k /\
      verify_api_key raw (ky_key_hash k) = true /\ ex_value e = payload_of raw (auth_of_key k);
  ao_cached_orgs : forall o e, au_orgs w !! o = Some e ->
    exists i t, au_tenants w !! i = Some t /\ tn_clerk_org_id t = Some o /\ ex_value e = uuid_str i;
}.

(** ** Reading a cached result back *)

Lemma texts_of_texts ps : texts_of (JArr (JStr <$> ps)) = Some ps.
Proof.
  unfold texts_of. destruct ps as [|p ps]; [done|]. cbn. f_equal. f_equal.
  induction ps as [|q ps IH]; [done|]. cbn. by rewrite IH.
Qed.

Lemma rate_read_back z : int_or_default (JInt (Z.max 1 z)) 60 = Some (Z.max 1 z).
Proof. unfold int_or_default. cbn. destruct (Z.eqb_spec (Z.max 1 z) 0); [lia|done]. Qed.

Lemma given_id (o : option uuid) : uuid_law -> given_text (json_text (uuid_str <$> o)) = uuid_str <$> o.
Proof.
  intros Hlaw. destruct o as [u|]; [|done]. unfold given_text, json_text. cbn.
  by rewrite bool_decide_eq_false_2 by apply Hlaw.
Qed.

Lemma read_back raw raw' k w :
  uuid_law ->
  read_cached fingerprint_api_key raw (payload_of raw' (auth_of_key k)) w = (w, inr None) \/
  (fingerprint_api_key raw = fingerprint_api_key raw' /\
   read_cached fingerprint_api_key raw (payload_of raw' (auth_of_key k)) w = (w, inr (Some (auth_of_key k)))).
Proof.
  intros Hlaw. set (o := payload_of raw' (auth_of_key k)). unfold read_cached.
  change (jget "permissions" o) with (Some (JArr (JStr <$> ky_permissions k))).
  change (jget "rate_limit_per_minute" o) with (Some (JInt (Z.max 1 (int_or (Some (ky_rate_limit_per_minute k)) 1)))).
  change (jget "key_hash" o) with (Some (JStr (ky_key_hash k))).
  change (jget "api_key_fingerprint" o) with (Some (JStr (fingerprint_api_key raw'))).
  change (jget_or_null "tenant_id" o) with (json_text (uuid_str <$> ky_tenant_id k)).
  change (jget_or_null "user_id" o) with (json_text (uuid_str <$> ky_user_id k)).
  change (jget_or_null "api_key_id" o) with (json_text (uuid_str <$> Some (ky_id k))).
  cbv beta zeta iota. rewrite texts_of_texts, rate_read_back, !given_id by done.
  change (py_text (default (JStr EmptyString) (Some (JStr (ky_key_hash k))))) with (ky_key_hash k).
  change (py_text (default (JStr EmptyString) (Some (JStr (fingerprint_api_key raw')))))
    with (fingerprint_api_key raw').
  destruct (bool_decide (fingerprint_api_key raw = fingerprint_api_key raw')) eqn:Hfp;
    [apply bool_decide_eq_true in Hfp|by rewrite orb_true_r; left].
  match goal with |- context [if ?b then mret None else _] => destruct b end; [by left|].
  match goal with |- context [if ?b then mret None else _] => destruct b end; [by left|].
  right. split; [done|]. unfold lift_opt, mbind, M_bind, mret, M_ret, auth_of_key. do 4 f_equal. lia.
Qed.

(** ** The invariant is kept *)

(** A row may change as long as it stands for the same key. *)
Lemma ok_key_update w i k k' :
  au_keys w !! i = Some k -> ky_id k' = i -> ky_key_hash k' = ky_key_hash k -> auth_of_key k' = auth_of_key k ->
  auth_ok w -> auth_ok (w <| au_keys ::= insert i k' |>).
Proof.
  intros Hk Hid Hhash Hauth []. split; cbn; [|done|done| |done].
  - intros j x [[<- <-]|[_ ?]]%lookup_insert_Some; [done|by apply ao_keys0].
  - intros c e (raw & j & x & -> & Hx & Hv & He)%ao_cached0. destruct (decide (j = i)) as [->|Hne].
    + exists raw, i, k'. rewrite lookup_insert_eq. assert (x = k) as -> by congruence. by rewrite Hhash, Hauth.
    + exists raw, j, x. by rewrite lookup_insert_ne by done.
Qed.

Lemma ok_cached w raw i k t :
  au_keys w !! i = Some k -> verify_api_key raw (ky_key_hash k) = true ->
  auth_ok w -> auth_ok (w <| au_cached ::= rset (cache_key raw) (payload_of raw (auth_of_key k)) t |>).
Proof.
  intros Hk Hv []. split; cbn; [done|done|done| |done]. unfold rset.
  intros c e [[<- <-]|[_ ?]]%lookup_insert_Some; [by exists raw, i, k|by apply ao_cached0].
Qed.

Lemma ok_org w o i t x :
  au_tenants w !! i = Some t -> tn_clerk_org_id t = Some o ->
  auth_ok w -> auth_ok (w <| au_orgs ::= rset o (uuid_str i) x |>).
Proof.
  intros Ht Ho []. split; cbn; [done|done|done|done|]. unfold rset.
  intros o' e [[<- <-]|[_ ?]]%lookup_insert_Some; [by exists i, t|by apply ao_cached_orgs0].
Qed.

Lemma ok_new_tenant w t o q :
  au_tenants w !! tn_id t = None -> tn_clerk_org_id t = Some o -> tenants_of_org o (au_tenants w) = [] ->
  auth_ok w -> auth_ok (w <| au_tenants ::= insert (tn_id t) t |> <| au_quota := q |>).
Proof.
  intros Hfresh Ho Hnone []. split; cbn; [done| | |done|].
  - intros i x [[<- <-]|[_ ?]]%lookup_insert_Some; [done|by apply ao_tenants0].
  - assert (forall j u o', au_tenants w !! j = Some u -> tn_clerk_org_id u = Some o' -> Some o' = tn_clerk_org_id t ->
              False) as Hno.
    { intros j u o' Hu Hou Hot. pose proof (no_row _ _ _ _ Hnone Hu) as Hf. apply bool_decide_eq_false in Hf.
      congruence. }
    intros i j x y o' [[<- <-]|[? Hi]]%lookup_insert_Some [[<- <-]|[? Hj]]%lookup_insert_Some Hx Hy; [done|..].
    + destruct (Hno j y o' Hj Hy). congruence.
    + destruct (Hno i x o' Hi Hx). congruence.
    + by apply (ao_orgs0 i j x y o').
  - intros o' e (i & x & Hx & ? & ?)%ao_cached_orgs0. exists i, x. split; [|done].
    by rewrite lookup_insert_ne by congruence.
Qed.

(** A request's other writes. *)
Lemma ok_jwks w j : auth_ok w -> auth_ok (w <| au_jwks := j |>).
Proof. by intros []. Qed.
Lemma ok_failures w f : auth_ok w -> auth_ok (w <| au_failures ::= f |>).
Proof. by intros []. Qed.

Lemma verified_key_inv raw keys k :
  verified_key verify_api_key raw keys = Some k ->
  verify_api_key raw (ky_key_hash k) = true /\ ky_is_active k = true /\ exists i, keys !! i = Some k.
Proof.
  unfold verified_key, candidate_keys. intros [Hin%list_elem_of_In Hv]%find_some. split; [done|].
  set (own := rows_where _ keys) in Hin. destruct own as [|x l] eqn:Hown.
  - by apply elem_of_rows_where in Hin.
  - rewrite <- Hown in Hin. apply elem_of_rows_where in Hin as [[? _]%andb_prop ?]. done.
Qed.

(** How a secret authenticates. *)
Inductive key_run (mo : AuthMoment) (raw : string) (w w' : AuthWorld) : auth_exn + option ApiKeyAuthResult -> Prop :=
  | from_cache e k raw' :
      w' = w -> au_cached w !! cache_key raw = Some e -> at_get mo = true -> alive (at_now mo) e = true ->
      ex_value e = payload_of raw' (auth_of_key k) -> (exists i, au_keys w !! i = Some k) ->
      verify_api_key raw' (ky_key_hash k) = true -> fingerprint_api_key raw = fingerprint_api_key raw' ->
      key_run mo raw w w' (inr (Some (auth_of_key k)))
  | refused_key : w' = w -> verified_key verify_api_key raw (au_keys w) = None -> key_run mo raw w w' (inr None)
  | from_row k :
      verified_key verify_api_key raw (au_keys w) = Some k ->
      w' = (let w1 := w <| au_keys ::= insert (ky_id k) (k <| ky_last_used_at := Some (at_now mo) |>) |> in
            if at_set mo
            then w1 <| au_cached ::= rset (cache_key raw) (payload_of raw (auth_of_key k))
                                       (Some (at_now mo + micros AUTH_CACHE_TTL_SECONDS)%Z) |>
            else w1) ->
      key_run mo raw w w' (inr (Some (auth_of_key k))).

Lemma key_runs mo raw w w' r :
  uuid_law -> auth_ok w -> _authenticate_api_key verify_api_key fingerprint_api_key mo raw w = (w', r) ->
  key_run mo raw w w' r.
Proof.
  intros Hlaw Hok. unfold _authenticate_api_key, mbind, M_bind.
  assert (_get_cached_api_key_auth fingerprint_api_key mo raw w = (w, inr None) \/
          exists k, _get_cached_api_key_auth fingerprint_api_key mo raw w = (w, inr (Some (auth_of_key k))) /\
                    key_run mo raw w w (inr (Some (auth_of_key k)))) as [->|(k & -> & Hrun)].
  { unfold _get_cached_api_key_auth, mbind, M_bind, get_st.
    destruct (at_get mo) eqn:Hget; [|by left]. unfold rget.
    destruct (au_cached w !! cache_key raw) as [e|] eqn:He; [|by left]. cbn [mbind option_bind].
    destruct (alive (at_now mo) e) eqn:Halive; [|by left].
    destruct (ao_cached w Hok _ _ He) as (raw' & i & k & _ & Hk & Hv & Hval). rewrite Hval.
    destruct (read_back raw raw' k w Hlaw) as [Hn|[Hfp Hs]]; [by left|right]. exists k. split; [done|].
    by eapply from_cache; eauto. }
  - unfold get_st. destruct (verified_key _ _ _) as [k|] eqn:Hk; [|intros [= <- <-]; by apply refused_key].
    unfold _cache_api_key_auth. destruct (at_set mo) eqn:Hset; intros [= <- <-]; apply from_row; rewrite ?Hset; done.
  - by intros [= <- <-].
Qed.

Lemma key_run_ok mo raw w w' r : auth_ok w -> key_run mo raw w w' r -> auth_ok w'.
Proof.
  intros Hok [e k raw' -> _ _ _ _ _ _ _| -> _|k Hk ->]; [done..|].
  apply verified_key_inv in Hk as (Hv & _ & [i Hi]). pose proof (ao_keys w Hok i k Hi) as Hid. subst i.
  assert (auth_ok (w <| au_keys ::= insert (ky_id k) (k <| ky_last_used_at := Some (at_now mo) |>) |>)) as Hok1
    by by apply (ok_key_update w (ky_id k) k).
  destruct (at_set mo); [|done]. cbv zeta.
  change (auth_of_key k) with (auth_of_key (k <| ky_last_used_at := Some (at_now mo) |>)).
  apply (ok_cached _ raw (ky_id k) (k <| ky_last_used_at := Some (at_now mo) |>)); [apply lookup_insert_eq|done..].
Qed.

(** ** Sessions *)

Lemma keeps_lift {A} (P : AuthWorld -> Prop) (e : auth_exn) (o : option A) : preserves P (lift_opt e o).
Proof. by destruct o; intros w Hw. Qed.
Lemma keeps_sum {A} (P : AuthWorld -> Prop) (r : auth_exn + A) : preserves P (lift_sum r).
Proof. by destruct r; intros w Hw. Qed.
Lemma keeps_get (P : AuthWorld -> Prop) : preserves P (get_st : M AuthWorld auth_exn AuthWorld).
Proof. by intros w Hw. Qed.
#[local] Hint Resolve keeps_lift keeps_sum keeps_get : core.

Ltac keep :=
  repeat match goal with
    | |- preserves _ (mret _) => apply preserves_ret
    | |- preserves _ (_ ≫= _) => apply preserves_bind; [|intros ?]
    | |- preserves _ (if ?b then _ else _) => destruct b
    | |- preserves _ (match ?x with _ => _ end) => destruct x
    | |- preserves _ _ => done
    end.

Lemma claims_write_jwks mo token b w :
  preserves (fun x => exists j, x = w <| au_jwks := j |>)
    (verified_claims cf get_unverified_header get_unverified_claims verify_signature mo token b).
Proof.
  assert (forall p, preserves (fun x => exists j, x = w <| au_jwks := j |>)
            ((modify_st (fun w => w <| au_jwks := Some (p, at_now mo) |>);; mret p) : M AuthWorld auth_exn json)) as Hm.
  { intros p x [j ->]. by exists (Some (p, at_now mo)). }
  assert (preserves (fun x => exists j, x = w <| au_jwks := j |>) (_get_jwks mo)) as Hj.
  { unfold _get_jwks. apply preserves_bind; [done|]. intros x. destruct (au_jwks x) as [[p t]|];
      [case_match; [apply preserves_ret|]|]; (apply preserves_bind; [done|intros; apply Hm]). }
  assert (forall claims, preserves (fun x => exists j, x = w <| au_jwks := j |>)
            (_validate_public_mcp_oauth_token cf mo claims)) as Hv.
  { intros claims. unfold _validate_public_mcp_oauth_token. keep. }
  unfold verified_claims. keep.
Qed.

(** The client the introspection names. *)
Definition introspected_client (payload : obj) : string :=
  py_strip (str_or_empty (json_or (jget_or_null "client_id" payload) (jget_or_null "aud" payload))).

(** The answer of the introspection: an active token issued to our MCP client
    for the token's own organisation. *)
Definition introspected (mo : AuthMoment) (claims : obj) : Prop :=
  exists payload, at_token_info mo = Some (200%Z, Some (JObj payload)) /\
    cf_clerk_issuer cf <> EmptyString /\ cf_mcp_clerk_audience cf <> EmptyString /\
    introspected_client payload = cf_mcp_clerk_audience cf /\
    jget_or_null "active" payload = JBool true /\ stripped "org_id" payload <> EmptyString /\
    stripped "org_id" payload = stripped "org_id" claims.

(** A token that proves its claims at this moment. *)
Definition genuine (mo : AuthMoment) (w : AuthWorld) (token : string) (mcp : bool) (claims : obj) : Prop :=
  (exists header jwks key parts,
     get_unverified_header token = Some header /\
     (at_jwks mo = Some jwks \/
      exists t, au_jwks w = Some (jwks, t) /\ (at_now mo < t + micros JWKS_CACHE_TTL_SECONDS)%Z) /\
     find_key (jget_or_null "kid" header) jwks = inr (Some key) /\
     rsplit_dot token = Some parts /\ verify_signature key parts.1 parts.2 = Some true) /\
  get_unverified_claims token = Some claims /\
  (cf_clerk_issuer cf <> EmptyString ->
   jget_or_null "iss" claims = JNull \/ jget_or_null "iss" claims = JStr (cf_clerk_issuer cf)) /\
  expired (at_now mo) claims = Some false /\ truthy (jget_or_null "sub" claims) = true /\
  (if mcp then introspected mo claims
   else cf_clerk_audiences cf = [] \/ exists a, a ∈ audiences_of claims /\ a ∈ cf_clerk_audiences cf).

Lemma introspection_inv mo claims w w' :
  _validate_public_mcp_oauth_token cf mo claims w = (w', inr true) -> introspected mo claims.
Proof.
  unfold _validate_public_mcp_oauth_token.
  match goal with |- context [if ?b then _ else _] => destruct b eqn:Hset end; [done|].
  apply orb_false_elim in Hset as [Hset _].
  apply orb_false_elim in Hset as [Hiss%bool_decide_eq_false Haud%bool_decide_eq_false].
  intros (w1 & [status body] & [-> Hinfo]%lift_opt_inv & Hrun)%M_bind_inv. cbn [fst snd] in Hrun.
  destruct (Z.eqb_spec status 200) as [->|]; cbn [negb] in Hrun; [|done].
  apply M_bind_inv in Hrun as (w2 & b & [-> Hb]%lift_opt_inv & Hrun). subst body.
  destruct b as [| | | | | | |payload]; try done. injection Hrun as _ Hall.
  repeat (apply andb_prop in Hall as [Hall ?]).
  repeat match goal with
    | H : bool_decide _ = true |- _ => apply bool_decide_eq_true in H
    | H : negb _ = true |- _ => apply negb_true_iff, bool_decide_eq_false in H
    end.
  by exists payload.
Qed.

Lemma issuer_ok_inv claims :
  issuer_ok cf claims = true -> cf_clerk_issuer cf <> EmptyString ->
  jget_or_null "iss" claims = JNull \/ jget_or_null "iss" claims = JStr (cf_clerk_issuer cf).
Proof.
  unfold issuer_ok. intros [Hi%bool_decide_eq_true|Hi]%orb_prop Hne; [done|].
  destruct (jget_or_null "iss" claims); try done; [by left|right]. by apply bool_decide_eq_true in Hi as ->.
Qed.

Lemma jwks_inv mo w w' jwks :
  _get_jwks mo w = (w', inr jwks) ->
  at_jwks mo = Some jwks \/ exists t, au_jwks w = Some (jwks, t) /\ (at_now mo < t + micros JWKS_CACHE_TTL_SECONDS)%Z.
Proof.
  unfold _get_jwks. intros (w1 & x & [= <- <-] & Hrun)%M_bind_inv.
  assert (forall w0, (payload ← lift_opt Rejected (at_jwks mo);
                      modify_st (fun w => w <| au_jwks := Some (payload, at_now mo) |>);; mret payload) w0 =
                     (w', inr jwks) -> at_jwks mo = Some jwks) as Hfetch.
  { intros w0 (w2 & p & [-> Hp]%lift_opt_inv & Hend)%M_bind_inv.
    apply M_bind_inv in Hend as (w3 & [] & _ & [= _ <-]). done. }
  destruct (au_jwks w) as [[p t]|]; [|left; by eapply Hfetch].
  destruct (truthy p && _) eqn:Hc; [right|left; by eapply Hfetch].
  injection Hrun as _ <-. apply andb_prop in Hc as [_ Hc%Z.ltb_lt]. exists t. split; [done|lia].
Qed.

Lemma claims_genuine mo token b w w' claims :
  verified_claims cf get_unverified_header get_unverified_claims verify_signature mo token b w = (w', inr (Some claims)) ->
  genuine mo w token b claims.
Proof.
  intros (w1 & header & [-> Hheader]%lift_opt_inv & Hrun)%M_bind_inv.
  apply M_bind_inv in Hrun as (w2 & jwks & Hjwks%jwks_inv & Hrun).
  apply M_bind_inv in Hrun as (w3 & key & Hkey & Hrun).
  destruct (find_key _ jwks) as [e|o] eqn:Hfind; [done|]. injection Hkey as <- <-.
  destruct o as [key|]; [|done].
  apply M_bind_inv in Hrun as (w4 & parts & [-> Hparts]%lift_opt_inv & Hrun).
  apply M_bind_inv in Hrun as (w5 & signed & [-> Hsigned]%lift_opt_inv & Hrun).
  destruct signed; cbn [negb] in Hrun; [|done].
  apply M_bind_inv in Hrun as (w6 & c & [-> Hclaims]%lift_opt_inv & Hrun).
  destruct (issuer_ok cf c) eqn:Hissuer; cbn [negb] in Hrun; [|done].
  apply M_bind_inv in Hrun as (w7 & for_us & Hus & Hrun). destruct for_us; cbn [negb] in Hrun; [|done].
  apply M_bind_inv in Hrun as (w8 & late & [-> Hlate]%lift_opt_inv & Hrun). destruct late; [done|].
  destruct (truthy (jget_or_null "sub" c)) eqn:Hsub; [|done]. injection Hrun as _ <-.
  split; [by exists header, jwks, key, parts|]. split_and!; [done|by apply issuer_ok_inv|done..|].
  destruct b; [by apply introspection_inv in Hus|]. injection Hus as _ [Hn|Hex]%orb_prop.
  - left. by apply bool_decide_eq_true in Hn.
  - right. apply existsb_exists in Hex as (a & Ha%list_elem_of_In & Hin%bool_decide_eq_true). by exists a.
Qed.

(** The key's side of the state. *)
Definition same_keys (w w' : AuthWorld) : Prop := au_keys w' = au_keys w /\ au_cached w' = au_cached w.

(** The organisation's tenant. *)
Definition tenant_of_org (w : AuthWorld) (org tenant : string) : Prop :=
  exists i t, au_tenants w !! i = Some t /\ tn_clerk_org_id t = Some org /\ tenant = uuid_str i.

Lemma create_inv mo org name w w' r :
  auth_ok w -> au_tenants w !! at_tenant_id mo = None ->
  _create_tenant_for_clerk_org mo org name w = (w', r) ->
  auth_ok w' /\ same_keys w w' /\
  (r = inr None /\ w' = w \/
   exists i t, r = inr (Some i) /\ au_tenants w' !! i = Some t /\ tn_clerk_org_id t = Some org).
Proof.
  intros Hok Hfresh. unfold _create_tenant_for_clerk_org, mbind, M_bind, get_st.
  destruct (tenants_of_org org (au_tenants w)) eqn:Hnone; cbn [modify_st]; intros [= <- <-].
  - set (t := {| tn_id := at_tenant_id mo |}). split; [|split; [done|]].
    + by apply (ok_new_tenant w t org).
    + right. exists (at_tenant_id mo), t. split; [done|]. split; [apply lookup_insert_eq|done].
  - split; [done|]. split; [done|by left].
Qed.

Lemma store_org_inv mo org i t w w' (r : auth_exn + unit) :
  auth_ok w -> au_tenants w !! i = Some t -> tn_clerk_org_id t = Some org ->
  (if at_set mo
   then modify_st (fun w => w <| au_orgs ::= rset org (uuid_str i)
                                               (Some (at_now mo + micros AUTH_CACHE_TTL_SECONDS)%Z) |>)
   else mret tt) w = (w', r) ->
  auth_ok w' /\ same_keys w w' /\ au_tenants w' = au_tenants w /\ r = inr tt.
Proof.
  intros Hok Ht Ho. destruct (at_set mo); intros [= <- <-]; [|done].
  split; [by apply (ok_org w org i t)|done].
Qed.

Lemma resolve_org_inv mo org name w w' r :
  auth_ok w -> au_tenants w !! at_tenant_id mo = None ->
  _resolve_tenant_id_from_clerk_org mo org name w = (w', r) ->
  auth_ok w' /\ same_keys w w' /\ forall t, r = inr (Some t) -> tenant_of_org w' org t.
Proof.
  intros Hok Hfresh. unfold _resolve_tenant_id_from_clerk_org. unfold mbind at 1, M_bind at 1. unfold get_st at 1.
  destruct ((if at_get mo then rget (at_now mo) org (au_orgs w) else None) ≫= text_opt) as [c|] eqn:Hc.
  { intros [= <- <-]. split; [done|]. split; [done|]. intros t [= <-].
    destruct (at_get mo); [|done]. unfold rget in Hc.
    destruct (au_orgs w !! org) as [e|] eqn:He; [|done]. cbn in Hc.
    destruct (alive (at_now mo) e); [|done]. cbn in Hc. unfold text_opt in Hc. case_bool_decide; [done|].
    injection Hc as <-. by apply ao_cached_orgs in He. }
  unfold mbind at 1, M_bind at 1.
  match goal with |- context [match ?m w with _ => _ end] => destruct (m w) as [w1 r1] eqn:Hfound end.
  assert (auth_ok w1 /\ same_keys w w1 /\
          forall i, r1 = inr (Some i) -> exists t, au_tenants w1 !! i = Some t /\ tn_clerk_org_id t = Some org)
    as (Hok1 & Hsame1 & Hr1).
  { destruct (filter _ _) as [|t [|t' l]] eqn:Hrows.
    - apply create_inv in Hfound as (? & ? & [[-> ->]|(i & t & -> & Ht & Ho)]); [|split_and!..|done|done]; try done.
      intros j [= <-]. by exists t.
    - injection Hfound as <- <-. split_and!; [done..|]. intros i [= <-]. exists t.
      assert (t ∈ filter (fun t => tn_is_active t = true) (tenants_of_org org (au_tenants w))) as Hin
        by (rewrite Hrows; apply list_elem_of_here).
      apply list_elem_of_filter in Hin as [_ Hin].
      apply elem_of_rows_where in Hin as [Ho%bool_decide_eq_true [j Hj]].
      pose proof (ao_tenants w Hok j t Hj) as <-. done.
    - by injection Hfound as <- <-. }
  destruct r1 as [e|[i|]]; [by intros [= <- <-]| |by intros [= <- <-]].
  destruct (Hr1 i eq_refl) as (t & Ht & Ho). unfold mbind, M_bind.
  match goal with |- context [match ?m w1 with _ => _ end] => destruct (m w1) as [w2 r2] eqn:Hstored end.
  destruct (store_org_inv mo org i t w1 w2 r2 Hok1 Ht Ho Hstored) as (Hok2 & [Hk2 Hc2] & Ht2 & ->).
  intros [= <- <-]. destruct Hsame1 as [Hk1 Hc1].
  split; [done|]. split; [split; congruence|]. intros x [= <-]. exists i, t. by rewrite Ht2.
Qed.

(** How a token authenticates. *)
Lemma jwt_inv mo token b w w' r :
  auth_ok w -> au_tenants w !! at_tenant_id mo = None ->
  _authenticate_jwt cf get_unverified_header get_unverified_claims verify_signature mo token b w = (w', r) ->
  auth_ok w' /\ same_keys w w' /\
  forall auth t, r = inr (Some auth) -> ja_tenant_id auth = Some t ->
    exists claims, genuine mo w token b claims /\ ja_error_code auth = None /\
      match org_of claims with
      | None => _jwt_tenant_id claims = Some t
      | Some org => tenant_of_org w' org t
      end.
Proof.
  intros Hok Hfresh. unfold _authenticate_jwt. case_bool_decide; [by intros [= <- <-]|].
  unfold caught. unfold mbind at 1, M_bind at 1.
  destruct (verified_claims _ _ _ _ mo token b w) as [w1 r1] eqn:Hclaims.
  pose proof (claims_write_jwks mo token b w w) as Hj. rewrite Hclaims in Hj. cbn [fst] in Hj.
  destruct Hj as [j ->]; [by exists (au_jwks w); destruct w|].
  pose proof (ok_jwks w j Hok) as Hok1.
  destruct r1 as [[]|[claims|]]; [by intros [= <- <-]..| |by intros [= <- <-]].
  apply claims_genuine in Hclaims as Hgenuine.
  destruct (org_of claims) as [org|] eqn:Horg.
  - unfold mbind at 1, M_bind at 1.
    destruct (_resolve_tenant_id_from_clerk_org mo org (org_name_of org claims) (w <| au_jwks := j |>)) as [w2 r2] eqn:Hres.
    apply resolve_org_inv in Hres as (Hok2 & Hsame & Ht); [|done..].
    destruct r2 as [[]|[t|]]; intros [= <- <-]; (split; [done|]); (split; [done|]); intros auth t' [= <-]; [|done].
    intros [= <-]. exists claims. rewrite Horg. split; [done|]. split; [done|]. by apply Ht.
  - destruct (_jwt_tenant_id claims) as [t|] eqn:Ht; intros [= <- <-]; (split; [done|]); (split; [done|]);
      intros auth t' [= <-]; [|done].
    intros [= <-]. exists claims. rewrite Horg. done.
Qed.

(** ** Requests *)

(** The credentials of a header of that scheme. *)
Definition presents (r : HttpCall) (scheme secret : string) : Prop :=
  exists s credentials, split_space (py_strip (ht_authorization r)) = Some (s, credentials) /\
                        py_lower s = scheme /\ secret = py_strip credentials.

Definition mcp_call (r : HttpCall) : bool :=
  bool_decide (py_lower (py_strip (ht_mcp_client r)) = MCP_PUBLIC_CALLER_VALUE).

(** On what ground a request passes. *)
Definition passes_on (mo : AuthMoment) (r : HttpCall) (w w' : AuthWorld) (o : tenant_outcome) : Prop :=
  match o with
  | Open => py_startswith (ht_path r) "/v1/internal/" || _is_public_endpoint r = true
  | ByKey auth => exists secret, presents r "apikey" secret /\ key_run mo secret w w' (inr (Some auth))
  | Session auth (Some t) =>
      exists token claims, presents r "bearer" token /\ genuine mo w token (mcp_call r) claims /\
        match org_of claims with
        | None => _jwt_tenant_id claims = Some t
        | Some org => tenant_of_org w' org t
        end
  | Session _ None | Unauthorized _ => True
  end.

Lemma refused_ok mo r code w w' o :
  auth_ok w -> _unauthorized mo r code w = (w', o) -> auth_ok w' /\ same_keys w w' /\ o = inr (Unauthorized code).
Proof.
  intros Hok. unfold _unauthorized, _record_auth_failure. destruct (at_count mo); intros [= <- <-]; [|done].
  split; [by apply ok_failures|done].
Qed.

Lemma dispatch_inv mo r w w' o :
  uuid_law -> auth_ok w -> au_tenants w !! at_tenant_id mo = None -> handle mo r w = (w', o) ->
  auth_ok w' /\ match o with inr x => passes_on mo r w w' x | inl _ => True end.
Proof.
  intros Hlaw Hok Hfresh. unfold dispatch.
  match goal with |- context [if ?b then mret Open else _] => destruct b eqn:Hopen end; [by intros [= <- <-]|].
  destruct (split_space _) as [[scheme credentials]|] eqn:Hsplit;
    [|by intros (? & _ & ->)%refused_ok].
  destruct (bool_decide (py_lower scheme = "bearer")) eqn:Hbearer; [|destruct (bool_decide (py_lower scheme = "apikey")) eqn:Hkey].
  - apply bool_decide_eq_true in Hbearer. fold (mcp_call r). unfold mbind, M_bind.
    destruct (_authenticate_jwt _ _ _ _ mo _ (mcp_call r) w) as [w1 r1] eqn:Hjwt.
    apply jwt_inv in Hjwt as (Hok1 & _ & Ht); [|done..].
    destruct r1 as [e|[auth|]]; [by intros [= <- <-]| |by intros (? & _ & ->)%refused_ok].
    destruct (ja_error_code auth) as [code|] eqn:Hcode.
    { match goal with |- context [if ?b then _ else _] => destruct b end;
        [by intros (? & _ & ->)%refused_ok|by intros [= <- <-]]. }
    intros [= <- <-]. split; [done|]. cbn. destruct (ja_tenant_id auth) as [t|] eqn:Hta; [|done].
    destruct (Ht auth t eq_refl Hta) as (claims & Hg & _ & Horg). exists (py_strip credentials), claims.
    split; [by exists scheme, credentials|done].
  - apply bool_decide_eq_true in Hkey. unfold mbind, M_bind.
    destruct (_authenticate_api_key _ _ mo _ w) as [w1 r1] eqn:Hauth. apply key_runs in Hauth as Hrun; [|done..].
    pose proof (key_run_ok _ _ _ _ _ Hok Hrun) as Hok1.
    destruct r1 as [e|[auth|]]; [by intros [= <- <-]| |by intros (? & _ & ->)%refused_ok].
    intros [= <- <-]. split; [done|]. exists (py_strip credentials). split; [by exists scheme, credentials|done].
  - by intros (? & _ & ->)%refused_ok.
Qed.

(** ** Reachable states *)

Inductive auth_step : AuthWorld -> AuthWorld -> Prop :=
  | step_request mo r w w' o :
      au_tenants w !! at_tenant_id mo = None -> handle mo r w = (w', o) -> auth_step w w'
  | step_create now id token salt tenant name permissions rate w w' o :
      au_keys w !! id = None ->
      create_api_key hash_api_key now id token salt tenant name permissions rate w = (w', o) -> auth_step w w'
  | step_revoke tenant id w w' o : revoke_api_key tenant id w = (w', o) -> auth_step w w'.

Lemma ok_new_key w k : au_keys w !! ky_id k = None -> auth_ok w -> auth_ok (w <| au_keys ::= insert (ky_id k) k |>).
Proof.
  intros Hfresh []. split; cbn; [|done|done| |done].
  - intros i x [[<- <-]|[_ ?]]%lookup_insert_Some; [done|by apply ao_keys0].
  - intros c e (raw & i & x & -> & Hx & ? & ?)%ao_cached0. exists raw, i, x. split; [done|].
    by rewrite lookup_insert_ne by congruence.
Qed.

Lemma auth_step_ok w w' : uuid_law -> auth_step w w' -> auth_ok w -> auth_ok w'.
Proof.
  intros Hlaw [mo r w1 w2 o Hfresh Hrun|now id token salt tenant name ps rate w1 w2 o Hfresh Hrun|tenant id w1 w2 o Hrun] Hok.
  - by apply dispatch_inv in Hrun as [? _].
  - injection Hrun as <- _. set (k := {| ky_id := id |}). by apply (ok_new_key w1 k).
  - revert Hrun. unfold revoke_api_key, mbind, M_bind, get_st. destruct (au_keys w1 !! id) as [k|] eqn:Hk;
      [|by intros [= <- _]]. destruct (bool_decide _); cbn [negb]; intros [= <- _]; [|done].
    pose proof (ao_keys w1 Hok id k Hk) as Hid. by apply (ok_key_update w1 id k).
Qed.

Lemma auth_reachable_ok w0 w : uuid_law -> rtc auth_step w0 w -> auth_ok w0 -> auth_ok w.
Proof. intros Hlaw Hr. induction Hr as [|x y z Hxy _ IH]; [done|]. intros ?. apply IH. by eapply auth_step_ok. Qed.

(** What the rate limiter reads of a request that a key authenticates. *)
Definition limited_request (r : HttpCall) (auth : ApiKeyAuthResult) (now : Z) : RateLimit.Request :=
  {| RateLimit.rq_method := ht_method r; RateLimit.rq_path := ht_path r; RateLimit.rq_auth_scheme := Some "apikey";
     RateLimit.rq_tenant_id := ka_tenant_id auth; RateLimit.rq_api_key_id := ka_api_key_id auth;
     RateLimit.rq_permissions := Some (ka_permissions auth);
     RateLimit.rq_rate_limit := Some (ka_rate_limit_per_minute auth); RateLimit.rq_now := now |}.

(** C17: Whatever requests, creations and revocations came before, a request that
    an API key lets pass acts for the tenant, with the permissions and under the
    limit of a stored key whose hash accepts the secret it presents; the key is
    active, unless the secret's cached result is still alive; and where the
    permission middleware lets it through on a scoped path, this very key holds
    the permission that the method and path require, or admin. *)
Theorem requests_act_under_their_key w0 w mo r w' auth :
  uuid_law -> collision_free -> auth_ok w0 -> rtc auth_step w0 w -> au_tenants w !! at_tenant_id mo = None ->
  handle mo r w = (w', inr (ByKey auth)) ->
  exists secret i k,
    presents r "apikey" secret /\ au_keys w !! i = Some k /\ verify_api_key secret (ky_key_hash k) = true /\
    auth = auth_of_key k /\ get_authenticated_tenant_id (ByKey auth) = uuid_str <$> ky_tenant_id k /\
    (ky_is_active k = true \/
     exists e, au_cached w !! cache_key secret = Some e /\ alive (at_now mo) e = true) /\
    (forall redis has_cache limit now counters,
       RateLimit._is_scoped_path (ht_path r) = true ->
       (RateLimit.dispatch redis has_cache limit (limited_request r auth now) counters).2 = RateLimit.CallNext ->
       "admin" ∈ RateLimit.permissions_of (Some (ky_permissions k)) \/
       RateLimit._required_permission (ht_method r) (ht_path r) ∈ RateLimit.permissions_of (Some (ky_permissions k))).
Proof.
  intros Hlaw Hcf Hok0 Hr Hfresh Hrun. pose proof (auth_reachable_ok w0 w Hlaw Hr Hok0) as Hok.
  apply dispatch_inv in Hrun as [_ (secret & Hp & Hk)]; [|done..].
  assert (exists i k, au_keys w !! i = Some k /\ verify_api_key secret (ky_key_hash k) = true /\ auth = auth_of_key k /\
            (ky_is_active k = true \/
             exists e, au_cached w !! cache_key secret = Some e /\ alive (at_now mo) e = true))
    as (i & k & Hi & Hv & -> & Hwhy).
  { inversion Hk as [e k raw' _ He _ Ha _ [i Hi] Hv Hfp| |k Hkey _]; subst.
    - apply Hcf in Hfp as ->. exists i, k. split_and!; [done..|]. right. by exists e.
    - apply verified_key_inv in Hkey as (Hv & Ha & [i Hi]). exists i, k. split_and!; [done..|]. by left. }
  exists secret, i, k. split_and!; [done..| |done|].
  - cbn. destruct (ky_tenant_id k) as [t|]; [|done]. cbn. unfold text_opt.
    by rewrite bool_decide_eq_false_2 by apply Hlaw.
  - intros redis has_cache limit now counters Hscoped Hnext.
    destruct (RateLimit.admitted_keys_hold_the_permission redis has_cache limit
                (limited_request r (auth_of_key k) now) counters (ky_permissions k) eq_refl Hscoped eq_refl Hnext)
      as [?|[? _]]; [by left|by right].
Qed.

(** C18: A session that passes with a tenant presents a token that is signed by
    the key that Clerk's key set (fetched now, or within five minutes) names for
    it, is not expired and names a subject.  Where an issuer is configured the
    token names that issuer or none at all; where audiences are configured it
    names one of them (a deployment that configures none accepts any audience).
    A public MCP call needs instead of an audience Clerk's word that the token
    is active, was issued to the configured MCP client and belongs to the
    token's organisation.  The tenant is the organisation's own row, or, for a
    token without organisation, the one the signed claims name. *)
Theorem sessions_reach_only_their_tenant w0 w mo r w' auth tenant :
  uuid_law -> auth_ok w0 -> rtc auth_step w0 w -> au_tenants w !! at_tenant_id mo = None ->
  handle mo r w = (w', inr (Session auth (Some tenant))) ->
  exists token claims,
    presents r "bearer" token /\ genuine mo w token (mcp_call r) claims /\
    match org_of claims with
    | None => _jwt_tenant_id claims = Some tenant
    | Some org => tenant_of_org w' org tenant /\
                  forall other, tenant_of_org w' org other -> other = tenant
    end.
Proof.
  intros Hlaw Hok0 Hr Hfresh Hrun. pose proof (auth_reachable_ok w0 w Hlaw Hr Hok0) as Hok.
  apply dispatch_inv in Hrun as [Hok' (token & claims & Hp & Hg & Ht)]; [|done..].
  exists token, claims. split; [done|]. split; [done|]. destruct (org_of claims) as [org|]; [|done].
  split; [done|]. intros other (i & t & Hi & Ho & ->). destruct Ht as (j & u & Hj & Hu & ->).
  by rewrite (ao_orgs w' Hok' i j t u org Hi Hj Ho Hu).
Qed.

(** ** Revocation *)

(** No active key accepts the secret. *)
Definition no_active (raw : string) (w : AuthWorld) : Prop :=
  forall i k, au_keys w !! i = Some k -> ky_is_active k = true -> verify_api_key raw (ky_key_hash k) = false.

(** What is cached where the secret's result would be ends by [t], or is another
    secret's. *)
Definition fades (raw : string) (t : Z) (w : AuthWorld) : Prop :=
  forall e, au_cached w !! cache_key raw = Some e ->
    (exists x, ex_at e = Some x /\ (x <= t)%Z) \/
    (exists raw' a, ex_value e = payload_of raw' a /\ raw' <> raw).

Lemma dispatch_keys mo r w w' o :
  uuid_law -> auth_ok w -> au_tenants w !! at_tenant_id mo = None -> handle mo r w = (w', o) ->
  same_keys w w' \/ exists secret w1 r1, key_run mo secret w w1 r1 /\ same_keys w1 w'.
Proof.
  intros Hlaw Hok Hfresh. unfold dispatch.
  match goal with |- context [if ?b then mret Open else _] => destruct b end; [intros [= <- <-]; by left|].
  destruct (split_space _) as [[scheme credentials]|]; [|intros Hr; apply refused_ok in Hr as (_ & ? & _); [by left|done]].
  destruct (bool_decide (py_lower scheme = "bearer")); [|destruct (bool_decide (py_lower scheme = "apikey"))].
  - intros Hrun. left. revert Hrun. unfold mbind, M_bind.
    match goal with |- context [match ?m w with _ => _ end] => destruct (m w) as [w1 r1] eqn:Hjwt end.
    apply jwt_inv in Hjwt as (Hok1 & [Hk Hc] & _); [|done..].
    assert (forall code w2 o2, _unauthorized mo r code w1 = (w2, o2) -> same_keys w w2) as Href.
    { intros code w2 o2 Hr. apply refused_ok in Hr as (_ & [? ?] & _); [|done]. split; congruence. }
    destruct r1 as [e|[auth|]]; [by intros [= <- <-]| |by intros ?%Href].
    destruct (ja_error_code auth); [|by intros [= <- <-]].
    match goal with |- context [if ?b then _ else _] => destruct b end; [by intros ?%Href|by intros [= <- <-]].
  - intros Hrun. right. revert Hrun. unfold mbind, M_bind.
    match goal with |- context [match ?m w with _ => _ end] => destruct (m w) as [w1 r1] eqn:Hauth end.
    apply key_runs in Hauth as Hrun; [|done..]. pose proof (key_run_ok _ _ _ _ _ Hok Hrun) as Hok1.
    intros Hend. exists (py_strip credentials), w1, r1. split; [done|].
    destruct r1 as [e|[auth|]]; [by injection Hend as <- <-|by injection Hend as <- <-|].
    by apply refused_ok in Hend as (_ & ? & _).
  - intros Hr; apply refused_ok in Hr as (_ & ? & _); [by left|done].
Qed.

Lemma payload_secret raw raw' a a' : collision_free -> payload_of raw a = payload_of raw' a' -> raw = raw'.
Proof.
  intros Hcf Heq. apply Hcf. assert (jget "api_key_fingerprint" (payload_of raw a) = jget "api_key_fingerprint" (payload_of raw' a'))
    as Hj by by rewrite Heq. by injection Hj.
Qed.

(** Steps after a revocation: requests, revocations, and new keys with another
    secret. *)
Inductive later (raw : string) : AuthWorld -> AuthWorld -> Prop :=
  | later_request mo r w w' o :
      au_tenants w !! at_tenant_id mo = None -> handle mo r w = (w', o) -> later raw w w'
  | later_create now id token salt tenant name permissions rate w w' o :
      au_keys w !! id = None -> verify_api_key raw (hash_api_key salt ("mem_" +:+ token)) = false ->
      create_api_key hash_api_key now id token salt tenant name permissions rate w = (w', o) -> later raw w w'
  | later_revoke tenant id w w' o : revoke_api_key tenant id w = (w', o) -> later raw w w'.

Lemma later_step raw w w' : later raw w w' -> auth_step w w'.
Proof. intros []; [eapply step_request|eapply step_create|eapply step_revoke]; eauto. Qed.

Lemma run_fades mo raw t secret w w1 r1 :
  collision_free -> auth_ok w -> no_active raw w -> fades raw t w -> key_run mo secret w w1 r1 ->
  no_active raw w1 /\ fades raw t w1.
Proof.
  intros Hcf Hok Hno Hfade [e k raw' -> _ _ _ _ _ _ _| -> _|k Hk ->]; [done..|].
  apply verified_key_inv in Hk as (Hv & Ha & [i Hi]). pose proof (ao_keys w Hok i k Hi) as <-.
  assert (secret <> raw) as Hne by (intros ->; by rewrite (Hno _ _ Hi Ha) in Hv).
  split.
  - assert (forall j x, <[ky_id k := k <| ky_last_used_at := Some (at_now mo) |>]> (au_keys w) !! j = Some x ->
              ky_is_active x = true -> verify_api_key raw (ky_key_hash x) = false) as Hk.
    { intros j x [[<- <-]|[_ Hx]]%lookup_insert_Some; [by apply (Hno _ _ Hi)|by apply (Hno _ _ Hx)]. }
    intros j x. destruct (at_set mo); exact (Hk j x).
  - destruct (at_set mo); [|exact Hfade]. intros e. cbv zeta. cbn. unfold rset.
    intros [[_ <-]|[_ He]]%lookup_insert_Some; [right; by eexists secret, _|by apply Hfade].
Qed.

Lemma later_fades raw t w w' :
  uuid_law -> collision_free -> later raw w w' -> auth_ok w -> no_active raw w -> fades raw t w ->
  auth_ok w' /\ no_active raw w' /\ fades raw t w'.
Proof.
  intros Hlaw Hcf Hstep Hok Hno Hfade.
  split; [apply (auth_step_ok w); [done|by apply (later_step raw)|done]|].
  destruct Hstep as [mo r w w' o Hfresh Hrun|now id token salt tenant name ps rate w w' o Hfresh Hother Hrun|tenant id w w' o Hrun].
  - apply dispatch_keys in Hrun as [[Hk Hc]|(secret & w1 & r1 & Hrun & Hk & Hc)]; [|..|done|done|done].
    + unfold no_active, fades. by rewrite Hk, Hc.
    + destruct (run_fades mo raw t secret w w1 r1) as [Hno1 Hf1]; [done..|]. unfold no_active, fades. by rewrite Hk, Hc.
  - injection Hrun as <- _. split; [|done].
    intros j x. cbn. intros [[<- <-]|[_ Hx]]%lookup_insert_Some; [done|by apply (Hno _ _ Hx)].
  - revert Hrun. unfold revoke_api_key, mbind, M_bind, get_st. destruct (au_keys w !! id) as [k|] eqn:Hk;
      [|by intros [= <- _]]. destruct (bool_decide _); cbn [negb]; intros [= <- _]; [|done].
    split; [|done]. intros j x. cbn. intros [[<- <-]|[_ Hx]]%lookup_insert_Some; [done|by apply (Hno _ _ Hx)].
Qed.

(** C19: Once the only active key that accepts a secret is revoked, the secret
    authenticates nobody from five minutes after the last moment at which a
    result was cached before, whatever requests, revocations and creations of
    other keys come in between. *)
Theorem revoked_keys_stop_within_five_minutes tenant id t raw k w w1 w2 mo r w3 auth :
  uuid_law -> collision_free -> auth_ok w -> au_keys w !! id = Some k ->
  (forall j x, au_keys w !! j = Some x -> j <> id -> ky_is_active x = true -> verify_api_key raw (ky_key_hash x) = false) ->
  (forall c e, au_cached w !! c = Some e ->
     exists x, ex_at e = Some x /\ (x <= t + micros AUTH_CACHE_TTL_SECONDS)%Z) ->
  revoke_api_key tenant id w = (w1, inr true) -> rtc (later raw) w1 w2 ->
  au_tenants w2 !! at_tenant_id mo = None -> (t + micros AUTH_CACHE_TTL_SECONDS <= at_now mo)%Z ->
  presents r "apikey" raw -> handle mo r w2 <> (w3, inr (ByKey auth)).
Proof.
  intros Hlaw Hcf Hok Hk Honly Hcached Hrevoke Hlater Hfresh Hnow (s & credentials & Hsplit & _ & Hraw) Hrun.
  set (T := (t + micros AUTH_CACHE_TTL_SECONDS)%Z) in *.
  assert (auth_ok w1 /\ no_active raw w1 /\ fades raw T w1) as Hw1.
  { split; [eapply auth_step_ok; [done|by eapply step_revoke|done]|].
    revert Hrevoke. unfold revoke_api_key, mbind, M_bind, get_st. rewrite Hk.
    destruct (bool_decide _); cbn [negb]; [|done]. intros [= <-]. split.
    - intros j x. cbn. intros [[<- <-]|[Hne Hx]]%lookup_insert_Some; [done|by apply (Honly j)].
    - intros e He. left. by apply (Hcached _ e He). }
  assert (auth_ok w2 /\ no_active raw w2 /\ fades raw T w2) as (Hok2 & Hno2 & Hf2).
  { clear -Hlater Hw1 Hlaw Hcf. induction Hlater as [|x y z Hxy _ IH]; [done|]. apply IH.
    destruct Hw1 as (? & ? & ?). by apply (later_fades raw T x y). }
  apply dispatch_inv in Hrun as [_ (secret & (s' & credentials' & Hsplit' & _ & ->) & Hkey)]; [|done..].
  rewrite Hsplit in Hsplit'. injection Hsplit' as <- <-. rewrite <- Hraw in Hkey.
  inversion Hkey as [e x raw' _ He _ Halive Hval _ _ Hfp| |x Hx _]; subst auth.
  - destruct (Hf2 e He) as [(y & Hy & Hle)|(other & a & Hother & Hne)].
    + unfold alive in Halive. rewrite Hy in Halive. apply Z.ltb_lt in Halive. lia.
    + rewrite Hval in Hother. apply Hcf in Hfp. apply payload_secret in Hother; [|done]. congruence.
  - apply verified_key_inv in Hx as (Hv & Ha & [i Hi]). by rewrite (Hno2 i x Hi Ha) in Hv.
Qed.
End Theorems.

(** ** Pages *)

#[local] Close Scope string_scope.

Section Pages.
Context {A : Type}.
Variable id_of : A -> string.
Implicit Types items : list A.

(** Every page from a cursor on, each asked for with the cursor before. *)
Fixpoint all_pages (items : list A) (limit fuel : nat) (cursor : option string) : option (list A) :=
  let (sliced, next) := page id_of items cursor limit in
  match next, fuel with
  | None, _ => Some sliced
  | Some _, O => None
  | Some c, S fuel => app sliced <$> all_pages items limit fuel (Some c)
  end.

Lemma after_cursor_spec items pre x suf :
  NoDup (id_of <$> items) -> items = pre ++ x :: suf -> after_cursor id_of (id_of x) items = Some suf.
Proof.
  intros Hnd ->. induction pre as [|y pre IH]; cbn; [by rewrite bool_decide_eq_true_2|].
  cbn in Hnd. apply NoDup_cons in Hnd as [Hy Hnd]. rewrite bool_decide_eq_false_2; [by apply IH|].
  intros Heq. apply Hy. rewrite Heq. apply list_elem_of_fmap. exists x. split; [done|].
  apply elem_of_app. right. by left.
Qed.

(** Where a cursor stands: after [pre]. *)
Definition stands (pre : list A) (cursor : option string) : Prop :=
  match cursor with None => pre = [] | Some c => exists pre' x, pre = pre' ++ [x] /\ c = id_of x end.

Lemma slice_from items pre suf cursor limit :
  NoDup (id_of <$> items) -> (forall x, id_of x <> EmptyString) -> items = pre ++ suf -> stands pre cursor ->
  _slice_with_cursor id_of items cursor limit = take limit suf.
Proof.
  intros Hnd Hid Hsplit Hpre. unfold _slice_with_cursor. destruct cursor as [c|]; cbn in *; [|by subst].
  destruct Hpre as (pre' & x & -> & ->). unfold text_opt. rewrite bool_decide_eq_false_2 by done.
  rewrite (after_cursor_spec items pre' x suf Hnd); [done|]. by rewrite Hsplit, <- app_assoc.
Qed.

Lemma pages_from items limit fuel : forall pre suf cursor,
  NoDup (id_of <$> items) -> (forall x, id_of x <> EmptyString) -> 0 < limit -> items = pre ++ suf ->
  stands pre cursor -> length suf < S fuel * limit -> all_pages items limit fuel cursor = Some suf.
Proof.
  induction fuel as [|fuel IH]; intros pre suf cursor Hnd Hid Hlimit Hsplit Hpre Hfuel; cbn [all_pages]; unfold page;
    rewrite (slice_from items pre suf cursor limit) by done.
  - rewrite length_take, (take_ge suf) by lia.
    destruct (Nat.eqb_spec (limit `min` length suf) limit) as [?|?]; [lia|]. done.
  - destruct (Nat.eqb_spec (length (take limit suf)) limit) as [Hfull|Hshort]; cbn [andb].
    2: { rewrite length_take in Hshort. by rewrite take_ge by lia. }
    destruct (Nat.ltb_spec (length (take limit suf)) (length items)) as [Hmore|Hall].
    2: { subst items. rewrite length_app, length_take in *. by rewrite take_ge by lia. }
    destruct (last (take limit suf)) as [x|] eqn:Hlast.
    2: { apply last_None in Hlast. rewrite Hlast in Hfull. cbn in Hfull. lia. }
    cbn [fmap option_fmap option_map]. apply last_Some in Hlast as [front Hfront].
    rewrite (IH (pre ++ take limit suf) (drop limit suf)); [|done|done|done| | |].
    + cbn. f_equal. apply take_drop.
    + by rewrite <- app_assoc, take_drop.
    + exists (pre ++ front), x. by rewrite Hfront, app_assoc.
    + rewrite length_drop. cbn in Hfuel |- *. lia.
Qed.
End Pages.

Section Listing.
Context `{PyLib}.

(** Following [list_api_keys] from cursor to cursor. *)
Fixpoint listing (tenant : uuid) (limit fuel : nat) (cursor : option string) (w : AuthWorld) : option (list ApiKey) :=
  let '(keys, next, total) := list_api_keys tenant cursor limit w in
  match next, fuel with
  | None, _ => Some keys
  | Some _, O => None
  | Some c, S fuel => app keys <$> listing tenant limit fuel (Some c) w
  end.

Lemma listing_pages tenant limit fuel w : forall cursor,
  listing tenant limit fuel cursor w =
  all_pages (fun k => uuid_str (ky_id k)) (tenant_keys tenant (au_keys w)) limit fuel cursor.
Proof.
  induction fuel as [|fuel IH]; intros cursor; cbn [listing all_pages]; unfold list_api_keys;
    destruct (page _ _ cursor limit) as [ks [c|]]; [done|done|by rewrite IH|done].
Qed.

(** C34: Following the cursors of the key listing of a tenant with [n] active
    keys ends after at most [n / limit] pages beyond the first, and shows each
    of the keys exactly once, none of another tenant and none revoked, for
    every positive page size, as long as the keys do not change in between.
    (The last page is empty when [limit] is less than [n] and divides it.) *)
Theorem pages_list_every_key_once tenant limit w :
  uuid_law -> (forall i k, au_keys w !! i = Some k -> ky_id k = i) -> 0 < limit ->
  exists ks, listing tenant limit (length ks / limit) None w = Some ks /\ NoDup ks /\
    forall k, k ∈ ks <-> ky_tenant_id k = Some tenant /\ ky_is_active k = true /\ exists i, au_keys w !! i = Some k.
Proof.
  intros Hlaw Hkeys Hlimit. set (ks := tenant_keys tenant (au_keys w)). exists ks.
  assert (NoDup ((fun k => uuid_str (ky_id k)) <$> ks)) as Hnd.
  { unfold ks, tenant_keys. rewrite sort_by_perm. unfold rows_where.
    apply (NoDup_fmap_rows _ ky_id (fun k => uuid_str (ky_id k))); [done|]. intros i j a b Ha Hb _ _ Heq.
    rewrite <- (Hkeys i a Ha), <- (Hkeys j b Hb). pose proof (proj2 (Hlaw (ky_id a))).
    pose proof (proj2 (Hlaw (ky_id b))). congruence. }
  split; [|split].
  - rewrite listing_pages. apply (pages_from _ ks limit _ [] ks); [done| |done|done|done|].
    + intros k. apply Hlaw.
    + pose proof (Nat.mul_succ_div_gt (length ks) limit). lia.
  - by apply NoDup_fmap_1 in Hnd.
  - intros k. unfold ks, tenant_keys. rewrite sort_by_perm, elem_of_rows_where, andb_true_iff, bool_decide_eq_true. tauto.
Qed.
End Listing.

(** ** Examples and shortfalls *)

#[local] Open Scope string_scope.

Section Examples.
#[local] Existing Instance unary_uuids.

Definition toy_hash (salt secret : string) : string := salt +:+ secret.
Definition toy_verify (secret hash : string) : bool := bool_decide (hash = "salt" +:+ secret).
Definition toy_fingerprint (secret : string) : string := secret.
Definition toy_config : AuthConfig :=
  {| cf_clerk_issuer := EmptyString; cf_clerk_jwks_url := "jwks"; cf_clerk_audiences := [];
     cf_mcp_clerk_audience := EmptyString; cf_mcp_clerk_client_secret := EmptyString |}.
Definition toy_header (token : string) : option obj := Some [("kid", JStr "k1")].
Definition toy_claims (token : string) : option obj :=
  Some [("sub", JStr "user_1"); ("org_id", JStr "org_1"); ("exp", JInt 100)].
Definition toy_signature (key : json) (message signature : string) : option bool :=
  Some (bool_decide (signature = "signed")).

Definition at_second (t : Z) : AuthMoment :=
  {| at_now := micros t; at_get := true; at_set := true; at_count := true;
     at_jwks := Some (JObj [("keys", JArr [JObj [("kid", JStr "k1")]])]); at_token_info := None;
     at_tenant_id := 5; at_next_month := micros 2000000 |}.
Definition call (header : string) : HttpCall :=
  {| ht_method := "GET"; ht_path := "/v1/memories"; ht_authorization := header; ht_mcp_client := EmptyString;
     ht_client_host := None |}.
Definition handled (t : Z) (header : string) (w : AuthWorld) : AuthWorld * (auth_exn + tenant_outcome) :=
  dispatch toy_config toy_verify toy_fingerprint toy_header toy_claims toy_signature (at_second t) (call header) w.

Definition empty_world : AuthWorld :=
  {| au_keys := ∅; au_tenants := ∅; au_quota := {| qs_budgets := ∅; qs_cache := Some ∅; qs_events := [] |};
     au_cached := ∅; au_orgs := ∅; au_failures := ∅; au_jwks := None |}.

(** Tenant 3 creates a key, uses it at second 1, and revokes it. *)
Definition example_key : ApiKey :=
  {| ky_id := 7; ky_tenant_id := Some 3%Z; ky_user_id := None; ky_key_hash := "saltmem_beef";
     ky_key_prefix := Some "mem_beef"; ky_name := "sdk"; ky_permissions := ["read"]; ky_rate_limit_per_minute := 60;
     ky_created_at := 0; ky_last_used_at := None; ky_is_active := true |}.
Definition created : AuthWorld :=
  (create_api_key toy_hash 0 7 "beef" "salt" 3 "sdk" ["read"] 60 empty_world).1.
Definition used : AuthWorld := (handled 1 "ApiKey mem_beef" created).1.
Definition revoked : AuthWorld := (revoke_api_key 3 7 used).1.

(** Revoking leaves the cached result: the key goes on authenticating. *)
Example revoked_key_still_authenticates :
  (handled 2 "ApiKey mem_beef" revoked).2 = inr (ByKey (auth_of_key example_key)) /\
  (handled 301 "ApiKey mem_beef" revoked).2 = inr (Unauthorized "AUTH_001").
Proof. vm_compute. done. Qed.

Abbreviation toy_step :=
  (auth_step toy_config toy_hash toy_verify toy_fingerprint toy_header toy_claims toy_signature).

Lemma empty_world_ok : auth_ok toy_verify toy_fingerprint empty_world.
Proof. by split; intros *; cbn; rewrite ?lookup_empty. Qed.

Lemma revoked_reachable : rtc toy_step empty_world revoked.
Proof.
  apply (rtc_l _ _ created).
  { eapply (step_create _ _ _ _ _ _ _ 0 7 "beef" "salt" 3 "sdk" ["read"] 60); [reflexivity|apply surjective_pairing]. }
  apply (rtc_l _ _ used).
  { eapply (step_request _ _ _ _ _ _ _ (at_second 1) (call "ApiKey mem_beef"));
      [vm_compute; reflexivity|apply surjective_pairing]. }
  apply rtc_once. eapply (step_revoke _ _ _ _ _ _ _ 3 7). apply surjective_pairing.
Qed.

Lemma requests_act_under_their_key_witness :
  exists secret i k,
    presents (call "ApiKey mem_beef") "apikey" secret /\ au_keys revoked !! i = Some k /\
    toy_verify secret (ky_key_hash k) = true /\ auth_of_key example_key = auth_of_key k.
Proof.
  destruct (requests_act_under_their_key toy_config toy_hash toy_verify toy_fingerprint toy_header toy_claims
              toy_signature empty_world revoked (at_second 2) (call "ApiKey mem_beef")
              (handled 2 "ApiKey mem_beef" revoked).1 (auth_of_key example_key))
    as (secret & i & k & Hp & Hk & Hv & Hauth & _).
  - exact unary_uuid_law.
  - intros a b Hab. exact Hab.
  - exact empty_world_ok.
  - exact revoked_reachable.
  - vm_compute. reflexivity.
  - rewrite <- (proj1 revoked_key_still_authenticates). apply surjective_pairing.
  - exact (ex_intro _ secret (ex_intro _ i (ex_intro _ k (conj Hp (conj Hk (conj Hv Hauth)))))).
Defined.

Lemma revoked_keys_stop_within_five_minutes_witness :
  (handled 301 "ApiKey mem_beef" revoked).2 <> inr (ByKey (auth_of_key example_key)).
Proof.
  intros Hpass.
  apply (revoked_keys_stop_within_five_minutes toy_config toy_hash toy_verify toy_fingerprint toy_header toy_claims
           toy_signature 3 7 (micros 1) "mem_beef" (example_key <| ky_last_used_at := Some (micros 1) |>)
           used revoked revoked (at_second 301) (call "ApiKey mem_beef")
           (handled 301 "ApiKey mem_beef" revoked).1 (auth_of_key example_key)).
  - exact unary_uuid_law.
  - intros a b Hab. exact Hab.
  - apply (auth_step_ok toy_config toy_hash toy_verify toy_fingerprint toy_header toy_claims toy_signature created);
      [exact unary_uuid_law| |].
    + eapply (step_request _ _ _ _ _ _ _ (at_second 1) (call "ApiKey mem_beef"));
        [vm_compute; reflexivity|apply surjective_pairing].
    + apply (auth_step_ok toy_config toy_hash toy_verify toy_fingerprint toy_header toy_claims toy_signature empty_world);
        [exact unary_uuid_law| |exact empty_world_ok].
      eapply (step_create _ _ _ _ _ _ _ 0 7 "beef" "salt" 3 "sdk" ["read"] 60); [reflexivity|apply surjective_pairing].
  - vm_compute. reflexivity.
  - assert (au_keys used = {[7%Z := example_key <| ky_last_used_at := Some (micros 1) |>]}) as -> by (vm_compute; reflexivity).
    intros j x [<- _]%lookup_singleton_Some Hne. by destruct Hne.
  - assert (au_cached used = {["mem_beef" := {| ex_value := cached_payload toy_fingerprint "mem_beef" (auth_of_key example_key);
                                                ex_at := Some (micros 301) |}]}) as -> by (vm_compute; reflexivity).
    intros c e [_ <-]%lookup_singleton_Some. exists (micros 301). split; [reflexivity|]. vm_compute. discriminate.
  - vm_compute. reflexivity.
  - apply rtc_refl.
  - vm_compute. reflexivity.
  - vm_compute. discriminate.
  - exists "ApiKey", "mem_beef". split; [vm_compute; reflexivity|]. split; vm_compute; reflexivity.
  - rewrite <- Hpass. apply surjective_pairing.
Defined.

(** A session opens the organisation's workspace. *)
Definition session : JwtAuthResult :=
  {| ja_user_id := Some "user_1"; ja_tenant_id := Some (unary_str 5); ja_email := None; ja_email_verified := false;
     ja_error := None; ja_error_code := None; ja_org_id := Some "org_1"; ja_org_role := None |}.

Lemma session_opens : (handled 3 "Bearer a.signed" created).2 = inr (Session session (Some (unary_str 5))).
Proof. vm_compute. reflexivity. Qed.

Lemma sessions_reach_only_their_tenant_witness :
  exists token claims,
    presents (call "Bearer a.signed") "bearer" token /\
    genuine toy_config toy_header toy_claims toy_signature (at_second 3) created token false claims.
Proof.
  destruct (sessions_reach_only_their_tenant toy_config toy_hash toy_verify toy_fingerprint toy_header toy_claims
              toy_signature created created (at_second 3) (call "Bearer a.signed")
              (handled 3 "Bearer a.signed" created).1 session (unary_str 5))
    as (token & claims & Hp & Hg & _).
  - exact unary_uuid_law.
  - apply (auth_step_ok toy_config toy_hash toy_verify toy_fingerprint toy_header toy_claims toy_signature empty_world);
      [exact unary_uuid_law| |exact empty_world_ok].
    eapply (step_create _ _ _ _ _ _ _ 0 7 "beef" "salt" 3 "sdk" ["read"] 60); [reflexivity|apply surjective_pairing].
  - apply rtc_refl.
  - vm_compute. reflexivity.
  - rewrite <- session_opens. apply surjective_pairing.
  - exists token, claims. exact (conj Hp Hg).
Defined.

(** Three keys in pages of two; and the listing starts over when the key that the
    cursor names is revoked between two pages. *)
Definition three_keys : AuthWorld :=
  (create_api_key toy_hash 3 9 "c" "salt" 3 "c" [] 60
    (create_api_key toy_hash 2 8 "b" "salt" 3 "b" [] 60 created).1).1.

Lemma pages_list_every_key_once_witness :
  (ky_id <$> tenant_keys 3 (au_keys three_keys)) = [9%Z; 8%Z; 7%Z] /\
  exists ks, listing 3 2 (length ks / 2) None three_keys = Some ks /\ NoDup ks /\
    forall k, k ∈ ks <-> ky_tenant_id k = Some 3%Z /\ ky_is_active k = true /\ exists i, au_keys three_keys !! i = Some k.
Proof.
  split; [vm_compute; reflexivity|]. apply (pages_list_every_key_once 3 2 three_keys unary_uuid_law); [|lia].
  assert (bool_decide (map_Forall (fun i k => ky_id k = i) (au_keys three_keys)) = true) as Hall by (vm_compute; reflexivity).
  apply bool_decide_eq_true in Hall. intros i k Hk. exact (Hall i k Hk).
Defined.

Example listing_starts_over :
  let '(first, next, _) := list_api_keys 3 None 2 three_keys in
  let '(second, _, _) := list_api_keys 3 next 2 (revoke_api_key 3 8 three_keys).1 in
  (ky_id <$> first) = [9%Z; 8%Z] /\ (ky_id <$> second) = [9%Z; 7%Z].
Proof. vm_compute. done. Qed.
End Examples.
