(* ===== verification/ProxyUsers.v ===== *)
(** * A tenant's users

    [api/services/proxy_user_service.py]: resolving an external user id, blocking
    and unblocking, and erasing a user's memories; with what these promise.

    SHA-256 is a parameter.  The rows that the database removes with a user
    (jobs, links) and the reference of an audit row to a removed user are left
    out. *)

From S2P Require Export RedisKeys VectorOutbox.

#[local] Open Scope string_scope.

Definition PROXY_USER_CACHE_TTL_SECONDS : Z := 600.

Record ProxyUser := {
  px_id : uuid;
  px_tenant_id : uuid;
  px_external_user_id : string;
  px_external_user_id_hash : string;
  px_created_at : datetime;
  px_last_active_at : datetime;
  px_memory_count : Z;
  px_metadata_json : obj;
  px_is_blocked : bool;
}.

Inductive AuditAction := updated | proxy_user_deleted.
Record AuditEntry := { ae_action : AuditAction; ae_old_value : obj; ae_new_value : obj; ae_metadata_json : obj }.

(** The users and their memories, the vector outbox, the audit log, and the
    cached users. *)
Record UserWorld := {
  ux_users : gmap uuid ProxyUser;
  ux_memories : gmap uuid Memory;
  ux_outbox : Outbox;
  ux_audit : list AuditEntry;
  ux_cache : gmap (uuid * string) (Expiring ProxyUser);
}.

Inductive proxy_exn :=
  | ProxyUserBlocked (tenant_id : uuid) (external_user_id_hash : string)
  | ProxyError (status_code : Z) (code : string).
Abbreviation UM := (M UserWorld proxy_exn).

Section Service.
Context `{PyLib}.
Variable sha256 : string -> string.

Definition hash_external_user_id (tenant_id : uuid) (external_user_id : string) : string :=
  sha256 (uuid_str tenant_id +:+ ":" +:+ external_user_id).

Definition has_hash (tenant_id : uuid) (h : string) (u : ProxyUser) : bool :=
  bool_decide (px_tenant_id u = tenant_id) && bool_decide (px_external_user_id_hash u = h).

(** [scalar_one_or_none]: the constraint [uq_proxy_users_tenant_hash] leaves one. *)
Definition _get_proxy_user_by_hash (tenant_id : uuid) (h : string) : UM (option ProxyUser) :=
  w ← get_st; mret (head (rows_where (has_hash tenant_id h) (ux_users w))).

Definition _require_proxy_user (tenant_id : uuid) (h : string) : UM ProxyUser :=
  u ← _get_proxy_user_by_hash tenant_id h; lift_opt (ProxyError 404 "PRX_404") u.

Definition _get_cached_proxy_user (now : datetime) (up : bool) (tenant_id : uuid) (h : string) : UM (option ProxyUser) :=
  w ← get_st; mret (if up then rget now (tenant_id, h) (ux_cache w) else None).

Definition _cache_proxy_user (now : datetime) (up : bool) (tenant_id : uuid) (h : string) (u : ProxyUser) : UM unit :=
  if up then modify_st (fun w => w <| ux_cache ::=
               rset (tenant_id, h) u (Some (now + PROXY_USER_CACHE_TTL_SECONDS * 1000000)%Z) |>)
  else mret tt.

Definition _invalidate_cache (up : bool) (tenant_id : uuid) (h : string) : UM unit :=
  if up then modify_st (fun w => w <| ux_cache ::= delete (tenant_id, h) |>) else mret tt.

Definition put_user (u : ProxyUser) : UM unit := modify_st (fun w => w <| ux_users ::= insert (px_id u) u |>).

(** The upsert; [id] is drawn. *)
Definition _upsert_proxy_user (now : datetime) (id tenant_id : uuid) (external_user_id h : string) (metadata : obj)
    : UM ProxyUser :=
  existing ← _get_proxy_user_by_hash tenant_id h;
  let u := match existing with
           | Some u => (if bool_decide (length metadata = 0%nat) then u else u <| px_metadata_json := metadata |>)
                         <| px_last_active_at := now |>
           | None => {| px_id := id; px_tenant_id := tenant_id; px_external_user_id := external_user_id;
                        px_external_user_id_hash := h; px_created_at := now; px_last_active_at := now;
                        px_memory_count := 0; px_metadata_json := metadata; px_is_blocked := false |}
           end in
  put_user u;;
  mret u.

Definition unless_blocked (tenant_id : uuid) (h : string) (u : ProxyUser) : UM ProxyUser :=
  if px_is_blocked u then raise_st (ProxyUserBlocked tenant_id h) else mret u.

Definition resolve (now : datetime) (up : bool) (id tenant_id : uuid) (external_user_id : string) (metadata : obj)
    : UM ProxyUser :=
  let h := hash_external_user_id tenant_id external_user_id in
  cached_proxy_user ← _get_cached_proxy_user now up tenant_id h;
  current ← match cached_proxy_user with
            | Some _ => _get_proxy_user_by_hash tenant_id h
            | None => mret None
            end;
  match current with
  | Some u => unless_blocked tenant_id h u
  | None =>
      proxy_user ← _upsert_proxy_user now id tenant_id external_user_id h metadata;
      _cache_proxy_user now up tenant_id h proxy_user;;
      unless_blocked tenant_id h proxy_user
  end.

Definition find_existing (tenant_id : uuid) (external_user_id : string) : UM (option ProxyUser) :=
  let h := hash_external_user_id tenant_id external_user_id in
  proxy_user ← _get_proxy_user_by_hash tenant_id h;
  match proxy_user with
  | None => mret None
  | Some u => u ← unless_blocked tenant_id h u; mret (Some u)
  end.

Definition blocked_entry (tenant_id : uuid) (old blocked : bool) (actor : obj) : AuditEntry :=
  {| ae_action := updated; ae_old_value := [("is_blocked", JBool old)]; ae_new_value := [("is_blocked", JBool blocked)];
     ae_metadata_json := [("tenant_id", JStr (uuid_str tenant_id)); ("entity", JStr "proxy_user");
                          ("operation", JStr (if blocked then "block" else "unblock")); ("actor", JObj actor)] |}.

(** [block] and [unblock]; [now] is the transaction's time. *)
Definition _set_blocked (now : datetime) (up : bool) (tenant_id : uuid) (external_user_id : string) (blocked : bool)
    (actor : obj) : UM bool :=
  proxy_user ← _get_proxy_user_by_hash tenant_id (hash_external_user_id tenant_id external_user_id);
  match proxy_user with
  | None => mret false
  | Some u =>
      (if bool_decide (px_is_blocked u = blocked) then mret tt
       else
         put_user (u <| px_is_blocked := blocked |> <| px_last_active_at := now |>);;
         modify_st (fun w => w <| ux_audit ::=
           fun l => (l ++ [blocked_entry tenant_id (px_is_blocked u) blocked actor])%list |>));;
      _invalidate_cache up tenant_id (px_external_user_id_hash u);;
      mret true
  end.

Record ProxyUserStats := { ps_memory_count : Z; ps_last_active_at : datetime; ps_created_at : datetime }.

Definition get_stats (tenant_id : uuid) (external_user_id : string) : UM ProxyUserStats :=
  u ← _require_proxy_user tenant_id (hash_external_user_id tenant_id external_user_id);
  mret {| ps_memory_count := px_memory_count u; ps_last_active_at := px_last_active_at u;
          ps_created_at := px_created_at u |}.

Definition belongs_to (id : uuid) (m : Memory) : bool := bool_decide (m_proxy_user_id m = id).

(** A delete row for every memory, with ids drawn in order. *)
Fixpoint enqueue_deletes (draws : nat -> uuid) (i : nat) (now : datetime) (ids : list uuid) (b : Outbox) : Outbox :=
  match ids with
  | [] => b
  | id :: ids => enqueue_deletes draws (S i) now ids
                   (enqueue_vector_delete (draws i) now id (Some [("memory_id", JStr (uuid_str id))]) b)
  end.

Definition erased_entry (u : ProxyUser) (n : nat) : AuditEntry :=
  {| ae_action := proxy_user_deleted;
     ae_old_value := [("memory_count", JInt (Z.of_nat n)); ("vector_count", JInt (Z.of_nat n))]; ae_new_value := [("deleted", JBool true)];
     ae_metadata_json := [("tenant_id", JStr (uuid_str (px_tenant_id u)));
                          ("external_user_id_hash", JStr (px_external_user_id_hash u))] |}.

Definition delete_all_memories (now : datetime) (up : bool) (draws : nat -> uuid) (tenant_id : uuid)
    (external_user_id : string) : UM nat :=
  proxy_user ← _require_proxy_user tenant_id (hash_external_user_id tenant_id external_user_id);
  w ← get_st;
  let memory_ids := m_id <$> rows_where (belongs_to (px_id proxy_user)) (ux_memories w) in
  modify_st (fun w => w
    <| ux_outbox ::= enqueue_deletes draws 0 now memory_ids |>
    <| ux_memories ::= filter (fun im => belongs_to (px_id proxy_user) im.2 = false) |>
    <| ux_audit ::= fun l => (l ++ [erased_entry proxy_user (length memory_ids)])%list |>
    <| ux_users ::= delete (px_id proxy_user) |>);;
  _invalidate_cache up tenant_id (px_external_user_id_hash proxy_user);;
  mret (length memory_ids).
End Service.
