(* ===== verification/ProxyUserTheorems.v ===== *)
(** * A tenant's users: theorems

    A blocked user stays out until someone unblocks or erases it; erasing leaves
    no memory of the user behind. *)

From S2P Require Export ProxyUsers.

Section Theorems.
Context `{PyLib}.
Variable sha256 : string -> string.

Abbreviation hash_of_user := (hash_external_user_id sha256).

(** One row for every tenant and hash. *)
Record users_ok (w : UserWorld) : Prop := {
  uo_keys : forall i u, ux_users w !! i = Some u -> px_id u = i;
  uo_unique : forall i j u v, ux_users w !! i = Some u -> ux_users w !! j = Some v ->
    px_tenant_id u = px_tenant_id v -> px_external_user_id_hash u = px_external_user_id_hash v -> i = j;
}.

(** The row of a tenant and hash, if any. *)
Definition row_of (tenant : uuid) (h : string) (w : UserWorld) : option ProxyUser :=
  head (rows_where (has_hash tenant h) (ux_users w)).

Lemma row_of_Some tenant h w u :
  users_ok w -> row_of tenant h w = Some u ->
  ux_users w !! px_id u = Some u /\ px_tenant_id u = tenant /\ px_external_user_id_hash u = h.
Proof.
  intros Hok Hu. apply head_Some_elem_of, elem_of_rows_where in Hu as [Hh [i Hi]].
  apply andb_prop in Hh as [Ht%bool_decide_eq_true Hh%bool_decide_eq_true].
  by rewrite (uo_keys w Hok i u Hi).
Qed.

Lemma row_of_None tenant h w i u :
  row_of tenant h w = None -> ux_users w !! i = Some u ->
  px_tenant_id u = tenant -> px_external_user_id_hash u = h -> False.
Proof.
  unfold row_of. intros Hn Hi Ht Hh. destruct (rows_where _ _) as [|x l] eqn:Hr; [|done].
  pose proof (no_row _ _ _ _ Hr Hi) as Hf. unfold has_hash in Hf. by rewrite !bool_decide_eq_true_2 in Hf.
Qed.

Lemma row_of_unique tenant h w i u :
  users_ok w -> ux_users w !! i = Some u -> px_tenant_id u = tenant -> px_external_user_id_hash u = h ->
  row_of tenant h w = Some u.
Proof.
  intros Hok Hi Ht Hh. destruct (row_of tenant h w) as [v|] eqn:Hv; [|by destruct (row_of_None tenant h w i u)].
  apply row_of_Some in Hv as (Hv & Htv & Hhv); [|done].
  assert (i = px_id v) as -> by (apply (uo_unique w Hok i (px_id v) u v); congruence). congruence.
Qed.

(** ** Writes of a row *)

Definition put (u : ProxyUser) (w : UserWorld) : UserWorld := w <| ux_users ::= insert (px_id u) u |>.

(** A row is replaced by one of the same tenant and hash, or is the first of its
    tenant and hash. *)
Definition fits (u : ProxyUser) (w : UserWorld) : Prop :=
  (exists v, ux_users w !! px_id u = Some v /\ px_tenant_id v = px_tenant_id u /\
             px_external_user_id_hash v = px_external_user_id_hash u) \/
  (ux_users w !! px_id u = None /\ row_of (px_tenant_id u) (px_external_user_id_hash u) w = None).

Lemma put_ok u w : users_ok w -> fits u w -> users_ok (put u w).
Proof.
  intros Hok Hfits. split; cbn.
  - intros i x [[<- <-]|[_ ?]]%lookup_insert_Some; [done|by apply (uo_keys w Hok)].
  - assert (forall j x, ux_users w !! j = Some x -> px_id u <> j -> px_tenant_id x = px_tenant_id u ->
              px_external_user_id_hash x = px_external_user_id_hash u -> False) as Hother.
    { intros j x Hx Hne Ht Hh. destruct Hfits as [(v & Hv & Htv & Hhv)|[_ Hnone]].
      - apply Hne. apply (uo_unique w Hok (px_id u) j v x); congruence.
      - by apply (row_of_None _ _ _ _ _ Hnone Hx). }
    intros i j x y [[<- <-]|[? Hi]]%lookup_insert_Some [[<- <-]|[? Hj]]%lookup_insert_Some Ht Hh; [done|..].
    + by destruct (Hother j y).
    + by destruct (Hother i x).
    + by apply (uo_unique w Hok i j x y).
Qed.

Lemma row_of_put u tenant h w :
  users_ok w -> fits u w -> row_of tenant h (put u w) = if has_hash tenant h u then Some u else row_of tenant h w.
Proof.
  intros Hok Hfits. pose proof (put_ok u w Hok Hfits) as Hok'. destruct (has_hash tenant h u) eqn:Hu.
  - apply andb_prop in Hu as [Ht%bool_decide_eq_true Hh%bool_decide_eq_true].
    apply (row_of_unique _ _ _ (px_id u)); [done|apply lookup_insert_eq|done|done].
  - destruct (row_of tenant h w) as [x|] eqn:Hx.
    + apply row_of_Some in Hx as (Hx & Ht & Hh); [|done]. apply (row_of_unique _ _ _ (px_id x)); [done| |done|done].
      cbn. rewrite lookup_insert_ne; [done|]. intros Heq. destruct Hfits as [(v & Hv & Htv & Hhv)|[Hv _]]; [|congruence].
      rewrite Heq, Hx in Hv. injection Hv as <-. unfold has_hash in Hu. by rewrite !bool_decide_eq_true_2 in Hu by congruence.
    + destruct (row_of tenant h (put u w)) as [y|] eqn:Hy; [|done].
      apply row_of_Some in Hy as (Hy & Ht & Hh); [|done]. cbn in Hy.
      apply lookup_insert_Some in Hy as [[_ <-]|[_ Hy]]; [|by destruct (row_of_None tenant h w _ y Hx Hy)].
      unfold has_hash in Hu. by rewrite !bool_decide_eq_true_2 in Hu.
Qed.

(** The rows are all that counts. *)
Lemma same_rows w w' : ux_users w' = ux_users w -> (users_ok w -> users_ok w') /\ forall t h, row_of t h w' = row_of t h w.
Proof. intros Heq. split; [|intros; unfold row_of; by rewrite Heq]. intros []. by split; rewrite Heq. Qed.

(** ** What each call does to the rows *)

(** How a call left the rows. *)
Inductive rows_after (w : UserWorld) (P : ProxyUser -> Prop) : UserWorld -> Prop :=
  | rows_kept w' : ux_users w' = ux_users w -> rows_after w P w'
  | rows_put u w' : fits u w -> P u -> ux_users w' = ux_users (put u w) -> rows_after w P w'.

Lemma rows_after_ok w P w' : users_ok w -> rows_after w P w' -> users_ok w'.
Proof.
  intros Hok [? Heq|u ? Hf _ Heq]; [by apply (same_rows w)|]. by apply (same_rows (put u w)), put_ok.
Qed.

Lemma cache_frame now up tenant h u w w' r :
  _cache_proxy_user now up tenant h u w = (w', r) -> ux_users w' = ux_users w /\ r = inr tt.
Proof. unfold _cache_proxy_user. destruct up; by intros [= <- <-]. Qed.

Lemma invalidate_frame up tenant h w w' r :
  _invalidate_cache up tenant h w = (w', r) -> ux_users w' = ux_users w /\ r = inr tt.
Proof. unfold _invalidate_cache. destruct up; by intros [= <- <-]. Qed.

Lemma unless_blocked_run tenant h u w :
  unless_blocked tenant h u w = (w, if px_is_blocked u then inl (ProxyUserBlocked tenant h) else inr u).
Proof. unfold unless_blocked. by destruct (px_is_blocked u). Qed.

(** [resolve] answers for the row after it: refused if blocked. *)
Lemma resolve_rows now up id tenant e metadata w w' r :
  users_ok w -> ux_users w !! id = None ->
  resolve sha256 now up id tenant e metadata w = (w', r) ->
  exists u, row_of tenant (hash_of_user tenant e) w' = Some u /\
    (match row_of tenant (hash_of_user tenant e) w with
     | Some v => px_id u = px_id v /\ px_is_blocked u = px_is_blocked v
     | None => px_is_blocked u = false
     end) /\
    rows_after w (fun u => px_tenant_id u = tenant /\ px_external_user_id_hash u = hash_of_user tenant e) w' /\
    r = if px_is_blocked u then inl (ProxyUserBlocked tenant (hash_of_user tenant e)) else inr u.
Proof.
  intros Hok Hfresh. set (h := hash_of_user tenant e). unfold resolve. fold h.
  unfold _get_cached_proxy_user. unfold mbind at 1, M_bind at 1. unfold mbind at 1, M_bind at 1. cbn [get_st mret M_ret].
  set (cached := if up then _ else None).
  assert (forall w1, ux_users w1 = ux_users w ->
    ((proxy_user ← _upsert_proxy_user now id tenant e h metadata;
      _cache_proxy_user now up tenant h proxy_user;; unless_blocked tenant h proxy_user) : UM ProxyUser) w = (w', r) ->
    exists u, row_of tenant h w' = Some u /\
      (match row_of tenant h w with
       | Some v => px_id u = px_id v /\ px_is_blocked u = px_is_blocked v
       | None => px_is_blocked u = false
       end) /\
      rows_after w (fun u => px_tenant_id u = tenant /\ px_external_user_id_hash u = h) w' /\
      r = if px_is_blocked u then inl (ProxyUserBlocked tenant h) else inr u) as Hupsert.
  { intros _ _. unfold _upsert_proxy_user, _get_proxy_user_by_hash.
    unfold mbind at 1, M_bind at 1. unfold mbind at 1, M_bind at 1. unfold mbind at 1, M_bind at 1. cbn [get_st mret M_ret].
    fold (row_of tenant h w). set (u := match row_of tenant h w with Some u => _ | None => _ end).
    assert (fits u w /\ px_tenant_id u = tenant /\ px_external_user_id_hash u = h /\
            match row_of tenant h w with
            | Some v => px_id u = px_id v /\ px_is_blocked u = px_is_blocked v
            | None => px_is_blocked u = false
            end) as (Hfits & Ht & Hh & Hb).
    { unfold u. destruct (row_of tenant h w) as [v|] eqn:Hv.
      - apply row_of_Some in Hv as (Hv & Htv & Hhv); [|done]. case_bool_decide; cbn; (split; [|done]); left; by exists v.
      - split; [by right|done]. }
    unfold put_user, mbind, M_bind, modify_st, mret, M_ret. fold (put u w).
    destruct (_cache_proxy_user now up tenant h u (put u w)) as [w2 r2] eqn:Hcache.
    apply cache_frame in Hcache as [Hw2 ->]. rewrite unless_blocked_run. intros [= <- <-]. exists u.
    split_and!; [|done| |done].
    - rewrite (proj2 (same_rows (put u w) w2 Hw2)), row_of_put by done. unfold has_hash.
      by rewrite !bool_decide_eq_true_2.
    - by apply (rows_put w _ u). }
  destruct cached as [c|]; [|by apply (Hupsert w)].
  unfold _get_proxy_user_by_hash. unfold mbind at 1, M_bind at 1. unfold mbind at 1, M_bind at 1. cbn [get_st mret M_ret].
  fold (row_of tenant h w). destruct (row_of tenant h w) as [v|] eqn:Hv; [|by apply (Hupsert w)].
  rewrite unless_blocked_run. intros [= <- <-]. exists v.
  split_and!; [done..| |done]. by apply rows_kept.
Qed.

Lemma set_blocked_rows now up tenant e blocked actor w w' r :
  users_ok w -> _set_blocked sha256 now up tenant e blocked actor w = (w', r) ->
  match row_of tenant (hash_of_user tenant e) w with
  | None => w' = w /\ r = inr false
  | Some u => r = inr true /\ exists v, row_of tenant (hash_of_user tenant e) w' = Some v /\ px_id v = px_id u /\
                px_is_blocked v = blocked /\
                rows_after w (fun u => px_tenant_id u = tenant /\ px_external_user_id_hash u = hash_of_user tenant e) w'
  end.
Proof.
  intros Hok. set (h := hash_of_user tenant e). unfold _set_blocked. fold h.
  unfold _get_proxy_user_by_hash. unfold mbind at 1, M_bind at 1. unfold mbind at 1, M_bind at 1. cbn [get_st mret M_ret].
  fold (row_of tenant h w). destruct (row_of tenant h w) as [u|] eqn:Hu; [|by intros [= <- <-]].
  pose proof (row_of_Some _ _ _ _ Hok Hu) as (Hin & Ht & Hh).
  unfold mbind, M_bind. case_bool_decide as Hsame.
  - cbn [mret M_ret].
    destruct (_invalidate_cache up tenant (px_external_user_id_hash u) w) as [w2 r2] eqn:Hinv.
    apply invalidate_frame in Hinv as [Hw2 ->]. intros [= <- <-]. split; [done|]. exists u.
    rewrite (proj2 (same_rows w w2 Hw2)). split_and!; [done..|]. by apply rows_kept.
  - set (v := u <| px_is_blocked := blocked |> <| px_last_active_at := now |>).
    assert (fits v w) as Hfits by (left; by exists u).
    unfold put_user, modify_st, mret, M_ret.
    match goal with |- context [_invalidate_cache up tenant ?x ?w1] =>
      destruct (_invalidate_cache up tenant x w1) as [w2 r2] eqn:Hinv end.
    apply invalidate_frame in Hinv as [Hw2 ->]. intros [= <- <-]. split; [done|]. exists v.
    change (ux_users w2 = ux_users (put v w)) in Hw2.
    rewrite (proj2 (same_rows (put v w) w2 Hw2)), row_of_put by done. unfold has_hash.
    rewrite !bool_decide_eq_true_2 by done. split_and!; [done..|]. by apply (rows_put w _ v).
Qed.

(** Another user's row is left alone. *)
Lemma rows_after_other w tenant h t' h' w' :
  users_ok w -> rows_after w (fun u => px_tenant_id u = tenant /\ px_external_user_id_hash u = h) w' ->
  (t', h') <> (tenant, h) -> row_of t' h' w' = row_of t' h' w.
Proof.
  intros Hok [? Heq|u ? Hf [Ht Hh] Heq] Hne; [by apply same_rows|].
  rewrite (proj2 (same_rows _ _ Heq)), row_of_put by done. unfold has_hash.
  destruct (bool_decide (px_tenant_id u = t')) eqn:H1, (bool_decide (px_external_user_id_hash u = h')) eqn:H2; try done.
  apply bool_decide_eq_true in H1, H2. congruence.
Qed.

Lemma removed_row w w' u :
  users_ok w -> ux_users w !! px_id u = Some u -> ux_users w' = delete (px_id u) (ux_users w) ->
  users_ok w' /\ forall t h, row_of t h w' = if has_hash t h u then None else row_of t h w.
Proof.
  intros Hok Hin Heq. assert (users_ok w') as Hok'.
  { split; rewrite Heq.
    - intros i x [_ ?]%lookup_delete_Some. by apply (uo_keys w Hok).
    - intros i j x y [_ ?]%lookup_delete_Some [_ ?]%lookup_delete_Some. by apply (uo_unique w Hok). }
  split; [done|]. intros t h. destruct (row_of t h w') as [x|] eqn:Hx.
  - apply row_of_Some in Hx as (Hx & Htx & Hhx); [|done]. rewrite Heq in Hx. apply lookup_delete_Some in Hx as [Hne Hx].
    rewrite (row_of_unique t h w (px_id x) x) by done.
    destruct (has_hash t h u) eqn:Hu; [|done]. exfalso. apply Hne.
    apply andb_prop in Hu as [Hut%bool_decide_eq_true Huh%bool_decide_eq_true].
    apply (uo_unique w Hok (px_id u) (px_id x) u x); congruence.
  - destruct (has_hash t h u) eqn:Hu; [done|]. destruct (row_of t h w) as [y|] eqn:Hy; [|done].
    apply row_of_Some in Hy as (Hy & Hty & Hhy); [|done]. exfalso.
    apply (row_of_None t h w' (px_id y) y Hx); [|done|done]. rewrite Heq. apply lookup_delete_Some. split; [|done].
    intros Hid. rewrite Hid, Hy in Hin. injection Hin as ->. unfold has_hash in Hu. by rewrite !bool_decide_eq_true_2 in Hu.
Qed.

(** What erasing writes. *)
Definition erased (now : datetime) (draws : nat -> uuid) (u : ProxyUser) (w : UserWorld) : UserWorld :=
  let ids := m_id <$> rows_where (belongs_to (px_id u)) (ux_memories w) in
  w <| ux_outbox ::= enqueue_deletes draws 0 now ids |>
    <| ux_memories ::= filter (fun im => belongs_to (px_id u) im.2 = false) |>
    <| ux_audit ::= fun l => (l ++ [erased_entry u (length ids)])%list |>
    <| ux_users ::= delete (px_id u) |>.

Lemma erase_run now up draws tenant e w w' r :
  delete_all_memories sha256 now up draws tenant e w = (w', r) ->
  match row_of tenant (hash_of_user tenant e) w with
  | None => w' = w /\ r = inl (ProxyError 404 "PRX_404")
  | Some u =>
      r = inr (length (rows_where (belongs_to (px_id u)) (ux_memories w))) /\
      w' = if up then erased now draws u w <| ux_cache ::= delete (tenant, px_external_user_id_hash u) |>
           else erased now draws u w
  end.
Proof.
  set (h := hash_of_user tenant e). unfold delete_all_memories, _require_proxy_user, _get_proxy_user_by_hash. fold h.
  unfold mbind, M_bind, get_st, mret, M_ret. fold (row_of tenant h w).
  destruct (row_of tenant h w) as [u|]; cbn [lift_opt raise_st]; [|by intros [= <- <-]].
  unfold mret, M_ret, modify_st. fold (erased now draws u w). unfold _invalidate_cache.
  destruct up; intros [= <- <-]; (split; [by rewrite length_fmap|done]).
Qed.

(** ** Blocked users *)

(** Calls for any user of any tenant, short of unblocking or erasing this one. *)
Inductive meanwhile (tenant : uuid) (h : string) : UserWorld -> UserWorld -> Prop :=
  | mw_resolve now up id t e metadata w w' r :
      ux_users w !! id = None -> resolve sha256 now up id t e metadata w = (w', r) -> meanwhile tenant h w w'
  | mw_block now up t e actor w w' r :
      _set_blocked sha256 now up t e true actor w = (w', r) -> meanwhile tenant h w w'
  | mw_unblock now up t e actor w w' r :
      (t, hash_of_user t e) <> (tenant, h) -> _set_blocked sha256 now up t e false actor w = (w', r) ->
      meanwhile tenant h w w'
  | mw_erase now up draws t e w w' r :
      (t, hash_of_user t e) <> (tenant, h) -> delete_all_memories sha256 now up draws t e w = (w', r) ->
      meanwhile tenant h w w'.

Definition blocked_row (tenant : uuid) (h : string) (w : UserWorld) : Prop :=
  users_ok w /\ exists u, row_of tenant h w = Some u /\ px_is_blocked u = true.

Lemma meanwhile_blocked tenant h w w' : meanwhile tenant h w w' -> blocked_row tenant h w -> blocked_row tenant h w'.
Proof.
  intros Hstep [Hok (u & Hu & Hb)]. destruct Hstep as [now up id t e md w w' r Hfresh Hrun|now up t e actor w w' r Hrun|
    now up t e actor w w' r Hne Hrun|now up draws t e w w' r Hne Hrun].
  - apply resolve_rows in Hrun as (v & Hv & Hkept & Hrows & _); [|done..].
    split; [by apply (rows_after_ok w _ w' Hok Hrows)|].
    destruct (decide ((tenant, h) = (t, hash_of_user t e))) as [[= -> ->]|Hne].
    + exists v. split; [done|]. rewrite Hu in Hkept. by destruct Hkept as [_ ->].
    + exists u. by rewrite (rows_after_other w _ _ _ _ w' Hok Hrows Hne).
  - apply set_blocked_rows in Hrun; [|done]. destruct (row_of t (hash_of_user t e) w) as [x|]; [|by destruct Hrun as [-> _]; split; [|exists u]].
    destruct Hrun as (_ & v & Hv & _ & Hbv & Hrows). split; [by apply (rows_after_ok w _ w' Hok Hrows)|].
    destruct (decide ((tenant, h) = (t, hash_of_user t e))) as [[= -> ->]|Hne]; [by exists v|].
    exists u. by rewrite (rows_after_other w _ _ _ _ w' Hok Hrows Hne).
  - apply set_blocked_rows in Hrun; [|done]. destruct (row_of t (hash_of_user t e) w) as [x|]; [|by destruct Hrun as [-> _]; split; [|exists u]].
    destruct Hrun as (_ & v & _ & _ & _ & Hrows). split; [by apply (rows_after_ok w _ w' Hok Hrows)|].
    exists u. by rewrite (rows_after_other w _ _ _ _ w' Hok Hrows) by congruence.
  - apply erase_run in Hrun. destruct (row_of t (hash_of_user t e) w) as [x|] eqn:Hx;
      [|by destruct Hrun as [-> _]; split; [|exists u]].
    apply row_of_Some in Hx as (Hx & Ht & Hh); [|done]. destruct Hrun as [_ ->].
    assert (forall w2, ux_users w2 = delete (px_id x) (ux_users w) -> blocked_row tenant h w2) as Hdel.
    { intros w2 Heq. destruct (removed_row w w2 x Hok Hx Heq) as [Hok2 Hrow2]. split; [done|]. exists u.
      rewrite Hrow2. unfold has_hash. destruct (bool_decide (px_tenant_id x = tenant)) eqn:H1,
        (bool_decide (px_external_user_id_hash x = h)) eqn:H2; try done.
      apply bool_decide_eq_true in H1, H2. congruence. }
    destruct up; by apply Hdel.
Qed.

(** C22: Once a user is blocked, every attempt to act as it is refused, whatever
    the cache holds and whether Redis answers, and whatever calls for this and
    other users come in between, until someone unblocks or erases it. *)
Theorem blocked_users_stay_out now up tenant e actor w w1 w2 :
  users_ok w -> _set_blocked sha256 now up tenant e true actor w = (w1, inr true) ->
  rtc (meanwhile tenant (hash_of_user tenant e)) w1 w2 ->
  (forall now' up' id metadata, ux_users w2 !! id = None ->
     (resolve sha256 now' up' id tenant e metadata w2).2 =
       inl (ProxyUserBlocked tenant (hash_of_user tenant e))) /\
  (find_existing sha256 tenant e w2).2 = inl (ProxyUserBlocked tenant (hash_of_user tenant e)).
Proof.
  intros Hok Hblock Hrest. set (h := hash_of_user tenant e) in *.
  assert (blocked_row tenant h w1) as Hb1.
  { apply set_blocked_rows in Hblock; [|done]. fold h in Hblock. destruct (row_of tenant h w) as [u|]; [|by destruct Hblock].
    destruct Hblock as (_ & v & Hv & _ & Hbv & Hrows). split; [by apply (rows_after_ok w _ w1 Hok Hrows)|by exists v]. }
  assert (blocked_row tenant h w2) as [Hok2 (u & Hu & Hbu)].
  { clear -Hrest Hb1. induction Hrest as [|x y z Hxy _ IH]; [done|]. apply IH. by apply (meanwhile_blocked tenant h x). }
  split.
  - intros now' up' id metadata Hfresh.
    destruct (resolve sha256 now' up' id tenant e metadata w2) as [w3 r] eqn:Hrun.
    apply resolve_rows in Hrun as (v & _ & Hkept & _ & ->); [|done..]. fold h in Hkept. rewrite Hu in Hkept.
    destruct Hkept as [_ Hbv]. by rewrite Hbv, Hbu.
  - unfold find_existing, _get_proxy_user_by_hash. fold h. unfold mbind, M_bind, get_st, mret, M_ret.
    fold (row_of tenant h w2). rewrite Hu, unless_blocked_run, Hbu. done.
Qed.

(** ** Erasure *)

(** A delete row for the memory's vector. *)
Definition deletes_vector (id : uuid) (r : VectorSyncOutbox) : Prop :=
  o_operation r = VectorSyncOperation.delete /\ o_memory_id r = id /\
  o_payload r = [("memory_id"%string, JStr (uuid_str id))].

Lemma enqueued_before draws i now ids b j :
  (forall k, (i <= k)%nat -> draws k <> j) -> enqueue_deletes draws i now ids b !! j = b !! j.
Proof.
  revert i b. induction ids as [|id ids IH]; intros i b Hj; [done|]. cbn [enqueue_deletes].
  rewrite IH by (intros; apply Hj; lia). unfold enqueue_vector_delete. rewrite lookup_insert_ne; [done|]. apply Hj. lia.
Qed.

Lemma enqueued_all draws i now ids b id :
  (forall j k, draws j = draws k -> j = k) -> id ∈ ids ->
  exists j r, enqueue_deletes draws i now ids b !! j = Some r /\ deletes_vector id r.
Proof.
  intros Hinj. revert i b. induction ids as [|x ids IH]; intros i b; [by intros ?%elem_of_nil|].
  intros [->|Hin]%elem_of_cons; [|by apply IH]. cbn [enqueue_deletes]. exists (draws i).
  rewrite enqueued_before by (intros k Hk ->%Hinj; lia). eexists. split; [apply lookup_insert_eq|done].
Qed.

(** C33: Erasing a user removes its row and every memory of it, queues the
    deletion of each memory's vector, writes one audit entry, reports how many
    memories there were, and leaves every other user and memory as it was; the
    user is not found afterwards. *)
Theorem erased_users_leave_nothing now up draws tenant e w w' n :
  users_ok w -> (forall j k, draws j = draws k -> j = k) -> (forall i m, ux_memories w !! i = Some m -> m_id m = i) ->
  delete_all_memories sha256 now up draws tenant e w = (w', inr n) ->
  exists u, row_of tenant (hash_of_user tenant e) w = Some u /\ users_ok w' /\
    ux_users w' = delete (px_id u) (ux_users w) /\
    n = length (rows_where (belongs_to (px_id u)) (ux_memories w)) /\
    (forall i m, ux_memories w' !! i = Some m <-> ux_memories w !! i = Some m /\ m_proxy_user_id m <> px_id u) /\
    (forall i m, ux_memories w !! i = Some m -> m_proxy_user_id m = px_id u ->
       exists j r, ux_outbox w' !! j = Some r /\ deletes_vector i r) /\
    ux_audit w' = (ux_audit w ++ [erased_entry u n])%list /\
    (find_existing sha256 tenant e w').2 = inr None.
Proof.
  intros Hok Hinj Hkeys Hrun. apply erase_run in Hrun. set (h := hash_of_user tenant e) in *.
  destruct (row_of tenant h w) as [u|] eqn:Hu; [|by destruct Hrun]. destruct Hrun as [[= ->] Hw'].
  exists u. apply row_of_Some in Hu as (Hin & Ht & Hh); [|done].
  assert (ux_users w' = delete (px_id u) (ux_users w) /\
          ux_memories w' = filter (fun im => belongs_to (px_id u) im.2 = false) (ux_memories w) /\
          ux_outbox w' = ux_outbox (erased now draws u w) /\ ux_audit w' = ux_audit (erased now draws u w))
    as (Hus & Hms & Hob & Hau) by (rewrite Hw'; by destruct up).
  destruct (removed_row w w' u Hok Hin Hus) as [Hok' Hrow']. split_and!; [done|done|done|done| | | |].
  - intros i m. rewrite Hms, map_lookup_filter_Some. unfold belongs_to. cbn. rewrite bool_decide_eq_false. tauto.
  - intros i m Hi Hm. rewrite Hob. apply enqueued_all; [done|]. rewrite <- (Hkeys i m Hi).
    apply list_elem_of_fmap. exists m. split; [done|]. apply elem_of_rows_where. split; [|by exists i].
    unfold belongs_to. by rewrite bool_decide_eq_true_2.
  - rewrite Hau. unfold erased. cbn. by rewrite length_fmap.
  - unfold find_existing, _get_proxy_user_by_hash. fold h. unfold mbind, M_bind, get_st, mret, M_ret.
    fold (row_of tenant h w'). rewrite Hrow'. unfold has_hash. by rewrite !bool_decide_eq_true_2.
Qed.
End Theorems.

(** ** Examples and shortfalls *)

Section Examples.
#[local] Existing Instance unary_uuids.
#[local] Open Scope string_scope.

Definition toy_sha (s : string) : string := "#" +:+ s.

Definition no_users : UserWorld := {| ux_users := ∅; ux_memories := ∅; ux_outbox := ∅; ux_audit := []; ux_cache := ∅ |}.
Definition known : UserWorld := (resolve toy_sha 1 true 20 3 "ext" [("tier", JStr "gold")] no_users).1.

Definition memory_of (id user : uuid) : Memory :=
  {| m_id := id; m_user_id := 1; m_proxy_user_id := user; m_agent_id := None; m_content := "Prefers tea";
     m_category := MemoryCategory.preference; m_importance_score := 5; m_confidence_score := 9 # 10;
     m_embedding_model_id := "model"; m_created_at := 0; m_updated_at := 0; m_last_accessed_at := None;
     m_access_count := 0; m_expires_at := None; m_effective_from := None; m_effective_until := None;
     m_previous_version_id := None; m_source_event_id := None; m_metadata_json := []; m_is_archived := false |}.

(** The user has memories 50 and 51, another user 52. *)
Definition remembered : UserWorld :=
  known <| ux_memories := <[50%Z := memory_of 50 20]> (<[51%Z := memory_of 51 20]> {[52%Z := memory_of 52 21]}) |>.

Lemma remembered_ok : users_ok remembered.
Proof.
  assert (ux_users remembered = {[20%Z := {| px_id := 20; px_tenant_id := 3; px_external_user_id := "ext";
    px_external_user_id_hash := hash_external_user_id toy_sha 3 "ext"; px_created_at := 1; px_last_active_at := 1;
    px_memory_count := 0; px_metadata_json := [("tier", JStr "gold")]; px_is_blocked := false |}]}) as Hu
    by (vm_compute; reflexivity).
  split; rewrite Hu; [by intros i u [<- <-]%lookup_singleton_Some|].
  by intros i j u v [<- _]%lookup_singleton_Some [<- _]%lookup_singleton_Some.
Qed.

Definition blocked_now : UserWorld := (_set_blocked toy_sha 2 false 3 "ext" true [] remembered).1.
(** Redis failed when the user was blocked, so the unblocked user stays cached; a
    resolution meets it. *)
Definition asked_again : UserWorld := (resolve toy_sha 3 true 30 3 "ext" [] blocked_now).1.

Lemma blocked_users_stay_out_witness :
  (resolve toy_sha 4 true 31 3 "ext" [] asked_again).2 = inl (ProxyUserBlocked 3 (hash_external_user_id toy_sha 3 "ext")) /\
  (find_existing toy_sha 3 "ext" asked_again).2 = inl (ProxyUserBlocked 3 (hash_external_user_id toy_sha 3 "ext")).
Proof.
  destruct (blocked_users_stay_out toy_sha 2 false 3 "ext" [] remembered blocked_now asked_again) as [Hresolve Hfind].
  - exact remembered_ok.
  - assert ((_set_blocked toy_sha 2 false 3 "ext" true [] remembered).2 = inr true) as Hr by (vm_compute; reflexivity).
    rewrite <- Hr. apply surjective_pairing.
  - apply rtc_once. eapply (mw_resolve _ _ _ 3 true 30 3 "ext" []); [vm_compute; reflexivity|apply surjective_pairing].
  - split; [|exact Hfind]. apply Hresolve. vm_compute. reflexivity.
Defined.

Definition after_erasure : UserWorld := (delete_all_memories toy_sha 9 true (fun j => Z.of_nat j) 3 "ext" remembered).1.

Lemma erased_users_leave_nothing_witness :
  exists u, row_of 3 (hash_external_user_id toy_sha 3 "ext") remembered = Some u /\
    (forall i m, ux_memories after_erasure !! i = Some m <-> ux_memories remembered !! i = Some m /\ m_proxy_user_id m <> px_id u) /\
    2%nat = length (rows_where (belongs_to (px_id u)) (ux_memories remembered)) /\
    (find_existing toy_sha 3 "ext" after_erasure).2 = inr None.
Proof.
  destruct (erased_users_leave_nothing toy_sha 9 true (fun j => Z.of_nat j) 3 "ext" remembered after_erasure 2)
    as (u & Hu & _ & _ & Hn & Hms & _ & _ & Hfind).
  - exact remembered_ok.
  - intros j k Hjk. lia.
  - assert (bool_decide (map_Forall (fun i m => m_id m = i) (ux_memories remembered)) = true) as Hall by (vm_compute; reflexivity).
    apply bool_decide_eq_true in Hall. intros i m Hm. exact (Hall i m Hm).
  - assert ((delete_all_memories toy_sha 9 true (fun j => Z.of_nat j) 3 "ext" remembered).2 = inr 2%nat) as Hr
      by (vm_compute; reflexivity).
    rewrite <- Hr. apply surjective_pairing.
  - exists u. exact (conj Hu (conj Hms (conj Hn Hfind))).
Defined.

(** The block is a column of the erased row: the next resolution creates the user
    anew, and lets it in. *)
Example erasing_lifts_the_block :
  let w := (delete_all_memories toy_sha 9 true (fun j => Z.of_nat j) 3 "ext" blocked_now).1 in
  match (resolve toy_sha 10 true 40 3 "ext" [] w).2 with
  | inr u => px_id u = 40%Z /\ px_is_blocked u = false
  | inl _ => False
  end.
Proof. vm_compute. done. Qed.

(** While the user is cached, metadata sent along and the time of activity are
    not stored. *)
Example metadata_is_dropped_while_cached :
  let later := resolve toy_sha 2 true 30 3 "ext" [("tier", JStr "silver")] known in
  match later.2 with
  | inr u => px_metadata_json u = [("tier", JStr "gold")] /\ px_last_active_at u = 1%Z
  | inl _ => False
  end.
Proof. vm_compute. done. Qed.
End Examples.
