(* ===== verification/Billing.v ===== *)
(** * Billing

    Subscriptions and the plans they carry:
    [api/services/razorpay_billing_service.py], the checkout handlers of
    [api/routers/billing.py] and the webhook of
    [api/routers/razorpay_webhooks.py].

    HMAC, SHA-256, the JSON decoder, the environment and the provider's answers
    are inputs.  A request runs in a transaction: what it wrote is lost when it
    raises. *)

From S2P Require Export Quota.

#[local] Open Scope string_scope.

Definition MAX_WEBHOOK_BYTES : nat := 1048576.
Definition ACTIVATION_EVENTS : list string := ["subscription.activated"; "subscription.charged"].
Definition TERMINAL_EVENTS : list string :=
  ["subscription.cancelled"; "subscription.completed"; "subscription.expired"; "subscription.halted"].
Definition CURRENT_SUBSCRIPTION_STATUSES : list string := ["authenticated"; "active"].
Definition PAID_PLAN_NAMES : list string := ["starter"; "growth"; "scale"].

Record BillingSubscription := {
  bs_id : uuid;
  bs_tenant_id : uuid;
  bs_provider_subscription_id : string;
  bs_provider_customer_id : option string;
  bs_plan_tier : PlanTier.t;
  bs_billing_interval : string;
  bs_currency : string;
  bs_status : string;
  bs_checkout_url : option string;
  bs_current_start : option datetime;
  bs_current_end : option datetime;
  bs_cancel_at_period_end : bool;
  bs_created_at : datetime;
}.

Record BillingWebhookEvent := {
  we_event_type : string; we_payload_sha256 : string; we_processed_at : option datetime }.

(** The subscriptions, the events by the provider's id, the tenants' plans, and
    the budgets with their cache. *)
Record BillingWorld := {
  bw_subscriptions : gmap uuid BillingSubscription;
  bw_events : gmap string BillingWebhookEvent;
  bw_plans : gmap uuid PlanTier.t;
  bw_quota : QuotaState;
}.

Inductive billing_exn :=
  | BillingError (status_code : Z) (error : string)
  | Unhandled.
Abbreviation BM := (M BillingWorld billing_exn).

(** The session is rolled back when the request raises. *)
Definition transaction {A} (m : BM A) : BM A :=
  fun w => match m w with (_, inl e) => (w, inl e) | r => r end.

Section Billing.
Context `{PyLib}.
Variable getenv : string -> string.
Variable hmac_sha256 : string -> string -> string.
Variable sha256 : string -> string.
Variable json_loads : string -> option json.

(** ** The provider *)

Definition configured_plan_id (plan_tier billing_interval currency : string) : BM string :=
  if negb (bool_decide (plan_tier ∈ PAID_PLAN_NAMES)) then raise_st (BillingError 422 "paid_plan_required") else
  let value := py_strip (getenv ("RAZORPAY_PLAN_" +:+ py_upper plan_tier +:+ "_" +:+ py_upper billing_interval
                                   +:+ "_" +:+ py_upper currency)) in
  if bool_decide (value = EmptyString) then raise_st (BillingError 503 "billing_plan_not_configured") else mret value.

Definition public_key_id : BM string :=
  let value := py_strip (getenv "RAZORPAY_KEY_ID") in
  if bool_decide (value = EmptyString) then raise_st (BillingError 503 "billing_provider_not_configured")
  else mret value.

Definition _provider_credentials : BM (string * string) :=
  key_id ← public_key_id;
  let key_secret := py_strip (getenv "RAZORPAY_KEY_SECRET") in
  if bool_decide (key_secret = EmptyString) then raise_st (BillingError 503 "billing_provider_not_configured")
  else mret (key_id, key_secret).

(** [response]: the status and body of the provider's answer; [None]: none came. *)
Definition create_subscription (response : option (Z * option json)) (plan_tier billing_interval currency : string)
    : BM obj :=
  _provider_credentials;;
  configured_plan_id plan_tier billing_interval currency;;
  match response with
  | None => raise_st (BillingError 502 "billing_provider_unavailable")
  | Some (status_code, body) =>
      if negb ((status_code =? 200)%Z || (status_code =? 201)%Z)
      then raise_st (BillingError 502 "subscription_creation_failed")
      else match body with
           | Some (JObj payload) =>
               if negb (truthy (jget_or_null "id" payload)) || negb (truthy (jget_or_null "short_url" payload))
               then raise_st (BillingError 502 "invalid_billing_provider_response") else mret payload
           | _ => raise_st Unhandled
           end
  end.

Definition verify_webhook_signature (raw_body : string) (signature : option string) : BM unit :=
  let secret := py_strip (getenv "RAZORPAY_WEBHOOK_SECRET") in
  if bool_decide (secret = EmptyString) then raise_st (BillingError 503 "billing_webhook_not_configured") else
  match signature with
  | None | Some EmptyString => raise_st (BillingError 401 "missing_webhook_signature")
  | Some s => if bool_decide (hmac_sha256 secret raw_body = s) then mret tt
              else raise_st (BillingError 401 "invalid_webhook_signature")
  end.

Definition verify_checkout_signature (payment_id subscription_id signature : string) : BM unit :=
  credentials ← _provider_credentials;
  if bool_decide (signature = EmptyString)
     || negb (bool_decide (hmac_sha256 credentials.2 (payment_id +:+ "|" +:+ subscription_id) = signature))
  then raise_st (BillingError 401 "invalid_checkout_signature") else mret tt.

Definition webhook_event_id (raw_body : string) (header_value : option string) : string :=
  let given := py_strip (default EmptyString header_value) in
  if bool_decide (given = EmptyString) then sha256 raw_body else given.

(** [datetime.fromtimestamp], in microseconds: [None], a moment past the year
    9999, raises. *)
Definition MAX_DATETIME : datetime := 253402300799999999.
Definition from_microseconds (us : Z) : option datetime := if (us <=? MAX_DATETIME)%Z then Some us else None.

Definition unix_timestamp (value : json) : option (option datetime) :=
  match value with
  | JInt z => if (z <=? 0)%Z then Some None else Some <$> from_microseconds (z * 1000000)
  | JBool true => Some <$> from_microseconds 1000000
  | JFloat q => if q <=?q 0 then Some None else Some <$> from_microseconds (round_half_even (q * inject_Z 1000000))
  | _ => Some None
  end.

(** ** Plans *)

(** [get_limits] and the plan's name, set on the tenant's budget. *)
Definition limits_set (tier : PlanTier.t) (b : TenantBudget) : TenantBudget :=
  let pl := PLAN_LIMITS tier in
  b <| b_plan_tier := tier |>
    <| b_monthly_call_limit := pl_monthly_call_limit pl |>
    <| b_monthly_token_limit := pl_monthly_token_limit pl |>
    <| b_write_call_limit := pl_write_call_limit pl |>
    <| b_read_limit := pl_read_limit pl |>
    <| b_rate_limit_per_user_per_minute := default (b_rate_limit_per_user_per_minute b)
                                             (pl_rate_limit_per_user_per_minute pl) |>
    <| b_overage_policy := pl_overage_policy pl |>
    <| b_alert_threshold_pct := pl_alert_threshold_pct pl |>.

(** The two updates; a plan without a rate limit breaks the column's constraint. *)
Definition set_plan (tenant_id : uuid) (tier : PlanTier.t) : BM unit :=
  w ← get_st;
  match qs_budgets (bw_quota w) !! tenant_id, pl_rate_limit_per_user_per_minute (PLAN_LIMITS tier) with
  | Some _, None => raise_st Unhandled
  | _, _ =>
      modify_st (fun w => w
        <| bw_quota ::= fun q => q <| qs_budgets ::= alter (limits_set tier) tenant_id |> |>
        <| bw_plans ::= alter (fun _ => tier) tenant_id |>)
  end.

(** ** Webhooks *)

(** [(o.get(k) or {})] where [.get] is called on it next; [None] raises. *)
Definition sub_object (k : string) (o : obj) : option obj :=
  let v := jget_or_null k o in
  if truthy v then match v with JObj o => Some o | _ => None end else Some [].

Definition put_subscription (s : BillingSubscription) : BM unit :=
  modify_st (fun w => w <| bw_subscriptions ::= insert (bs_id s) s |>).

Definition provider_is (provider_id : string) (s : BillingSubscription) : bool :=
  bool_decide (bs_provider_subscription_id s = provider_id).

(** A later subscription of the tenant is current. *)
Definition superseded (s : BillingSubscription) (all : gmap uuid BillingSubscription) : bool :=
  negb (bool_decide (length (rows_where (fun o =>
    bool_decide (bs_tenant_id o = bs_tenant_id s) && negb (bool_decide (bs_id o = bs_id s))
    && bool_decide (bs_status o ∈ CURRENT_SUBSCRIPTION_STATUSES) && (bs_created_at s <? bs_created_at o)%Z) all) = 0%nat)).

Definition reported (s : BillingSubscription) (entity : obj) : option BillingSubscription :=
  let text k old := let v := str_or_empty (jget_or_null k entity) in if bool_decide (v = EmptyString) then old else v in
  current_start ← unix_timestamp (jget_or_null "current_start" entity);
  current_end ← unix_timestamp (jget_or_null "current_end" entity);
  Some (s <| bs_status := text "status" (bs_status s) |>
    <| bs_provider_customer_id := let v := str_or_empty (jget_or_null "customer_id" entity) in
                                  if bool_decide (v = EmptyString) then bs_provider_customer_id s else Some v |>
    <| bs_current_start := current_start |>
    <| bs_current_end := current_end |>
    <| bs_cancel_at_period_end := truthy (jget_or_null "has_scheduled_changes" entity) |>).

Definition plan_event (event_type : string) : bool :=
  bool_decide (event_type ∈ ACTIVATION_EVENTS) || bool_decide (event_type ∈ TERMINAL_EVENTS).

(** What an event does to the plan of its subscription's tenant. *)
Definition apply_event (event_type : string) (s : BillingSubscription) : BM unit :=
  w ← get_st;
  if superseded s (bw_subscriptions w) then mret tt
  else if bool_decide (event_type ∈ ACTIVATION_EVENTS) then set_plan (bs_tenant_id s) (bs_plan_tier s)
  else if bool_decide (event_type ∈ TERMINAL_EVENTS) then set_plan (bs_tenant_id s) PlanTier.free
  else mret tt.

Definition process_event (now : datetime) (raw_body event_id event_type : string) (payload : obj) : BM unit :=
  entity ← lift_opt Unhandled (p ← sub_object "payload" payload; s ← sub_object "subscription" p; sub_object "entity" s);
  let provider_subscription_id := py_strip (str_or_empty (jget_or_null "id" entity)) in
  w ← get_st;
  match (if bool_decide (provider_subscription_id = EmptyString) then []
         else rows_where (provider_is provider_subscription_id) (bw_subscriptions w)) with
  | [s] =>
      expected_plan_id ← configured_plan_id (PlanTier.value (bs_plan_tier s)) (bs_billing_interval s) (bs_currency s);
      if negb (bool_decide (jget_or_null "plan_id" entity = JStr expected_plan_id))
      then raise_st (BillingError 409 "provider_plan_mismatch") else
      s ← lift_opt Unhandled (reported s entity);
      put_subscription s;;
      apply_event event_type s;;
      modify_st (fun w => w <| bw_events ::= insert event_id
        {| we_event_type := if bool_decide (event_type = EmptyString) then "unknown" else event_type;
           we_payload_sha256 := sha256 raw_body; we_processed_at := Some now |} |>);;
      (if plan_event event_type
       then modify_st (fun w => w <| bw_quota ::= fun q => q <| qs_cache ::= fmap (delete (bs_tenant_id s)) |> |>)
       else mret tt)
  | [] => raise_st (BillingError 503 "subscription_not_ready")
  | _ => raise_st Unhandled
  end.

(** [raced]: another request stores the event between the lookup and the insert. *)
Definition receive_razorpay_webhook (now : datetime) (raced : bool) (raw_body : string)
    (signature event_id : option string) : BM unit :=
  transaction (
    if (MAX_WEBHOOK_BYTES <? String.length raw_body)%nat then raise_st (BillingError 413 "webhook_payload_too_large")
    else
      verify_webhook_signature raw_body signature;;
      match json_loads raw_body with
      | None => raise_st (BillingError 400 "invalid_webhook_payload")
      | Some (JObj payload) =>
          let event_type := py_strip (str_or_empty (jget_or_null "event" payload)) in
          let event_id := webhook_event_id raw_body event_id in
          w ← get_st;
          match bw_events w !! event_id with
          | Some _ => mret tt
          | None => if raced then mret tt else process_event now raw_body event_id event_type payload
          end
      | Some _ => raise_st Unhandled
      end).

(** ** Checkout *)

Definition newer (a b : BillingSubscription) : bool := (bs_created_at b <=? bs_created_at a)%Z.

(** The tenant's unpaid subscription of the same terms, half an hour old at most. *)
Definition reusable (now : datetime) (tenant_id : uuid) (plan_tier : PlanTier.t) (billing_interval currency : string)
    (s : BillingSubscription) : bool :=
  bool_decide (bs_tenant_id s = tenant_id) && bool_decide (bs_plan_tier s = plan_tier)
  && bool_decide (bs_billing_interval s = billing_interval) && bool_decide (bs_currency s = currency)
  && bool_decide (bs_status s = "created") && (now - 1800 * 1000000 <=? bs_created_at s)%Z.

Definition current_of (tenant_id : uuid) (s : BillingSubscription) : bool :=
  bool_decide (bs_tenant_id s = tenant_id) && bool_decide (bs_status s ∈ CURRENT_SUBSCRIPTION_STATUSES).

(** The row of the provider's answer; [id] is drawn. *)
Definition subscription_of (now : datetime) (id tenant_id : uuid) (plan_tier : PlanTier.t)
    (billing_interval currency : string) (provider : obj) : BillingSubscription :=
  let customer := str_or_empty (jget_or_null "customer_id" provider) in
  let status := str_or_empty (jget_or_null "status" provider) in
  {| bs_id := id; bs_tenant_id := tenant_id;
     bs_provider_subscription_id := py_str str_other (jget_or_null "id" provider);
     bs_provider_customer_id := if bool_decide (customer = EmptyString) then None else Some customer;
     bs_plan_tier := plan_tier; bs_billing_interval := billing_interval; bs_currency := currency;
     bs_status := if bool_decide (status = EmptyString) then "created" else status;
     bs_checkout_url := Some (py_str str_other (jget_or_null "short_url" provider)); bs_current_start := None;
     bs_current_end := None; bs_cancel_at_period_end := false; bs_created_at := now |}.

Record Checkout := { co_key_id : string; co_subscription_id : string; co_checkout_url : string }.

(** The lock on the tenant's budget lets one checkout of a tenant run at a time. *)
Definition create_billing_checkout (now : datetime) (id : uuid) (response : option (Z * option json))
    (tenant_id : uuid) (plan_tier : PlanTier.t) (billing_interval currency : string) : BM Checkout :=
  w ← get_st;
  match qs_budgets (bw_quota w) !! tenant_id with
  | None => raise_st (BillingError 503 "tenant_billing_not_ready")
  | Some _ =>
      if negb (bool_decide (length (rows_where (current_of tenant_id) (bw_subscriptions w)) = 0%nat))
      then raise_st (BillingError 409 "active_subscription_already_exists") else
      subscription ← match head (sort_by newer (rows_where (reusable now tenant_id plan_tier billing_interval currency)
                                                  (bw_subscriptions w))) with
        | Some s => mret s
        | None =>
            provider ← create_subscription response (PlanTier.value plan_tier) billing_interval currency;
            let s := subscription_of now id tenant_id plan_tier billing_interval currency provider in
            if negb (bool_decide (length (rows_where (provider_is (bs_provider_subscription_id s)) (bw_subscriptions w)) = 0%nat))
            then raise_st Unhandled else
            put_subscription s;; mret s
        end;
      match bs_checkout_url subscription with
      | None | Some EmptyString => raise_st (BillingError 409 "checkout_url_unavailable")
      | Some url =>
          key_id ← public_key_id;
          mret {| co_key_id := key_id; co_subscription_id := bs_provider_subscription_id subscription;
                  co_checkout_url := url |}
      end
  end.

Definition verify_billing_checkout (tenant_id : uuid) (payment_id subscription_id signature : string)
    : BM PlanTier.t :=
  w ← get_st;
  match rows_where (fun s => bool_decide (bs_tenant_id s = tenant_id) && provider_is subscription_id s)
          (bw_subscriptions w) with
  | [] => raise_st (BillingError 404 "subscription_not_found")
  | [s] =>
      verify_checkout_signature payment_id subscription_id signature;;
      (if bool_decide (bs_status s = "created") then put_subscription (s <| bs_status := "authenticated" |>)
       else mret tt);;
      mret (bs_plan_tier s)
  | _ => raise_st Unhandled
  end.

Record SubscriptionView := {
  sv_subscription : option BillingSubscription; sv_plan_tier : PlanTier.t; sv_limits : PlanLimits }.

(** The newest subscription, and the limits of the budget's plan. *)
Definition get_billing_subscription (tenant_id : uuid) (w : BillingWorld) : SubscriptionView :=
  let tier := match qs_budgets (bw_quota w) !! tenant_id with Some b => b_plan_tier b | None => PlanTier.free end in
  {| sv_subscription := head (sort_by newer (rows_where (fun s => bool_decide (bs_tenant_id s = tenant_id))
                                               (bw_subscriptions w)));
     sv_plan_tier := tier; sv_limits := PLAN_LIMITS tier |}.
End Billing.
