(* ===== verification/BillingTheorems.v ===== *)
(** * Billing: theorems

    A plan changes only by a signed event of a stored subscription, and the
    tenant's plan, the budget's plan and its limits always agree. *)

From S2P Require Export Billing.

#[local] Open Scope string_scope.

Section Theorems.
Context `{PyLib}.
Variable getenv : string -> string.
Variable hmac_sha256 : string -> string -> string.
Variable sha256 : string -> string.
Variable json_loads : string -> option json.

Abbreviation receive := (receive_razorpay_webhook getenv hmac_sha256 sha256 json_loads).
Abbreviation checkout := (create_billing_checkout getenv).
Abbreviation verify := (verify_billing_checkout getenv hmac_sha256).

Definition budgets (w : BillingWorld) : gmap uuid TenantBudget := qs_budgets (bw_quota w).

(** Plans and budgets are those of before. *)
Definition same_plans (w w' : BillingWorld) : Prop := bw_plans w' = bw_plans w /\ budgets w' = budgets w.

(** The tenant's plan and its budget are set to [tier]. *)
Definition plan_set (tenant : uuid) (tier : PlanTier.t) (w w' : BillingWorld) : Prop :=
  bw_plans w' = alter (fun _ => tier) tenant (bw_plans w) /\
  budgets w' = alter (limits_set tier) tenant (budgets w).

Definition signed (raw_body : string) (signature : option string) : Prop :=
  let secret := py_strip (getenv "RAZORPAY_WEBHOOK_SECRET") in
  secret <> EmptyString /\ signature = Some (hmac_sha256 secret raw_body).

Lemma signed_inv raw_body signature w w' :
  verify_webhook_signature getenv hmac_sha256 raw_body signature w = (w', inr tt) -> w' = w /\ signed raw_body signature.
Proof.
  unfold verify_webhook_signature. case_bool_decide; [done|].
  destruct signature as [[|c s]|]; [done| |done]. case_bool_decide as Hs; [|done]. intros [= <-]. split; [done|].
  split; [done|]. by rewrite Hs.
Qed.

Lemma plan_id_inv tier interval currency w w' v :
  configured_plan_id getenv tier interval currency w = (w', inr v) -> w' = w /\ tier ∈ PAID_PLAN_NAMES.
Proof.
  unfold configured_plan_id. case_bool_decide; cbn [negb]; [|done]. case_bool_decide; [done|]. by intros [= <- _].
Qed.

Lemma set_plan_inv tenant tier w w' :
  set_plan tenant tier w = (w', inr tt) ->
  plan_set tenant tier w w' /\ bw_subscriptions w' = bw_subscriptions w /\ bw_events w' = bw_events w.
Proof.
  unfold set_plan, mbind, M_bind, get_st, modify_st.
  destruct (qs_budgets (bw_quota w) !! tenant); [destruct (pl_rate_limit_per_user_per_minute _)|];
    by intros [= <-].
Qed.

(** The subscription entity of a webhook's payload. *)
Definition event_entity (payload : obj) : option obj :=
  p ← sub_object "payload" payload; s ← sub_object "subscription" p; sub_object "entity" s.

(** The stored subscription [s0] is the one the entity names, under the plan
    configured for its terms, and [s] is its row as the entity reports it. *)
Record event_subject (entity : obj) (s0 s : BillingSubscription) (w w' : BillingWorld) : Prop := {
  es_named : bs_provider_subscription_id s0 = py_strip (str_or_empty (jget_or_null "id" entity));
  es_given : bs_provider_subscription_id s0 <> EmptyString;
  es_stored : rows_where (provider_is (bs_provider_subscription_id s0)) (bw_subscriptions w) = [s0];
  es_plan : exists plan_id, jget_or_null "plan_id" entity = JStr plan_id /\
    configured_plan_id getenv (PlanTier.value (bs_plan_tier s0)) (bs_billing_interval s0) (bs_currency s0) w
      = (w, inr plan_id);
  es_reported : reported s0 entity = Some s;
  es_written : bw_subscriptions w' = <[bs_id s := s]> (bw_subscriptions w);
}.

(** What a processed event may do to plans, for the subscription [s] as the event
    reports it. *)
Definition follows (event_type : string) (s : BillingSubscription) (w w' : BillingWorld) : Prop :=
  exists tier, plan_set (bs_tenant_id s) tier w w' /\ superseded s (bw_subscriptions w') = false /\
    ((event_type ∈ ACTIVATION_EVENTS /\ tier = bs_plan_tier s) \/
     ((event_type ∉ ACTIVATION_EVENTS) /\ event_type ∈ TERMINAL_EVENTS /\ tier = PlanTier.free)).

Lemma apply_inv event_type s w w' :
  apply_event event_type s w = (w', inr tt) ->
  bw_subscriptions w' = bw_subscriptions w /\ bw_events w' = bw_events w /\
  (same_plans w w' \/ follows event_type s w w').
Proof.
  unfold apply_event. intros (w0 & x & [= <- <-] & Hrun)%M_bind_inv.
  destruct (superseded s (bw_subscriptions w)) eqn:Hsup; [injection Hrun as <-; split_and!; [done|done|by left]|].
  case_bool_decide as Hact; [|case_bool_decide as Hterm].
  - apply set_plan_inv in Hrun as (Hset & Hs & He). split_and!; [done|done|right].
    exists (bs_plan_tier s). rewrite Hs. split_and!; [done|done|by left].
  - apply set_plan_inv in Hrun as (Hset & Hs & He). split_and!; [done|done|right].
    exists PlanTier.free. rewrite Hs. split_and!; [done|done|by right].
  - injection Hrun as <-. split_and!; [done|done|by left].
Qed.

Lemma reported_plan s entity s' : reported s entity = Some s' -> bs_plan_tier s' = bs_plan_tier s.
Proof. unfold reported. intros (? & _ & (? & _ & [= <-])%bind_Some)%bind_Some. done. Qed.

Lemma process_inv now raw_body event_id event_type payload w w' :
  process_event getenv sha256 now raw_body event_id event_type payload w = (w', inr tt) ->
  exists entity s0 s, event_entity payload = Some entity /\ event_subject entity s0 s w w' /\
    PlanTier.value (bs_plan_tier s0) ∈ PAID_PLAN_NAMES /\
    is_Some (bw_events w' !! event_id) /\
    (forall e, e <> event_id -> bw_events w' !! e = bw_events w !! e) /\
    (same_plans w w' \/ follows event_type s w w').
Proof.
  intros (w0 & entity & [-> Hentity]%lift_opt_inv & Hrun)%M_bind_inv.
  apply M_bind_inv in Hrun as (w0 & x & [= <- <-] & Hrun).
  match type of Hrun with context [match ?l with _ => _ end] => destruct l as [|s0 [|s1 l']] eqn:Hrows end; [done| |done].
  apply M_bind_inv in Hrun as (w0 & v & Hv & Hrun). pose proof Hv as [-> Hpaid]%plan_id_inv.
  case_bool_decide as Hplan; cbn [negb] in Hrun; [|done].
  apply M_bind_inv in Hrun as (w1 & s & [-> Hs]%lift_opt_inv & Hrun). exists entity, s0, s.
  apply M_bind_inv in Hrun as (w1 & [] & Hput & Hrun). injection Hput as <-.
  apply M_bind_inv in Hrun as (w2 & [] & Happly%apply_inv & Hrun).
  destruct Happly as (Hs2 & He2 & Hplans). apply M_bind_inv in Hrun as (w3 & [] & Hstore & Hrun). injection Hstore as <-.
  split; [done|].
  assert (bw_subscriptions w' = bw_subscriptions w2 /\ bw_plans w' = bw_plans w2 /\ budgets w' = budgets w2 /\
          bw_events w' = <[event_id := {| we_event_type := if bool_decide (event_type = EmptyString) then "unknown" else event_type;
             we_payload_sha256 := sha256 raw_body; we_processed_at := Some now |}]> (bw_events w2)) as (Hsub & Hp & Hb & He)
    by (destruct (plan_event event_type); injection Hrun as <-; done).
  split_and!; [|done|..].
  - clear Hrun He. case_bool_decide as Hid; [done|].
    assert (bs_provider_subscription_id s0 = py_strip (str_or_empty (jget_or_null "id" entity))) as Hname.
    { assert (s0 ∈ rows_where (provider_is (py_strip (str_or_empty (jget_or_null "id" entity)))) (bw_subscriptions w))
        as Hin by (rewrite Hrows; apply list_elem_of_here).
      by apply elem_of_rows_where in Hin as [Hin%bool_decide_eq_true _]. }
    split; [done|congruence|by rewrite Hname|by exists v|done|by rewrite Hsub, Hs2].
  - rewrite He, lookup_insert_eq. done.
  - intros e Hne. by rewrite He, lookup_insert_ne, He2 by done.
  - destruct Hplans as [[Hp2 Hb2]|(tier & [Hp2 Hb2] & Hsup & Htier)]; [left|right].
    + unfold same_plans. rewrite Hp, Hb, Hp2, Hb2. done.
    + exists tier. unfold plan_set. rewrite Hp, Hb, Hp2, Hb2, Hsub. done.
Qed.

Lemma receive_inv now raced raw_body signature event_id w w' r :
  receive now raced raw_body signature event_id w = (w', r) ->
  w' = w \/
  exists payload, json_loads raw_body = Some (JObj payload) /\ signed raw_body signature /\ r = inr tt /\
    bw_events w !! webhook_event_id sha256 raw_body event_id = None /\
    process_event getenv sha256 now raw_body (webhook_event_id sha256 raw_body event_id)
      (py_strip (str_or_empty (jget_or_null "event" payload))) payload w = (w', inr tt).
Proof.
  unfold receive_razorpay_webhook, transaction.
  match goal with |- context [match ?m w with _ => _ end] => destruct (m w) as [w1 [e|[]]] eqn:Hrun end;
    intros [= <- <-]; [by left|].
  destruct (MAX_WEBHOOK_BYTES <? String.length raw_body)%nat; [done|].
  apply M_bind_inv in Hrun as (w0 & [] & [-> Hsigned]%signed_inv & Hrun).
  destruct (json_loads raw_body) as [[| | | | | | |payload]|] eqn:Hload; try done.
  apply M_bind_inv in Hrun as (w0 & x & [= <- <-] & Hrun).
  destruct (bw_events w !! _) eqn:Hseen; [injection Hrun as <-; by left|].
  destruct raced; [injection Hrun as <-; by left|]. right. by exists payload.
Qed.

(** ** Plans and limits agree *)

Inductive billing_step : BillingWorld -> BillingWorld -> Prop :=
  | step_webhook now raced raw_body signature event_id w w' r :
      receive now raced raw_body signature event_id w = (w', r) -> billing_step w w'
  | step_checkout now id response tenant tier interval currency w w' r :
      bw_subscriptions w !! id = None ->
      checkout now id response tenant tier interval currency w = (w', r) -> billing_step w w'
  | step_verify tenant payment subscription signature w w' r :
      verify tenant payment subscription signature w = (w', r) -> billing_step w w'.

(** The budget of a tenant has the tenant's plan and exactly its limits. *)
Definition limits_agree (b : TenantBudget) : Prop := limits_set (b_plan_tier b) b = b.
Definition plans_agree (w : BillingWorld) : Prop :=
  forall t b, budgets w !! t = Some b -> bw_plans w !! t = Some (b_plan_tier b) /\ limits_agree b.

Lemma set_agrees tier b : pl_rate_limit_per_user_per_minute (PLAN_LIMITS tier) <> None -> limits_agree (limits_set tier b).
Proof. unfold limits_agree, limits_set. by destruct tier; cbn. Qed.

Lemma paid_rate tier :
  PlanTier.value tier ∈ PAID_PLAN_NAMES \/ tier = PlanTier.free ->
  pl_rate_limit_per_user_per_minute (PLAN_LIMITS tier) <> None.
Proof. intros [Hin| ->]; [|done]. destruct tier; try discriminate. apply list_elem_of_In in Hin; cbn in Hin; intuition discriminate. Qed.

Lemma plan_set_agrees tenant tier w w' :
  pl_rate_limit_per_user_per_minute (PLAN_LIMITS tier) <> None ->
  plan_set tenant tier w w' -> plans_agree w -> plans_agree w'.
Proof.
  intros Hrate [Hp Hb] Hok t b. rewrite Hp, Hb. destruct (decide (t = tenant)) as [->|Hne].
  - rewrite !lookup_alter_eq. destruct (budgets w !! tenant) as [b0|] eqn:Hb0; [|done]. intros [= <-].
    destruct (Hok tenant b0 Hb0) as [-> _]. split; [done|by apply set_agrees].
  - rewrite !lookup_alter_ne by done. apply Hok.
Qed.

Lemma same_plans_agree w w' : same_plans w w' -> plans_agree w -> plans_agree w'.
Proof. intros [Hp Hb] Hok t b. rewrite Hp, Hb. apply Hok. Qed.

(** Calls that write no plan. *)
Definition plan_free {A} (m : BM A) : Prop := forall w, same_plans w (m w).1.

Lemma plan_free_bind {A B} (m : BM A) (f : A -> BM B) :
  plan_free m -> (forall a, plan_free (f a)) -> plan_free (m ≫= f).
Proof.
  intros Hm Hf w. specialize (Hm w). unfold mbind, M_bind. destruct (m w) as [w1 [e|a]]; [done|].
  specialize (Hf a w1). destruct Hm, Hf. split; cbn in *; congruence.
Qed.

Lemma plan_free_ret {A} (a : A) : plan_free (mret a).
Proof. done. Qed.
Lemma plan_free_raise {A} e : plan_free (raise_st e : BM A).
Proof. done. Qed.
Lemma plan_free_get : plan_free get_st.
Proof. done. Qed.
Lemma plan_free_put s : plan_free (put_subscription s).
Proof. done. Qed.
#[local] Hint Resolve @plan_free_ret @plan_free_raise plan_free_get plan_free_put : core.

Ltac plan_free :=
  repeat match goal with
    | |- plan_free (_ ≫= _) => apply plan_free_bind; [|intros ?]
    | |- plan_free (if ?b then _ else _) => destruct b
    | |- plan_free (match ?x with _ => _ end) => destruct x
    | |- plan_free (let _ := _ in _) => cbv zeta
    | |- _ => by auto
    end.

Lemma credentials_free : plan_free (_provider_credentials getenv).
Proof. unfold _provider_credentials, public_key_id. plan_free. Qed.
Lemma plan_id_free tier interval currency : plan_free (configured_plan_id getenv tier interval currency).
Proof. unfold configured_plan_id. plan_free. Qed.
#[local] Hint Resolve credentials_free plan_id_free : core.

Lemma create_free response tier interval currency : plan_free (create_subscription getenv response tier interval currency).
Proof. unfold create_subscription. plan_free. Qed.
#[local] Hint Resolve create_free : core.

Lemma checkout_free now id response tenant tier interval currency :
  plan_free (checkout now id response tenant tier interval currency).
Proof. unfold create_billing_checkout, public_key_id. plan_free. Qed.

Lemma verify_free tenant payment subscription signature : plan_free (verify tenant payment subscription signature).
Proof. unfold verify_billing_checkout, verify_checkout_signature. plan_free. Qed.

(** C20: The billing handlers (checkout, checkout verification and the provider's
    webhook) change plans in one way only: a webhook that carries a valid
    signature under the configured secret, and whose event was not processed
    before, activates or ends the one stored subscription that its payload's
    entity names by the provider's id, whose plan id is the one configured for
    the subscription's terms, and which no later current subscription of its
    tenant supersedes.  Then the plan and the limits of that subscription's
    tenant become the subscription's, or the free plan's, and no other
    tenant's change.  An event that was processed before changes nothing.  (The
    operators' internal route that sets a tenant's plan is none of these.) *)
Theorem plans_follow_signed_events w w' :
  billing_step w w' ->
  (same_plans w w' \/
   exists now raced raw_body signature event_id payload entity s0 s,
     receive now raced raw_body signature event_id w = (w', inr tt) /\
     signed raw_body signature /\ json_loads raw_body = Some (JObj payload) /\
     bw_events w !! webhook_event_id sha256 raw_body event_id = None /\
     is_Some (bw_events w' !! webhook_event_id sha256 raw_body event_id) /\
     event_entity payload = Some entity /\ event_subject entity s0 s w w' /\
     follows (py_strip (str_or_empty (jget_or_null "event" payload))) s w w') /\
  (forall now raced raw_body signature event_id w2 r,
     receive now raced raw_body signature event_id w' = (w2, r) ->
     is_Some (bw_events w' !! webhook_event_id sha256 raw_body event_id) -> w2 = w').
Proof.
  intros Hstep. split.
  - destruct Hstep as [now raced raw_body signature event_id w w' r Hrun|now id response tenant tier interval currency w w' r _ Hrun|
      tenant payment subscription signature w w' r Hrun].
    + destruct (receive_inv _ _ _ _ _ _ _ _ Hrun) as [->|(payload & Hload & Hsigned & -> & Hnew & Hproc)]; [by left|].
      apply process_inv in Hproc as (entity & s0 & s & He & Hs & _ & Hstored & _ & [?|Hf]); [by left|right].
      exists now, raced, raw_body, signature, event_id, payload, entity, s0, s. done.
    + left. pose proof (checkout_free now id response tenant tier interval currency w) as Hf. by rewrite Hrun in Hf.
    + left. pose proof (verify_free tenant payment subscription signature w) as Hf. by rewrite Hrun in Hf.
  - intros now raced raw_body signature event_id w2 r [->|(payload & _ & _ & _ & Hnew & _)]%receive_inv [e He]; [done|].
    by rewrite He in Hnew.
Qed.

(** C21: Whatever checkouts, verifications and webhooks come in whatever order, the
    plan in a tenant's row, the plan in its budget and the budget's limits keep
    agreeing with the catalogue of plans. *)
Theorem plans_and_limits_agree w w' : plans_agree w -> rtc billing_step w w' -> plans_agree w'.
Proof.
  intros Hok Hrun. induction Hrun as [|x y z Hstep _ IH]; [done|]. apply IH.
  destruct Hstep as [now raced raw_body signature event_id x y r Hrun|now id response tenant tier interval currency x y r _ Hrun|
    tenant payment subscription signature x y r Hrun].
  - apply (receive_inv now raced raw_body signature event_id x y r) in Hrun as [->|(payload & _ & _ & _ & _ & Hrun)]; [done|].
    apply process_inv in Hrun as (entity & s0 & s & _ & [_ _ _ _ Hs _] & Hpaid & _ & _ & [Hsame|(tier & Hset & _ & Htier)]); [by apply (same_plans_agree x)|].
    apply (plan_set_agrees (bs_tenant_id s) tier x y); [|done|done]. apply paid_rate.
    destruct Htier as [[_ ->]|(_ & _ & ->)]; [left; by rewrite (reported_plan _ _ _ Hs)|by right].
  - pose proof (checkout_free now id response tenant tier interval currency x) as Hf. rewrite Hrun in Hf.
    by apply (same_plans_agree x).
  - pose proof (verify_free tenant payment subscription signature x) as Hf. rewrite Hrun in Hf.
    by apply (same_plans_agree x).
Qed.
End Theorems.

(** ** Examples and shortfalls *)

Section Examples.
#[local] Existing Instance example_pylib.

Definition toy_getenv (name : string) : string := name.
Definition toy_hmac (secret message : string) : string := message.
Definition toy_digest (body : string) : string := body.

(** A body is the event's name and the subscription, apart by a slash. *)
Definition toy_payload (event subscription : string) : option json :=
  Some (JObj [("event", JStr event);
              ("payload", JObj [("subscription", JObj [("entity",
                 JObj [("id", JStr subscription); ("plan_id", JStr "RAZORPAY_PLAN_STARTER_MONTHLY_USD");
                       ("status", JStr (if bool_decide (event = "subscription.cancelled") then "cancelled" else "active"))])])])]).
Definition toy_loads (body : string) : option json :=
  match String.index 0 "/" body with
  | Some n => toy_payload (String.substring 0 n body) (String.substring (S n) (String.length body) body)
  | None => None
  end.

Definition webhook (now : datetime) (event : string) (w : BillingWorld) : BillingWorld :=
  (receive_razorpay_webhook toy_getenv toy_hmac toy_digest toy_loads now false event (Some event) None w).1.
Definition subscribed (now : datetime) (id : uuid) (subscription : string) (w : BillingWorld) : BillingWorld :=
  (create_billing_checkout toy_getenv now id
     (Some (200%Z, Some (JObj [("id", JStr subscription); ("short_url", JStr "url")]))) 1 PlanTier.starter "monthly"
     "usd" w).1.

(** Tenant 1 is on the free plan. *)
Definition free_world : BillingWorld :=
  {| bw_subscriptions := ∅; bw_events := ∅; bw_plans := {[1%Z := PlanTier.free]};
     bw_quota := {| qs_budgets := {[1%Z := limits_set PlanTier.free example_budget]}; qs_cache := Some ∅; qs_events := [] |} |}.
Definition waiting : BillingWorld := subscribed 10 101 "sub_1" free_world.
Definition paying : BillingWorld := webhook 20 "subscription.activated/sub_1" waiting.
Definition cancelled : BillingWorld := webhook 30 "subscription.cancelled/sub_1" paying.

Example a_subscription_pays_for_its_plan :
  bw_plans waiting !! 1%Z = Some PlanTier.free /\ bw_plans paying !! 1%Z = Some PlanTier.starter /\
  bw_plans cancelled !! 1%Z = Some PlanTier.free /\
  (b_monthly_call_limit <$> budgets paying !! 1%Z) = Some (Some 50000%Z).
Proof. vm_compute. done. Qed.

(** An event of the cancelled subscription that was on its way all along brings
    the paid plan back: delivery order is guarded between subscriptions only. *)
Example delayed_charge_revives_a_cancelled_plan :
  bw_plans (webhook 40 "subscription.charged/sub_1" cancelled) !! 1%Z = Some PlanTier.starter.
Proof. vm_compute. done. Qed.

Lemma paying_step : billing_step toy_getenv toy_hmac toy_digest toy_loads waiting paying.
Proof. exact (step_webhook toy_getenv toy_hmac toy_digest toy_loads 20 false _ _ None _ _ _ (surjective_pairing _)). Qed.

Lemma plans_follow_signed_events_witness :
  bw_plans waiting <> bw_plans paying /\
  exists payload entity s0 s,
    event_entity payload = Some entity /\ event_subject toy_getenv entity s0 s waiting paying /\
    follows (py_strip (str_or_empty (jget_or_null "event" payload))) s waiting paying.
Proof.
  assert (bw_plans waiting <> bw_plans paying) as Hne.
  { intros He. assert (bw_plans waiting !! 1%Z = bw_plans paying !! 1%Z) as H1 by by rewrite He.
    vm_compute in H1. discriminate. }
  split; [exact Hne|].
  destruct (proj1 (plans_follow_signed_events toy_getenv toy_hmac toy_digest toy_loads waiting paying paying_step))
    as [[Hsame _]|(now & raced & raw & sig & id & payload & entity & s0 & s & _ & _ & _ & _ & _ & He & Hs & Hf)];
    [by destruct Hne|].
  exists payload, entity, s0, s. exact (conj He (conj Hs Hf)).
Defined.

Lemma plans_and_limits_agree_witness : plans_agree cancelled.
Proof.
  apply (plans_and_limits_agree toy_getenv toy_hmac toy_digest toy_loads free_world).
  - intros t b. unfold budgets, free_world. cbn [bw_quota qs_budgets bw_plans].
    intros [<- <-]%lookup_singleton_Some. split; [reflexivity|]. unfold limits_agree. reflexivity.
  - apply (rtc_l _ _ waiting); [|apply (rtc_l _ _ paying); [|apply rtc_once]].
    + refine (step_checkout toy_getenv toy_hmac toy_digest toy_loads 10 101
        (Some (200%Z, Some (JObj [("id", JStr "sub_1"); ("short_url", JStr "url")]))) 1 PlanTier.starter "monthly" "usd"
        _ _ _ _ (surjective_pairing _)). reflexivity.
    + exact (step_webhook toy_getenv toy_hmac toy_digest toy_loads 20 false _ _ None _ _ _ (surjective_pairing _)).
    + exact (step_webhook toy_getenv toy_hmac toy_digest toy_loads 30 false _ _ None _ _ _ (surjective_pairing _)).
Defined.
End Examples.
